(* ===== verification/_CoqProject ===== *)
-Q . S2P
Prelude.v
Bytes.v
CString.v
Buffer.v
CircBuffer.v
Queue.v
Packet.v
Transport.v
PacketQueues.v
PacketSafety.v
Algo.v
Kex.v
KexSafety.v
KexSession.v
KexLoop.v
KexStrict.v
KexKeys.v
KexToy.v
SessionData.v
Channel.v
ChannelLaws.v
ChannelFlow.v
ChannelData.v
ChannelClose.v
ChannelSafety.v
ChannelMessages.v
ChannelErrors.v
ChannelPacket.v
ChannelToy.v
Base64.v
Sshd4a.v
AuthKeys.v
AuthKeysSafety.v
KeyTypes.v
Rsa.v
RsaCorrect.v
RsaToy.v
SignKey.v
Auth.v
AuthSafety.v
AuthRun.v
AuthToy.v
Timers.v
TimersSafety.v
TimersToy.v
Listener.v
Netio.v
Forward.v
ChanSess.v
NetioSafety.v
ChannelFrame.v
ForwardSafety.v
ForwardRequests.v
ForwardChannels.v
ForwardFrame.v
ChanSessFrame.v
ChanSessSafety.v
ChanSessRun.v
ChanSessExits.v
ChanSessErrors.v
ChanOpen.v
ForwardToy.v
ChanSessToy.v
Server.v
ServerSafety.v
ServerToy.v
