(* ===== verification/Prelude.v ===== *)
(** * Verification of the Sshd4a native server

    Sshd4a is an SSH server for Android.  A Java service loads the native library, which is
    dropbear (src/app/src/main/cpp/dropbear/src) with the file of users, the roles and the
    environment of the application (src/app/src/main/cpp/jni-dropbear.c).  The server forks
    a process for every connection; this development models the process that accepts them and
    what each of the others does, from the bytes on the socket to the connections it makes for
    its peer.

    ** The parts and how they interact

    The bytes of the socket are packets (Packet.v).  The packets of a key exchange go to
    Kex.v, which negotiates with the name lists of Algo.v and switches the keys the packet
    layer uses; the requests to authenticate go to Auth.v, which asks the file of users
    (Sshd4a.v) or the file of authorized keys (AuthKeys.v) and verifies signatures
    (SignKey.v, Rsa.v); after that the packets go to the channels (Channel.v), whose types
    are forwarded connections (Forward.v) and sessions with their processes (ChanSess.v).
    Forward.v listens through Listener.v and connects through Netio.v; ChanSess.v runs the
    shell of Sshd4a.v, with the options of the key from AuthKeys.v.  The timeouts of the
    session loop are Timers.v.  Server.v accepts the connections, over the kernel of Netio.v.

    Layers meet in type classes.  Channel.v is written over [Session] (a payload that is
    read, one that is written, [encrypt_packet]), [Sys] (descriptors) and [ChanTypes] (what a
    type of channel adds), with the laws [SessionLaws], [SysLaws] and [type_laws].
    ChannelPacket.v makes the packet layer an instance of [Session] and discharges the laws;
    Forward.v and ForwardChannels.v do so for [ChanTypes], with the type of sessions as a
    parameter, which ChanSess.v and ChanSessSafety.v give.  Auth.v and Timers.v extend
    [Session] with the fields of [struct sshsession] they use.  Ciphers, MACs and zlib are the
    class [Crypto], hashes and the other key exchanges [KexLib], signing keys on elliptic
    curves [KeyAlgs], sockets [NetSys], processes and terminals [SesSys]: code that is not part of the repository or not
    modelled, of which only documented behaviour is assumed ([CryptoLaws], [CryptoSane],
    [NetLaws], [SesSysLaws], ...).  Every theorem with hypotheses is applied to a concrete instance in a file
    ending in Toy, or beside it.

    ** Files, and the code each models (under dropbear/src unless said otherwise)

    - Prelude.v: outcomes, machine integers, memory; Bytes.v: libtomcrypt's loads and stores,
      integers as bytes; CString.v: functions of string.h, [m_str_to_uint],
      [split_address_port].
    - Buffer.v: buffer.c.  CircBuffer.v: circbuffer.c.  Queue.v: queue.c and list.c, over a
      heap.  Base64.v: libtomcrypt's base64.
    - Packet.v: packet.c and the write queue of netio.c; theorems in Transport.v (both ends
      together), PacketQueues.v and PacketSafety.v.
    - Algo.v: common-algo.c.  Kex.v: common-kex.c, svr-kex.c, kex-dh.c and process-packet.c;
      theorems in KexSafety.v, KexSession.v, KexLoop.v (the loop of common-session.c),
      KexStrict.v and KexKeys.v; an instance in KexToy.v.
    - Channel.v: common-channel.c; its contracts in ChannelLaws.v, one channel in
      ChannelFlow.v, data in ChannelData.v, closing in ChannelClose.v, all events together in
      ChannelSafety.v, messages in ChannelMessages.v, errors in ChannelErrors.v, the packet
      layer below in ChannelPacket.v, what channels leave alone in ChannelFrame.v; instances
      in ChannelToy.v.
    - Sshd4a.v: jni-dropbear.c and [run_shell_command] of dbutil.c.
    - AuthKeys.v: svr-authpubkeyoptions.c and the search of svr-authpubkey.c; theorems in
      AuthKeysSafety.v.  KeyTypes.v and SignKey.v: signkey.c.  Rsa.v: rsa.c; theorems in
      RsaCorrect.v, a key in RsaToy.v.
    - Auth.v: svr-auth.c, svr-authpasswd.c, svr-authpubkey.c, svr-service.c; theorems in
      AuthSafety.v and AuthRun.v, an instance in AuthToy.v.
    - Timers.v: the timeouts and the identification in common-session.c; theorems in
      TimersSafety.v, an instance in TimersToy.v.
    - Listener.v: listener.c.  Netio.v: the connecting and listening of netio.c; laws in
      NetioSafety.v.  Forward.v: svr-forward.c, svr-tcpfwd.c, svr-streamfwd.c, tcp-accept.c;
      theorems in ForwardSafety.v, ForwardRequests.v and ForwardChannels.v, what forwarding
      leaves alone in ForwardFrame.v, an instance in ForwardToy.v.
    - SessionData.v: chansession.h, before Channel.v, whose channels point to it.  ChanSess.v:
      svr-chansession.c, termcodes.c, the terminals of sshpty.c, [spawn_command] of dbutil.c and
      the addresses of netio.c; what sessions leave alone in ChanSessFrame.v, their contracts
      in ChanSessSafety.v, runs of the whole server in ChanSessRun.v, terminals, exits and
      closing in ChanSessExits.v, a command after EOF in ChanSessErrors.v, the opening of
      channels of all types in ChanOpen.v, an instance in ChanSessToy.v.
    - Server.v: svr-main.c; theorems in ServerSafety.v, an instance in ServerToy.v.

    ** How the code is read

    A function of C is a definition of the same name.  A fatal error ([dropbear_exit],
    [dropbear_close]) is [Exit] with its format string, a failed [dropbear_assert] is [Exit
    assert_msg], and undefined behaviour (an access outside a block, a null or dangling
    pointer, a failed [assert] of a library) is [Undef]; everything else is [Ok].  [opost] says
    that there is no [Undef], [safe] that neither an assertion fails.  Structures are records
    passed along; a pointer into a table is an index; unsigned arithmetic is written with its
    wrap-around.  The result of a system call comes from the state of the kernel, of which
    nothing is known but the laws, so the theorems hold for all its behaviours.  Logging and
    TRACE are dropped; [m_malloc] never fails and gives zeroes; [CHECKCLEARTOWRITE] is empty as in
    the code; the clock stands still within one round of the loop; interrupted calls that the
    code repeats are one call; the descriptors that only serve [select] ([ses.maxfd]) and
    [setnonblocking] are left out; files are read as constants.

    The build is the one of localoptions.h and the application's flags: the server alone (the
    client's branches, and the callbacks only the client sets, such as [read_mangler], are not
    compiled), one user ([DROPBEAR_SVR_MULTIUSER] and [DROPBEAR_SVR_DROP_PRIVS] 0), the extended
    authentication of Sshd4a, no X11 and no agent forwarding, no message of the day, the
    sftp subsystem and all other forwarding on.

    ** Loops and fuel

    Loops over data are structural.  Where they are not, the fuel is a bound the code cannot
    exceed, and the theorems show that it is enough: keeping data in a circular buffer takes at
    least a byte a turn (fuel: the length of the data); the readers of lines and of options
    advance a buffer (fuel: what is left of it); a line of the file of users is at least one
    byte (fuel: the length of the file); deriving a key adds a hash a turn (fuel: the length of
    the key); padding for RSA fills to the size of the modulus; connecting tries an address a
    turn (fuel: one more than the addresses); the modes of a terminal take at least a byte a
    turn (fuel: one more than their length); a 32-bit number has at most ten digits.

    ** What the theorems show

    - Packets: what one side sends the other receives, in order, however the network cuts the
      stream; nothing is accepted whose MAC is wrong; nothing the peer or the socket does
      leaves a buffer; the queues are first-in first-out.
    - Key exchange: a state machine that follows no null pointer whatever is sent; strict key
      exchange admits nothing else before NEWKEYS; the keys are those of RFC 4253; both ends
      agree on algorithms and secret; no service before authentication.
    - Channels: no sequence of events breaks the invariant or follows a dangling pointer, as
      long as no connection is completed for a channel that has been closed and no request comes
      for a session without a process after its EOF ([events_timely]; that these end the whole
      connection is shown by [eof_before_connection] and [command_after_eof]); when the peer also
      keeps to its windows ([events_ok]), no assertion fails; data is delivered in order and
      within the windows; EOF and CLOSE are sent once and in this order; what a request to open
      a channel gets.
    - Authentication: no session gets in without the right password or a signature by a listed
      key; wrong guesses are limited; the right password gets in, or leaves the key to do when
      two methods are required.
    - RSA: signatures made are signatures accepted.
    - Timeouts: unauthenticated sessions and silent peers end in bounded time.
    - Forwarding: every address bound or connected to is one the options and the key allow; the
      channels, connections and listeners keep their invariants together; a port asked for can
      be given up, a Unix socket never can, which is a defect of the code.
    - Sessions: with all types of channels together nothing undefined happens and no assertion
      fails, under the conditions given for channels; a command asked for after EOF ends the
      connection, a defect of the code; the table of processes and the sessions point at each other; every process runs the shell of the user
      and what is forced on it; exits are stored with their session and reported once, before
      it is closed; a terminal gets the modes asked for.
    - Accepting: the children that have not authenticated are limited, in all and for each
      address, and the process that listens keeps no other descriptors unless a fork fails.
    - Buffers, circular buffers, file of users: memory safety, refinement of a queue, round
      trips, the first entry of a user.

    ** Not modelled

    Of sessions, the handler of SIGCHLD (which only wakes the loop), the wiping of keys and of
    random numbers in a child, and the closing of its descriptors above 2 are left out; [fork]
    is given what the child goes on to do, and a child that goes on as a server is not followed.
    The elliptic curve and post-quantum exchanges, elliptic curve signatures, ciphers and hashes
    are parameters: libraries or field arithmetic of their own.  Of svr-main.c, daemon(), the pid
    file and inetd mode are left out; svr-runopts.c and the JNI functions that start and stop the
    server read options and redirect files.  X11 and agent forwarding and login records are not
    compiled.  The client, scp, the key tools, OpenSSH's sftp-server, rsync, the su shell and
    the Java application are other programs. *)


From stdpp Require Export base numbers list gmap strings.
From Stdlib Require Export ZArith Lia.

#[global] Open Scope Z_scope.

Declare Scope outcome_scope.
Delimit Scope outcome_scope with outcome.
#[global] Open Scope outcome_scope.

(** ** Machine integers *)

Ltac Zify.zify_post_hook ::= Z.to_euclidean_division_equations.

Definition u8 (z : Z) : Z := z mod 256.
Definition u16 (z : Z) : Z := z mod 65536.
Definition u32 (z : Z) : Z := z mod 4294967296.
Definition u64 (z : Z) : Z := z mod 18446744073709551616.
Definition is_byte (z : Z) : Prop := 0 <= z < 256.
Definition is_u32 (z : Z) : Prop := 0 <= z < 4294967296.

(** Two's complement reading of a 32-bit pattern (a C [int] or rsync's [int32]). *)
Definition s32 (z : Z) : Z := let w := u32 z in if w <? 2147483648 then w else w - 4294967296.

#[global] Arguments u8 : simpl never.
#[global] Arguments u16 : simpl never.
#[global] Arguments u32 : simpl never.
#[global] Arguments u64 : simpl never.
#[global] Arguments s32 : simpl never.

Lemma u32_small z : 0 <= z < 4294967296 -> u32 z = z.
Proof. intros H. unfold u32. by apply Z.mod_small. Qed.

Lemma u8_small z : 0 <= z < 256 -> u8 z = z.
Proof. intros H. unfold u8. by apply Z.mod_small. Qed.

Lemma u32_range z : 0 <= u32 z < 4294967296.
Proof. unfold u32. by apply Z.mod_pos_bound. Qed.

Lemma u8_range z : 0 <= u8 z < 256.
Proof. unfold u8. by apply Z.mod_pos_bound. Qed.

(** ** Fallible C code

    A C function returns ([Ok]), ends the process through [dropbear_exit] or an
    equivalent fatal error ([Exit], with the format string), or has undefined
    behaviour ([Undef]): an access outside the object it points into. *)

Inductive outcome (A : Type) : Type :=
| Ok (a : A)
| Exit (msg : string)
| Undef.
Arguments Ok {A} a.
Arguments Exit {A} msg%_string.
Arguments Undef {A}.

Definition obind {A B} (m : outcome A) (k : A -> outcome B) : outcome B :=
  match m with Ok a => k a | Exit e => Exit e | Undef => Undef end.

Notation "'let*' x := m 'in' k" := (obind m (fun x => k))
  (at level 10, x pattern, m at level 100, k at level 200) : outcome_scope.

(** [if (c) dropbear_exit(msg);] *)
Definition exit_if (c : bool) (msg : string) : outcome unit := if c then Exit msg else Ok tt.

(** [dropbear_assert(c)]: a failed assertion is a [dropbear_exit]. *)
Definition oassert (c : bool) : outcome unit := if c then Ok tt else Exit "Failed assertion (%s:%d): `%s'".

(** An operation is safe when it has no undefined behaviour. *)
Definition defined {A} (m : outcome A) : Prop := match m with Undef => False | _ => True end.

Definition is_ok {A} (m : outcome A) : bool := match m with Ok _ => true | _ => false end.

Lemma obind_Ok {A B} (m : outcome A) (k : A -> outcome B) b :
  obind m k = Ok b <-> exists a, m = Ok a /\ k a = Ok b.
Proof. destruct m; naive_solver. Qed.

Lemma obind_defined {A B} (m : outcome A) (k : A -> outcome B) :
  defined m -> (forall a, m = Ok a -> defined (k a)) -> defined (obind m k).
Proof. destruct m; naive_solver. Qed.

Lemma obind_assoc {A B C} (m : outcome A) (k : A -> outcome B) (h : B -> outcome C) :
  obind (obind m k) h = obind m (fun a => obind (k a) h).
Proof. by destruct m. Qed.

Lemma exit_if_Ok c msg u : exit_if c msg = Ok u <-> c = false.
Proof. destruct c, u; naive_solver. Qed.

Lemma exit_if_defined c msg : defined (exit_if c msg).
Proof. by destruct c. Qed.

Lemma oassert_Ok c u : oassert c = Ok u <-> c = true.
Proof. destruct c, u; naive_solver. Qed.

(** Partial correctness with safety: no undefined behaviour, and [P] of the result. *)
Definition opost {A} (P : A -> Prop) (m : outcome A) : Prop :=
  match m with Ok a => P a | Exit _ => True | Undef => False end.

Lemma opost_bind {A B} (P : A -> Prop) (Q : B -> Prop) (m : outcome A) (k : A -> outcome B) :
  opost P m -> (forall a, m = Ok a -> P a -> opost Q (k a)) -> opost Q (obind m k).
Proof. destruct m; naive_solver. Qed.

Lemma opost_mono {A} (P Q : A -> Prop) (m : outcome A) :
  opost P m -> (forall a, m = Ok a -> P a -> Q a) -> opost Q m.
Proof. destruct m; naive_solver. Qed.

Lemma opost_defined {A} (P : A -> Prop) (m : outcome A) : opost P m -> defined m.
Proof. by destruct m. Qed.

Lemma opost_Ok {A} (P : A -> Prop) (m : outcome A) a : opost P m -> m = Ok a -> P a.
Proof. by intros H ->. Qed.

Lemma exit_if_post c msg : opost (fun _ => c = false) (exit_if c msg).
Proof. by destruct c. Qed.

Lemma oassert_post c : opost (fun _ => c = true) (oassert c).
Proof. by destruct c. Qed.

Lemma obind_if {A B} (c : bool) (m1 m2 : outcome A) (k : A -> outcome B) :
  obind (if c then m1 else m2) k = if c then obind m1 k else obind m2 k.
Proof. by destruct c. Qed.

(** Post-conditions that also exclude failed assertions: [Ok] with [P], or a fatal error
    that is not [assert_msg]. *)
Definition assert_msg : string := "Failed assertion (%s:%d): `%s'".

Definition safe {A} (P : A -> Prop) (m : outcome A) : Prop :=
  match m with Ok a => P a | Exit e => e <> assert_msg | Undef => False end.

Definition noassert {A} (m : outcome A) : Prop := m <> Exit assert_msg.

Lemma safe_bind {A B} (P : A -> Prop) (Q : B -> Prop) (m : outcome A) (k : A -> outcome B) :
  safe P m -> (forall a, m = Ok a -> P a -> safe Q (k a)) -> safe Q (obind m k).
Proof. destruct m; naive_solver. Qed.

Lemma safe_mono {A} (P Q : A -> Prop) (m : outcome A) : safe P m -> (forall a, P a -> Q a) -> safe Q m.
Proof. destruct m; naive_solver. Qed.

Lemma safe_split {A} (P : A -> Prop) (m : outcome A) : safe P m <-> opost P m /\ noassert m.
Proof. unfold noassert. destruct m; cbn; naive_solver. Qed.

Lemma safe_exit_if c msg : msg <> assert_msg -> safe (fun _ => c = false) (exit_if c msg).
Proof. by destruct c. Qed.

Lemma safe_oassert c : c = true -> safe (fun _ => True) (oassert c).
Proof. by intros ->. Qed.

Lemma noassert_bind {A B} (m : outcome A) (k : A -> outcome B) :
  noassert m -> (forall a, m = Ok a -> noassert (k a)) -> noassert (obind m k).
Proof. unfold noassert. destruct m; naive_solver. Qed.

Lemma noassert_exit_if c msg : msg <> assert_msg -> noassert (exit_if c msg).
Proof. unfold noassert. destruct c; cbn; congruence. Qed.

(** Partial correctness: [P] of the result, if there is one. *)
Definition returns {A} (P : A -> Prop) (m : outcome A) : Prop := match m with Ok a => P a | _ => True end.

Lemma returns_bind {A B} (P : A -> Prop) (Q : B -> Prop) (m : outcome A) (k : A -> outcome B) :
  returns P m -> (forall a, m = Ok a -> P a -> returns Q (k a)) -> returns Q (obind m k).
Proof. destruct m; naive_solver. Qed.

Lemma returns_mono {A} (P Q : A -> Prop) (m : outcome A) : returns P m -> (forall a, P a -> Q a) -> returns Q m.
Proof. destruct m; naive_solver. Qed.

Lemma returns_Ok {A} (P : A -> Prop) (m : outcome A) : returns P m <-> forall a, m = Ok a -> P a.
Proof. destruct m; naive_solver. Qed.

Lemma returns_true {A} (m : outcome A) : returns (fun _ => True) m.
Proof. by destruct m. Qed.

Create HintDb opost.
#[export] Hint Resolve exit_if_post oassert_post : opost.

Ltac osplit r :=
  lazymatch type of r with
  | (_ * _)%type => let a := fresh r in let b := fresh r in destruct r as [a b]; osplit a
  | unit => destruct r
  | _ => idtac
  end.

(** Run a post-condition through a sequence of binds with the lemmas of [opost]. *)
Ltac ostep :=
  lazymatch goal with
  | |- opost _ (obind _ _) =>
      eapply opost_bind; [solve [eauto with opost] | let r := fresh "r" in intros r ?; cbn beta; osplit r; intros]
  | |- opost _ (Ok _) => cbn [opost]
  | |- opost _ (Exit _) => exact I
  | |- opost _ (if ?c then _ else _) => destruct c eqn:?
  | |- opost _ (match ?c with _ => _ end) => destruct c eqn:?
  end.

(** Break a hypothesis [_ = Ok _] into the results of its steps. *)
Ltac inv_ok_step :=
  match goal with
  | H : obind _ _ = Ok _ |- _ =>
      apply obind_Ok in H; let a := fresh "r" in let H1 := fresh "Hr" in destruct H as (a & H1 & H)
  | H : exit_if _ _ = Ok _ |- _ => apply exit_if_Ok in H
  | H : oassert _ = Ok _ |- _ => apply oassert_Ok in H
  | H : Ok _ = Ok _ |- _ => injection H as H; subst
  | H : Exit _ = Ok _ |- _ => discriminate H
  | H : Undef = Ok _ |- _ => discriminate H
  | x : unit |- _ => destruct x
  | H : context [let '(_, _) := ?p in _] |- _ => is_var p; destruct p
  end.
Ltac inv_ok := repeat (inv_ok_step; simpl in *).

(** Reflect boolean comparisons in the hypotheses and the goal, then [lia]. *)
Ltac blia :=
  repeat match goal with
  | H : (_ || _)%bool = false |- _ => apply orb_false_iff in H; destruct H
  | H : (_ && _)%bool = true |- _ => apply andb_true_iff in H; destruct H
  | H : (_ <? _) = _ |- _ => first [apply Z.ltb_lt in H | apply Z.ltb_ge in H]
  | H : (_ <=? _) = _ |- _ => first [apply Z.leb_le in H | apply Z.leb_gt in H]
  | H : (_ =? _) = _ |- _ => first [apply Z.eqb_eq in H | apply Z.eqb_neq in H]
  end; try lia.

(** ** Memory: an allocated array of bytes *)

Abbreviation bytes := (list Z).

(** The bytes of a C string literal. *)
Definition str (s : string) : bytes := map (fun c => Z.of_N (Ascii.N_of_ascii c)) (String.list_ascii_of_string s).

Definition zlen {A} (l : list A) : Z := Z.of_nat (length l).

(** [n] elements of [l] from offset [off]. *)
Definition sub {A} (l : list A) (off n : Z) : list A := take (Z.to_nat n) (drop (Z.to_nat off) l).

(** [l] with [bs] copied over it from offset [off] ([memcpy]). *)
Definition blit {A} (l : list A) (off : Z) (bs : list A) : list A :=
  take (Z.to_nat off) l ++ bs ++ drop (Z.to_nat off + length bs) l.

Definition mem_read (l : bytes) (off n : Z) : outcome bytes :=
  if (0 <=? off) && (0 <=? n) && (off + n <=? zlen l) then Ok (sub l off n) else Undef.

Definition mem_write (l : bytes) (off : Z) (bs : bytes) : outcome bytes :=
  if (0 <=? off) && (off + zlen bs <=? zlen l) then Ok (blit l off bs) else Undef.

Definition mem_get (l : bytes) (off : Z) : outcome Z :=
  if 0 <=? off then match l !! Z.to_nat off with Some b => Ok b | None => Undef end else Undef.

Definition bytes_ok (l : bytes) : Prop := Forall is_byte l.

#[global] Arguments zlen : simpl never.
#[global] Arguments sub : simpl never.
#[global] Arguments blit : simpl never.
#[global] Arguments mem_read : simpl never.
#[global] Arguments mem_write : simpl never.
#[global] Arguments mem_get : simpl never.

Section lists.
Context {A : Type}.
Implicit Types l bs : list A.

Lemma zlen_nonneg l : 0 <= zlen l.
Proof. unfold zlen. lia. Qed.

Lemma zlen_nil : zlen (@nil A) = 0.
Proof. done. Qed.

Lemma zlen_cons x l : zlen (x :: l) = 1 + zlen l.
Proof. unfold zlen. cbn [length]. lia. Qed.

Lemma zlen_app l bs : zlen (l ++ bs) = zlen l + zlen bs.
Proof. unfold zlen. rewrite length_app. lia. Qed.

Lemma zlen_replicate n (x : A) : 0 <= n -> zlen (replicate (Z.to_nat n) x) = n.
Proof. unfold zlen. rewrite length_replicate. lia. Qed.

Lemma zlen_sub l off n : 0 <= off -> 0 <= n -> off + n <= zlen l -> zlen (sub l off n) = n.
Proof. unfold zlen, sub. intros. rewrite length_take, length_drop. lia. Qed.

Lemma zlen_blit l off bs : 0 <= off -> off + zlen bs <= zlen l -> zlen (blit l off bs) = zlen l.
Proof. unfold zlen, blit. intros. rewrite !length_app, length_take, length_drop. lia. Qed.

Lemma sub_nil off n : sub (@nil A) off n = [].
Proof. unfold sub. by rewrite drop_nil, take_nil. Qed.

Lemma sub_0 l off : sub l off 0 = [].
Proof. unfold sub. done. Qed.

Lemma sub_all l : sub l 0 (zlen l) = l.
Proof. unfold sub, zlen. rewrite drop_0, Nat2Z.id. by apply take_ge. Qed.

Lemma zlen_take n l : 0 <= n <= zlen l -> zlen (take (Z.to_nat n) l) = n.
Proof. unfold zlen. intros. rewrite length_take. lia. Qed.

Lemma zlen_drop n l : 0 <= n <= zlen l -> zlen (drop (Z.to_nat n) l) = zlen l - n.
Proof. unfold zlen. intros. rewrite length_drop. lia. Qed.

Lemma sub_app_l l bs off n : 0 <= off -> 0 <= n -> off + n <= zlen l -> sub (l ++ bs) off n = sub l off n.
Proof.
  unfold sub, zlen. intros. rewrite drop_app_le by lia. rewrite take_app_le; [done|].
  rewrite length_drop. lia.
Qed.

Lemma sub_app_r l bs n : 0 <= n -> n = zlen bs -> sub (l ++ bs) (zlen l) n = bs.
Proof.
  unfold sub, zlen. intros ? ->. rewrite !Nat2Z.id, drop_app_length. by apply take_ge.
Qed.

Lemma sub_app_ge l bs off n : 0 <= off -> sub (l ++ bs) (zlen l + off) n = sub bs off n.
Proof.
  unfold sub, zlen. intros. f_equal. rewrite drop_app_ge by lia. f_equal. lia.
Qed.

Lemma sub_app_r_at l bs n : sub (l ++ bs) (zlen l) n = sub bs 0 n.
Proof. rewrite <- (Z.add_0_r (zlen l)). by apply sub_app_ge. Qed.

Lemma drop_sub l off n m : 0 <= off -> 0 <= m <= n -> drop (Z.to_nat m) (sub l off n) = sub l (off + m) (n - m).
Proof.
  unfold sub. intros. rewrite skipn_firstn_comm, drop_drop. f_equal; [lia|f_equal; lia].
Qed.

Lemma sub_split l off n m : 0 <= off -> 0 <= n -> 0 <= m -> sub l off (n + m) = sub l off n ++ sub l (off + n) m.
Proof.
  intros. unfold sub. rewrite Z2Nat.inj_add by lia. 
  rewrite <- (take_drop (Z.to_nat n) (take (Z.to_nat n + Z.to_nat m) (drop (Z.to_nat off) l))).
  rewrite take_take, Nat.min_l by lia. f_equal.
  rewrite skipn_firstn_comm, drop_drop.
  replace (Z.to_nat n + Z.to_nat m - Z.to_nat n)%nat with (Z.to_nat m) by lia.
  by replace (Z.to_nat off + Z.to_nat n)%nat with (Z.to_nat (off + n)) by lia.
Qed.

Lemma sub_blit_same l off bs : 0 <= off -> off + zlen bs <= zlen l -> sub (blit l off bs) off (zlen bs) = bs.
Proof.
  unfold sub, blit, zlen. intros. rewrite drop_app_ge; rewrite length_take; [|lia].
  replace (Z.to_nat off - Z.to_nat off `min` length l)%nat with 0%nat by lia.
  rewrite drop_0, Nat2Z.id. by rewrite take_app_length.
Qed.

Lemma sub_blit_before l off bs o n :
  0 <= o -> 0 <= n -> o + n <= off -> off + zlen bs <= zlen l -> sub (blit l off bs) o n = sub l o n.
Proof.
  unfold sub, blit, zlen. intros. rewrite drop_app_le by (rewrite length_take; lia).
  rewrite take_app_le by (rewrite length_drop, length_take; lia).
  rewrite skipn_firstn_comm, take_take. f_equal. lia.
Qed.

Lemma sub_blit_after l off bs o n :
  0 <= off -> off + zlen bs <= o -> 0 <= n -> off + zlen bs <= zlen l -> sub (blit l off bs) o n = sub l o n.
Proof.
  unfold sub, blit, zlen. intros. f_equal.
  rewrite drop_app_ge by (rewrite length_take; lia). rewrite length_take.
  rewrite drop_app_ge by lia. rewrite drop_drop. f_equal. lia.
Qed.

(** Reading the unwritten stretch of a ring, seen as two copies of the array. *)
Lemma ring_unwritten l bs r u w :
  0 <= r < zlen l -> 0 <= u -> 0 <= w -> w + zlen bs <= zlen l ->
  (r + u <= w /\ r + u <= zlen l) \/ (zlen l <= r + u <= zlen l + w /\ w + zlen bs <= r) ->
  sub (l ++ l) r u = sub (blit l w bs ++ blit l w bs) r u.
Proof.
  intros Hr Hu Hw Hbs [[H1 H2]|[H1 H2]]; pose proof (zlen_nonneg bs).
  - rewrite !sub_app_l by (rewrite ?zlen_blit; lia). symmetry. apply sub_blit_before; lia.
  - replace u with ((zlen l - r) + (r + u - zlen l)) by lia. rewrite !sub_split by lia.
    replace (r + (zlen l - r)) with (zlen l) by lia. f_equal.
    + rewrite !sub_app_l by (rewrite ?zlen_blit; lia). symmetry. apply sub_blit_after; lia.
    + rewrite sub_app_r_at. rewrite <- (zlen_blit l w bs) at 2 by lia. rewrite sub_app_r_at.
      symmetry. apply sub_blit_before; lia.
Qed.

Lemma blit_nil l off : blit l off [] = l.
Proof. unfold blit. cbn. by rewrite Nat.add_0_r, take_drop. Qed.

Lemma sub_blit_inside l off bs n :
  0 <= off <= n -> n <= zlen l -> off + zlen bs <= zlen l ->
  sub (blit l off bs) 0 (Z.max n (off + zlen bs)) = blit (sub l 0 n) off bs.
Proof.
  unfold sub, blit, zlen. intros. rewrite !drop_0, take_take, Nat.min_l by lia. rewrite !take_app.
  rewrite !length_take. rewrite take_take. f_equal; [f_equal; lia|].
  rewrite (take_ge bs) by lia. f_equal. rewrite skipn_firstn_comm. f_equal. lia.
Qed.

Lemma sub_prefix_app l n m : 0 <= n <= m -> sub l 0 m = sub l 0 n ++ sub l n (m - n).
Proof. intros. replace m with (n + (m - n)) at 1 by lia. by rewrite sub_split by lia. Qed.

Lemma take_sub l n : take (Z.to_nat n) l = sub l 0 n.
Proof. unfold sub. by rewrite drop_0. Qed.

Lemma blit_all l bs : zlen bs = zlen l -> blit l 0 bs = bs.
Proof. unfold blit, zlen. intros. cbn. rewrite drop_ge by lia. by rewrite app_nil_r. Qed.

Lemma blit_0 l bs : blit l 0 bs = bs ++ drop (Z.to_nat (zlen bs)) l.
Proof. unfold blit, zlen. by rewrite Nat2Z.id. Qed.

Lemma blit_app_r l r off bs : 0 <= off -> blit (l ++ r) (zlen l + off) bs = l ++ blit r off bs.
Proof.
  unfold blit, zlen. intros. rewrite take_app_ge by lia. rewrite drop_app_ge by lia. rewrite <- app_assoc.
  do 2 f_equal; [f_equal; lia|]. f_equal. f_equal. lia.
Qed.

Lemma blit_app_l l r off bs : 0 <= off -> off + zlen bs <= zlen l -> blit (l ++ r) off bs = blit l off bs ++ r.
Proof.
  unfold blit, zlen. intros. rewrite take_app_le by lia. rewrite drop_app_le by lia. by rewrite <- !app_assoc.
Qed.

Lemma blit_end l bs : blit l (zlen l) bs = l ++ bs.
Proof.
  unfold blit, zlen. rewrite Nat2Z.id, firstn_all, drop_ge by lia. by rewrite app_nil_r.
Qed.

Lemma blit_blit_app l off a b :
  0 <= off -> off + zlen a + zlen b <= zlen l -> blit (blit l off a) (off + zlen a) b = blit l off (a ++ b).
Proof.
  unfold blit, zlen. intros. set (t := take (Z.to_nat off) l).
  assert (Ht : length t = Z.to_nat off) by (unfold t; rewrite length_take; lia).
  rewrite (app_assoc t a). rewrite take_app_length' by (rewrite length_app; lia).
  rewrite drop_app_ge by (rewrite length_app; lia). rewrite drop_drop, !length_app, <- !app_assoc.
  do 4 f_equal. lia.
Qed.

Lemma sub_sub l o n o' n' :
  0 <= o -> 0 <= n -> 0 <= o' -> 0 <= n' -> o' + n' <= n -> sub (sub l o n) o' n' = sub l (o + o') n'.
Proof.
  unfold sub. intros. rewrite skipn_firstn_comm, take_take, drop_drop. f_equal; [lia|f_equal; lia].
Qed.
End lists.

Lemma mem_read_Ok l off n r :
  mem_read l off n = Ok r <-> 0 <= off /\ 0 <= n /\ off + n <= zlen l /\ r = sub l off n.
Proof.
  unfold mem_read. destruct ((0 <=? off) && (0 <=? n) && (off + n <=? zlen l)) eqn:E.
  - split; [intros [= <-]; blia; auto|naive_solver].
  - split; [done|]. intros (?&?&?&?). exfalso. apply not_true_iff_false in E. apply E.
    rewrite !andb_true_iff. repeat split; by apply Z.leb_le.
Qed.

Lemma mem_write_Ok l off bs r :
  mem_write l off bs = Ok r <-> 0 <= off /\ off + zlen bs <= zlen l /\ r = blit l off bs.
Proof.
  unfold mem_write. destruct ((0 <=? off) && (off + zlen bs <=? zlen l)) eqn:E.
  - split; [intros [= <-]; blia; auto|naive_solver].
  - split; [done|]. intros (?&?&?). exfalso. apply not_true_iff_false in E. apply E.
    rewrite !andb_true_iff. repeat split; by apply Z.leb_le.
Qed.

Lemma mem_get_Ok l off b : mem_get l off = Ok b <-> 0 <= off /\ l !! Z.to_nat off = Some b.
Proof.
  unfold mem_get. destruct (Z.leb_spec 0 off); [|naive_solver lia].
  destruct (l !! Z.to_nat off); naive_solver.
Qed.

Lemma mem_get_total l off : 0 <= off < zlen l -> exists b, mem_get l off = Ok b.
Proof.
  unfold zlen. intros ?. destruct (lookup_lt_is_Some_2 l (Z.to_nat off)) as [b Hb]; [lia|].
  exists b. apply mem_get_Ok. split; [lia|done].
Qed.

Lemma mem_get_sub l off b : mem_get l off = Ok b -> sub l off 1 = [b].
Proof.
  intros [? Hb]%mem_get_Ok. unfold sub. change (Z.to_nat 1) with 1%nat.
  by rewrite (drop_S _ _ _ Hb).
Qed.

Lemma mem_read_in l off n :
  0 <= off -> 0 <= n -> off + n <= zlen l -> mem_read l off n = Ok (sub l off n).
Proof. intros. by apply mem_read_Ok. Qed.

Lemma mem_write_in l off bs :
  0 <= off -> off + zlen bs <= zlen l -> mem_write l off bs = Ok (blit l off bs).
Proof. intros. by apply mem_write_Ok. Qed.

Lemma mem_read_post l off n :
  0 <= off -> 0 <= n -> off + n <= zlen l -> opost (fun r => r = sub l off n) (mem_read l off n).
Proof. intros. by rewrite mem_read_in. Qed.

Lemma mem_write_post l off bs :
  0 <= off -> off + zlen bs <= zlen l -> opost (fun r => r = blit l off bs) (mem_write l off bs).
Proof. intros. by rewrite mem_write_in. Qed.

Lemma bytes_ok_sub l off n : bytes_ok l -> bytes_ok (sub l off n).
Proof. intros. by apply Forall_take, Forall_drop. Qed.

Lemma bytes_ok_blit l off bs : bytes_ok l -> bytes_ok bs -> bytes_ok (blit l off bs).
Proof. intros. apply Forall_app; split; [by apply Forall_take|]. apply Forall_app; split; [done|by apply Forall_drop]. Qed.

Lemma bytes_ok_lookup l i b : bytes_ok l -> l !! i = Some b -> is_byte b.
Proof. apply Forall_lookup_1. Qed.

(** Discharge the hypotheses of a theorem at a concrete input. *)
Lemma bytes_check (l : bytes) : forallb (fun b => (0 <=? b) && (b <? 256)) l = true -> bytes_ok l.
Proof.
  intros H. apply Forall_forall. intros b Hb. apply forallb_forall with (x := b) in H; [|by apply list_elem_of_In].
  unfold is_byte. lia.
Qed.

Ltac wit_step :=
  first [ done | lia | (unfold is_byte, is_u32 in *; lia) | apply Forall_nil_2 | apply Forall_cons_2 | split
        | (vm_compute; done) | (vm_compute; split; congruence) | (vm_compute; congruence) ].
Ltac wit := cbn; repeat (wit_step; cbn).
