(* ===== verification/Bytes.v ===== *)
(** * Byte order and multiple-precision integers

    The big-endian 32-bit loads and stores of libtomcrypt's macros, the unsigned
    big-endian form of libtommath's integers (an [mp_int] is the integer it denotes,
    a [Z]), and dropbear's constant-time comparison. *)

From S2P Require Import Prelude.

(** ** Bit operations as arithmetic *)

Lemma land_255 z : Z.land z 255 = z mod 256.
Proof. change 255 with (Z.ones 8). by rewrite Z.land_ones. Qed.

Lemma land_65535 z : Z.land z 65535 = z mod 65536.
Proof. change 65535 with (Z.ones 16). by rewrite Z.land_ones. Qed.

Lemma lor_shiftl_add a b n : 0 <= n -> 0 <= b < 2 ^ n -> Z.lor (Z.shiftl a n) b = a * 2 ^ n + b.
Proof.
  intros Hn Hb. rewrite <- Z.shiftl_mul_pow2 by done. symmetry. apply Z.add_nocarry_lor.
  apply Z.bits_inj'. intros i Hi. rewrite Z.land_spec, Z.bits_0.
  destruct (Z.lt_ge_cases i n).
  - rewrite Z.shiftl_spec_low by done. done.
  - assert (Z.testbit b i = false) as ->; [|by rewrite andb_false_r].
    destruct (Z.eq_dec b 0) as [->|]; [apply Z.bits_0|].
    apply Z.bits_above_log2; [lia|]. apply Z.log2_lt_pow2; [lia|].
    apply Z.lt_le_trans with (2 ^ n); [lia|]. apply Z.pow_le_mono_r; lia.
Qed.

(** ** 32-bit big-endian words *)

(** [STORE32H(x, y)]: the four bytes it writes. *)
Definition store32h (x : Z) : bytes :=
  [u8 (Z.land (Z.shiftr x 24) 255); u8 (Z.land (Z.shiftr x 16) 255);
   u8 (Z.land (Z.shiftr x 8) 255); u8 (Z.land x 255)].

(** [LOAD32H(x, y)] on the four bytes at [y]. *)
Definition load32h (y0 y1 y2 y3 : Z) : Z :=
  Z.lor (Z.lor (Z.lor (u32 (Z.shiftl (Z.land y0 255) 24)) (u32 (Z.shiftl (Z.land y1 255) 16)))
               (u32 (Z.shiftl (Z.land y2 255) 8)))
        (Z.land y3 255).

#[global] Arguments store32h : simpl never.
#[global] Arguments load32h : simpl never.

Lemma store32h_bytes x :
  store32h x = [x / 16777216 mod 256; x / 65536 mod 256; x / 256 mod 256; x mod 256].
Proof.
  unfold store32h, u8. rewrite !land_255, !Z.shiftr_div_pow2 by done.
  change (2 ^ 24) with 16777216; change (2 ^ 16) with 65536; change (2 ^ 8) with 256.
  by rewrite !Z.mod_mod by done.
Qed.

Lemma store32h_ok x : bytes_ok (store32h x).
Proof. rewrite store32h_bytes. repeat constructor; lia. Qed.

Lemma load32h_sum y0 y1 y2 y3 :
  is_byte y0 -> is_byte y1 -> is_byte y2 -> is_byte y3 ->
  load32h y0 y1 y2 y3 = y0 * 16777216 + y1 * 65536 + y2 * 256 + y3.
Proof.
  unfold is_byte, load32h. intros. remember (y0 * 16777216 + y1 * 65536 + y2 * 256 + y3) as s eqn:Hs.
  rewrite !land_255, !(Z.mod_small _ 256) by done.
  rewrite !Z.shiftl_mul_pow2 by done.
  change (2 ^ 24) with 16777216; change (2 ^ 16) with 65536; change (2 ^ 8) with 256.
  rewrite !u32_small by lia.
  replace (y0 * 16777216) with (Z.shiftl y0 24) by (rewrite Z.shiftl_mul_pow2; lia).
  rewrite lor_shiftl_add by lia. change (2 ^ 24) with 16777216.
  replace (y0 * 16777216 + y1 * 65536) with (Z.shiftl (y0 * 256 + y1) 16)
    by (rewrite Z.shiftl_mul_pow2 by done; change (2 ^ 16) with 65536; lia).
  rewrite lor_shiftl_add by lia. change (2 ^ 16) with 65536.
  replace ((y0 * 256 + y1) * 65536 + y2 * 256) with (Z.shiftl (y0 * 65536 + y1 * 256 + y2) 8)
    by (rewrite Z.shiftl_mul_pow2 by done; change (2 ^ 8) with 256; lia).
  rewrite lor_shiftl_add by lia. change (2 ^ 8) with 256. lia.
Qed.

Lemma load32h_range y0 y1 y2 y3 :
  is_byte y0 -> is_byte y1 -> is_byte y2 -> is_byte y3 -> is_u32 (load32h y0 y1 y2 y3).
Proof. intros. rewrite load32h_sum by done. unfold is_byte, is_u32 in *. lia. Qed.

Definition load32h_bytes (l : bytes) : Z :=
  match l with [y0; y1; y2; y3] => load32h y0 y1 y2 y3 | _ => 0 end.

Lemma load_store32h x : is_u32 x -> load32h_bytes (store32h x) = x.
Proof.
  intros. rewrite store32h_bytes. unfold load32h_bytes.
  rewrite load32h_sum by (unfold is_byte; lia). unfold is_u32 in *. lia.
Qed.

Lemma store_load32h y0 y1 y2 y3 :
  is_byte y0 -> is_byte y1 -> is_byte y2 -> is_byte y3 -> store32h (load32h y0 y1 y2 y3) = [y0; y1; y2; y3].
Proof.
  intros. rewrite store32h_bytes, load32h_sum by done. unfold is_byte in *.
  repeat f_equal; lia.
Qed.

(** ** libtommath's unsigned binary form *)

Definition mp_count_bits (a : Z) : Z := if a =? 0 then 0 else Z.log2 (Z.abs a) + 1.

Definition mp_ubin_size (a : Z) : Z :=
  mp_count_bits a / 8 + (if Z.land (mp_count_bits a) 7 =? 0 then 0 else 1).

(** The loop of [mp_from_ubin]: [mp_mul_2d(a, 8)], then the byte into the low digit. *)
Definition mp_from_ubin (buf : bytes) : Z := fold_left (fun a b => Z.lor (Z.shiftl a 8) b) buf 0.

(** The loop [for (x = count; x --> 0u;)] of [mp_to_ubin]: bytes from the last to the first. *)
Fixpoint mp_to_ubin_loop (x : nat) (t : Z) (acc : bytes) : bytes :=
  match x with
  | O => acc
  | S x => mp_to_ubin_loop x (Z.shiftr t 8) (u8 (Z.land t 255) :: acc)
  end.

(** [mp_to_ubin(a, buf, maxlen, &written)]: the bytes written, or [None] for [MP_BUF]. *)
Definition mp_to_ubin (a maxlen : Z) : option bytes :=
  let count := mp_ubin_size a in
  if maxlen <? count then None else Some (mp_to_ubin_loop (Z.to_nat count) (Z.abs a) []).

Definition be_value (buf : bytes) : Z := fold_left (fun a b => a * 256 + b) buf 0.

Lemma be_value_acc buf a : fold_left (fun a b => a * 256 + b) buf a = a * 256 ^ zlen buf + be_value buf.
Proof.
  unfold be_value. revert a. induction buf as [|b buf IH]; intros a; cbn [fold_left].
  - rewrite zlen_nil. lia.
  - rewrite IH, (IH (0 * 256 + b)), zlen_cons, Z.pow_add_r by (pose proof (zlen_nonneg buf); lia). lia.
Qed.

Lemma be_value_cons b buf : be_value (b :: buf) = b * 256 ^ zlen buf + be_value buf.
Proof. unfold be_value at 1. cbn [fold_left]. rewrite be_value_acc. lia. Qed.

Lemma be_value_app l buf : be_value (l ++ buf) = be_value l * 256 ^ zlen buf + be_value buf.
Proof. unfold be_value at 1. rewrite fold_left_app. by rewrite be_value_acc. Qed.

Lemma be_value_range buf : bytes_ok buf -> 0 <= be_value buf < 256 ^ zlen buf.
Proof.
  induction 1 as [|b buf Hb Hbuf IH]; [done|].
  rewrite be_value_cons, zlen_cons, Z.pow_add_r by (pose proof (zlen_nonneg buf); lia).
  unfold is_byte in Hb. nia.
Qed.

Lemma mp_from_ubin_value buf : bytes_ok buf -> mp_from_ubin buf = be_value buf.
Proof.
  unfold mp_from_ubin, be_value. generalize 0 as a. intros a H. revert a.
  induction H as [|b buf Hb Hbuf IH]; intros a; [done|]. cbn [fold_left].
  by rewrite (lor_shiftl_add a b 8), IH.
Qed.

Lemma mp_to_ubin_loop_acc x t acc : mp_to_ubin_loop x t acc = mp_to_ubin_loop x t [] ++ acc.
Proof.
  revert t acc. induction x as [|x IH]; intros t acc; [done|]. cbn.
  rewrite IH, (IH _ [_]), <- app_assoc. done.
Qed.

Lemma mp_to_ubin_loop_spec x t :
  bytes_ok (mp_to_ubin_loop x t []) /\ length (mp_to_ubin_loop x t []) = x /\
  be_value (mp_to_ubin_loop x t []) = t mod 256 ^ Z.of_nat x.
Proof.
  revert t. induction x as [|x IH]; intros t.
  - cbn. rewrite Z.mod_1_r. repeat split; constructor.
  - cbn [mp_to_ubin_loop]. rewrite mp_to_ubin_loop_acc.
    destruct (IH (Z.shiftr t 8)) as (H1 & H2 & H3). split_and!.
    + apply Forall_app; split; [done|]. repeat constructor; apply u8_range.
    + rewrite length_app, H2. cbn. lia.
    + rewrite be_value_app, H3. rewrite land_255. unfold u8. rewrite Z.mod_mod by done.
      rewrite Z.shiftr_div_pow2 by done. change (2 ^ 8) with 256.
      replace (be_value [t mod 256]) with (t mod 256) by (cbn; lia).
      replace (zlen [t mod 256]) with 1 by done.
      rewrite Nat2Z.inj_succ, Z.pow_succ_r, (Z.mul_comm 256), Z.pow_1_r by lia.
      assert (0 < 256 ^ Z.of_nat x) by (apply Z.pow_pos_nonneg; lia).
      rewrite (Z.mul_comm (256 ^ Z.of_nat x) 256), Z.rem_mul_r by lia. ring.
Qed.

Lemma mp_count_bits_pos a : 0 < a -> 0 < mp_count_bits a /\ 2 ^ (mp_count_bits a - 1) <= a < 2 ^ mp_count_bits a.
Proof.
  intros. unfold mp_count_bits. destruct (Z.eqb_spec a 0); [lia|]. rewrite Z.abs_eq by lia.
  pose proof (Z.log2_nonneg a). split; [lia|].
  replace (Z.log2 a + 1 - 1) with (Z.log2 a) by lia. by apply Z.log2_spec.
Qed.

Lemma mp_count_bits_nonneg a : 0 <= a -> 0 <= mp_count_bits a.
Proof.
  intros. destruct (Z.eq_dec a 0) as [->|]; [done|]. pose proof (mp_count_bits_pos a). lia.
Qed.

Lemma mp_ubin_size_spec a : mp_ubin_size a = (mp_count_bits a + 7) / 8.
Proof.
  unfold mp_ubin_size. change 7 with (Z.ones 3) at 1. rewrite Z.land_ones by done. change (2 ^ 3) with 8.
  destruct (Z.eqb_spec (mp_count_bits a mod 8) 0); lia.
Qed.

Lemma mp_to_ubin_value a maxlen bs :
  0 <= a -> mp_to_ubin a maxlen = Some bs ->
  bytes_ok bs /\ zlen bs = mp_ubin_size a /\ be_value bs = a.
Proof.
  unfold mp_to_ubin. intros Ha. case_match; [done|]. intros [= <-].
  destruct (mp_to_ubin_loop_spec (Z.to_nat (mp_ubin_size a)) (Z.abs a)) as (H1 & H2 & H3).
  pose proof (mp_count_bits_nonneg a Ha). pose proof (mp_ubin_size_spec a).
  split_and!; [done|unfold zlen; lia|]. rewrite H3, Z.abs_eq, Z2Nat.id by lia. apply Z.mod_small.
  destruct (Z.eq_dec a 0) as [->|]; [done|]. split; [done|].
  destruct (mp_count_bits_pos a) as (? & ? & ?); [lia|].
  eapply Z.lt_le_trans; [done|]. change 256 with (2 ^ 8). rewrite <- Z.pow_mul_r by lia.
  apply Z.pow_le_mono_r; lia.
Qed.

(** The most significant byte of a positive number is not zero, and its top bit is
    set exactly when the number of bits is a multiple of eight. *)
Lemma be_value_head b buf :
  is_byte b -> bytes_ok buf -> 0 < be_value (b :: buf) ->
  8 * zlen buf < mp_count_bits (be_value (b :: buf)) -> 0 < b.
Proof.
  intros Hb Hbuf Hpos Hbits. destruct (Z.eq_dec b 0) as [->|]; [|unfold is_byte in *; lia]. exfalso.
  rewrite be_value_cons in *. pose proof (be_value_range buf Hbuf).
  destruct (mp_count_bits_pos (0 * 256 ^ zlen buf + be_value buf)) as (? & Hlo & _); [lia|].
  assert (256 ^ zlen buf <= 2 ^ (mp_count_bits (0 * 256 ^ zlen buf + be_value buf) - 1)); [|lia].
  change 256 with (2 ^ 8) at 1. pose proof (zlen_nonneg buf).
  rewrite <- Z.pow_mul_r by lia. apply Z.pow_le_mono_r; lia.
Qed.

Lemma be_value_top b buf :
  is_byte b -> bytes_ok buf -> 0 < be_value (b :: buf) ->
  128 <= b <-> mp_count_bits (be_value (b :: buf)) = 8 * (zlen buf + 1).
Proof.
  intros Hb Hbuf Hpos. pose proof (be_value_range buf Hbuf) as Hr. pose proof (zlen_nonneg buf).
  destruct (mp_count_bits_pos _ Hpos) as (Hn & Hlo & Hhi). rewrite be_value_cons in *.
  set (v := b * 256 ^ zlen buf + be_value buf) in *.
  assert (H256 : 256 ^ zlen buf = 2 ^ (8 * zlen buf)) by (rewrite Z.pow_mul_r by lia; done).
  assert (Hup : v < 2 ^ (8 * (zlen buf + 1))).
  { rewrite Z.mul_add_distr_l, Z.pow_add_r, <- H256 by lia. change (2 ^ (8 * 1)) with 256.
    unfold is_byte in Hb. nia. }
  split; intros Hb'.
  - assert (2 ^ (8 * (zlen buf + 1) - 1) <= v).
    { replace (8 * (zlen buf + 1) - 1) with (8 * zlen buf + 7) by lia.
      rewrite Z.pow_add_r, <- H256 by lia. change (2 ^ 7) with 128. nia. }
    destruct (Z.lt_trichotomy (mp_count_bits v) (8 * (zlen buf + 1))) as [Hc|[Hc|Hc]]; [|done|]; exfalso.
    + assert (2 ^ mp_count_bits v <= 2 ^ (8 * (zlen buf + 1) - 1)) by (apply Z.pow_le_mono_r; lia). lia.
    + assert (2 ^ (8 * (zlen buf + 1)) <= 2 ^ (mp_count_bits v - 1)) by (apply Z.pow_le_mono_r; lia). lia.
  - rewrite Hb' in Hlo. replace (8 * (zlen buf + 1) - 1) with (8 * zlen buf + 7) in Hlo by lia.
    rewrite Z.pow_add_r, <- H256 in Hlo by lia. change (2 ^ 7) with 128 in Hlo. nia.
Qed.

(** ** Constant-time comparison *)

(** [constant_time_memcmp(a, b, n)] on the first [n] bytes of the two arrays. *)
Definition constant_time_memcmp (a b : bytes) : Z :=
  fold_left (fun c '(x, y) => u8 (Z.lor c (Z.lxor x y))) (zip a b) 0.

Lemma lor_lt_256 a b : 0 <= a < 256 -> 0 <= b < 256 -> 0 <= Z.lor a b < 256.
Proof.
  intros Ha Hb. split; [apply Z.lor_nonneg; lia|].
  destruct (Z.eq_dec (Z.lor a b) 0) as [->|]; [lia|].
  change 256 with (2 ^ 8). apply Z.log2_lt_pow2; [pose proof (proj2 (Z.lor_nonneg a b)); lia|].
  rewrite Z.log2_lor by lia.
  destruct (Z.eq_dec a 0) as [->|], (Z.eq_dec b 0) as [->|];
    repeat apply Z.max_lub_lt; try done; apply Z.log2_lt_pow2; lia.
Qed.

Lemma lxor_lt_256 a b : 0 <= a < 256 -> 0 <= b < 256 -> 0 <= Z.lxor a b < 256.
Proof.
  intros Ha Hb. split; [apply Z.lxor_nonneg; lia|].
  destruct (Z.eq_dec (Z.lxor a b) 0) as [->|]; [lia|].
  change 256 with (2 ^ 8). apply Z.log2_lt_pow2; [pose proof (proj2 (Z.lxor_nonneg a b)); lia|].
  eapply Z.le_lt_trans; [apply Z.log2_lxor; lia|].
  destruct (Z.eq_dec a 0) as [->|], (Z.eq_dec b 0) as [->|];
    repeat apply Z.max_lub_lt; try done; apply Z.log2_lt_pow2; lia.
Qed.

Lemma constant_time_memcmp_acc l c :
  0 <= c < 256 -> Forall (fun '(x, y) => is_byte x /\ is_byte y) l ->
  fold_left (fun c '(x, y) => u8 (Z.lor c (Z.lxor x y))) l c = 0 <-> c = 0 /\ Forall (fun '(x, y) => x = y) l.
Proof.
  intros Hc Hl. revert c Hc. induction Hl as [|[x y] l [Hx Hy] Hl IH]; intros c Hc; cbn [fold_left].
  - naive_solver.
  - pose proof (lxor_lt_256 x y Hx Hy). pose proof (lor_lt_256 c (Z.lxor x y) Hc H).
    rewrite u8_small, IH, Z.lor_eq_0_iff, Z.lxor_eq_0_iff, Forall_cons by done. naive_solver.
Qed.

Lemma constant_time_memcmp_eq a b :
  bytes_ok a -> bytes_ok b -> length a = length b -> constant_time_memcmp a b = 0 <-> a = b.
Proof.
  intros Ha Hb Hlen. unfold constant_time_memcmp.
  assert (Hz : Forall (fun '(x, y) => is_byte x /\ is_byte y) (zip a b)).
  { apply Forall_lookup. intros i [x y] Hi. rewrite lookup_zip_with in Hi.
    destruct (a !! i) eqn:E1; [|done]. destruct (b !! i) eqn:E2; [|done]. cbn in Hi. injection Hi as -> ->.
    split; [by apply (bytes_ok_lookup a i)|by apply (bytes_ok_lookup b i)]. }
  rewrite constant_time_memcmp_acc by done. split; [intros [_ H]|intros ->; split; [done|]].
  - clear Hz Ha Hb. revert b Hlen H. induction a as [|x a IH]; intros [|y b] Hlen H; try done.
    cbn in H. apply Forall_cons in H as [-> H]. f_equal. apply IH; [by injection Hlen|done].
  - clear. induction b; constructor; auto.
Qed.
