(* ===== verification/CString.v ===== *)
(** * C strings

    A C string is the list of its bytes before the NUL.  The functions of the C library the
    server uses on them, and the two parsers of its own built from those: [m_str_to_uint]
    (dbutil.c) and [split_address_port] (common-runopts.c). *)

From S2P Require Import Prelude.

(** The string in a block of memory: up to the first NUL. *)
Fixpoint cstr (l : bytes) : bytes := match l with [] => [] | b :: l => if b =? 0 then [] else b :: cstr l end.

(** [strncmp(a, b, n) == 0]; reading past the end of a list finds its NUL. *)
Fixpoint strncmp_eq (a b : bytes) (n : nat) : bool :=
  match n with
  | O => true
  | S n => if hd 0 a =? hd 0 b then (hd 0 a =? 0) || strncmp_eq (tl a) (tl b) n else false
  end.

(** [strcmp(a, b) == 0]. *)
Definition strcmp_eq (a b : bytes) : bool := bool_decide (cstr a = cstr b).

(** The longest prefix of bytes that satisfy [p], and the rest. *)
Fixpoint span (p : Z -> bool) (l : bytes) : bytes * bytes :=
  match l with
  | [] => ([], [])
  | b :: l => if p b then let '(x, y) := span p l in (b :: x, y) else ([], b :: l)
  end.

(** [strtok_r] with one delimiter: the next token and what is left. *)
Definition strtok_r (d : Z) (l : bytes) : option bytes * bytes :=
  match snd (span (Z.eqb d) l) with
  | [] => (None, [])
  | l => let '(tok, rest) := span (fun b => negb (b =? d)) l in (Some tok, tl rest)
  end.

(** [strchr]: the string split at the first [d]. *)
Definition strchr (d : Z) (l : bytes) : option (bytes * bytes) :=
  match span (fun b => negb (b =? d)) l with (x, _ :: y) => Some (x, y) | _ => None end.

(** [strrchr]: the string split at the last [d]. *)
Fixpoint strrchr (d : Z) (l : bytes) : option (bytes * bytes) :=
  match l with
  | [] => None
  | b :: l => match strrchr d l with
              | Some (x, y) => Some (b :: x, y)
              | None => if b =? d then Some ([], l) else None
              end
  end.

(** ** Numbers *)

Definition isspace (b : Z) : bool := (b =? 32) || ((9 <=? b) && (b <=? 13)).
Definition isdigit (b : Z) : bool := (48 <=? b) && (b <=? 57).

Definition ULONG_MAX : Z := 18446744073709551615.
Definition UINT_MAX : Z := 4294967295.

Definition decimal (l : bytes) : Z := fold_left (fun n b => n * 10 + (b - 48)) l 0.

(** [strtoul(str, &endp, 10)]: the value and what [endp] points to, [None] when nothing was
    converted; a negative number is negated in [unsigned long]. *)
Definition strtoul (l : bytes) : option (Z * bytes) :=
  let l := snd (span isspace l) in
  let '(neg, l) := match l with 45 :: l => (true, l) | 43 :: l => (false, l) | _ => (false, l) end in
  match span isdigit l with
  | ([], _) => None
  | (ds, rest) =>
      let v := decimal ds in
      Some (if ULONG_MAX <? v then ULONG_MAX else if neg then u64 (- v) else v, rest)
  end.

(** [m_str_to_uint]; [einval] says whether errno was left at EINVAL by an earlier call. *)
Definition m_str_to_uint (einval : bool) (s : bytes) : option Z :=
  match strtoul s with
  | Some (l, []) => if ((l =? 0) && einval) || (UINT_MAX <? l) then None else Some l
  | _ => None
  end.

(** [split_address_port]: [None] is failure; the two parts may be missing. *)
Definition split_address_port (spec : bytes) : option (option bytes * option bytes) :=
  let first addr := match addr with [] => None | _ => Some addr end in
  match spec with
  | 91 :: addr =>
      match strchr 93 addr with
      | None => None
      | Some (addr, []) => Some (first addr, None)
      | Some (addr, 58 :: port) => Some (first addr, Some port)
      | Some _ => None
      end
  | _ =>
      match strrchr 58 spec with
      | None => Some (first spec, None)
      | Some (addr, port) => Some (first addr, Some port)
      end
  end.

(** ** Lemmas *)

Definition nonul (l : bytes) : Prop := Forall (fun b => b <> 0) l.

Lemma nonul_check l : forallb (fun b => negb (b =? 0)) l = true -> nonul l.
Proof. intros H. apply Forall_forall. intros b Hb. rewrite forallb_forall in H. apply list_elem_of_In, H in Hb. by destruct (Z.eqb_spec b 0). Qed.

Lemma cstr_bytes l : bytes_ok l -> bytes_ok (cstr l).
Proof. induction 1 as [|b l Hb _ IH]; [constructor|]. cbn. destruct (b =? 0); constructor; done. Qed.

Lemma cstr_app name : Forall (fun b => b <> 0) name -> cstr (name ++ [0]) = name.
Proof. induction 1 as [|b l Hb _ IH]; [done|]. cbn. rewrite IH. by destruct (Z.eqb_spec b 0). Qed.

Lemma cstr_nonul x : nonul (cstr x).
Proof. induction x as [|c x IH]; [constructor|]. cbn. destruct (Z.eqb_spec c 0); [constructor|by constructor]. Qed.

Lemma cstr_id l : nonul l -> cstr l = l.
Proof. induction 1 as [|b l Hb _ IH]; [done|]. cbn. rewrite IH. by destruct (Z.eqb_spec b 0). Qed.

Lemma strcmp_eq_iff a b : nonul a -> nonul b -> strcmp_eq a b = true <-> a = b.
Proof. intros Ha Hb. unfold strcmp_eq. rewrite !cstr_id by done. apply bool_decide_eq_true. Qed.

Lemma span_app p l b r : Forall (fun x => p x = true) l -> p b = false -> span p (l ++ b :: r) = (l, b :: r).
Proof. intros Hl Hb. induction Hl as [|x l Hx _ IH]; cbn; [by rewrite Hb|]. by rewrite Hx, IH. Qed.

Lemma span_all p l : Forall (fun x => p x = true) l -> span p l = (l, []).
Proof. induction 1 as [|x l Hx _ IH]; cbn; [done|]. by rewrite Hx, IH. Qed.

Lemma span_split p l x y : span p l = (x, y) -> l = x ++ y /\ Forall (fun b => p b = true) x.
Proof.
  revert x y. induction l as [|b l IH]; intros x y; cbn; [intros [= <- <-]; by split|].
  destruct (p b) eqn:Hb; [|intros [= <- <-]; by split]. destruct (span p l) as [x' y'].
  intros [= <- <-]. destruct (IH x' y' eq_refl) as [-> H]. split; [done|]. by constructor.
Qed.

Lemma span_rest p l x b y : span p l = (x, b :: y) -> p b = false.
Proof.
  revert x. induction l as [|c l IH]; intros x; cbn; [done|].
  destruct (p c) eqn:Hc; [|by intros [= <- <- <-]]. destruct (span p l) as [x' y'] eqn:E. intros [= <- ->]. by eapply IH.
Qed.

(** The tokens of fields joined by the delimiter. *)
Definition field_ok (d : Z) (l : bytes) : Prop := l <> [] /\ Forall (fun b => b <> d) l.

Lemma field_span d l : Forall (fun b => b <> d) l -> Forall (fun x => negb (x =? d) = true) l.
Proof. intros H. eapply Forall_impl; [exact H|]. intros x Hx. by destruct (Z.eqb_spec x d). Qed.

Lemma strtok_field d l r : field_ok d l -> strtok_r d (l ++ d :: r) = (Some l, r).
Proof.
  intros [Hne Hl]. destruct l as [|b l]; [done|]. unfold strtok_r. apply Forall_cons in Hl as Hbl. destruct Hbl as [Hb _].
  cbn [app span]. destruct (Z.eqb_spec d b); [congruence|]. cbn [snd].
  pose proof (span_app (fun x => negb (x =? d)) (b :: l) d r (field_span _ _ Hl) ltac:(cbn; by rewrite Z.eqb_refl)) as Hs.
  cbn [app span] in Hs. by rewrite Hs.
Qed.

Lemma strtok_last d l : field_ok d l -> strtok_r d l = (Some l, []).
Proof.
  intros [Hne Hl]. destruct l as [|b l]; [done|]. unfold strtok_r. apply Forall_cons in Hl as Hbl. destruct Hbl as [Hb _].
  cbn [span]. destruct (Z.eqb_spec d b); [congruence|]. cbn [snd].
  pose proof (span_all _ _ (field_span _ _ Hl)) as Hs. cbn [span] in Hs. by rewrite Hs.
Qed.

Lemma strtok_nil d : strtok_r d [] = (None, []).
Proof. done. Qed.

Lemma strncmp_eq_self a n : strncmp_eq a a n = true.
Proof.
  revert a. induction n as [|n IH]; intros a; cbn; [done|]. rewrite Z.eqb_refl. by rewrite IH, orb_true_r.
Qed.

(** Comparing a block of [n] bytes, none of them NUL, with a string that long. *)
Lemma strncmp_eq_iff a b n : nonul a -> nonul b -> length a = n -> length b = n -> strncmp_eq a b n = true <-> a = b.
Proof.
  revert a b. induction n as [|n IH]; intros a b Ha Hb Hla Hlb; destruct a as [|x a], b as [|y b]; try done.
  apply Forall_cons in Ha as [Hx Ha]. apply Forall_cons in Hb as [Hy Hb]. injection Hla as Hla. injection Hlb as Hlb. cbn [strncmp_eq hd tl].
  rewrite (proj2 (Z.eqb_neq _ _) Hx). cbn [orb]. destruct (Z.eqb_spec x y) as [->|].
  - rewrite IH by done. split; [by intros ->|congruence].
  - split; [done|congruence].
Qed.

(** Comparing a string with a prefix. *)
Lemma strncmp_prefix s p : nonul p -> strncmp_eq s p (length p) = true <-> exists r, s = p ++ r.
Proof.
  revert s. induction p as [|x p IH]; intros s Hp; [split; [by exists s|done]|]. apply Forall_cons in Hp as [Hx Hp]. cbn [length strncmp_eq hd tl].
  destruct s as [|y s]; cbn [hd tl].
  - rewrite (proj2 (Z.eqb_neq 0 x)) by done. split; [done|by intros [r ?]].
  - destruct (Z.eqb_spec y x) as [->|].
    + rewrite (proj2 (Z.eqb_neq _ _) Hx). cbn [orb]. rewrite IH by done. split; intros [r Hr]; exists r; [by rewrite Hr|by injection Hr].
    + split; [done|]. intros [r Hr]. by injection Hr.
Qed.
