(* ===== verification/Buffer.v ===== *)
(** * dropbear's buffers (buffer.c)

    A [buffer] is an allocated array with a used length and a position.  Every access
    to the array goes through [mem_read], [mem_write] or [mem_get], which are [Undef]
    outside of it, so memory safety is the absence of [Undef].  [bufop] lists the
    operations as steps; [wf] is the invariant they preserve; [unread] and [used] are
    the abstract views (a stream of bytes to read, a string of bytes written) on which
    the functional theorems are stated. *)

From S2P Require Import Prelude Bytes.

Definition BUF_MAX_INCR : Z := 1000000000.
Definition BUF_MAX_SIZE : Z := 1000000000.
Definition BUF_MAX_MPINT : Z := 8240 / 8.
Definition MAX_CMD_LEN : Z := 9000.
Definition MAX_STRING_LEN : Z := Z.max MAX_CMD_LEN 2400.

(** [struct buf] *)
Record buffer := mkbuf {
  buf_data : bytes;
  buf_len : Z;
  buf_pos : Z;
  buf_size : Z;
}.

(** ** Operations *)

Definition buf_new (size : Z) : outcome buffer :=
  let* _ := exit_if (BUF_MAX_SIZE <? size) "buf->size too big" in
  Ok (mkbuf (replicate (Z.to_nat size) 0) 0 0 size).

(** [m_burn] then [free]: the contents the memory holds when it is released. *)
Definition buf_burn_free (b : buffer) : bytes := replicate (Z.to_nat (buf_size b)) 0.

(** [realloc] keeps the common prefix; the bytes it adds are indeterminate ([junk]). *)
Definition buf_resize (junk : nat -> Z) (b : buffer) (newsize : Z) : outcome buffer :=
  let* _ := exit_if (BUF_MAX_SIZE <? newsize) "buf->size too big" in
  let n := Z.to_nat newsize in
  Ok (mkbuf (take n (buf_data b) ++ map junk (seq (length (buf_data b)) (n - length (buf_data b))))
            (Z.min newsize (buf_len b)) (Z.min newsize (buf_pos b)) newsize).

Definition buf_newcopy (b : buffer) : outcome buffer :=
  let* ret := buf_new (buf_len b) in
  let ret := mkbuf (buf_data ret) (buf_len b) (buf_pos ret) (buf_size ret) in
  if 0 <? buf_len b then
    let* src := mem_read (buf_data b) 0 (buf_len b) in
    let* d := mem_write (buf_data ret) 0 src in
    Ok (mkbuf d (buf_len ret) (buf_pos ret) (buf_size ret))
  else Ok ret.

Definition buf_setlen (b : buffer) (len : Z) : outcome buffer :=
  let* _ := exit_if (buf_size b <? len) "Bad buf_setlen" in
  Ok (mkbuf (buf_data b) len (Z.min (buf_pos b) len) (buf_size b)).

Definition buf_incrlen (b : buffer) (incr : Z) : outcome buffer :=
  let* _ := exit_if ((BUF_MAX_INCR <? incr) || (buf_size b <? u32 (buf_len b + incr))) "Bad buf_incrlen" in
  Ok (mkbuf (buf_data b) (u32 (buf_len b + incr)) (buf_pos b) (buf_size b)).

Definition buf_setpos (b : buffer) (pos : Z) : outcome buffer :=
  let* _ := exit_if (buf_len b <? pos) "Bad buf_setpos" in
  Ok (mkbuf (buf_data b) (buf_len b) pos (buf_size b)).

Definition buf_incrwritepos (b : buffer) (incr : Z) : outcome buffer :=
  let* _ := exit_if ((BUF_MAX_INCR <? incr) || (buf_size b <? u32 (buf_pos b + incr))) "Bad buf_incrwritepos" in
  let pos := u32 (buf_pos b + incr) in
  Ok (mkbuf (buf_data b) (if buf_len b <? pos then pos else buf_len b) pos (buf_size b)).

Definition buf_incrpos (b : buffer) (incr : Z) : outcome buffer :=
  let* _ := exit_if ((BUF_MAX_INCR <? incr) || (buf_len b <? u32 (buf_pos b + incr))) "Bad buf_incrpos" in
  Ok (mkbuf (buf_data b) (buf_len b) (u32 (buf_pos b + incr)) (buf_size b)).

Definition buf_decrpos (b : buffer) (decr : Z) : outcome buffer :=
  let* _ := exit_if (buf_pos b <? decr) "Bad buf_decrpos" in
  Ok (mkbuf (buf_data b) (buf_len b) (buf_pos b - decr) (buf_size b)).

Definition buf_getbyte (b : buffer) : outcome (Z * buffer) :=
  let* _ := exit_if (buf_len b <=? buf_pos b) "Bad buf_getbyte" in
  let* v := mem_get (buf_data b) (buf_pos b) in
  Ok (v, mkbuf (buf_data b) (buf_len b) (u32 (buf_pos b + 1)) (buf_size b)).

Definition buf_getbool (b : buffer) : outcome (Z * buffer) :=
  let* (v, b) := buf_getbyte b in
  Ok (if negb (v =? 0) then 1 else v, b).

Definition buf_putbyte (b : buffer) (val : Z) : outcome buffer :=
  let* b := if buf_len b <=? buf_pos b then buf_incrlen b 1 else Ok b in
  let* d := mem_write (buf_data b) (buf_pos b) [val] in
  Ok (mkbuf d (buf_len b) (u32 (buf_pos b + 1)) (buf_size b)).

(** The pointers [buf_getptr] and [buf_getwriteptr] return are offsets into [buf_data]. *)
Definition buf_getptr (b : buffer) (len : Z) : outcome Z :=
  let* _ := exit_if ((BUF_MAX_INCR <? len) || (buf_len b <? u32 (buf_pos b + len))) "Bad buf_getptr" in
  Ok (buf_pos b).

Definition buf_getwriteptr (b : buffer) (len : Z) : outcome Z :=
  let* _ := exit_if ((BUF_MAX_INCR <? len) || (buf_size b <? u32 (buf_pos b + len))) "Bad buf_getwriteptr" in
  Ok (buf_pos b).

(** [*buf_getptr(buf, len)] read for [len] bytes. *)
Definition buf_read (b : buffer) (len : Z) : outcome bytes :=
  let* p := buf_getptr b len in mem_read (buf_data b) p len.

(** [memcpy(buf_getwriteptr(buf, len), bs, len)]. *)
Definition buf_write (b : buffer) (len : Z) (bs : bytes) : outcome buffer :=
  let* p := buf_getwriteptr b len in
  let* d := mem_write (buf_data b) p bs in
  Ok (mkbuf d (buf_len b) (buf_pos b) (buf_size b)).

Definition buf_getint (b : buffer) : outcome (Z * buffer) :=
  let* bs := buf_read b 4 in
  let* b := buf_incrpos b 4 in
  Ok (load32h_bytes bs, b).

Definition buf_putint (b : buffer) (val : Z) : outcome buffer :=
  let* b := buf_write b 4 (store32h val) in
  buf_incrwritepos b 4.

Definition buf_putbytes (b : buffer) (bs : bytes) (len : Z) : outcome buffer :=
  let* b := buf_write b len bs in
  buf_incrwritepos b len.

Definition buf_putstring (b : buffer) (str : bytes) (len : Z) : outcome buffer :=
  let* b := buf_putint b len in
  buf_putbytes b str len.

Definition buf_putbufstring (b : buffer) (buf_str : buffer) : outcome buffer :=
  let* src := mem_read (buf_data buf_str) 0 (buf_len buf_str) in
  buf_putstring b src (buf_len buf_str).

(** The NUL-terminated copy, the length, and the buffer after it. *)
Definition buf_getstring (b : buffer) : outcome (bytes * Z * buffer) :=
  let* (len, b) := buf_getint b in
  let* _ := exit_if (MAX_STRING_LEN <? len) "String too long" in
  let* src := buf_read b len in
  let* b := buf_incrpos b len in
  Ok (src ++ [0], len, b).

Definition buf_getstringbuf_int (b : buffer) (incllen : bool) : outcome (buffer * buffer) :=
  let* (len, b) := buf_getint b in
  let* _ := exit_if (MAX_STRING_LEN <? len) "String too long" in
  let extra := if incllen then 4 else 0 in
  let* ret := buf_new (u32 (len + extra)) in
  let* ret := if incllen then buf_putint ret len else Ok ret in
  let* src := buf_read b len in
  let* ret := buf_write ret len src in
  let* b := buf_incrpos b len in
  let* ret := buf_incrlen ret len in
  let* ret := buf_setpos ret 0 in
  Ok (ret, b).

Definition buf_getstringbuf (b : buffer) : outcome (buffer * buffer) := buf_getstringbuf_int b false.

Definition buf_getbuf (b : buffer) : outcome (buffer * buffer) := buf_getstringbuf_int b true.

Definition buf_getptrcopy (b : buffer) (len : Z) : outcome buffer :=
  let* src := buf_read b len in
  let* ret := buf_new len in
  let* ret := buf_putbytes ret src len in
  buf_setpos ret 0.

Definition buf_eatstring (b : buffer) : outcome buffer :=
  let* (len, b) := buf_getint b in
  buf_incrpos b len.

Definition buf_putmpint (b : buffer) (mp : Z) : outcome buffer :=
  let* _ := exit_if (mp <? 0) "negative bignum" in
  let bits := mp_count_bits mp in
  let '(len, pad) :=
    if mp =? 0 then (0, 0) else (bits / 8 + 1, if bits mod 8 =? 0 then 1 else 0) in
  let* b := buf_putint b len in
  if 0 <? len then
    let* b := if 0 <? pad then buf_putbyte b 0 else Ok b in
    let* p := buf_getwriteptr b (len - pad) in
    match mp_to_ubin mp (len - pad) with
    | None => Exit "mpint error"
    | Some bs =>
        let* d := mem_write (buf_data b) p bs in
        buf_incrwritepos (mkbuf d (buf_len b) (buf_pos b) (buf_size b)) (zlen bs)
    end
  else Ok b.

(** [Some v]: DROPBEAR_SUCCESS with the integer stored; [None]: DROPBEAR_FAILURE. *)
Definition buf_getmpint (b : buffer) : outcome (option Z * buffer) :=
  let* (len, b) := buf_getint b in
  if len =? 0 then Ok (Some 0, b)
  else if BUF_MAX_MPINT <? len then Ok (None, b)
  else
    let* p := buf_getptr b 1 in
    let* top := mem_get (buf_data b) p in
    if negb (Z.land top (Z.shiftl 1 7) =? 0) then Ok (None, b)
    else
      let* bs := buf_read b len in
      let* b := buf_incrpos b len in
      Ok (Some (mp_from_ubin bs), b).

(** ** The invariant *)

Record wf (b : buffer) : Prop := {
  wf_bytes : bytes_ok (buf_data b);
  wf_data : zlen (buf_data b) = buf_size b;
  wf_pos : 0 <= buf_pos b <= buf_len b;
  wf_len : buf_len b <= buf_size b;
  wf_size : buf_size b <= BUF_MAX_SIZE;
}.

(** The overflow backstop of every increment: under the invariant the 32-bit sum does
    not wrap, and the test is the mathematical one. *)
Lemma incr_guard lim p n :
  0 <= p <= BUF_MAX_SIZE -> lim <= BUF_MAX_SIZE -> 0 <= n ->
  (BUF_MAX_INCR <? n) || (lim <? u32 (p + n)) = (lim <? p + n).
Proof.
  unfold BUF_MAX_SIZE, BUF_MAX_INCR, u32. intros.
  destruct (Z.ltb_spec 1000000000 n), (Z.ltb_spec lim (p + n)), (Z.ltb_spec lim ((p + n) mod 4294967296));
    cbn; try done; lia.
Qed.

Ltac bwf := repeat match goal with H : wf _ |- _ => destruct H as [?wb ?wd ?wp ?wl ?ws] end;
  unfold BUF_MAX_SIZE, BUF_MAX_INCR in *; cbn [buf_data buf_len buf_pos buf_size] in *.

Section equations.
Context (b : buffer).

Lemma buf_incrlen_eq n : wf b -> 0 <= n ->
  buf_incrlen b n = if buf_size b <? buf_len b + n then Exit "Bad buf_incrlen"
                    else Ok (mkbuf (buf_data b) (buf_len b + n) (buf_pos b) (buf_size b)).
Proof.
  intros. unfold buf_incrlen. rewrite incr_guard by (bwf; unfold BUF_MAX_SIZE; lia).
  destruct (Z.ltb_spec (buf_size b) (buf_len b + n)); cbn; [done|]. bwf. by rewrite u32_small by lia.
Qed.

Lemma buf_incrpos_eq n : wf b -> 0 <= n ->
  buf_incrpos b n = if buf_len b <? buf_pos b + n then Exit "Bad buf_incrpos"
                    else Ok (mkbuf (buf_data b) (buf_len b) (buf_pos b + n) (buf_size b)).
Proof.
  intros. unfold buf_incrpos. rewrite incr_guard by (bwf; unfold BUF_MAX_SIZE; lia).
  destruct (Z.ltb_spec (buf_len b) (buf_pos b + n)); cbn; [done|]. bwf. by rewrite u32_small by lia.
Qed.

Lemma buf_incrwritepos_eq n : wf b -> 0 <= n ->
  buf_incrwritepos b n = if buf_size b <? buf_pos b + n then Exit "Bad buf_incrwritepos"
                    else Ok (mkbuf (buf_data b) (Z.max (buf_len b) (buf_pos b + n)) (buf_pos b + n) (buf_size b)).
Proof.
  intros. unfold buf_incrwritepos. rewrite incr_guard by (bwf; unfold BUF_MAX_SIZE; lia).
  destruct (Z.ltb_spec (buf_size b) (buf_pos b + n)); cbn; [done|]. bwf. rewrite u32_small by lia.
  destruct (Z.ltb_spec (buf_len b) (buf_pos b + n)); do 2 f_equal; lia.
Qed.

Lemma buf_getptr_eq n : wf b -> 0 <= n ->
  buf_getptr b n = if buf_len b <? buf_pos b + n then Exit "Bad buf_getptr" else Ok (buf_pos b).
Proof.
  intros. unfold buf_getptr. rewrite incr_guard by (bwf; unfold BUF_MAX_SIZE; lia). by case_match.
Qed.

Lemma buf_getwriteptr_eq n : wf b -> 0 <= n ->
  buf_getwriteptr b n = if buf_size b <? buf_pos b + n then Exit "Bad buf_getwriteptr" else Ok (buf_pos b).
Proof.
  intros. unfold buf_getwriteptr. rewrite incr_guard by (bwf; unfold BUF_MAX_SIZE; lia). by case_match.
Qed.

Lemma buf_read_eq n : wf b -> 0 <= n ->
  buf_read b n = if buf_len b <? buf_pos b + n then Exit "Bad buf_getptr" else Ok (sub (buf_data b) (buf_pos b) n).
Proof.
  intros. unfold buf_read. rewrite buf_getptr_eq by done.
  destruct (Z.ltb_spec (buf_len b) (buf_pos b + n)); cbn; [done|]. bwf.
  apply mem_read_Ok. split_and!; try done; lia.
Qed.

Lemma buf_write_eq bs : wf b ->
  buf_write b (zlen bs) bs = if buf_size b <? buf_pos b + zlen bs then Exit "Bad buf_getwriteptr"
    else Ok (mkbuf (blit (buf_data b) (buf_pos b) bs) (buf_len b) (buf_pos b) (buf_size b)).
Proof.
  intros. unfold buf_write. pose proof (zlen_nonneg bs). rewrite buf_getwriteptr_eq by done.
  destruct (Z.ltb_spec (buf_size b) (buf_pos b + zlen bs)); cbn; [done|]. bwf.
  by rewrite mem_write_in by lia.
Qed.
End equations.

(** What writing a string of bytes at the position does. *)
Definition put (b : buffer) (bs : bytes) : buffer :=
  mkbuf (blit (buf_data b) (buf_pos b) bs) (Z.max (buf_len b) (buf_pos b + zlen bs))
        (buf_pos b + zlen bs) (buf_size b).

Definition advance (b : buffer) (n : Z) : buffer :=
  mkbuf (buf_data b) (buf_len b) (buf_pos b + n) (buf_size b).

Lemma wf_put b bs : wf b -> bytes_ok bs -> buf_pos b + zlen bs <= buf_size b -> wf (put b bs).
Proof.
  intros Hb Hbs Hn. pose proof (zlen_nonneg bs). bwf. split; cbn; unfold BUF_MAX_SIZE; try lia.
  - by apply bytes_ok_blit.
  - rewrite zlen_blit; lia.
Qed.

Lemma wf_advance b n : wf b -> 0 <= n -> buf_pos b + n <= buf_len b -> wf (advance b n).
Proof. intros. bwf. split; cbn; unfold BUF_MAX_SIZE; try done; lia. Qed.

Lemma wf_write b bs : wf b -> bytes_ok bs -> buf_pos b + zlen bs <= buf_size b ->
  wf (mkbuf (blit (buf_data b) (buf_pos b) bs) (buf_len b) (buf_pos b) (buf_size b)).
Proof.
  intros. bwf. split; cbn; unfold BUF_MAX_SIZE; try lia; [by apply bytes_ok_blit|].
  rewrite zlen_blit; lia.
Qed.

Lemma buf_putbytes_eq b bs : wf b -> bytes_ok bs ->
  buf_putbytes b bs (zlen bs) = if buf_size b <? buf_pos b + zlen bs then Exit "Bad buf_getwriteptr" else Ok (put b bs).
Proof.
  intros Hb Hbs. unfold buf_putbytes. rewrite buf_write_eq by done.
  destruct (Z.ltb_spec (buf_size b) (buf_pos b + zlen bs)); cbn; [done|].
  rewrite buf_incrwritepos_eq by (try apply zlen_nonneg; by apply wf_write).
  cbn. destruct (Z.ltb_spec (buf_size b) (buf_pos b + zlen bs)); [lia|done].
Qed.

Lemma buf_putint_eq b v : wf b ->
  buf_putint b v = if buf_size b <? buf_pos b + 4 then Exit "Bad buf_getwriteptr" else Ok (put b (store32h v)).
Proof.
  intros. change (buf_putint b v) with (buf_putbytes b (store32h v) (zlen (store32h v))).
  rewrite buf_putbytes_eq by (done || apply store32h_ok). done.
Qed.

Lemma buf_putbyte_eq b v : wf b -> is_byte v ->
  buf_putbyte b v = if buf_size b <? buf_pos b + 1 then Exit "Bad buf_incrlen" else Ok (put b [v]).
Proof.
  intros Hb Hv. unfold buf_putbyte. destruct (Z.leb_spec (buf_len b) (buf_pos b)).
  - rewrite buf_incrlen_eq by done. replace (buf_len b) with (buf_pos b) by (bwf; lia).
    destruct (Z.ltb_spec (buf_size b) (buf_pos b + 1)); cbn; [done|]. bwf.
    rewrite mem_write_in by (change (zlen [v]) with 1; lia).
    cbn. rewrite u32_small by lia. unfold put. change (zlen [v]) with 1. do 2 f_equal. lia.
  - bwf. rewrite (proj2 (Z.ltb_ge _ _)) by lia. cbn.
    rewrite mem_write_in by (change (zlen [v]) with 1; lia).
    cbn. rewrite u32_small by lia. unfold put. change (zlen [v]) with 1. do 2 f_equal. lia.
Qed.

Lemma buf_getbyte_eq b : wf b ->
  buf_getbyte b = if buf_len b <=? buf_pos b then Exit "Bad buf_getbyte"
    else match buf_data b !! Z.to_nat (buf_pos b) with Some v => Ok (v, advance b 1) | None => Undef end.
Proof.
  intros Hb. unfold buf_getbyte. destruct (Z.leb_spec (buf_len b) (buf_pos b)); cbn; [done|]. bwf.
  unfold mem_get. rewrite (proj2 (Z.leb_le _ _)) by lia. case_match; [|done]. cbn. by rewrite u32_small by lia.
Qed.

(** ** Each operation preserves the invariant and is free of undefined behaviour *)

Ltac bpost := repeat (ostep; cbn [fst snd] in *); try (split; try done); bwf; try lia.

Lemma buf_new_post n : 0 <= n -> opost (fun b => wf b /\ buf_size b = n /\ buf_len b = 0 /\ buf_pos b = 0) (buf_new n).
Proof.
  intros. unfold buf_new. ostep. ostep. split; [|done]. apply Z.ltb_ge in H1.
  split; cbn; try lia; [by apply Forall_replicate|by apply zlen_replicate].
Qed.

Lemma buf_setlen_post b n : wf b -> 0 <= n -> opost (fun b' => wf b' /\ buf_len b' = n) (buf_setlen b n).
Proof. intros. unfold buf_setlen. ostep. ostep. bwf. blia. split; [split; cbn; unfold BUF_MAX_SIZE; try done; lia|done]. Qed.

Lemma buf_setpos_post b n : wf b -> 0 <= n -> opost (fun b' => wf b' /\ buf_pos b' = n) (buf_setpos b n).
Proof. intros. unfold buf_setpos. ostep. ostep. bwf. blia. split; [split; cbn; unfold BUF_MAX_SIZE; try done; lia|done]. Qed.

Lemma buf_incrlen_post b n : wf b -> 0 <= n -> opost wf (buf_incrlen b n).
Proof. intros. rewrite buf_incrlen_eq by done. ostep; [done|]. bwf. blia. split; cbn; unfold BUF_MAX_SIZE; try done; lia. Qed.

Lemma buf_incrpos_post b n : wf b -> 0 <= n -> opost wf (buf_incrpos b n).
Proof. intros. rewrite buf_incrpos_eq by done. ostep; [done|]. blia. by apply wf_advance. Qed.

Lemma buf_incrwritepos_post b n : wf b -> 0 <= n -> opost wf (buf_incrwritepos b n).
Proof. intros. rewrite buf_incrwritepos_eq by done. ostep; [done|]. bwf. blia. split; cbn; unfold BUF_MAX_SIZE; try done; lia. Qed.

Lemma buf_decrpos_post b n : wf b -> 0 <= n -> opost wf (buf_decrpos b n).
Proof. intros. unfold buf_decrpos. ostep. ostep. bwf. blia. split; cbn; unfold BUF_MAX_SIZE; try done; lia. Qed.

Lemma buf_read_post b n : wf b -> 0 <= n -> opost (fun bs => bytes_ok bs /\ zlen bs = n) (buf_read b n).
Proof.
  intros. rewrite buf_read_eq by done. ostep; [done|]. bwf. blia.
  split; [by apply bytes_ok_sub|apply zlen_sub; lia].
Qed.

Lemma buf_write_post b n bs : wf b -> bytes_ok bs -> zlen bs = n -> opost wf (buf_write b n bs).
Proof. intros ?? <-. rewrite buf_write_eq by done. ostep; [done|]. blia. by apply wf_write. Qed.

Lemma buf_putbytes_post b n bs : wf b -> bytes_ok bs -> zlen bs = n -> opost wf (buf_putbytes b bs n).
Proof. intros ?? <-. rewrite buf_putbytes_eq by done. ostep; [done|]. blia. by apply wf_put. Qed.

Lemma buf_putint_post b v : wf b -> opost wf (buf_putint b v).
Proof. intros. rewrite buf_putint_eq by done. ostep; [done|]. blia. apply wf_put; [done|apply store32h_ok|done]. Qed.

Lemma buf_putbyte_post b v : wf b -> is_byte v -> opost wf (buf_putbyte b v).
Proof. intros. rewrite buf_putbyte_eq by done. ostep; [done|]. blia. apply wf_put; [done|by apply Forall_singleton|done]. Qed.

Lemma buf_getbyte_post b : wf b -> opost (fun '(v, b') => is_byte v /\ wf b') (buf_getbyte b).
Proof.
  intros Hb. rewrite buf_getbyte_eq by done. ostep; [done|]. blia.
  assert (Hb' := Hb). bwf. ostep.
  - cbn. split; [by eapply bytes_ok_lookup|]. apply wf_advance; [done|lia|lia].
  - apply lookup_ge_None in Heqo. unfold zlen in *. lia.
Qed.

Lemma load32h_bytes_u32 bs : bytes_ok bs -> is_u32 (load32h_bytes bs).
Proof.
  intros Hb. unfold load32h_bytes. do 5 (destruct bs as [|? bs]; try (unfold is_u32; lia)).
  do 4 apply Forall_cons in Hb as [? Hb]. by apply load32h_range.
Qed.

Lemma buf_getint_post b : wf b -> opost (fun '(v, b') => is_u32 v /\ wf b') (buf_getint b).
Proof.
  intros Hb. unfold buf_getint. eapply opost_bind; [by apply buf_read_post|]. intros bs _ [? ?].
  eapply opost_bind; [by apply buf_incrpos_post|]. intros b' _ ?. split; [by apply load32h_bytes_u32|done].
Qed.

#[export] Hint Resolve buf_new_post buf_setlen_post buf_setpos_post buf_incrlen_post buf_incrpos_post
  buf_incrwritepos_post buf_decrpos_post buf_read_post buf_write_post buf_putbytes_post buf_putint_post
  buf_putbyte_post buf_getbyte_post buf_getint_post : opost.

Lemma buf_getbool_post b : wf b -> opost (fun '(v, b') => (v = 0 \/ v = 1) /\ wf b') (buf_getbool b).
Proof.
  intros. unfold buf_getbool. ostep. ostep. split; [|naive_solver].
  destruct (Z.eqb_spec r0 0); cbn; naive_solver.
Qed.

Lemma buf_eatstring_post b : wf b -> opost wf (buf_eatstring b).
Proof. intros. unfold buf_eatstring. ostep. apply buf_incrpos_post; unfold is_u32 in *; naive_solver lia. Qed.

Lemma buf_putstring_post b str n : wf b -> bytes_ok str -> zlen str = n -> opost wf (buf_putstring b str n).
Proof. intros. unfold buf_putstring. ostep. by apply buf_putbytes_post. Qed.

Lemma buf_contents_post b : wf b -> opost (fun bs => bytes_ok bs /\ zlen bs = buf_len b) (mem_read (buf_data b) 0 (buf_len b)).
Proof.
  intros. bwf. rewrite mem_read_in by lia. cbn. split; [by apply bytes_ok_sub|apply zlen_sub; lia].
Qed.

Lemma buf_putbufstring_post b b2 : wf b -> wf b2 -> opost wf (buf_putbufstring b b2).
Proof.
  intros. unfold buf_putbufstring. eapply opost_bind; [by apply buf_contents_post|].
  intros bs _ [? ?]. by apply buf_putstring_post.
Qed.

Lemma buf_getstring_post b : wf b ->
  opost (fun '(s, n, b') => wf b' /\ 0 <= n <= MAX_STRING_LEN /\ bytes_ok s /\ zlen s = n + 1) (buf_getstring b).
Proof.
  intros. unfold buf_getstring. ostep. ostep. blia. destruct H1 as [Hu ?]. unfold is_u32 in Hu.
  eapply opost_bind; [apply buf_read_post; [done|lia]|]. intros bs _ [? ?].
  eapply opost_bind; [apply buf_incrpos_post; [done|lia]|]. intros b' _ ?.
  cbn. split_and!; try done; try lia.
  - by apply Forall_app; split; [|apply Forall_singleton].
  - rewrite zlen_app. by change (zlen [0]) with 1; lia.
Qed.

Lemma buf_getstringbuf_int_post b incl : wf b ->
  opost (fun '(ret, b') => wf ret /\ wf b' /\ buf_pos ret = 0) (buf_getstringbuf_int b incl).
Proof.
  intros. unfold buf_getstringbuf_int. ostep. ostep. blia. destruct H1 as [Hu ?]. unfold is_u32 in Hu.
  eapply opost_bind; [apply buf_new_post; apply u32_range|]. intros ret _ (Hret & _).
  eapply (opost_bind wf); [destruct incl; [by apply buf_putint_post|done]|]. intros ret1 _ ?.
  eapply opost_bind; [apply buf_read_post; [done|lia]|]. intros bs _ [? ?].
  eapply opost_bind; [by apply buf_write_post|]. intros ret2 _ ?.
  eapply opost_bind; [apply buf_incrpos_post; [done|lia]|]. intros b' _ ?.
  eapply opost_bind; [apply buf_incrlen_post; [done|lia]|]. intros ret3 _ ?.
  eapply opost_bind; [by apply buf_setpos_post|]. intros ret4 _ [? ?]. done.
Qed.

Lemma buf_getptrcopy_post b n : wf b -> 0 <= n -> opost (fun ret => wf ret /\ buf_pos ret = 0) (buf_getptrcopy b n).
Proof.
  intros. unfold buf_getptrcopy. ostep. eapply opost_bind; [by apply buf_new_post|]. intros ret _ (Hret & _).
  eapply opost_bind; [apply buf_putbytes_post; naive_solver|]. intros ret2 _ ?. by apply buf_setpos_post.
Qed.

Lemma buf_newcopy_post b : wf b -> opost (fun ret => wf ret /\ buf_pos ret = 0 /\ buf_len ret = buf_len b) (buf_newcopy b).
Proof.
  intros Hb. assert (0 <= buf_len b) by (bwf; lia). unfold buf_newcopy.
  eapply opost_bind; [by apply buf_new_post|]. intros ret _ (Hret & Hsz & _ & Hp). cbn.
  assert (Hret' : wf (mkbuf (buf_data ret) (buf_len b) (buf_pos ret) (buf_size ret))).
  { bwf. split; cbn; unfold BUF_MAX_SIZE; try done; lia. }
  ostep; [|done].
  eapply opost_bind; [by apply buf_contents_post|]. intros bs _ [? ?].
  assert (Hr := Hret'). bwf. rewrite mem_write_in by lia. cbn. split; [|done].
  split; cbn; unfold BUF_MAX_SIZE; try lia; [by apply bytes_ok_blit|rewrite zlen_blit; lia].
Qed.

Lemma buf_resize_post junk b n : (forall i, is_byte (junk i)) -> wf b -> 0 <= n -> opost wf (buf_resize junk b n).
Proof.
  intros Hj Hb Hn. unfold buf_resize. ostep. ostep. bwf. blia. split; cbn; unfold BUF_MAX_SIZE; try lia.
  - apply Forall_app; split; [by apply Forall_take|]. apply Forall_map, Forall_true. done.
  - unfold zlen in *. rewrite length_app, length_take, length_map, length_seq. lia.
Qed.

Lemma buf_getmpint_post b : wf b ->
  opost (fun '(r, b') => wf b' /\ (forall v, r = Some v -> 0 <= v)) (buf_getmpint b).
Proof.
  intros. unfold buf_getmpint. eapply opost_bind; [by apply buf_getint_post|].
  intros [len b0] _ [Hu Hw]. unfold is_u32 in Hu. cbn.
  ostep; [split; [done|]; intros ? [= <-]; lia|]. ostep; [done|]. blia.
  rewrite buf_getptr_eq by done. destruct (Z.ltb_spec (buf_len b0) (buf_pos b0 + 1)); [done|].
  cbn [obind]. assert (Hw' := Hw).
  destruct (mem_get_total (buf_data b0) (buf_pos b0)) as [top Ht]; [bwf; lia|]. rewrite Ht. cbn [obind].
  ostep; [done|]. eapply opost_bind; [apply buf_read_post; [done|lia]|]. intros bs _ [Hbs ?].
  eapply opost_bind; [apply buf_incrpos_post; [done|lia]|]. intros b' _ ?. split; [done|].
  intros v [= <-]. rewrite mp_from_ubin_value by done. by apply be_value_range.
Qed.

Lemma mp_to_ubin_fits mp : 0 < mp -> mp_ubin_size mp =
  mp_count_bits mp / 8 + 1 - (if mp_count_bits mp mod 8 =? 0 then 1 else 0).
Proof.
  intros. rewrite mp_ubin_size_spec. destruct (mp_count_bits_pos mp) as [? _]; [done|].
  destruct (Z.eqb_spec (mp_count_bits mp mod 8) 0); lia.
Qed.

(** [buf_putmpint] written as the bytes it puts: the SSH [mpint] encoding. *)
Definition mpint_bytes (mp : Z) : bytes :=
  if mp =? 0 then []
  else (if mp_count_bits mp mod 8 =? 0 then [0] else []) ++ mp_to_ubin_loop (Z.to_nat (mp_ubin_size mp)) mp [].

Lemma mp_to_ubin_loop_zlen mp : 0 <= mp -> zlen (mp_to_ubin_loop (Z.to_nat (mp_ubin_size mp)) mp []) = mp_ubin_size mp.
Proof.
  intros. destruct (mp_to_ubin_loop_spec (Z.to_nat (mp_ubin_size mp)) mp) as (_ & Hl & _). unfold zlen. rewrite Hl.
  rewrite mp_ubin_size_spec. pose proof (mp_count_bits_nonneg mp). lia.
Qed.

Lemma mpint_bytes_ok mp : bytes_ok (mpint_bytes mp).
Proof.
  unfold mpint_bytes. case_match; [constructor|]. apply Forall_app. split.
  - case_match; [by apply Forall_singleton|constructor].
  - apply mp_to_ubin_loop_spec.
Qed.

Lemma mpint_bytes_zlen mp : 0 <= mp -> zlen (mpint_bytes mp) = if mp =? 0 then 0 else mp_count_bits mp / 8 + 1.
Proof.
  intros. unfold mpint_bytes. destruct (Z.eqb_spec mp 0); [done|].
  rewrite zlen_app, mp_to_ubin_loop_zlen, mp_to_ubin_fits by lia. case_match; unfold zlen; cbn; lia.
Qed.

Lemma put_nil b : wf b -> put b [] = b.
Proof.
  intros. bwf. destruct b as [d l p s]. unfold put. cbn in *. change (zlen []) with 0.
  f_equal; [apply blit_nil|lia|lia].
Qed.

Lemma put_put b l r : wf b -> buf_pos b + zlen l + zlen r <= buf_size b -> put (put b l) r = put b (l ++ r).
Proof.
  intros Hb Hsz. pose proof (zlen_nonneg l). pose proof (zlen_nonneg r). bwf. unfold put. cbn. rewrite zlen_app.
  f_equal; [|lia|lia]. apply blit_blit_app; lia.
Qed.

Lemma buf_putmpint_eq b mp : wf b -> 0 <= mp ->
  buf_pos b + 4 + zlen (mpint_bytes mp) <= buf_size b ->
  buf_putmpint b mp = Ok (put b (store32h (zlen (mpint_bytes mp)) ++ mpint_bytes mp)).
Proof.
  intros Hb Hmp. rewrite mpint_bytes_zlen by done. unfold buf_putmpint, mpint_bytes.
  rewrite (proj2 (Z.ltb_ge mp 0)) by lia. cbn [exit_if obind].
  destruct (Z.eqb_spec mp 0) as [->|Hne]; intros Hsz.
  { rewrite buf_putint_eq by done. rewrite (proj2 (Z.ltb_ge _ _)) by lia. by rewrite app_nil_r. }
  pose proof (mp_count_bits_pos mp ltac:(lia)) as [Hbits _]. pose proof (mp_to_ubin_fits mp ltac:(lia)) as Hfit.
  rewrite buf_putint_eq, (proj2 (Z.ltb_ge _ _)) by (done || lia). cbn [obind].
  rewrite (proj2 (Z.ltb_lt 0 _)) by lia.
  set (n := mp_count_bits mp / 8 + 1) in *. set (b1 := put b (store32h n)).
  assert (Hb1 : wf b1) by (apply wf_put; [done|apply store32h_ok|change (zlen (store32h n)) with 4; lia]).
  assert (Hp1 : buf_pos b1 = buf_pos b + 4) by done. assert (Hs1 : buf_size b1 = buf_size b) by done.
  set (pad := if mp_count_bits mp mod 8 =? 0 then 1 else 0) in *.
  set (padb := if mp_count_bits mp mod 8 =? 0 then [0] else []).
  assert (Hpad : (if 0 <? pad then buf_putbyte b1 0 else Ok b1) = Ok (put b1 padb) /\ zlen padb = pad /\ bytes_ok padb).
  { unfold pad, padb. destruct (mp_count_bits mp mod 8 =? 0); cbn.
    - rewrite buf_putbyte_eq, (proj2 (Z.ltb_ge _ _)) by (done || lia). split_and!; [done|done|by apply Forall_singleton].
    - split_and!; [by rewrite put_nil|done|constructor]. }
  destruct Hpad as (-> & Hpl & Hpo). cbn [obind]. set (b2 := put b1 padb).
  assert (Hpadr : 0 <= pad <= 1) by (unfold pad; case_match; lia).
  assert (Hb2 : wf b2) by (apply wf_put; [done|done|lia]).
  assert (Hp2 : buf_pos b2 = buf_pos b + 4 + pad) by (cbn; rewrite Hpl; change (zlen (store32h n)) with 4; lia).
  rewrite buf_getwriteptr_eq, (proj2 (Z.ltb_ge _ _)) by (done || lia || (change (buf_size b2) with (buf_size b); lia)).
  cbn [obind]. unfold mp_to_ubin. rewrite (proj2 (Z.ltb_ge _ _)) by lia. rewrite Z.abs_eq by lia.
  pose proof (mp_to_ubin_loop_zlen mp ltac:(lia)) as Hl.
  destruct (mp_to_ubin_loop_spec (Z.to_nat (mp_ubin_size mp)) mp) as (Hlo & _).
  set (bs := mp_to_ubin_loop (Z.to_nat (mp_ubin_size mp)) mp []) in *.
  pose proof (buf_putbytes_eq b2 bs Hb2 Hlo) as Hpb. unfold buf_putbytes, buf_write in Hpb.
  rewrite buf_getwriteptr_eq in Hpb by (done || lia).
  rewrite (proj2 (Z.ltb_ge _ _)) in Hpb by (change (buf_size b2) with (buf_size b); lia). cbn [obind] in Hpb.
  rewrite obind_assoc in Hpb. cbn [obind] in Hpb. rewrite Hpb. unfold b2.
  rewrite put_put by (done || lia). unfold b1.
  rewrite put_put by (done || (rewrite zlen_app; change (zlen (store32h n)) with 4; lia)). done.
Qed.

Lemma buf_putmpint_post b mp : wf b -> opost wf (buf_putmpint b mp).
Proof.
  intros Hb. unfold buf_putmpint. ostep. blia. set (bits := mp_count_bits mp).
  destruct (Z.eqb_spec mp 0); cbn [obind].
  { ostep. done. }
  destruct (mp_count_bits_pos mp) as [Hn _]; [lia|]. pose proof (mp_to_ubin_fits mp ltac:(lia)) as Hfit. fold bits in Hn, Hfit.
  set (pad := if bits mod 8 =? 0 then 1 else 0) in *.
  assert (0 <= pad <= 1) by (unfold pad; case_match; lia).
  ostep. rewrite (proj2 (Z.ltb_lt 0 _)) by lia.
  eapply (opost_bind wf); [destruct (0 <? pad); [by apply buf_putbyte_post|done]|]. intros b2 _ Hb2.
  rewrite buf_getwriteptr_eq by (done || lia).
  destruct (Z.ltb_spec (buf_size b2) (buf_pos b2 + (bits / 8 + 1 - pad))); [done|]. cbn [obind].
  unfold mp_to_ubin. rewrite (proj2 (Z.ltb_ge _ _)) by lia. rewrite Z.abs_eq by lia.
  pose proof (mp_to_ubin_loop_zlen mp ltac:(lia)) as Hl.
  destruct (mp_to_ubin_loop_spec (Z.to_nat (mp_ubin_size mp)) mp) as (Hlo & _).
  set (bs := mp_to_ubin_loop _ _ _) in *. pose proof Hb2 as Hw. destruct Hb2.
  rewrite mem_write_in by lia. cbn [obind]. apply buf_incrwritepos_post; [|apply zlen_nonneg].
  apply wf_write; [done|done|lia].
Qed.

#[export] Hint Resolve buf_getbool_post buf_eatstring_post buf_putstring_post buf_putbufstring_post
  buf_getstring_post buf_getstringbuf_int_post buf_getptrcopy_post buf_newcopy_post buf_resize_post
  buf_getmpint_post buf_putmpint_post : opost.

(** ** Every sequence of operations *)

(** One call on a buffer, with its arguments; the values it returns are dropped.
    The last four replace the buffer by the one the call returns. *)
Inductive bufop :=
| OpSetlen (n : Z) | OpIncrlen (n : Z) | OpSetpos (n : Z) | OpIncrpos (n : Z) | OpDecrpos (n : Z)
| OpIncrwritepos (n : Z) | OpGetbyte | OpGetbool | OpPutbyte (v : Z) | OpGetint | OpPutint (v : Z)
| OpPutbytes (bs : bytes) | OpPutstring (bs : bytes) | OpEatstring | OpGetstring
| OpPutmpint (mp : Z) | OpGetmpint
| OpGetstringbuf (incllen : bool) | OpGetptrcopy (n : Z) | OpNewcopy | OpResize (junk : nat -> Z) (n : Z).

Definition bufop_args (op : bufop) : Prop :=
  match op with
  | OpSetlen n | OpIncrlen n | OpSetpos n | OpIncrpos n | OpDecrpos n | OpIncrwritepos n
  | OpPutint n | OpGetptrcopy n => is_u32 n
  | OpPutbyte v => is_byte v
  | OpPutbytes bs | OpPutstring bs => bytes_ok bs
  | OpResize junk n => is_u32 n /\ forall i, is_byte (junk i)
  | _ => True
  end.

Definition run_bufop (op : bufop) (b : buffer) : outcome buffer :=
  match op with
  | OpSetlen n => buf_setlen b n
  | OpIncrlen n => buf_incrlen b n
  | OpSetpos n => buf_setpos b n
  | OpIncrpos n => buf_incrpos b n
  | OpDecrpos n => buf_decrpos b n
  | OpIncrwritepos n => buf_incrwritepos b n
  | OpGetbyte => let* (_, b) := buf_getbyte b in Ok b
  | OpGetbool => let* (_, b) := buf_getbool b in Ok b
  | OpPutbyte v => buf_putbyte b v
  | OpGetint => let* (_, b) := buf_getint b in Ok b
  | OpPutint v => buf_putint b v
  | OpPutbytes bs => buf_putbytes b bs (zlen bs)
  | OpPutstring bs => buf_putstring b bs (zlen bs)
  | OpEatstring => buf_eatstring b
  | OpGetstring => let* (_, b) := buf_getstring b in Ok b
  | OpPutmpint mp => buf_putmpint b mp
  | OpGetmpint => let* (_, b) := buf_getmpint b in Ok b
  | OpGetstringbuf incl => let* (ret, _) := buf_getstringbuf_int b incl in Ok ret
  | OpGetptrcopy n => buf_getptrcopy b n
  | OpNewcopy => buf_newcopy b
  | OpResize junk n => buf_resize junk b n
  end.

Fixpoint run_bufops (ops : list bufop) (b : buffer) : outcome buffer :=
  match ops with
  | [] => Ok b
  | op :: ops => let* b := run_bufop op b in run_bufops ops b
  end.

Lemma run_bufop_post op b : wf b -> bufop_args op -> opost wf (run_bufop op b).
Proof.
  intros Hb Ha.
  assert (Hu : forall n, is_u32 n -> 0 <= n) by (unfold is_u32; naive_solver).
  destruct op; cbn in *; try solve [eauto with opost];
    try solve [ostep; cbn; naive_solver];
    try solve [eapply opost_mono; [eauto with opost|naive_solver]].
  destruct Ha. apply buf_resize_post; auto.
Qed.

Lemma run_bufops_post ops b : wf b -> Forall bufop_args ops -> opost wf (run_bufops ops b).
Proof.
  intros Hb Ha. revert b Hb. induction Ha as [|op ops Hop Ha IH]; intros b Hb; [done|].
  cbn. eapply opost_bind; [by apply run_bufop_post|]. intros b' _ ?. by apply IH.
Qed.

(** ** Streams: what is left to read, what was written *)

Definition unread (b : buffer) : bytes := sub (buf_data b) (buf_pos b) (buf_len b - buf_pos b).

Definition used (b : buffer) : bytes := sub (buf_data b) 0 (buf_len b).

Lemma unread_zlen b : wf b -> zlen (unread b) = buf_len b - buf_pos b.
Proof. intros. bwf. apply zlen_sub; lia. Qed.

Lemma unread_ok b : wf b -> bytes_ok (unread b).
Proof. intros []. by apply bytes_ok_sub. Qed.

Lemma used_zlen b : wf b -> zlen (used b) = buf_len b.
Proof. intros. bwf. apply zlen_sub; lia. Qed.

Lemma unread_app_len b bs rest : wf b -> unread b = bs ++ rest -> buf_pos b + zlen bs <= buf_len b.
Proof.
  intros Hb Hu. pose proof (unread_zlen b Hb) as Hl. rewrite Hu, zlen_app in Hl. pose proof (zlen_nonneg rest). lia.
Qed.

Lemma unread_read b bs rest : wf b -> unread b = bs ++ rest ->
  buf_read b (zlen bs) = Ok bs /\ unread (advance b (zlen bs)) = rest /\ wf (advance b (zlen bs)).
Proof.
  intros Hb Hu. pose proof (unread_app_len _ _ _ Hb Hu) as Hl. pose proof (zlen_nonneg bs).
  rewrite buf_read_eq, (proj2 (Z.ltb_ge _ _)) by (done || lia).
  assert (Hs : sub (buf_data b) (buf_pos b) (zlen bs) = bs /\
               sub (buf_data b) (buf_pos b + zlen bs) (buf_len b - (buf_pos b + zlen bs)) = rest).
  { unfold unread in Hu. bwf.
    replace (buf_len b - buf_pos b) with (zlen bs + (buf_len b - (buf_pos b + zlen bs))) in Hu by lia.
    rewrite sub_split in Hu by lia. apply app_inj_1 in Hu; [done|].
    pose proof (zlen_sub (buf_data b) (buf_pos b) (zlen bs)). unfold zlen in *. lia. }
  destruct Hs as [-> Hr]. split_and!; [done|done|by apply wf_advance].
Qed.

Lemma buf_incrpos_advance b n : wf b -> 0 <= n -> buf_pos b + n <= buf_len b -> buf_incrpos b n = Ok (advance b n).
Proof. intros. rewrite buf_incrpos_eq, (proj2 (Z.ltb_ge _ _)) by (done || lia). done. Qed.

Lemma advance_advance b n m : advance (advance b n) m = advance b (n + m).
Proof. unfold advance. cbn. f_equal. lia. Qed.

Lemma advance_0 b : advance b 0 = b.
Proof. destruct b. unfold advance. cbn. f_equal. lia. Qed.

(** A reader takes a prefix of the unread bytes. *)
Definition takes {A} (m : buffer -> outcome (A * buffer)) (bs : bytes) (a : A) : Prop :=
  forall b rest, wf b -> unread b = bs ++ rest ->
    m b = Ok (a, advance b (zlen bs)) /\ unread (advance b (zlen bs)) = rest /\ wf (advance b (zlen bs)).

Lemma takes_byte v : takes buf_getbyte [v] v.
Proof.
  intros b rest Hb Hu. pose proof (unread_read b [v] rest Hb Hu) as (Hr & Ha & Hw).
  split; [|done]. pose proof (unread_app_len _ _ _ Hb Hu) as Hl. change (zlen [v]) with 1 in *.
  rewrite buf_getbyte_eq, (proj2 (Z.leb_gt _ _)) by (done || lia).
  assert (buf_data b !! Z.to_nat (buf_pos b) = Some v) as ->; [|done].
  unfold unread, sub in Hu. bwf. assert (Hlk : (v :: rest) !! 0%nat = Some v) by done.
  change (v :: rest) with ([v] ++ rest) in Hlk. rewrite <- Hu in Hlk.
  rewrite lookup_take_lt in Hlk by lia. rewrite lookup_drop in Hlk. by rewrite Nat.add_0_r in Hlk.
Qed.

Lemma takes_bool v : v = 0 \/ v = 1 -> takes buf_getbool [v] v.
Proof.
  intros Hv b rest Hb Hu. destruct (takes_byte v b rest Hb Hu) as [He Hr]. split; [|done].
  unfold buf_getbool. rewrite He. cbn. by destruct Hv as [-> | ->].
Qed.

Lemma takes_int v : is_u32 v -> takes buf_getint (store32h v) v.
Proof.
  intros Hv b rest Hb Hu. pose proof (unread_read _ _ _ Hb Hu) as (Hr & Ha & Hw).
  pose proof (unread_app_len _ _ _ Hb Hu). split; [|done]. change (zlen (store32h v)) with 4 in *.
  unfold buf_getint. rewrite Hr. cbn [obind]. rewrite buf_incrpos_advance by (done || lia). cbn [obind].
  by rewrite load_store32h.
Qed.

(** The SSH [string] encoding. *)
Definition ssh_string (s : bytes) : bytes := store32h (zlen s) ++ s.

#[global] Arguments ssh_string : simpl never.

Lemma takes_string s : zlen s <= MAX_STRING_LEN -> takes buf_getstring (ssh_string s) (s ++ [0], zlen s).
Proof.
  intros Hs b rest Hb Hu. unfold ssh_string in *. rewrite <- app_assoc in Hu. pose proof (zlen_nonneg s).
  assert (MAX_STRING_LEN = 9000) as HM by done.
  destruct (takes_int (zlen s) ltac:(unfold is_u32; lia) b _ Hb Hu) as (He & Hu2 & Hw2).
  unfold buf_getstring. rewrite He. cbn [obind]. rewrite (proj2 (Z.ltb_ge _ _)) by lia. cbn [exit_if obind].
  destruct (unread_read _ _ _ Hw2 Hu2) as (Hr & Ha & Hw). rewrite Hr. cbn [obind].
  pose proof (unread_app_len _ _ _ Hw2 Hu2). rewrite buf_incrpos_advance by (done || lia). cbn [obind].
  rewrite advance_advance, <- zlen_app in *. done.
Qed.

(** The SSH [mpint] encoding of a non-negative integer. *)
Definition ssh_mpint (mp : Z) : bytes := ssh_string (mpint_bytes mp).

#[global] Arguments ssh_mpint : simpl never.
#[global] Arguments mpint_bytes : simpl never.

Lemma mpint_bytes_value mp : 0 <= mp -> be_value (mpint_bytes mp) = mp.
Proof.
  intros. unfold mpint_bytes. destruct (Z.eqb_spec mp 0) as [->|]; [done|].
  assert (be_value (mp_to_ubin_loop (Z.to_nat (mp_ubin_size mp)) mp []) = mp) as Hv.
  { destruct (mp_to_ubin_value mp (mp_ubin_size mp) (mp_to_ubin_loop (Z.to_nat (mp_ubin_size mp)) mp [])) as (_ & _ & ?); try done.
    unfold mp_to_ubin. rewrite (proj2 (Z.ltb_ge _ _)) by lia. by rewrite Z.abs_eq by lia. }
  case_match; [|done]. rewrite be_value_app, Hv. cbn. lia.
Qed.

(** The encoding is canonical: the top bit of its first byte is clear, and a leading
    zero byte is there only when the next byte has its top bit set. *)
Lemma mpint_bytes_canonical mp b rest : 0 <= mp -> mpint_bytes mp = b :: rest ->
  b < 128 /\ (b = 0 -> exists c rest', rest = c :: rest' /\ 128 <= c).
Proof.
  intros Hmp. unfold mpint_bytes. destruct (Z.eqb_spec mp 0); [done|].
  destruct (mp_to_ubin_loop_spec (Z.to_nat (mp_ubin_size mp)) mp) as (Hok & _).
  pose proof (mp_to_ubin_loop_zlen mp Hmp) as Hl. pose proof (mpint_bytes_value mp Hmp) as Hv.
  unfold mpint_bytes in Hv. rewrite (proj2 (Z.eqb_neq mp 0)) in Hv by done.
  pose proof (mp_to_ubin_fits mp ltac:(lia)) as Hfit. destruct (mp_count_bits_pos mp ltac:(lia)) as [Hbits _].
  set (bs := mp_to_ubin_loop _ _ _) in *.
  destruct bs as [|c bs]; [change (zlen []) with 0 in Hl; destruct (Z.eqb_spec (mp_count_bits mp mod 8) 0); lia|].
  apply Forall_cons in Hok as [Hc Hbs]. rewrite zlen_cons in Hl.
  assert (Hv' : be_value (c :: bs) = mp) by (case_match; [|done]; rewrite be_value_app in Hv; change (be_value [0]) with 0 in Hv; lia).
  pose proof (be_value_top c bs Hc Hbs ltac:(lia)) as Htop. rewrite Hv' in Htop.
  destruct (Z.eqb_spec (mp_count_bits mp mod 8) 0); cbn [app]; intros [= <- <-].
  - split; [lia|]. intros _. exists c, bs. split; [done|]. apply Htop. lia.
  - split; [destruct (Z.lt_ge_cases c 128) as [|Hge]; [done|apply Htop in Hge; lia]|].
    intros ->. exfalso. pose proof (be_value_head 0 bs Hc Hbs) as Hh. rewrite Hv' in Hh. lia.
Qed.

Lemma land_top c : is_byte c -> Z.land c (Z.shiftl 1 7) = 0 <-> c < 128.
Proof.
  intros Hc. change (Z.shiftl 1 7) with (2 ^ 7). split; intros H.
  - destruct (Z.lt_ge_cases c 128) as [|Hge]; [done|exfalso].
    assert (Ht : Z.testbit (Z.land c (2 ^ 7)) 7 = true); [|by rewrite H, Z.bits_0 in Ht].
    rewrite Z.land_spec, Z.pow2_bits_true by done. rewrite andb_true_r.
    rewrite Z.testbit_true by done. change (2 ^ 7) with 128. unfold is_byte in Hc. lia.
  - apply Z.bits_inj'. intros i Hi. rewrite Z.land_spec, Z.bits_0, Z.pow2_bits_eqb by done.
    destruct (Z.eqb_spec 7 i) as [<-|]; [|by rewrite andb_false_r].
    rewrite andb_true_r. apply Z.testbit_false; [done|]. change (2 ^ 7) with 128. unfold is_byte in Hc. lia.
Qed.

Lemma takes_mpint mp : 0 <= mp -> zlen (mpint_bytes mp) <= BUF_MAX_MPINT -> takes buf_getmpint (ssh_mpint mp) (Some mp).
Proof.
  intros Hmp Hs b rest Hb Hu. unfold ssh_mpint, ssh_string in *. rewrite <- app_assoc in Hu.
  pose proof (zlen_nonneg (mpint_bytes mp)). assert (BUF_MAX_MPINT = 1030) as HM by done.
  destruct (takes_int (zlen (mpint_bytes mp)) ltac:(unfold is_u32; lia) b _ Hb Hu) as (He & Hu2 & Hw2).
  unfold buf_getmpint. rewrite He. cbn [obind]. rewrite zlen_app, <- advance_advance.
  set (b1 := advance b (zlen (store32h (zlen (mpint_bytes mp))))) in *.
  destruct (unread_read _ _ _ Hw2 Hu2) as (Hr & Ha & Hw).
  destruct (Z.eqb_spec (zlen (mpint_bytes mp)) 0) as [Hz|Hz].
  { assert (mp = 0) as ->.
    { rewrite mpint_bytes_zlen in Hz by done. destruct (Z.eqb_spec mp 0); [done|].
      pose proof (mp_count_bits_pos mp). lia. }
    split; [|done]. rewrite Hz, advance_0. done. }
  rewrite (proj2 (Z.ltb_ge _ _)) by lia.
  destruct (mpint_bytes mp) as [|c bs] eqn:Hm; [done|]. pose proof (mpint_bytes_ok mp) as Hok. rewrite Hm in Hok.
  apply Forall_cons in Hok as Hc. destruct Hc as [Hc _].
  destruct (mpint_bytes_canonical mp c bs Hmp Hm) as [Hlt _].
  pose proof (unread_app_len _ _ _ Hw2 Hu2) as Hl2. rewrite buf_getptr_eq, (proj2 (Z.ltb_ge _ _)) by (done || lia). cbn [obind].
  destruct (takes_byte c b1 (bs ++ rest) Hw2 Hu2) as (Hg & _).
  rewrite buf_getbyte_eq, (proj2 (Z.leb_gt _ _)) in Hg by (done || lia). unfold mem_get.
  rewrite (proj2 (Z.leb_le 0 _)) by (destruct Hw2; lia).
  case_match; [|done]. injection Hg as ->. cbn [obind].
  rewrite (proj2 (Z.eqb_eq _ 0)) by (by apply land_top). cbn [negb]. rewrite Hr. cbn [obind].
  rewrite buf_incrpos_advance by (done || lia). cbn [obind].
  rewrite mp_from_ubin_value by done.
  assert (be_value (c :: bs) = mp) as -> by (rewrite <- Hm; by apply mpint_bytes_value). done.
Qed.

Lemma buf_new_Ok n b : buf_new n = Ok b -> 0 <= n -> wf b /\ buf_size b = n /\ buf_len b = 0 /\ buf_pos b = 0.
Proof. intros H Hn. apply (opost_Ok _ _ _ (buf_new_post n Hn) H). Qed.

(** ** Views: a buffer by its written bytes, its position and its size *)

Record view (b : buffer) (bs : bytes) (p sz : Z) : Prop := {
  view_wf : wf b;
  view_used : used b = bs;
  view_pos : buf_pos b = p;
  view_size : buf_size b = sz;
}.

Lemma view_self b : wf b -> view b (used b) (buf_pos b) (buf_size b).
Proof. by split. Qed.

Lemma view_len b bs p sz : view b bs p sz -> buf_len b = zlen bs.
Proof. intros [Hb <- _ _]. by rewrite used_zlen. Qed.

Lemma view_bounds b bs p sz : view b bs p sz -> 0 <= p <= zlen bs /\ zlen bs <= sz <= BUF_MAX_SIZE.
Proof. intros Hv. pose proof (view_len _ _ _ _ Hv). destruct Hv as [[] _ <- <-]. lia. Qed.

Lemma view_bytes b bs p sz : view b bs p sz -> bytes_ok bs.
Proof. intros [[] <- _ _]. by apply bytes_ok_sub. Qed.

Lemma view_unread b bs p sz : view b bs p sz -> unread b = drop (Z.to_nat p) bs.
Proof.
  intros Hv. pose proof (view_bounds _ _ _ _ Hv). pose proof (view_len _ _ _ _ Hv) as Hl.
  destruct Hv as [Hb Hu Hp _]. unfold unread. rewrite <- Hu. unfold used. rewrite Hp, drop_sub by lia.
  f_equal; lia.
Qed.

Lemma view_new n : 0 <= n <= BUF_MAX_SIZE -> exists b, buf_new n = Ok b /\ view b [] 0 n /\ buf_data b = replicate (Z.to_nat n) 0.
Proof.
  intros Hn. assert (exists b, buf_new n = Ok b) as [b Hb] by (unfold buf_new; rewrite (proj2 (Z.ltb_ge _ _)) by lia; eauto).
  destruct (buf_new_Ok _ _ Hb ltac:(lia)) as (Hw & Hs & Hl & Hp). exists b. split; [done|]. split.
  - split; try done. unfold used. by rewrite Hl, sub_0.
  - unfold buf_new in Hb. rewrite (proj2 (Z.ltb_ge _ _)) in Hb by lia. by injection Hb as <-.
Qed.

Lemma view_setpos b bs p sz q : view b bs p sz -> 0 <= q <= zlen bs -> exists b', buf_setpos b q = Ok b' /\ view b' bs q sz.
Proof.
  intros Hv Hq. pose proof (view_len _ _ _ _ Hv) as Hl. destruct Hv as [Hb Hu Hp Hs]. unfold buf_setpos.
  rewrite (proj2 (Z.ltb_ge _ _)) by lia. eexists. split; [done|]. split; try done.
  bwf. split; cbn; unfold BUF_MAX_SIZE; try done; lia.
Qed.

(** Shrinking keeps a prefix; growing exposes bytes of the memory behind the used ones. *)
Lemma view_setlen b bs p sz n : view b bs p sz -> 0 <= n <= sz ->
  exists b' ext, buf_setlen b n = Ok b' /\ view b' (take (Z.to_nat n) bs ++ ext) (Z.min p n) sz /\ zlen ext = Z.max 0 (n - zlen bs).
Proof.
  intros Hv Hn. pose proof (view_bounds _ _ _ _ Hv). pose proof (view_len _ _ _ _ Hv) as Hl.
  destruct Hv as [Hb Hu Hp Hs]. unfold buf_setlen.
  rewrite (proj2 (Z.ltb_ge _ _)) by lia. destruct (Z.le_gt_cases n (zlen bs)).
  - eexists _, []. split; [done|]. split; [|change (zlen []) with 0; lia]. rewrite app_nil_r. split; cbn; try (done || congruence).
    + bwf. split; cbn; unfold BUF_MAX_SIZE; try done; lia.
    + rewrite <- Hu, take_sub. unfold used. cbn. rewrite sub_sub by lia. done.
  - eexists _, (sub (buf_data b) (zlen bs) (n - zlen bs)). split; [done|].
    split; [|bwf; rewrite zlen_sub; lia]. split; cbn; try (done || congruence).
    + bwf. split; cbn; unfold BUF_MAX_SIZE; try done; lia.
    + rewrite take_ge by (unfold zlen in *; lia). rewrite <- Hu. unfold used. cbn. rewrite Hl.
      rewrite (sub_prefix_app _ (zlen bs) n) by lia. f_equal. f_equal; rewrite zlen_sub; bwf; lia.
Qed.

(** A new buffer with its length set holds zeros: [m_malloc] clears the memory. *)
Lemma view_new_zeros n m : 0 <= m <= n -> n <= BUF_MAX_SIZE ->
  exists b0 b1, buf_new n = Ok b0 /\ buf_setlen b0 m = Ok b1 /\ view b1 (replicate (Z.to_nat m) 0) 0 n.
Proof.
  intros Hm Hn. destruct (view_new n) as (b0 & Hnew & H0 & Hdat); [lia|].
  destruct (view_setlen _ _ _ _ m H0 ltac:(lia)) as (b1 & ext & Hs & H1 & He). exists b0, b1. split_and!; [done|done|].
  rewrite take_nil, app_nil_l, Z.min_l in H1 by lia. replace ext with (replicate (Z.to_nat m) 0) in H1; [done|].
  destruct H1 as [_ <- _ _], H0 as [_ _ _ Hs0]. unfold buf_setlen in Hs. rewrite Hs0, (proj2 (Z.ltb_ge _ _)) in Hs by lia.
  cbn in Hs. injection Hs as <-. unfold used. cbn. rewrite Hdat. unfold sub. rewrite drop_0, take_replicate.
  by replace (Z.to_nat m `min` Z.to_nat n)%nat with (Z.to_nat m) by lia.
Qed.

Lemma view_put b bs p sz x : view b bs p sz -> bytes_ok x -> p + zlen x <= sz -> view (put b x) (blit bs p x) (p + zlen x) sz.
Proof.
  intros Hv Hx Hsz. pose proof (view_bounds _ _ _ _ Hv). pose proof (view_len _ _ _ _ Hv) as Hl.
  destruct Hv as [Hb Hu Hp Hs]. pose proof (zlen_nonneg x). split.
  - apply wf_put; [done|done|lia].
  - unfold used, put. cbn. rewrite <- Hu. unfold used. rewrite Hp. bwf. apply sub_blit_inside; lia.
  - cbn. lia.
  - done.
Qed.

Lemma view_putbytes b bs p sz x : view b bs p sz -> bytes_ok x -> p + zlen x <= sz ->
  exists b', buf_putbytes b x (zlen x) = Ok b' /\ view b' (blit bs p x) (p + zlen x) sz.
Proof.
  intros Hv Hx Hsz. exists (put b x). split; [|by apply view_put]. destruct Hv as [Hb Hu <- <-].
  rewrite buf_putbytes_eq by done. by rewrite (proj2 (Z.ltb_ge _ _)) by lia.
Qed.

Lemma view_putint b bs p sz v : view b bs p sz -> p + 4 <= sz ->
  exists b', buf_putint b v = Ok b' /\ view b' (blit bs p (store32h v)) (p + 4) sz.
Proof.
  intros Hv Hsz. destruct (view_putbytes b bs p sz (store32h v) Hv (store32h_ok v) Hsz) as (b' & Hb' & ?).
  by exists b'.
Qed.

Lemma view_putbyte b bs p sz v : view b bs p sz -> is_byte v -> p + 1 <= sz ->
  exists b', buf_putbyte b v = Ok b' /\ view b' (blit bs p [v]) (p + 1) sz.
Proof.
  intros Hv Hx Hsz. exists (put b [v]). split.
  - destruct Hv as [Hb Hu <- <-]. rewrite buf_putbyte_eq by done. by rewrite (proj2 (Z.ltb_ge _ _)) by lia.
  - apply (view_put b bs p sz [v] Hv); [by apply Forall_singleton|done].
Qed.

Lemma view_incrlen b bs p sz n : view b bs p sz -> 0 <= n -> zlen bs + n <= sz ->
  exists b' ext, buf_incrlen b n = Ok b' /\ view b' (bs ++ ext) p sz /\ zlen ext = n.
Proof.
  intros Hv Hn Hsz. pose proof (view_bounds _ _ _ _ Hv). pose proof (view_len _ _ _ _ Hv) as Hl.
  destruct (view_setlen b bs p sz (zlen bs + n) Hv ltac:(lia)) as (b' & ext & Hset & Hv' & He).
  exists b', ext. split.
  - destruct Hv as [Hb Hu Hp Hs]. rewrite buf_incrlen_eq, Hl by done. rewrite (proj2 (Z.ltb_ge _ _)) by lia.
    unfold buf_setlen in Hset. rewrite (proj2 (Z.ltb_ge _ _)) in Hset by lia. cbn in Hset. rewrite <- Hset.
    do 2 f_equal. lia.
  - rewrite take_ge in Hv' by (unfold zlen in *; lia). rewrite Z.min_l in Hv' by lia. split; [done|lia].
Qed.

Lemma view_incrpos b bs p sz n : view b bs p sz -> 0 <= n -> p + n <= zlen bs ->
  exists b', buf_incrpos b n = Ok b' /\ view b' bs (p + n) sz.
Proof.
  intros Hv Hn Hsz. pose proof (view_len _ _ _ _ Hv) as Hl. destruct Hv as [Hb Hu Hp Hs].
  rewrite buf_incrpos_advance by (done || lia). eexists. split; [done|].
  split; [apply wf_advance; (done || lia)|done|cbn; lia|done].
Qed.

Lemma view_incrwritepos b bs p sz n : view b bs p sz -> 0 <= n -> p + n <= zlen bs ->
  exists b', buf_incrwritepos b n = Ok b' /\ view b' bs (p + n) sz.
Proof.
  intros Hv Hn Hsz. pose proof (view_len _ _ _ _ Hv) as Hl. pose proof (view_bounds _ _ _ _ Hv). destruct Hv as [Hb Hu Hp Hs].
  rewrite buf_incrwritepos_eq by (done || lia). rewrite (proj2 (Z.ltb_ge _ _)) by lia. eexists. split; [done|].
  replace (Z.max (buf_len b) (buf_pos b + n)) with (buf_len b) by lia. split; cbn; [|done|lia|done].
  bwf. split; cbn; unfold BUF_MAX_SIZE; try done; lia.
Qed.

Lemma view_getptr b bs p sz n : view b bs p sz -> 0 <= n -> p + n <= zlen bs -> buf_getptr b n = Ok p.
Proof.
  intros Hv Hn Hsz. pose proof (view_len _ _ _ _ Hv). destruct Hv as [Hb Hu <- Hs].
  rewrite buf_getptr_eq by done. by rewrite (proj2 (Z.ltb_ge _ _)) by lia.
Qed.

Lemma view_getwriteptr b bs p sz n : view b bs p sz -> 0 <= n -> p + n <= sz -> buf_getwriteptr b n = Ok p.
Proof.
  intros [Hb Hu <- <-] Hn Hsz. rewrite buf_getwriteptr_eq by done. by rewrite (proj2 (Z.ltb_ge _ _)) by lia.
Qed.

Lemma view_read b bs p sz n : view b bs p sz -> 0 <= n -> p + n <= zlen bs -> buf_read b n = Ok (sub bs p n).
Proof.
  intros Hv Hn Hsz. pose proof (view_bounds _ _ _ _ Hv). pose proof (view_len _ _ _ _ Hv) as Hl.
  destruct Hv as [Hb Hu <- Hs]. rewrite buf_read_eq, (proj2 (Z.ltb_ge _ _)) by (done || lia).
  rewrite <- Hu. unfold used. by rewrite sub_sub by lia.
Qed.

Lemma view_getbyte b bs p sz v : view b bs p sz -> bs !! Z.to_nat p = Some v ->
  exists b', buf_getbyte b = Ok (v, b') /\ view b' bs (p + 1) sz.
Proof.
  intros Hv Hlk. pose proof (view_bounds _ _ _ _ Hv). pose proof (view_len _ _ _ _ Hv) as Hl.
  apply lookup_lt_Some in Hlk as Hlt. exists (advance b 1).
  destruct Hv as [Hb Hu Hp Hs]. split.
  - rewrite buf_getbyte_eq, (proj2 (Z.leb_gt _ _)) by (done || unfold zlen in *; lia).
    rewrite <- Hu, <- Hp in Hlk. unfold used, sub in Hlk. rewrite drop_0, lookup_take_lt in Hlk by (unfold zlen in *; lia).
    by rewrite Hlk.
  - unfold zlen in *. split; [apply wf_advance; (done || lia)|done|cbn; lia|done].
Qed.

Lemma view_getint b bs p sz : view b bs p sz -> p + 4 <= zlen bs ->
  exists b', buf_getint b = Ok (load32h_bytes (sub bs p 4), b') /\ view b' bs (p + 4) sz.
Proof.
  intros Hv Hl. unfold buf_getint. rewrite (view_read _ _ _ _ 4 Hv) by lia. cbn [obind].
  destruct (view_incrpos _ _ _ _ 4 Hv) as (b' & -> & Hv'); [lia|done|]. by exists b'.
Qed.

(** A library call writing [x] through a pointer into the used part. *)
Lemma view_memwrite b bs p sz q x : view b bs p sz -> bytes_ok x -> 0 <= q -> q + zlen x <= zlen bs ->
  exists d, mem_write (buf_data b) q x = Ok d /\ view (mkbuf d (buf_len b) (buf_pos b) (buf_size b)) (blit bs q x) p sz.
Proof.
  intros Hv Hx Hq Hsz. pose proof (view_bounds _ _ _ _ Hv). pose proof (view_len _ _ _ _ Hv) as Hl.
  pose proof (zlen_nonneg x). destruct Hv as [Hb Hu Hp Hs].
  assert (Hw := Hb). bwf. rewrite mem_write_in by lia. eexists. split; [done|]. split; [|unfold used; cbn|done|done].
  - split; cbn; unfold BUF_MAX_SIZE; try done; try lia; [by apply bytes_ok_blit|rewrite zlen_blit; lia].
  - rewrite <- Hu. unfold used. rewrite <- sub_blit_inside by lia. f_equal. lia.
Qed.

Lemma buf_putbytes_bind {B} b bs n (k : buffer -> outcome B) :
  obind (buf_write b n bs) (fun b => obind (buf_incrwritepos b n) k) = obind (buf_putbytes b bs n) k.
Proof. unfold buf_putbytes. by rewrite obind_assoc. Qed.

(** ** Writing at the end *)

(** [f] appends [x] to what has been written. *)
Definition appends (f : buffer -> outcome buffer) (b : buffer) (bs x : bytes) (sz : Z) : Prop :=
  exists b', f b = Ok b' /\ view b' (bs ++ x) (zlen (bs ++ x)) sz.

Lemma append_byte b bs sz v : view b bs (zlen bs) sz -> is_byte v -> zlen bs + 1 <= sz -> appends (fun b => buf_putbyte b v) b bs [v] sz.
Proof.
  intros Hv Hb Hl. destruct (view_putbyte _ _ _ _ v Hv Hb Hl) as (b' & ? & Hv'). exists b'. split; [done|].
  rewrite blit_end in Hv'. by rewrite zlen_app.
Qed.

Lemma append_int b bs sz v : view b bs (zlen bs) sz -> zlen bs + 4 <= sz -> appends (fun b => buf_putint b v) b bs (store32h v) sz.
Proof.
  intros Hv Hl. destruct (view_putint _ _ _ _ v Hv Hl) as (b' & ? & Hv'). exists b'. split; [done|].
  rewrite blit_end in Hv'. rewrite zlen_app. by change (zlen (store32h v)) with 4.
Qed.

Lemma append_bytes b bs sz x : view b bs (zlen bs) sz -> bytes_ok x -> zlen bs + zlen x <= sz -> appends (fun b => buf_putbytes b x (zlen x)) b bs x sz.
Proof.
  intros Hv Hx Hl. destruct (view_putbytes _ _ _ _ x Hv Hx Hl) as (b' & ? & Hv'). exists b'. split; [done|].
  rewrite blit_end in Hv'. by rewrite zlen_app.
Qed.

Lemma append_string b bs sz x : view b bs (zlen bs) sz -> bytes_ok x -> zlen bs + 4 + zlen x <= sz ->
  appends (fun b => buf_putstring b x (zlen x)) b bs (ssh_string x) sz.
Proof.
  intros Hv Hx Hl. pose proof (zlen_nonneg x). destruct (append_int b bs sz (zlen x) Hv) as (b1 & H1 & Hv1); [lia|].
  destruct (append_bytes b1 _ sz x Hv1 Hx) as (b2 & Hb2 & Hv2); [rewrite zlen_app; change (zlen (store32h (zlen x))) with 4; lia|].
  exists b2. unfold buf_putstring. rewrite H1. split; [exact Hb2|]. unfold ssh_string. by rewrite app_assoc.
Qed.

(** A library call writing [x] past the used part, which [buf_setlen] then exposes. *)
Lemma view_memwrite_setlen b bs sz x : view b bs (zlen bs) sz -> bytes_ok x -> zlen bs + zlen x <= sz ->
  exists d b', mem_write (buf_data b) (zlen bs) x = Ok d /\
    buf_setlen (mkbuf d (buf_len b) (buf_pos b) (buf_size b)) (zlen bs + zlen x) = Ok b' /\ view b' (bs ++ x) (zlen bs) sz.
Proof.
  intros Hv Hx Hsz. pose proof (view_bounds _ _ _ _ Hv). pose proof (view_len _ _ _ _ Hv) as Hl. pose proof (zlen_nonneg x).
  pose proof (view_put _ _ _ _ x Hv Hx Hsz) as Hp. rewrite blit_end in Hp. destruct Hv as [Hb Hu Hpos Hs].
  assert (Hw := Hb). bwf. rewrite mem_write_in by lia. do 2 eexists. split; [done|].
  unfold buf_setlen. cbn. rewrite (proj2 (Z.ltb_ge _ _)) by lia. split; [done|].
  destruct Hp as [[] Hu' _ _]. unfold put, used in Hu'. cbn in *. rewrite Hpos, Z.max_r in Hu' by lia.
  split; cbn; [split; cbn; unfold BUF_MAX_SIZE|unfold used; cbn|lia|done]; try lia.
  - by rewrite Hpos in *.
  - rewrite zlen_blit; lia.
  - done.
Qed.

Lemma view_resize junk b bs p sz n : (forall i, is_byte (junk i)) -> view b bs p sz -> zlen bs <= n <= BUF_MAX_SIZE ->
  exists b', buf_resize junk b n = Ok b' /\ view b' bs p n.
Proof.
  intros Hj Hv Hn. pose proof (view_bounds _ _ _ _ Hv). pose proof (view_len _ _ _ _ Hv) as Hl.
  destruct Hv as [Hb Hu Hp Hs]. destruct (buf_resize junk b n) as [b'| |] eqn:Hr.
  2,3: unfold buf_resize in Hr; by rewrite (proj2 (Z.ltb_ge _ _)) in Hr by lia.
  exists b'. split; [done|]. assert (Hw := opost_Ok _ _ _ (buf_resize_post junk b n Hj Hb ltac:(lia)) Hr).
  unfold buf_resize in Hr. rewrite (proj2 (Z.ltb_ge _ _)) in Hr by lia. cbn in Hr. injection Hr as <-.
  split; [done| |cbn; lia|done]. unfold used. cbn. rewrite <- Hu. unfold used. rewrite Z.min_r by lia.
  unfold sub. rewrite !drop_0. unfold zlen in *. destruct Hb as [_ Hd _ Hle _]. unfold zlen in Hd.
  rewrite take_app_le by (rewrite length_take; lia). rewrite take_take. f_equal. lia.
Qed.

(** ** Messages: sequences of fields *)

Inductive ftype := TByte | TBool | TInt | TString | TMpint.

Inductive fval := VByte (v : Z) | VBool (v : Z) | VInt (v : Z) | VString (s : bytes) | VMpint (mp : Z).

Definition ftype_of (f : fval) : ftype :=
  match f with VByte _ => TByte | VBool _ => TBool | VInt _ => TInt | VString _ => TString | VMpint _ => TMpint end.

Definition fval_ok (f : fval) : Prop :=
  match f with
  | VByte v => is_byte v
  | VBool v => v = 0 \/ v = 1
  | VInt v => is_u32 v
  | VString s => bytes_ok s /\ zlen s <= MAX_STRING_LEN
  | VMpint mp => 0 <= mp /\ zlen (mpint_bytes mp) <= BUF_MAX_MPINT
  end.

Definition enc_field (f : fval) : bytes :=
  match f with
  | VByte v | VBool v => [v]
  | VInt v => store32h v
  | VString s => ssh_string s
  | VMpint mp => ssh_mpint mp
  end.

Definition enc_fields (fs : list fval) : bytes := concat (map enc_field fs).

Definition put_field (b : buffer) (f : fval) : outcome buffer :=
  match f with
  | VByte v | VBool v => buf_putbyte b v
  | VInt v => buf_putint b v
  | VString s => buf_putstring b s (zlen s)
  | VMpint mp => buf_putmpint b mp
  end.

Fixpoint put_fields (b : buffer) (fs : list fval) : outcome buffer :=
  match fs with [] => Ok b | f :: fs => let* b := put_field b f in put_fields b fs end.

Definition get_field (t : ftype) (b : buffer) : outcome (fval * buffer) :=
  match t with
  | TByte => let* (v, b) := buf_getbyte b in Ok (VByte v, b)
  | TBool => let* (v, b) := buf_getbool b in Ok (VBool v, b)
  | TInt => let* (v, b) := buf_getint b in Ok (VInt v, b)
  | TString => let* (s, n, b) := buf_getstring b in Ok (VString (sub s 0 n), b)
  | TMpint => let* (r, b) := buf_getmpint b in
              match r with Some mp => Ok (VMpint mp, b) | None => Exit "bad mpint" end
  end.

Fixpoint get_fields (ts : list ftype) (b : buffer) : outcome (list fval * buffer) :=
  match ts with
  | [] => Ok ([], b)
  | t :: ts => let* (f, b) := get_field t b in let* (fs, b) := get_fields ts b in Ok (f :: fs, b)
  end.

Lemma enc_field_ok f : fval_ok f -> bytes_ok (enc_field f).
Proof.
  destruct f; cbn; intros H; try (by apply Forall_singleton).
  - apply Forall_singleton. unfold is_byte. lia.
  - apply store32h_ok.
  - apply Forall_app; split; [apply store32h_ok|naive_solver].
  - apply Forall_app; split; [apply store32h_ok|apply mpint_bytes_ok].
Qed.

Lemma put_field_eq b f : wf b -> fval_ok f -> buf_pos b + zlen (enc_field f) <= buf_size b ->
  put_field b f = Ok (put b (enc_field f)).
Proof.
  intros Hb Hf. destruct f as [v|v|v|s|mp]; cbn in *; unfold ssh_mpint, ssh_string; intros Hsz.
  - by rewrite buf_putbyte_eq, (proj2 (Z.ltb_ge _ _)) by (change (zlen [v]) with 1 in Hsz; done || lia).
  - by rewrite buf_putbyte_eq, (proj2 (Z.ltb_ge _ _))
      by (change (zlen [v]) with 1 in Hsz; done || lia || (unfold is_byte; lia)).
  - by rewrite buf_putint_eq, (proj2 (Z.ltb_ge _ _)) by (change (zlen (store32h v)) with 4 in Hsz; done || lia).
  - unfold ssh_string in Hsz. rewrite zlen_app in Hsz. change (zlen (store32h _)) with 4 in Hsz. pose proof (zlen_nonneg s).
    unfold buf_putstring. rewrite buf_putint_eq, (proj2 (Z.ltb_ge _ _)) by (done || lia). cbn [obind].
    rewrite buf_putbytes_eq by (apply wf_put || naive_solver; try apply store32h_ok; done || (change (zlen (store32h _)) with 4; lia)).
    cbn [put buf_pos buf_size]. change (zlen (store32h _)) with 4. rewrite (proj2 (Z.ltb_ge _ _)) by lia.
    by rewrite put_put by (done || (change (zlen (store32h _)) with 4; lia)).
  - unfold ssh_mpint, ssh_string in Hsz. rewrite zlen_app in Hsz. change (zlen (store32h _)) with 4 in Hsz.
    apply buf_putmpint_eq; naive_solver lia.
Qed.

Lemma put_fields_eq fs b : wf b -> Forall fval_ok fs -> buf_pos b + zlen (enc_fields fs) <= buf_size b ->
  put_fields b fs = Ok (put b (enc_fields fs)).
Proof.
  intros Hb Hfs. revert b Hb. induction Hfs as [|f fs Hf Hfs IH]; intros b Hb Hsz; cbn.
  { by rewrite put_nil. }
  unfold enc_fields in *. cbn [map concat] in *. rewrite zlen_app in Hsz. pose proof (zlen_nonneg (concat (map enc_field fs))).
  rewrite put_field_eq by (done || lia). cbn [obind].
  rewrite IH; [|apply wf_put; [done|by apply enc_field_ok|lia]|cbn; lia]. by rewrite put_put by (done || lia).
Qed.

Lemma get_field_takes f : fval_ok f -> takes (get_field (ftype_of f)) (enc_field f) f.
Proof.
  intros Hf b rest Hb Hu. destruct f as [v|v|v|s|mp]; cbn in *.
  - destruct (takes_byte v b rest Hb Hu) as [-> ?]. done.
  - destruct (takes_bool v Hf b rest Hb Hu) as [-> ?]. done.
  - destruct (takes_int v Hf b rest Hb Hu) as [-> ?]. done.
  - destruct (takes_string s (proj2 Hf) b rest Hb Hu) as [-> ?]. cbn. split; [|done].
    rewrite sub_app_l by (pose proof (zlen_nonneg s); lia). by rewrite sub_all.
  - destruct (takes_mpint mp (proj1 Hf) (proj2 Hf) b rest Hb Hu) as [-> ?]. done.
Qed.

Lemma get_fields_takes fs : Forall fval_ok fs -> takes (get_fields (map ftype_of fs)) (enc_fields fs) fs.
Proof.
  induction 1 as [|f fs Hf Hfs IH]; intros b rest Hb Hu; cbn in *.
  { change (zlen []) with 0. by rewrite advance_0. }
  unfold enc_fields in *. cbn [map concat] in *. rewrite <- app_assoc in Hu.
  destruct (get_field_takes f Hf b _ Hb Hu) as (-> & Hu1 & Hb1). cbn [obind].
  destruct (IH _ _ Hb1 Hu1) as (-> & Hu2 & Hb2). cbn [obind]. by rewrite zlen_app, <- advance_advance.
Qed.

Lemma used_put b bs : wf b -> buf_pos b = buf_len b -> buf_pos b + zlen bs <= buf_size b -> used (put b bs) = used b ++ bs.
Proof.
  intros Hb Hp Hsz. pose proof (zlen_nonneg bs). bwf. unfold used, put. cbn. rewrite Hp, Z.max_r by lia.
  rewrite sub_split by lia. f_equal; [apply sub_blit_before; lia|]. rewrite Z.add_0_l. apply sub_blit_same; lia.
Qed.

Lemma buf_setpos_0 b : wf b -> buf_setpos b 0 = Ok (mkbuf (buf_data b) (buf_len b) 0 (buf_size b)) /\
  wf (mkbuf (buf_data b) (buf_len b) 0 (buf_size b)) /\
  unread (mkbuf (buf_data b) (buf_len b) 0 (buf_size b)) = used b.
Proof.
  intros Hb. unfold buf_setpos, unread, used. bwf. rewrite (proj2 (Z.ltb_ge _ _)) by lia. cbn. rewrite Z.sub_0_r.
  split_and!; try done. split; cbn; unfold BUF_MAX_SIZE; try done; lia.
Qed.

(** ** Properties *)

(** C14: Memory safety of the buffer API. From a new buffer of any size up to 2^32-1, every
    sequence of calls with machine-width arguments ends in a well-formed buffer
    (0 <= pos <= len <= size, the array has [size] bytes) or in [dropbear_exit]; no call
    ever reads or writes outside the array. *)
Theorem buf_ops_safe (size : Z) (ops : list bufop) :
  is_u32 size -> Forall bufop_args ops ->
  opost wf (let* b := buf_new size in run_bufops ops b).
Proof.
  intros Hsize Hops. eapply opost_bind; [apply buf_new_post; unfold is_u32 in Hsize; lia|].
  intros b _ [Hb _]. by apply run_bufops_post.
Qed.

Lemma buf_ops_safe_witness :
  opost wf (let* b := buf_new 8 in run_bufops [OpPutint 7; OpSetpos 0; OpGetint; OpGetstring] b).
Proof. apply buf_ops_safe; [unfold is_u32; lia|]. repeat constructor; unfold is_u32; lia. Defined.

(** Encoding round trip. A message of any fields (bytes, booleans, 32-bit integers,
    strings, multiple-precision integers) put into a new buffer with room for it holds
    exactly the SSH encoding, and reading the fields back from position 0 gives the same
    values and leaves nothing unread. *)
Theorem buf_message_roundtrip (size : Z) (fs : list fval) :
  Forall fval_ok fs -> zlen (enc_fields fs) <= size <= BUF_MAX_SIZE ->
  exists b0 b1 b2 b3,
    buf_new size = Ok b0 /\ put_fields b0 fs = Ok b1 /\ used b1 = enc_fields fs /\
    buf_setpos b1 0 = Ok b2 /\ get_fields (map ftype_of fs) b2 = Ok (fs, b3) /\ unread b3 = [].
Proof.
  intros Hfs Hsz. pose proof (zlen_nonneg (enc_fields fs)).
  destruct (buf_new size) as [b0| |] eqn:Hn; unfold buf_new in Hn;
    rewrite (proj2 (Z.ltb_ge _ _)) in Hn by lia; try discriminate Hn.
  assert (Hn' : buf_new size = Ok b0) by (unfold buf_new; rewrite (proj2 (Z.ltb_ge _ _)) by lia; done).
  destruct (buf_new_Ok _ _ Hn' ltac:(lia)) as (Hb0 & Hs0 & Hl0 & Hp0).
  pose proof (put_fields_eq fs b0 Hb0 Hfs ltac:(lia)) as Hput.
  assert (Hok : bytes_ok (enc_fields fs)).
  { apply Forall_concat, Forall_map. eapply Forall_impl; [exact Hfs|]. apply enc_field_ok. }
  pose proof (wf_put b0 (enc_fields fs) Hb0 Hok ltac:(lia)) as Hb1.
  assert (Hused : used (put b0 (enc_fields fs)) = enc_fields fs).
  { rewrite used_put by (done || lia). unfold used. by rewrite Hl0, sub_0. }
  destruct (buf_setpos_0 _ Hb1) as (Hset & Hb2 & Hun). rewrite Hused in Hun.
  destruct (get_fields_takes fs Hfs _ [] Hb2 ltac:(by rewrite app_nil_r))  as (Hget & Hrest & _).
  eexists b0, _, _, _. split_and!; [done|exact Hput|exact Hused|exact Hset|exact Hget|exact Hrest].
Qed.

Lemma buf_message_roundtrip_witness :
  exists b0 b1 b2 b3,
    buf_new 64 = Ok b0 /\ put_fields b0 [VByte 20; VString [115; 115; 104]; VMpint 255; VInt 7; VBool 1] = Ok b1 /\
    used b1 = enc_fields [VByte 20; VString [115; 115; 104]; VMpint 255; VInt 7; VBool 1] /\
    buf_setpos b1 0 = Ok b2 /\
    get_fields (map ftype_of [VByte 20; VString [115; 115; 104]; VMpint 255; VInt 7; VBool 1]) b2 =
      Ok ([VByte 20; VString [115; 115; 104]; VMpint 255; VInt 7; VBool 1], b3) /\ unread b3 = [].
Proof.
  apply buf_message_roundtrip.
  - wit.
  - wit.
Defined.

(** Multiple-precision integers on the wire. [buf_putmpint] refuses negative numbers;
    for the others it writes the canonical SSH encoding: the length word, then the
    big-endian value whose first byte has its top bit clear, with a leading zero byte
    only in front of a byte whose top bit is set.  [buf_getmpint] fails on a value whose
    top bit is set (a negative number). *)
Theorem buf_mpint_canonical (b : buffer) (mp : Z) :
  wf b -> buf_pos b + 4 + zlen (mpint_bytes (Z.abs mp)) <= buf_size b ->
  (mp < 0 -> buf_putmpint b mp = Exit "negative bignum") /\
  (0 <= mp -> buf_putmpint b mp = Ok (put b (store32h (zlen (mpint_bytes mp)) ++ mpint_bytes mp)) /\
     be_value (mpint_bytes mp) = mp /\
     (mp = 0 -> mpint_bytes mp = []) /\
     (forall c rest, mpint_bytes mp = c :: rest ->
        0 <= c < 128 /\ (c = 0 -> exists d rest', rest = d :: rest' /\ 128 <= d))) /\
  (forall c s rest, unread b = ssh_string (c :: s) ++ rest -> 128 <= c -> zlen (c :: s) <= BUF_MAX_MPINT ->
     exists b', buf_getmpint b = Ok (None, b')).
Proof.
  intros Hb Hsz. split_and!.
  - intros Hn. unfold buf_putmpint. by rewrite (proj2 (Z.ltb_lt _ _)) by lia.
  - intros Hn. rewrite Z.abs_eq in Hsz by lia. split_and!; [by apply buf_putmpint_eq|by apply mpint_bytes_value|by intros ->|].
    intros c rest Hc. pose proof (mpint_bytes_ok mp) as Hok. rewrite Hc in Hok. apply Forall_cons in Hok as [Hc0 _].
    destruct (mpint_bytes_canonical mp c rest Hn Hc). unfold is_byte in Hc0. split; [lia|done].
  - intros c s rest Hu Hc Hl. assert (Hcb : is_byte c).
    { pose proof (unread_ok b Hb) as Hok. rewrite Hu in Hok. unfold ssh_string, bytes_ok in Hok.
      rewrite !Forall_app, Forall_cons in Hok. naive_solver. }
    unfold ssh_string in Hu. rewrite <- app_assoc in Hu. assert (BUF_MAX_MPINT = 1030) as HM by done.
    rewrite zlen_cons in Hl. pose proof (zlen_nonneg s).
    destruct (takes_int (zlen (c :: s)) ltac:(unfold is_u32; rewrite zlen_cons; lia) b _ Hb Hu) as (He & Hu1 & Hb1).
    unfold buf_getmpint. rewrite He. cbn [obind]. rewrite zlen_cons.
    rewrite (proj2 (Z.eqb_neq _ 0)), (proj2 (Z.ltb_ge _ _)) by lia. set (b1 := advance b _) in *.
    pose proof (unread_app_len b1 [c] (s ++ rest) Hb1 Hu1) as Hl1. change (zlen [c]) with 1 in Hl1.
    rewrite buf_getptr_eq, (proj2 (Z.ltb_ge _ _)) by (done || lia). cbn [obind].
    destruct (takes_byte c b1 (s ++ rest) Hb1 Hu1) as (Hg & _).
    rewrite buf_getbyte_eq, (proj2 (Z.leb_gt _ _)) in Hg by (done || lia). unfold mem_get.
    rewrite (proj2 (Z.leb_le 0 _)) by (destruct Hb1; lia). case_match; [|done]. injection Hg as ->. cbn [obind].
    rewrite (proj2 (Z.eqb_neq _ 0)); [by eexists|]. rewrite land_top by done. lia.
Qed.

Lemma buf_mpint_canonical_witness :
  let b := mkbuf [0; 0; 0; 1; 200; 0; 0; 0] 8 0 8 in
  (255 < 0 -> buf_putmpint b 255 = Exit "negative bignum") /\
  (0 <= 255 -> buf_putmpint b 255 = Ok (put b (store32h (zlen (mpint_bytes 255)) ++ mpint_bytes 255)) /\
     be_value (mpint_bytes 255) = 255 /\
     (255 = 0 -> mpint_bytes 255 = []) /\
     (forall c rest, mpint_bytes 255 = c :: rest ->
        0 <= c < 128 /\ (c = 0 -> exists d rest', rest = d :: rest' /\ 128 <= d))) /\
  (forall c s rest, unread b = ssh_string (c :: s) ++ rest -> 128 <= c -> zlen (c :: s) <= BUF_MAX_MPINT ->
     exists b', buf_getmpint b = Ok (None, b')).
Proof.
  apply (buf_mpint_canonical (mkbuf [0; 0; 0; 1; 200; 0; 0; 0] 8 0 8) 255).
  - split; cbn; try done; try (unfold BUF_MAX_SIZE; lia). repeat constructor; done.
  - vm_compute. congruence.
Defined.
