(* ===== verification/CircBuffer.v ===== *)
(** * dropbear's circular buffers (circbuffer.c)

    The memory is allocated on the first write ([cb_data = None] before it).  [contents]
    is the abstract queue of bytes; the operations refine appending at its end and
    removing from its front, and the assertions of [cbuf_writelen] never fail. *)

From S2P Require Import Prelude.

Definition MAX_CBUF_SIZE : Z := 100000000.

(** [struct circbuf] *)
Record circbuffer := mkcbuf {
  cb_size : Z;
  cb_readpos : Z;
  cb_writepos : Z;
  cb_used : Z;
  cb_data : option bytes;
}.

Definition cbuf_new (size : Z) : outcome circbuffer :=
  let* _ := exit_if (MAX_CBUF_SIZE <? size) "Bad cbuf size" in
  Ok (mkcbuf size 0 0 0 None).

(** [cbuf_free]: the contents of the data memory when it is released, when there is any. *)
Definition cbuf_free (c : circbuffer) : option bytes :=
  match cb_data c with Some d => Some (replicate (Z.to_nat (cb_size c)) 0) | None => None end.

Definition cbuf_getused (c : circbuffer) : Z := cb_used c.

Definition cbuf_getavail (c : circbuffer) : Z := u32 (cb_size c - cb_used c).

(** C's [%] on unsigned integers: division by zero is undefined. *)
Definition umod (a b : Z) : outcome Z := if b =? 0 then Undef else Ok (u32 a mod b).

Definition cbuf_writelen (c : circbuffer) : outcome Z :=
  let* _ := oassert (cb_used c <=? cb_size c) in
  let* l := umod (2 * cb_size c + cb_writepos c - cb_readpos c) (cb_size c) in
  let* r := umod (cb_used c) (cb_size c) in
  let* _ := oassert (l =? r) in
  let* l := umod (2 * cb_size c + cb_readpos c - cb_writepos c) (cb_size c) in
  let* r := umod (cb_size c - cb_used c) (cb_size c) in
  let* _ := oassert (l =? r) in
  if cb_used c =? cb_size c then Ok 0
  else if cb_writepos c <? cb_readpos c then Ok (u32 (cb_readpos c - cb_writepos c))
  else Ok (u32 (cb_size c - cb_writepos c)).

(** [(p1, len1, p2, len2)]: offsets into the data, [None] for a NULL [p2]. *)
Definition cbuf_readptrs (c : circbuffer) : Z * Z * option Z * Z :=
  let len1 := Z.min (cb_used c) (u32 (cb_size c - cb_readpos c)) in
  if len1 <? cb_used c then (cb_readpos c, len1, Some 0, u32 (cb_used c - len1))
  else (cb_readpos c, len1, None, 0).

Definition cbuf_writeptr (c : circbuffer) (len : Z) : outcome (Z * circbuffer) :=
  let* avail := cbuf_writelen c in
  let* _ := exit_if (avail <? len) "Bad cbuf write" in
  let c := match cb_data c with
           | None => mkcbuf (cb_size c) (cb_readpos c) (cb_writepos c) (cb_used c)
                            (Some (replicate (Z.to_nat (cb_size c)) 0))
           | Some _ => c
           end in
  Ok (cb_writepos c, c).

Definition cbuf_incrwrite (c : circbuffer) (len : Z) : outcome circbuffer :=
  let* avail := cbuf_writelen c in
  let* _ := exit_if (avail <? len) "Bad cbuf write" in
  let used := u32 (cb_used c + len) in
  let* _ := oassert (used <=? cb_size c) in
  let* wp := umod (cb_writepos c + len) (cb_size c) in
  Ok (mkcbuf (cb_size c) (cb_readpos c) wp used (cb_data c)).

Definition cbuf_incrread (c : circbuffer) (len : Z) : outcome circbuffer :=
  let* _ := oassert (len <=? cb_used c) in
  let* rp := umod (cb_readpos c + len) (cb_size c) in
  Ok (mkcbuf (cb_size c) rp (cb_writepos c) (u32 (cb_used c - len)) (cb_data c)).

(** The way the channel code uses the write side: get a pointer to [zlen bs] linear
    bytes, copy, then account for them. *)
Definition cbuf_append (c : circbuffer) (bs : bytes) : outcome circbuffer :=
  let* (p, c) := cbuf_writeptr c (zlen bs) in
  match cb_data c with
  | None => Undef
  | Some d =>
      let* d := mem_write d p bs in
      cbuf_incrwrite (mkcbuf (cb_size c) (cb_readpos c) (cb_writepos c) (cb_used c) (Some d)) (zlen bs)
  end.

(** The bytes behind the two read pointers. *)
Definition cbuf_peek (c : circbuffer) : outcome bytes :=
  let '(p1, len1, p2, len2) := cbuf_readptrs c in
  if cb_used c =? 0 then Ok []
  else match cb_data c with
  | None => Undef
  | Some d =>
      let* s1 := mem_read d p1 len1 in
      match p2 with
      | None => Ok s1
      | Some p2 => let* s2 := mem_read d p2 len2 in Ok (s1 ++ s2)
      end
  end.

(** ** Invariant and abstraction *)

Record cwf (c : circbuffer) : Prop := {
  cwf_size : 0 < cb_size c <= MAX_CBUF_SIZE;
  cwf_read : 0 <= cb_readpos c < cb_size c;
  cwf_used : 0 <= cb_used c <= cb_size c;
  cwf_write : cb_writepos c = (cb_readpos c + cb_used c) mod cb_size c;
  cwf_data : match cb_data c with Some d => zlen d = cb_size c | None => cb_used c = 0 end;
}.

(** The queue: [used] bytes from [readpos], modulo the size. *)
Definition contents (c : circbuffer) : bytes :=
  match cb_data c with
  | None => []
  | Some d => sub (d ++ d) (cb_readpos c) (cb_used c)
  end.

Lemma umod_ok a b : 0 < b -> 0 <= a < 4294967296 -> umod a b = Ok (a mod b).
Proof. intros. unfold umod. rewrite (proj2 (Z.eqb_neq b 0)) by lia. by rewrite u32_small. Qed.

(** The end position, by whether the data wraps around. *)
Lemma cwf_wrap c : cwf c ->
  (cb_readpos c + cb_used c < cb_size c /\ cb_writepos c = cb_readpos c + cb_used c) \/
  (cb_size c <= cb_readpos c + cb_used c < 2 * cb_size c /\ cb_writepos c = cb_readpos c + cb_used c - cb_size c).
Proof.
  intros [[Hs ?] ? ? Hw _]. destruct (Z.lt_ge_cases (cb_readpos c + cb_used c) (cb_size c)).
  - left. split; [lia|]. rewrite Hw. apply Z.mod_small. lia.
  - destruct (Z.eq_dec (cb_readpos c + cb_used c) (2 * cb_size c)); [lia|].
    right. split; [lia|]. rewrite Hw. symmetry. apply (Z.mod_unique _ _ 1); lia.
Qed.

Lemma cbuf_writelen_ok c : cwf c ->
  exists n, cbuf_writelen c = Ok n /\ 0 <= n /\ cb_used c + n <= cb_size c /\ cb_writepos c + n <= cb_size c /\
    (0 < n <-> cb_used c < cb_size c) /\ 0 <= cb_writepos c < cb_size c /\
    (cb_writepos c < cb_readpos c -> cb_writepos c + n <= cb_readpos c).
Proof.
  intros Hc. pose proof (cwf_wrap c Hc) as Hw. destruct Hc as [Hs Hr Hu _ _]. unfold MAX_CBUF_SIZE in Hs.
  unfold cbuf_writelen. rewrite (proj2 (Z.leb_le _ _)) by lia. cbn [oassert obind].
  rewrite !umod_ok by lia. cbn [obind].
  assert (E1 : (2 * cb_size c + cb_writepos c - cb_readpos c) mod cb_size c = cb_used c mod cb_size c).
  { destruct Hw as [[_ ->]|[_ ->]].
    - rewrite <- (Z_mod_plus_full (cb_used c) 2). f_equal. lia.
    - rewrite <- (Z_mod_plus_full (cb_used c) 1). f_equal. lia. }
  assert (E2 : (2 * cb_size c + cb_readpos c - cb_writepos c) mod cb_size c = (cb_size c - cb_used c) mod cb_size c).
  { destruct Hw as [[_ ->]|[_ ->]].
    - rewrite <- (Z_mod_plus_full (cb_size c - cb_used c) 1). f_equal. lia.
    - rewrite <- (Z_mod_plus_full (cb_size c - cb_used c) 2). f_equal. lia. }
  rewrite E1, E2, !Z.eqb_refl. cbn [oassert obind]. clear E1 E2.
  destruct (Z.eqb_spec (cb_used c) (cb_size c)); [eexists; split; [done|lia]|].
  destruct (Z.ltb_spec (cb_writepos c) (cb_readpos c)); eexists; (split; [done|]); rewrite u32_small by lia; lia.
Qed.

(** ** Refinement of a queue of bytes *)

Lemma contents_zlen c : cwf c -> zlen (contents c) = cb_used c.
Proof.
  intros [Hs Hr Hu _ Hd]. unfold contents. destruct (cb_data c) as [d|]; [|done].
  apply zlen_sub; rewrite ?zlen_app; lia.
Qed.

Lemma cbuf_peek_contents c : cwf c -> cbuf_peek c = Ok (contents c).
Proof.
  intros Hc. pose proof (cwf_wrap c Hc) as Hw. destruct Hc as [Hs Hr Hu _ Hd]. unfold MAX_CBUF_SIZE in Hs.
  unfold cbuf_peek, cbuf_readptrs, contents. rewrite u32_small by lia.
  destruct (cb_data c) as [d|]; [|rewrite Hd; by destruct (_ <? _)].
  destruct (Z.ltb_spec (Z.min (cb_used c) (cb_size c - cb_readpos c)) (cb_used c)) as [Hlt|Hge].
  - rewrite (proj2 (Z.eqb_neq _ _)) by lia. rewrite Z.min_r, u32_small by lia.
    rewrite !mem_read_in by lia. cbn [obind]. f_equal.
    replace (cb_used c) with (cb_size c - cb_readpos c + (cb_used c - (cb_size c - cb_readpos c))) at 2 by lia.
    rewrite sub_split by lia. f_equal.
    + rewrite sub_app_l by lia. done.
    + replace (cb_readpos c + (cb_size c - cb_readpos c)) with (zlen d) by lia.
      rewrite sub_app_r_at by lia. done.
  - destruct (Z.eqb_spec (cb_used c) 0) as [->|]; [done|]. rewrite Z.min_l by lia.
    rewrite mem_read_in by lia. cbn [obind]. by rewrite sub_app_l by lia.
Qed.

Lemma cbuf_incrread_ok c n : cwf c -> 0 <= n <= cb_used c ->
  exists c', cbuf_incrread c n = Ok c' /\ cwf c' /\ contents c' = drop (Z.to_nat n) (contents c) /\ cb_size c' = cb_size c.
Proof.
  intros Hc Hn. pose proof (cwf_wrap c Hc) as Hw. destruct Hc as [Hs Hr Hu Hwp Hd]. unfold MAX_CBUF_SIZE in Hs.
  unfold cbuf_incrread. rewrite (proj2 (Z.leb_le _ _)) by lia. cbn [oassert obind].
  rewrite umod_ok by lia. cbn [obind]. rewrite u32_small by lia. eexists. split; [done|].
  assert (Hrp : (cb_readpos c + n < cb_size c /\ (cb_readpos c + n) mod cb_size c = cb_readpos c + n) \/
                (cb_size c <= cb_readpos c + n /\ (cb_readpos c + n) mod cb_size c = cb_readpos c + n - cb_size c)).
  { destruct (Z.lt_ge_cases (cb_readpos c + n) (cb_size c)); [left|right]; (split; [done|]).
    - apply Z.mod_small. lia.
    - symmetry. apply (Z.mod_unique _ _ 1); lia. }
  assert (Hmod : (cb_readpos c + cb_used c) mod cb_size c = ((cb_readpos c + n) mod cb_size c + (cb_used c - n)) mod cb_size c).
  { rewrite Zplus_mod_idemp_l. f_equal. lia. }
  split_and!; [|unfold contents|done].
  - split; cbn; unfold MAX_CBUF_SIZE; [lia|clear Hmod; destruct Hrp as [[? ->]|[? ->]]; lia|lia|by rewrite Hwp, Hmod|].
    clear Hmod. destruct (cb_data c); lia.
  - cbn. destruct (cb_data c) as [d|]; [|by rewrite drop_nil].
    rewrite drop_sub by lia. clear Hmod. destruct Hrp as [[? ->]|[? ->]]; [done|].
    remember (cb_readpos c + n - cb_size c) as o eqn:Ho. replace (cb_readpos c + n) with (zlen d + o) by lia.
    rewrite sub_app_ge by lia. by rewrite sub_app_l by lia.
Qed.

Lemma cbuf_append_ok c bs n : cwf c -> cbuf_writelen c = Ok n -> zlen bs <= n ->
  exists c', cbuf_append c bs = Ok c' /\ cwf c' /\ contents c' = contents c ++ bs /\ cb_size c' = cb_size c.
Proof.
  intros Hc Hn Hbs. destruct (cbuf_writelen_ok c Hc) as (n' & Hn' & H0 & H1 & H2 & H3 & H4 & H5).
  rewrite Hn in Hn'. injection Hn' as <-. pose proof (cwf_wrap c Hc) as Hw. pose proof (zlen_nonneg bs).
  unfold cbuf_append, cbuf_writeptr. rewrite Hn. cbn [obind]. rewrite (proj2 (Z.ltb_ge _ _)) by lia. cbn [exit_if obind].
  set (d := match cb_data c with Some d => d | None => replicate (Z.to_nat (cb_size c)) 0 end).
  assert (Hd : zlen d = cb_size c /\ contents c = sub (d ++ d) (cb_readpos c) (cb_used c)).
  { unfold contents, d. destruct Hc as [Hs _ _ _ Hd]. destruct (cb_data c); [done|]. rewrite Hd, sub_0.
    split; [apply zlen_replicate; lia|done]. }
  set (c1 := mkcbuf (cb_size c) (cb_readpos c) (cb_writepos c) (cb_used c) (Some d)).
  replace (match cb_data c with Some _ => c | None => _ end) with c1.
  2: { unfold c1, d. destruct c as [? ? ? ? [|]]; done. }
  unfold c1. clear c1. cbn [cb_size cb_readpos cb_writepos cb_used cb_data]. destruct Hd as [Hd Hcont].
  rewrite mem_write_in by lia. cbn [obind].
  assert (Hc2 : cwf (mkcbuf (cb_size c) (cb_readpos c) (cb_writepos c) (cb_used c) (Some (blit d (cb_writepos c) bs)))).
  { destruct Hc. split; cbn; try done. rewrite zlen_blit; lia. }
  unfold cbuf_incrwrite. replace (cbuf_writelen _) with (Ok n) by (rewrite <- Hn; done). cbn [obind].
  rewrite (proj2 (Z.ltb_ge _ _)) by lia. cbn [exit_if obind cb_used cb_size cb_writepos cb_readpos cb_data].
  destruct Hc as [Hs Hr Hu Hwp _]. unfold MAX_CBUF_SIZE in Hs. rewrite u32_small by lia.
  rewrite (proj2 (Z.leb_le _ _)) by lia. cbn [oassert obind]. rewrite umod_ok by lia. cbn [obind].
  eexists. split; [done|]. split_and!; [|unfold contents; cbn|done].
  - split; cbn; unfold MAX_CBUF_SIZE; [lia|lia|lia| |rewrite zlen_blit; lia].
    rewrite Hwp, Zplus_mod_idemp_l. f_equal. lia.
  - unfold contents in Hcont. rewrite Hcont, sub_split by lia. f_equal.
    + symmetry. apply (ring_unwritten d bs (cb_readpos c) (cb_used c) (cb_writepos c)); lia.
    + destruct Hw as [[? Hw]|[? Hw]]; rewrite Hw.
      * rewrite sub_app_l by (rewrite ?zlen_blit; lia). apply sub_blit_same; lia.
      * remember (cb_readpos c + cb_used c - cb_size c) as o eqn:Ho.
        replace (cb_readpos c + cb_used c) with (zlen (blit d o bs) + o) by (rewrite zlen_blit; lia).
        rewrite sub_app_ge by lia. apply sub_blit_same; lia.
Qed.

(** The steps a channel makes on a circular buffer. *)
Inductive cbufop := CAppend (bs : bytes) | CRead (n : Z).

Definition run_cbufop (op : cbufop) (c : circbuffer) : outcome circbuffer :=
  match op with CAppend bs => cbuf_append c bs | CRead n => cbuf_incrread c n end.

(** The abstract queue: append when the linear room suffices, drop what is there. *)
Definition cbufop_enabled (op : cbufop) (c : circbuffer) : Prop :=
  match op with
  | CAppend bs => exists n, cbuf_writelen c = Ok n /\ zlen bs <= n
  | CRead n => 0 <= n <= zlen (contents c)
  end.

Definition queue_op (op : cbufop) (q : bytes) : bytes :=
  match op with CAppend bs => q ++ bs | CRead n => drop (Z.to_nat n) q end.

Inductive cbuf_steps : circbuffer -> list cbufop -> circbuffer -> Prop :=
| cbuf_steps_nil c : cbuf_steps c [] c
| cbuf_steps_cons c op c1 ops c2 :
    cbufop_enabled op c -> run_cbufop op c = Ok c1 -> cbuf_steps c1 ops c2 -> cbuf_steps c (op :: ops) c2.

Lemma run_cbufop_ok op c : cwf c -> cbufop_enabled op c ->
  exists c', run_cbufop op c = Ok c' /\ cwf c' /\ contents c' = queue_op op (contents c) /\ cb_size c' = cb_size c.
Proof.
  destruct op as [bs|n]; cbn; intros Hc.
  - intros (n & Hn & Hl). by apply (cbuf_append_ok c bs n).
  - rewrite contents_zlen by done. intros. by apply cbuf_incrread_ok.
Qed.

Lemma cbuf_new_ok n c : cbuf_new n = Ok c -> 0 < n -> cwf c /\ contents c = [] /\ cb_size c = n.
Proof.
  unfold cbuf_new. intros H Hn. inv_ok. blia. split_and!; [|done|done]. split; cbn; try done; try lia.
Qed.

(** C15: The circular buffer refines a queue of bytes. From a new buffer, after any
    sequence of appends (within the linear room [cbuf_writelen] reports) and reads (of at
    most the bytes present), the two read pointers give exactly the bytes of the abstract
    queue, in order; every such operation is defined (no assertion fails, no access leaves
    the memory); and room is reported whenever the queue is not full. *)
Theorem cbuf_refines_queue (size : Z) (c0 c : circbuffer) (ops : list cbufop) :
  0 < size -> cbuf_new size = Ok c0 -> cbuf_steps c0 ops c ->
  cbuf_peek c = Ok (fold_left (fun q op => queue_op op q) ops []) /\
  (forall op, cbufop_enabled op c -> exists c', run_cbufop op c = Ok c') /\
  (exists n, cbuf_writelen c = Ok n /\ (0 < n <-> cbuf_getused c < size)).
Proof.
  intros Hsz Hnew Hsteps. destruct (cbuf_new_ok _ _ Hnew Hsz) as (Hwf & Hcon & Hs0). clear Hnew.
  assert (Hgen : cwf c /\ contents c = fold_left (fun q op => queue_op op q) ops (contents c0) /\ cb_size c = size).
  { clear Hcon. induction Hsteps as [c|c op c1 ops c2 Hen Hrun Hsteps IH]; [done|]. cbn.
    destruct (run_cbufop_ok op c Hwf Hen) as (c' & Hr & Hwf' & Hc' & Hs'). rewrite Hrun in Hr. injection Hr as <-.
    rewrite <- Hc'. apply IH; [done|congruence]. }
  rewrite Hcon in Hgen. destruct Hgen as (Hw & Hc & Hs). split_and!.
  - by rewrite cbuf_peek_contents, Hc.
  - intros op Hop. destruct (run_cbufop_ok op c Hw Hop) as (c' & ? & _). by exists c'.
  - destruct (cbuf_writelen_ok c Hw) as (n & Hn & _ & _ & _ & Hiff & _). exists n. by rewrite <- Hs.
Qed.

Lemma cbuf_refines_queue_witness :
  let c0 := mkcbuf 4 0 0 0 None in
  let c := mkcbuf 4 2 1 3 (Some [5; 2; 3; 4]) in
  let ops := [CAppend [1; 2; 3]; CRead 2; CAppend [4]; CAppend [5]] in
  cbuf_peek c = Ok (fold_left (fun q op => queue_op op q) ops []) /\
  (forall op, cbufop_enabled op c -> exists c', run_cbufop op c = Ok c') /\
  (exists n, cbuf_writelen c = Ok n /\ (0 < n <-> cbuf_getused c < 4)).
Proof.
  intros c0 c ops. apply (cbuf_refines_queue 4 c0 c ops); [lia|vm_compute; reflexivity|]. subst c0 c ops.
  eapply cbuf_steps_cons; [exists 4; split; [vm_compute; reflexivity|vm_compute; congruence]|vm_compute; reflexivity|].
  eapply cbuf_steps_cons; [vm_compute; split; congruence|vm_compute; reflexivity|].
  eapply cbuf_steps_cons; [exists 1; split; [vm_compute; reflexivity|vm_compute; congruence]|vm_compute; reflexivity|].
  eapply cbuf_steps_cons; [exists 2; split; [vm_compute; reflexivity|vm_compute; congruence]|vm_compute; reflexivity|].
  apply cbuf_steps_nil.
Defined.
