(* ===== verification/Queue.v ===== *)
(** * dropbear's linked queues and lists (queue.c, list.c)

    The nodes live in a heap, a finite map from locations; [malloc] takes a location that
    is not in use and [free] removes it, so a dangling access is [Undef].  A [Queue] is a
    singly linked chain with head and tail pointers, an [m_list] a doubly linked one. *)

From S2P Require Import Prelude.

Notation loc := positive (only parsing).

Module Queue.
Section queue.
Context {A : Type}.

(** [struct Link] *)
Record Link := mklink { item : A; link : option loc }.

(** [struct Queue] *)
Record Queue := mkqueue { head : option loc; tail : option loc; count : Z }.

Abbreviation heap := (gmap loc Link).

Definition deref (h : heap) (p : option loc) : outcome Link :=
  match p with
  | Some l => match h !! l with Some n => Ok n | None => Undef end
  | None => Undef
  end.

Definition initqueue : Queue := mkqueue None None 0.

Definition isempty (q : Queue) : bool := match head q with None => true | Some _ => false end.

Definition dequeue (q : Queue) (h : heap) : outcome (A * Queue * heap) :=
  let* _ := oassert (negb (isempty q)) in
  let* oldhead := deref h (head q) in
  let ret := item oldhead in
  let q' := match link oldhead with
            | Some _ => mkqueue (link oldhead) (tail q) (count q)
            | None => mkqueue None None (count q)
            end in
  match head q with
  | None => Undef
  | Some l => Ok (ret, mkqueue (head q') (tail q') (u32 (count q' - 1)), delete l h)
  end.

Definition examine (q : Queue) (h : heap) : outcome A :=
  let* _ := oassert (negb (isempty q)) in
  let* n := deref h (head q) in
  Ok (item n).

Definition enqueue (q : Queue) (x : A) (h : heap) : outcome (Queue * heap) :=
  let newlink : loc := fresh (dom h) in
  let h := <[newlink := mklink x None]> h in
  let* h := match tail q with
            | Some t =>
                let* n := deref h (Some t) in
                Ok (<[t := mklink (item n) (Some newlink)]> h)
            | None => Ok h
            end in
  let hd := match head q with None => Some newlink | Some l => Some l end in
  Ok (mkqueue hd (Some newlink) (u32 (count q + 1)), h).

(** ** The chain a queue points to *)

Fixpoint chain (h : heap) (p : option loc) (ns : list (loc * A)) : Prop :=
  match ns with
  | [] => p = None
  | (l, x) :: ns => p = Some l /\ exists nx, h !! l = Some (mklink x nx) /\ chain h nx ns
  end.

(** [q] holds the items [xs], in nodes of the heap of its own. *)
Definition queue_holds (h : heap) (q : Queue) (ns : list (loc * A)) : Prop :=
  chain h (head q) ns /\ NoDup ns.*1 /\ tail q = last ns.*1 /\ count q = u32 (zlen ns).

Lemma chain_frame h p ns l n : chain h p ns -> l ∉ ns.*1 -> chain (<[l := n]> h) p ns.
Proof.
  revert p. induction ns as [|[l' x] ns IH]; cbn; intros p H Hl; [done|].
  apply not_elem_of_cons in Hl as [Hne Hl]. destruct H as (-> & nx & Hlk & H). split; [done|].
  exists nx. rewrite lookup_insert_ne by done. auto.
Qed.

Lemma chain_delete h p ns l : chain h p ns -> l ∉ ns.*1 -> chain (delete l h) p ns.
Proof.
  revert p. induction ns as [|[l' x] ns IH]; cbn; intros p H Hl; [done|].
  apply not_elem_of_cons in Hl as [Hne Hl]. destruct H as (-> & nx & Hlk & H). split; [done|].
  exists nx. rewrite lookup_delete_ne by done. auto.
Qed.

Lemma chain_dom h p ns l : chain h p ns -> l ∈ ns.*1 -> is_Some (h !! l).
Proof.
  revert p. induction ns as [|[l' x] ns IH]; cbn; intros p H Hl; [set_solver|].
  destruct H as (-> & nx & Hlk & H). apply elem_of_cons in Hl as [->|Hl]; eauto.
Qed.

Lemma chain_snoc h p ns l x : chain h p (ns ++ [(l, x)]) ->
  exists nx, h !! l = Some (mklink x nx).
Proof.
  revert p. induction ns as [|[l' y] ns IH]; cbn; intros p H.
  - destruct H as (_ & nx & ? & _). by exists nx.
  - destruct H as (_ & nx & _ & H). eauto.
Qed.

(** Redirecting the last node to a new one extends the chain. *)
Lemma chain_extend h p ns l x nl y :
  chain h p (ns ++ [(l, x)]) -> NoDup (ns ++ [(l, x)]).*1 -> nl ∉ (ns ++ [(l, x)]).*1 ->
  h !! nl = Some (mklink y None) ->
  chain (<[l := mklink x (Some nl)]> h) p ((ns ++ [(l, x)]) ++ [(nl, y)]).
Proof.
  revert p. induction ns as [|[l' z] ns IH]; intros p H Hnd Hnl Hy.
  - cbn in *. destruct H as (-> & nx & Hlk & _). split; [done|].
    exists (Some nl). rewrite lookup_insert_eq. split; [done|]. split; [done|].
    exists None. rewrite lookup_insert_ne by set_solver. done.
  - cbn in *. destruct H as (-> & nx & Hlk & H). apply NoDup_cons in Hnd as [Hni Hnd]. split; [done|].
    exists nx. rewrite lookup_insert_ne by (intros ->; apply Hni; rewrite fmap_app; apply elem_of_app; right; left). split; [done|].
    apply not_elem_of_cons in Hnl as [_ Hnl]. by apply IH.
Qed.

Lemma deref_lookup h l n : h !! l = Some n -> deref h (Some l) = Ok n.
Proof. cbn. by intros ->. Qed.

Lemma queue_holds_tail h q ns : queue_holds h q ns ->
  (ns = [] /\ head q = None /\ tail q = None) \/
  (exists ns' l x, ns = ns' ++ [(l, x)] /\ tail q = Some l /\ is_Some (head q)).
Proof.
  intros (Hc & Hnd & Ht & _). destruct ns as [|[l x] ns' _] using rev_ind; [by left|right].
  exists ns', l, x. split; [done|]. rewrite Ht, fmap_app. cbn. rewrite last_snoc. split; [done|].
  destruct ns' as [|[l' y] ns']; cbn in Hc; destruct Hc as [-> _]; done.
Qed.

Lemma enqueue_ok h q ns x : queue_holds h q ns ->
  exists q' h' l, enqueue q x h = Ok (q', h') /\ l ∉ dom h /\ queue_holds h' q' (ns ++ [(l, x)]) /\
    (forall k, k ∉ ns.*1 -> k <> l -> h' !! k = h !! k).
Proof.
  intros Hq. destruct (queue_holds_tail _ _ _ Hq) as [(-> & Hh & Ht)|(ns' & l & y & -> & Ht & [hd Hh])].
  - unfold enqueue. rewrite Hh, Ht. cbn [obind]. set (nl := fresh (dom h)).
    eexists _, _, nl. split; [done|]. split; [apply is_fresh|]. destruct Hq as (_ & _ & _ & Hcnt). split.
    + split_and!; cbn; [|apply NoDup_singleton|done|].
      * split; [done|]. exists None. by rewrite lookup_insert_eq.
      * rewrite Hcnt. done.
    + intros k _ Hk. by rewrite lookup_insert_ne.
  - pose proof Hq as (Hc & Hnd & _ & Hcnt). set (nl := fresh (dom h)).
    assert (Hfr : nl ∉ (ns' ++ [(l, y)]).*1).
    { intros Hin. destruct (chain_dom _ _ _ _ Hc Hin) as [n Hn].
      apply (is_fresh (dom h)), elem_of_dom. by exists n. }
    destruct (chain_snoc _ _ _ _ _ Hc) as [nx Hl].
    assert (Hne : nl <> l) by (rewrite fmap_app in Hfr; cbn in Hfr; set_solver).
    unfold enqueue. fold nl. rewrite Hh, Ht, (deref_lookup _ l (mklink y nx)) by (by rewrite lookup_insert_ne).
    cbn [obind item]. eexists _, _, nl. split; [done|]. split; [apply is_fresh|]. split.
    + split_and!; cbn.
      * rewrite <- Hh. apply chain_extend; [|done|done|by rewrite lookup_insert_eq]. by apply chain_frame.
      * rewrite fmap_app. cbn. apply NoDup_app. split; [done|]. split; [set_solver|apply NoDup_singleton].
      * rewrite fmap_app. cbn. by rewrite last_snoc.
      * rewrite Hcnt, !zlen_app. change (zlen [(nl, x)]) with 1. unfold u32. by rewrite Zplus_mod_idemp_l.
    + intros k Hk Hkn. rewrite fmap_app in Hk. cbn in Hk. by rewrite !lookup_insert_ne by set_solver.
Qed.

Lemma dequeue_ok h q l x ns : queue_holds h q ((l, x) :: ns) ->
  exists q', dequeue q h = Ok (x, q', delete l h) /\ queue_holds (delete l h) q' ns /\ examine q h = Ok x.
Proof.
  intros (Hc & Hnd & Ht & Hcnt). cbn in Hc, Hnd, Ht. destruct Hc as (Hh & nx & Hl & Hc).
  apply NoDup_cons in Hnd as [Hni Hnd]. unfold dequeue, examine, isempty. rewrite Hh.
  cbn [negb oassert obind]. rewrite (deref_lookup _ _ _ Hl). cbn [obind item link].
  eexists. split; [done|]. split; [|done]. split_and!.
  - cbn. destruct nx; cbn; by apply chain_delete.
  - done.
  - destruct ns as [|[l' x'] ns]; cbn in Hc.
    + by subst nx.
    + destruct Hc as (-> & _). cbn. by rewrite Ht.
  - assert (count q = u32 (1 + zlen ns)) as Hcq by (rewrite Hcnt, zlen_cons; done).
    destruct nx; cbn; rewrite Hcq; unfold u32; rewrite Zminus_mod_idemp_l; f_equal; lia.
Qed.

Lemma dequeue_empty h q : queue_holds h q [] ->
  dequeue q h = Exit "Failed assertion (%s:%d): `%s'" /\ examine q h = Exit "Failed assertion (%s:%d): `%s'".
Proof. intros (Hc & _). cbn in Hc. unfold dequeue, examine, isempty. by rewrite Hc. Qed.
End queue.

(** Operations on a queue as steps, with the abstract queue beside the heap one. *)
Inductive qop (A : Type) := QEnqueue (x : A) | QDequeue.
Arguments QEnqueue {A} x.
Arguments QDequeue {A}.

(** Run the operations; the items dequeued, in order. *)
Fixpoint run_qops {A} (ops : list (qop A)) (q : @Queue) (h : gmap loc (@Link A)) : outcome (list A * @Queue * gmap loc (@Link A)) :=
  match ops with
  | [] => Ok ([], q, h)
  | QEnqueue x :: ops => let* (q, h) := enqueue q x h in run_qops ops q h
  | QDequeue :: ops =>
      let* (x, q, h) := dequeue q h in
      let* (out, q, h) := run_qops ops q h in Ok (x :: out, q, h)
  end.

(** The same on a mathematical list: [None] when a dequeue meets an empty queue. *)
Fixpoint spec_qops {A} (ops : list (qop A)) (xs : list A) : option (list A * list A) :=
  match ops with
  | [] => Some ([], xs)
  | QEnqueue x :: ops => spec_qops ops (xs ++ [x])
  | QDequeue :: ops =>
      match xs with
      | [] => None
      | x :: xs => match spec_qops ops xs with Some (out, ys) => Some (x :: out, ys) | None => None end
      end
  end.

Lemma run_qops_sim {A} (ops : list (qop A)) q h ns :
  queue_holds h q ns ->
  match spec_qops ops ns.*2 with
  | Some (out, ys) => exists q' h' ns', run_qops ops q h = Ok (out, q', h') /\ queue_holds h' q' ns' /\ ns'.*2 = ys
  | None => run_qops ops q h = Exit "Failed assertion (%s:%d): `%s'"
  end.
Proof.
  revert q h ns. induction ops as [|[x|] ops IH]; intros q h ns Hq; cbn.
  - by exists q, h, ns.
  - destruct (enqueue_ok h q ns x Hq) as (q' & h' & l & He & _ & Hq' & _). rewrite He. cbn [obind].
    specialize (IH q' h' _ Hq'). rewrite fmap_app in IH. exact IH.
  - destruct ns as [|[l x] ns]; cbn.
    + destruct (dequeue_empty h q Hq) as [-> _]. done.
    + destruct (dequeue_ok h q l x ns Hq) as (q' & -> & Hq' & _). cbn [obind].
      specialize (IH q' _ ns Hq'). destruct (spec_qops ops ns.*2) as [[out ys]|].
      * destruct IH as (q2 & h2 & ns2 & -> & ? & ?). cbn [obind]. by exists q2, h2, ns2.
      * by rewrite IH.
Qed.

(** The packet queue is a FIFO. Starting from an initialised queue in any heap, any
    sequence of [enqueue] and [dequeue] behaves as on a list: it returns the same items in
    the same order, its count is the number of items, and it ends in [fail_assert] exactly
    when a dequeue meets the empty queue; no access is ever to a freed node. *)
Theorem queue_refines_fifo {A} (ops : list (qop A)) (h : gmap loc (@Link A)) :
  match spec_qops ops [] with
  | Some (out, ys) => exists q' h' ns',
      run_qops ops initqueue h = Ok (out, q', h') /\ queue_holds h' q' ns' /\ ns'.*2 = ys /\
      isempty q' = (match ys with [] => true | _ => false end)
  | None => run_qops ops initqueue h = Exit "Failed assertion (%s:%d): `%s'"
  end.
Proof.
  assert (Hq : queue_holds h (@initqueue) []) by (split_and!; try done; constructor).
  pose proof (run_qops_sim ops initqueue h [] Hq) as H. cbn in H. destruct (spec_qops ops []) as [[out ys]|]; [|done].
  destruct H as (q' & h' & ns' & Hr & Hq' & Hys). exists q', h', ns'. split_and!; [done|done|done|].
  destruct Hq' as (Hc & _). unfold isempty. destruct ns' as [|[l x] ns']; cbn in *; subst ys; [by rewrite Hc|].
  destruct Hc as (-> & _). done.
Qed.

End Queue.
