(* ===== verification/Packet.v ===== *)
(** * The binary packet protocol (packet.c, and the write side of netio.c)

    [pktses] holds the fields of [struct sshsession] the packet code reads and writes.
    The ciphers, the MAC and zlib are called through function pointers or belong to other
    libraries: they are the operations of the class [Crypto], and [CryptoLaws] states what
    the packet code relies on.  [encrypt_packet] builds one packet on the wire from
    [writepayload]; [read_packet], called for every readable event, takes what the socket
    gives and ends with [decrypt_packet] when the packet is complete.  The queue of packets
    to write is a list here; Queue.v shows the linked queue behaves as one. *)

From S2P Require Import Prelude Bytes Buffer.

(** ** Constants (packet.h, ssh.h, sysoptions.h with the values of localoptions.h) *)

Definition PACKET_PADDING_OFF : Z := 4.
Definition PACKET_PAYLOAD_OFF : Z := 5.
Definition INIT_READBUF : Z := 128.
Definition MIN_PACKET_LEN : Z := 16.
Definition RECV_MAX_PAYLOAD_LEN : Z := 128 * 1024.
Definition RECV_MAX_PACKET_LEN : Z := Z.max 35000 (RECV_MAX_PAYLOAD_LEN + 100).
Definition ZLIB_COMPRESS_EXPANSION : Z := (RECV_MAX_PAYLOAD_LEN / 16384 + 1) * 5 + 6.
Definition TRANS_MAX_PAYLOAD_LEN : Z := 16384.
Definition MAX_MAC_LEN : Z := 64.
Definition MAX_DEFER_REPLY_QUEUE : Z := 1000.

Definition SSH_MSG_DISCONNECT : Z := 1.
Definition SSH_MSG_IGNORE : Z := 2.
Definition SSH_MSG_UNIMPLEMENTED : Z := 3.
Definition SSH_MSG_DEBUG : Z := 4.
Definition SSH_MSG_SERVICE_REQUEST : Z := 5.
Definition SSH_MSG_SERVICE_ACCEPT : Z := 6.
Definition SSH_MSG_EXT_INFO : Z := 7.
Definition SSH_MSG_KEXINIT : Z := 20.
Definition SSH_MSG_NEWKEYS : Z := 21.
Definition SSH_MSG_USERAUTH_REQUEST : Z := 50.
Definition SSH_MSG_USERAUTH_FAILURE : Z := 51.
Definition SSH_MSG_USERAUTH_SUCCESS : Z := 52.
Definition SSH_MSG_USERAUTH_PK_OK : Z := 60.
Definition SSH_MSG_GLOBAL_REQUEST : Z := 80.
Definition SSH_MSG_REQUEST_SUCCESS : Z := 81.
Definition SSH_MSG_REQUEST_FAILURE : Z := 82.
Definition SSH_MSG_CHANNEL_OPEN : Z := 90.
Definition SSH_MSG_CHANNEL_OPEN_CONFIRMATION : Z := 91.
Definition SSH_MSG_CHANNEL_OPEN_FAILURE : Z := 92.
Definition SSH_MSG_CHANNEL_WINDOW_ADJUST : Z := 93.
Definition SSH_MSG_CHANNEL_DATA : Z := 94.
Definition SSH_MSG_CHANNEL_EXTENDED_DATA : Z := 95.
Definition SSH_MSG_CHANNEL_EOF : Z := 96.
Definition SSH_MSG_CHANNEL_CLOSE : Z := 97.
Definition SSH_MSG_CHANNEL_REQUEST : Z := 98.
Definition SSH_MSG_CHANNEL_SUCCESS : Z := 99.
Definition SSH_MSG_CHANNEL_FAILURE : Z := 100.

Inductive comp_algo := DROPBEAR_COMP_NONE | DROPBEAR_COMP_ZLIB | DROPBEAR_COMP_ZLIB_DELAY.

#[global] Instance comp_algo_eq_dec : EqDecision comp_algo.
Proof. solve_decision. Defined.

(** ** The cryptography the packet code calls

    [CS] is a cipher state, [ZS] a zlib stream.  [None] is a result other than [CRYPT_OK].
    [deflate] and [inflate] return whether the result is [Z_OK], the number of input bytes
    left, the output (at most the room given) and the new stream. *)
Class Crypto (CS ZS : Type) := {
  crypt_encrypt : CS -> bytes -> option (bytes * CS);
  crypt_decrypt : CS -> bytes -> option (bytes * CS);
  aead_encrypt : Z -> CS -> bytes -> Z -> option (bytes * CS);
  aead_decrypt : Z -> CS -> bytes -> Z -> Z -> option (bytes * CS);
  aead_getlength : Z -> CS -> bytes -> option (Z * CS);
  hmac : Z -> bytes -> bytes -> option bytes;
  deflate : ZS -> bytes -> Z -> bool * Z * bytes * ZS;
  inflate : ZS -> bytes -> Z -> bool * Z * bytes * ZS;
  genrandom : nat -> Z;
}.

(** What one [read] on the session socket gives. *)
Inductive read_res := ReadData (bs : bytes) | ReadAgain | ReadError.

(** What [writev] on the session socket gives. *)
Inductive write_res := Written (n : Z) | WriteAgain | WriteError.

Section packet.
Context {CS ZS : Type} {C : Crypto CS ZS}.

(** [struct key_context_directional]; [aead] is whether [crypt_mode->aead_crypt] is set. *)
Record keydir := mkkeydir {
  blocksize : Z;
  hashsize : Z;
  hash_index : Z;
  mackey : bytes;
  aead : bool;
  algo_comp : comp_algo;
  cipher_state : CS;
  zstream : ZS;
}.

Definition set_cipher_state (c : CS) (k : keydir) : keydir :=
  mkkeydir (blocksize k) (hashsize k) (hash_index k) (mackey k) (aead k) (algo_comp k) c (zstream k).

Definition set_zstream (z : ZS) (k : keydir) : keydir :=
  mkkeydir (blocksize k) (hashsize k) (hash_index k) (mackey k) (aead k) (algo_comp k) (cipher_state k) z.

(** The fields of [struct sshsession] used here. *)
Record pktses := mkpktses {
  trans : keydir;
  recv : keydir;
  writepayload : buffer;
  writequeue : list buffer;
  writequeue_len : Z;
  readbuf : option buffer;
  payload : option buffer;
  payload_beginning : Z;
  transseq : Z;
  recvseq : Z;
  dataallowed : bool;
  reply_queue : list buffer;
  authdone : bool;
  datatrans : Z;
  datarecv : Z;
  last_packet_time_any_sent : Z;
  last_packet_time_idle : Z;
  rng_used : nat;
}.

Definition set_trans (v : keydir) (s : pktses) : pktses :=
  mkpktses v (recv s) (writepayload s) (writequeue s) (writequeue_len s) (readbuf s) (payload s) (payload_beginning s) (transseq s) (recvseq s) (dataallowed s) (reply_queue s) (authdone s) (datatrans s) (datarecv s) (last_packet_time_any_sent s) (last_packet_time_idle s) (rng_used s).
Definition set_recv (v : keydir) (s : pktses) : pktses :=
  mkpktses (trans s) v (writepayload s) (writequeue s) (writequeue_len s) (readbuf s) (payload s) (payload_beginning s) (transseq s) (recvseq s) (dataallowed s) (reply_queue s) (authdone s) (datatrans s) (datarecv s) (last_packet_time_any_sent s) (last_packet_time_idle s) (rng_used s).
Definition set_writepayload (v : buffer) (s : pktses) : pktses :=
  mkpktses (trans s) (recv s) v (writequeue s) (writequeue_len s) (readbuf s) (payload s) (payload_beginning s) (transseq s) (recvseq s) (dataallowed s) (reply_queue s) (authdone s) (datatrans s) (datarecv s) (last_packet_time_any_sent s) (last_packet_time_idle s) (rng_used s).
Definition set_writequeue (v : list buffer) (s : pktses) : pktses :=
  mkpktses (trans s) (recv s) (writepayload s) v (writequeue_len s) (readbuf s) (payload s) (payload_beginning s) (transseq s) (recvseq s) (dataallowed s) (reply_queue s) (authdone s) (datatrans s) (datarecv s) (last_packet_time_any_sent s) (last_packet_time_idle s) (rng_used s).
Definition set_writequeue_len (v : Z) (s : pktses) : pktses :=
  mkpktses (trans s) (recv s) (writepayload s) (writequeue s) v (readbuf s) (payload s) (payload_beginning s) (transseq s) (recvseq s) (dataallowed s) (reply_queue s) (authdone s) (datatrans s) (datarecv s) (last_packet_time_any_sent s) (last_packet_time_idle s) (rng_used s).
Definition set_readbuf (v : option buffer) (s : pktses) : pktses :=
  mkpktses (trans s) (recv s) (writepayload s) (writequeue s) (writequeue_len s) v (payload s) (payload_beginning s) (transseq s) (recvseq s) (dataallowed s) (reply_queue s) (authdone s) (datatrans s) (datarecv s) (last_packet_time_any_sent s) (last_packet_time_idle s) (rng_used s).
Definition set_payload (v : option buffer) (s : pktses) : pktses :=
  mkpktses (trans s) (recv s) (writepayload s) (writequeue s) (writequeue_len s) (readbuf s) v (payload_beginning s) (transseq s) (recvseq s) (dataallowed s) (reply_queue s) (authdone s) (datatrans s) (datarecv s) (last_packet_time_any_sent s) (last_packet_time_idle s) (rng_used s).
Definition set_payload_beginning (v : Z) (s : pktses) : pktses :=
  mkpktses (trans s) (recv s) (writepayload s) (writequeue s) (writequeue_len s) (readbuf s) (payload s) v (transseq s) (recvseq s) (dataallowed s) (reply_queue s) (authdone s) (datatrans s) (datarecv s) (last_packet_time_any_sent s) (last_packet_time_idle s) (rng_used s).
Definition set_transseq (v : Z) (s : pktses) : pktses :=
  mkpktses (trans s) (recv s) (writepayload s) (writequeue s) (writequeue_len s) (readbuf s) (payload s) (payload_beginning s) v (recvseq s) (dataallowed s) (reply_queue s) (authdone s) (datatrans s) (datarecv s) (last_packet_time_any_sent s) (last_packet_time_idle s) (rng_used s).
Definition set_recvseq (v : Z) (s : pktses) : pktses :=
  mkpktses (trans s) (recv s) (writepayload s) (writequeue s) (writequeue_len s) (readbuf s) (payload s) (payload_beginning s) (transseq s) v (dataallowed s) (reply_queue s) (authdone s) (datatrans s) (datarecv s) (last_packet_time_any_sent s) (last_packet_time_idle s) (rng_used s).
Definition set_dataallowed (v : bool) (s : pktses) : pktses :=
  mkpktses (trans s) (recv s) (writepayload s) (writequeue s) (writequeue_len s) (readbuf s) (payload s) (payload_beginning s) (transseq s) (recvseq s) v (reply_queue s) (authdone s) (datatrans s) (datarecv s) (last_packet_time_any_sent s) (last_packet_time_idle s) (rng_used s).
Definition set_reply_queue (v : list buffer) (s : pktses) : pktses :=
  mkpktses (trans s) (recv s) (writepayload s) (writequeue s) (writequeue_len s) (readbuf s) (payload s) (payload_beginning s) (transseq s) (recvseq s) (dataallowed s) v (authdone s) (datatrans s) (datarecv s) (last_packet_time_any_sent s) (last_packet_time_idle s) (rng_used s).
Definition set_authdone (v : bool) (s : pktses) : pktses :=
  mkpktses (trans s) (recv s) (writepayload s) (writequeue s) (writequeue_len s) (readbuf s) (payload s) (payload_beginning s) (transseq s) (recvseq s) (dataallowed s) (reply_queue s) v (datatrans s) (datarecv s) (last_packet_time_any_sent s) (last_packet_time_idle s) (rng_used s).
Definition set_datatrans (v : Z) (s : pktses) : pktses :=
  mkpktses (trans s) (recv s) (writepayload s) (writequeue s) (writequeue_len s) (readbuf s) (payload s) (payload_beginning s) (transseq s) (recvseq s) (dataallowed s) (reply_queue s) (authdone s) v (datarecv s) (last_packet_time_any_sent s) (last_packet_time_idle s) (rng_used s).
Definition set_datarecv (v : Z) (s : pktses) : pktses :=
  mkpktses (trans s) (recv s) (writepayload s) (writequeue s) (writequeue_len s) (readbuf s) (payload s) (payload_beginning s) (transseq s) (recvseq s) (dataallowed s) (reply_queue s) (authdone s) (datatrans s) v (last_packet_time_any_sent s) (last_packet_time_idle s) (rng_used s).
Definition set_last_packet_time_any_sent (v : Z) (s : pktses) : pktses :=
  mkpktses (trans s) (recv s) (writepayload s) (writequeue s) (writequeue_len s) (readbuf s) (payload s) (payload_beginning s) (transseq s) (recvseq s) (dataallowed s) (reply_queue s) (authdone s) (datatrans s) (datarecv s) v (last_packet_time_idle s) (rng_used s).
Definition set_last_packet_time_idle (v : Z) (s : pktses) : pktses :=
  mkpktses (trans s) (recv s) (writepayload s) (writequeue s) (writequeue_len s) (readbuf s) (payload s) (payload_beginning s) (transseq s) (recvseq s) (dataallowed s) (reply_queue s) (authdone s) (datatrans s) (datarecv s) (last_packet_time_any_sent s) v (rng_used s).
Definition set_rng_used (v : nat) (s : pktses) : pktses :=
  mkpktses (trans s) (recv s) (writepayload s) (writequeue s) (writequeue_len s) (readbuf s) (payload s) (payload_beginning s) (transseq s) (recvseq s) (dataallowed s) (reply_queue s) (authdone s) (datatrans s) (datarecv s) (last_packet_time_any_sent s) (last_packet_time_idle s) v.

(** ** Helpers *)

Definition is_compress_trans (s : pktses) : bool :=
  bool_decide (algo_comp (trans s) = DROPBEAR_COMP_ZLIB)
  || (authdone s && bool_decide (algo_comp (trans s) = DROPBEAR_COMP_ZLIB_DELAY)).

Definition is_compress_recv (s : pktses) : bool :=
  bool_decide (algo_comp (recv s) = DROPBEAR_COMP_ZLIB)
  || (authdone s && bool_decide (algo_comp (recv s) = DROPBEAR_COMP_ZLIB_DELAY)).

Definition packet_is_okay_kex (type : Z) : bool :=
  if SSH_MSG_USERAUTH_REQUEST <=? type then false
  else if (type =? SSH_MSG_SERVICE_REQUEST) || (type =? SSH_MSG_SERVICE_ACCEPT) then false
  else if type =? SSH_MSG_KEXINIT then false
  else true.

(** The MAC bytes ([[]] stands for the untouched array when there is no MAC), and
    [clear_buf] with the position [make_mac] leaves. *)
Definition make_mac (seqno : Z) (k : keydir) (clear_buf : buffer) (clear_len : Z) : outcome (bytes * buffer) :=
  if 0 <? hashsize k then
    let* b := buf_setpos clear_buf 0 in
    let* contents := buf_read b clear_len in
    match hmac (hash_index k) (mackey k) (store32h seqno ++ contents) with
    | None => Exit "HMAC error"
    | Some m => Ok (m, b)
    end
  else Ok ([], clear_buf).

(** Copy over bytes of the buffer from the current position, without moving it: the effect
    of a library call that is given a pointer into the buffer. *)
Definition buf_overwrite (b : buffer) (p : Z) (bs : bytes) : outcome buffer :=
  let* d := mem_write (buf_data b) p bs in Ok (mkbuf d (buf_len b) (buf_pos b) (buf_size b)).

Definition writebuf_enqueue (wb : buffer) (s : pktses) : outcome pktses :=
  let* wb := buf_setpos wb 0 in
  let s := set_writequeue (writequeue s ++ [wb]) s in
  Ok (set_writequeue_len (u32 (writequeue_len s + buf_len wb)) s).

Definition enqueue_reply_packet (s : pktses) : outcome pktses :=
  let* _ := exit_if (MAX_DEFER_REPLY_QUEUE <? zlen (reply_queue s)) "Full reply queue" in
  let* pl := buf_newcopy (writepayload s) in
  let* wp := buf_setpos (writepayload s) 0 in
  let* wp := buf_setlen wp 0 in
  Ok (set_reply_queue (reply_queue s ++ [pl]) (set_writepayload wp s)).

(** [buf_compress(dest, src, len)]: the two buffers and the stream afterwards. *)
Definition buf_compress (dest src : buffer) (len : Z) (z : ZS) : outcome (buffer * buffer * ZS) :=
  let endpos := u32 (buf_pos src + len) in
  let* _ := oassert (u32 (len + ZLIB_COMPRESS_EXPANSION) <=? u32 (buf_size dest - buf_pos dest)) in
  let avail_in := u32 (endpos - buf_pos src) in
  let* input := buf_read src avail_in in
  let avail_out := u32 (buf_size dest - buf_pos dest) in
  let* p := buf_getwriteptr dest avail_out in
  let '(ok, remaining, out, z) := deflate z input avail_out in
  let* dest := buf_overwrite dest p out in
  let* src := buf_setpos src (u32 (endpos - remaining)) in
  let* dest := buf_setlen dest (u32 (buf_size dest - (avail_out - zlen out))) in
  let* dest := buf_setpos dest (buf_len dest) in
  let* _ := exit_if (negb ok) "zlib error" in
  let* _ := oassert (remaining =? 0) in
  Ok (dest, src, z).

Definition buf_decompress (b : buffer) (len : Z) (z : ZS) : outcome (buffer * ZS) :=
  let* ret := buf_new (RECV_MAX_PAYLOAD_LEN + 1) in
  let* input := buf_read b len in
  let '(ok, remaining, out, z) := inflate z input (buf_size ret) in
  let* ret := buf_overwrite ret 0 out in
  let* _ := exit_if (negb ok) "zlib error" in
  let* ret := buf_setlen ret (u32 (buf_size ret - (buf_size ret - zlen out))) in
  let* _ := exit_if ((0 <? remaining) || (RECV_MAX_PAYLOAD_LEN <? buf_len ret)) "bad packet, oversized decompressed" in
  Ok (ret, z).

(** ** Sending *)

(** The padding length: the packet is a multiple of the block size (without the length
    word in AEAD mode), has at least 4 bytes of padding and at least MIN_PACKET_LEN bytes. *)
Definition padding_len (blk len wblen : Z) : Z :=
  let padlen := u8 (blk - len mod blk) in
  let padlen := if padlen <? 4 then u8 (padlen + blk) else padlen in
  if wblen + padlen <? MIN_PACKET_LEN then u8 (padlen + blk) else padlen.

(** The payload, compressed or not, after the five bytes of header. *)
Definition encrypt_body (s : pktses) (wb wp : buffer) : outcome (buffer * buffer * keydir) :=
  let k := trans s in
  if is_compress_trans s then
    let* (wb, wp, z) := buf_compress wb wp (buf_len wp) (zstream k) in Ok (wb, wp, set_zstream z k)
  else
    let* src := buf_read wp (buf_len wp) in
    let* wb := buf_write wb (buf_len wp) src in
    let* wb := buf_incrwritepos wb (buf_len wp) in
    Ok (wb, wp, k).

(** The header and the padding; [rng] is where the random stream is. *)
Definition encrypt_frame (k : keydir) (rng : nat) (wb : buffer) : outcome (buffer * Z) :=
  let len := if aead k then u32 (buf_len wb - 4) else buf_len wb in
  let padlen := padding_len (blocksize k) len (buf_len wb) in
  let* wb := buf_setpos wb 0 in
  let* wb := buf_putint wb (u32 (buf_len wb + padlen - 4)) in
  let* wb := buf_putbyte wb padlen in
  let* wb := buf_setpos wb (buf_len wb) in
  let* wb := buf_incrlen wb padlen in
  let* p := buf_getptr wb padlen in
  let* wb := buf_overwrite wb p (map (fun i => u8 (genrandom (rng + i))) (seq 0 (Z.to_nat padlen))) in
  Ok (wb, padlen).

(** Encryption in place and the MAC. *)
Definition encrypt_crypt (seqno : Z) (k : keydir) (wb : buffer) : outcome (buffer * keydir) :=
  let mac_size := hashsize k in
  if aead k then
    let* wb := buf_setpos wb 0 in
    let len := buf_len wb in
    let* wb := buf_incrlen wb mac_size in
    let* plain := buf_read wb len in
    let* p := buf_getwriteptr wb (u32 (len + mac_size)) in
    match aead_encrypt seqno (cipher_state k) plain mac_size with
    | None => Exit "Error encrypting"
    | Some (out, c) =>
        let* wb := buf_overwrite wb p out in
        let* wb := buf_incrpos wb (u32 (len + mac_size)) in
        Ok (wb, set_cipher_state c k)
    end
  else
    let* (mac_bytes, wb) := make_mac seqno k wb (buf_len wb) in
    let* wb := buf_setpos wb 0 in
    let len := buf_len wb in
    let* plain := buf_read wb len in
    let* p := buf_getwriteptr wb len in
    match crypt_encrypt (cipher_state k) plain with
    | None => Exit "Error encrypting"
    | Some (out, c) =>
        let* wb := buf_overwrite wb p out in
        let* wb := buf_incrpos wb len in
        let* wb := buf_putbytes wb (take (Z.to_nat mac_size) mac_bytes) mac_size in
        Ok (wb, set_cipher_state c k)
    end.

Definition encrypt_packet (now : Z) (s : pktses) : outcome pktses :=
  let* wp := buf_setpos (writepayload s) 0 in
  let* (packet_type, wp) := buf_getbyte wp in
  let* wp := buf_setpos wp 0 in
  let s := set_writepayload wp s in
  if negb (dataallowed s) && negb (packet_is_okay_kex packet_type) then enqueue_reply_packet s
  else
    let encrypt_buf_size :=
      u32 ((buf_len wp + 4 + 1) + Z.max MIN_PACKET_LEN (blocksize (trans s)) + 3 + hashsize (trans s)
           + ZLIB_COMPRESS_EXPANSION + 1) in
    let* wb := buf_new encrypt_buf_size in
    let* wb := buf_setlen wb PACKET_PAYLOAD_OFF in
    let* wb := buf_setpos wb PACKET_PAYLOAD_OFF in
    let* (wb, wp, k) := encrypt_body s wb wp in
    let* wp := buf_setpos wp 0 in
    let* wp := buf_setlen wp 0 in
    let* (wb, padlen) := encrypt_frame k (rng_used s) wb in
    let s := set_rng_used (rng_used s + Z.to_nat padlen) s in
    let* (wb, k) := encrypt_crypt (transseq s) k wb in
    let s := set_writepayload wp (set_trans k s) in
    let s := set_datatrans (u32 (datatrans s + buf_len wb)) s in
    let* s := writebuf_enqueue wb s in
    let s := set_transseq (u32 (transseq s + 1)) s in
    let s := set_last_packet_time_any_sent now s in
    Ok (if negb (packet_type =? SSH_MSG_REQUEST_FAILURE)
           && negb (packet_type =? SSH_MSG_UNIMPLEMENTED)
           && negb (packet_type =? SSH_MSG_IGNORE)
        then set_last_packet_time_idle now s else s).

(** The loop of [maybe_flush_reply_queue] over the queued payloads. *)
Fixpoint flush_replies (now : Z) (q : list buffer) (s : pktses) : outcome pktses :=
  match q with
  | [] => Ok s
  | pl :: q =>
      let* data := mem_read (buf_data pl) 0 (buf_len pl) in
      let* wp := buf_putbytes (writepayload s) data (buf_len pl) in
      let* s := encrypt_packet now (set_writepayload wp s) in
      flush_replies now q s
  end.

Definition maybe_flush_reply_queue (now : Z) (s : pktses) : outcome pktses :=
  if negb (dataallowed s) then Ok s
  else
    let* s := flush_replies now (reply_queue s) s in
    Ok (set_reply_queue [] s).

(** ** Writing to the socket *)

(** The first [iov_count] packets of the queue, as the slices given to [writev]. *)
Fixpoint packet_queue_to_iovec (q : list buffer) (iov_count : nat) : outcome (list bytes) :=
  match q, iov_count with
  | wb :: q, S n =>
      let len := buf_len wb - buf_pos wb in
      let* _ := oassert (0 <? len) in
      let* slice := buf_read wb len in
      let* iov := packet_queue_to_iovec q n in
      Ok (slice :: iov)
  | _, _ => Ok []
  end.

Fixpoint packet_queue_consume (q : list buffer) (written : Z) : outcome (list buffer) :=
  if 0 <? written then
    match q with
    | [] => Exit "Failed assertion (%s:%d): `%s'"
    | wb :: q' =>
        let len := buf_len wb - buf_pos wb in
        if written <? len then
          let* wb := buf_incrpos wb written in Ok (wb :: q')
        else packet_queue_consume q' (written - len)
    end
  else Ok q.

(** [write_packet] with the result of its [writev]. *)
Definition write_packet (r : list bytes -> write_res) (s : pktses) : outcome pktses :=
  let* _ := oassert (match writequeue s with [] => false | _ => true end) in
  let* iov := packet_queue_to_iovec (writequeue s) 50 in
  match r iov with
  | WriteAgain => Ok s
  | WriteError => Exit "Error writing: %s"
  | Written n =>
      let* q := packet_queue_consume (writequeue s) n in
      let s := set_writequeue_len (u32 (writequeue_len s - n)) (set_writequeue q s) in
      if n =? 0 then Exit "Exited normally" else Ok s
  end.

(** ** Receiving *)

(** The socket: its state and what [read] of at most [n] bytes gives. *)
Context {SK : Type} (sys_read : SK -> Z -> read_res * SK).

(** The packet length, from the first block of the packet: the total and the length the
    sanity checks are made on. *)
Definition packet_length (s : pktses) (rb : buffer) : outcome (Z * Z * buffer * keydir) :=
  let k := recv s in
  let macsize := hashsize k in
  if aead k then
    let* first := buf_read rb (blocksize k) in
    match aead_getlength (recvseq s) (cipher_state k) first with
    | None => Exit "Error decrypting"
    | Some (plen, c) => Ok (u32 (plen + 4 + macsize), plen, rb, set_cipher_state c k)
    end
  else
    let* first := buf_read rb (blocksize k) in
    let* p := buf_getwriteptr rb (blocksize k) in
    match crypt_decrypt (cipher_state k) first with
    | None => Exit "Error decrypting"
    | Some (out, c) =>
        let* rb := buf_overwrite rb p out in
        let* (n, rb) := buf_getint rb in
        let plen := u32 (n + 4) in
        Ok (u32 (plen + macsize), plen, rb, set_cipher_state c k)
    end.

(** The first block of a packet: [true] when the length is known. *)
Definition read_packet_init (junk : nat -> Z) (sk : SK) (s : pktses) : outcome (bool * pktses * SK) :=
  let blk := blocksize (recv s) in
  let* rb := match readbuf s with None => buf_new INIT_READBUF | Some rb => Ok rb end in
  let s := set_readbuf (Some rb) s in
  let maxlen := u32 (blk - buf_pos rb) in
  let* p := buf_getwriteptr rb maxlen in
  let '(res, sk) := sys_read sk maxlen in
  match res with
  | ReadData [] => Exit "Exited normally"
  | ReadAgain => Ok (false, s, sk)
  | ReadError => Exit "Error reading: %s"
  | ReadData bs =>
      let* rb := buf_overwrite rb p bs in
      let* rb := buf_incrwritepos rb (zlen bs) in
      if negb (zlen bs =? maxlen) then Ok (false, set_readbuf (Some rb) s, sk)
      else
        let* rb := buf_setpos rb 0 in
        let* (len, plen, rb, k) := packet_length s rb in
        let* _ := exit_if ((RECV_MAX_PACKET_LEN <? len) || (RECV_MAX_PACKET_LEN <? plen)
                           || (plen <? blk) || negb (plen mod blk =? 0))
                          "Integrity error (bad packet size %u)" in
        let* rb := if buf_size rb <? len then buf_resize junk rb len else Ok rb in
        let* rb := buf_setlen rb len in
        let* rb := buf_setpos rb blk in
        Ok (true, set_readbuf (Some rb) (set_recv k s), sk)
  end.

(** [Some] buffer when the MAC at the end of the packet is right. *)
Definition checkmac (rb : buffer) (s : pktses) : outcome (bool * buffer) :=
  let k := recv s in
  let mac_size := hashsize k in
  let contents_len := u32 (buf_len rb - mac_size) in
  let* rb := buf_setpos rb 0 in
  let* (mac_bytes, rb) := make_mac (recvseq s) k rb contents_len in
  let* rb := buf_setpos rb contents_len in
  let* theirs := buf_read rb mac_size in
  Ok (constant_time_memcmp (take (Z.to_nat mac_size) mac_bytes) theirs =? 0, rb).

(** Decryption in place and the MAC check. *)
Definition decrypt_crypt (s : pktses) (rb : buffer) : outcome (buffer * keydir) :=
  let k := recv s in
  let macsize := hashsize k in
  if aead k then
    let* rb := buf_setpos rb 0 in
    let len := u32 (buf_len rb - macsize - buf_pos rb) in
    let* input := buf_read rb (u32 (len + macsize)) in
    let* p := buf_getwriteptr rb len in
    match aead_decrypt (recvseq s) (cipher_state k) input len macsize with
    | None => Exit "Error decrypting"
    | Some (out, c) =>
        let* rb := buf_overwrite rb p out in
        let* rb := buf_incrpos rb len in
        Ok (rb, set_cipher_state c k)
    end
  else
    let* rb := buf_setpos rb (blocksize k) in
    let len := u32 (buf_len rb - macsize - buf_pos rb) in
    let* input := buf_read rb len in
    let* p := buf_getwriteptr rb len in
    match crypt_decrypt (cipher_state k) input with
    | None => Exit "Error decrypting"
    | Some (out, c) =>
        let* rb := buf_overwrite rb p out in
        let* rb := buf_incrpos rb len in
        let* (ok, rb) := checkmac rb s in
        let* _ := exit_if (negb ok) "Integrity error" in
        Ok (rb, set_cipher_state c k)
    end.

Definition decrypt_packet (s : pktses) : outcome pktses :=
  match readbuf s with
  | None => Undef
  | Some rb =>
      let macsize := hashsize (recv s) in
      let s := set_datarecv (u32 (datarecv s + buf_len rb)) s in
      let* (rb, k) := decrypt_crypt s rb in
      let s := set_recv k s in
      let* rb := buf_setpos rb PACKET_PADDING_OFF in
      let* (padlen, rb) := buf_getbyte rb in
      let len := u32 (buf_len rb - padlen - 4 - 1 - macsize) in
      let* _ := exit_if ((RECV_MAX_PAYLOAD_LEN + ZLIB_COMPRESS_EXPANSION <? len) || (len <? 1)) "Bad packet size %u" in
      let* rb := buf_setpos rb PACKET_PAYLOAD_OFF in
      let* s :=
        if is_compress_recv s then
          let* (pl, z) := buf_decompress rb len (zstream (recv s)) in
          let* pl := buf_setpos pl 0 in
          Ok (set_payload_beginning 0 (set_payload (Some pl) (set_recv (set_zstream z (recv s)) s)))
        else
          let* pl := buf_setlen rb (u32 (buf_pos rb + len)) in
          Ok (set_payload_beginning (buf_pos rb) (set_payload (Some pl) s)) in
      Ok (set_recvseq (u32 (recvseq s + 1)) (set_readbuf None s))
  end.

(** [read_packet], called when the session socket is readable. *)
Definition read_packet (junk : nat -> Z) (sk : SK) (s : pktses) : outcome (pktses * SK) :=
  let blk := blocksize (recv s) in
  let* (go, s, sk) :=
    match readbuf s with
    | Some rb => if buf_len rb <? blk then read_packet_init junk sk s else Ok (true, s, sk)
    | None => read_packet_init junk sk s
    end in
  if negb go then Ok (s, sk)
  else match readbuf s with
  | None => Undef
  | Some rb =>
      let maxlen := u32 (buf_len rb - buf_pos rb) in
      if maxlen =? 0 then let* s := decrypt_packet s in Ok (s, sk)
      else
        let* p := buf_getptr rb maxlen in
        let '(res, sk) := sys_read sk maxlen in
        match res with
        | ReadData [] => Exit "Exited normally"
        | ReadAgain => Ok (s, sk)
        | ReadError => Exit "Error reading: %s"
        | ReadData bs =>
            let* rb := buf_overwrite rb p bs in
            let* rb := buf_incrpos rb (zlen bs) in
            let s := set_readbuf (Some rb) s in
            if zlen bs =? maxlen then let* s := decrypt_packet s in Ok (s, sk) else Ok (s, sk)
        end
  end.
End packet.

Arguments keydir : clear implicits.
Arguments pktses : clear implicits.
