(* ===== verification/Transport.v ===== *)
(** * The packet layer carries payloads faithfully

    The two directions of packet.c against each other: what [encrypt_packet] puts on the
    wire, [read_packet] and [decrypt_packet] of the peer deliver, in order, byte for byte and
    however the network cuts the stream. The ciphers, the MACs and zlib are the [Crypto]
    class of Packet.v, with the laws [CryptoLaws] that the code relies on. *)

From S2P Require Import Prelude Bytes Buffer Packet.

(** ** What the packet code relies on

    [CR] relates an encrypting cipher state to the decrypting state in step with it, [ZR]
    a deflate stream to the inflate stream in step with it. *)
Class CryptoLaws {CS ZS} (C : Crypto CS ZS) (blk : Z) (CR : CS -> CS -> Prop) (ZR : ZS -> ZS -> Prop) := {
  crypt_inverse a b x : CR a b -> bytes_ok x -> zlen x mod blk = 0 ->
    exists y a' b', crypt_encrypt a x = Some (y, a') /\ zlen y = zlen x /\ bytes_ok y /\
      crypt_decrypt b y = Some (x, b') /\ CR a' b';
  crypt_stream a x1 x2 y a' : zlen x1 mod blk = 0 -> zlen x2 mod blk = 0 ->
    crypt_encrypt a (x1 ++ x2) = Some (y, a') ->
    exists y1 a1 y2, crypt_encrypt a x1 = Some (y1, a1) /\ crypt_encrypt a1 x2 = Some (y2, a') /\ y = y1 ++ y2;
  aead_inverse seq a x tag : bytes_ok x -> 4 <= zlen x -> (zlen x - 4) mod blk = 0 -> 0 <= tag ->
    exists y a', aead_encrypt seq a x tag = Some (y, a') /\ zlen y = zlen x + tag /\ bytes_ok y /\
      (forall b, CR a b -> exists b', aead_decrypt seq b y (zlen x) tag = Some (x, b') /\ CR a' b') /\
      (forall b, CR a b -> exists b1, aead_getlength seq b (take (Z.to_nat blk) y) = Some (load32h_bytes (take 4 x), b1) /\ CR a b1);
  hmac_total i k m : exists d, hmac i k m = Some d /\ zlen d = MAX_MAC_LEN /\ bytes_ok d;
  deflate_inverse a b x room : ZR a b -> bytes_ok x -> 1 <= zlen x <= RECV_MAX_PAYLOAD_LEN ->
    zlen x + ZLIB_COMPRESS_EXPANSION <= room ->
    exists y a' b', deflate a x room = (true, 0, y, a') /\ 1 <= zlen y <= zlen x + ZLIB_COMPRESS_EXPANSION /\ bytes_ok y /\
      inflate b y (RECV_MAX_PAYLOAD_LEN + 1) = (true, 0, x, b') /\ ZR a' b';
}.

Section correctness.
Context {CS ZS : Type} {C : Crypto CS ZS} {blk : Z} {CR : CS -> CS -> Prop} {ZR : ZS -> ZS -> Prop}.
Context {L : CryptoLaws C blk CR ZR}.
Context (Hblk : blk = 8 \/ blk = 16).

Abbreviation keydir := (keydir CS ZS).
Abbreviation pktses := (pktses CS ZS).

(** The two ends of one direction agree on everything but the cipher and zlib states,
    which are in step. *)
Record keys_linked (kt kr : keydir) : Prop := {
  kl_blk_t : blocksize kt = blk;
  kl_blk_r : blocksize kr = blk;
  kl_hash : hashsize kt = hashsize kr;
  kl_mac : 0 <= hashsize kt <= MAX_MAC_LEN;
  kl_hidx : hash_index kt = hash_index kr;
  kl_key : mackey kt = mackey kr;
  kl_aead : aead kt = aead kr;
  kl_cipher : CR (cipher_state kt) (cipher_state kr);
  kl_z : ZR (zstream kt) (zstream kr);
}.

(** ** The format of a packet *)

(** The clear text: length word, padding length, body, padding. *)
Definition frame (body pad : bytes) : bytes :=
  store32h (1 + zlen body + zlen pad) ++ [zlen pad] ++ body ++ pad.

(** RFC 4253 section 6: at least four bytes of padding, and the encrypted part a multiple
    of the block size. *)
Definition frame_ok (k : keydir) (body pad : bytes) : Prop :=
  bytes_ok body /\ bytes_ok pad /\ 4 <= zlen pad < 256 /\ MIN_PACKET_LEN <= zlen (frame body pad) /\
  (if aead k then zlen (frame body pad) - 4 else zlen (frame body pad)) mod blk = 0 /\
  1 <= zlen body <= TRANS_MAX_PAYLOAD_LEN + ZLIB_COMPRESS_EXPANSION.

(** The bytes on the wire for a frame, and the cipher state after it. *)
Definition wire (k : keydir) (seqno : Z) (fr w : bytes) (c' : CS) : Prop :=
  if aead k then aead_encrypt seqno (cipher_state k) fr (hashsize k) = Some (w, c')
  else exists y m, crypt_encrypt (cipher_state k) fr = Some (y, c') /\
    (0 < hashsize k -> hmac (hash_index k) (mackey k) (store32h seqno ++ fr) = Some m) /\
    (hashsize k = 0 -> m = []) /\
    w = y ++ take (Z.to_nat (hashsize k)) m.

Lemma frame_zlen body pad : zlen (frame body pad) = 5 + zlen body + zlen pad.
Proof. unfold frame. rewrite !zlen_app. change (zlen (store32h _)) with 4. change (zlen [_]) with 1. lia. Qed.

Lemma frame_bytes body pad : bytes_ok body -> bytes_ok pad -> zlen pad < 256 -> bytes_ok (frame body pad).
Proof.
  intros. unfold frame, bytes_ok. rewrite !Forall_app, Forall_singleton. split_and!; try done; [apply store32h_ok|].
  pose proof (zlen_nonneg pad). unfold is_byte. lia.
Qed.

Lemma padding_len_ok (ae : bool) n :
  6 <= n <= 1000000 ->
  let p := padding_len blk (if ae then n - 4 else n) n in
  4 <= p < 256 /\ MIN_PACKET_LEN <= n + p /\ (if ae then n + p - 4 else n + p) mod blk = 0 /\
  p <= Z.max MIN_PACKET_LEN blk + 3.
Proof.
  unfold padding_len, MIN_PACKET_LEN, u8. intros Hn.
  destruct Hblk as [-> | ->], ae; repeat match goal with
  | |- context [?a <? ?b] => destruct (Z.ltb_spec a b)
  end; lia.
Qed.

(** [view_go H] consumes the next buffer operation with the view lemma [H]. *)
Ltac view_go H := let b := fresh "b" in let Hv := fresh "Hv" in
  destruct H as (b & -> & Hv); cbn [obind].

Lemma view_overwrite b bs p sz q x : view b bs p sz -> bytes_ok x -> 0 <= q -> q + zlen x <= zlen bs ->
  exists b', buf_overwrite b q x = Ok b' /\ view b' (blit bs q x) p sz.
Proof.
  intros Hv Hx Hq Hsz. destruct (view_memwrite b bs p sz q x Hv Hx Hq Hsz) as (d & Hd & Hv').
  unfold buf_overwrite. rewrite Hd. by eexists.
Qed.

Lemma encrypt_body_ok s kr wb wp p sz sz' :
  keys_linked (trans s) kr -> view wp p 0 sz -> view wb (replicate 5 0) 5 sz' ->
  1 <= zlen p <= TRANS_MAX_PAYLOAD_LEN -> 5 + zlen p + ZLIB_COMPRESS_EXPANSION <= sz' ->
  exists wb' wp' body z' q,
    encrypt_body s wb wp = Ok (wb', wp', set_zstream z' (trans s)) /\
    view wp' p q sz /\ view wb' (replicate 5 0 ++ body) (5 + zlen body) sz' /\
    1 <= zlen body <= zlen p + ZLIB_COMPRESS_EXPANSION /\
    (if is_compress_trans s then
       exists zr', inflate (zstream kr) body (RECV_MAX_PAYLOAD_LEN + 1) = (true, 0, p, zr') /\ ZR z' zr'
     else body = p /\ z' = zstream (trans s)).
Proof.
  intros Hk Hp Hb Hl Hsz. unfold encrypt_body. pose proof (view_len _ _ _ _ Hp) as Hlp. rewrite Hlp.
  pose proof (view_len _ _ _ _ Hb) as Hlb. pose proof (view_bounds _ _ _ _ Hb) as Hbb. change (zlen (replicate 5 0)) with 5 in *.
  pose proof (view_bytes _ _ _ _ Hp) as Hok. pose proof (view_bounds _ _ _ _ Hp) as Hpb.
  unfold TRANS_MAX_PAYLOAD_LEN, BUF_MAX_SIZE, ZLIB_COMPRESS_EXPANSION, RECV_MAX_PAYLOAD_LEN in *.
  destruct (is_compress_trans s) eqn:Hcomp.
  - destruct (deflate_inverse (zstream (trans s)) (zstream kr) p (sz' - 5)) as (y & z' & zr' & Hd & Hy & Hyok & Hi & HZ);
      [by apply Hk|done|unfold RECV_MAX_PAYLOAD_LEN; lia|unfold ZLIB_COMPRESS_EXPANSION, RECV_MAX_PAYLOAD_LEN; lia|].
    unfold ZLIB_COMPRESS_EXPANSION, RECV_MAX_PAYLOAD_LEN in Hy.
    unfold buf_compress. destruct Hp as [Hpw Hpu Hpp Hps] eqn:Hp'. rewrite Hpp. clear Hp'.
    destruct Hb as [Hbw Hbu Hbp Hbs] eqn:Hb'. rewrite Hbp, Hbs. clear Hb'.
    rewrite Z.add_0_l, Z.sub_0_r, !u32_small by (unfold ZLIB_COMPRESS_EXPANSION, RECV_MAX_PAYLOAD_LEN; rewrite ?u32_small; lia).
    rewrite (proj2 (Z.leb_le _ _)) by (unfold ZLIB_COMPRESS_EXPANSION, RECV_MAX_PAYLOAD_LEN; lia). cbn [oassert obind].
    rewrite (view_read _ _ _ _ (zlen p) Hp), sub_all by lia. cbn [obind].
    rewrite (view_getwriteptr _ _ _ _ (sz' - 5) Hb) by lia. cbn [obind]. rewrite Hd. cbn beta iota.
    destruct (view_memwrite_setlen wb (replicate 5 0) sz' y Hb Hyok) as (d & wb1 & Hmw & Hset & Hv1);
      [change (zlen (replicate 5 0)) with 5; lia|]. change (zlen (replicate 5 0)) with 5 in *.
    unfold buf_overwrite. rewrite Hmw. cbn [obind].
    rewrite Z.sub_0_r, (u32_small (zlen p)) by lia. view_go (view_setpos _ _ _ _ (zlen p) Hp ltac:(lia)). cbn [buf_size]. rewrite Hbs.
    replace (u32 (sz' - (sz' - 5 - zlen y))) with (5 + zlen y) by (rewrite u32_small; lia).
    rewrite Hbs in Hset. rewrite Hset. cbn [obind]. rewrite (view_len _ _ _ _ Hv1), zlen_app. change (zlen (replicate 5 0)) with 5.
    view_go (view_setpos _ _ _ _ (5 + zlen y) Hv1 ltac:(rewrite zlen_app; change (zlen (replicate 5 0)) with 5; lia)).
    cbn [negb exit_if obind oassert Z.eqb]. eexists _, _, y, z', _. split; [done|]. split_and!; [done|done|lia|lia|].
    by exists zr'.
  - rewrite (view_read _ _ _ _ (zlen p) Hp), sub_all by lia. cbn [obind]. rewrite buf_putbytes_bind.
    view_go (view_putbytes _ _ _ _ p Hb Hok ltac:(lia)).
    eexists _, _, p, (zstream (trans s)), _. split; [by destruct (trans s)|]. split_and!; [done| |lia|lia|done|done].
    change 5 with (zlen (replicate 5 0)) in Hv at 2. by rewrite blit_end in Hv.
Qed.

Lemma header_blit body v p :
  blit (blit (replicate 5 0 ++ body) 0 (store32h v)) 4 [p] = store32h v ++ [p] ++ body.
Proof. reflexivity. Qed.

Lemma encrypt_frame_ok k rng wb body sz :
  blocksize k = blk -> view wb (replicate 5 0 ++ body) (5 + zlen body) sz ->
  1 <= zlen body <= TRANS_MAX_PAYLOAD_LEN + ZLIB_COMPRESS_EXPANSION ->
  5 + zlen body + Z.max MIN_PACKET_LEN blk + 3 <= sz ->
  exists wb' pad,
    encrypt_frame k rng wb = Ok (wb', zlen pad) /\ view wb' (frame body pad) (5 + zlen body) sz /\ frame_ok k body pad /\
    zlen pad <= Z.max MIN_PACKET_LEN blk + 3.
Proof.
  intros Hkb Hv Hbody Hsz. pose proof (view_len _ _ _ _ Hv) as Hl. pose proof (view_bounds _ _ _ _ Hv) as Hbd.
  pose proof (view_bytes _ _ _ _ Hv) as Hok. apply Forall_app in Hok as [_ Hbok].
  rewrite zlen_app in *. change (zlen (replicate 5 0)) with 5 in *.
  unfold TRANS_MAX_PAYLOAD_LEN, ZLIB_COMPRESS_EXPANSION, RECV_MAX_PAYLOAD_LEN, BUF_MAX_SIZE in *.
  unfold encrypt_frame. rewrite Hl, Hkb.
  destruct (padding_len_ok (aead k) (5 + zlen body) ltac:(lia)) as (Hp1 & Hp2 & Hp3 & Hp4).
  replace (if aead k then u32 (5 + zlen body - 4) else 5 + zlen body)
    with (if aead k then 5 + zlen body - 4 else 5 + zlen body) by (destruct (aead k); rewrite ?u32_small; lia).
  set (padlen := padding_len blk _ _) in *.
  set (pad := map (fun i => u8 (genrandom (rng + i))) (seq 0 (Z.to_nat padlen))).
  assert (Hpl : zlen pad = padlen) by (unfold pad, zlen; rewrite length_map, length_seq; lia).
  assert (Hpok : bytes_ok pad) by (apply Forall_map, Forall_true; intros; apply u8_range).
  view_go (view_setpos _ _ _ _ 0 Hv ltac:(rewrite zlen_app; change (zlen (replicate 5 0)) with 5; lia)).
  rewrite (view_len _ _ _ _ Hv0), zlen_app. change (zlen (replicate 5 0)) with 5.
  view_go (view_putint _ _ _ _ (u32 (5 + zlen body + padlen - 4)) Hv0 ltac:(lia)).
  view_go (view_putbyte _ _ _ _ padlen Hv1 ltac:(unfold is_byte; lia) ltac:(lia)).
  rewrite Z.add_0_l, header_blit in Hv2.
  set (h := store32h (u32 (5 + zlen body + padlen - 4)) ++ [padlen] ++ body) in *.
  assert (Hh : zlen h = 5 + zlen body) by (unfold h; rewrite !zlen_app; change (zlen (store32h _)) with 4; change (zlen [_]) with 1; lia).
  rewrite (view_len _ _ _ _ Hv2). view_go (view_setpos _ _ _ _ (zlen h) Hv2 ltac:(lia)).
  destruct (view_incrlen _ _ _ _ padlen Hv3) as (b4 & ext & -> & Hv4 & Hext); [lia|lia|]. cbn [obind].
  rewrite (view_getptr _ _ _ _ padlen Hv4) by (rewrite ?zlen_app; lia). cbn [obind].
  view_go (view_overwrite _ _ _ _ (zlen h) pad Hv4 Hpok ltac:(lia) ltac:(rewrite zlen_app; lia)).
  assert (Hfr : blit (h ++ ext) (zlen h) pad = frame body pad).
  { rewrite <- (Z.add_0_r (zlen h)), blit_app_r, blit_all by lia. unfold h, frame. rewrite Hpl, u32_small by lia.
    replace (5 + zlen body + padlen - 4) with (1 + zlen body + padlen) by lia. by rewrite <- !app_assoc. }
  rewrite Hfr, Hh in Hv5. exists b3, pad. rewrite Hpl. split; [done|]. split; [done|]. split; [|done].
  unfold frame_ok. rewrite frame_zlen, Hpl. unfold TRANS_MAX_PAYLOAD_LEN, ZLIB_COMPRESS_EXPANSION, RECV_MAX_PAYLOAD_LEN, MIN_PACKET_LEN in *.
  split_and!; try done; try lia.
Qed.

Lemma make_mac_prefix_ok seqno k wb fr x p sz :
  0 <= hashsize k <= MAX_MAC_LEN -> view wb (fr ++ x) p sz ->
  exists m wb' q, make_mac seqno k wb (zlen fr) = Ok (m, wb') /\ view wb' (fr ++ x) q sz /\
    (0 < hashsize k -> hmac (hash_index k) (mackey k) (store32h seqno ++ fr) = Some m) /\
    (hashsize k = 0 -> m = []) /\
    bytes_ok (take (Z.to_nat (hashsize k)) m) /\ zlen (take (Z.to_nat (hashsize k)) m) = hashsize k.
Proof.
  intros Hm Hv. pose proof (view_bounds _ _ _ _ Hv). unfold make_mac.
  pose proof (zlen_nonneg fr). pose proof (zlen_nonneg x). destruct (Z.ltb_spec 0 (hashsize k)).
  - view_go (view_setpos _ _ _ _ 0 Hv ltac:(lia)). rewrite (view_read _ _ _ _ (zlen fr) Hv0) by (rewrite ?zlen_app; lia).
    rewrite sub_app_l, sub_all by lia. cbn [obind].
    destruct (hmac_total (hash_index k) (mackey k) (store32h seqno ++ fr)) as (d & Hd & Hdl & Hdok). rewrite Hd.
    eexists d, b, 0. split_and!; try done; [lia|by apply Forall_take|]. apply zlen_take. lia.
  - assert (hashsize k = 0) as -> by lia. eexists [], wb, p. split_and!; try done. constructor.
Qed.

Lemma make_mac_ok seqno k wb fr p sz :
  0 <= hashsize k <= MAX_MAC_LEN -> view wb fr p sz ->
  exists m wb' q, make_mac seqno k wb (zlen fr) = Ok (m, wb') /\ view wb' fr q sz /\
    (0 < hashsize k -> hmac (hash_index k) (mackey k) (store32h seqno ++ fr) = Some m) /\
    (hashsize k = 0 -> m = []) /\
    bytes_ok (take (Z.to_nat (hashsize k)) m) /\ zlen (take (Z.to_nat (hashsize k)) m) = hashsize k.
Proof.
  intros Hm Hv. rewrite <- (app_nil_r fr) in Hv.
  destruct (make_mac_prefix_ok seqno k wb fr [] p sz Hm Hv) as (m & wb' & q & ?). rewrite app_nil_r in *. by exists m, wb', q.
Qed.

Lemma encrypt_crypt_ok seqno k kr wb body pad p sz :
  keys_linked k kr -> frame_ok k body pad -> view wb (frame body pad) p sz -> zlen (frame body pad) + hashsize k <= sz ->
  exists wb' w c', encrypt_crypt seqno k wb = Ok (wb', set_cipher_state c' k) /\
    wire k seqno (frame body pad) w c' /\ view wb' w (zlen w) sz.
Proof.
  intros Hk (Hbok & Hpok & Hpad & Hmin & Hmod & Hbl) Hv Hsz. pose proof (view_bounds _ _ _ _ Hv) as Hb.
  pose proof (view_len _ _ _ _ Hv) as Hl. pose proof (view_bytes _ _ _ _ Hv) as Hok. pose proof (kl_mac _ _ Hk) as Hmac.
  unfold MAX_MAC_LEN, MIN_PACKET_LEN, BUF_MAX_SIZE in *. set (fr := frame body pad) in *.
  unfold encrypt_crypt, wire. destruct (aead k) eqn:Hae.
  - destruct (aead_inverse seqno (cipher_state k) fr (hashsize k) Hok) as (y & c' & Henc & Hy & Hyok & _); [lia|done|lia|].
    view_go (view_setpos _ _ _ _ 0 Hv ltac:(lia)). rewrite (view_len _ _ _ _ Hv0).
    destruct (view_incrlen _ _ _ _ (hashsize k) Hv0) as (b1 & ext & -> & Hv1 & Hext); [lia|lia|]. cbn [obind].
    rewrite (view_read _ _ _ _ (zlen fr) Hv1) by (rewrite ?zlen_app; lia). cbn [obind].
    rewrite sub_app_l, sub_all by lia. rewrite u32_small by lia.
    rewrite (view_getwriteptr _ _ _ _ _ Hv1) by lia. cbn [obind]. rewrite Henc.
    view_go (view_overwrite _ _ _ _ 0 y Hv1 Hyok ltac:(lia) ltac:(rewrite zlen_app; lia)).
    rewrite blit_all in Hv2 by (rewrite zlen_app; lia).
    view_go (view_incrpos _ _ _ _ (zlen fr + hashsize k) Hv2 ltac:(lia) ltac:(lia)).
    eexists _, y, c'. split; [done|]. split; [done|]. by replace (zlen y) with (0 + (zlen fr + hashsize k)) by lia.
  - rewrite Hl. destruct (make_mac_ok seqno k wb fr p sz Hmac Hv) as (m & b1 & q & -> & Hv1 & Hm1 & Hm2 & Hm3 & Hm4). cbn [obind].
    view_go (view_setpos _ _ _ _ 0 Hv1 ltac:(lia)). rewrite (view_len _ _ _ _ Hv0).
    rewrite (view_read _ _ _ _ (zlen fr) Hv0), sub_all by lia. cbn [obind].
    rewrite (view_getwriteptr _ _ _ _ _ Hv0) by lia. cbn [obind].
    destruct (crypt_inverse (cipher_state k) (cipher_state kr) fr (kl_cipher _ _ Hk) Hok Hmod) as (y & c' & _ & Henc & Hy & Hyok & _).
    rewrite Henc. view_go (view_overwrite _ _ _ _ 0 y Hv0 Hyok ltac:(lia) ltac:(lia)). rewrite blit_all in Hv2 by lia.
    view_go (view_incrpos _ _ _ _ (zlen fr) Hv2 ltac:(lia) ltac:(lia)).
    destruct (view_putbytes _ _ _ _ _ Hv3 Hm3) as (b4 & Hput & Hv4); [lia|]. rewrite Hm4 in Hput, Hv4. rewrite Hput. cbn [obind].
    exists b4, (y ++ take (Z.to_nat (hashsize k)) m), c'. split; [done|]. split; [by exists y, m|].
    rewrite zlen_app, Hm4, Hy. rewrite Z.add_0_l, <- Hy, blit_end, Hy in Hv4. done.
Qed.

(** What one [encrypt_packet] of the payload [p] does to the session: a packet at the end of
    the queue, whose frame carries [p] (compressed or not), with the next sequence number. *)
Record sent (p : bytes) (kr : keydir) (s s' : pktses) (body pad w : bytes) : Prop := {
  sent_body : if is_compress_trans s then
      exists zr', inflate (zstream kr) body (RECV_MAX_PAYLOAD_LEN + 1) = (true, 0, p, zr') /\ ZR (zstream (trans s')) zr'
    else body = p /\ zstream (trans s') = zstream (trans s);
  sent_frame : frame_ok (trans s) body pad;
  sent_wire : wire (trans s) (transseq s) (frame body pad) w (cipher_state (trans s'));
  sent_queue : exists wb sz, writequeue s' = writequeue s ++ [wb] /\ view wb w 0 sz;
  sent_keys : trans s' = set_cipher_state (cipher_state (trans s')) (set_zstream (zstream (trans s')) (trans s));
  sent_seq : transseq s' = u32 (transseq s + 1);
  sent_payload : exists sz, view (writepayload s') [] 0 sz /\ sz = buf_size (writepayload s);
  sent_auth : authdone s' = authdone s;
  sent_allowed : dataallowed s' = dataallowed s;
}.

Lemma encrypt_packet_ok now s kr t rest q sz :
  keys_linked (trans s) kr -> view (writepayload s) (t :: rest) q sz ->
  zlen (t :: rest) <= TRANS_MAX_PAYLOAD_LEN ->
  dataallowed s || packet_is_okay_kex t = true ->
  exists s' body pad w, encrypt_packet now s = Ok s' /\ sent (t :: rest) kr s s' body pad w.
Proof.
  intros Hk Hv Hlen Hgo. pose proof (view_bounds _ _ _ _ Hv) as Hb. pose proof (zlen_cons t rest) as Hc.
  pose proof (zlen_nonneg rest). pose proof (kl_mac _ _ Hk) as Hmac. pose proof (kl_blk_t _ _ Hk) as Hkb.
  unfold encrypt_packet. unfold TRANS_MAX_PAYLOAD_LEN, MAX_MAC_LEN in *.
  view_go (view_setpos _ _ _ _ 0 Hv ltac:(lia)). view_go (view_getbyte _ _ _ _ t Hv0 eq_refl).
  view_go (view_setpos _ _ _ _ 0 Hv1 ltac:(lia)). cbn [dataallowed trans set_writepayload].
  replace (negb (dataallowed s) && negb (packet_is_okay_kex t)) with false
    by (destruct (dataallowed s), (packet_is_okay_kex t); done).
  rewrite (view_len _ _ _ _ Hv2), Hkb. set (p := t :: rest) in *. cbn [trans].
  set (sz' := u32 _). assert (Hsz' : sz' = zlen p + 5 + Z.max MIN_PACKET_LEN blk + 3 + hashsize (trans s) + ZLIB_COMPRESS_EXPANSION + 1).
  { unfold sz', ZLIB_COMPRESS_EXPANSION, RECV_MAX_PAYLOAD_LEN, MIN_PACKET_LEN. rewrite u32_small by lia. cbn [trans]. lia. }
  destruct (view_new_zeros sz' 5) as (wb0 & wb1 & -> & Hset & Hw1);
    [rewrite Hsz'; unfold ZLIB_COMPRESS_EXPANSION, RECV_MAX_PAYLOAD_LEN, MIN_PACKET_LEN, BUF_MAX_SIZE; lia..|].
  cbn [obind]. unfold PACKET_PAYLOAD_OFF. rewrite Hset. cbn [obind]. change (replicate (Z.to_nat 5) 0) with (replicate 5 0) in *.
  view_go (view_setpos _ _ _ _ 5 Hw1 ltac:(change (zlen (replicate 5 0)) with 5; lia)).
  destruct (encrypt_body_ok (set_writepayload b1 s) kr b2 b1 p sz sz' Hk Hv2 Hv3)
    as (wb2 & wp2 & body & z' & q2 & -> & Hwp2 & Hwb2 & Hbl & Hbody);
    [unfold TRANS_MAX_PAYLOAD_LEN; lia|rewrite Hsz'; unfold MIN_PACKET_LEN; lia|]. cbn [obind].
  view_go (view_setpos _ _ _ _ 0 Hwp2 ltac:(lia)).
  destruct (view_setlen _ _ _ _ 0 Hv4 ltac:(lia)) as (wp3 & ext & -> & Hwp3 & Hext). cbn [obind].
  destruct (encrypt_frame_ok (set_zstream z' (trans s)) (rng_used s) wb2 body sz' Hkb Hwb2)
    as (wb3 & pad & Hfr & Hwb3 & Hfok & Hpadmax); [unfold TRANS_MAX_PAYLOAD_LEN; lia|rewrite Hsz'; lia|].
  change (trans (set_writepayload b1 s)) with (trans s). change (rng_used (set_writepayload b1 s)) with (rng_used s).
  rewrite Hfr. cbn [obind]. change (transseq (set_rng_used _ _)) with (transseq s).
  assert (Hz : exists zr', ZR z' zr').
  { destruct (is_compress_trans _); [naive_solver|]. destruct Hbody as [_ ->]. exists (zstream kr). by apply Hk. }
  destruct Hz as [zr' Hz].
  assert (Hk' : keys_linked (set_zstream z' (trans s)) (set_zstream zr' kr)) by (destruct Hk; by split).
  destruct (encrypt_crypt_ok (transseq s) _ _ wb3 body pad (5 + zlen body) sz' Hk' Hfok Hwb3)
    as (wb4 & w & c' & Hcr & Hwire & Hwb4); [rewrite frame_zlen; cbn [hashsize set_zstream]; lia|].
  rewrite Hcr. cbn [obind]. unfold writebuf_enqueue.
  pose proof (view_bounds _ _ _ _ Hwb4). view_go (view_setpos _ _ _ _ 0 Hwb4 ltac:(lia)).
  eexists _, body, pad, w. split; [done|].
  destruct (negb (t =? SSH_MSG_REQUEST_FAILURE) && _ && _); split; try done; cbn.
  1,3: by eexists _, _.
  all: exists sz; split; [|by destruct Hv].
  all: destruct ext; [exact Hwp3|rewrite zlen_cons in Hext; pose proof (zlen_nonneg ext); lia].
Qed.

(** ** Receiving a packet *)

(** The bytes of a packet in the read buffer once it is complete. *)
Definition assembled (blk : Z) (first w : bytes) : bytes := first ++ drop (Z.to_nat blk) w.

Lemma assembled_step w first got x bs b :
  0 <= b -> zlen first = b -> b <= got -> zlen bs = zlen w -> got + zlen x <= zlen w ->
  take (Z.to_nat got) w ++ x = take (Z.to_nat (got + zlen x)) w ->
  take (Z.to_nat got) bs = take (Z.to_nat got) (assembled b first w) ->
  take (Z.to_nat (got + zlen x)) (blit bs got x) = take (Z.to_nat (got + zlen x)) (assembled b first w).
Proof.
  intros Hb Hf Hg Hl Hx Hw Htk. pose proof (zlen_nonneg x). unfold blit.
  rewrite app_assoc, take_app_length' by (rewrite length_app, length_take; unfold zlen in *; lia).
  rewrite Htk. unfold assembled. rewrite !take_app_ge by (unfold zlen in *; lia). rewrite <- app_assoc. f_equal.
  rewrite !take_drop_commute. replace (length first) with (Z.to_nat b) by (unfold zlen in *; lia).
  replace (Z.to_nat b + (Z.to_nat got - Z.to_nat b))%nat with (Z.to_nat got) by lia.
  replace (Z.to_nat b + (Z.to_nat (got + zlen x) - Z.to_nat b))%nat with (Z.to_nat (got + zlen x)) by lia.
  rewrite <- Hw, drop_app_le; [done|]. rewrite length_take. unfold zlen in *. lia.
Qed.

(** The cipher state [c1] and first block [first] that [packet_length] leaves, as what
    remains to be decrypted. *)
Definition mid (kt kr : keydir) (seqno : Z) (fr w : bytes) (c' c1 : CS) (first : bytes) : Prop :=
  if aead kt then first = take (Z.to_nat blk) w /\
    exists c2, aead_decrypt seqno c1 w (zlen fr) (hashsize kt) = Some (fr, c2) /\ CR c' c2
  else first = take (Z.to_nat blk) fr /\
    exists c2, crypt_decrypt c1 (sub w blk (zlen fr - blk)) = Some (drop (Z.to_nat blk) fr, c2) /\ CR c' c2.

Lemma wire_zlen kt kr seqno body pad w c' : keys_linked kt kr -> frame_ok kt body pad -> wire kt seqno (frame body pad) w c' ->
  zlen w = zlen (frame body pad) + hashsize kt /\ bytes_ok w.
Proof.
  intros Hk (Hbok & Hpok & Hpad & Hmin & Hmod & Hbl) Hw. pose proof (kl_mac _ _ Hk) as Hmac.
  pose proof (frame_bytes _ _ Hbok Hpok ltac:(lia)) as Hok. unfold wire, MIN_PACKET_LEN, MAX_MAC_LEN in *. destruct (aead kt).
  - destruct (aead_inverse seqno (cipher_state kt) (frame body pad) (hashsize kt) Hok) as (y & a' & He & ? & ? & _); [lia|done|lia|].
    rewrite Hw in He. by injection He as <- <-.
  - destruct Hw as (y & m & He & Hm1 & Hm2 & ->).
    destruct (crypt_inverse _ _ _ (kl_cipher _ _ Hk) Hok Hmod) as (y' & a' & b' & He' & Hy & Hyok & _).
    rewrite He in He'. injection He' as <- <-. destruct (Z.eq_dec (hashsize kt) 0) as [Hz|Hne].
    + rewrite (Hm2 Hz), Hz, take_nil, app_nil_r. change (zlen []) with 0. split; [lia|done].
    + destruct (hmac_total (hash_index kt) (mackey kt) (store32h seqno ++ frame body pad)) as (d & Hd & Hdl & Hdok).
      rewrite Hm1 in Hd by lia. injection Hd as ->. unfold MAX_MAC_LEN in *. split.
      * rewrite zlen_app, Hy, zlen_take; lia.
      * apply Forall_app; split; [done|by apply Forall_take].
Qed.

Lemma frame_length_word body pad : bytes_ok body -> 1 <= zlen body <= 1000000 -> 4 <= zlen pad < 256 ->
  load32h_bytes (take 4 (frame body pad)) = zlen (frame body pad) - 4.
Proof.
  intros. rewrite frame_zlen. unfold frame. rewrite take_app_length' by done. rewrite load_store32h by (unfold is_u32; lia). lia.
Qed.

Lemma packet_length_ok s kt seqno body pad w c' rb sz :
  keys_linked kt (recv s) -> recvseq s = seqno -> frame_ok kt body pad -> wire kt seqno (frame body pad) w c' ->
  view rb (take (Z.to_nat blk) w) 0 sz -> blk <= sz ->
  exists plen rb' q c1 first,
    packet_length s rb = Ok (zlen w, plen, rb', set_cipher_state c1 (recv s)) /\
    view rb' first q sz /\ zlen first = blk /\ mid kt (recv s) seqno (frame body pad) w c' c1 first /\
    blk <= plen <= zlen w /\ plen mod blk = 0.
Proof.
  intros Hk Hseq Hf Hw Hv Hsz. destruct (wire_zlen _ _ _ _ _ _ _ Hk Hf Hw) as [Hwl Hwok].
  destruct Hf as (Hbok & Hpok & Hpad & Hmin & Hmod & Hbl). pose proof (kl_mac _ _ Hk) as Hmac. pose proof (kl_hash _ _ Hk) as Hhash.
  pose proof (frame_bytes _ _ Hbok Hpok ltac:(lia)) as Hok.
  assert (Hword := frame_length_word body pad Hbok).
  unfold TRANS_MAX_PAYLOAD_LEN, ZLIB_COMPRESS_EXPANSION, RECV_MAX_PAYLOAD_LEN, MIN_PACKET_LEN, MAX_MAC_LEN in *.
  specialize (Hword ltac:(lia) ltac:(lia)). assert (Hfz := frame_zlen body pad). set (fr := frame body pad) in *.
  assert (Hfb : blk <= zlen fr) by (destruct (aead kt), Hblk as [-> | ->]; lia).
  assert (Htw : zlen (take (Z.to_nat blk) w) = blk) by (apply zlen_take; lia).
  assert (Hsub : sub (take (Z.to_nat blk) w) 0 blk = take (Z.to_nat blk) w) by (etransitivity; [|apply sub_all]; by rewrite Htw).
  unfold packet_length, mid, wire in *. rewrite <- (kl_aead _ _ Hk), (kl_blk_r _ _ Hk), <- Hhash.
  rewrite (view_read _ _ _ _ blk Hv) by lia. cbn [obind]. rewrite Hsub. destruct (aead kt).
  - destruct (aead_inverse seqno (cipher_state kt) fr (hashsize kt) Hok) as (y & a' & He & Hy & Hyok & Hdec & Hgl); [lia|done|lia|].
    rewrite Hw in He. injection He as <- <-.
    destruct (Hgl _ (kl_cipher _ _ Hk)) as (c1 & Hc1 & HR). rewrite Hseq, Hc1, Hword. destruct (Hdec _ HR) as (c2 & Hc2 & HR2).
    eexists _, rb, 0, c1, (take (Z.to_nat blk) w). rewrite u32_small by lia.
    split_and!; [do 4 f_equal; lia|done|done|done|by exists c2|..]; destruct Hblk as [-> | ->]; lia.
  - rewrite (view_getwriteptr _ _ _ _ blk Hv) by lia. cbn [obind]. destruct Hw as (y & m & He & _ & _ & Hw).
    assert (Hsplit : fr = take (Z.to_nat blk) fr ++ drop (Z.to_nat blk) fr) by (by rewrite take_drop).
    assert (Hm1 : zlen (take (Z.to_nat blk) fr) mod blk = 0).
    { rewrite take_sub, zlen_sub by lia. apply Z.mod_same. lia. }
    assert (Hm2 : zlen (drop (Z.to_nat blk) fr) mod blk = 0).
    { unfold zlen in *. rewrite length_drop. destruct Hblk as [-> | ->]; lia. }
    rewrite Hsplit in He. destruct (crypt_stream _ _ _ _ _ Hm1 Hm2 He) as (y1 & a1 & y2 & He1 & He2 & Hy).
    destruct (crypt_inverse _ _ _ (kl_cipher _ _ Hk) (Forall_take _ _ _ Hok) Hm1) as (y1' & a1' & c1 & He1' & Hy1 & Hy1ok & Hd1 & HR1).
    rewrite He1 in He1'. injection He1' as <- <-.
    destruct (crypt_inverse _ _ _ HR1 (Forall_drop _ _ _ Hok) Hm2) as (y2' & a2' & c2 & He2' & Hy2 & Hy2ok & Hd2 & HR2).
    rewrite He2 in He2'. injection He2' as <- <-.
    assert (Hy1l : zlen y1 = blk) by (rewrite Hy1, take_sub, zlen_sub by lia; done).
    assert (Hy2l : zlen y2 = zlen fr - blk) by (rewrite Hy2; unfold zlen in *; rewrite length_drop; lia).
    assert (Hwy : w = y1 ++ y2 ++ take (Z.to_nat (hashsize kt)) m) by (rewrite Hw, Hy; by rewrite <- app_assoc).
    assert (Htw1 : take (Z.to_nat blk) w = y1) by (rewrite Hwy, take_app_length' by (unfold zlen in *; lia); done).
    rewrite Htw1 in *. rewrite Hd1.
    view_go (view_overwrite _ _ _ _ 0 (take (Z.to_nat blk) fr) Hv (Forall_take _ _ _ Hok) ltac:(lia) ltac:(lia)).
    assert (Hfl : zlen (take (Z.to_nat blk) fr) = blk) by congruence.
    rewrite blit_all in Hv0 by lia. view_go (view_getint _ _ _ _ Hv0 ltac:(destruct Hblk as [-> | ->]; lia)).
    assert (sub (take (Z.to_nat blk) fr) 0 4 = take 4 fr) as ->.
    { unfold sub. rewrite drop_0, take_take. f_equal. destruct Hblk as [-> | ->]; reflexivity. }
    rewrite Hword. eexists _, b0, _, c1, (take (Z.to_nat blk) fr).
    rewrite (u32_small (zlen fr - 4 + 4)), u32_small by lia.
    split_and!; [do 4 f_equal; lia|exact Hv1|done|done| |destruct Hblk as [-> | ->]; lia..].
    exists c2. split; [|done]. assert (sub w blk (zlen fr - blk) = y2) as ->; [|done].
    rewrite Hwy, <- Hy2l, <- Hy1l, sub_app_r_at, sub_app_l, sub_all by lia. done.
Qed.

(** The MAC half of [keys_linked]. *)
Definition mac_linked (kt kr : keydir) : Prop :=
  0 <= hashsize kt <= MAX_MAC_LEN /\ hashsize kt = hashsize kr /\ hash_index kt = hash_index kr /\ mackey kt = mackey kr.

Lemma checkmac_ok s kt rb seqno fr m p sz :
  mac_linked kt (recv s) -> recvseq s = seqno ->
  (0 < hashsize kt -> hmac (hash_index kt) (mackey kt) (store32h seqno ++ fr) = Some m) -> (hashsize kt = 0 -> m = []) ->
  zlen (take (Z.to_nat (hashsize kt)) m) = hashsize kt ->
  view rb (fr ++ take (Z.to_nat (hashsize kt)) m) p sz ->
  exists rb' q, checkmac rb s = Ok (true, rb') /\ view rb' (fr ++ take (Z.to_nat (hashsize kt)) m) q sz.
Proof.
  intros (Hmac & Hk' & Hhi & Hkey) Hseq Hm1 Hm2 Hl Hv. pose proof (view_bounds _ _ _ _ Hv). symmetry in Hk'.
  pose proof (view_len _ _ _ _ Hv) as Hbl. pose proof (zlen_nonneg fr). rewrite zlen_app, Hl in *. unfold BUF_MAX_SIZE in *.
  unfold checkmac. rewrite Hk', Hbl, u32_small by lia. replace (zlen fr + hashsize kt - hashsize kt) with (zlen fr) by lia.
  view_go (view_setpos _ _ _ _ 0 Hv ltac:(rewrite zlen_app; lia)).
  destruct (make_mac_prefix_ok (recvseq s) (recv s) b fr _ 0 sz ltac:(by rewrite Hk') Hv0) as (m' & b1 & q & -> & Hv1 & Hm1' & Hm2' & _).
  cbn [obind]. view_go (view_setpos _ _ _ _ (zlen fr) Hv1 ltac:(rewrite zlen_app; lia)).
  rewrite (view_read _ _ _ _ (hashsize kt) Hv2) by (rewrite ?zlen_app; lia). cbn [obind].
  set (mac := take (Z.to_nat (hashsize kt)) m) in *.
  assert (sub (fr ++ mac) (zlen fr) (hashsize kt) = mac) as ->.
  { rewrite sub_app_r_at. etransitivity; [|apply sub_all]. by rewrite Hl. }
  exists b0, (zlen fr). split; [|done]. do 2 f_equal. apply Z.eqb_eq.
  assert (take (Z.to_nat (hashsize kt)) m' = mac) as ->.
  { rewrite Hk' in *. rewrite <- Hhi, <- Hkey, Hseq in Hm1'.
    destruct (Z.eq_dec (hashsize kt) 0) as [Hz|]; [unfold mac; by rewrite Hm2, Hm2'|].
    rewrite Hm1 in Hm1' by lia. by injection (Hm1' ltac:(lia)) as ->. }
  pose proof (view_bytes _ _ _ _ Hv) as [_ Hok]%Forall_app. by apply constant_time_memcmp_eq.
Qed.

Lemma wire_tail k seqno fr w c' : aead k = false -> wire k seqno fr w c' ->
  exists y m, w = y ++ take (Z.to_nat (hashsize k)) m /\ crypt_encrypt (cipher_state k) fr = Some (y, c') /\
    (0 < hashsize k -> hmac (hash_index k) (mackey k) (store32h seqno ++ fr) = Some m) /\ (hashsize k = 0 -> m = []).
Proof. unfold wire. intros ->. intros (y & m & ? & ? & ? & ?). by exists y, m. Qed.

Lemma decrypt_crypt_ok s kt kr rb c1 first seqno body pad w c' p sz :
  keys_linked kt kr -> recv s = set_cipher_state c1 kr -> recvseq s = seqno -> frame_ok kt body pad ->
  wire kt seqno (frame body pad) w c' -> mid kt kr seqno (frame body pad) w c' c1 first -> zlen first = blk ->
  view rb (assembled blk first w) p sz ->
  exists rb' c2 x q, decrypt_crypt s rb = Ok (rb', set_cipher_state c2 (recv s)) /\ CR c' c2 /\
    view rb' (frame body pad ++ x) q sz /\ zlen x = hashsize kt.
Proof.
  intros Hk Hr Hseq Hf Hw Hmid Hfst Hv. destruct (wire_zlen _ _ _ _ _ _ _ Hk Hf Hw) as [Hwl Hwok].
  destruct Hf as (Hbok & Hpok & Hpad & Hmin & Hmod & Hbl). pose proof (kl_mac _ _ Hk) as Hmac. pose proof (kl_hash _ _ Hk) as Hhash.
  pose proof (view_bounds _ _ _ _ Hv) as Hbd. pose proof (view_len _ _ _ _ Hv) as Hlen.
  pose proof (frame_bytes _ _ Hbok Hpok ltac:(lia)) as Hok.
  unfold BUF_MAX_SIZE, TRANS_MAX_PAYLOAD_LEN, ZLIB_COMPRESS_EXPANSION, RECV_MAX_PAYLOAD_LEN, MIN_PACKET_LEN, MAX_MAC_LEN in *.
  set (fr := frame body pad) in *. assert (Hfb : blk <= zlen fr) by (destruct (aead kt), Hblk as [-> | ->]; lia).
  assert (Hasm : zlen (assembled blk first w) = zlen w) by (unfold assembled; rewrite zlen_app, zlen_drop; lia).
  assert (Hrk : keys_linked kt kr) by done. destruct Hk as [_ Hbr Hhs _ _ _ Hae _ _].
  unfold decrypt_crypt. rewrite Hr. cbn [hashsize aead blocksize cipher_state set_cipher_state]. rewrite <- Hae, <- Hhs, Hbr.
  unfold mid in Hmid. destruct (aead kt) eqn:Haead; destruct Hmid as (Hfst' & c2 & Hd & HR).
  - assert (assembled blk first w = w) as Ha by (unfold assembled; rewrite Hfst'; apply take_drop). rewrite Ha in *.
    view_go (view_setpos _ _ _ _ 0 Hv ltac:(lia)). rewrite (view_len _ _ _ _ Hv0). replace (buf_pos b) with 0 by (by destruct Hv0).
    rewrite (u32_small (zlen w - hashsize kt - 0)), u32_small by lia.
    rewrite (view_read _ _ _ _ _ Hv0) by lia. rewrite (view_getwriteptr _ _ _ _ _ Hv0) by lia. cbn [obind].
    replace (zlen w - hashsize kt - 0 + hashsize kt) with (zlen w) by lia. rewrite sub_all.
    replace (zlen w - hashsize kt - 0) with (zlen fr) by lia. rewrite Hseq, Hd. cbn beta iota.
    view_go (view_overwrite _ _ _ _ 0 fr Hv0 Hok ltac:(lia) ltac:(lia)).
    view_go (view_incrpos _ _ _ _ (zlen fr) Hv1 ltac:(lia) ltac:(rewrite zlen_blit; lia)).
    exists b1, c2, (drop (Z.to_nat (zlen fr)) w), (0 + zlen fr). split; [done|]. split; [done|]. rewrite zlen_drop by lia. split; [|lia].
    by rewrite blit_0 in Hv2.
  - destruct (wire_tail _ _ _ _ _ Haead Hw) as (y & m & -> & He & Hm1 & Hm2).
    destruct (crypt_inverse _ _ _ (kl_cipher _ _ Hrk) Hok Hmod) as (y' & a' & b' & He' & Hy & Hyok & _).
    rewrite He in He'. injection He' as <- <-. set (mac := take (Z.to_nat (hashsize kt)) m) in *.
    view_go (view_setpos _ _ _ _ blk Hv ltac:(destruct Hblk as [-> | ->]; lia)).
    rewrite (view_len _ _ _ _ Hv0). replace (buf_pos b) with blk by (by destruct Hv0). rewrite zlen_app in *.
    assert (Hml : zlen mac = hashsize kt) by lia. assert (Hb0 : 0 <= blk) by (destruct Hblk as [-> | ->]; lia).
    rewrite u32_small by lia. replace (zlen (assembled blk first (y ++ mac)) - hashsize kt - blk) with (zlen fr - blk) by lia.
    rewrite (view_read _ _ _ _ _ Hv0) by lia. rewrite (view_getwriteptr _ _ _ _ _ Hv0) by lia. cbn [obind].
    assert (Hin : sub (assembled blk first (y ++ mac)) blk (zlen fr - blk) = sub (y ++ mac) blk (zlen fr - blk)).
    { unfold assembled, sub. by rewrite drop_app_length' by (unfold zlen in *; lia). }
    rewrite Hin, Hd. cbn beta iota.
    view_go (view_overwrite _ _ _ _ blk (drop (Z.to_nat blk) fr) Hv0 (Forall_drop _ _ _ Hok) Hb0 ltac:(rewrite zlen_drop; lia)).
    view_go (view_incrpos _ _ _ _ (zlen fr - blk) Hv1 ltac:(lia) ltac:(rewrite zlen_blit; rewrite ?zlen_drop; lia)).
    assert (Hbl' : blit (assembled blk first (y ++ mac)) blk (drop (Z.to_nat blk) fr) = fr ++ mac).
    { unfold assembled. rewrite <- Hfst at 2. rewrite <- (Z.add_0_r (zlen first)), blit_app_r, blit_0, zlen_drop by lia. 
      rewrite drop_drop, app_assoc. rewrite Hfst' at 1. rewrite take_drop. f_equal. apply drop_app_length'. unfold zlen in *; lia. }
    rewrite Hbl' in Hv2. destruct (checkmac_ok s kt b1 seqno fr m (blk + (zlen fr - blk)) sz) as (b2 & q & -> & Hv3); try done.
    { destruct Hrk. by rewrite Hr. }
    cbn. by exists b2, c2, mac, q.
Qed.

Lemma buf_decompress_ok rb bs q sz body z p z' :
  view rb bs q sz -> sub bs q (zlen body) = body -> q + zlen body <= zlen bs ->
  inflate z body (RECV_MAX_PAYLOAD_LEN + 1) = (true, 0, p, z') -> bytes_ok p -> zlen p <= RECV_MAX_PAYLOAD_LEN ->
  exists pl q', buf_decompress rb (zlen body) z = Ok (pl, z') /\ view pl p q' (RECV_MAX_PAYLOAD_LEN + 1).
Proof.
  intros Hv Hsub Hb Hi Hp Hpl. unfold buf_decompress, RECV_MAX_PAYLOAD_LEN in *. pose proof (zlen_nonneg p). pose proof (zlen_nonneg body).
  destruct (view_new (128 * 1024 + 1)) as (b0 & -> & Hv0 & _); [unfold BUF_MAX_SIZE; lia|]. cbn [obind].
  rewrite (view_read _ _ _ _ _ Hv) by lia. cbn [obind]. rewrite Hsub.
  assert (buf_size b0 = 128 * 1024 + 1) as Hs by apply Hv0. rewrite Hs, Hi.
  destruct (view_memwrite_setlen b0 [] _ p Hv0 Hp) as (d & b1 & Hmw & Hset & Hv1); [change (zlen []) with 0; lia|].
  change (zlen []) with 0 in *. unfold buf_overwrite. rewrite Hmw. cbn [obind negb exit_if buf_size]. rewrite Hs, u32_small by lia.
  replace (128 * 1024 + 1 - (128 * 1024 + 1 - zlen p)) with (0 + zlen p) by lia. rewrite Hs in Hset. rewrite Hset. cbn [obind].
  cbn [app] in Hv1.
  rewrite (view_len _ _ _ _ Hv1), (proj2 (Z.ltb_ge (128 * 1024) (zlen p))) by lia. cbn [orb exit_if obind Z.ltb Z.compare].
  by exists b1, 0.
Qed.

(** What one received packet does to the session. *)
Record delivered (p : bytes) (kt' : keydir) (s s' : pktses) : Prop := {
  dl_payload : exists pl, payload s' = Some pl /\ unread pl = p /\ payload_beginning s' = buf_pos pl;
  dl_readbuf : readbuf s' = None;
  dl_seq : recvseq s' = u32 (recvseq s + 1);
  dl_keys : keys_linked kt' (recv s');
  dl_compress : is_compress_recv s' = is_compress_recv s;
}.

Lemma frame_parts body pad x : sub (frame body pad ++ x) 5 (zlen body) = body /\ (frame body pad ++ x) !! 4%nat = Some (zlen pad) /\
  take (Z.to_nat (5 + zlen body)) (frame body pad ++ x) = take 5 (frame body pad) ++ body.
Proof.
  pose proof (zlen_nonneg body). assert (Hfr : frame body pad = (store32h (1 + zlen body + zlen pad) ++ [zlen pad]) ++ body ++ pad)
    by (unfold frame; by rewrite <- app_assoc).
  rewrite Hfr, <- !app_assoc. split_and!; [|done|].
  - change 5 with (zlen (store32h (1 + zlen body + zlen pad) ++ [zlen pad])). rewrite app_assoc, sub_app_r_at, sub_app_l, sub_all by lia. done.
  - rewrite app_assoc. rewrite take_app_ge by (change (length _) with 5%nat; lia). change (length _) with 5%nat.
    rewrite take_app_length' by (unfold zlen in *; lia). done.
Qed.
Lemma decrypt_packet_ok p kr s0 s1 body pad w s rb c1 first q sz :
  keys_linked (trans s0) kr -> recv s = set_cipher_state c1 kr -> recvseq s = transseq s0 ->
  is_compress_trans s0 = is_compress_recv s -> sent p kr s0 s1 body pad w ->
  mid (trans s0) kr (transseq s0) (frame body pad) w (cipher_state (trans s1)) c1 first -> zlen first = blk ->
  readbuf s = Some rb -> view rb (assembled blk first w) q sz ->
  bytes_ok p -> zlen p <= TRANS_MAX_PAYLOAD_LEN ->
  exists s', decrypt_packet s = Ok s' /\ delivered p (trans s1) s s'.
Proof.
  intros Hk Hr Hseq Hcomp Hsent Hmid Hfst Hrb Hv Hp Hpl. pose proof (sent_frame _ _ _ _ _ _ _ Hsent) as Hf.
  assert (Hm : hashsize (recv s) = hashsize (trans s0)) by (rewrite Hr; symmetry; apply Hk). pose proof (kl_mac _ _ Hk).
  unfold decrypt_packet. rewrite Hrb. set (s2 := set_datarecv _ s).
  destruct (decrypt_crypt_ok s2 (trans s0) kr rb c1 first (transseq s0) body pad w _ q sz Hk Hr Hseq Hf (sent_wire _ _ _ _ _ _ _ Hsent) Hmid Hfst Hv)
    as (rb1 & c2 & x & q1 & -> & HR & Hv1 & Hx).
  cbn [obind]. change (recv s2) with (recv s). rewrite Hm.
  destruct Hf as (Hbok & Hpok & Hpad & Hmin & Hmod & Hbl). destruct (frame_parts body pad x) as (Hbody & Hbyte & Htake).
  pose proof (frame_zlen body pad) as Hfz. set (fr := frame body pad) in *. pose proof (view_bounds _ _ _ _ Hv1) as Hb1.
  rewrite zlen_app in Hb1. unfold MAX_MAC_LEN, TRANS_MAX_PAYLOAD_LEN, ZLIB_COMPRESS_EXPANSION, RECV_MAX_PAYLOAD_LEN in *.
  unfold PACKET_PADDING_OFF. view_go (view_setpos _ _ _ _ 4 Hv1 ltac:(rewrite zlen_app; lia)).
  view_go (view_getbyte _ _ _ _ (zlen pad) Hv0 Hbyte). rewrite (view_len _ _ _ _ Hv2), zlen_app.
  rewrite u32_small by lia. replace (zlen fr + zlen x - zlen pad - 4 - 1 - hashsize (trans s0)) with (zlen body) by lia.
  rewrite (proj2 (Z.ltb_ge _ (zlen body))), (proj2 (Z.ltb_ge (zlen body) 1)) by lia. cbn [orb exit_if obind].
  unfold PACKET_PAYLOAD_OFF. view_go (view_setpos _ _ _ _ 5 Hv2 ltac:(rewrite zlen_app; lia)).
  change (is_compress_recv _) with (is_compress_recv s). rewrite <- Hcomp. pose proof (sent_keys _ _ _ _ _ _ _ Hsent) as Hkeys.
  pose proof (sent_body _ _ _ _ _ _ _ Hsent) as Hsb. destruct (is_compress_trans s0) eqn:Hct.
  - destruct Hsb as (zr' & Hinf & HZ). change (zstream (recv (set_recv _ _))) with (zstream (recv s)). rewrite Hr.
    cbn [zstream set_cipher_state].
    destruct (buf_decompress_ok b1 _ 5 sz body _ _ _ Hv3 Hbody ltac:(rewrite zlen_app; lia) Hinf Hp ltac:(unfold RECV_MAX_PAYLOAD_LEN; lia))
      as (pl & q' & -> & Hpl'). cbn [obind]. view_go (view_setpos _ _ _ _ 0 Hpl' ltac:(pose proof (zlen_nonneg p); lia)).
    eexists. split; [done|]. split; [|done|done| |unfold is_compress_recv; cbn; by rewrite Hr].
    + exists b2. split; [done|]. rewrite (view_unread _ _ _ _ Hv4). split; [done|]. by destruct Hv4.
    + rewrite Hkeys. by destruct Hk.
  - destruct Hsb as [-> Hz]. replace (buf_pos b1) with 5 by (by destruct Hv3). rewrite u32_small by lia.
    destruct (view_setlen _ _ _ _ (5 + zlen p) Hv3 ltac:(lia)) as (pl & ext & -> & Hv4 & Hext). cbn [obind].
    assert (Hext' : ext = []) by (destruct ext; [done|rewrite zlen_cons, zlen_app in Hext; pose proof (zlen_nonneg ext); lia]).
    rewrite Htake, Hext', app_nil_r in Hv4. replace (Z.min 5 (5 + zlen p)) with 5 in Hv4 by lia.
    eexists. split; [done|]. split; [|done|done| |unfold is_compress_recv; cbn; by rewrite Hr].
    + exists pl. split; [done|]. rewrite (view_unread _ _ _ _ Hv4). split; [|by destruct Hv4; cbn].
      change (Z.to_nat 5) with 5%nat. by rewrite drop_app_length'.
    + rewrite Hkeys, Hr, Hz. by destruct Hk.
Qed.
(** ** The socket: a byte stream that arrives in pieces

    [sk_chunks] bounds what each [read] finds; a bound of zero, or an empty stream, is
    EAGAIN. *)
Record sock := mksock { sk_stream : bytes; sk_chunks : list Z }.

Definition sock_read (sk : sock) (n : Z) : read_res * sock :=
  match sk_chunks sk with
  | [] => (ReadAgain, sk)
  | c :: cs =>
      let m := Z.min c (Z.min n (zlen (sk_stream sk))) in
      if m <=? 0 then (ReadAgain, mksock (sk_stream sk) cs)
      else (ReadData (take (Z.to_nat m) (sk_stream sk)), mksock (drop (Z.to_nat m) (sk_stream sk)) cs)
  end.

(** The session loop as far as the packet layer sees it: [read_packet] when the socket is
    readable, and every payload it leaves handed on. *)
Fixpoint read_packets (junk : nat -> Z) (n : nat) (sk : sock) (s : pktses) : outcome (list bytes * pktses * sock) :=
  match n with
  | O => Ok ([], s, sk)
  | S n =>
      let* (s, sk) := read_packet sock_read junk sk s in
      match payload s with
      | None => read_packets junk n sk s
      | Some pl =>
          let* (l, s', sk') := read_packets junk n sk (set_payload None s) in
          Ok (unread pl :: l, s', sk')
      end
  end.

(** Payloads written to [writepayload] one after another, each sent with [encrypt_packet]. *)
Fixpoint send_all (now : Z) (s : pktses) (ps : list bytes) : outcome pktses :=
  match ps with
  | [] => Ok s
  | p :: ps =>
      let* wp := buf_putbytes (writepayload s) p (zlen p) in
      let* s := encrypt_packet now (set_writepayload wp s) in
      send_all now s ps
  end.

(** Enough [read]s that give something for [n] calls of [read_packet]. *)
Definition plenty (n : nat) (sk : sock) : Prop :=
  Forall (fun c => 0 < c) (sk_chunks sk) /\ (2 * n <= length (sk_chunks sk))%nat.

(** The next [read] of a nonempty stream gives something. *)
Definition willing (sk : sock) : Prop := match sk_chunks sk with c :: _ => 0 < c | [] => False end.

Lemma sock_read_cases sk n : 0 < n ->
  exists j, (j <= 1)%nat /\
  ((exists x sk', sock_read sk n = (ReadData x, sk') /\ sk_stream sk = x ++ sk_stream sk' /\ 0 < zlen x <= n /\
     sk_chunks sk' = drop j (sk_chunks sk))
   \/ (exists sk', sock_read sk n = (ReadAgain, sk') /\ sk_stream sk' = sk_stream sk /\ sk_chunks sk' = drop j (sk_chunks sk) /\
        (willing sk -> sk_stream sk = []))).
Proof.
  intros Hn. destruct sk as [st [|c cs]]; unfold sock_read, willing; cbn.
  - exists 0%nat. split; [lia|]. right. by eexists.
  - exists 1%nat. split; [done|]. cbn. rewrite drop_0. destruct (Z.leb_spec (Z.min c (Z.min n (zlen st))) 0).
    + right. eexists. split_and!; try done. cbn. intros. destruct st; [done|].
      rewrite zlen_cons in *. pose proof (zlen_nonneg st). lia.
    + left. do 2 eexists. split; [done|]. cbn. rewrite take_drop, zlen_take by lia. split_and!; try done; lia.
Qed.

(** [read] into the buffer past the bytes it holds. *)
Lemma view_overwrite_end b bs sz x : view b bs (zlen bs) sz -> bytes_ok x -> zlen bs + zlen x <= sz ->
  exists b1 b2, buf_overwrite b (zlen bs) x = Ok b1 /\ buf_incrwritepos b1 (zlen x) = Ok b2 /\ view b2 (bs ++ x) (zlen bs + zlen x) sz.
Proof.
  intros Hv Hx Hsz. destruct (view_putbytes _ _ _ _ x Hv Hx Hsz) as (b2 & Hp & Hv2). rewrite blit_end in Hv2.
  unfold buf_putbytes, buf_write in Hp. rewrite (view_getwriteptr _ _ _ _ _ Hv) in Hp by (pose proof (zlen_nonneg x); lia).
  cbn [obind] in Hp. unfold buf_overwrite. destruct (mem_write _ _ _) as [d| |]; try done. cbn [obind] in *.
  by eexists _, b2.
Qed.

Lemma plenty_step n sk sk' j : sk_chunks sk' = drop j (sk_chunks sk) -> (j <= 2)%nat ->
  plenty (S n) sk -> plenty n sk' /\ willing sk.
Proof.
  unfold plenty, willing. intros -> Hj [Hf Hl]. rewrite length_drop. split; [split; [by apply Forall_drop|lia]|].
  destruct (sk_chunks sk); [cbn in Hl; lia|]. by apply Forall_cons in Hf as [? _].
Qed.

(** ** One packet, read in pieces *)

Lemma read_prefix (w rest : bytes) got (x st : bytes) :
  0 <= got -> got + zlen x <= zlen w -> 0 <= zlen x -> drop (Z.to_nat got) w ++ rest = x ++ st ->
  take (Z.to_nat got) w ++ x = take (Z.to_nat (got + zlen x)) w /\ st = drop (Z.to_nat (got + zlen x)) w ++ rest.
Proof.
  intros Hg Hl Hx Heq. assert (Hlx : (length x <= length (drop (Z.to_nat got) w))%nat) by (rewrite length_drop; unfold zlen in *; lia).
  assert (x = take (length x) (drop (Z.to_nat got) w)) as Hxe.
  { apply (f_equal (take (length x))) in Heq. rewrite take_app_length, take_app_le in Heq by lia. done. }
  replace (Z.to_nat (got + zlen x)) with (Z.to_nat got + length x)%nat by (unfold zlen; lia). split.
  - rewrite Hxe at 1. by rewrite <- take_take_drop.
  - apply (f_equal (drop (length x))) in Heq. rewrite drop_app_length, drop_app_le, drop_drop in Heq by lia. done.
Qed.

Section one_packet.
Context (junk : nat -> Z) (Hjunk : forall i, is_byte (junk i)).
Context (p : bytes) (kr : keydir) (s0 s1 : pktses) (body pad w : bytes).
Context (Hk : keys_linked (trans s0) kr) (Hsent : sent p kr s0 s1 body pad w).
Context (Hp : bytes_ok p) (Hpl : zlen p <= TRANS_MAX_PAYLOAD_LEN).

Lemma wire_bounds : blk <= zlen w <= 20000 /\ bytes_ok w.
Proof using Hblk Hk Hsent L.
  pose proof (sent_frame _ _ _ _ _ _ _ Hsent) as Hf.
  destruct (wire_zlen _ _ _ _ _ _ _ Hk Hf (sent_wire _ _ _ _ _ _ _ Hsent)) as [Hl Hok].
  split; [|done]. destruct Hf as (_ & _ & Hpad & Hmin & Hmod & Hbl). pose proof (kl_mac _ _ Hk). rewrite Hl. rewrite frame_zlen in *.
  unfold MAX_MAC_LEN, TRANS_MAX_PAYLOAD_LEN, ZLIB_COMPRESS_EXPANSION, RECV_MAX_PAYLOAD_LEN, MIN_PACKET_LEN in *.
  destruct (aead _), Hblk as [-> | ->]; lia.
Qed.

(** The rest of the packet is being read into a buffer of the right length. *)
Definition reading_rest (got : Z) (s : pktses) : Prop :=
  blk <= got <= zlen w /\ exists rb bs sz c1 first,
    readbuf s = Some rb /\ view rb bs got sz /\ zlen bs = zlen w /\
    take (Z.to_nat got) bs = take (Z.to_nat got) (assembled blk first w) /\
    recv s = set_cipher_state c1 kr /\ zlen first = blk /\
    mid (trans s0) kr (transseq s0) (frame body pad) w (cipher_state (trans s1)) c1 first.

(** The first block is being read. *)
Definition reading_first (got : Z) (s : pktses) : Prop :=
  recv s = kr /\ 0 <= got < blk /\
  ((got = 0 /\ readbuf s = None) \/
   exists rb sz, readbuf s = Some rb /\ view rb (take (Z.to_nat got) w) got sz /\ blk <= sz).

(** [got] bytes of the packet have been read. *)
Record receiving (got : Z) (s : pktses) : Prop := {
  rc_seq : recvseq s = transseq s0;
  rc_comp : is_compress_trans s0 = is_compress_recv s;
  rc_payload : payload s = None;
  rc_part : reading_first got s \/ (reading_rest got s /\ got < zlen w);
}.

Lemma first_block_ok s rb sz :
  recv s = kr -> recvseq s = transseq s0 -> view rb (take (Z.to_nat blk) w) blk sz -> blk <= sz ->
  exists rb1 rb2 rb3 rb4 rb5 k plen, buf_setpos rb 0 = Ok rb1 /\ packet_length s rb1 = Ok (zlen w, plen, rb2, k) /\
    (RECV_MAX_PACKET_LEN <? zlen w) || (RECV_MAX_PACKET_LEN <? plen) || (plen <? blk) || negb (plen mod blk =? 0) = false /\
    (if buf_size rb2 <? zlen w then buf_resize junk rb2 (zlen w) else Ok rb2) = Ok rb3 /\
    buf_setlen rb3 (zlen w) = Ok rb4 /\ buf_setpos rb4 blk = Ok rb5 /\
    reading_rest blk (set_readbuf (Some rb5) (set_recv k s)).
Proof using Hblk Hk Hsent L Hjunk.
  intros Hr Hseq Hv Hsz. destruct wire_bounds as [Hwl Hwok]. rewrite <- Hr in Hk.
  pose proof (view_bounds _ _ _ _ Hv) as Hb. unfold BUF_MAX_SIZE in Hb.
  destruct (view_setpos _ _ _ _ 0 Hv) as (rb1 & H1 & Hv1); [lia|].
  destruct (packet_length_ok s _ _ _ _ _ _ rb1 sz Hk Hseq (sent_frame _ _ _ _ _ _ _ Hsent) (sent_wire _ _ _ _ _ _ _ Hsent) Hv1 Hsz)
    as (plen & rb2 & q & c1 & first & H2 & Hv2 & Hfst & Hmid & Hpb & Hpm).
  assert (Hb0 : 0 <= blk) by (destruct Hblk; lia).
  assert (exists rb3 sz3, (if buf_size rb2 <? zlen w then buf_resize junk rb2 (zlen w) else Ok rb2) = Ok rb3 /\
    view rb3 first q sz3 /\ zlen w <= sz3) as (rb3 & sz3 & H3 & Hv3 & Hsz3).
  { assert (buf_size rb2 = sz) as -> by apply Hv2. destruct (Z.ltb_spec sz (zlen w)); [|by exists rb2, sz].
    destruct (view_resize junk _ _ _ _ (zlen w) Hjunk Hv2) as (rb3 & ? & ?); [unfold BUF_MAX_SIZE; lia|]. by exists rb3, (zlen w). }
  destruct (view_setlen _ _ _ _ (zlen w) Hv3) as (rb4 & ext & H4 & Hv4 & Hext); [lia|].
  assert (Htk : take (Z.to_nat (zlen w)) first = first) by (apply take_ge; unfold zlen in *; lia). rewrite Htk in Hv4.
  destruct (view_setpos _ _ _ _ blk Hv4) as (rb5 & H5 & Hv5); [rewrite zlen_app; lia|].
  exists rb1, rb2, rb3, rb4, rb5, (set_cipher_state c1 (recv s)), plen. split_and!; try done.
  - unfold RECV_MAX_PACKET_LEN, RECV_MAX_PAYLOAD_LEN. rewrite !(proj2 (Z.ltb_ge _ _)) by lia. by rewrite Hpm.
  - split; [lia|]. exists rb5, (first ++ ext), sz3, c1, first. rewrite zlen_app. split_and!; try done; [lia| |].
    + unfold assembled. by rewrite !take_app_length' by (unfold zlen in *; lia).
    + cbn. by rewrite Hr.
Qed.

Lemma read_packet_init_ok got s sk rest :
  receiving got s -> reading_first got s -> sk_stream sk = drop (Z.to_nat got) w ++ rest ->
  exists go s' sk' got' j, read_packet_init sock_read junk sk s = Ok (go, s', sk') /\
    sk_stream sk' = drop (Z.to_nat got') w ++ rest /\ sk_chunks sk' = drop j (sk_chunks sk) /\ (j <= 1)%nat /\
    got <= got' /\ (willing sk -> got < got') /\
    recvseq s' = transseq s0 /\ is_compress_trans s0 = is_compress_recv s' /\ payload s' = None /\
    if go : bool then got' = blk /\ reading_rest blk s' else reading_first got' s'.
Proof using Hblk Hk Hsent L Hjunk.
  intros [Hseq Hcomp Hpay _] (Hr & Hgot & Hcase) Hst. destruct wire_bounds as [Hwl Hwok].
  unfold read_packet_init. rewrite Hr, (kl_blk_r _ _ Hk).
  assert (exists rb sz, match readbuf s with None => buf_new INIT_READBUF | Some rb => Ok rb end = Ok rb /\
    view rb (take (Z.to_nat got) w) got sz /\ blk <= sz) as (rb & sz & -> & Hv & Hsz).
  { destruct Hcase as [[-> ->]|(rb & sz & -> & Hv & Hsz)]; [|by exists rb, sz]. unfold INIT_READBUF.
    destruct (view_new 128) as (rb & -> & Hv & _); [unfold BUF_MAX_SIZE; lia|]. exists rb, 128. split_and!; try done. lia. }
  cbn [obind]. assert (Htk : zlen (take (Z.to_nat got) w) = got) by (apply zlen_take; lia).
  assert (Hpos : buf_pos rb = got) by apply Hv. rewrite Hpos, u32_small by lia.
  rewrite (view_getwriteptr _ _ _ _ _ Hv) by lia. cbn [obind].
  destruct (sock_read_cases sk (blk - got)) as (j & Hj & [(x & sk' & -> & Hst' & Hx & Hch)|(sk' & -> & Hst' & Hch & Hwill)]); [lia| |].
  - assert (Hxw : take (Z.to_nat got) w ++ x = take (Z.to_nat (got + zlen x)) w /\ sk_stream sk' = drop (Z.to_nat (got + zlen x)) w ++ rest).
    { rewrite Hst in Hst'. apply (read_prefix w rest got x (sk_stream sk')); [lia|lia|lia|done]. }
    destruct Hxw as [Hxw Hrest]. assert (Hxok : bytes_ok x).
    { assert (bytes_ok (take (Z.to_nat got) w ++ x)) as [_ ?]%Forall_app by (rewrite Hxw; by apply Forall_take). done. }
    rewrite <- Htk in Hv at 2. destruct (view_overwrite_end rb _ _ x Hv Hxok) as (b1 & b2 & Ho & Hi & Hv2); [lia|].
    rewrite Htk in *. destruct x as [|x0 xs]; [change (zlen []) with 0 in Hx; lia|]. set (x := x0 :: xs) in *.
    rewrite Ho. cbn [obind]. rewrite Hi. cbn [obind]. rewrite Hxw in Hv2. destruct (Z.eqb_spec (zlen x) (blk - got)) as [He|He]; cbn [negb].
    + replace (got + zlen x) with blk in * by lia.
      destruct (first_block_ok (set_readbuf (Some rb) s) b2 sz Hr Hseq Hv2 Hsz) as (rb1 & rb2 & rb3 & rb4 & rb5 & k & plen & -> & H2 & Hchk & H3 & H4 & H5 & Hrr).
      cbn [obind]. rewrite H2. cbn [obind]. rewrite Hchk. cbn [exit_if obind]. rewrite H3. cbn [obind]. rewrite H4. cbn [obind]. rewrite H5. cbn [obind].
      exists true, (set_readbuf (Some rb5) (set_recv k (set_readbuf (Some rb) s))), sk', blk, j. split_and!; try done; try lia.
      rewrite Hcomp. destruct Hrr as (_ & ? & ? & ? & ? & ? & _ & _ & _ & _ & Hk' & _). cbn in Hk'. rewrite Hk'.
      unfold is_compress_recv. cbn. by rewrite Hr.
    + exists false, (set_readbuf (Some b2) (set_readbuf (Some rb) s)), sk', (got + zlen x), j. split_and!; try done; try lia.
      split; [done|]. split; [lia|]. right. by exists b2, sz.
  - exists false, (set_readbuf (Some rb) s), sk', got, j. split_and!; try done; [by rewrite Hst'|intros Hw|].
    + apply Hwill in Hw. rewrite Hst in Hw. apply app_eq_nil in Hw as [Hw _]. apply (f_equal zlen) in Hw.
      rewrite zlen_drop in Hw by lia. change (zlen []) with 0 in Hw. lia.
    + split; [done|]. split; [done|]. right. by exists rb, sz.
Qed.

(** The packet is complete in the read buffer. *)
Lemma decrypt_complete s rb bs q sz c1 first :
  recvseq s = transseq s0 -> is_compress_trans s0 = is_compress_recv s -> readbuf s = Some rb -> view rb bs q sz ->
  zlen bs = zlen w -> take (Z.to_nat (zlen w)) bs = take (Z.to_nat (zlen w)) (assembled blk first w) ->
  recv s = set_cipher_state c1 kr -> zlen first = blk ->
  mid (trans s0) kr (transseq s0) (frame body pad) w (cipher_state (trans s1)) c1 first ->
  exists s', decrypt_packet s = Ok s' /\ delivered p (trans s1) s s'.
Proof using Hblk Hk Hsent L Hp Hpl.
  intros Hseq Hcomp Hrb Hv Hl Htk Hr Hfst Hmid. destruct wire_bounds as [Hwl Hwok].
  assert (Hb0 : 0 <= blk) by (destruct Hblk; lia).
  assert (bs = assembled blk first w) as ->.
  { rewrite !take_ge in Htk; [done| |unfold zlen in *; lia]. unfold assembled. rewrite length_app, length_drop. unfold zlen in *. lia. }
  by apply (decrypt_packet_ok p kr s0 s1 body pad w s rb c1 first q sz).
Qed.

(** What a call of [read_packet] comes to: progress in the packet, or its delivery. *)
Definition stepped (got : Z) (s : pktses) (rest : bytes) (prog : Prop) (s' : pktses) (sk' : sock) : Prop :=
  (exists got', receiving got' s' /\ sk_stream sk' = drop (Z.to_nat got') w ++ rest /\ got <= got' /\ (prog -> got < got'))
  \/ (delivered p (trans s1) s s' /\ sk_stream sk' = rest).

Lemma read_rest_ok got s sk rest :
  recvseq s = transseq s0 -> is_compress_trans s0 = is_compress_recv s -> payload s = None ->
  reading_rest got s -> sk_stream sk = drop (Z.to_nat got) w ++ rest ->
  exists s' sk' j, read_packet sock_read junk sk s = Ok (s', sk') /\ sk_chunks sk' = drop j (sk_chunks sk) /\ (j <= 1)%nat /\
    stepped got s rest (willing sk) s' sk'.
Proof using Hblk Hk Hsent L Hp Hpl.
  intros Hseq Hcomp Hpay (Hgot & rb & bs & sz & c1 & first & Hrb & Hv & Hbs & Htk & Hr & Hfst & Hmid) Hst.
  destruct wire_bounds as [Hwl Hwok]. pose proof (view_len _ _ _ _ Hv) as Hlen. assert (Hpos : buf_pos rb = got) by apply Hv.
  assert (Hb0 : 0 <= blk) by (destruct Hblk; lia).
  unfold read_packet. rewrite Hrb, Hr. cbn [blocksize set_cipher_state]. rewrite (kl_blk_r _ _ Hk), Hlen, Hbs, (proj2 (Z.ltb_ge _ _)) by lia.
  cbn [obind negb]. rewrite Hrb, Hlen, Hpos, Hbs, u32_small by lia. destruct (Z.eqb_spec (zlen w - got) 0) as [Hz|Hz].
  - replace got with (zlen w) in * by lia.
    destruct (decrypt_complete s rb bs (zlen w) sz c1 first Hseq Hcomp Hrb Hv Hbs Htk Hr Hfst Hmid) as (s' & -> & Hdel). cbn [obind].
    exists s', sk, 0%nat. split_and!; [done|done|lia|]. right. split; [done|]. rewrite Hst, drop_ge; [done|unfold zlen; lia].
  - rewrite (view_getptr _ _ _ _ _ Hv) by lia. cbn [obind].
    destruct (sock_read_cases sk (zlen w - got)) as (j & Hj & [(x & sk' & -> & Hst' & Hx & Hch)|(sk' & -> & Hst' & Hch & Hwill)]); [lia| |].
    + rewrite Hst in Hst'. destruct (read_prefix w rest got x (sk_stream sk') ltac:(lia) ltac:(lia) ltac:(lia) Hst') as [Hxw Hrest].
      assert (Hxok : bytes_ok x).
      { assert (bytes_ok (take (Z.to_nat got) w ++ x)) as [_ ?]%Forall_app by (rewrite Hxw; by apply Forall_take). done. }
      destruct x as [|x0 xs]; [change (zlen []) with 0 in Hx; lia|]. set (x := x0 :: xs) in *.
      view_go (view_overwrite _ _ _ _ got x Hv Hxok ltac:(lia) ltac:(lia)).
      view_go (view_incrpos _ _ _ _ (zlen x) Hv0 ltac:(lia) ltac:(rewrite zlen_blit; lia)).
      assert (Htk' : take (Z.to_nat (got + zlen x)) (blit bs got x) = take (Z.to_nat (got + zlen x)) (assembled blk first w)).
      { apply (assembled_step w first got x bs blk); (done || lia). }
      assert (Hbs' : zlen (blit bs got x) = zlen w) by (rewrite zlen_blit; lia).
      destruct (Z.eqb_spec (zlen x) (zlen w - got)) as [He|He].
      * replace (got + zlen x) with (zlen w) in * by lia.
        destruct (decrypt_complete (set_readbuf (Some b0) s) b0 _ _ sz c1 first Hseq Hcomp eq_refl Hv1 Hbs' Htk' Hr Hfst Hmid) as (s' & -> & Hdel).
        cbn [obind]. exists s', sk', j. split_and!; try done. right. split; [by destruct Hdel|].
        rewrite Hrest, drop_ge; [done|unfold zlen; lia].
      * eexists _, sk', j. split; [done|]. split; [done|]. split; [done|]. left. exists (got + zlen x). split_and!; [|done|lia|lia].
        split; try done. right. split; [|lia]. split; [lia|]. by exists b0, (blit bs got x), sz, c1, first.
    + exists s, sk', j. split_and!; try done. left. exists got. split_and!; [|by rewrite Hst'|lia|].
      * split; try done. right. split; [|lia]. split; [lia|]. by exists rb, bs, sz, c1, first.
      * intros Hw%Hwill. rewrite Hst in Hw. apply app_eq_nil in Hw as [Hw _]. apply (f_equal zlen) in Hw.
        rewrite zlen_drop in Hw by lia. change (zlen []) with 0 in Hw. lia.
Qed.

Lemma read_packet_step got s sk rest :
  receiving got s -> sk_stream sk = drop (Z.to_nat got) w ++ rest ->
  exists s' sk' j, read_packet sock_read junk sk s = Ok (s', sk') /\ sk_chunks sk' = drop j (sk_chunks sk) /\ (j <= 2)%nat /\
    stepped got s rest (willing sk) s' sk'.
Proof using Hblk Hk Hsent L Hp Hpl Hjunk.
  intros Hrc Hst. destruct (rc_part _ _ Hrc) as [Hfirst|[Hrest _]].
  2:{ destruct Hrc as [Hseq Hcomp Hpay _]. destruct (read_rest_ok got s sk rest Hseq Hcomp Hpay Hrest Hst) as (s' & sk' & j & ? & ? & ? & ?).
      exists s', sk', j. split_and!; try done. lia. }
  destruct (read_packet_init_ok got s sk rest Hrc Hfirst Hst)
    as (go & s' & sk' & got' & j & Hinit & Hst' & Hch & Hj & Hgg & Hprog & Hseq & Hcomp & Hpay & Hgo).
  destruct wire_bounds as [Hwl _].
  assert (Hrp : read_packet sock_read junk sk s = if go then read_packet sock_read junk sk' s' else Ok (s', sk')).
  { destruct Hfirst as (Hr & Hgot & Hcase). unfold read_packet at 1.
    assert (Hgoinit : match readbuf s with Some rb => if buf_len rb <? blocksize (recv s) then read_packet_init sock_read junk sk s else Ok (true, s, sk)
      | None => read_packet_init sock_read junk sk s end = Ok (go, s', sk')).
    { rewrite Hr, (kl_blk_r _ _ Hk). destruct Hcase as [[_ ->]|(rb & sz & -> & Hv & Hsz)]; [done|].
      rewrite (view_len _ _ _ _ Hv), zlen_take, (proj2 (Z.ltb_lt _ _)) by lia. done. }
    rewrite Hgoinit. cbn [obind]. destruct go; [|done]. destruct Hgo as (-> & _ & rb & bs & sz & c1 & first & Hrb & Hv & Hbs & _ & Hr' & _).
    unfold read_packet. rewrite Hrb, Hr'. cbn [blocksize set_cipher_state]. rewrite (kl_blk_r _ _ Hk), (view_len _ _ _ _ Hv), Hbs.
    rewrite (proj2 (Z.ltb_ge _ _)) by lia. by cbn [obind negb]; rewrite ?Hrb, ?(view_len _ _ _ _ Hv), ?Hbs. }
  rewrite Hrp. destruct go.
  - destruct Hgo as [-> Hrest]. destruct (read_rest_ok blk s' sk' rest Hseq Hcomp Hpay Hrest Hst') as (s2 & sk2 & j2 & -> & Hch2 & Hj2 & Hstep).
    exists s2, sk2, (j + j2)%nat. split_and!; [done|by rewrite Hch2, Hch, drop_drop|lia|].
    destruct Hstep as [(g & Hrc2 & Hs2 & Hg & _)|[Hdel Hs2]]; [left|right].
    + exists g. split_and!; try done; [lia|]. intros Hw. specialize (Hprog Hw). lia.
    + split; [|done]. destruct Hdel as [? ? Hds ? Hdc]. split; try done; [by rewrite Hds, Hseq, (rc_seq _ _ Hrc)|].
      by rewrite Hdc, <- Hcomp, (rc_comp _ _ Hrc).
  - exists s', sk', j. split_and!; try done; [lia|]. left. exists got'. split_and!; try done. split; try done. by left.
Qed.

Lemma receiving_lt got s : receiving got s -> got < zlen w.
Proof using Hblk Hk Hsent L. intros []. destruct wire_bounds. destruct rc_part0 as [(_ & ? & _)|[_ ?]]; lia. Qed.

Lemma read_packets_one rest n : forall got s sk, receiving got s -> sk_stream sk = drop (Z.to_nat got) w ++ rest ->
  (exists s' sk', read_packets junk n sk s = Ok ([], s', sk') /\ (plenty n sk -> Z.of_nat n < zlen w - got)) \/
  (exists k sr sk1, read_packets junk n sk s =
       (let* (l, s', sk') := read_packets junk k sk1 (set_payload None sr) in Ok (p :: l, s', sk')) /\
     recvseq sr = u32 (transseq s0 + 1) /\ readbuf sr = None /\ keys_linked (trans s1) (recv sr) /\
     is_compress_recv sr = is_compress_trans s0 /\ sk_stream sk1 = rest /\
     (plenty n sk -> plenty k sk1 /\ Z.of_nat n - Z.of_nat k <= zlen w - got)).
Proof using Hblk Hk Hsent L Hp Hpl Hjunk.
  induction n as [|n IH]; intros got s sk Hrc Hst; pose proof (receiving_lt _ _ Hrc).
  { left. eexists _, _. split; [done|lia]. }
  destruct (read_packet_step got s sk rest Hrc Hst) as (s' & sk' & j & Hrp & Hch & Hj & Hstep).
  cbn [read_packets]. rewrite Hrp. cbn [obind].
  destruct Hstep as [(got' & Hrc' & Hst' & Hg & Hprog)|[[(pl & -> & Hun & _) Hrb Hsq Hkl Hcm] Hst']].
  - rewrite (rc_payload _ _ Hrc'). destruct (IH got' s' sk' Hrc' Hst') as [(s2 & sk2 & -> & Hlt)|(k & sr & sk1 & -> & ? & ? & ? & ? & ? & Hpl')].
    + left. eexists _, _. split; [done|]. intros [Hpl1 Hw]%(plenty_step _ _ _ _ Hch Hj). specialize (Hprog Hw). specialize (Hlt Hpl1). lia.
    + right. exists k, sr, sk1. split_and!; try done. intros [Hpl1 Hw]%(plenty_step _ _ _ _ Hch Hj).
      specialize (Hprog Hw). destruct (Hpl' Hpl1). split; [done|lia].
  - right. exists n, s', sk'. rewrite Hun, Hsq, (rc_seq _ _ Hrc), Hcm, (rc_comp _ _ Hrc). split_and!; try done.
    intros [Hpl1 _]%(plenty_step _ _ _ _ Hch Hj). split; [done|lia].
Qed.

End one_packet.

(** ** The whole stream *)

(** A receiver between packets. *)
Record idle (kr : keydir) (seqno : Z) (comp : bool) (s : pktses) : Prop := {
  id_recv : recv s = kr;
  id_seq : recvseq s = seqno;
  id_comp : is_compress_recv s = comp;
  id_payload : payload s = None;
  id_readbuf : readbuf s = None;
}.

(** The payloads [encrypt_packet] takes as they are. *)
Definition sendable (s : pktses) (p : bytes) : Prop :=
  bytes_ok p /\ 0 < zlen p <= TRANS_MAX_PAYLOAD_LEN /\
  dataallowed s || match p with t :: _ => packet_is_okay_kex t | [] => false end = true.

Lemma idle_receiving kr s0 s1 body pad w s :
  keys_linked (trans s0) kr -> idle kr (transseq s0) (is_compress_trans s0) s -> receiving kr s0 s1 body pad w 0 s.
Proof.
  intros Hk [Hr Hs Hc Hp Hrb]. split; try done. left. split; [done|]. split; [destruct Hblk; lia|]. by left.
Qed.

Lemma sent_linked p kr s s1 body pad w :
  keys_linked (trans s) kr -> sent p kr s s1 body pad w -> exists kr1, keys_linked (trans s1) kr1.
Proof.
  intros Hk Hs. destruct (sent_frame _ _ _ _ _ _ _ Hs) as (Hbok & Hpok & Hpad & Hmin & Hmod & Hbl).
  assert (exists c, CR (cipher_state (trans s1)) c) as [c Hc].
  { pose proof (frame_bytes _ _ Hbok Hpok ltac:(lia)) as Hok. pose proof (sent_wire _ _ _ _ _ _ _ Hs) as Hw.
    pose proof (kl_mac _ _ Hk). unfold wire, MIN_PACKET_LEN in *. destruct (aead (trans s)).
    - destruct (aead_inverse (transseq s) (cipher_state (trans s)) _ (hashsize (trans s)) Hok) as (y & a' & He & _ & _ & Hd & _); [lia|done|lia|].
      rewrite Hw in He. injection He as _ <-. destruct (Hd _ (kl_cipher _ _ Hk)) as (b' & _ & ?). by exists b'.
    - destruct Hw as (y & m & He & _). destruct (crypt_inverse _ _ _ (kl_cipher _ _ Hk) Hok Hmod) as (y' & a' & b' & He' & _ & _ & _ & ?).
      rewrite He in He'. injection He' as _ <-. by exists b'. }
  assert (exists z, ZR (zstream (trans s1)) z) as [z Hz].
  { pose proof (sent_body _ _ _ _ _ _ _ Hs) as Hb. destruct (is_compress_trans s); [naive_solver|].
    destruct Hb as [_ ->]. eexists. by apply Hk. }
  exists (set_zstream z (set_cipher_state c kr)). rewrite (sent_keys _ _ _ _ _ _ _ Hs). by destruct Hk.
Qed.

(** A receiver whose stream is empty waits. *)
Definition starved (s : pktses) : Prop :=
  blocksize (recv s) = blk /\ payload s = None /\
  (readbuf s = None \/ exists rb sz, readbuf s = Some rb /\ view rb [] 0 sz /\ blk <= sz).

Lemma read_packet_starved junk s sk : starved s -> sk_stream sk = [] ->
  exists s' sk', read_packet sock_read junk sk s = Ok (s', sk') /\ starved s' /\ sk_stream sk' = [].
Proof.
  intros (Hb & Hp & Hcase) Hst.
  assert (exists rb sz, match readbuf s with None => buf_new INIT_READBUF | Some rb => Ok rb end = Ok rb /\
    view rb [] 0 sz /\ blk <= sz) as (rb & sz & Hrb & Hv & Hsz).
  { destruct Hcase as [->|(rb & sz & -> & Hv & Hsz)]; [|by exists rb, sz]. unfold INIT_READBUF.
    destruct (view_new 128) as (rb & -> & Hv & _); [unfold BUF_MAX_SIZE; lia|]. exists rb, 128. split_and!; try done. destruct Hblk; lia. }
  assert (Hinit : exists sk', read_packet_init sock_read junk sk s = Ok (false, set_readbuf (Some rb) s, sk') /\ sk_stream sk' = []).
  { unfold read_packet_init. rewrite Hrb, Hb. cbn [obind]. assert (buf_pos rb = 0) as -> by apply Hv. rewrite u32_small by (destruct Hblk; lia).
    rewrite (view_getwriteptr _ _ _ _ _ Hv) by (destruct Hblk; lia). cbn [obind].
    destruct (sock_read_cases sk (blk - 0)) as (j & _ & [(x & sk' & _ & Hx & Hl & _)|(sk' & -> & Hsk & _)]); [destruct Hblk; lia| |].
    - rewrite Hst in Hx. symmetry in Hx. apply app_eq_nil in Hx as [-> _]. change (zlen []) with 0 in Hl. lia.
    - exists sk'. by rewrite Hsk. }
  destruct Hinit as (sk' & Hinit & Hst'). exists (set_readbuf (Some rb) s), sk'. split_and!; [|split_and!; try done; right; by exists rb, sz|done].
  unfold read_packet. destruct (readbuf s) as [rb'|] eqn:E.
  - injection Hrb as ->. rewrite (view_len _ _ _ _ Hv), Hb, (proj2 (Z.ltb_lt _ _)) by (change (zlen []) with 0; destruct Hblk; lia).
    by rewrite Hinit.
  - by rewrite Hinit.
Qed.

Lemma read_packets_starved junk n : forall s sk, starved s -> sk_stream sk = [] ->
  exists s' sk', read_packets junk n sk s = Ok ([], s', sk').
Proof.
  induction n as [|n IH]; intros s sk Hs Hst; [by eexists _, _|]. cbn [read_packets].
  destruct (read_packet_starved junk s sk Hs Hst) as (s' & sk' & -> & Hs' & Hst'). cbn [obind].
  assert (payload s' = None) as -> by apply Hs'. by apply IH.
Qed.

(** What [n] calls of [read_packet] make of the packets [wbs], sent by [s]. *)
Definition received (junk : nat -> Z) (s : pktses) (wbs : list buffer) (ps : list bytes) : Prop :=
  forall kr sr sk n, keys_linked (trans s) kr -> idle kr (transseq s) (is_compress_trans s) sr ->
    sk_stream sk = concat (map unread wbs) ->
    exists del sr' sk', read_packets junk n sk sr = Ok (del, sr', sk') /\ del `prefix_of` ps /\
      (plenty n sk -> zlen (sk_stream sk) <= Z.of_nat n -> del = ps).

Lemma received_nil junk s : received junk s [] [].
Proof.
  intros kr sr sk n Hk [Hr _ _ Hp Hrb] Hst.
  destruct (read_packets_starved junk n sr sk) as (s' & sk' & ->).
  - split; [rewrite Hr; apply Hk|]. split; [done|by left].
  - done.
  - by exists [], s', sk'.
Qed.

Lemma received_cons junk s s1 p wb wbs ps :
  (forall i, is_byte (junk i)) -> bytes_ok p -> zlen p <= TRANS_MAX_PAYLOAD_LEN ->
  (forall kr, keys_linked (trans s) kr -> exists body pad w, sent p kr s s1 body pad w /\ unread wb = w) ->
  received junk s1 wbs ps -> received junk s (wb :: wbs) (p :: ps).
Proof.
  intros Hj Hp Hpl Hsent IH kr sr sk n Hk Hid Hst. destruct (Hsent kr Hk) as (body & pad & w & Hs & Hw).
  cbn [map concat] in Hst. rewrite Hw in Hst.
  pose proof (idle_receiving kr s s1 body pad w sr Hk Hid) as Hrc.
  destruct (read_packets_one junk Hj p kr s s1 body pad w Hk Hs Hp Hpl (concat (map unread wbs)) n 0 sr sk Hrc Hst)
    as [(s' & sk' & -> & Hlt)|(k & sr1 & sk1 & -> & Hseq & Hrb & Hkl & Hcm & Hst1 & Hpl1)].
  - exists [], s', sk'. split; [done|]. split; [apply prefix_nil|]. intros Hplenty Hn. specialize (Hlt Hplenty).
    rewrite Hst, zlen_app in Hn. pose proof (zlen_nonneg (concat (map unread wbs))). lia.
  - assert (Hcomp : is_compress_trans s1 = is_compress_trans s).
    { unfold is_compress_trans. rewrite (sent_keys _ _ _ _ _ _ _ Hs), (sent_auth _ _ _ _ _ _ _ Hs). done. }
    destruct (IH (recv sr1) (set_payload None sr1) sk1 k Hkl) as (del & s2 & sk2 & -> & Hpre & Hall); [|done|].
    { split; try done; cbn; [by rewrite Hseq, (sent_seq _ _ _ _ _ _ _ Hs)|]. by rewrite Hcomp, <- Hcm. }
    cbn [obind]. exists (p :: del), s2, sk2. split; [done|]. split; [by apply prefix_cons|]. intros Hplenty Hn.
    destruct (Hpl1 Hplenty) as [Hplk Hk1]. f_equal. apply Hall; [done|]. rewrite Hst1. rewrite Hst, zlen_app in Hn. lia.
Qed.

Lemma send_all_ok junk now ps : (forall i, is_byte (junk i)) -> forall s sz,
  (exists kr, keys_linked (trans s) kr) -> view (writepayload s) [] 0 sz -> TRANS_MAX_PAYLOAD_LEN <= sz ->
  Forall (sendable s) ps ->
  exists s' wbs, send_all now s ps = Ok s' /\ writequeue s' = writequeue s ++ wbs /\ received junk s wbs ps.
Proof.
  intros Hj. induction ps as [|p ps IH]; intros s sz [kr Hk] Hv Hsz Hps.
  { exists s, []. split_and!; [done|by rewrite app_nil_r|apply received_nil]. }
  apply Forall_cons in Hps as [(Hp & Hpl & Hgo) Hps]. cbn [send_all].
  destruct (view_putbytes _ _ _ _ p Hv Hp) as (wp & -> & Hwp); [lia|]. cbn [obind].
  rewrite blit_0, drop_nil, app_nil_r in Hwp.
  destruct p as [|t r]; [change (zlen []) with 0 in Hpl; lia|].
  set (s0 := set_writepayload wp s).
  assert (Henc : forall kr, keys_linked (trans s) kr -> exists s1 body pad w, encrypt_packet now s0 = Ok s1 /\ sent (t :: r) kr s0 s1 body pad w).
  { intros kr' Hk'. apply (encrypt_packet_ok now s0 kr' t r (0 + zlen (t :: r)) sz); try done. lia. }
  destruct (Henc kr Hk) as (s1 & body & pad & w & He & Hs). rewrite He. cbn [obind].
  destruct (sent_queue _ _ _ _ _ _ _ Hs) as (wb & szw & Hq & Hwb). change (writequeue s0) with (writequeue s) in Hq.
  destruct (sent_payload _ _ _ _ _ _ _ Hs) as (szp & Hvp & Hszp).
  destruct (IH s1 szp) as (s' & wbs & -> & Hq' & Hrecv).
  - by apply (sent_linked (t :: r) kr s0 _ body pad w).
  - done.
  - rewrite Hszp. change (writepayload s0) with wp. destruct Hwp as [_ _ _ ->]. done.
  - eapply Forall_impl; [exact Hps|]. intros x (? & ? & Hx). split_and!; try done; try lia.
    by rewrite (sent_allowed _ _ _ _ _ _ _ Hs).
  - exists s', (wb :: wbs). split_and!; [done|by rewrite Hq', Hq, <- app_assoc|].
    apply (received_cons junk s0 s1); try done; [lia|]. intros kr' Hk'.
    destruct (Henc kr' Hk') as (s1' & body' & pad' & w' & He' & Hs'). rewrite He in He'. injection He' as <-.
    exists body', pad', w'. split; [done|]. destruct (sent_queue _ _ _ _ _ _ _ Hs') as (wb' & szw' & Hq2 & Hwb').
    change (writequeue s0) with (writequeue s) in Hq2. rewrite Hq in Hq2. apply app_inv_head in Hq2. injection Hq2 as ->.
    rewrite (view_unread _ _ _ _ Hwb'). apply drop_0.
Qed.

(** C1: whatever payloads one side sends while its cipher, MAC and compression states are in
    step with the peer's (stream cipher or AEAD, any MAC length, compressed or not), the
    packets queued by [encrypt_packet] are accepted by the peer's [read_packet] however the
    network cuts the byte stream: no call fails or touches memory out of bounds, the payloads
    delivered are at every moment a prefix of the payloads sent, in order and unchanged, and
    all of them once the stream has been read. *)
Theorem packets_roundtrip junk now s sz kr ps :
  (forall i, is_byte (junk i)) -> keys_linked (trans s) kr -> writequeue s = [] ->
  view (writepayload s) [] 0 sz -> TRANS_MAX_PAYLOAD_LEN <= sz -> Forall (sendable s) ps ->
  exists s', send_all now s ps = Ok s' /\
    forall sr chunks n, idle kr (transseq s) (is_compress_trans s) sr ->
    let sk := mksock (concat (map unread (writequeue s'))) chunks in
    exists del sr' sk', read_packets junk n sk sr = Ok (del, sr', sk') /\ del `prefix_of` ps /\
      (plenty n sk -> zlen (sk_stream sk) <= Z.of_nat n -> del = ps).
Proof using Hblk L.
  intros Hj Hk Hq Hv Hsz Hps. destruct (send_all_ok junk now ps Hj s sz (ex_intro _ kr Hk) Hv Hsz Hps) as (s' & wbs & Hs & Hq' & Hr).
  exists s'. split; [done|]. intros sr chunks n Hid sk. rewrite Hq in Hq'. subst sk. rewrite Hq'. by apply (Hr kr).
Qed.

End correctness.

(** ** A cryptography that satisfies the laws

    A keystream cipher on a counter with a fixed tag in AEAD mode, a 64-byte checksum as
    MAC and an identity compressor: not secure, but it shows the laws are satisfiable. *)
Module Toy.

Fixpoint xor_stream (c : Z) (x : bytes) : bytes :=
  match x with [] => [] | b :: x => Z.lxor b (u8 c) :: xor_stream (c + 1) x end.

Definition tag (n : Z) : bytes := replicate (Z.to_nat n) 7.

#[export] Instance toy : Crypto Z unit := {|
  crypt_encrypt c x := Some (xor_stream c x, c + zlen x);
  crypt_decrypt c x := Some (xor_stream c x, c + zlen x);
  aead_encrypt seq c x n := Some (xor_stream seq x ++ tag n, c);
  aead_decrypt seq c y len n :=
    if (zlen y =? len + n) && bool_decide (drop (Z.to_nat len) y = tag n) then Some (xor_stream seq (take (Z.to_nat len) y), c) else None;
  aead_getlength seq c y := Some (load32h_bytes (xor_stream seq (take 4 y)), c);
  hmac i k m := Some (replicate 64 (u8 (fold_right Z.add 0 (k ++ m))));
  deflate z x room := if zlen x <=? room then (true, 0, x, z) else (false, zlen x, [], z);
  inflate z x room := if zlen x <=? room then (true, 0, x, z) else (false, zlen x, [], z);
  genrandom n := Z.of_nat n;
|}.

Lemma xor_stream_zlen x : forall c, zlen (xor_stream c x) = zlen x.
Proof. induction x as [|b x IH]; intros c; [done|]. cbn. by rewrite !zlen_cons, IH. Qed.

Lemma xor_stream_ok x : forall c, bytes_ok x -> bytes_ok (xor_stream c x).
Proof.
  induction x as [|b x IH]; intros c Hx; [done|]. apply Forall_cons in Hx as [Hb Hx]. cbn. constructor; [|by apply IH].
  apply lxor_lt_256; [done|apply u8_range].
Qed.

Lemma xor_stream_inv x : forall c, xor_stream c (xor_stream c x) = x.
Proof. induction x as [|b x IH]; intros c; [done|]. cbn. by rewrite IH, Z.lxor_assoc, Z.lxor_nilpotent, Z.lxor_0_r. Qed.

Lemma xor_stream_app x y : forall c, xor_stream c (x ++ y) = xor_stream c x ++ xor_stream (c + zlen x) y.
Proof.
  induction x as [|b x IH]; intros c; cbn; [by rewrite Z.add_0_r|]. rewrite IH, zlen_cons. do 3 f_equal. lia.
Qed.

Lemma xor_stream_take n x : forall c, take n (xor_stream c x) = xor_stream c (take n x).
Proof. revert x. induction n as [|n IH]; intros [|b x] c; try done. cbn. by rewrite IH. Qed.

#[export] Instance toy_laws : CryptoLaws toy 16 eq (fun _ _ => True).
Proof.
  split; cbn.
  - intros a b x <- Hx _. exists (xor_stream a x), (a + zlen x), (a + zlen x).
    rewrite xor_stream_inv, xor_stream_zlen. split_and!; try done. by apply xor_stream_ok.
  - intros a x1 x2 y a' _ _ [= <- <-]. exists (xor_stream a x1), (a + zlen x1), (xor_stream (a + zlen x1) x2).
    rewrite xor_stream_app, zlen_app. split_and!; try done. do 2 f_equal. lia.
  - intros seq a x n Hx Hl Hm Hn. exists (xor_stream seq x ++ tag n), a. pose proof (xor_stream_zlen x seq) as Hz.
    assert (Ht : zlen (tag n) = n) by (unfold tag, zlen; rewrite length_replicate; lia).
    split; [done|]. split; [by rewrite zlen_app, Hz, Ht|]. split.
    { apply Forall_app; split; [by apply xor_stream_ok|]. apply Forall_replicate. unfold is_byte. lia. }
    rewrite drop_app_length', take_app_length' by (unfold zlen in *; lia). split; intros b <-.
    + exists a. rewrite zlen_app, Hz, Ht, Z.eqb_refl. by rewrite bool_decide_true, xor_stream_inv.
    + exists a. rewrite take_take, take_app_le, xor_stream_take, xor_stream_inv; [done|]. unfold zlen in *. rewrite ?length_take. lia.
  - intros i k m. eexists. split_and!; [done|done|]. repeat constructor; apply u8_range.
  - intros a b x room _ Hx Hl Hr. exists x, tt, tt. destruct a, b. unfold ZLIB_COMPRESS_EXPANSION, RECV_MAX_PAYLOAD_LEN in *.
    rewrite !(proj2 (Z.leb_le _ _)) by lia. split_and!; try done; lia.
Qed.

Definition key : keydir Z unit := mkkeydir 16 20 0 [1; 2; 3] false DROPBEAR_COMP_NONE 42 tt.

Definition session (wp : buffer) : pktses Z unit :=
  mkpktses key key wp [] 0 None None 0 7 7 true [] true 0 0 0 0 0.

Definition writepayload0 : buffer := mkbuf (replicate (Z.to_nat TRANS_MAX_PAYLOAD_LEN) 0) 0 0 TRANS_MAX_PAYLOAD_LEN.

Definition messages : list bytes := [[SSH_MSG_SERVICE_REQUEST; 1; 2]; replicate 40 (SSH_MSG_SERVICE_ACCEPT)].
End Toy.

Lemma packets_roundtrip_witness :
  exists s', send_all (C := Toy.toy) 0 (Toy.session Toy.writepayload0) Toy.messages = Ok s' /\
    exists sr' sk', read_packets (C := Toy.toy) (fun _ => 0) 200 (mksock (concat (map unread (writequeue s'))) (replicate 400 3))
                      (Toy.session Toy.writepayload0) = Ok (Toy.messages, sr', sk').
Proof.
  set (s := Toy.session Toy.writepayload0).
  assert (Hw : view Toy.writepayload0 [] 0 TRANS_MAX_PAYLOAD_LEN).
  { destruct (view_new TRANS_MAX_PAYLOAD_LEN) as (b & Hb & Hv & _); [vm_compute; split; congruence|].
    injection Hb as <-. exact Hv. }
  destruct (packets_roundtrip (L := Toy.toy_laws) (or_intror eq_refl) (fun _ => 0) 0 s TRANS_MAX_PAYLOAD_LEN Toy.key Toy.messages)
    as (s' & Hs & Hrun); [wit|split; wit|done|done|done|repeat constructor; wit|].
  exists s'. split; [done|].
  assert (Hlen : zlen (concat (map unread (writequeue s'))) <= 200).
  { assert (Hc : match send_all (C := Toy.toy) 0 s Toy.messages with Ok x => zlen (concat (map unread (writequeue x))) <=? 200 | _ => false end = true)
      by (vm_compute; reflexivity). rewrite Hs in Hc. lia. }
  destruct (Hrun s (replicate 400 3) 200%nat) as (del & sr' & sk' & Hr & _ & Hall); [by split|].
  assert (del = Toy.messages) as -> by (apply Hall; [split; [apply Forall_replicate; lia|apply Nat.leb_le; vm_compute; reflexivity]|done]).
  by exists sr', sk'.
Defined.
