(* ===== verification/PacketQueues.v ===== *)
(** * The queues of the packet layer

    Packets wait in two places: payloads that may not be sent during a key exchange
    (reply_queue, packet.c) and encrypted packets on their way to the socket (writequeue,
    with the [writev] of netio.c).  This file shows both are first-in first-out and lose
    nothing, gives the format of a packet on the wire (RFC 4253 section 6), and shows that
    nothing is accepted from the peer whose MAC is not the one computed here. *)

From S2P Require Import Prelude Bytes Buffer Packet Transport.

Section queues.
Context {CS ZS : Type} {C : Crypto CS ZS}.

Abbreviation keydir := (keydir CS ZS).
Abbreviation pktses := (pktses CS ZS).

(** ** Writing to the socket *)

(** The bytes still to be written. *)
Definition pending (q : list buffer) : bytes := concat (map unread q).

Definition queue_ok (q : list buffer) : Prop := Forall (fun b => wf b /\ 0 < zlen (unread b)) q.

Lemma packet_queue_to_iovec_ok q n : queue_ok q -> packet_queue_to_iovec q n = Ok (map unread (take n q)).
Proof.
  revert n. induction q as [|b q IH]; intros [|n] Hq; try done. apply Forall_cons in Hq as [[Hb Hl] Hq].
  cbn [packet_queue_to_iovec]. rewrite unread_zlen in Hl by done. rewrite (proj2 (Z.ltb_lt _ _)) by lia. cbn [oassert obind].
  rewrite <- unread_zlen by done. destruct (unread_read b (unread b) []) as (-> & _); [done|by rewrite app_nil_r|].
  cbn [obind]. by rewrite IH.
Qed.

Lemma pending_cons b q : pending (b :: q) = unread b ++ pending q.
Proof. done. Qed.

Lemma pending_app q1 q2 : pending (q1 ++ q2) = pending q1 ++ pending q2.
Proof. unfold pending. by rewrite map_app, concat_app. Qed.

Lemma packet_queue_consume_ok q : forall n, queue_ok q -> 0 <= n <= zlen (pending q) ->
  exists q', packet_queue_consume q n = Ok q' /\ queue_ok q' /\ pending q' = drop (Z.to_nat n) (pending q).
Proof.
  induction q as [|b q IH]; intros n Hq Hn; cbn [packet_queue_consume].
  - change (zlen (pending [])) with 0 in Hn. rewrite (proj2 (Z.ltb_ge _ _)) by lia. exists []. split_and!; try done.
    change (pending []) with (@nil Z). by rewrite drop_nil.
  - rewrite pending_cons in *. pose proof (Forall_cons_1 _ _ _ Hq) as [[Hb Hl] Hq']. rewrite zlen_app in Hn.
    destruct (Z.ltb_spec 0 n) as [Hn0|Hn0].
    2:{ exists (b :: q). rewrite pending_cons. replace n with 0 by lia. by split_and!. }
    rewrite <- unread_zlen by done. destruct (Z.ltb_spec n (zlen (unread b))) as [Hlt|Hge].
    + destruct (unread_read b (take (Z.to_nat n) (unread b)) (drop (Z.to_nat n) (unread b)) Hb) as (_ & Hr & Hw); [by rewrite take_drop|].
      rewrite zlen_take in * by lia. rewrite unread_zlen in Hlt by done.
      pose proof (wf_pos _ Hb). pose proof (wf_len _ Hb). pose proof (wf_size _ Hb). unfold BUF_MAX_SIZE in *.
      rewrite buf_incrpos_advance by (done || lia). cbn [obind]. exists (advance b n :: q). split; [done|]. split.
      * constructor; [|done]. split; [done|]. rewrite Hr, zlen_drop; rewrite ?unread_zlen by done; lia.
      * rewrite pending_cons, Hr, drop_app_le; [done|]. rewrite <- unread_zlen in Hlt by done. unfold zlen in *. lia.
    + destruct (IH (n - zlen (unread b)) Hq') as (q' & -> & Hok & Hp); [lia|]. exists q'. split_and!; try done.
      rewrite Hp, drop_app_ge by (unfold zlen in *; lia). f_equal. unfold zlen in *. lia.
Qed.

Lemma pending_take q k : exists rest, pending q = pending (take k q) ++ rest.
Proof. exists (pending (drop k q)). by rewrite <- pending_app, take_drop. Qed.

(** [write_packet] hands the unwritten bytes of the first 50 packets to [writev] in
    queue order; when [writev] takes [n] of them the queue then holds exactly the rest of the
    stream, packet boundaries inside a partial write included, and the byte count of the queue
    stays right; when it takes none for now the session is unchanged. *)
Theorem write_packet_stream (s : pktses) r :
  queue_ok (writequeue s) -> writequeue s <> [] -> writequeue_len s = u32 (zlen (pending (writequeue s))) ->
  let iov := map unread (take 50 (writequeue s)) in
  match r iov with
  | Written n => 0 <= n <= zlen (concat iov) ->
      if n =? 0 then write_packet r s = Exit "Exited normally"
      else exists s', write_packet r s = Ok s' /\ queue_ok (writequeue s') /\
        pending (writequeue s') = drop (Z.to_nat n) (pending (writequeue s)) /\
        writequeue_len s' = u32 (zlen (pending (writequeue s')))
  | WriteAgain => write_packet r s = Ok s
  | WriteError => write_packet r s = Exit "Error writing: %s"
  end.
Proof.
  intros Hq Hne Hlen iov. unfold write_packet. destruct (writequeue s) as [|b q] eqn:Hwq; [done|]. cbn [oassert obind].
  rewrite packet_queue_to_iovec_ok by done. cbn [obind]. subst iov. destruct (r _) as [n| |]; try done.
  intros Hn. destruct (pending_take (b :: q) 50) as [rest Hrest]. pose proof (zlen_nonneg rest) as Hr0.
  assert (Htot : zlen (pending (b :: q)) = zlen (concat (map unread (take 50 (b :: q)))) + zlen rest) by (rewrite Hrest, zlen_app; done).
  destruct (packet_queue_consume_ok (b :: q) n Hq) as (q' & -> & Hok & Hp); [lia|]. cbn [obind].
  destruct (Z.eqb_spec n 0); [done|]. eexists. split; [done|]. cbn [writequeue writequeue_len set_writequeue set_writequeue_len]. split_and!; try done.
  rewrite Hp, zlen_drop, Hlen by lia. unfold u32. rewrite Zminus_mod_idemp_l. done.
Qed.

(** ** Replies during a key exchange *)

Lemma view_newcopy b bs p sz : view b bs p sz -> exists b', buf_newcopy b = Ok b' /\ view b' bs 0 (zlen bs).
Proof.
  intros Hv. pose proof (view_len _ _ _ _ Hv) as Hl. pose proof (view_bounds _ _ _ _ Hv) as Hb. pose proof (view_bytes _ _ _ _ Hv) as Hok.
  unfold buf_newcopy. rewrite Hl. destruct (view_new (zlen bs)) as (b0 & -> & Hv0 & _); [lia|]. cbn [obind buf_data buf_len buf_pos buf_size].
  assert (buf_pos b0 = 0) as -> by apply Hv0. assert (buf_size b0 = zlen bs) as -> by apply Hv0.
  assert (Hmem : mem_read (buf_data b) 0 (zlen bs) = Ok bs).
  { destruct Hv as [[] Hu _ _]. unfold used in Hu. rewrite Hl in Hu. rewrite mem_read_in by lia. by rewrite Hu. }
  assert (Hd0 : zlen (buf_data b0) = zlen bs) by (destruct Hv0 as [[] _ _ <-]; done).
  destruct (Z.ltb_spec 0 (zlen bs)).
  - rewrite Hmem. cbn [obind]. rewrite mem_write_in by lia. cbn [obind]. rewrite blit_all by done.
    eexists. split; [done|]. split; try done; [split; cbn; lia || done|]. unfold used. cbn. apply sub_all.
  - destruct bs; [|rewrite zlen_cons in *; pose proof (zlen_nonneg bs); lia]. eexists. split; [done|].
    change (zlen []) with 0 in *. split; try done. destruct Hv0 as [[] _ _ _]. split; cbn; try done; lia.
Qed.

Lemma enqueue_reply_ok (s : pktses) p sz q :
  view (writepayload s) p q sz -> zlen (reply_queue s) <= MAX_DEFER_REPLY_QUEUE ->
  exists pl wp, enqueue_reply_packet s = Ok (set_reply_queue (reply_queue s ++ [pl]) (set_writepayload wp s)) /\
    wf pl /\ used pl = p /\ view wp [] 0 sz.
Proof.
  intros Hv Hl. unfold enqueue_reply_packet. rewrite (proj2 (Z.ltb_ge _ _)) by lia. cbn [exit_if obind].
  destruct (view_newcopy _ _ _ _ Hv) as (pl & -> & Hpl). cbn [obind].
  pose proof (view_bounds _ _ _ _ Hv) as Hb.
  destruct (view_setpos _ _ _ _ 0 Hv) as (wp & -> & Hwp); [lia|]. cbn [obind].
  destruct (view_setlen _ _ _ _ 0 Hwp) as (wp' & ext & -> & Hwp' & Hext); [lia|]. cbn [obind].
  assert (ext = []) as -> by (destruct ext; [done|rewrite zlen_cons in Hext; pose proof (zlen_nonneg ext); lia]).
  exists pl, wp'. split_and!; [done|by destruct Hpl..|done].
Qed.

Lemma flush_replies_send_all now q : forall s : pktses, Forall wf q -> flush_replies now q s = send_all now s (map used q).
Proof.
  induction q as [|pl q IH]; intros s Hq; [done|]. apply Forall_cons in Hq as [Hw Hq]. cbn [flush_replies send_all map].
  pose proof (wf_pos _ Hw). pose proof (wf_len _ Hw). pose proof (wf_data _ Hw).
  rewrite mem_read_in by lia. cbn [obind]. fold (used pl). rewrite used_zlen by done.
  destruct (buf_putbytes _ _ _); cbn [obind]; try done. destruct (encrypt_packet _ _); cbn [obind]; try done. by apply IH.
Qed.

(** A payload that has to wait for the end of the key exchange. *)
Definition deferrable (p : bytes) : Prop :=
  bytes_ok p /\ 0 < zlen p <= TRANS_MAX_PAYLOAD_LEN /\ match p with t :: _ => packet_is_okay_kex t = false | [] => False end.

Lemma encrypt_packet_deferred now (s : pktses) p q sz :
  dataallowed s = false -> deferrable p -> view (writepayload s) p q sz -> zlen (reply_queue s) <= MAX_DEFER_REPLY_QUEUE ->
  exists pl wp, encrypt_packet now s = Ok (set_reply_queue (reply_queue s ++ [pl]) (set_writepayload wp s)) /\
    wf pl /\ used pl = p /\ view wp [] 0 sz.
Proof.
  intros Hda (Hp & Hl & Ht) Hv Hq. pose proof (view_bounds _ _ _ _ Hv) as Hb. destruct p as [|t r]; [done|].
  unfold encrypt_packet. destruct (view_setpos _ _ _ _ 0 Hv) as (b1 & -> & Hv1); [lia|]. cbn [obind].
  destruct (view_getbyte _ _ _ _ t Hv1 eq_refl) as (b2 & -> & Hv2). cbn [obind].
  destruct (view_setpos _ _ _ _ 0 Hv2) as (b3 & -> & Hv3); [lia|]. cbn [obind]. cbn [dataallowed set_writepayload].
  rewrite Hda, Ht. cbn [negb andb]. by apply (enqueue_reply_ok (set_writepayload b3 s) (t :: r) sz 0).
Qed.

Lemma send_all_deferred now ps : forall (s : pktses) sz,
  dataallowed s = false -> view (writepayload s) [] 0 sz -> TRANS_MAX_PAYLOAD_LEN <= sz -> Forall deferrable ps ->
  zlen (reply_queue s) + zlen ps <= MAX_DEFER_REPLY_QUEUE + 1 ->
  exists qs wp, send_all now s ps = Ok (set_reply_queue (reply_queue s ++ qs) (set_writepayload wp s)) /\
    Forall wf qs /\ map used qs = ps /\ view wp [] 0 sz.
Proof.
  induction ps as [|p ps IH]; intros s sz Hda Hv Hsz Hps Hn.
  { exists [], (writepayload s). split_and!; try done. rewrite app_nil_r. by destruct s. }
  apply Forall_cons in Hps as [Hp Hps]. pose proof Hp as (Hok & Hl & _). cbn [send_all]. rewrite zlen_cons in Hn. pose proof (zlen_nonneg ps).
  destruct (view_putbytes _ _ _ _ p Hv Hok) as (wp & -> & Hwp); [lia|]. cbn [obind]. rewrite blit_0, drop_nil, app_nil_r in Hwp.
  destruct (encrypt_packet_deferred now (set_writepayload wp s) p (0 + zlen p) sz Hda Hp Hwp) as (pl & wp' & -> & Hpl & Hu & Hwp');
    [cbn; lia|]. cbn [obind]. cbn [reply_queue set_writepayload].
  destruct (IH (set_reply_queue (reply_queue s ++ [pl]) (set_writepayload wp' (set_writepayload wp s))) sz) as (qs & wp2 & -> & Hqs & Hus & Hv2);
    try done; [cbn; rewrite zlen_app; change (zlen [pl]) with 1; lia|].
  exists (pl :: qs), wp2. split_and!; [cbn; by rewrite <- app_assoc|by constructor|by cbn; rewrite Hu, Hus|done].
Qed.

(** C16: during a key exchange a payload that may not be sent is kept: nothing reaches the
    write queue, the sequence number and the keys do not change, and flushing does nothing.
    Once data is allowed again, under whatever keys were agreed, [maybe_flush_reply_queue]
    sends exactly those payloads in their order, as if they had been sent only now. *)
Theorem replies_deferred now (s : pktses) sz ps :
  dataallowed s = false -> reply_queue s = [] -> view (writepayload s) [] 0 sz -> TRANS_MAX_PAYLOAD_LEN <= sz ->
  Forall deferrable ps -> zlen ps <= MAX_DEFER_REPLY_QUEUE + 1 ->
  exists s1, send_all now s ps = Ok s1 /\
    writequeue s1 = writequeue s /\ transseq s1 = transseq s /\ trans s1 = trans s /\
    maybe_flush_reply_queue now s1 = Ok s1 /\
    forall now' s2, dataallowed s2 = true -> reply_queue s2 = reply_queue s1 ->
      maybe_flush_reply_queue now' s2 = (let* s3 := send_all now' s2 ps in Ok (set_reply_queue [] s3)).
Proof.
  intros Hda Hrq Hv Hsz Hps Hn.
  destruct (send_all_deferred now ps s sz Hda Hv Hsz Hps) as (qs & wp & -> & Hqs & Hus & Hv'); [rewrite Hrq; change (zlen []) with 0; lia|].
  rewrite Hrq. cbn [app]. eexists. split; [done|]. split_and!; try done.
  - unfold maybe_flush_reply_queue. cbn. by rewrite Hda.
  - intros now' s2 Hda2 Hq2. unfold maybe_flush_reply_queue. rewrite Hda2, Hq2. cbn [negb reply_queue set_reply_queue].
    by rewrite flush_replies_send_all, Hus.
Qed.
End queues.

(** ** The wire format and integrity *)

Section format.
Context {CS ZS : Type} {C : Crypto CS ZS} {blk : Z} {CR : CS -> CS -> Prop} {ZR : ZS -> ZS -> Prop}.
Context {L : CryptoLaws C blk CR ZR} (Hblk : blk = 8 \/ blk = 16).

(** the packet [encrypt_packet] queues is the encryption of: its own length in four
    bytes, the padding length, the payload (or its compressed form) and the padding; there are
    4 to 255 bytes of padding, the whole is at least 16 bytes long and what is encrypted is a
    multiple of the block size (RFC 4253 section 6), with the MAC of the sequence number and
    the clear text appended, and the sequence number goes up by one modulo 2^32. *)
Theorem encrypt_packet_format now (s : pktses CS ZS) kr p q sz :
  keys_linked (CR := CR) (ZR := ZR) (blk := blk) (trans s) kr -> view (writepayload s) p q sz ->
  0 < zlen p <= TRANS_MAX_PAYLOAD_LEN -> dataallowed s || match p with t :: _ => packet_is_okay_kex t | [] => false end = true ->
  exists s' wb body pad w, encrypt_packet now s = Ok s' /\ writequeue s' = writequeue s ++ [wb] /\ unread wb = w /\
    wire (trans s) (transseq s) (store32h (zlen body + zlen pad + 1) ++ [zlen pad] ++ body ++ pad) w (cipher_state (trans s')) /\
    4 <= zlen pad <= 255 /\ 16 <= 5 + zlen body + zlen pad /\
    ((if aead (trans s) then 0 else 4) + 1 + zlen body + zlen pad) mod blk = 0 /\
    zlen w = 5 + zlen body + zlen pad + hashsize (trans s) /\
    (is_compress_trans s = false -> body = p) /\ transseq s' = u32 (transseq s + 1).
Proof.
  intros Hk Hv Hl Hgo. destruct p as [|t r]; [change (zlen []) with 0 in Hl; lia|].
  destruct (encrypt_packet_ok Hblk now s kr t r q sz Hk Hv) as (s' & body & pad & w & He & Hs); [lia|done|].
  pose proof (sent_frame _ _ _ _ _ _ _ Hs) as Hf. pose proof (sent_wire _ _ _ _ _ _ _ Hs) as Hw.
  destruct (sent_queue _ _ _ _ _ _ _ Hs) as (wb & szw & Hq & Hwb). pose proof (sent_body _ _ _ _ _ _ _ Hs) as Hb.
  destruct (wire_zlen Hblk _ _ _ _ _ _ _ Hk Hf Hw) as [Hwl _]. rewrite frame_zlen in Hwl.
  destruct Hf as (_ & _ & Hpad & Hmin & Hmod & _). rewrite frame_zlen in Hmin, Hmod.
  exists s', wb, body, pad, w. split_and!; try done; try lia.
  - by rewrite (view_unread _ _ _ _ Hwb).
  - replace (zlen body + zlen pad + 1) with (1 + zlen body + zlen pad) by lia. exact Hw.
  - destruct (aead (trans s)); rewrite <- Hmod; f_equal; lia.
  - intros Hc. rewrite Hc in Hb. by destruct Hb.
  - apply Hs.
Qed.
End format.

Section integrity.
Context {CS ZS : Type} {C : Crypto CS ZS}.

(** What a complete packet in the read buffer decrypts to: the first block is in clear
    already. *)
Definition tampered (s : pktses CS ZS) (bs : bytes) : Prop :=
  let k := recv s in
  let body := zlen bs - hashsize k in
  if aead k then aead_decrypt (recvseq s) (cipher_state k) bs body (hashsize k) = None
  else exists out c m, crypt_decrypt (cipher_state k) (sub bs (blocksize k) (body - blocksize k)) = Some (out, c) /\
    zlen out = body - blocksize k /\ bytes_ok out /\
    hmac (hash_index k) (mackey k) (store32h (recvseq s) ++ take (Z.to_nat (blocksize k)) bs ++ out) = Some m /\
    zlen m = MAX_MAC_LEN /\ bytes_ok m /\
    take (Z.to_nat (hashsize k)) m <> drop (Z.to_nat body) bs.

Lemma checkmac_mismatch (s : pktses CS ZS) rb fr x m p sz :
  0 < hashsize (recv s) <= MAX_MAC_LEN -> view rb (fr ++ x) p sz -> zlen x = hashsize (recv s) ->
  hmac (hash_index (recv s)) (mackey (recv s)) (store32h (recvseq s) ++ fr) = Some m -> zlen m = MAX_MAC_LEN -> bytes_ok m ->
  take (Z.to_nat (hashsize (recv s))) m <> x -> exists rb', checkmac rb s = Ok (false, rb').
Proof.
  intros Hh Hv Hx Hm Hml Hmok Hne. pose proof (view_bounds _ _ _ _ Hv) as Hb. pose proof (view_len _ _ _ _ Hv) as Hl.
  pose proof (view_bytes _ _ _ _ Hv) as [_ Hxok]%Forall_app. pose proof (zlen_nonneg fr). rewrite zlen_app in *.
  unfold BUF_MAX_SIZE, MAX_MAC_LEN in *. unfold checkmac. rewrite Hl, u32_small by lia.
  replace (zlen fr + zlen x - hashsize (recv s)) with (zlen fr) by lia.
  destruct (view_setpos _ _ _ _ 0 Hv) as (b & -> & Hv0); [rewrite zlen_app; lia|]. cbn [obind]. unfold make_mac.
  rewrite (proj2 (Z.ltb_lt _ _)) by lia. destruct (view_setpos _ _ _ _ 0 Hv0) as (b1 & -> & Hv1); [rewrite zlen_app; lia|]. cbn [obind].
  rewrite (view_read _ _ _ _ (zlen fr) Hv1) by (rewrite ?zlen_app; lia). rewrite sub_app_l, sub_all by lia. cbn [obind]. rewrite Hm. cbn beta iota.
  destruct (view_setpos _ _ _ _ (zlen fr) Hv1) as (b2 & Hsp & Hv2); [rewrite zlen_app; lia|]. cbn [obind]. rewrite Hsp. cbn [obind].
  rewrite (view_read _ _ _ _ (hashsize (recv s)) Hv2) by (rewrite ?zlen_app; lia). cbn [obind]. rewrite sub_app_r_at, <- Hx, sub_all.
  exists b2. do 2 f_equal. rewrite Hx. apply Z.eqb_neq. rewrite constant_time_memcmp_eq; [done|by apply Forall_take|done|].
  rewrite length_take. unfold zlen in *. lia.
Qed.

(** C8: a packet whose MAC is not the MAC of the sequence number and the decrypted text (or
    that the AEAD cipher rejects) ends the connection: no payload is delivered. *)
Theorem tampered_packet_rejected (s : pktses CS ZS) rb bs p sz :
  0 < hashsize (recv s) <= MAX_MAC_LEN -> 0 <= blocksize (recv s) -> blocksize (recv s) + hashsize (recv s) <= zlen bs ->
  readbuf s = Some rb -> view rb bs p sz -> tampered s bs ->
  decrypt_packet s = Exit (if aead (recv s) then "Error decrypting" else "Integrity error").
Proof.
  intros Hh Hblk Hl Hrb Hv Ht. pose proof (view_bounds _ _ _ _ Hv) as Hb. unfold BUF_MAX_SIZE, MAX_MAC_LEN in *.
  unfold decrypt_packet, tampered, decrypt_crypt in *. rewrite Hrb. set (s2 := set_datarecv _ s). change (recv s2) with (recv s).
  change (recvseq s2) with (recvseq s). destruct (aead (recv s)) eqn:Hae.
  - destruct (view_setpos _ _ _ _ 0 Hv) as (b & -> & Hv0); [lia|]. cbn [obind]. rewrite (view_len _ _ _ _ Hv0).
    assert (buf_pos b = 0) as -> by apply Hv0. rewrite (u32_small (zlen bs - hashsize (recv s) - 0)), u32_small by lia.
    rewrite (view_read _ _ _ _ _ Hv0) by lia. cbn [obind]. rewrite (view_getwriteptr _ _ _ _ _ Hv0) by lia. cbn [obind].
    replace (zlen bs - hashsize (recv s) - 0 + hashsize (recv s)) with (zlen bs) by lia. rewrite sub_all, Z.sub_0_r. by rewrite Ht.
  - destruct Ht as (out & c & m & Hd & Hol & Hook & Hm & Hml & Hmok & Hne).
    destruct (view_setpos _ _ _ _ (blocksize (recv s)) Hv) as (b & -> & Hv0); [lia|]. cbn [obind]. rewrite (view_len _ _ _ _ Hv0).
    assert (buf_pos b = blocksize (recv s)) as -> by apply Hv0. rewrite u32_small by lia.
    rewrite (view_read _ _ _ _ _ Hv0) by lia. cbn [obind]. rewrite (view_getwriteptr _ _ _ _ _ Hv0) by lia. cbn [obind]. rewrite Hd.
    destruct (view_overwrite _ _ _ _ (blocksize (recv s)) out Hv0 Hook) as (b1 & -> & Hv1); [lia|lia|]. cbn [obind].
    destruct (view_incrpos _ _ _ _ (zlen bs - hashsize (recv s) - blocksize (recv s)) Hv1) as (b2 & -> & Hv2); [lia|rewrite zlen_blit; lia|]. cbn [obind].
    assert (Hbl : blit bs (blocksize (recv s)) out = (take (Z.to_nat (blocksize (recv s))) bs ++ out) ++ drop (Z.to_nat (zlen bs - hashsize (recv s))) bs).
    { unfold blit. rewrite <- app_assoc. do 3 f_equal. unfold zlen in *. lia. }
    rewrite Hbl in Hv2. destruct (checkmac_mismatch s2 b2 _ _ m _ _ Hh Hv2) as (rb' & ->); try done.
    rewrite zlen_drop; cbn; lia.
Qed.
End integrity.

(** ** Witnesses *)

Lemma toy_writepayload_view : view Toy.writepayload0 [] 0 TRANS_MAX_PAYLOAD_LEN.
Proof.
  destruct (view_new TRANS_MAX_PAYLOAD_LEN) as (b & Hb & Hv & _); [vm_compute; split; congruence|].
  injection Hb as <-. exact Hv.
Qed.

Lemma write_packet_stream_witness :
  let s := set_writequeue_len 3 (set_writequeue [mkbuf [1; 2; 3] 3 1 3; mkbuf [4] 1 0 1] (Toy.session Toy.writepayload0)) in
  exists s', write_packet (fun _ => Written 2) s = Ok s' /\ pending (writequeue s') = [4] /\ writequeue_len s' = 1.
Proof.
  intros s. destruct (write_packet_stream s (fun _ => Written 2)) as (s' & Hs & _ & Hp & Hl).
  - repeat constructor; wit.
  - done.
  - done.
  - vm_compute. split; congruence.
  - exists s'. rewrite Hl, Hp. split_and!; [done|done|done].
Defined.

Lemma replies_deferred_witness :
  let s := set_dataallowed false (Toy.session Toy.writepayload0) in
  let ps := [[94; 0; 1]; [90]] in
  exists s1, send_all (C := Toy.toy) 0 s ps = Ok s1 /\ writequeue s1 = [] /\ map used (reply_queue s1) = ps /\
    maybe_flush_reply_queue (C := Toy.toy) 5 (set_dataallowed true s1) =
      (let* s3 := send_all (C := Toy.toy) 5 (set_dataallowed true s1) ps in Ok (set_reply_queue [] s3)).
Proof.
  intros s ps. destruct (replies_deferred (C := Toy.toy) 0 s TRANS_MAX_PAYLOAD_LEN ps) as (s1 & Hs & Hq & _ & _ & _ & Hf).
  - done.
  - done.
  - exact toy_writepayload_view.
  - done.
  - repeat constructor; wit.
  - vm_compute. congruence.
  - exists s1. split; [done|]. split; [done|]. split; [|by apply Hf].
    assert (Hu : match send_all (C := Toy.toy) 0 s ps with Ok s1 => map used (reply_queue s1) | _ => [] end = ps) by (vm_compute; reflexivity).
    by rewrite Hs in Hu.
Defined.

Lemma encrypt_packet_format_witness :
  let s := Toy.session (mkbuf (SSH_MSG_SERVICE_REQUEST :: replicate 99 0) 7 7 100) in
  exists s' wb, encrypt_packet (C := Toy.toy) 0 s = Ok s' /\ writequeue s' = [wb] /\ zlen (unread wb) mod 16 = 4 /\ transseq s' = 8.
Proof.
  intros s. destruct (encrypt_packet_format (L := Toy.toy_laws) (or_intror eq_refl) 0 s Toy.key
    (SSH_MSG_SERVICE_REQUEST :: replicate 6 0) 7 100) as (s' & wb & body & pad & w & He & Hq & Hu & _ & Hp & _ & Hm & Hw & _ & Ht).
  - by split.
  - split; try done. split; try done; [apply Forall_cons; split; [done|apply Forall_replicate; done]|done..].
  - done.
  - done.
  - exists s', wb. split; [exact He|]. split; [exact Hq|]. split; [|by rewrite Ht].
    rewrite Hu, Hw. change (hashsize (trans s)) with 20. change (aead (trans s)) with false in Hm. cbn iota in Hm. lia.
Defined.

Lemma tampered_packet_rejected_witness :
  let s := set_readbuf (Some (mkbuf (replicate 36 0) 36 36 36)) (Toy.session Toy.writepayload0) in
  decrypt_packet (C := Toy.toy) s = Exit "Integrity error".
Proof.
  intros s. apply (tampered_packet_rejected (C := Toy.toy) s (mkbuf (replicate 36 0) 36 36 36) (replicate 36 0) 36 36).
  - done.
  - done.
  - done.
  - done.
  - split; try done. split; try done. apply Forall_replicate. done.
  - exists [], 42, (replicate 64 13). split_and!; [vm_compute; reflexivity|vm_compute; reflexivity|constructor|vm_compute; reflexivity
      |vm_compute; reflexivity|by apply (Forall_replicate is_byte 64)|vm_compute; congruence].
Defined.
