(* ===== verification/PacketSafety.v ===== *)
(** * The packet layer is memory safe

    Whatever the peer sends and however the socket behaves, no operation of the packet layer
    reads or writes outside a buffer: the only ways out of the ordinary are the exits the code
    asks for.  Nothing is assumed of the ciphers here but the sizes of their outputs
    ([CryptoSane]); in particular the peer may hold other keys. *)

From S2P Require Import Prelude Bytes Buffer Packet Transport PacketQueues.

(** ** Buffers by their numbers *)

(** [b] is well formed, with length [l], position [p] and size [sz]. *)
Record shape (b : buffer) (l p sz : Z) : Prop := {
  sh_wf : wf b;
  sh_len : buf_len b = l;
  sh_pos : buf_pos b = p;
  sh_size : buf_size b = sz;
}.

Lemma shape_self b : wf b -> shape b (buf_len b) (buf_pos b) (buf_size b).
Proof. by split. Qed.

Lemma shape_bounds b l p sz : shape b l p sz -> 0 <= p <= l /\ l <= sz <= BUF_MAX_SIZE.
Proof. intros [[] <- <- <-]. lia. Qed.

Lemma shape_view b l p sz : shape b l p sz -> view b (used b) p sz /\ zlen (used b) = l.
Proof. intros [Hw Hl Hp Hs]. split; [by split|]. by rewrite used_zlen. Qed.

Lemma view_shape b bs p sz : view b bs p sz -> shape b (zlen bs) p sz.
Proof. intros Hv. split; [by destruct Hv|by apply (view_len _ _ _ _ Hv)|by destruct Hv|by destruct Hv]. Qed.

Create HintDb shape.

(** [by_view H]: an operation that succeeds, by its [view] lemma, when it is in bounds. *)
Lemma shape_setpos b l p sz q : shape b l p sz -> 0 <= q -> opost (fun b' => q <= l /\ shape b' l q sz) (buf_setpos b q).
Proof.
  intros Hs Hq. destruct (Z.le_gt_cases q l).
  - destruct (shape_view _ _ _ _ Hs) as [Hv Hl]. destruct (view_setpos _ _ _ _ q Hv) as (b' & -> & Hv'); [lia|].
    cbn. rewrite <- Hl. split; [lia|by apply view_shape].
  - unfold buf_setpos. rewrite (proj2 (Z.ltb_lt _ _)) by (destruct Hs; lia). exact I.
Qed.

Lemma shape_setlen b l p sz n : shape b l p sz -> 0 <= n -> opost (fun b' => n <= sz /\ shape b' n (Z.min p n) sz) (buf_setlen b n).
Proof.
  intros Hs Hn. pose proof (shape_bounds _ _ _ _ Hs). destruct Hs as [Hw Hl Hp Hz]. unfold buf_setlen.
  destruct (Z.ltb_spec (buf_size b) n); cbn; [done|]. split; [lia|]. split; cbn; try lia. bwf. split; cbn; unfold BUF_MAX_SIZE in *; try done; lia.
Qed.

Lemma shape_incrlen b l p sz n : shape b l p sz -> 0 <= n -> opost (fun b' => l + n <= sz /\ shape b' (l + n) p sz) (buf_incrlen b n).
Proof.
  intros Hs Hn. destruct Hs as [Hw Hl Hp Hz]. rewrite buf_incrlen_eq by done.
  destruct (Z.ltb_spec (buf_size b) (buf_len b + n)); cbn; [done|]. split; [lia|]. split; cbn; try lia. bwf. split; cbn; unfold BUF_MAX_SIZE; try done; lia.
Qed.

Lemma shape_incrpos b l p sz n : shape b l p sz -> 0 <= n -> opost (fun b' => p + n <= l /\ shape b' l (p + n) sz) (buf_incrpos b n).
Proof.
  intros Hs Hn. destruct Hs as [Hw Hl Hp Hz]. rewrite buf_incrpos_eq by done.
  destruct (Z.ltb_spec (buf_len b) (buf_pos b + n)); cbn; [done|]. split; [lia|]. split; cbn; try lia. apply wf_advance; (done || lia).
Qed.

Lemma shape_incrwritepos b l p sz n : shape b l p sz -> 0 <= n ->
  opost (fun b' => p + n <= sz /\ shape b' (Z.max l (p + n)) (p + n) sz) (buf_incrwritepos b n).
Proof.
  intros Hs Hn. destruct Hs as [Hw Hl Hp Hz]. rewrite buf_incrwritepos_eq by done.
  destruct (Z.ltb_spec (buf_size b) (buf_pos b + n)); cbn; [done|]. split; [lia|]. split; cbn; try lia. bwf. split; cbn; unfold BUF_MAX_SIZE; try done; lia.
Qed.

Lemma shape_read b l p sz n : shape b l p sz -> 0 <= n -> opost (fun bs => p + n <= l /\ bytes_ok bs /\ zlen bs = n) (buf_read b n).
Proof.
  intros Hs Hn. destruct (shape_view _ _ _ _ Hs) as [Hv Hl]. pose proof (shape_bounds _ _ _ _ Hs). destruct (Z.le_gt_cases (p + n) l).
  - rewrite (view_read _ _ _ _ n Hv) by lia. cbn. split_and!; [lia|apply bytes_ok_sub, (view_bytes _ _ _ _ Hv)|apply zlen_sub; lia].
  - destruct Hs as [Hw Hl' Hp Hz]. rewrite buf_read_eq, (proj2 (Z.ltb_lt _ _)) by (done || lia). exact I.
Qed.

Lemma shape_getptr b l p sz n : shape b l p sz -> 0 <= n -> opost (fun r => r = p /\ p + n <= l) (buf_getptr b n).
Proof.
  intros [Hw Hl Hp Hz] Hn. rewrite buf_getptr_eq by done. destruct (Z.ltb_spec (buf_len b) (buf_pos b + n)); cbn; [done|lia].
Qed.

Lemma shape_getwriteptr b l p sz n : shape b l p sz -> 0 <= n -> opost (fun r => r = p /\ p + n <= sz) (buf_getwriteptr b n).
Proof.
  intros [Hw Hl Hp Hz] Hn. rewrite buf_getwriteptr_eq by done. destruct (Z.ltb_spec (buf_size b) (buf_pos b + n)); cbn; [done|lia].
Qed.

Lemma shape_new n : 0 <= n -> opost (fun b => shape b 0 0 n) (buf_new n).
Proof. intros Hn. eapply opost_mono; [by apply buf_new_post|]. intros b _ (? & ? & ? & ?). by split. Qed.

Lemma shape_put b l p sz x : shape b l p sz -> bytes_ok x -> p + zlen x <= sz -> shape (put b x) (Z.max l (p + zlen x)) (p + zlen x) sz.
Proof.
  intros [Hw Hl Hp Hz] Hx Hn. pose proof (zlen_nonneg x). split; [apply wf_put; (done || lia)|unfold put; cbn; lia..].
Qed.

Lemma shape_putbytes b l p sz x : shape b l p sz -> bytes_ok x ->
  opost (fun b' => p + zlen x <= sz /\ shape b' (Z.max l (p + zlen x)) (p + zlen x) sz) (buf_putbytes b x (zlen x)).
Proof.
  intros Hs Hx. pose proof Hs as [Hw Hl Hp Hz]. rewrite buf_putbytes_eq by done.
  destruct (Z.ltb_spec (buf_size b) (buf_pos b + zlen x)); cbn; [done|]. split; [lia|]. apply shape_put; (done || lia).
Qed.

Lemma shape_putint b l p sz v : shape b l p sz -> opost (fun b' => p + 4 <= sz /\ shape b' (Z.max l (p + 4)) (p + 4) sz) (buf_putint b v).
Proof. intros Hs. apply (shape_putbytes b l p sz (store32h v) Hs (store32h_ok v)). Qed.

Lemma shape_putbyte b l p sz v : shape b l p sz -> is_byte v -> opost (fun b' => p + 1 <= sz /\ shape b' (Z.max l (p + 1)) (p + 1) sz) (buf_putbyte b v).
Proof.
  intros Hs Hv. pose proof Hs as [Hw Hl Hp Hz]. rewrite buf_putbyte_eq by done.
  destruct (Z.ltb_spec (buf_size b) (buf_pos b + 1)); cbn; [done|]. split; [lia|].
  apply (shape_put b l p sz [v] Hs); [by apply Forall_singleton|change (zlen [v]) with 1; lia].
Qed.

Lemma shape_getbyte b l p sz : shape b l p sz -> opost (fun '(v, b') => is_byte v /\ p + 1 <= l /\ shape b' l (p + 1) sz) (buf_getbyte b).
Proof.
  intros Hs. pose proof (shape_bounds _ _ _ _ Hs) as Hb. destruct (shape_view _ _ _ _ Hs) as [Hv Hl]. destruct (Z.le_gt_cases l p).
  - unfold buf_getbyte. rewrite (proj2 (Z.leb_le _ _)) by (destruct Hs; lia). exact I.
  - destruct (used b !! Z.to_nat p) as [v|] eqn:E; [|apply lookup_ge_None in E; unfold zlen in *; lia].
    destruct (view_getbyte _ _ _ _ v Hv E) as (b' & -> & Hv'). cbn. split; [|split; [lia|]].
    + eapply bytes_ok_lookup; [|exact E]. by apply (view_bytes _ _ _ _ Hv).
    + rewrite <- Hl. by apply view_shape.
Qed.

Lemma shape_getint b l p sz : shape b l p sz -> opost (fun '(v, b') => is_u32 v /\ p + 4 <= l /\ shape b' l (p + 4) sz) (buf_getint b).
Proof.
  intros Hs. unfold buf_getint. eapply opost_bind; [by apply (shape_read b l p sz 4)|]. intros bs _ (Hl & Hok & Hz).
  eapply opost_bind; [by apply (shape_incrpos b l p sz 4)|]. intros b' _ (_ & Hs'). cbn. split; [by apply load32h_bytes_u32|done].
Qed.

Lemma shape_overwrite b l p sz q x : shape b l p sz -> bytes_ok x -> 0 <= q -> q + zlen x <= sz ->
  opost (fun b' => shape b' l p sz) (buf_overwrite b q x).
Proof.
  intros [Hw Hl Hp Hz] Hx Hq Hn. unfold buf_overwrite. pose proof (wf_data _ Hw). rewrite mem_write_in by lia. cbn.
  split; try done. bwf. split; cbn; unfold BUF_MAX_SIZE; try done; [by apply bytes_ok_blit|rewrite zlen_blit; lia].
Qed.

#[export] Hint Resolve shape_setpos shape_setlen shape_incrlen shape_incrpos shape_incrwritepos shape_read shape_getptr
  shape_getwriteptr shape_new shape_putbytes shape_putint shape_putbyte shape_getbyte shape_getint shape_overwrite
  exit_if_post oassert_post : shape.
#[export] Hint Extern 1 (_ <= _) => lia : shape.
#[export] Hint Extern 1 (bytes_ok _) => assumption : shape.

(** One bind of a program on buffers. *)
Ltac sstep :=
  lazymatch goal with
  | |- opost _ (obind _ _) =>
      eapply opost_bind; [solve [eauto with shape] | let r := fresh "r" in intros r ?; cbn beta; osplit r; intros; destruct_and?]
  | |- opost _ (if ?c then _ else _) => destruct c eqn:?
  | |- opost _ (match ?c with _ => _ end) => destruct c eqn:?
  end.

(** ** The sizes of what the cryptography returns *)

Class CryptoSane {CS ZS} (C : Crypto CS ZS) := {
  sane_encrypt c x y c' : crypt_encrypt c x = Some (y, c') -> bytes_ok x -> zlen y = zlen x /\ bytes_ok y;
  sane_decrypt c x y c' : crypt_decrypt c x = Some (y, c') -> bytes_ok x -> zlen y = zlen x /\ bytes_ok y;
  sane_aead_encrypt seq c x tag y c' : aead_encrypt seq c x tag = Some (y, c') -> bytes_ok x -> 0 <= tag ->
    zlen y = zlen x + tag /\ bytes_ok y;
  sane_aead_decrypt seq c y n tag x c' : aead_decrypt seq c y n tag = Some (x, c') -> bytes_ok y -> 0 <= n -> 0 <= tag -> zlen x = n /\ bytes_ok x;
  sane_aead_getlength seq c y n c' : aead_getlength seq c y = Some (n, c') -> bytes_ok y -> is_u32 n;
  sane_hmac i k m d : hmac i k m = Some d -> zlen d = MAX_MAC_LEN /\ bytes_ok d;
  sane_deflate z x room ok rest out z' : deflate z x room = (ok, rest, out, z') -> bytes_ok x -> 0 <= room ->
    0 <= rest <= zlen x /\ zlen out <= room /\ bytes_ok out;
  sane_inflate z x room ok rest out z' : inflate z x room = (ok, rest, out, z') -> bytes_ok x -> 0 <= room ->
    0 <= rest <= zlen x /\ zlen out <= room /\ bytes_ok out;
}.

Section safety.
Context {CS ZS : Type} {C : Crypto CS ZS} {S : CryptoSane C}.

Abbreviation keydir := (keydir CS ZS).
Abbreviation pktses := (pktses CS ZS).

Definition dir_ok (k : keydir) : Prop := (blocksize k = 8 \/ blocksize k = 16) /\ 0 <= hashsize k <= MAX_MAC_LEN.

(** The read buffer: nothing, a part of the first block, or a packet whose length fits the
    keys. *)
Definition readbuf_ok (k : keydir) (rb : option buffer) : Prop :=
  match rb with
  | None => True
  | Some rb => wf rb /\ blocksize k <= buf_size rb /\
      ((buf_pos rb = buf_len rb /\ buf_len rb < blocksize k) \/
       (blocksize k <= buf_pos rb /\ blocksize k + hashsize k <= buf_len rb <= RECV_MAX_PACKET_LEN))
  end.

(** The invariant of the packet layer. *)
Record pk_ok (s : pktses) : Prop := {
  pk_trans : dir_ok (trans s);
  pk_recv : dir_ok (recv s);
  pk_writepayload : wf (writepayload s);
  pk_writesize : buf_size (writepayload s) = TRANS_MAX_PAYLOAD_LEN;
  pk_queue : queue_ok (writequeue s);
  pk_replies : Forall wf (reply_queue s);
  pk_readbuf : readbuf_ok (recv s) (readbuf s);
  pk_payload : match payload s with Some pl => wf pl | None => True end;
}.

(** ** Sending *)

Lemma buf_compress_safe dest src len z ld sd ls ps ss :
  shape dest ld 5 sd -> shape src ls ps ss -> 5 <= sd -> 0 <= len -> ps + len <= ls ->
  opost (fun '(dest', src', z') => exists l p, shape dest' l l sd /\ 5 <= l /\ shape src' ls p ss) (buf_compress dest src len z).
Proof.
  intros Hd Hs Hsd Hlen Hfit. pose proof (shape_bounds _ _ _ _ Hd). pose proof (shape_bounds _ _ _ _ Hs). unfold BUF_MAX_SIZE in *.
  unfold buf_compress. assert (buf_pos dest = 5) as -> by apply Hd. assert (buf_size dest = sd) as -> by apply Hd.
  assert (buf_pos src = ps) as -> by apply Hs. rewrite (u32_small (ps + len)), (u32_small (sd - 5)), (u32_small (ps + len - ps)) by lia.
  sstep. replace (ps + len - ps) with len in * by lia. sstep. sstep. destruct (deflate z r (sd - 5)) as [[[ok rest] out] z'] eqn:E.
  apply sane_deflate in E as (Hrest & Hout & Hok); [|done|lia]. pose proof (zlen_nonneg out). subst r0.
  eapply opost_bind; [apply (shape_overwrite dest ld 5 sd 5 out Hd Hok); lia|]. intros d1 _ Hd1. assert (buf_size d1 = sd) as -> by apply Hd1.
  rewrite (u32_small (ps + len - rest)) by lia. rewrite u32_small by lia. sstep.
  eapply opost_bind; [apply (shape_setlen d1 ld 5 sd (sd - (sd - 5 - zlen out)) Hd1); lia|]. intros d2 _ [_ Hd2].
  assert (buf_len d2 = 5 + zlen out) as -> by (destruct Hd2; lia).
  eapply opost_bind; [apply (shape_setpos d2 _ _ sd (5 + zlen out) Hd2); lia|]. intros d3 _ [_ Hd3]. sstep. sstep. cbn.
  exists (5 + zlen out), (ps + len - rest). replace (5 + zlen out) with (sd - (sd - 5 - zlen out)) at 1 by lia. split_and!; try done. lia.
Qed.

Lemma encrypt_body_safe s wb wp sz lp szp :
  shape wb 5 5 sz -> shape wp lp 0 szp ->
  opost (fun '(wb', wp', k) => exists l q p z, shape wb' l q sz /\ 5 <= l /\ shape wp' lp p szp /\ k = set_zstream z (trans s)) (encrypt_body s wb wp).
Proof.
  intros Hb Hp. pose proof (shape_bounds _ _ _ _ Hb). pose proof (shape_bounds _ _ _ _ Hp). unfold encrypt_body.
  assert (buf_len wp = lp) as -> by apply Hp. destruct (is_compress_trans s).
  - eapply opost_bind; [apply (buf_compress_safe wb wp lp _ 5 sz lp 0 szp Hb Hp); lia|]. intros [[d sr] z] _ (l & p & Hd & Hl & Hs').
    cbn. by exists l, l, p, z.
  - sstep. rewrite buf_putbytes_bind. assert (lp = zlen r) as -> by done.
    eapply opost_bind; [apply (shape_putbytes wb 5 5 sz r Hb); done|]. intros wb' _ [_ Hb']. cbn.
    eexists _, _, 0, (zstream (trans s)). split; [exact Hb'|]. split; [lia|]. split; [exact Hp|]. by destruct (trans s).
Qed.

Lemma padlen_byte blk n m : is_byte (padding_len blk n m).
Proof. unfold padding_len. repeat case_match; apply u8_range. Qed.

Lemma encrypt_frame_safe k rng wb l p sz :
  shape wb l p sz -> 5 <= l -> opost (fun '(wb', n) => exists l' p', shape wb' l' p' sz /\ 5 <= l' /\ 0 <= n) (encrypt_frame k rng wb).
Proof.
  intros Hb Hl. pose proof (shape_bounds _ _ _ _ Hb). unfold encrypt_frame. set (padlen := padding_len _ _ _).
  assert (is_byte padlen) as Hpad by apply padlen_byte. unfold is_byte in Hpad.
  eapply opost_bind; [by eapply (shape_setpos wb l p sz 0)|]. intros b1 _ [_ H1].
  eapply opost_bind; [by eapply (shape_putint b1 l 0 sz)|]. intros b2 _ [_ H2].
  eapply opost_bind; [by eapply (shape_putbyte b2 _ _ sz padlen)|]. intros b3 _ [_ H3]. replace (Z.max (Z.max l (0 + 4)) (0 + 4 + 1)) with l in H3 by lia.
  assert (buf_len b3 = l) as -> by apply H3.
  eapply opost_bind; [apply (shape_setpos b3 _ _ sz l H3); lia|]. intros b4 _ [_ H4].
  eapply opost_bind; [apply (shape_incrlen b4 l l sz padlen H4); lia|]. intros b5 _ [Hsz H5].
  eapply opost_bind; [apply (shape_getptr b5 _ _ sz padlen H5); lia|]. intros q _ [-> _].
  eapply opost_bind.
  { apply (shape_overwrite b5 _ _ sz l _ H5); [apply Forall_map, Forall_true; intros; apply u8_range|lia|].
    unfold zlen. rewrite length_map, length_seq. lia. }
  intros b6 _ H6. cbn. exists (l + padlen), l. split_and!; [done|lia|lia].
Qed.

Lemma make_mac_safe seqno k wb n l p sz :
  dir_ok k -> shape wb l p sz -> 0 <= n <= l ->
  opost (fun '(m, wb') => exists p', shape wb' l p' sz /\ bytes_ok m /\ (0 < hashsize k -> zlen m = MAX_MAC_LEN) /\ (hashsize k = 0 -> m = []))
    (make_mac seqno k wb n).
Proof.
  intros [_ Hh] Hb Hn. unfold make_mac. destruct (Z.ltb_spec 0 (hashsize k)).
  - eapply opost_bind; [by eapply (shape_setpos wb l p sz 0)|]. intros b1 _ [_ H1].
    eapply opost_bind; [apply (shape_read b1 l 0 sz n H1); lia|]. intros x _ (_ & Hx & _).
    destruct (hmac _ _ _) as [m|] eqn:E; [|exact I]. apply sane_hmac in E as [? ?]. cbn. exists 0. split_and!; try done. lia.
  - cbn. exists p. split_and!; [done|constructor|lia|done].
Qed.

Lemma take_mac (k : keydir) (m : bytes) : 0 <= hashsize k <= MAX_MAC_LEN -> (0 < hashsize k -> zlen m = MAX_MAC_LEN) -> (hashsize k = 0 -> m = []) ->
  zlen (take (Z.to_nat (hashsize k)) m) = hashsize k.
Proof.
  intros Hh H1 H2. destruct (Z.eq_dec (hashsize k) 0) as [E|]; [by rewrite (H2 E), take_nil, E|].
  apply zlen_take. rewrite H1 by lia. lia.
Qed.

Lemma encrypt_crypt_safe seqno k wb l p sz :
  dir_ok k -> shape wb l p sz -> 5 <= l ->
  opost (fun '(wb', k') => exists l' p' c, shape wb' l' p' sz /\ 5 <= l' /\ k' = set_cipher_state c k) (encrypt_crypt seqno k wb).
Proof.
  intros Hk Hb Hl. pose proof (shape_bounds _ _ _ _ Hb). pose proof Hk as [_ Hh]. unfold MAX_MAC_LEN, BUF_MAX_SIZE in *.
  unfold encrypt_crypt. destruct (aead k).
  - eapply opost_bind; [by eapply (shape_setpos wb l p sz 0)|]. intros b1 _ [_ H1]. assert (buf_len b1 = l) as -> by apply H1.
    eapply opost_bind; [apply (shape_incrlen b1 l 0 sz (hashsize k) H1); lia|]. intros b2 _ [Hsz H2].
    eapply opost_bind; [apply (shape_read b2 _ 0 sz l H2); lia|]. intros x _ (_ & Hx & Hxl). rewrite u32_small by lia.
    eapply opost_bind; [apply (shape_getwriteptr b2 _ 0 sz _ H2); lia|]. intros q _ [-> _].
    destruct (aead_encrypt _ _ _ _) as [[y c]|] eqn:E; [|exact I]. apply sane_aead_encrypt in E as [Hy Hyok]; [|done|lia].
    eapply opost_bind; [apply (shape_overwrite b2 _ 0 sz 0 y H2 Hyok); lia|]. intros b3 _ H3.
    eapply opost_bind; [apply (shape_incrpos b3 _ 0 sz (l + hashsize k) H3); lia|]. intros b4 _ [_ H4].
    cbn. eexists _, _, c. split; [exact H4|]. split; [lia|done].
  - assert (buf_len wb = l) as -> by apply Hb.
    eapply opost_bind; [apply (make_mac_safe seqno k wb l l p sz Hk Hb); lia|]. intros [m b1] _ (p1 & H1 & Hm & Hm1 & Hm2).
    eapply opost_bind; [apply (shape_setpos b1 l p1 sz 0 H1); lia|]. intros b2 _ [_ H2]. assert (buf_len b2 = l) as -> by apply H2.
    eapply opost_bind; [apply (shape_read b2 l 0 sz l H2); lia|]. intros x _ (_ & Hx & Hxl).
    eapply opost_bind; [apply (shape_getwriteptr b2 l 0 sz l H2); lia|]. intros q _ [-> _].
    destruct (crypt_encrypt _ _) as [[y c]|] eqn:E; [|exact I]. apply sane_encrypt in E as [Hy Hyok]; [|done].
    eapply opost_bind; [apply (shape_overwrite b2 l 0 sz 0 y H2 Hyok); lia|]. intros b3 _ H3.
    eapply opost_bind; [apply (shape_incrpos b3 l 0 sz l H3); lia|]. intros b4 _ [_ H4].
    pose proof (take_mac k m Hh Hm1 Hm2) as Ht. rewrite <- Ht at 2.
    eapply opost_bind; [apply (shape_putbytes b4 _ _ sz _ H4); by apply Forall_take|]. intros b5 _ [_ H5].
    cbn. eexists _, _, c. split; [exact H5|]. split; [lia|done].
Qed.

Lemma enqueue_reply_safe s : pk_ok s -> opost pk_ok (enqueue_reply_packet s).
Proof.
  intros [? ? Hw Hsz ? Hr ? ?]. unfold enqueue_reply_packet. sstep. pose proof (shape_self _ Hw) as Hs.
  eapply opost_bind; [by apply buf_newcopy_post|]. intros pl _ (Hpl & _).
  eapply opost_bind; [by eapply (shape_setpos _ _ _ _ 0 Hs)|]. intros w1 _ [_ H1'].
  eapply opost_bind; [by eapply (shape_setlen _ _ _ _ 0 H1')|]. intros w2 _ [_ [? ? ? ?]].
  cbn. split; cbn; try done; [lia|]. apply Forall_app. by split; [|apply Forall_singleton].
Qed.

Lemma encrypt_packet_safe now s : pk_ok s -> opost pk_ok (encrypt_packet now s).
Proof.
  intros Hok. pose proof Hok as [Ht Hr Hw Hsz Hq Hrep Hrb Hpl]. pose proof (shape_self _ Hw) as Hs. rewrite Hsz in Hs.
  pose proof (shape_bounds _ _ _ _ Hs) as Hb. unfold encrypt_packet.
  eapply opost_bind; [by eapply (shape_setpos _ _ _ _ 0 Hs)|]. intros w1 _ [_ H1].
  eapply opost_bind; [by eapply (shape_getbyte _ _ _ _ H1)|]. intros [t w2] _ (_ & _ & H2).
  eapply opost_bind; [by eapply (shape_setpos _ _ _ _ 0 H2)|]. intros w3 _ [_ H3]. cbn [dataallowed set_writepayload trans].
  assert (Hok3 : pk_ok (set_writepayload w3 s)) by (destruct H3; by split).
  destruct (negb (dataallowed s) && negb (packet_is_okay_kex t)); [by apply enqueue_reply_safe|].
  eapply opost_bind; [apply shape_new, u32_range|]. intros b0 _ H0. 
  eapply opost_bind; [by eapply (shape_setlen _ _ _ _ PACKET_PAYLOAD_OFF H0)|]. intros b1 _ [_ Hb1].
  eapply opost_bind; [by eapply (shape_setpos _ _ _ _ PACKET_PAYLOAD_OFF Hb1)|]. intros b2 _ [_ Hb2].
  eapply opost_bind; [by eapply (encrypt_body_safe (set_writepayload w3 s) b2 w3 _ _ _ Hb2 H3)|]. intros [[b3 w4] k] _ (l3 & q3 & p4 & z & Hb3 & Hl3 & Hw4 & ->).
  eapply opost_bind; [by eapply (shape_setpos _ _ _ _ 0 Hw4)|]. intros w5 _ [_ Hw5].
  eapply opost_bind; [by eapply (shape_setlen _ _ _ _ 0 Hw5)|]. intros w6 _ [_ Hw6].
  eapply opost_bind; [by eapply (encrypt_frame_safe _ _ _ _ _ _ Hb3)|]. intros [b4 padlen] _ (l4 & p4' & Hb4 & Hl4 & _).
  eapply opost_bind; [by eapply (encrypt_crypt_safe _ (set_zstream z (trans s)) _ _ _ _ Ht Hb4)|]. intros [b5 k5] _ (l5 & p5 & c & Hb5 & Hl5 & ->).
  unfold writebuf_enqueue. rewrite obind_assoc.
  eapply opost_bind; [apply (shape_setpos _ _ _ _ 0 Hb5); lia|]. intros b6 _ [_ Hb6]. cbn [obind].
  cbn [opost]. match goal with |- pk_ok (if ?c then _ else _) => destruct c end; (split; cbn; try done; try by destruct Hw6).
  all: apply Forall_app; (split; [done|]); apply Forall_singleton; destruct Hb6 as [Hw6' Hl6 Hp6 _]; (split; [done|]); rewrite unread_zlen by done; lia.
Qed.

(** ** Receiving *)

Lemma checkmac_safe s rb l p sz :
  dir_ok (recv s) -> shape rb l p sz -> hashsize (recv s) <= l ->
  opost (fun '(ok, rb') => exists p', shape rb' l p' sz) (checkmac rb s).
Proof.
  intros Hk Hb Hl. pose proof (shape_bounds _ _ _ _ Hb). pose proof Hk as [_ Hh]. unfold MAX_MAC_LEN, BUF_MAX_SIZE in *. unfold checkmac.
  assert (buf_len rb = l) as -> by apply Hb. rewrite u32_small by lia.
  eapply opost_bind; [by eapply (shape_setpos _ _ _ _ 0 Hb)|]. intros b1 _ [_ H1].
  eapply opost_bind; [eapply (make_mac_safe _ _ _ _ _ _ _ Hk H1); lia|]. intros [m b2] _ (p2 & H2 & _).
  eapply opost_bind; [eapply (shape_setpos _ _ _ _ _ H2); lia|]. intros b3 _ [_ H3].
  eapply opost_bind; [eapply (shape_read _ _ _ _ _ H3); lia|]. intros x _ _. cbn. by eexists.
Qed.

Lemma decrypt_crypt_safe s rb l p sz :
  dir_ok (recv s) -> shape rb l p sz -> blocksize (recv s) + hashsize (recv s) <= l ->
  opost (fun '(rb', k) => exists p' c, shape rb' l p' sz /\ k = set_cipher_state c (recv s)) (decrypt_crypt s rb).
Proof.
  intros Hk Hb Hl. pose proof (shape_bounds _ _ _ _ Hb). pose proof Hk as [Hbl Hh]. unfold MAX_MAC_LEN, BUF_MAX_SIZE in *.
  unfold decrypt_crypt. destruct (aead (recv s)).
  - eapply opost_bind; [by eapply (shape_setpos _ _ _ _ 0 Hb)|]. intros b1 _ [_ H1].
    assert (buf_len b1 = l) as -> by apply H1. assert (buf_pos b1 = 0) as -> by apply H1.
    rewrite (u32_small (l - hashsize (recv s) - 0)), u32_small by lia.
    eapply opost_bind; [eapply (shape_read _ _ _ _ _ H1); lia|]. intros x _ (_ & Hx & Hxl).
    eapply opost_bind; [eapply (shape_getwriteptr _ _ _ _ _ H1); lia|]. intros q _ [-> _].
    destruct (aead_decrypt _ _ _ _ _) as [[y c]|] eqn:E; [|exact I]. apply sane_aead_decrypt in E as [Hy Hyok]; [|done|lia|lia].
    eapply opost_bind; [eapply (shape_overwrite _ _ _ _ 0 y H1 Hyok); lia|]. intros b2 _ H2.
    eapply opost_bind; [eapply (shape_incrpos _ _ _ _ _ H2); lia|]. intros b3 _ [_ H3]. cbn. by eexists _, c.
  - eapply opost_bind; [eapply (shape_setpos _ _ _ _ (blocksize (recv s)) Hb); lia|]. intros b1 _ [_ H1].
    assert (buf_len b1 = l) as -> by apply H1. assert (buf_pos b1 = blocksize (recv s)) as -> by apply H1.
    rewrite u32_small by lia.
    eapply opost_bind; [eapply (shape_read _ _ _ _ _ H1); lia|]. intros x _ (_ & Hx & Hxl).
    eapply opost_bind; [eapply (shape_getwriteptr _ _ _ _ _ H1); lia|]. intros q _ [-> _].
    destruct (crypt_decrypt _ _) as [[y c]|] eqn:E; [|exact I]. apply sane_decrypt in E as [Hy Hyok]; [|done].
    eapply opost_bind; [eapply (shape_overwrite _ _ _ _ _ y H1 Hyok); lia|]. intros b2 _ H2.
    eapply opost_bind; [eapply (shape_incrpos _ _ _ _ _ H2); lia|]. intros b3 _ [_ H3].
    eapply opost_bind; [eapply (checkmac_safe s _ _ _ _ Hk H3); lia|]. intros [ok b4] _ (p4 & H4). sstep. cbn. by exists p4, c.
Qed.

Lemma buf_decompress_safe b l p sz len z :
  shape b l p sz -> 0 <= len -> opost (fun '(ret, z') => wf ret) (buf_decompress b len z).
Proof.
  intros Hb Hl. unfold buf_decompress, RECV_MAX_PAYLOAD_LEN.
  eapply opost_bind; [by apply shape_new|]. intros ret _ Hret.
  eapply opost_bind; [by eapply (shape_read _ _ _ _ _ Hb)|]. intros x _ (_ & Hx & _).
  assert (Hsz : buf_size ret = 128 * 1024 + 1) by apply Hret. rewrite Hsz. destruct (inflate z x _) as [[[ok rest] out] z'] eqn:E.
  apply sane_inflate in E as (_ & Hout & Hok); [|done|lia]. pose proof (zlen_nonneg out).
  eapply opost_bind; [eapply (shape_overwrite _ _ _ _ 0 out Hret Hok); lia|]. intros r1 _ H1. assert (buf_size r1 = 128 * 1024 + 1) as -> by apply H1.
  sstep. rewrite u32_small by lia.
  eapply opost_bind; [eapply (shape_setlen _ _ _ _ _ H1); lia|]. intros r2 _ [_ Hr2]. sstep. cbn. apply Hr2.
Qed.

Lemma decrypt_packet_safe s rb :
  pk_ok s -> readbuf s = Some rb -> blocksize (recv s) <= buf_pos rb -> opost (fun s' => pk_ok s' /\ readbuf s' = None) (decrypt_packet s).
Proof.
  intros [Ht Hr Hw Hsz Hq Hrep Hrb Hpl] Hs Hpos. unfold readbuf_ok in Hrb. rewrite Hs in Hrb. destruct Hrb as (Hwb & Hszb & Hcase).
  pose proof (shape_self _ Hwb) as Hb. pose proof (shape_bounds _ _ _ _ Hb) as Hbb. unfold decrypt_packet. rewrite Hs.
  assert (Hlen : blocksize (recv s) + hashsize (recv s) <= buf_len rb <= RECV_MAX_PACKET_LEN) by (destruct Hcase as [[? ?]|[? ?]]; lia).
  set (s2 := set_datarecv _ s). eapply opost_bind; [eapply (decrypt_crypt_safe s2 rb _ _ _ Hr Hb); cbn; lia|].
  intros [b1 k] _ (p1 & c & Hv1 & ->). change (recv s2) with (recv s). unfold PACKET_PADDING_OFF, PACKET_PAYLOAD_OFF.
  unfold RECV_MAX_PACKET_LEN, RECV_MAX_PAYLOAD_LEN in Hlen. pose proof Hr as [Hbs Hh]. unfold MAX_MAC_LEN in Hh.
  eapply opost_bind; [by eapply (shape_setpos _ _ _ _ 4 Hv1)|]. intros b2 _ [_ Hv2].
  eapply opost_bind; [by eapply (shape_getbyte _ _ _ _ Hv2)|]. intros [padlen b3] _ (Hp & _ & Hv3). unfold is_byte in Hp.
  assert (buf_len b3 = buf_len rb) as -> by apply Hv3. set (len := u32 _). sstep. unfold ZLIB_COMPRESS_EXPANSION, RECV_MAX_PAYLOAD_LEN in *.
  assert (Hlr : 1 <= len <= 200000) by (destruct (Z.ltb_spec (128 * 1024 + ((128 * 1024 / 16384 + 1) * 5 + 6)) len), (Z.ltb_spec len 1); (done || lia)).
  assert (Hlen' : 5 + len + hashsize (recv s) <= buf_len rb) by (unfold len, u32 in *; lia).
  eapply opost_bind; [by eapply (shape_setpos _ _ _ _ 5 Hv3)|]. intros b4 _ [_ Hv4]. assert (buf_pos b4 = 5) as Hp4 by apply Hv4. rewrite Hp4.
  rewrite (u32_small (5 + len)) by lia. rewrite obind_if. destruct (is_compress_recv _).
  - rewrite !obind_assoc. eapply opost_bind; [eapply (buf_decompress_safe _ _ _ _ len _ Hv4); lia|]. intros [pl z] _ Hwpl. cbn [obind]. rewrite obind_assoc.
    eapply opost_bind; [by apply buf_setpos_post|]. intros pl' _ [Hpl' _]. cbn. split; [|done]. by split.
  - rewrite obind_assoc. eapply opost_bind; [eapply (shape_setlen _ _ _ _ _ Hv4); lia|]. intros pl _ [_ Hpl']. cbn. split; [|done]. split; cbn; try done. apply Hpl'.
Qed.

Section reading.
Context {SK : Type} (sys_read : SK -> Z -> read_res * SK) (junk : nat -> Z).
Context (sk_ok : SK -> Prop).
Context (Hread : forall sk n r sk', sk_ok sk -> 0 <= n -> sys_read sk n = (r, sk') ->
  sk_ok sk' /\ match r with ReadData bs => bytes_ok bs /\ zlen bs <= n | _ => True end).
Context (Hjunk : forall i, is_byte (junk i)).

Lemma shape_resize b l p sz n : shape b l p sz -> l <= n -> opost (fun b' => shape b' l p n) (buf_resize junk b n).
Proof using Hjunk.
  intros Hs Hn. destruct (shape_view _ _ _ _ Hs) as [Hv Hl]. destruct (Z.le_gt_cases n BUF_MAX_SIZE).
  - destruct (view_resize junk _ _ _ _ n Hjunk Hv) as (b' & -> & Hv'); [lia|]. cbn. rewrite <- Hl. by apply view_shape.
  - unfold buf_resize. rewrite (proj2 (Z.ltb_lt _ _)) by lia. exact I.
Qed.

Lemma packet_length_safe s rb sz :
  dir_ok (recv s) -> shape rb (blocksize (recv s)) 0 sz ->
  opost (fun '(len, plen, rb', k) => exists p c, shape rb' (blocksize (recv s)) p sz /\ k = set_cipher_state c (recv s) /\ is_u32 plen /\
    (len = u32 (plen + hashsize (recv s)) \/ len = u32 (plen + 4 + hashsize (recv s)))) (packet_length s rb).
Proof.
  intros Hk Hb. pose proof Hk as [Hbl _]. unfold packet_length. destruct (aead (recv s)).
  - eapply opost_bind; [eapply (shape_read _ _ _ _ _ Hb); lia|]. intros x _ (_ & Hx & _).
    destruct (aead_getlength _ _ _) as [[n c]|] eqn:E; [|exact I]. apply sane_aead_getlength in E; [|done]. cbn.
    exists 0, c. split_and!; try done. by right.
  - eapply opost_bind; [eapply (shape_read _ _ _ _ _ Hb); lia|]. intros x _ (_ & Hx & Hxl).
    eapply opost_bind; [eapply (shape_getwriteptr _ _ _ _ _ Hb); lia|]. intros q _ [-> Hq].
    destruct (crypt_decrypt _ _) as [[y c]|] eqn:E; [|exact I]. apply sane_decrypt in E as [Hy Hyok]; [|done].
    eapply opost_bind; [eapply (shape_overwrite _ _ _ _ 0 y Hb Hyok); lia|]. intros b1 _ H1.
    eapply opost_bind; [by eapply (shape_getint _ _ _ _ H1)|]. intros [n b2] _ (Hn & _ & H2). cbn.
    exists (0 + 4), c. split_and!; try done; [apply u32_range|by left].
Qed.

Lemma packet_length_bounds s len plen :
  dir_ok (recv s) -> is_u32 plen -> len = u32 (plen + hashsize (recv s)) \/ len = u32 (plen + 4 + hashsize (recv s)) ->
  (RECV_MAX_PACKET_LEN <? len) || (RECV_MAX_PACKET_LEN <? plen) || (plen <? blocksize (recv s)) || negb (plen mod blocksize (recv s) =? 0) = false ->
  blocksize (recv s) + hashsize (recv s) <= len <= RECV_MAX_PACKET_LEN.
Proof.
  intros [Hb Hh] Hp Hl Hc. unfold is_u32, u32, MAX_MAC_LEN, RECV_MAX_PACKET_LEN, RECV_MAX_PAYLOAD_LEN in *. blia.
Qed.

Lemma read_packet_init_safe sk s :
  sk_ok sk -> pk_ok s -> match readbuf s with Some rb => buf_len rb < blocksize (recv s) | None => True end ->
  opost (fun '(go, s', sk') => sk_ok sk' /\ pk_ok s' /\ (go = true -> exists rb, readbuf s' = Some rb /\ blocksize (recv s') <= buf_pos rb))
    (read_packet_init sys_read junk sk s).
Proof using Hread Hjunk S.
  intros Hsk [Ht Hr Hw Hsz Hq Hrep Hrb Hpl] Hfirst. pose proof Hr as [Hbl Hh]. unfold MAX_MAC_LEN in Hh. unfold read_packet_init.
  apply (opost_bind (fun rb => exists l sz, shape rb l l sz /\ l < blocksize (recv s) /\ blocksize (recv s) <= sz)).
  { unfold readbuf_ok in Hrb. destruct (readbuf s) as [rb|]; [|eapply opost_mono; [by apply (shape_new INIT_READBUF)|]].
    - destruct Hrb as (Hwb & Hs & Hc). cbn. exists (buf_len rb), (buf_size rb). destruct Hc as [[? ?]|[? ?]]; [|lia]. split_and!; [by split|lia|lia].
    - intros rb _ Hs. exists 0, INIT_READBUF. unfold INIT_READBUF in *. split_and!; [done|lia|lia]. }
  intros rb _ (l & sz & Hb & Hl & Hsz'). pose proof (shape_bounds _ _ _ _ Hb) as Hbb.
  assert (buf_pos rb = l) as -> by apply Hb. rewrite u32_small by lia.
  eapply opost_bind; [eapply (shape_getwriteptr _ _ _ _ _ Hb); lia|]. intros q _ [-> _].
  assert (Hrbok : readbuf_ok (recv s) (Some rb)).
  { destruct Hb as [? Hl' Hp' Hz']. cbn. split_and!; [done|lia|]. left. lia. }
  destruct (sys_read sk _) as [res sk'] eqn:E. apply Hread in E as [Hsk' Hres]; [|done|lia].
  destruct res as [bs| |]; [|cbn; split_and!; [done|by split|done]|exact I]. destruct Hres as [Hbs Hn]. destruct bs as [|b0 bs]; [exact I|]. set (x := b0 :: bs) in *. pose proof (zlen_nonneg x) as Hx0.
  eapply opost_bind; [eapply (shape_overwrite _ _ _ _ l x Hb Hbs); lia|]. intros b1 _ H1.
  eapply opost_bind; [eapply (shape_incrwritepos _ _ _ _ _ H1); lia|]. intros b2 _ [_ H2]. replace (Z.max l (l + zlen x)) with (l + zlen x) in H2 by lia.
  destruct (Z.eqb_spec (zlen x) (blocksize (recv s) - l)) as [He|He]; cbn [negb].
  - replace (l + zlen x) with (blocksize (recv s)) in H2 by lia.
    eapply opost_bind; [by eapply (shape_setpos _ _ _ _ 0 H2)|]. intros b3 _ [_ H3].
    eapply opost_bind; [by eapply (packet_length_safe (set_readbuf (Some rb) s) b3 sz)|]. intros [[[len plen] b4] k] _ (p4 & c & H4 & -> & Hpl' & Hlen).
    eapply opost_bind; [apply exit_if_post|]. intros [] _ Hchk.
    pose proof (packet_length_bounds (set_readbuf (Some rb) s) len plen Hr Hpl' Hlen Hchk) as Hlb. cbn in Hlb, H4.
    apply (opost_bind (fun b5 => exists sz5, shape b5 (blocksize (recv s)) p4 sz5 /\ blocksize (recv s) <= sz5)).
    { destruct (buf_size b4 <? len); [|cbn; by exists sz]. eapply opost_mono; [eapply (shape_resize _ _ _ _ len H4); lia|].
      intros b5 _ H5. exists len. split; [done|lia]. }
    intros b5 _ (sz5 & H5 & Hsz5).
    eapply opost_bind; [eapply (shape_setlen _ _ _ _ len H5); lia|]. intros b6 _ [Hl6 H6].
    eapply opost_bind; [eapply (shape_setpos _ _ _ _ (blocksize (recv s)) H6); lia|]. intros b7 _ [_ H7].
    cbn. destruct H7 as [Hw7 Hl7 Hp7 Hs7]. split; [done|]. split; [|intros _; exists b7; split; [done|cbn; lia]]. split; cbn; try done. split_and!; [done|lia|]. right. lia.
  - cbn. split; [done|]. split; [|done]. destruct H2 as [Hw2 Hl2 Hp2 Hs2]. split; cbn; try done. split_and!; [done|lia|]. left. lia.
Qed.

Lemma read_rest_safe sk s rb :
  sk_ok sk -> pk_ok s -> readbuf s = Some rb -> blocksize (recv s) <= buf_pos rb ->
  opost (fun '(s', sk') => pk_ok s')
    (let maxlen := u32 (buf_len rb - buf_pos rb) in
      if maxlen =? 0 then let* s := decrypt_packet s in Ok (s, sk)
      else
        let* p := buf_getptr rb maxlen in
        let '(res, sk) := sys_read sk maxlen in
        match res with
        | ReadData [] => Exit "Exited normally"
        | ReadAgain => Ok (s, sk)
        | ReadError => Exit "Error reading: %s"
        | ReadData bs =>
            let* rb := buf_overwrite rb p bs in
            let* rb := buf_incrpos rb (zlen bs) in
            let s := set_readbuf (Some rb) s in
            if zlen bs =? maxlen then let* s := decrypt_packet s in Ok (s, sk) else Ok (s, sk)
        end).
Proof using Hread S.
  intros Hsk Hok Hrb Hpos. pose proof Hok as [Ht Hr Hw Hsz Hq Hrep Hrok Hpl]. unfold readbuf_ok in Hrok. rewrite Hrb in Hrok.
  destruct Hrok as (Hwb & Hszb & Hcase). destruct Hcase as [[Hp Hl]|[_ Hl]]; [lia|].
  pose proof (shape_self _ Hwb) as Hb. pose proof (shape_bounds _ _ _ _ Hb) as Hbb. unfold BUF_MAX_SIZE in Hbb.
  rewrite u32_small by lia. cbn zeta. destruct (Z.eqb_spec (buf_len rb - buf_pos rb) 0).
  { eapply opost_bind; [by apply (decrypt_packet_safe s rb)|]. by intros s' _ [? _]. }
  eapply opost_bind; [eapply (shape_getptr _ _ _ _ _ Hb); lia|]. intros q _ [-> _].
  destruct (sys_read sk _) as [res sk'] eqn:E. apply Hread in E as [_ Hres]; [|done|lia].
  destruct res as [bs| |]; [|done|exact I]. destruct Hres as [Hbs Hn].
  destruct bs as [|b0 bs]; [exact I|]. set (x := b0 :: bs) in *. pose proof (zlen_nonneg x).
  eapply opost_bind; [eapply (shape_overwrite _ _ _ _ _ x Hb Hbs); lia|]. intros b1 _ H1.
  eapply opost_bind; [eapply (shape_incrpos _ _ _ _ _ H1); lia|]. intros b2 _ [_ H2].
  assert (Hok2 : pk_ok (set_readbuf (Some b2) s)).
  { destruct H2 as [Hw2 Hl2 Hp2 Hs2]. split; cbn; try done. split_and!; [done|lia|]. right. lia. }
  destruct (zlen x =? _); [|done].
  eapply opost_bind; [apply (decrypt_packet_safe _ b2 Hok2); [done|destruct H2; cbn; lia]|]. by intros s' _ [? _].
Qed.

Lemma read_packet_safe sk s : sk_ok sk -> pk_ok s -> opost (fun '(s', sk') => pk_ok s') (read_packet sys_read junk sk s).
Proof using Hread Hjunk S.
  intros Hsk Hok. unfold read_packet.
  apply (opost_bind (fun '(go, s', sk') => sk_ok sk' /\ pk_ok s' /\ (go = true -> exists rb, readbuf s' = Some rb /\ blocksize (recv s') <= buf_pos rb))).
  - destruct (readbuf s) as [rb|] eqn:E; [|apply read_packet_init_safe; [done|done|by rewrite E]].
    destruct (Z.ltb_spec (buf_len rb) (blocksize (recv s))); [apply read_packet_init_safe; [done|done|by rewrite E]|].
    cbn. split; [done|]. split; [done|]. intros _. exists rb. split; [done|]. pose proof (pk_readbuf _ Hok) as Hrb. rewrite E in Hrb.
    destruct Hrb as (_ & _ & [[? ?]|[? _]]); lia.
  - intros [[go s'] sk'] _ (Hsk' & Hok' & Hgo). destruct go; [|done]. destruct (Hgo eq_refl) as (rb & Hrb & Hpos). cbn [negb]. rewrite Hrb.
    by apply (read_rest_safe sk' s' rb).
Qed.
End reading.

(** ** Every sequence of events *)

Inductive pk_event :=
| EvRead (bs : option bytes)          (* the socket is readable: what [read] finds *)
| EvSend (payload : bytes) (now : Z)  (* a handler fills writepayload and sends it *)
| EvWrite (n : Z)                     (* the socket is writable and takes [n] bytes *)
| EvTaken                             (* the payload received has been processed *)
| EvAllow (allowed : bool)            (* a key exchange starts or ends *)
| EvFlush (now : Z).

Definition event_ok (e : pk_event) : Prop :=
  match e with EvRead (Some bs) | EvSend bs _ => bytes_ok bs | EvWrite n => 0 <= n | _ => True end.

(** One [read]: at most what was asked for. *)
Definition read_once (bs : option bytes) (n : Z) : read_res * option bytes :=
  match bs with None => (ReadAgain, None) | Some bs => (ReadData (take (Z.to_nat n) bs), Some (drop (Z.to_nat n) bs)) end.

Definition run_pk_event (junk : nat -> Z) (e : pk_event) (s : pktses) : outcome pktses :=
  match e with
  | EvRead bs => let* (s, _) := read_packet read_once junk bs s in Ok s
  | EvSend p now =>
      let* wp := buf_putbytes (writepayload s) p (zlen p) in encrypt_packet now (set_writepayload wp s)
  | EvWrite n =>
      match writequeue s with
      | [] => Ok s
      | _ => write_packet (fun iov => Written (Z.min n (zlen (concat iov)))) s
      end
  | EvTaken => Ok (set_payload None s)
  | EvAllow a => Ok (set_dataallowed a s)
  | EvFlush now => maybe_flush_reply_queue now s
  end.

Fixpoint run_pk_events (junk : nat -> Z) (es : list pk_event) (s : pktses) : outcome pktses :=
  match es with
  | [] => Ok s
  | e :: es => let* s := run_pk_event junk e s in run_pk_events junk es s
  end.

Lemma send_safe now (s : pktses) p : pk_ok s -> bytes_ok p ->
  opost pk_ok (let* wp := buf_putbytes (writepayload s) p (zlen p) in encrypt_packet now (set_writepayload wp s)).
Proof.
  intros [Ht Hr Hw Hsz Hq Hrep Hrb Hpl] Hp. pose proof (shape_self _ Hw) as Hs. rewrite Hsz in Hs.
  eapply opost_bind; [by eapply (shape_putbytes _ _ _ _ p Hs)|]. intros wp _ [_ [? ? ? ?]]. apply encrypt_packet_safe. by split.
Qed.

Lemma flush_replies_safe now q : forall s : pktses, Forall wf q -> pk_ok s -> opost pk_ok (flush_replies now q s).
Proof.
  induction q as [|pl q IH]; intros s Hq Hok; [done|]. apply Forall_cons in Hq as [Hpl Hq]. cbn [flush_replies].
  pose proof (wf_pos _ Hpl). pose proof (wf_len _ Hpl). pose proof (wf_data _ Hpl). rewrite mem_read_in by lia. cbn [obind].
  fold (used pl). rewrite <- (used_zlen pl Hpl). rewrite <- obind_assoc.
  eapply opost_bind; [apply (send_safe now s (used pl) Hok)|].
  - destruct Hpl. by apply bytes_ok_sub.
  - intros s' _ Hok'. by apply IH.
Qed.

Lemma write_packet_safe n (s : pktses) : pk_ok s -> writequeue s <> [] -> 0 <= n ->
  opost pk_ok (write_packet (fun iov => Written (Z.min n (zlen (concat iov)))) s).
Proof.
  intros [Ht Hr Hw Hsz Hq Hrep Hrb Hpl] Hne Hn. unfold write_packet. destruct (writequeue s) as [|b q] eqn:Hwq; [done|]. cbn [oassert obind].
  rewrite packet_queue_to_iovec_ok by done. cbn [obind]. set (iov := map unread _). pose proof (zlen_nonneg (concat iov)).
  destruct (pending_take (b :: q) 50) as [rest Hrest]. pose proof (zlen_nonneg rest).
  assert (Htot : zlen (pending (b :: q)) = zlen (concat iov) + zlen rest) by (rewrite Hrest, zlen_app; done).
  destruct (packet_queue_consume_ok (b :: q) (Z.min n (zlen (concat iov))) Hq) as (q' & -> & Hok & _); [lia|]. cbn [obind].
  destruct (_ =? 0); [exact I|]. cbn. by split.
Qed.

Lemma run_pk_event_safe junk e s : (forall i, is_byte (junk i)) -> event_ok e -> pk_ok s -> opost pk_ok (run_pk_event junk e s).
Proof.
  intros Hj He Hok. destruct e as [bs|p now|n| |a|now]; cbn [run_pk_event].
  - eapply opost_bind; [apply (read_packet_safe read_once junk (fun bs => match bs with Some bs => bytes_ok bs | None => True end))|].
    + intros sk n r sk' Hsk Hn E. unfold read_once in E. destruct sk as [x|]; injection E as <- <-; [|done].
      split; [by apply Forall_drop|]. split; [by apply Forall_take|]. unfold zlen. rewrite length_take. lia.
    + done.
    + by destruct bs.
    + done.
    + by intros [s' sk'] _ Hok'.
  - by apply send_safe.
  - destruct (writequeue s) eqn:E; [done|]. apply write_packet_safe; [done|by rewrite E|done].
  - cbn. destruct Hok. by split.
  - cbn. destruct Hok. by split.
  - unfold maybe_flush_reply_queue. destruct (negb (dataallowed s)); [done|].
    eapply opost_bind; [apply flush_replies_safe; [by apply Hok|done]|]. intros s' _ Hok'. cbn. destruct Hok'. by split.
Qed.

(** C7: no sequence of events makes the packet layer read or write outside a buffer, follow a
    null pointer or break its invariant: whatever bytes the peer sends and in whatever
    pieces, whatever payloads are sent, queued, flushed and written. The only other outcome is
    one of the exits of the code. *)
Theorem packet_layer_safe junk es s :
  (forall i, is_byte (junk i)) -> Forall event_ok es -> pk_ok s ->
  match run_pk_events junk es s with Ok s' => pk_ok s' | Exit _ => True | Undef => False end.
Proof.
  intros Hj Hes. revert s. induction Hes as [|e es He _ IH]; intros s Hok; [done|]. cbn [run_pk_events].
  apply (opost_bind pk_ok pk_ok); [by apply run_pk_event_safe|]. intros s' _ Hok'. by apply IH.
Qed.
End safety.

#[export] Instance toy_sane : CryptoSane Toy.toy.
Proof.
  split; cbn.
  - intros c x y c' [= <- <-] Hx. split; [by apply Toy.xor_stream_zlen|by apply Toy.xor_stream_ok].
  - intros c x y c' [= <- <-] Hx. split; [by apply Toy.xor_stream_zlen|by apply Toy.xor_stream_ok].
  - intros seq c x tag y c' [= <- <-] Hx Ht. rewrite zlen_app, Toy.xor_stream_zlen. unfold Toy.tag. rewrite zlen_replicate by done.
    split; [done|]. apply Forall_app. split; [by apply Toy.xor_stream_ok|]. by apply Forall_replicate.
  - intros seq c y n tag x c' E Hy Hn Htag. destruct (Z.eqb_spec (zlen y) (n + tag)) as [Hz|]; [|done]. cbn [andb] in E.
    destruct (bool_decide_reflect (drop (Z.to_nat n) y = Toy.tag tag)) as [Hd|]; [|done].
    injection E as <- <-. split; [|apply Toy.xor_stream_ok; by apply Forall_take]. rewrite Toy.xor_stream_zlen.
    apply (f_equal zlen) in Hd. unfold zlen, Toy.tag in *. rewrite length_drop, length_replicate in Hd. rewrite length_take. lia.
  - intros seq c y n c' [= <- <-] Hy. by apply load32h_bytes_u32, Toy.xor_stream_ok, Forall_take.
  - intros i k m d [= <-]. split; [done|]. repeat constructor; apply u8_range.
  - intros z x room ok rest out z' E Hx Hr. pose proof (zlen_nonneg x). destruct (Z.leb_spec (zlen x) room); injection E as <- <- <- <-;
      change (zlen []) with 0; (split_and!; [lia|lia|lia|done || constructor]).
  - intros z x room ok rest out z' E Hx Hr. pose proof (zlen_nonneg x). destruct (Z.leb_spec (zlen x) room); injection E as <- <- <- <-;
      change (zlen []) with 0; (split_and!; [lia|lia|lia|done || constructor]).
Qed.

Lemma packet_layer_safe_witness :
  let es := [EvSend [94; 1; 2] 0; EvRead (Some (replicate 40 200)); EvWrite 10; EvRead None; EvAllow false; EvSend [94] 1; EvFlush 2; EvTaken] in
  match run_pk_events (C := Toy.toy) (fun _ => 0) es (Toy.session Toy.writepayload0) with Ok s' => pk_ok s' | Exit _ => True | Undef => False end.
Proof.
  intros es. apply (packet_layer_safe (S := toy_sane)).
  - done.
  - unfold es. repeat (apply Forall_cons; split; [first [done|apply bytes_check; reflexivity]|]). constructor.
  - assert (Hd : dir_ok Toy.key) by (split; [by right|done]). split; [exact Hd|exact Hd|apply toy_writepayload_view|done|by apply Forall_nil_2|by apply Forall_nil_2|done|done].
Defined.
