(* ===== verification/Algo.v ===== *)
(** * Algorithm negotiation (common-algo.c)

    Name lists on the wire, and the choice of an algorithm (RFC 4253 section 7.1). A table of
    algorithms is the list of its entries before the one whose name is NULL; a C string is
    the list of its bytes before the NUL. *)

From S2P Require Import Prelude Bytes Buffer.

Definition MAX_PROPOSED_ALGO : Z := 50.
Definition MAX_NAME_LEN : Z := 64.
Definition COMMA : Z := 44.

(** ** Data *)

Section algo.
Context {D M : Type}.

(** [struct Algo_Type]. *)
Record algo_type := mkalgo {
  al_name : bytes;
  al_val : Z;
  al_data : option D;
  al_usable : bool;
  al_mode : option M;
}.

(** ** Writing a name list *)

(** The loop of [buf_put_algolist_all]. *)
Fixpoint put_algos (b : buffer) (localalgos : list algo_type) (useall donefirst : bool) : outcome buffer :=
  match localalgos with
  | [] => Ok b
  | a :: l =>
      if al_usable a || useall then
        let* b := if donefirst then buf_putbyte b COMMA else Ok b in
        let* b := buf_putbytes b (al_name a) (zlen (al_name a)) in
        put_algos b l useall true
      else put_algos b l useall donefirst
  end.

Definition buf_put_algolist_all (b : buffer) (localalgos : list algo_type) (useall : bool) : outcome buffer :=
  let startpos := buf_pos b in
  let* b := buf_putint b 0 in
  let* b := put_algos b localalgos useall false in
  let len := u32 (buf_pos b - startpos - 4) in
  let* b := buf_setpos b startpos in
  let* b := buf_putint b len in
  buf_incrwritepos b len.

Definition buf_put_algolist (b : buffer) (localalgos : list algo_type) : outcome buffer :=
  buf_put_algolist_all b localalgos false.

(** ** Reading a name list *)

(** The loop of [get_algolist] from the name [cur] on, [names] being complete. *)
Fixpoint get_algolist_loop (algolist cur : bytes) (names : list bytes) (max_count : Z) : outcome (list bytes) :=
  match algolist with
  | [] => Ok (names ++ [cur])
  | c :: l =>
      if c =? 0 then Ok []
      else if c =? COMMA then
        let* _ := exit_if (max_count <=? zlen names + 1) "Too many remote algorithms" in
        get_algolist_loop l [] (names ++ [cur]) max_count
      else get_algolist_loop l (cur ++ [c]) names max_count
  end.

(** The test of the length against MAX_PROPOSED_ALGO and MAX_NAME_LEN sets the count to zero
    and the code goes on to set it to one: it has no effect. *)
Definition get_algolist (algolist : bytes) (algolist_len max_count : Z) : outcome (list bytes) :=
  if max_count =? 0 then Ok []
  else get_algolist_loop (take (Z.to_nat algolist_len) algolist) [] [] max_count.

Definition buf_has_algo (b : buffer) (algo : bytes) : outcome (bool * buffer) :=
  let orig_pos := buf_pos b in
  let* (algolist, len, b) := buf_getstring b in
  let* remotenames := get_algolist algolist len MAX_PROPOSED_ALGO in
  let ret := existsb (fun n => bool_decide (n = algo)) remotenames in
  let* b := buf_setpos b orig_pos in
  Ok (ret, b).

Fixpoint first_usable_algo (algos : list algo_type) : option algo_type :=
  match algos with
  | [] => None
  | a :: l => if al_usable a then Some a else first_usable_algo l
  end.

(** ** Matching *)

(** The inner loop: the index [j] of the first name of the server equal to [cli]. *)
Fixpoint match_server (servnames : list (option bytes)) (cli : option bytes) (j : nat) : option nat :=
  match servnames with
  | [] => None
  | s :: l =>
      match s, cli with
      | Some s, Some c => if bool_decide (s = c) then Some j else match_server l cli (S j)
      | _, _ => match_server l cli (S j)
      end
  end.

(** The outer loop: the indices of the first match. *)
Fixpoint match_client (clinames servnames : list (option bytes)) (i : nat) : option (nat * nat) :=
  match clinames with
  | [] => None
  | c :: l =>
      match match_server servnames c 0 with
      | Some j => Some (i, j)
      | None => match_client l servnames (S i)
      end
  end.

Definition localname (a : algo_type) : option bytes := if al_usable a then Some (al_name a) else None.

(** The entry chosen, whether the guess was good, and the buffer after the list. *)
Definition buf_match_algo (is_server : bool) (b : buffer) (localalgos : list algo_type) (kexguess2 : bool)
    : outcome (option algo_type * bool * buffer) :=
  let* (algolist, len, b) := buf_getstring b in
  let* names := get_algolist algolist len MAX_PROPOSED_ALGO in
  let remotenames := map Some names in
  let* _ := (if zlen localalgos <=? MAX_PROPOSED_ALGO then Ok () else Undef) in
  let localnames := map localname localalgos in
  let '(clinames, servnames) := if is_server then (remotenames, localnames) else (localnames, remotenames) in
  match match_client clinames servnames 0 with
  | None => Ok (None, false, b)
  | Some (i, j) =>
      let goodguess := if kexguess2 then (i =? 0)%nat else ((i =? 0) && (j =? 0))%nat in
      Ok (localalgos !! (if is_server then j else i), goodguess, b)
  end.
End algo.

Arguments algo_type : clear implicits.

(** ** Name lists: what is written is what is read *)

Section names.
Context {D M : Type}.
Implicit Types (algos : list (algo_type D M)).

Definition name_ok (n : bytes) : Prop := Forall (fun c => is_byte c /\ c <> 0 /\ c <> COMMA) n.

Definition comma_names (ns : list bytes) : bytes := concat (map (cons COMMA) ns).

(** The comma-separated list of names. *)
Definition join_names (ns : list bytes) : bytes :=
  match ns with [] => [] | n :: ns => n ++ comma_names ns end.

Definition usable_names algos : list bytes := map al_name (filter (fun a => al_usable a = true) algos).

Definition written (donefirst : bool) (ns : list bytes) : bytes := if donefirst then comma_names ns else join_names ns.

Lemma name_ok_bytes n : name_ok n -> bytes_ok n.
Proof. intros. eapply Forall_impl; [done|]. naive_solver. Qed.

Lemma comma_names_ok ns : Forall name_ok ns -> bytes_ok (comma_names ns).
Proof.
  induction 1 as [|n ns Hn _ IH]; [constructor|]. unfold comma_names. cbn. apply Forall_cons. split; [done|].
  apply Forall_app. split; [by apply name_ok_bytes|done].
Qed.

Lemma join_names_ok ns : Forall name_ok ns -> bytes_ok (join_names ns).
Proof.
  destruct ns as [|n ns]; [constructor|]. intros [Hn Hns]%Forall_cons. apply Forall_app.
  split; [by apply name_ok_bytes|by apply comma_names_ok].
Qed.

Lemma put_algos_ok algos : forall b bs sz df,
  view b bs (zlen bs) sz -> Forall name_ok (usable_names algos) ->
  zlen bs + zlen (written df (usable_names algos)) <= sz ->
  exists b', put_algos b algos false df = Ok b' /\
    view b' (bs ++ written df (usable_names algos)) (zlen (bs ++ written df (usable_names algos))) sz.
Proof.
  induction algos as [|a l IH]; intros b bs sz df Hv Hok Hsz; cbn [put_algos].
  - exists b. by destruct df; cbn; rewrite app_nil_r.
  - unfold usable_names in *. rewrite filter_cons in *. destruct (al_usable a); cbn [orb].
    2:{ rewrite decide_False in * by done. by apply IH. }
    rewrite decide_True in * by done. cbn [map] in *. set (ns := map al_name (filter _ l)) in *.
    apply Forall_cons in Hok as [Hn Hns]. pose proof (name_ok_bytes _ Hn) as Hnb.
    assert (Hw : written df (al_name a :: ns) = (if df then [COMMA] else []) ++ al_name a ++ written true ns) by (by destruct df).
    rewrite Hw in *. rewrite !zlen_app in Hsz. pose proof (zlen_nonneg (written true ns)). pose proof (zlen_nonneg (al_name a)).
    assert (exists b1, (if df then buf_putbyte b COMMA else Ok b) = Ok b1 /\
      view b1 (bs ++ if df then [COMMA] else []) (zlen (bs ++ if df then [COMMA] else [])) sz) as (b1 & -> & Hv1).
    { destruct df; [|exists b; by rewrite app_nil_r]. destruct (view_putbyte _ _ _ _ COMMA Hv) as (b1 & -> & Hv1); [done|change (zlen [COMMA]) with 1 in Hsz; lia|].
      exists b1. split; [done|]. rewrite zlen_app. by rewrite blit_end in Hv1. }
    cbn [obind]. set (bs1 := bs ++ _) in *. assert (Hbs1 : zlen bs1 + zlen (al_name a) + zlen (written true ns) <= sz) by (subst bs1; rewrite zlen_app; lia).
    destruct (view_putbytes _ _ _ _ (al_name a) Hv1 Hnb) as (b2 & -> & Hv2); [lia|]. cbn [obind]. rewrite blit_end in Hv2.
    rewrite <- zlen_app in Hv2. destruct (IH b2 (bs1 ++ al_name a) sz true Hv2 Hns) as (b3 & -> & Hv3); [rewrite zlen_app; lia|].
    exists b3. split; [done|]. subst bs1. by rewrite <- !app_assoc in Hv3.
Qed.

Lemma buf_put_algolist_ok algos b bs sz :
  view b bs (zlen bs) sz -> Forall name_ok (usable_names algos) ->
  zlen bs + 4 + zlen (join_names (usable_names algos)) <= sz ->
  exists b', buf_put_algolist b algos = Ok b' /\
    view b' (bs ++ ssh_string (join_names (usable_names algos))) (zlen (bs ++ ssh_string (join_names (usable_names algos)))) sz.
Proof.
  intros Hv Hok Hsz. pose proof (view_bounds _ _ _ _ Hv) as Hb. unfold BUF_MAX_SIZE in Hb.
  set (ns := usable_names algos) in *. pose proof (zlen_nonneg (join_names ns)).
  unfold buf_put_algolist, buf_put_algolist_all. assert (buf_pos b = zlen bs) as -> by apply Hv.
  destruct (view_putint _ _ _ _ 0 Hv) as (b1 & -> & Hv1); [lia|]. cbn [obind]. rewrite blit_end in Hv1.
  assert (Hl4 : zlen (bs ++ store32h 0) = zlen bs + 4) by (by rewrite zlen_app). rewrite <- Hl4 in Hv1.
  destruct (put_algos_ok algos b1 _ sz false Hv1 Hok) as (b2 & -> & Hv2); [cbn [written]; fold ns; lia|]. cbn [obind written] in *. fold ns in Hv2.
  assert (buf_pos b2 = zlen bs + 4 + zlen (join_names ns)) as -> by (destruct Hv2 as [_ _ -> _]; rewrite zlen_app; lia).
  rewrite u32_small by lia. replace (zlen bs + 4 + zlen (join_names ns) - zlen bs - 4) with (zlen (join_names ns)) by lia.
  destruct (view_setpos _ _ _ _ (zlen bs) Hv2) as (b3 & -> & Hv3); [rewrite zlen_app; lia|]. cbn [obind].
  destruct (view_putint _ _ _ _ (zlen (join_names ns)) Hv3) as (b4 & -> & Hv4); [lia|]. cbn [obind].
  assert (Hbl : blit ((bs ++ store32h 0) ++ join_names ns) (zlen bs) (store32h (zlen (join_names ns))) = bs ++ ssh_string (join_names ns)).
  { rewrite <- app_assoc. rewrite <- (Z.add_0_r (zlen bs)) at 1. rewrite blit_app_r by lia. done. }
  rewrite Hbl in Hv4. assert (Hls : zlen (ssh_string (join_names ns)) = 4 + zlen (join_names ns)) by (unfold ssh_string; by rewrite zlen_app).
  destruct (view_incrwritepos _ _ _ _ (zlen (join_names ns)) Hv4) as (b5 & -> & Hv5); [lia|rewrite zlen_app; lia|].
  exists b5. split; [done|]. rewrite zlen_app, Hls. by replace (zlen bs + (4 + zlen (join_names ns))) with (zlen bs + 4 + zlen (join_names ns)) by lia.
Qed.

Lemma get_algolist_loop_name n : forall rest cur names max,
  name_ok n -> get_algolist_loop (n ++ rest) cur names max = get_algolist_loop rest (cur ++ n) names max.
Proof.
  induction n as [|c n IH]; intros rest cur names max Hn; [by rewrite app_nil_r|].
  apply Forall_cons in Hn as [(_ & H0 & Hc) Hn]. cbn [app get_algolist_loop].
  rewrite (proj2 (Z.eqb_neq _ _)), (proj2 (Z.eqb_neq c COMMA)) by done. rewrite IH by done. by rewrite <- app_assoc.
Qed.

Lemma get_algolist_loop_commas ns : forall cur names max,
  Forall name_ok ns -> zlen names + 1 + zlen ns <= max ->
  get_algolist_loop (comma_names ns) cur names max = Ok (names ++ cur :: ns).
Proof.
  induction ns as [|n ns IH]; intros cur names max Hok Hl; [done|]. apply Forall_cons in Hok as [Hn Hns].
  rewrite zlen_cons in Hl. pose proof (zlen_nonneg ns). change (comma_names (n :: ns)) with (COMMA :: n ++ comma_names ns).
  cbn [get_algolist_loop]. rewrite (proj2 (Z.eqb_neq _ _)), Z.eqb_refl, (proj2 (Z.leb_gt _ _)) by (done || lia). cbn [exit_if obind].
  rewrite get_algolist_loop_name by done. rewrite IH by (done || (rewrite zlen_app; change (zlen [cur]) with 1; lia)).
  by rewrite <- app_assoc.
Qed.

Lemma get_algolist_join ns tail max :
  ns <> [] -> Forall name_ok ns -> zlen ns <= max -> get_algolist (join_names ns ++ tail) (zlen (join_names ns)) max = Ok ns.
Proof.
  intros Hne Hok Hl. unfold get_algolist. pose proof (zlen_nonneg ns). destruct ns as [|n ns]; [done|].
  rewrite zlen_cons in Hl. pose proof (zlen_nonneg ns). rewrite (proj2 (Z.eqb_neq _ _)) by lia.
  unfold zlen at 1. rewrite Nat2Z.id, take_app_length. apply Forall_cons in Hok as [Hn Hns]. cbn [join_names].
  rewrite get_algolist_loop_name by done. by rewrite get_algolist_loop_commas by (done || (change (zlen []) with 0; lia)).
Qed.

(** A name list received: the reader of a [buf_getstring] that parses it. *)
Lemma getstring_names r ns rest :
  wf r -> unread r = ssh_string (join_names ns) ++ rest -> zlen (join_names ns) <= MAX_STRING_LEN ->
  buf_getstring r = Ok (join_names ns ++ [0], zlen (join_names ns), advance r (zlen (ssh_string (join_names ns)))) /\
  wf (advance r (zlen (ssh_string (join_names ns)))) /\ unread (advance r (zlen (ssh_string (join_names ns)))) = rest.
Proof. intros Hw Hu Hl. destruct (takes_string (join_names ns) Hl r rest Hw Hu) as (-> & ? & ?). done. Qed.

Lemma existsb_elem (ns : list bytes) n : existsb (fun x => bool_decide (x = n)) ns = bool_decide (n ∈ ns).
Proof.
  induction ns as [|x ns IH]; [done|]. cbn. rewrite IH. destruct (bool_decide_reflect (x = n)) as [->|Hne]; cbn.
  - symmetry. apply bool_decide_true. set_solver.
  - apply bool_decide_ext. set_solver.
Qed.

(** a table of algorithms is written as the comma-separated list of its usable names, and
    the peer that reads those bytes finds exactly those names: [buf_has_algo] answers
    membership and leaves the buffer where it was. *)
Theorem algolist_roundtrip algos b bs sz :
  view b bs (zlen bs) sz -> Forall name_ok (usable_names algos) -> usable_names algos <> [] ->
  zlen (usable_names algos) <= MAX_PROPOSED_ALGO -> zlen (join_names (usable_names algos)) <= MAX_STRING_LEN ->
  zlen bs + 4 + zlen (join_names (usable_names algos)) <= sz ->
  exists b' list, buf_put_algolist b algos = Ok b' /\ used b' = bs ++ list /\
    forall r rest n, wf r -> unread r = list ++ rest -> buf_has_algo r n = Ok (bool_decide (n ∈ usable_names algos), r).
Proof.
  intros Hv Hok Hne Hn Hs Hsz. destruct (buf_put_algolist_ok algos b bs sz Hv Hok Hsz) as (b' & Hput & Hv').
  exists b', (ssh_string (join_names (usable_names algos))). split; [done|]. split; [by destruct Hv'|].
  intros r rest n Hw Hu. unfold buf_has_algo. destruct (getstring_names r _ rest Hw Hu Hs) as (-> & Hw' & _). cbn [obind].
  rewrite get_algolist_join by done. cbn [obind]. rewrite existsb_elem.
  pose proof (wf_pos _ Hw) as Hp. pose proof (wf_pos _ Hw') as Hp'. unfold buf_setpos, advance in *. cbn in *.
  rewrite (proj2 (Z.ltb_ge _ _)) by lia. cbn. by destruct r.
Qed.

(** ** The choice *)

Lemma match_server_spec srv c : forall j,
  match match_server srv (Some c) j with
  | Some k => exists m, k = (j + m)%nat /\ srv !! m = Some (Some c) /\ forall m', (m' < m)%nat -> srv !! m' <> Some (Some c)
  | None => Some c ∉ srv
  end.
Proof.
  induction srv as [|s srv IH]; intros j; cbn [match_server]; [set_solver|].
  assert (Hstep : s <> Some c -> match match_server srv (Some c) (S j) with
    | Some k => exists m, k = (j + m)%nat /\ (s :: srv) !! m = Some (Some c) /\ forall m', (m' < m)%nat -> (s :: srv) !! m' <> Some (Some c)
    | None => Some c ∉ s :: srv end).
  { intros Hs. specialize (IH (S j)). destruct (match_server srv (Some c) (S j)) as [k|]; [|set_solver].
    destruct IH as (m & -> & Hm & Hlt). exists (S m). split_and!; [lia|done|]. intros [|m'] Hm'; cbn; [by intros [= ->]|apply Hlt; lia]. }
  destruct s as [s|]; [|by apply Hstep]. destruct (bool_decide_reflect (s = c)) as [->|Hne].
  - exists 0%nat. split_and!; [lia|done|lia].
  - apply Hstep. congruence.
Qed.

Lemma match_server_None srv : forall j, match_server srv None j = None.
Proof. induction srv as [|[]]; intros; cbn; auto. Qed.

(** The pair found is the first name of the client that the server has, and its first place
    at the server. *)
Lemma match_client_spec cli srv : forall i,
  match match_client cli srv i with
  | Some (k, j) => exists m c, k = (i + m)%nat /\ cli !! m = Some (Some c) /\ srv !! j = Some (Some c) /\
      (forall j', (j' < j)%nat -> srv !! j' <> Some (Some c)) /\
      forall m' c', (m' < m)%nat -> cli !! m' = Some (Some c') -> Some c' ∉ srv
  | None => forall c, Some c ∈ cli -> Some c ∉ srv
  end.
Proof.
  induction cli as [|c cli IH]; intros i; cbn [match_client]; [set_solver|].
  assert (Hrec : (forall c', c = Some c' -> Some c' ∉ srv) -> match match_client cli srv (S i) with
    | Some (k, j) => exists m c', k = (i + m)%nat /\ (c :: cli) !! m = Some (Some c') /\ srv !! j = Some (Some c') /\
        (forall j', (j' < j)%nat -> srv !! j' <> Some (Some c')) /\
        forall m' c', (m' < m)%nat -> (c :: cli) !! m' = Some (Some c') -> Some c' ∉ srv
    | None => forall c', Some c' ∈ c :: cli -> Some c' ∉ srv end).
  { intros Hc. specialize (IH (S i)). destruct (match_client cli srv (S i)) as [[k j]|].
    - destruct IH as (m & c' & -> & Hm & Hj & Hj' & Hlt). exists (S m), c'. split_and!; try done; [lia|].
      intros [|m'] c2 Hm' Hl; cbn in Hl; [injection Hl as ->; by apply Hc|apply (Hlt m'); [lia|done]].
    - intros c' Hin. apply elem_of_cons in Hin as [<-|Hin]; [by apply Hc|by apply IH]. }
  destruct c as [c|]; [|rewrite match_server_None; by apply Hrec].
  pose proof (match_server_spec srv c 0) as Hms. destruct (match_server srv (Some c) 0) as [j|].
  - destruct Hms as (m & -> & Hm & Hlt). exists 0%nat, c. split_and!; try done; lia.
  - apply Hrec. by intros c' [= <-].
Qed.

Lemma elem_of_localnames algos n : Some n ∈ map localname algos <-> n ∈ usable_names algos.
Proof.
  unfold usable_names. induction algos as [|a l IH]; [set_solver|]. rewrite filter_cons. cbn [map]. unfold localname at 1.
  destruct (al_usable a); [rewrite decide_True by done|rewrite decide_False by done]; cbn [map]; set_solver.
Qed.

Lemma elem_of_somes (l : list bytes) n : Some n ∈ map Some l <-> n ∈ l.
Proof. induction l; set_solver. Qed.

Lemma omap_Some (c : bytes) l : omap id (Some c :: l) = c :: omap id l.
Proof. done. Qed.

(** The name negotiated: the first of the client's usable names that the server has. *)
Definition pick (cli srv : list (option bytes)) : option bytes := head (filter (fun c => Some c ∈ srv) (omap id cli)).

Lemma match_client_pick cli srv :
  match match_client cli srv 0 with
  | Some (k, j) => exists c, cli !! k = Some (Some c) /\ srv !! j = Some (Some c) /\ pick cli srv = Some c /\
      (k = 0%nat <-> cli !! 0%nat = Some (Some c)) /\ (j = 0%nat <-> srv !! 0%nat = Some (Some c))
  | None => pick cli srv = None
  end.
Proof.
  pose proof (match_client_spec cli srv 0) as Hm. destruct (match_client cli srv 0) as [[k j]|].
  - destruct Hm as (m & c & -> & Hc & Hs & Hj & Hlt). cbn [Nat.add]. exists c. split_and!; try done.
    + unfold pick. assert (Hin : Some c ∈ srv) by (by eapply list_elem_of_lookup_2). clear Hj.
      revert m Hc Hlt. induction cli as [|x l IH]; intros [|m] Hc Hlt; try done.
      * injection Hc as ->. rewrite omap_Some. by rewrite filter_cons_True.
      * assert (Hl : forall m' c', (m' < m)%nat -> l !! m' = Some (Some c') -> Some c' ∉ srv) by (intros m' c' ? ?; apply (Hlt (S m')); [lia|done]).
        destruct x as [x|]; [rewrite omap_Some|by apply (IH m)]. rewrite filter_cons_False by (apply (Hlt 0%nat); [lia|done]). by apply (IH m).
    + split; [intros ->; done|]. intros H0. destruct m; [done|]. exfalso. apply (Hlt 0%nat c); [lia|done|by eapply list_elem_of_lookup_2].
    + split; [intros ->; done|]. intros H0. destruct j; [done|]. exfalso. by apply (Hj 0%nat); [lia|].
  - unfold pick. clear -Hm. induction cli as [|[c|] l IH]; [done| |apply IH; set_solver].
    rewrite omap_Some, filter_cons_False by (apply Hm; set_solver). apply IH. set_solver.
Qed.

Lemma omap_localnames algos : omap id (map localname algos) = usable_names algos.
Proof.
  unfold usable_names. induction algos as [|a l IH]; [done|]. rewrite filter_cons. cbn. unfold localname at 1.
  destruct (al_usable a); [rewrite decide_True by done|rewrite decide_False by done]; cbn; by rewrite IH.
Qed.

Lemma omap_somes (l : list bytes) : omap id (map Some l) = l.
Proof. induction l as [|a l IH]; [done|]. cbn. by rewrite IH. Qed.

Lemma pick_somes (cli srv : list bytes) : pick (map Some cli) (map Some srv) = head (filter (fun c => c ∈ srv) cli).
Proof.
  unfold pick. rewrite omap_somes. f_equal. apply list_filter_iff. intros. apply elem_of_somes.
Qed.

Lemma pick_server cli algos : pick (map Some cli) (map localname algos) = head (filter (fun c => c ∈ usable_names algos) cli).
Proof. unfold pick. rewrite omap_somes. f_equal. apply list_filter_iff. intros. apply elem_of_localnames. Qed.

Lemma pick_client algos srv : pick (map localname algos) (map Some srv) = head (filter (fun c => c ∈ srv) (usable_names algos)).
Proof. unfold pick. rewrite omap_localnames. f_equal. apply list_filter_iff. intros. apply elem_of_somes. Qed.

Lemma localname_lookup algos j n : map localname algos !! j = Some (Some n) -> exists a, algos !! j = Some a /\ al_name a = n /\ al_usable a = true.
Proof.
  rewrite list_lookup_fmap. destruct (algos !! j) as [a|]; [|done]. cbn. unfold localname. destruct (al_usable a) eqn:E; [|done].
  intros [= <-]. by exists a.
Qed.

(** A name list that can be negotiated over. *)
Record good_list (ns : list bytes) : Prop := {
  gl_ok : Forall name_ok ns;
  gl_ne : ns <> [];
  gl_count : zlen ns <= MAX_PROPOSED_ALGO;
  gl_len : zlen (join_names ns) <= MAX_STRING_LEN;
}.

Lemma buf_match_algo_eq (is_server : bool) r ns rest algos (kg : bool) :
  wf r -> unread r = ssh_string (join_names ns) ++ rest -> good_list ns -> zlen algos <= MAX_PROPOSED_ALGO ->
  let locals := map localname algos in
  let '(cli, srv) := if is_server then (map Some ns, locals) else (locals, map Some ns) in
  exists r', unread r' = rest /\ wf r' /\ buf_match_algo is_server r algos kg =
    match match_client cli srv 0 with
    | None => Ok (None, false, r')
    | Some (i, j) => Ok (algos !! (if is_server then j else i), if kg then (i =? 0)%nat else ((i =? 0) && (j =? 0))%nat, r')
    end.
Proof.
  intros Hw Hu [Hok Hne Hn Hs] Ha locals. unfold buf_match_algo. destruct (getstring_names r ns rest Hw Hu Hs) as (-> & Hw' & Hu').
  cbn [obind]. rewrite get_algolist_join by done. cbn [obind]. rewrite (proj2 (Z.leb_le _ _)) by done. cbn [obind]. fold locals.
  destruct is_server; eexists; (split; [exact Hu'|]); (split; [exact Hw'|done]).
Qed.

(** the server's choice (RFC 4253 section 7.1): the entry returned is usable, its name is
    on the client's list, no name before it on that list is usable here, and the guess is
    good when the first choices agree (the first of the client alone with kexguess2); with
    nothing in common the answer is NULL. *)
Theorem negotiation_first_match r cli rest algos kg :
  wf r -> unread r = ssh_string (join_names cli) ++ rest -> good_list cli -> zlen algos <= MAX_PROPOSED_ALGO ->
  exists res gg r', buf_match_algo true r algos kg = Ok (res, gg, r') /\ unread r' = rest /\ wf r' /\
    match res with
    | Some a => a ∈ algos /\ al_usable a = true /\ head (filter (fun n => n ∈ usable_names algos) cli) = Some (al_name a) /\
        (gg = true <-> head cli = Some (al_name a) /\ (kg = true \/ exists a0, head algos = Some a0 /\ al_usable a0 = true /\ al_name a0 = al_name a))
    | None => gg = false /\ forall n, n ∈ cli -> n ∉ usable_names algos
    end.
Proof.
  intros Hw Hu Hgl Ha. destruct (buf_match_algo_eq true r cli rest algos kg Hw Hu Hgl Ha) as (r' & Hu' & Hw' & ->).
  pose proof (match_client_pick (map Some cli) (map localname algos)) as Hp. rewrite pick_server in Hp.
  destruct (match_client _ _ _) as [[i j]|].
  - destruct Hp as (c & Hi & Hj & Hc & Hi0 & Hj0). destruct (localname_lookup _ _ _ Hj) as (a & Hla & Hn & Hus).
    do 3 eexists. split; [done|]. split; [done|]. split; [done|]. rewrite Hla. subst c.
    split; [by eapply list_elem_of_lookup_2|]. split; [done|]. split; [done|].
    assert (Hhead : (i = 0)%nat <-> head cli = Some (al_name a)) by (rewrite Hi0; destruct cli; cbn; naive_solver).
    assert (Hhead2 : (j = 0)%nat <-> exists a0, head algos = Some a0 /\ al_usable a0 = true /\ al_name a0 = al_name a).
    { rewrite Hj0. destruct algos as [|a0 l]; cbn; [split; [done|by intros (? & ? & _)]|]. unfold localname.
      destruct (al_usable a0) eqn:E; (split; [intros [= ?]; by exists a0|]); intros (a1 & [= <-] & ? & <-); congruence. }
    rewrite <- Hhead, <- Hhead2. destruct kg; rewrite ?andb_true_iff, ?Nat.eqb_eq; naive_solver.
  - do 3 eexists. split; [done|]. split; [done|]. split; [done|]. split; [done|]. intros n Hn Hus.
    assert (Hin : n ∈ filter (fun c => c ∈ usable_names algos) cli) by (by apply list_elem_of_filter).
    destruct (filter _ cli); [set_solver|done].
Qed.

(** C13: both ends choose the same algorithm: when each has read the list the other writes for
    its table, the entry [buf_match_algo] returns at the server and the one it returns at the
    client have the same name (or both have none), and when both tables start with a usable
    entry the two ends agree on whether the guess was good. *)
Theorem negotiation_agrees rs rc rests restc (algos_s algos_c : list (algo_type D M)) kg :
  let ns := usable_names algos_s in let nc := usable_names algos_c in
  wf rs -> wf rc -> unread rs = ssh_string (join_names nc) ++ rests -> unread rc = ssh_string (join_names ns) ++ restc ->
  good_list ns -> good_list nc -> zlen algos_s <= MAX_PROPOSED_ALGO -> zlen algos_c <= MAX_PROPOSED_ALGO ->
  exists a_s a_c gs gc rs' rc',
    buf_match_algo true rs algos_s kg = Ok (a_s, gs, rs') /\ buf_match_algo false rc algos_c kg = Ok (a_c, gc, rc') /\
    option_map al_name a_s = option_map al_name a_c /\
    ((exists a, head algos_s = Some a /\ al_usable a = true) -> (exists a, head algos_c = Some a /\ al_usable a = true) -> gs = gc).
Proof.
  intros ns nc Hws Hwc Hus Huc Hgs Hgc Hls Hlc.
  destruct (buf_match_algo_eq true rs nc rests algos_s kg Hws Hus Hgc Hls) as (rs' & _ & _ & ->).
  destruct (buf_match_algo_eq false rc ns restc algos_c kg Hwc Huc Hgs Hlc) as (rc' & _ & _ & ->).
  pose proof (match_client_pick (map Some nc) (map localname algos_s)) as Hps. rewrite pick_server in Hps.
  pose proof (match_client_pick (map localname algos_c) (map Some ns)) as Hpc. rewrite pick_client in Hpc. fold ns nc in Hps, Hpc.
  destruct (match_client (map Some nc) _ _) as [[i j]|], (match_client (map localname algos_c) _ _) as [[i' j']|].
  - destruct Hps as (c & Hi & Hj & Hc & Hi0 & Hj0), Hpc as (c' & Hi' & Hj' & Hc' & Hi0' & Hj0'). rewrite Hc in Hc'. injection Hc' as <-.
    destruct (localname_lookup _ _ _ Hj) as (a & -> & Hn & Ha), (localname_lookup _ _ _ Hi') as (a' & -> & Hn' & Ha').
    do 6 eexists. split; [done|]. split; [done|]. split; [cbn; congruence|]. intros (s0 & Hs0 & Hus0) (c0 & Hc0 & Huc0).
    assert (Hii : (i = 0)%nat <-> (i' = 0)%nat).
    { rewrite Hi0, Hi0'. unfold nc, usable_names. destruct algos_c; [done|]. injection Hc0 as ->. rewrite filter_cons_True by done. cbn. unfold localname. by rewrite Huc0. }
    assert (Hjj : (j = 0)%nat <-> (j' = 0)%nat).
    { rewrite Hj0, Hj0'. unfold ns, usable_names. destruct algos_s; [done|]. injection Hs0 as ->. rewrite filter_cons_True by done. cbn. unfold localname. by rewrite Hus0. }
    apply eq_true_iff_eq. destruct kg; rewrite ?andb_true_iff, ?Nat.eqb_eq; naive_solver.
  - destruct Hps as (c & _ & _ & Hc & _). congruence.
  - destruct Hpc as (c & _ & _ & Hc & _). congruence.
  - do 6 eexists. split; [done|]. split; [done|]. done.
Qed.
End names.

(** ** Witnesses *)

Definition entry (c : Z) (usable : bool) : algo_type unit unit := mkalgo [c] 0 None usable None.

Definition reader (bs : bytes) : buffer := mkbuf bs (zlen bs) 0 (zlen bs).

Lemma reader_ok bs : bytes_ok bs -> zlen bs <= BUF_MAX_SIZE -> wf (reader bs) /\ unread (reader bs) = bs.
Proof.
  intros Hb Hl. pose proof (zlen_nonneg bs). split; [by split; cbn; try lia|]. unfold unread, reader. cbn.
  rewrite Z.sub_0_r. apply sub_all.
Qed.

Lemma algolist_roundtrip_witness :
  let algos := [entry 97 true; entry 98 false; entry 99 true] in
  exists b' list, buf_put_algolist (mkbuf (replicate 20 0) 0 0 20) algos = Ok b' /\ used b' = list /\
    buf_has_algo (reader list) [99] = Ok (true, reader list) /\ buf_has_algo (reader list) [98] = Ok (false, reader list).
Proof.
  intros algos. destruct (algolist_roundtrip algos (mkbuf (replicate 20 0) 0 0 20) [] 20) as (b' & list & Hp & Hu & Hr).
  - split; [wit|done|done|done].
  - wit.
  - done.
  - done.
  - done.
  - done.
  - exists b', list. split; [done|]. split; [done|].
    assert (list = ssh_string (join_names [[97]; [99]])) as ->.
    { assert (Hx : match buf_put_algolist (mkbuf (replicate 20 0) 0 0 20) algos with Ok b => used b | _ => [] end = ssh_string (join_names [[97]; [99]]))
        by (vm_compute; reflexivity). rewrite Hp in Hx. cbn in Hu. congruence. }
    destruct (reader_ok (ssh_string (join_names [[97]; [99]]))) as [Hw Hun]; [apply bytes_check; vm_compute; reflexivity|done|].
    split; [by apply (Hr _ [] [99])|by apply (Hr _ [] [98])].
Defined.

Lemma negotiation_first_match_witness :
  let algos := [entry 97 false; entry 98 true; entry 99 true] in
  exists r', buf_match_algo true (reader (ssh_string (join_names [[97]; [99]; [98]]))) algos false = Ok (Some (entry 99 true), false, r').
Proof.
  intros algos. destruct (reader_ok (ssh_string (join_names [[97]; [99]; [98]]))) as [Hw Hun]; [apply bytes_check; vm_compute; reflexivity|done|].
  destruct (negotiation_first_match (reader (ssh_string (join_names [[97]; [99]; [98]]))) [[97]; [99]; [98]] [] algos false)
    as (res & gg & r' & Hm & _ & _ & Hres).
  - exact Hw.
  - by rewrite app_nil_r.
  - split; wit.
  - done.
  - exists r'. rewrite Hm. destruct res as [a|]; [|exfalso; apply (proj2 Hres [99]); cbn; set_solver].
    destruct Hres as (Ha & Hu & Hh & Hg). vm_compute in Hh. injection Hh as Hh. subst algos.
    assert (a = entry 99 true) as -> by (rewrite !elem_of_cons in Ha; destruct Ha as [-> | [-> | [-> | ?]]]; (done || set_solver)).
    assert (gg = false) as -> by (destruct gg; [|done]; destruct (proj1 Hg eq_refl); done). done.
Defined.

Lemma negotiation_agrees_witness :
  let algos_s := [entry 98 true; entry 97 true] in let algos_c := [entry 99 true; entry 97 true; entry 98 true] in
  exists a_s a_c g rs' rc',
    buf_match_algo true (reader (ssh_string (join_names (usable_names algos_c)))) algos_s false = Ok (a_s, g, rs') /\
    buf_match_algo false (reader (ssh_string (join_names (usable_names algos_s)))) algos_c false = Ok (a_c, g, rc') /\
    option_map al_name a_s = option_map al_name a_c.
Proof.
  intros algos_s algos_c. destruct (reader_ok (ssh_string (join_names (usable_names algos_c)))) as [Hwc Huc]; [apply bytes_check; vm_compute; reflexivity|done|].
  destruct (reader_ok (ssh_string (join_names (usable_names algos_s)))) as [Hws Hus]; [apply bytes_check; vm_compute; reflexivity|done|].
  destruct (negotiation_agrees (reader (ssh_string (join_names (usable_names algos_c)))) (reader (ssh_string (join_names (usable_names algos_s))))
    [] [] algos_s algos_c false) as (a_s & a_c & gs & gc & rs' & rc' & H1 & H2 & H3 & H4).
  - exact Hwc.
  - exact Hws.
  - by rewrite app_nil_r.
  - by rewrite app_nil_r.
  - split; wit.
  - split; wit.
  - done.
  - done.
  - exists a_s, a_c, gs, rs', rc'. split; [exact H1|]. split; [|exact H3].
    rewrite (H4 (ex_intro _ _ (conj eq_refl eq_refl)) (ex_intro _ _ (conj eq_refl eq_refl))). exact H2.
Defined.
