(* ===== verification/Kex.v ===== *)
(** * The key exchange and the dispatch of packets

    The server's side of common-kex.c, kex-dh.c and svr-kex.c, with process_packet of
    process-packet.c, over the packet layer of Packet.v and the negotiation of Algo.v.
    [kses] adds to the packet layer the fields of [struct sshsession] used here; a null
    pointer is [None] and following one is [Undef].  The hash functions, the ciphers'
    [start], zlib's initialisation, the host key and the elliptic curve and hybrid key
    exchanges are the fields of [KexLib] and [config]; the handlers of the other packet types are
    an argument.  The client's branches are not compiled in this build. *)

From Stdlib Require Import Zpow_facts.
From S2P Require Import Prelude Bytes Buffer Packet Transport PacketQueues PacketSafety Algo.

(** ** Constants *)

Definition SSH_MSG_KEXDH_INIT : Z := 30.
Definition SSH_MSG_KEXDH_REPLY : Z := 31.
Definition MAX_UNAUTH_PACKET_TYPE : Z := SSH_MSG_USERAUTH_PK_OK.
Definition MAX_IV_LEN : Z := 20.
Definition MAX_KEY_LEN : Z := 64.

(** KEXHASHBUF_MAX_INTS with the key exchanges of this build: MAX_PUBKEY_SIZE and
    MAX_KEX_PARTS. *)
Definition KEXHASHBUF_MAX_INTS : Z := 600 + (2 * 4 + 1184 + 1088 + 32 * 2 + 68).

(** ** Data *)

Section kex.
Context {CS ZS HD HS : Type} {C : Crypto CS ZS}.

(** [struct dropbear_cipher]: the descriptor is there or not, and has a name or not. *)
Record dropbear_cipher := mkcipher { cipherdesc : option (option bytes); c_keysize : Z; c_blocksize : Z }.

(** [struct dropbear_hash]. *)
Record dropbear_hash := mkhash { hash_desc : option HD; h_keysize : Z; h_hashsize : Z }.

(** [struct dropbear_cipher_mode]; [start] gives the cipher state. *)
Record dropbear_cipher_mode := mkmode {
  start : Z -> bytes -> bytes -> Z -> option CS;
  aead_crypt : bool;
  aead_mac : option dropbear_hash;
}.

Inductive dropbear_kex_mode := DROPBEAR_KEX_NORMAL_DH | DROPBEAR_KEX_ECDH | DROPBEAR_KEX_CURVE25519 | DROPBEAR_KEX_PQHYBRID.

(** [struct dropbear_kex]; the prime as a number. *)
Record dropbear_kex := mkkex { kex_mode : dropbear_kex_mode; dh_p : Z; kex_hash : HD }.

(** [struct key_context_directional] while it is negotiated. *)
Record kdir := mkkdir {
  kd_crypt : option dropbear_cipher;
  kd_mode : option dropbear_cipher_mode;
  kd_mac : option dropbear_hash;
  kd_hash_index : Z;
  kd_mackey : bytes;
  kd_comp : comp_algo;
  kd_state : CS;
  kd_zstream : ZS;
  kd_valid : bool;
}.

(** [struct key_context]. *)
Record key_context := mkkeys {
  nk_recv : kdir;
  nk_trans : kdir;
  nk_kex : option dropbear_kex;
  nk_hostkey : Z;
  nk_signature : Z;
}.

(** The fields of [struct sshsession] and of its [struct KEXState]. *)
Record kses := mkkses {
  pk : pktses CS ZS;
  sentkexinit : bool;
  recvkexinit : bool;
  them_firstfollows : bool;
  sentnewkeys : bool;
  recvnewkeys : bool;
  donefirstkex : bool;
  donesecondkex : bool;
  recvfirstnewkeys : bool;
  our_first_follows_matches : bool;
  strict_kex : bool;
  lastkextime : Z;
  needrekey : bool;
  requirenext : Z;
  ignorenext : bool;
  lastpacket : Z;
  newkeys : option key_context;
  algo_kex : option dropbear_kex;
  session_id : option bytes;
  dh_K : option Z;
  dh_K_bytes : option bytes;
  hash : option bytes;
  kexhashbuf : option buffer;
  transkexinit : option buffer;
  compress_algos_c2s : list (algo_type unit unit);
  compress_algos_s2c : list (algo_type unit unit);
  sigalgs : list (algo_type unit unit);
  allow_ext_info : bool;
  keepalive_recv : Z;
}.

Definition put_kd_crypt (v : option dropbear_cipher) (s : kdir) : kdir :=
  mkkdir v (kd_mode s) (kd_mac s) (kd_hash_index s) (kd_mackey s) (kd_comp s) (kd_state s) (kd_zstream s) (kd_valid s).
Definition put_kd_mode (v : option dropbear_cipher_mode) (s : kdir) : kdir :=
  mkkdir (kd_crypt s) v (kd_mac s) (kd_hash_index s) (kd_mackey s) (kd_comp s) (kd_state s) (kd_zstream s) (kd_valid s).
Definition put_kd_mac (v : option dropbear_hash) (s : kdir) : kdir :=
  mkkdir (kd_crypt s) (kd_mode s) v (kd_hash_index s) (kd_mackey s) (kd_comp s) (kd_state s) (kd_zstream s) (kd_valid s).
Definition put_kd_hash_index (v : Z) (s : kdir) : kdir :=
  mkkdir (kd_crypt s) (kd_mode s) (kd_mac s) v (kd_mackey s) (kd_comp s) (kd_state s) (kd_zstream s) (kd_valid s).
Definition put_kd_mackey (v : bytes) (s : kdir) : kdir :=
  mkkdir (kd_crypt s) (kd_mode s) (kd_mac s) (kd_hash_index s) v (kd_comp s) (kd_state s) (kd_zstream s) (kd_valid s).
Definition put_kd_comp (v : comp_algo) (s : kdir) : kdir :=
  mkkdir (kd_crypt s) (kd_mode s) (kd_mac s) (kd_hash_index s) (kd_mackey s) v (kd_state s) (kd_zstream s) (kd_valid s).
Definition put_kd_state (v : CS) (s : kdir) : kdir :=
  mkkdir (kd_crypt s) (kd_mode s) (kd_mac s) (kd_hash_index s) (kd_mackey s) (kd_comp s) v (kd_zstream s) (kd_valid s).
Definition put_kd_zstream (v : ZS) (s : kdir) : kdir :=
  mkkdir (kd_crypt s) (kd_mode s) (kd_mac s) (kd_hash_index s) (kd_mackey s) (kd_comp s) (kd_state s) v (kd_valid s).
Definition put_kd_valid (v : bool) (s : kdir) : kdir :=
  mkkdir (kd_crypt s) (kd_mode s) (kd_mac s) (kd_hash_index s) (kd_mackey s) (kd_comp s) (kd_state s) (kd_zstream s) v.

Definition put_nk_recv (v : kdir) (s : key_context) : key_context :=
  mkkeys v (nk_trans s) (nk_kex s) (nk_hostkey s) (nk_signature s).
Definition put_nk_trans (v : kdir) (s : key_context) : key_context :=
  mkkeys (nk_recv s) v (nk_kex s) (nk_hostkey s) (nk_signature s).
Definition put_nk_kex (v : option dropbear_kex) (s : key_context) : key_context :=
  mkkeys (nk_recv s) (nk_trans s) v (nk_hostkey s) (nk_signature s).
Definition put_nk_hostkey (v : Z) (s : key_context) : key_context :=
  mkkeys (nk_recv s) (nk_trans s) (nk_kex s) v (nk_signature s).
Definition put_nk_signature (v : Z) (s : key_context) : key_context :=
  mkkeys (nk_recv s) (nk_trans s) (nk_kex s) (nk_hostkey s) v.

Definition put_pk (v : pktses CS ZS) (s : kses) : kses :=
  mkkses v (sentkexinit s) (recvkexinit s) (them_firstfollows s) (sentnewkeys s) (recvnewkeys s) (donefirstkex s) (donesecondkex s) (recvfirstnewkeys s) (our_first_follows_matches s) (strict_kex s) (lastkextime s) (needrekey s) (requirenext s) (ignorenext s) (lastpacket s) (newkeys s) (algo_kex s) (session_id s) (dh_K s) (dh_K_bytes s) (hash s) (kexhashbuf s) (transkexinit s) (compress_algos_c2s s) (compress_algos_s2c s) (sigalgs s) (allow_ext_info s) (keepalive_recv s).
Definition put_sentkexinit (v : bool) (s : kses) : kses :=
  mkkses (pk s) v (recvkexinit s) (them_firstfollows s) (sentnewkeys s) (recvnewkeys s) (donefirstkex s) (donesecondkex s) (recvfirstnewkeys s) (our_first_follows_matches s) (strict_kex s) (lastkextime s) (needrekey s) (requirenext s) (ignorenext s) (lastpacket s) (newkeys s) (algo_kex s) (session_id s) (dh_K s) (dh_K_bytes s) (hash s) (kexhashbuf s) (transkexinit s) (compress_algos_c2s s) (compress_algos_s2c s) (sigalgs s) (allow_ext_info s) (keepalive_recv s).
Definition put_recvkexinit (v : bool) (s : kses) : kses :=
  mkkses (pk s) (sentkexinit s) v (them_firstfollows s) (sentnewkeys s) (recvnewkeys s) (donefirstkex s) (donesecondkex s) (recvfirstnewkeys s) (our_first_follows_matches s) (strict_kex s) (lastkextime s) (needrekey s) (requirenext s) (ignorenext s) (lastpacket s) (newkeys s) (algo_kex s) (session_id s) (dh_K s) (dh_K_bytes s) (hash s) (kexhashbuf s) (transkexinit s) (compress_algos_c2s s) (compress_algos_s2c s) (sigalgs s) (allow_ext_info s) (keepalive_recv s).
Definition put_them_firstfollows (v : bool) (s : kses) : kses :=
  mkkses (pk s) (sentkexinit s) (recvkexinit s) v (sentnewkeys s) (recvnewkeys s) (donefirstkex s) (donesecondkex s) (recvfirstnewkeys s) (our_first_follows_matches s) (strict_kex s) (lastkextime s) (needrekey s) (requirenext s) (ignorenext s) (lastpacket s) (newkeys s) (algo_kex s) (session_id s) (dh_K s) (dh_K_bytes s) (hash s) (kexhashbuf s) (transkexinit s) (compress_algos_c2s s) (compress_algos_s2c s) (sigalgs s) (allow_ext_info s) (keepalive_recv s).
Definition put_sentnewkeys (v : bool) (s : kses) : kses :=
  mkkses (pk s) (sentkexinit s) (recvkexinit s) (them_firstfollows s) v (recvnewkeys s) (donefirstkex s) (donesecondkex s) (recvfirstnewkeys s) (our_first_follows_matches s) (strict_kex s) (lastkextime s) (needrekey s) (requirenext s) (ignorenext s) (lastpacket s) (newkeys s) (algo_kex s) (session_id s) (dh_K s) (dh_K_bytes s) (hash s) (kexhashbuf s) (transkexinit s) (compress_algos_c2s s) (compress_algos_s2c s) (sigalgs s) (allow_ext_info s) (keepalive_recv s).
Definition put_recvnewkeys (v : bool) (s : kses) : kses :=
  mkkses (pk s) (sentkexinit s) (recvkexinit s) (them_firstfollows s) (sentnewkeys s) v (donefirstkex s) (donesecondkex s) (recvfirstnewkeys s) (our_first_follows_matches s) (strict_kex s) (lastkextime s) (needrekey s) (requirenext s) (ignorenext s) (lastpacket s) (newkeys s) (algo_kex s) (session_id s) (dh_K s) (dh_K_bytes s) (hash s) (kexhashbuf s) (transkexinit s) (compress_algos_c2s s) (compress_algos_s2c s) (sigalgs s) (allow_ext_info s) (keepalive_recv s).
Definition put_donefirstkex (v : bool) (s : kses) : kses :=
  mkkses (pk s) (sentkexinit s) (recvkexinit s) (them_firstfollows s) (sentnewkeys s) (recvnewkeys s) v (donesecondkex s) (recvfirstnewkeys s) (our_first_follows_matches s) (strict_kex s) (lastkextime s) (needrekey s) (requirenext s) (ignorenext s) (lastpacket s) (newkeys s) (algo_kex s) (session_id s) (dh_K s) (dh_K_bytes s) (hash s) (kexhashbuf s) (transkexinit s) (compress_algos_c2s s) (compress_algos_s2c s) (sigalgs s) (allow_ext_info s) (keepalive_recv s).
Definition put_donesecondkex (v : bool) (s : kses) : kses :=
  mkkses (pk s) (sentkexinit s) (recvkexinit s) (them_firstfollows s) (sentnewkeys s) (recvnewkeys s) (donefirstkex s) v (recvfirstnewkeys s) (our_first_follows_matches s) (strict_kex s) (lastkextime s) (needrekey s) (requirenext s) (ignorenext s) (lastpacket s) (newkeys s) (algo_kex s) (session_id s) (dh_K s) (dh_K_bytes s) (hash s) (kexhashbuf s) (transkexinit s) (compress_algos_c2s s) (compress_algos_s2c s) (sigalgs s) (allow_ext_info s) (keepalive_recv s).
Definition put_recvfirstnewkeys (v : bool) (s : kses) : kses :=
  mkkses (pk s) (sentkexinit s) (recvkexinit s) (them_firstfollows s) (sentnewkeys s) (recvnewkeys s) (donefirstkex s) (donesecondkex s) v (our_first_follows_matches s) (strict_kex s) (lastkextime s) (needrekey s) (requirenext s) (ignorenext s) (lastpacket s) (newkeys s) (algo_kex s) (session_id s) (dh_K s) (dh_K_bytes s) (hash s) (kexhashbuf s) (transkexinit s) (compress_algos_c2s s) (compress_algos_s2c s) (sigalgs s) (allow_ext_info s) (keepalive_recv s).
Definition put_our_first_follows_matches (v : bool) (s : kses) : kses :=
  mkkses (pk s) (sentkexinit s) (recvkexinit s) (them_firstfollows s) (sentnewkeys s) (recvnewkeys s) (donefirstkex s) (donesecondkex s) (recvfirstnewkeys s) v (strict_kex s) (lastkextime s) (needrekey s) (requirenext s) (ignorenext s) (lastpacket s) (newkeys s) (algo_kex s) (session_id s) (dh_K s) (dh_K_bytes s) (hash s) (kexhashbuf s) (transkexinit s) (compress_algos_c2s s) (compress_algos_s2c s) (sigalgs s) (allow_ext_info s) (keepalive_recv s).
Definition put_strict_kex (v : bool) (s : kses) : kses :=
  mkkses (pk s) (sentkexinit s) (recvkexinit s) (them_firstfollows s) (sentnewkeys s) (recvnewkeys s) (donefirstkex s) (donesecondkex s) (recvfirstnewkeys s) (our_first_follows_matches s) v (lastkextime s) (needrekey s) (requirenext s) (ignorenext s) (lastpacket s) (newkeys s) (algo_kex s) (session_id s) (dh_K s) (dh_K_bytes s) (hash s) (kexhashbuf s) (transkexinit s) (compress_algos_c2s s) (compress_algos_s2c s) (sigalgs s) (allow_ext_info s) (keepalive_recv s).
Definition put_lastkextime (v : Z) (s : kses) : kses :=
  mkkses (pk s) (sentkexinit s) (recvkexinit s) (them_firstfollows s) (sentnewkeys s) (recvnewkeys s) (donefirstkex s) (donesecondkex s) (recvfirstnewkeys s) (our_first_follows_matches s) (strict_kex s) v (needrekey s) (requirenext s) (ignorenext s) (lastpacket s) (newkeys s) (algo_kex s) (session_id s) (dh_K s) (dh_K_bytes s) (hash s) (kexhashbuf s) (transkexinit s) (compress_algos_c2s s) (compress_algos_s2c s) (sigalgs s) (allow_ext_info s) (keepalive_recv s).
Definition put_needrekey (v : bool) (s : kses) : kses :=
  mkkses (pk s) (sentkexinit s) (recvkexinit s) (them_firstfollows s) (sentnewkeys s) (recvnewkeys s) (donefirstkex s) (donesecondkex s) (recvfirstnewkeys s) (our_first_follows_matches s) (strict_kex s) (lastkextime s) v (requirenext s) (ignorenext s) (lastpacket s) (newkeys s) (algo_kex s) (session_id s) (dh_K s) (dh_K_bytes s) (hash s) (kexhashbuf s) (transkexinit s) (compress_algos_c2s s) (compress_algos_s2c s) (sigalgs s) (allow_ext_info s) (keepalive_recv s).
Definition put_requirenext (v : Z) (s : kses) : kses :=
  mkkses (pk s) (sentkexinit s) (recvkexinit s) (them_firstfollows s) (sentnewkeys s) (recvnewkeys s) (donefirstkex s) (donesecondkex s) (recvfirstnewkeys s) (our_first_follows_matches s) (strict_kex s) (lastkextime s) (needrekey s) v (ignorenext s) (lastpacket s) (newkeys s) (algo_kex s) (session_id s) (dh_K s) (dh_K_bytes s) (hash s) (kexhashbuf s) (transkexinit s) (compress_algos_c2s s) (compress_algos_s2c s) (sigalgs s) (allow_ext_info s) (keepalive_recv s).
Definition put_ignorenext (v : bool) (s : kses) : kses :=
  mkkses (pk s) (sentkexinit s) (recvkexinit s) (them_firstfollows s) (sentnewkeys s) (recvnewkeys s) (donefirstkex s) (donesecondkex s) (recvfirstnewkeys s) (our_first_follows_matches s) (strict_kex s) (lastkextime s) (needrekey s) (requirenext s) v (lastpacket s) (newkeys s) (algo_kex s) (session_id s) (dh_K s) (dh_K_bytes s) (hash s) (kexhashbuf s) (transkexinit s) (compress_algos_c2s s) (compress_algos_s2c s) (sigalgs s) (allow_ext_info s) (keepalive_recv s).
Definition put_lastpacket (v : Z) (s : kses) : kses :=
  mkkses (pk s) (sentkexinit s) (recvkexinit s) (them_firstfollows s) (sentnewkeys s) (recvnewkeys s) (donefirstkex s) (donesecondkex s) (recvfirstnewkeys s) (our_first_follows_matches s) (strict_kex s) (lastkextime s) (needrekey s) (requirenext s) (ignorenext s) v (newkeys s) (algo_kex s) (session_id s) (dh_K s) (dh_K_bytes s) (hash s) (kexhashbuf s) (transkexinit s) (compress_algos_c2s s) (compress_algos_s2c s) (sigalgs s) (allow_ext_info s) (keepalive_recv s).
Definition put_newkeys (v : option key_context) (s : kses) : kses :=
  mkkses (pk s) (sentkexinit s) (recvkexinit s) (them_firstfollows s) (sentnewkeys s) (recvnewkeys s) (donefirstkex s) (donesecondkex s) (recvfirstnewkeys s) (our_first_follows_matches s) (strict_kex s) (lastkextime s) (needrekey s) (requirenext s) (ignorenext s) (lastpacket s) v (algo_kex s) (session_id s) (dh_K s) (dh_K_bytes s) (hash s) (kexhashbuf s) (transkexinit s) (compress_algos_c2s s) (compress_algos_s2c s) (sigalgs s) (allow_ext_info s) (keepalive_recv s).
Definition put_algo_kex (v : option dropbear_kex) (s : kses) : kses :=
  mkkses (pk s) (sentkexinit s) (recvkexinit s) (them_firstfollows s) (sentnewkeys s) (recvnewkeys s) (donefirstkex s) (donesecondkex s) (recvfirstnewkeys s) (our_first_follows_matches s) (strict_kex s) (lastkextime s) (needrekey s) (requirenext s) (ignorenext s) (lastpacket s) (newkeys s) v (session_id s) (dh_K s) (dh_K_bytes s) (hash s) (kexhashbuf s) (transkexinit s) (compress_algos_c2s s) (compress_algos_s2c s) (sigalgs s) (allow_ext_info s) (keepalive_recv s).
Definition put_session_id (v : option bytes) (s : kses) : kses :=
  mkkses (pk s) (sentkexinit s) (recvkexinit s) (them_firstfollows s) (sentnewkeys s) (recvnewkeys s) (donefirstkex s) (donesecondkex s) (recvfirstnewkeys s) (our_first_follows_matches s) (strict_kex s) (lastkextime s) (needrekey s) (requirenext s) (ignorenext s) (lastpacket s) (newkeys s) (algo_kex s) v (dh_K s) (dh_K_bytes s) (hash s) (kexhashbuf s) (transkexinit s) (compress_algos_c2s s) (compress_algos_s2c s) (sigalgs s) (allow_ext_info s) (keepalive_recv s).
Definition put_dh_K (v : option Z) (s : kses) : kses :=
  mkkses (pk s) (sentkexinit s) (recvkexinit s) (them_firstfollows s) (sentnewkeys s) (recvnewkeys s) (donefirstkex s) (donesecondkex s) (recvfirstnewkeys s) (our_first_follows_matches s) (strict_kex s) (lastkextime s) (needrekey s) (requirenext s) (ignorenext s) (lastpacket s) (newkeys s) (algo_kex s) (session_id s) v (dh_K_bytes s) (hash s) (kexhashbuf s) (transkexinit s) (compress_algos_c2s s) (compress_algos_s2c s) (sigalgs s) (allow_ext_info s) (keepalive_recv s).
Definition put_dh_K_bytes (v : option bytes) (s : kses) : kses :=
  mkkses (pk s) (sentkexinit s) (recvkexinit s) (them_firstfollows s) (sentnewkeys s) (recvnewkeys s) (donefirstkex s) (donesecondkex s) (recvfirstnewkeys s) (our_first_follows_matches s) (strict_kex s) (lastkextime s) (needrekey s) (requirenext s) (ignorenext s) (lastpacket s) (newkeys s) (algo_kex s) (session_id s) (dh_K s) v (hash s) (kexhashbuf s) (transkexinit s) (compress_algos_c2s s) (compress_algos_s2c s) (sigalgs s) (allow_ext_info s) (keepalive_recv s).
Definition put_hash (v : option bytes) (s : kses) : kses :=
  mkkses (pk s) (sentkexinit s) (recvkexinit s) (them_firstfollows s) (sentnewkeys s) (recvnewkeys s) (donefirstkex s) (donesecondkex s) (recvfirstnewkeys s) (our_first_follows_matches s) (strict_kex s) (lastkextime s) (needrekey s) (requirenext s) (ignorenext s) (lastpacket s) (newkeys s) (algo_kex s) (session_id s) (dh_K s) (dh_K_bytes s) v (kexhashbuf s) (transkexinit s) (compress_algos_c2s s) (compress_algos_s2c s) (sigalgs s) (allow_ext_info s) (keepalive_recv s).
Definition put_kexhashbuf (v : option buffer) (s : kses) : kses :=
  mkkses (pk s) (sentkexinit s) (recvkexinit s) (them_firstfollows s) (sentnewkeys s) (recvnewkeys s) (donefirstkex s) (donesecondkex s) (recvfirstnewkeys s) (our_first_follows_matches s) (strict_kex s) (lastkextime s) (needrekey s) (requirenext s) (ignorenext s) (lastpacket s) (newkeys s) (algo_kex s) (session_id s) (dh_K s) (dh_K_bytes s) (hash s) v (transkexinit s) (compress_algos_c2s s) (compress_algos_s2c s) (sigalgs s) (allow_ext_info s) (keepalive_recv s).
Definition put_transkexinit (v : option buffer) (s : kses) : kses :=
  mkkses (pk s) (sentkexinit s) (recvkexinit s) (them_firstfollows s) (sentnewkeys s) (recvnewkeys s) (donefirstkex s) (donesecondkex s) (recvfirstnewkeys s) (our_first_follows_matches s) (strict_kex s) (lastkextime s) (needrekey s) (requirenext s) (ignorenext s) (lastpacket s) (newkeys s) (algo_kex s) (session_id s) (dh_K s) (dh_K_bytes s) (hash s) (kexhashbuf s) v (compress_algos_c2s s) (compress_algos_s2c s) (sigalgs s) (allow_ext_info s) (keepalive_recv s).
Definition put_compress_algos_c2s (v : list (algo_type unit unit)) (s : kses) : kses :=
  mkkses (pk s) (sentkexinit s) (recvkexinit s) (them_firstfollows s) (sentnewkeys s) (recvnewkeys s) (donefirstkex s) (donesecondkex s) (recvfirstnewkeys s) (our_first_follows_matches s) (strict_kex s) (lastkextime s) (needrekey s) (requirenext s) (ignorenext s) (lastpacket s) (newkeys s) (algo_kex s) (session_id s) (dh_K s) (dh_K_bytes s) (hash s) (kexhashbuf s) (transkexinit s) v (compress_algos_s2c s) (sigalgs s) (allow_ext_info s) (keepalive_recv s).
Definition put_compress_algos_s2c (v : list (algo_type unit unit)) (s : kses) : kses :=
  mkkses (pk s) (sentkexinit s) (recvkexinit s) (them_firstfollows s) (sentnewkeys s) (recvnewkeys s) (donefirstkex s) (donesecondkex s) (recvfirstnewkeys s) (our_first_follows_matches s) (strict_kex s) (lastkextime s) (needrekey s) (requirenext s) (ignorenext s) (lastpacket s) (newkeys s) (algo_kex s) (session_id s) (dh_K s) (dh_K_bytes s) (hash s) (kexhashbuf s) (transkexinit s) (compress_algos_c2s s) v (sigalgs s) (allow_ext_info s) (keepalive_recv s).
Definition put_sigalgs (v : list (algo_type unit unit)) (s : kses) : kses :=
  mkkses (pk s) (sentkexinit s) (recvkexinit s) (them_firstfollows s) (sentnewkeys s) (recvnewkeys s) (donefirstkex s) (donesecondkex s) (recvfirstnewkeys s) (our_first_follows_matches s) (strict_kex s) (lastkextime s) (needrekey s) (requirenext s) (ignorenext s) (lastpacket s) (newkeys s) (algo_kex s) (session_id s) (dh_K s) (dh_K_bytes s) (hash s) (kexhashbuf s) (transkexinit s) (compress_algos_c2s s) (compress_algos_s2c s) v (allow_ext_info s) (keepalive_recv s).
Definition put_allow_ext_info (v : bool) (s : kses) : kses :=
  mkkses (pk s) (sentkexinit s) (recvkexinit s) (them_firstfollows s) (sentnewkeys s) (recvnewkeys s) (donefirstkex s) (donesecondkex s) (recvfirstnewkeys s) (our_first_follows_matches s) (strict_kex s) (lastkextime s) (needrekey s) (requirenext s) (ignorenext s) (lastpacket s) (newkeys s) (algo_kex s) (session_id s) (dh_K s) (dh_K_bytes s) (hash s) (kexhashbuf s) (transkexinit s) (compress_algos_c2s s) (compress_algos_s2c s) (sigalgs s) v (keepalive_recv s).
Definition put_keepalive_recv (v : Z) (s : kses) : kses :=
  mkkses (pk s) (sentkexinit s) (recvkexinit s) (them_firstfollows s) (sentnewkeys s) (recvnewkeys s) (donefirstkex s) (donesecondkex s) (recvfirstnewkeys s) (our_first_follows_matches s) (strict_kex s) (lastkextime s) (needrekey s) (requirenext s) (ignorenext s) (lastpacket s) (newkeys s) (algo_kex s) (session_id s) (dh_K s) (dh_K_bytes s) (hash s) (kexhashbuf s) (transkexinit s) (compress_algos_c2s s) (compress_algos_s2c s) (sigalgs s) (allow_ext_info s) v.

(** What the exchange takes from elsewhere: the hash functions, the registered ciphers and
    hashes, zlib ([None]: not [Z_OK]; [zend] is whether closing a stream gives
    [Z_STREAM_ERROR]) and the zeroes of freshly allocated memory. *)
Class KexLib := {
  hash_init : HD -> HS;
  hash_process : HD -> HS -> bytes -> HS;
  hash_done : HD -> HS -> bytes;
  hash_size : HD -> Z;
  find_cipher : bytes -> Z;
  find_hash : HD -> Z;
  inflateInit : option ZS;
  deflateInit2 : option ZS;
  zend : ZS -> bool;
  zs_null : ZS;
  zs_is_null : ZS -> bool;
  cs_null : CS;
}.

(** The build and the host: tables, identification strings, host keys, random numbers, and
    the exchanges that are not plain Diffie-Hellman ([cf_comb]: our public value as a string
    field, what goes to the hash after the host key, and the secret). *)
Record config := mkconfig {
  cf_sshkex : list (algo_type dropbear_kex unit);
  cf_sshciphers : list (algo_type dropbear_cipher dropbear_cipher_mode);
  cf_sshhashes : list (algo_type dropbear_hash unit);
  cf_local_ident : bytes;
  cf_remoteident : bytes;
  cf_signkey_type : Z -> Z;
  cf_pub_key : Z -> bytes;
  cf_sign : Z -> bytes -> bytes;
  cf_random_mpint : Z -> Z;
  cf_comb : dropbear_kex -> bytes -> option (bytes * bytes * (Z + bytes));
}.

Context {K : KexLib} (cfg : config).

Definition zero_dir : kdir := mkkdir None None None 0 [] DROPBEAR_COMP_NONE cs_null zs_null false.

Definition zero_keys : key_context := mkkeys zero_dir zero_dir None 0 0.

(** The names of the pseudo-algorithms. *)
Definition KEXGUESS2_ALGO_NAME : bytes := str "kexguess2@matt.ucc.asn.au".
Definition SSH_EXT_INFO_C : bytes := str "ext-info-c".
Definition SSH_STRICT_KEX_C : bytes := str "kex-strict-c-v00@openssh.com".
Definition SSH_SERVER_SIG_ALGS : bytes := str "server-sig-algs".

(** ** Access to the packet layer *)

Definition wp (f : buffer -> outcome buffer) (s : kses) : outcome kses :=
  let* b := f (writepayload (pk s)) in Ok (put_pk (set_writepayload b (pk s)) s).

Definition send (now : Z) (s : kses) : outcome kses :=
  let* p := encrypt_packet now (pk s) in Ok (put_pk p s).

Definition the {A} (o : option A) : outcome A := match o with Some a => Ok a | None => Undef end.

(** ** KEXINIT *)

Definition put_cookie (b : buffer) (rng : nat) : outcome buffer :=
  let* p := buf_getwriteptr b 16 in
  let* b := buf_overwrite b p (map (fun i => u8 (genrandom (rng + i))) (seq 0 16)) in
  buf_incrwritepos b 16.

Definition send_msg_kexinit (now : Z) (s : kses) : outcome kses :=
  let* s := wp (fun b => buf_putbyte b SSH_MSG_KEXINIT) s in
  let* s := wp (fun b => put_cookie b (rng_used (pk s))) s in
  let s := put_pk (set_rng_used (rng_used (pk s) + 16) (pk s)) s in
  let* s := wp (fun b => buf_put_algolist b (cf_sshkex cfg)) s in
  let* s := wp (fun b => buf_put_algolist b (sigalgs s)) s in
  let* s := wp (fun b => buf_put_algolist b (cf_sshciphers cfg)) s in
  let* s := wp (fun b => buf_put_algolist b (cf_sshciphers cfg)) s in
  let* s := wp (fun b => buf_put_algolist b (cf_sshhashes cfg)) s in
  let* s := wp (fun b => buf_put_algolist b (cf_sshhashes cfg)) s in
  let* s := wp (fun b => buf_put_algolist b (compress_algos_c2s s)) s in
  let* s := wp (fun b => buf_put_algolist b (compress_algos_s2c s)) s in
  let* s := wp (fun b => buf_putstring b [] 0) s in
  let* s := wp (fun b => buf_putstring b [] 0) s in
  let* s := wp (fun b => buf_putbyte b 0) s in
  let* s := wp (fun b => buf_putint b 0) s in
  let* copy := buf_newcopy (writepayload (pk s)) in
  let s := put_transkexinit (Some copy) s in
  let* s := send now s in
  let s := put_pk (set_dataallowed false (pk s)) s in
  let s := put_sentkexinit true s in
  Ok (put_newkeys (Some zero_keys) s).

Definition kexinitialise (now : Z) (s : kses) : kses :=
  let s := put_recvkexinit false (put_sentkexinit false s) in
  let s := put_sentnewkeys false (put_recvnewkeys false s) in
  let s := put_them_firstfollows false s in
  let s := put_pk (set_datarecv 0 (set_datatrans 0 (pk s))) s in
  let s := put_our_first_follows_matches false s in
  put_lastkextime now s.

Definition kex_setup_compress (compression : bool) (ssh_nocompress ssh_compress : list (algo_type unit unit)) (s : kses) : kses :=
  put_compress_algos_s2c (if compression then ssh_compress else ssh_nocompress) (put_compress_algos_c2s ssh_nocompress s).

Definition kexfirstinitialise (compression : bool) (ssh_nocompress ssh_compress : list (algo_type unit unit)) (now : Z) (s : kses) : kses :=
  kexinitialise now (kex_setup_compress compression ssh_nocompress ssh_compress s).

(** ** The peer's KEXINIT *)

Definition comp_of (val : Z) : comp_algo :=
  if val =? 1 then DROPBEAR_COMP_ZLIB else if val =? 2 then DROPBEAR_COMP_ZLIB_DELAY else DROPBEAR_COMP_NONE.

(** The received payload, with the operation [f] on it. *)
Definition rp {A} (f : buffer -> outcome (A * buffer)) (s : kses) : outcome (A * kses) :=
  let* b := the (payload (pk s)) in
  let* (a, b) := f b in
  Ok (a, put_pk (set_payload (Some b) (pk s)) s).

Definition rp_ (f : buffer -> outcome buffer) (s : kses) : outcome kses :=
  let* b := the (payload (pk s)) in
  let* b := f b in
  Ok (put_pk (set_payload (Some b) (pk s)) s).

(** [buf_match_algo] on the payload. *)
Definition match_algo {D M} (localalgos : list (algo_type D M)) (kexguess2 : bool) (s : kses)
    : outcome (option (algo_type D M) * bool * kses) :=
  let* (r, s) := rp (fun b => let* (a, g, b) := buf_match_algo true b localalgos kexguess2 in Ok (a, g, b)) s in
  let '(a, g) := r in Ok (a, g, s).

Definition has_algo (name : bytes) (s : kses) : outcome (bool * kses) := rp (fun b => buf_has_algo b name) s.

(** A list that has to match: [erralgo] names it in the error. *)
Definition need {A} (a : option A) (erralgo : string) : outcome A :=
  match a with Some a => Ok a | None => Exit erralgo end.

(** The cipher, its mode and, unless the mode makes its own, the MAC of one direction. *)
Definition match_mac (cipher : algo_type dropbear_cipher dropbear_cipher_mode) (hash_algo : option (algo_type dropbear_hash unit))
    (erralgo : string) : outcome (option (algo_type dropbear_hash unit)) :=
  let* m := the (al_mode cipher) in
  if aead_crypt m then Ok None else let* h := need hash_algo erralgo in Ok (Some h).

Definition set_dir (cipher : algo_type dropbear_cipher dropbear_cipher_mode) (hash_algo : option (algo_type dropbear_hash unit))
    (comp : algo_type unit unit) (d : kdir) : outcome kdir :=
  let* m := the (al_mode cipher) in
  let mac := match hash_algo with None => aead_mac m | Some h => al_data h end in
  Ok (put_kd_comp (comp_of (al_val comp)) (put_kd_mac mac (put_kd_mode (Some m) (put_kd_crypt (al_data cipher) d)))).

(** The flags a list of key exchange names can set. *)
Definition read_kex_flags (s : kses) : outcome (bool * kses) :=
  let* (kexguess2, s) := has_algo KEXGUESS2_ALGO_NAME s in
  if donefirstkex s then Ok (kexguess2, s)
  else
    let* (ext, s) := has_algo SSH_EXT_INFO_C s in
    let s := if ext then put_allow_ext_info true s else s in
    let* (strict, s) := has_algo SSH_STRICT_KEX_C s in
    Ok (kexguess2, if strict then put_strict_kex true s else s).

(** The key exchange and the host key, and whether both guesses are good. *)
Definition read_kex_hostkey (kexguess2 : bool) (s : kses) : outcome (dropbear_kex * Z * bool * kses) :=
  let* (algo, good1, s) := match_algo (cf_sshkex cfg) kexguess2 s in
  let* algo := need algo "No matching algo kex" in
  let* kx := need (al_data algo) "No matching algo kex" in
  let* (algo, good2, s) := match_algo (sigalgs s) kexguess2 s in
  let* sig := need algo "No matching algo hostkey" in
  Ok (kx, al_val sig, good1 && good2, s).

(** The ciphers, the MACs and the compression, as the two directions of the new keys. *)
Definition read_kex_dirs (s : kses) : outcome (kdir * kdir * kses) :=
  let* (a, _, s) := match_algo (cf_sshciphers cfg) false s in
  let* c2s_cipher := need a "No matching algo enc c->s" in
  let* (a, _, s) := match_algo (cf_sshciphers cfg) false s in
  let* s2c_cipher := need a "No matching algo enc s->c" in
  let* (a, _, s) := match_algo (cf_sshhashes cfg) false s in
  let* c2s_hash := match_mac c2s_cipher a "No matching algo mac c->s" in
  let* (a, _, s) := match_algo (cf_sshhashes cfg) false s in
  let* s2c_hash := match_mac s2c_cipher a "No matching algo mac s->c" in
  let* (a, _, s) := match_algo (compress_algos_c2s s) false s in
  let* c2s_comp := need a "No matching algo comp c->s" in
  let* (a, _, s) := match_algo (compress_algos_s2c s) false s in
  let* s2c_comp := need a "No matching algo comp s->c" in
  let* r := set_dir c2s_cipher c2s_hash c2s_comp zero_dir in
  let* t := set_dir s2c_cipher s2c_hash s2c_comp zero_dir in
  Ok (r, t, s).

Definition read_kex_algos (s : kses) : outcome kses :=
  let* s := rp_ (fun b => buf_incrpos b 16) s in
  let* _ := the (newkeys s) in
  let* (kexguess2, s) := read_kex_flags s in
  let* (kx, sig, allgood, s) := read_kex_hostkey kexguess2 s in
  let* (r, t, s) := read_kex_dirs s in
  let* s := rp_ buf_eatstring s in
  let* s := rp_ buf_eatstring s in
  let* (follows, s) := rp buf_getbool s in
  let s := if follows =? 0 then s
           else let s := put_them_firstfollows true s in if allgood then s else put_ignorenext true s in
  let* (_, s) := rp buf_getint s in
  Ok (put_newkeys (Some (mkkeys r t (Some kx) (cf_signkey_type cfg sig) sig)) s).

Definition recv_msg_kexinit (now : Z) (s : kses) : outcome kses :=
  let* s := if sentkexinit s then Ok s else send_msg_kexinit now s in
  let* _ := exit_if (recvkexinit s) "Unexpected KEXINIT" in
  let* tk := the (transkexinit s) in
  let* pl := the (payload (pk s)) in
  let kexhashbuf_len := u32 (zlen (cf_local_ident cfg) + zlen (cf_remoteident cfg) + buf_len tk + buf_len pl + KEXHASHBUF_MAX_INTS) in
  let* kb := buf_new kexhashbuf_len in
  let* s := read_kex_algos s in
  let* kb := buf_putstring kb (cf_remoteident cfg) (zlen (cf_remoteident cfg)) in
  let* kb := buf_putstring kb (cf_local_ident cfg) (zlen (cf_local_ident cfg)) in
  let* s := rp_ (fun b => buf_setpos b (payload_beginning (pk s))) s in
  let* pl := the (payload (pk s)) in
  let n := u32 (buf_len pl - buf_pos pl) in
  let* i_c := buf_read pl n in
  let* kb := buf_putstring kb i_c n in
  let* i_s := mem_read (buf_data tk) 0 (buf_len tk) in
  let* kb := buf_putstring kb i_s (buf_len tk) in
  let s := put_kexhashbuf (Some kb) s in
  let s := put_requirenext SSH_MSG_KEXDH_INIT s in
  let s := put_transkexinit None s in
  let s := put_recvkexinit true s in
  let* _ := exit_if (strict_kex s && negb (donefirstkex s) && negb (recvseq (pk s) =? 1)) "First packet wasn't kexinit" in
  Ok s.

(** ** New keys *)

(** The loop of [hashkeys] once [out] holds the first bytes of the key. *)
Fixpoint hashkeys_loop (fuel : nat) (hd : HD) (hs : HS) (out : bytes) (outlen : Z) : bytes :=
  match fuel with
  | O => out
  | S fuel =>
      let offset := zlen out in
      if offset <? outlen then
        let tmpout := hash_done hd (hash_process hd hs out) in
        hashkeys_loop fuel hd hs (out ++ take (Z.to_nat (Z.min (outlen - offset) (hash_size hd))) tmpout) outlen
      else out
  end.

Definition hashkeys (hd : HD) (session_id : bytes) (outlen : Z) (hs : HS) (X : Z) : bytes :=
  let hs2 := hash_process hd (hash_process hd hs [X]) session_id in
  let tmpout := hash_done hd hs2 in
  hashkeys_loop (Z.to_nat outlen) hd hs (take (Z.to_nat (Z.min (hash_size hd) outlen)) tmpout) outlen.

Definition hash_process_mp (hd : HD) (hs : HS) (mp : Z) : outcome HS :=
  let* b := buf_new (512 + 20) in
  let* b := buf_putmpint b mp in
  let* bs := mem_read (buf_data b) 0 (buf_len b) in
  Ok (hash_process hd hs bs).

(** The cipher of one direction. *)
Definition start_dir (IV key : bytes) (d : kdir) : outcome kdir :=
  let* c := the (kd_crypt d) in
  match cipherdesc c with
  | None => Ok d
  | Some name =>
      let* idx := match name with
                  | None => Ok (-1)
                  | Some n => let i := find_cipher n in let* _ := exit_if (i <? 0) "Crypto error" in Ok i
                  end in
      let* m := the (kd_mode d) in
      match start m idx IV key (c_keysize c) with
      | None => Exit "Crypto error"
      | Some st => Ok (put_kd_state st d)
      end
  end.

(** The MAC key of one direction. *)
Definition mac_dir (hd : HD) (session_id : bytes) (hs : HS) (letter : Z) (d : kdir) : outcome kdir :=
  let* h := the (kd_mac d) in
  match hash_desc h with
  | None => Ok d
  | Some mh =>
      let d := put_kd_mackey (hashkeys hd session_id (h_keysize h) hs letter) d in
      Ok (put_kd_hash_index (find_hash mh) d)
  end.

Definition gen_new_keys (s : kses) : outcome kses :=
  let* nk := the (newkeys s) in
  let* kx := the (nk_kex nk) in
  let hd := kex_hash kx in
  let hs := hash_init hd in
  let* hs := match dh_K s with Some k => hash_process_mp hd hs k | None => Ok hs end in
  let s := put_dh_K None s in
  let hs := match dh_K_bytes s with Some k => hash_process hd hs k | None => hs end in
  let s := put_dh_K_bytes None s in
  let* h := the (hash s) in
  let hs := hash_process hd hs h in
  let s := put_hash None s in
  let* sid := the (session_id s) in
  let C2S_IV := hashkeys hd sid MAX_IV_LEN hs 65 in
  let S2C_IV := hashkeys hd sid MAX_IV_LEN hs 66 in
  let C2S_key := hashkeys hd sid MAX_KEY_LEN hs 67 in
  let S2C_key := hashkeys hd sid MAX_KEY_LEN hs 68 in
  let* r := start_dir C2S_IV C2S_key (nk_recv nk) in
  let* t := start_dir S2C_IV S2C_key (nk_trans nk) in
  let* t := mac_dir hd sid hs 70 t in
  let* r := mac_dir hd sid hs 69 r in
  let nk := put_nk_trans (put_kd_valid true t) nk in
  let nk := put_nk_recv (put_kd_valid true r) nk in
  Ok (put_newkeys (Some nk) s).

(** New zlib streams; the old one is closed. *)
Definition gen_new_zstream (init : option ZS) (old : ZS) (d : kdir) : outcome kdir :=
  let* d :=
    match kd_comp d with
    | DROPBEAR_COMP_NONE => Ok (put_kd_zstream zs_null d)
    | _ => match init with None => Exit "zlib error" | Some z => Ok (put_kd_zstream z d) end
    end in
  let* _ := exit_if (negb (zs_is_null old) && zend old) "Crypto error" in
  Ok d.

(** The direction as the packet layer uses it. *)
Definition keydir_of (d : kdir) : outcome (keydir CS ZS) :=
  let* c := the (kd_crypt d) in
  let* m := the (kd_mode d) in
  let* h := the (kd_mac d) in
  Ok (mkkeydir (c_blocksize c) (h_hashsize h) (kd_hash_index d) (kd_mackey d) (aead_crypt m) (kd_comp d) (kd_state d) (kd_zstream d)).

Definition switch_recv (s : kses) (nk : key_context) : outcome (kses * key_context) :=
  if recvnewkeys s && kd_valid (nk_recv nk) then
    let* d := gen_new_zstream inflateInit (zstream (recv (pk s))) (nk_recv nk) in
    let* k := keydir_of d in
    Ok (put_pk (set_recv k (pk s)) s, put_nk_recv zero_dir nk)
  else Ok (s, nk).

Definition switch_trans (s : kses) (nk : key_context) : outcome (kses * key_context) :=
  if sentnewkeys s && kd_valid (nk_trans nk) then
    let* d := gen_new_zstream deflateInit2 (zstream (trans (pk s))) (nk_trans nk) in
    let* k := keydir_of d in
    Ok (put_pk (set_trans k (pk s)) s, put_nk_trans zero_dir nk)
  else Ok (s, nk).

Definition switch_keys (now : Z) (s : kses) : outcome kses :=
  let* _ := exit_if (negb (sentkexinit s && recvkexinit s)) "Unexpected newkeys message" in
  if negb (recvnewkeys s || sentnewkeys s) then Ok s
  else
    let* nk := the (newkeys s) in
    let* (s, nk) := switch_recv s nk in
    let* (s, nk) := switch_trans s nk in
    let s := put_newkeys (Some nk) s in
    if sentnewkeys s && recvnewkeys s then
      Ok (kexinitialise now (put_newkeys None (put_algo_kex (nk_kex nk) s)))
    else Ok s.

Definition send_msg_newkeys (now : Z) (s : kses) : outcome kses :=
  let* s := wp (fun b => buf_putbyte b SSH_MSG_NEWKEYS) s in
  let* s := send now s in
  let s := put_sentnewkeys true s in
  let s := if donefirstkex s then put_donesecondkex true s else s in
  let s := put_donefirstkex true s in
  let s := put_pk (set_dataallowed true (pk s)) s in
  let* s := gen_new_keys s in
  let* s := switch_keys now s in
  Ok (if strict_kex s then put_pk (set_transseq 0 (pk s)) s else s).

Definition recv_msg_newkeys (now : Z) (s : kses) : outcome kses :=
  let s := put_recvnewkeys true s in
  let* s := switch_keys now s in
  let s := if strict_kex s then put_pk (set_recvseq 0 (pk s)) s else s in
  Ok (put_recvfirstnewkeys true s).

(** ** The key exchange itself *)

Definition finish_kexhashbuf (s : kses) : outcome kses :=
  let* nk := the (newkeys s) in
  let* kx := the (nk_kex nk) in
  let hd := kex_hash kx in
  let* kb := the (kexhashbuf s) in
  let* kb := buf_setpos kb 0 in
  let* bs := buf_read kb (buf_len kb) in
  let h := hash_done hd (hash_process hd (hash_init hd) bs) in
  let s := put_kexhashbuf None (put_hash (Some h) s) in
  Ok (match session_id s with None => put_session_id (Some h) s | Some _ => s end).

Definition mp_exptmod (b e m : Z) : Z := Zpow_mod b e m.

Definition DH_G_VAL : Z := 2.

(** [gen_kexdh_param]: the private and the public value. *)
Definition gen_kexdh_param (p : Z) : Z * Z :=
  let dh_q := (p - 1) / 2 in
  let priv := cf_random_mpint cfg dh_q in
  (priv, mp_exptmod DH_G_VAL priv p).

Definition hb (f : buffer -> outcome buffer) (s : kses) : outcome kses :=
  let* kb := the (kexhashbuf s) in
  let* kb := f kb in
  Ok (put_kexhashbuf (Some kb) s).

(** [kexdh_comb_key] at the server: the client's [e], our [f]. *)
Definition kexdh_comb_key (p priv pub dh_pub_them : Z) (s : kses) : outcome kses :=
  let* _ := exit_if (negb (dh_pub_them <? p - 1) || negb (1 <? dh_pub_them)) "Diffie-Hellman error" in
  let dhK := mp_exptmod dh_pub_them priv p in
  let s := put_dh_K (Some dhK) s in
  let* nk := the (newkeys s) in
  let blob := cf_pub_key cfg (nk_hostkey nk) in
  let* s := hb (fun b => buf_putbytes b blob (zlen blob)) s in
  let* s := hb (fun b => buf_putmpint b dh_pub_them) s in
  let* s := hb (fun b => buf_putmpint b pub) s in
  let* s := hb (fun b => buf_putmpint b dhK) s in
  finish_kexhashbuf s.

(** The exchanges that are not plain Diffie-Hellman. *)
Definition other_comb_key (kx : dropbear_kex) (q_c : bytes) (s : kses) : outcome (bytes * kses) :=
  match cf_comb cfg kx q_c with
  | None => Exit "ECC error"
  | Some (field, hashed, secret) =>
      let s := match secret with inl k => put_dh_K (Some k) s | inr k => put_dh_K_bytes (Some k) s end in
      let* nk := the (newkeys s) in
      let blob := cf_pub_key cfg (nk_hostkey nk) in
      let* s := hb (fun b => buf_putbytes b blob (zlen blob)) s in
      let* s := hb (fun b => buf_putbytes b hashed (zlen hashed)) s in
      let* s := finish_kexhashbuf s in
      Ok (field, s)
  end.

Definition send_msg_kexdh_reply (now : Z) (dh_e : Z) (q_c : bytes) (s : kses) : outcome kses :=
  let* s := wp (fun b => buf_putbyte b SSH_MSG_KEXDH_REPLY) s in
  let* nk := the (newkeys s) in
  let blob := cf_pub_key cfg (nk_hostkey nk) in
  let* s := wp (fun b => buf_putbytes b blob (zlen blob)) s in
  let* kx := the (nk_kex nk) in
  let* s :=
    match kex_mode kx with
    | DROPBEAR_KEX_NORMAL_DH =>
        let '(priv, pub) := gen_kexdh_param (dh_p kx) in
        let* s := kexdh_comb_key (dh_p kx) priv pub dh_e s in
        wp (fun b => buf_putmpint b pub) s
    | _ =>
        let* (field, s) := other_comb_key kx q_c s in
        wp (fun b => buf_putstring b field (zlen field)) s
    end in
  let* h := the (hash s) in
  let sig := cf_sign cfg (nk_signature nk) h in
  let* s := wp (fun b => buf_putbytes b sig (zlen sig)) s in
  send now s.

Definition send_msg_ext_info (now : Z) (s : kses) : outcome kses :=
  let* s := wp (fun b => buf_putbyte b SSH_MSG_EXT_INFO) s in
  let* s := wp (fun b => buf_putint b 1) s in
  let* s := wp (fun b => buf_putstring b SSH_SERVER_SIG_ALGS (zlen SSH_SERVER_SIG_ALGS)) s in
  let* s := wp (fun b => buf_put_algolist_all b (sigalgs s) true) s in
  send now s.

Definition disable_sig_except (allow_type : Z) (l : list (algo_type unit unit)) : list (algo_type unit unit) :=
  map (fun a => if al_val a =? allow_type then a else mkalgo (al_name a) (al_val a) (al_data a) false (al_mode a)) l.

Definition recv_msg_kexdh_init (now : Z) (s : kses) : outcome kses :=
  let* _ := exit_if (negb (recvkexinit s)) "Premature kexdh_init message received" in
  let* nk := the (newkeys s) in
  let* kx := the (nk_kex nk) in
  let* (dh_e, q_c, s) :=
    match kex_mode kx with
    | DROPBEAR_KEX_NORMAL_DH =>
        let* (mp, s) := rp buf_getmpint s in
        let* e := need mp "Bad kex value" in
        Ok (e, [], s)
    | _ =>
        let* (q, s) := rp buf_getstringbuf s in
        let* bs := mem_read (buf_data q) 0 (buf_len q) in
        Ok (0, bs, s)
    end in
  let* pl := the (payload (pk s)) in
  let* _ := exit_if (negb (buf_pos pl =? buf_len pl)) "Bad kex value" in
  let* s := send_msg_kexdh_reply now dh_e q_c s in
  let* s := send_msg_newkeys now s in
  let* s := if negb (donesecondkex s) && allow_ext_info s then send_msg_ext_info now s else Ok s in
  let* s :=
    if negb (donesecondkex s) then
      let* nk := the (newkeys s) in Ok (put_sigalgs (disable_sig_except (nk_signature nk) (sigalgs s)) s)
    else Ok s in
  Ok (put_requirenext SSH_MSG_NEWKEYS s).

(** ** Dispatch *)

Definition recv_unimplemented (now : Z) (s : kses) : outcome kses :=
  let* s := wp (fun b => buf_putbyte b SSH_MSG_UNIMPLEMENTED) s in
  let* s := wp (fun b => buf_putint b (u32 (recvseq (pk s) - 1))) s in
  send now s.

(** The handlers of the other packet types (authentication, channels). *)
Context (handlers : Z -> option (Z -> kses -> outcome kses)).

(** The table of packet types of the server. *)
Definition packettype (type : Z) : option (Z -> kses -> outcome kses) :=
  if type =? SSH_MSG_KEXINIT then Some recv_msg_kexinit
  else if type =? SSH_MSG_KEXDH_INIT then Some recv_msg_kexdh_init
  else if type =? SSH_MSG_NEWKEYS then Some recv_msg_newkeys
  else if type =? 0 then None
  else handlers type.

(** The end of [process_packet]: [out]. *)
Definition packet_out (type : Z) (s : kses) : kses :=
  put_pk (set_payload None (pk s)) (put_lastpacket type s).

(** The packet [type] goes to its handler. *)
Definition dispatch (now type : Z) (s : kses) : outcome kses :=
  let* _ := exit_if (negb (authdone (pk s)) && (MAX_UNAUTH_PACKET_TYPE <? type)) "Received message %d before userauth" in
  match packettype type with
  | Some handler => handler now s
  | None => recv_unimplemented now s
  end.

Definition process_packet (now : Z) (s : kses) : outcome kses :=
  let first_strict_kex := strict_kex s && negb (recvfirstnewkeys s) in
  let* (type, s) := rp buf_getbyte s in
  let s := put_keepalive_recv now s in
  if type =? SSH_MSG_DISCONNECT then Exit "Disconnect received"
  else if negb first_strict_kex && ((type =? SSH_MSG_IGNORE) || (type =? SSH_MSG_DEBUG) || (type =? SSH_MSG_UNIMPLEMENTED))
  then Ok (packet_out type s)
  else
    let s := if (type =? SSH_MSG_GLOBAL_REQUEST) || (type =? SSH_MSG_REQUEST_FAILURE) || (type =? SSH_MSG_CHANNEL_FAILURE) then s
             else put_pk (set_last_packet_time_idle now (pk s)) s in
    if negb (requirenext s =? 0) && negb (requirenext s =? type) then
      if (1 <=? type) && (type <=? 49) && negb (type =? SSH_MSG_SERVICE_REQUEST) && negb (type =? SSH_MSG_SERVICE_ACCEPT)
         && negb (type =? SSH_MSG_KEXINIT) && negb first_strict_kex
      then let* s := recv_unimplemented now s in Ok (packet_out type s)
      else Exit "Unexpected packet type %d, expected %d"
    else if ignorenext s then Ok (packet_out type (put_ignorenext false s))
    else
      let s := if negb (requirenext s =? 0) && (requirenext s =? type) then put_requirenext 0 s else s in
      let* s := dispatch now type s in
      Ok (packet_out type s).
End kex.
