(* ===== verification/KexSafety.v ===== *)
(** * The key exchange is a safe state machine

    Whatever sequence of packets the peer sends, the server's key exchange follows no null
    pointer, stays in its buffers and keeps its states apart: the exchange goes KEXINIT,
    KEXDH_INIT, NEWKEYS, keys are switched only when they have been made, and with strict
    key exchange nothing else gets in between.  The keys themselves are derived as RFC 4253
    section 7.2 says. *)

From S2P Require Import Prelude Bytes Buffer Packet Transport PacketQueues PacketSafety Algo Kex.

(** ** Writers keep the size of their buffer *)

Definition keeps (f : buffer -> outcome buffer) : Prop :=
  forall b, wf b -> opost (fun b' => wf b' /\ buf_size b' = buf_size b) (f b).

Lemma keeps_intro f : (forall b, wf b -> opost wf (f b)) -> (forall b b', f b = Ok b' -> buf_size b' = buf_size b) -> keeps f.
Proof. intros Hw Hs b Hb. eapply opost_mono; [by apply Hw|]. intros b' He Hb'. split; [done|by apply (Hs b b')]. Qed.

Lemma keeps_bind f g : keeps f -> keeps g -> keeps (fun b => let* b := f b in g b).
Proof.
  intros Hf Hg b Hb. eapply opost_bind; [by apply Hf|]. intros b1 _ [Hb1 Hs1].
  eapply opost_mono; [by apply Hg|]. intros b2 _ [Hb2 Hs2]. split; [done|congruence].
Qed.

Lemma keeps_ok : keeps Ok.
Proof. by intros b Hb. Qed.

Lemma buf_putbyte_size b v b' : buf_putbyte b v = Ok b' -> buf_size b' = buf_size b.
Proof.
  intros H. unfold buf_putbyte, buf_incrlen in H. inv_ok. destruct (buf_len b <=? buf_pos b); inv_ok; done.
Qed.

Lemma keeps_putbyte v : is_byte v -> keeps (fun b => buf_putbyte b v).
Proof.
  intros Hv. apply keeps_intro; [intros; by apply buf_putbyte_post|]. intros b b'. apply buf_putbyte_size.
Qed.

Lemma keeps_incrwritepos n : 0 <= n -> keeps (fun b => buf_incrwritepos b n).
Proof.
  intros Hn. apply keeps_intro; [intros; by apply buf_incrwritepos_post|]. intros b b' H. unfold buf_incrwritepos in H. by inv_ok.
Qed.

Lemma keeps_setpos n : 0 <= n -> keeps (fun b => buf_setpos b n).
Proof.
  intros Hn. apply keeps_intro; [intros b Hb; eapply opost_mono; [by apply buf_setpos_post|naive_solver]|].
  intros b b' H. unfold buf_setpos in H. by inv_ok.
Qed.

Lemma buf_write_size b n x b' : buf_write b n x = Ok b' -> buf_size b' = buf_size b.
Proof. intros H. unfold buf_write in H. by inv_ok. Qed.

Lemma buf_incrwritepos_size b n b' : buf_incrwritepos b n = Ok b' -> buf_size b' = buf_size b.
Proof. intros H. unfold buf_incrwritepos in H. by inv_ok. Qed.

Lemma buf_putbytes_size b x n b' : buf_putbytes b x n = Ok b' -> buf_size b' = buf_size b.
Proof.
  intros H. unfold buf_putbytes in H. apply obind_Ok in H as (b1 & H1 & H2).
  apply buf_write_size in H1. apply buf_incrwritepos_size in H2. congruence.
Qed.

Lemma keeps_putbytes x : bytes_ok x -> keeps (fun b => buf_putbytes b x (zlen x)).
Proof. intros Hx. apply keeps_intro; [intros; by apply buf_putbytes_post|]. intros b b'. apply buf_putbytes_size. Qed.

Lemma keeps_putint v : keeps (fun b => buf_putint b v).
Proof. apply (keeps_putbytes (store32h v)), store32h_ok. Qed.

Lemma keeps_putstring x : bytes_ok x -> keeps (fun b => buf_putstring b x (zlen x)).
Proof. intros Hx. apply (keeps_bind (fun b => buf_putint b (zlen x)) (fun b => buf_putbytes b x (zlen x))); [apply keeps_putint|by apply keeps_putbytes]. Qed.

Lemma keeps_putmpint mp : keeps (fun b => buf_putmpint b mp).
Proof.
  apply keeps_intro; [intros; by apply buf_putmpint_post|]. intros b b' H. unfold buf_putmpint in H.
  apply obind_Ok in H as ([] & _ & H). destruct (if mp =? 0 then _ else _) as [len pad].
  apply obind_Ok in H as (b1 & H1 & H). assert (Hs1 : buf_size b1 = buf_size b) by (exact (buf_putbytes_size b (store32h len) 4 b1 H1)).
  destruct (0 <? len); [|injection H as <-; done]. apply obind_Ok in H as (b2 & H2 & H).
  assert (Hs2 : buf_size b2 = buf_size b1).
  { destruct (0 <? pad); [by apply buf_putbyte_size in H2|by injection H2 as <-]. }
  apply obind_Ok in H as (p & _ & H). destruct (mp_to_ubin _ _); [|done]. apply obind_Ok in H as (d & _ & H).
  apply buf_incrwritepos_size in H. cbn in H. congruence.
Qed.

Section names.
Context {D M : Type}.

(** A table of algorithms the code can write and match. *)
Definition table_ok (l : list (algo_type D M)) : Prop := Forall (fun a => bytes_ok (al_name a)) l /\ zlen l <= MAX_PROPOSED_ALGO.

Lemma keeps_put_algos (l : list (algo_type D M)) useall : Forall (fun a => bytes_ok (al_name a)) l -> forall df, keeps (fun b => put_algos b l useall df).
Proof.
  induction 1 as [|a l Ha _ IH]; intros df; cbn [put_algos]; [apply keeps_ok|]. destruct (al_usable a || useall); [|apply IH].
  apply (keeps_bind (fun b => if df then buf_putbyte b COMMA else Ok b)); [destruct df; [by apply keeps_putbyte|apply keeps_ok]|].
  apply (keeps_bind (fun b => buf_putbytes b (al_name a) (zlen (al_name a)))); [by apply keeps_putbytes|apply IH].
Qed.

Lemma keeps_put_algolist_all (l : list (algo_type D M)) useall : table_ok l -> keeps (fun b => buf_put_algolist_all b l useall).
Proof.
  intros [Hl _] b Hb. unfold buf_put_algolist_all. pose proof (wf_pos _ Hb). pose proof (u32_range (0 - buf_pos b - 4)).
  eapply opost_bind; [by apply keeps_putint|]. intros b1 _ [Hb1 Hs1].
  eapply opost_bind; [by apply keeps_put_algos|]. intros b2 _ [Hb2 Hs2].
  eapply opost_bind; [by apply keeps_setpos; [lia|]|]. intros b3 _ [Hb3 Hs3].
  eapply opost_bind; [by apply keeps_putint|]. intros b4 _ [Hb4 Hs4].
  eapply opost_mono; [apply keeps_incrwritepos; [apply u32_range|done]|]. intros b5 _ [Hb5 Hs5]. split; [done|congruence].
Qed.
End names.

(** ** What sending leaves alone *)

(** Everything the receiving side of the packet layer holds. *)
Record same_recv {CS ZS} (s s' : pktses CS ZS) : Prop := {
  sr_readbuf : readbuf s' = readbuf s;
  sr_payload : payload s' = payload s;
  sr_begin : payload_beginning s' = payload_beginning s;
  sr_recv : recv s' = recv s;
  sr_seq : recvseq s' = recvseq s;
  sr_auth : authdone s' = authdone s;
}.

Lemma encrypt_packet_same {CS ZS} {C : Crypto CS ZS} now (s s' : pktses CS ZS) : encrypt_packet now s = Ok s' -> same_recv s s'.
Proof.
  intros H. unfold encrypt_packet in H. apply obind_Ok in H as (b1 & _ & H). apply obind_Ok in H as ([t b2] & _ & H).
  apply obind_Ok in H as (b3 & _ & H). destruct (negb _ && negb _).
  - unfold enqueue_reply_packet in H. apply obind_Ok in H as ([] & _ & H). apply obind_Ok in H as (b4 & _ & H).
    apply obind_Ok in H as (b5 & _ & H). apply obind_Ok in H as (b6 & _ & H). injection H as <-. by split.
  - apply obind_Ok in H as (b4 & _ & H). apply obind_Ok in H as (b5 & _ & H). apply obind_Ok in H as (b6 & _ & H).
    apply obind_Ok in H as ([[b7 b8] k] & _ & H). apply obind_Ok in H as (b9 & _ & H). apply obind_Ok in H as (b10 & _ & H).
    apply obind_Ok in H as ([b11 n] & _ & H). apply obind_Ok in H as ([b12 k'] & _ & H).
    apply obind_Ok in H as (s1 & H1 & H). unfold writebuf_enqueue in H1. apply obind_Ok in H1 as (b13 & _ & H1). injection H1 as <-.
    injection H as <-. by destruct (negb _ && negb _ && negb _).
Qed.

(** ** Readers of the payload *)

Section algos.
Context {D M : Type}.
Implicit Types (l : list (algo_type D M)).

Lemma get_algolist_loop_safe x : forall cur names max, opost (fun _ => True) (get_algolist_loop x cur names max).
Proof.
  induction x as [|c x IH]; intros cur names max; cbn [get_algolist_loop]; [done|]. destruct (c =? 0); [done|].
  destruct (c =? COMMA); [|apply IH]. eapply opost_bind; [apply exit_if_post|]. intros [] _ _. apply IH.
Qed.

Lemma get_algolist_safe x n max : opost (fun _ => True) (get_algolist x n max).
Proof. unfold get_algolist. destruct (max =? 0); [done|]. apply get_algolist_loop_safe. Qed.

Lemma buf_has_algo_safe b name : wf b -> opost (fun '(_, b') => wf b') (buf_has_algo b name).
Proof.
  intros Hb. unfold buf_has_algo. eapply opost_bind; [by apply buf_getstring_post|]. intros [[x n] b1] _ (Hb1 & _).
  eapply opost_bind; [apply get_algolist_safe|]. intros names _ _.
  eapply opost_bind; [apply buf_setpos_post; [done|apply wf_pos, Hb]|]. by intros b2 _ [? _].
Qed.

Lemma buf_match_algo_safe b l kg : wf b -> zlen l <= MAX_PROPOSED_ALGO ->
  opost (fun '(a, _, b') => wf b' /\ match a with Some a => a ∈ l | None => True end) (buf_match_algo true b l kg).
Proof.
  intros Hb Hl. unfold buf_match_algo. eapply opost_bind; [by apply buf_getstring_post|]. intros [[x n] b1] _ (Hb1 & _).
  eapply opost_bind; [apply get_algolist_safe|]. intros names _ _. rewrite (proj2 (Z.leb_le _ _)) by done. cbn [obind].
  destruct (match_client _ _ _) as [[i j]|]; [|done]. cbn. split; [done|].
  destruct (l !! j) eqn:E; [|done]. by eapply list_elem_of_lookup_2.
Qed.
End algos.

(** ** The session *)

Section safety.
Context {CS ZS HD HS : Type} {C : Crypto CS ZS} {S : CryptoSane C} {K : KexLib (CS := CS) (ZS := ZS) (HD := HD) (HS := HS)}.
Context (cfg : config (CS := CS) (HD := HD)).

Abbreviation pktses := (pktses CS ZS).
Abbreviation kses := (kses (CS := CS) (ZS := ZS) (HD := HD)).
Abbreviation kdir := (kdir (CS := CS) (ZS := ZS) (HD := HD)).
Abbreviation key_context := (key_context (CS := CS) (ZS := ZS) (HD := HD)).
Abbreviation dropbear_hash := (dropbear_hash (HD := HD)).

Definition mac_ok (h : dropbear_hash) : Prop := 0 <= h_hashsize h <= MAX_MAC_LEN.

(** The tables and keys of the build. *)
Record cfg_ok : Prop := {
  co_kex : table_ok (cf_sshkex cfg);
  co_ciphers : table_ok (cf_sshciphers cfg);
  co_hashes : table_ok (cf_sshhashes cfg);
  co_cipher : forall a, a ∈ cf_sshciphers cfg -> exists c m, al_data a = Some c /\ al_mode a = Some m /\
    (c_blocksize c = 8 \/ c_blocksize c = 16) /\ (aead_crypt m = true -> exists h, aead_mac m = Some h /\ mac_ok h);
  co_hash : forall a, a ∈ cf_sshhashes cfg -> exists h, al_data a = Some h /\ mac_ok h;
  co_local : bytes_ok (cf_local_ident cfg);
  co_remote : bytes_ok (cf_remoteident cfg);
  co_blob t : bytes_ok (cf_pub_key cfg t);
  co_sign t h : bytes_ok (cf_sign cfg t h);
  co_comb kx q f x sec : cf_comb cfg kx q = Some (f, x, sec) -> bytes_ok f /\ bytes_ok x;
}.
Context (Hcfg : cfg_ok).

(** The packet layer while a packet is processed. *)
Record base (p : pktses) : Prop := {
  ba_ok : pk_ok p;
  ba_readbuf : readbuf p = None;
  ba_payload : exists pl, payload p = Some pl;
  ba_begin : 0 <= payload_beginning p;
}.

Lemma base_payload p : base p -> exists pl, payload p = Some pl /\ wf pl.
Proof. intros [Hok _ [pl Hp] _]. exists pl. split; [done|]. pose proof (pk_payload _ Hok) as H. by rewrite Hp in H. Qed.

Lemma base_same p p' : base p -> pk_ok p' -> same_recv p p' -> base p'.
Proof. intros [_ Hr Hp Hb] Hok [H1 H2 H3 _ _ _]. split; [done|by rewrite H1|by rewrite H2|by rewrite H3]. Qed.

(** Only the packet layer has changed. *)
Definition upd (s s' : kses) : Prop :=
  exists p, s' = put_pk p s /\ base p /\ recvseq p = recvseq (pk s) /\ authdone p = authdone (pk s).

Lemma upd_refl s : base (pk s) -> upd s s.
Proof. intros Hb. exists (pk s). split; [by destruct s|done]. Qed.

Lemma upd_trans s1 s2 s3 : upd s1 s2 -> upd s2 s3 -> upd s1 s3.
Proof. intros (p & -> & _ & H1 & H2) (q & -> & Hq & H3 & H4). exists q. cbn in *. split_and!; try done; congruence. Qed.

(** The same when the receiving side is left alone. *)
Definition upd0 (s s' : kses) : Prop := exists p, s' = put_pk p s /\ pk_ok p /\ same_recv (pk s) p.

Lemma upd0_upd s s' : base (pk s) -> upd0 s s' -> upd s s'.
Proof. intros Hb (p & -> & Hok & Hs). exists p. split; [done|]. split; [by apply (base_same (pk s))|by destruct Hs]. Qed.

Lemma same_recv_trans (p q r : pktses) : same_recv p q -> same_recv q r -> same_recv p r.
Proof. intros [] []. split; congruence. Qed.

Lemma wp_ok0 f s : pk_ok (pk s) -> keeps f -> opost (upd0 s) (wp f s).
Proof.
  intros Hok Hf. unfold wp. eapply opost_bind; [apply Hf, Hok|]. intros b _ [Hwb Hsz]. cbn.
  eexists. split; [done|]. split; [|by split]. destruct Hok. split; cbn; try done. congruence.
Qed.

Lemma send_ok0 now s : pk_ok (pk s) -> opost (upd0 s) (send now s).
Proof.
  intros Hok. unfold send. eapply opost_bind.
  { eapply opost_mono; [apply encrypt_packet_safe, Hok|]. intros p He Hp. apply encrypt_packet_same in He. exact (conj Hp He). }
  intros p _ [Hp Hs]. cbn. by exists p.
Qed.

Lemma wp_ok f s : base (pk s) -> keeps f -> opost (upd s) (wp f s).
Proof. intros Hb Hf. eapply opost_mono; [apply wp_ok0; [apply Hb|done]|]. intros s' _. by apply upd0_upd. Qed.

Lemma send_ok now s : base (pk s) -> opost (upd s) (send now s).
Proof. intros Hb. eapply opost_mono; [apply send_ok0, Hb|]. intros s' _. by apply upd0_upd. Qed.

Lemma rp_ok {A} (P : A -> Prop) (f : buffer -> outcome (A * buffer)) s :
  base (pk s) -> (forall b, wf b -> opost (fun '(a, b') => wf b' /\ P a) (f b)) -> opost (fun '(a, s') => upd s s' /\ P a) (rp f s).
Proof.
  intros Hb Hf. destruct (base_payload _ Hb) as (pl & Hpl & Hw). unfold rp. rewrite Hpl. cbn [the obind].
  eapply opost_bind; [by apply Hf|]. intros [a b] _ [Hwb Ha]. cbn. split; [|done]. eexists. split; [done|]. split; [|done].
  destruct Hb as [[] Hr _ Hbg]. split; cbn; try done; by eexists.
Qed.

Lemma rp__ok f s : base (pk s) -> (forall b, wf b -> opost wf (f b)) -> opost (upd s) (rp_ f s).
Proof.
  intros Hb Hf. destruct (base_payload _ Hb) as (pl & Hpl & Hw). unfold rp_. rewrite Hpl. cbn [the obind].
  eapply opost_bind; [by apply Hf|]. intros b _ Hwb. cbn. eexists. split; [done|]. split; [|done].
  destruct Hb as [[] Hr _ Hbg]. split; cbn; try done; by eexists.
Qed.

Lemma upd_base s s' : upd s s' -> base (pk s').
Proof. by intros (p & -> & ? & _). Qed.

(** [updgo H]: the next operation only changes the sending side, by the lemma [H]. *)
Ltac updgo H :=
  eapply opost_bind; [apply H|];
  let s := fresh "s" in let p := fresh "p" in let Hb := fresh "Hb" in let Hs := fresh "Hs" in
  intros s _ (p & -> & Hb & Hs).

(** ** KEXINIT *)

(** The tables the session holds. *)
Record tables_ok (s : kses) : Prop := {
  tb_sig : table_ok (sigalgs s);
  tb_c2s : table_ok (compress_algos_c2s s);
  tb_s2c : table_ok (compress_algos_s2c s);
}.

Lemma keeps_cookie rng : keeps (fun b => put_cookie b rng).
Proof.
  apply keeps_intro.
  - intros b Hb. unfold put_cookie. pose proof (shape_self b Hb) as Hs.
    eapply opost_bind; [by eapply (shape_getwriteptr _ _ _ _ 16 Hs)|]. intros p _ [-> Hp].
    eapply opost_bind; [eapply (shape_overwrite _ _ _ _ _ _ Hs)|].
    + apply Forall_map, Forall_true. intros. apply u8_range.
    + apply wf_pos, Hb.
    + unfold zlen. rewrite length_map, length_seq. lia.
    + intros b1 _ H1. eapply opost_mono; [by eapply (shape_incrwritepos _ _ _ _ 16 H1)|]. intros b2 _ [_ H2]. apply H2.
  - intros b b' H. unfold put_cookie, buf_overwrite in H. apply obind_Ok in H as (p & _ & H). apply obind_Ok in H as (b1 & H1 & H).
    apply obind_Ok in H1 as (d & _ & H1). injection H1 as <-. by apply buf_incrwritepos_size in H.
Qed.

Lemma send_msg_kexinit_ok0 now s : pk_ok (pk s) -> tables_ok s ->
  opost (fun s' => exists p tk, s' = put_newkeys (Some zero_keys) (put_sentkexinit true (put_transkexinit (Some tk) (put_pk p s))) /\
    pk_ok p /\ same_recv (pk s) p /\ wf tk) (send_msg_kexinit cfg now s).
Proof using Hcfg S.
  intros Hb [Hsig Hc2s Hs2c]. unfold send_msg_kexinit.
  updgo (wp_ok0 _ _ Hb (keeps_putbyte SSH_MSG_KEXINIT ltac:(done))). cbn [pk put_pk].
  updgo (wp_ok0 _ (put_pk p s) Hb0 (keeps_cookie (rng_used p))). cbn [pk put_pk sigalgs compress_algos_c2s compress_algos_s2c].
  set (p1 := set_rng_used _ p0). assert (Hb2 : pk_ok p1 /\ same_recv p0 p1) by (split; [destruct Hb1; by split|by split]). clearbody p1. destruct Hb2 as [Hb2 Hs2].
  change (put_pk p1 _) with (put_pk p1 s).
  updgo (wp_ok0 _ (put_pk p1 s) Hb2 (keeps_put_algolist_all _ false (co_kex Hcfg))).
  updgo (wp_ok0 _ (put_pk p2 s) Hb3 (keeps_put_algolist_all _ false Hsig)).
  updgo (wp_ok0 _ (put_pk p3 s) Hb4 (keeps_put_algolist_all _ false (co_ciphers Hcfg))).
  updgo (wp_ok0 _ (put_pk p4 s) Hb5 (keeps_put_algolist_all _ false (co_ciphers Hcfg))).
  updgo (wp_ok0 _ (put_pk p5 s) Hb6 (keeps_put_algolist_all _ false (co_hashes Hcfg))).
  updgo (wp_ok0 _ (put_pk p6 s) Hb7 (keeps_put_algolist_all _ false (co_hashes Hcfg))).
  updgo (wp_ok0 _ (put_pk p7 s) Hb8 (keeps_put_algolist_all _ false Hc2s)).
  updgo (wp_ok0 _ (put_pk p8 s) Hb9 (keeps_put_algolist_all _ false Hs2c)).
  updgo (wp_ok0 _ (put_pk p9 s) Hb10 (keeps_putstring [] ltac:(constructor))).
  updgo (wp_ok0 _ (put_pk p10 s) Hb11 (keeps_putstring [] ltac:(constructor))).
  updgo (wp_ok0 _ (put_pk p11 s) Hb12 (keeps_putbyte 0 ltac:(done))).
  updgo (wp_ok0 _ (put_pk p12 s) Hb13 (keeps_putint 0)).
  eapply opost_bind; [apply buf_newcopy_post; by apply pk_writepayload|]. intros tk _ [Htk _].
  updgo (send_ok0 now (put_transkexinit (Some tk) (put_pk p13 s)) Hb14). cbn.
  eexists _, tk. split; [reflexivity|]. split; [destruct Hb15; by split|]. split; [|done].
  repeat match goal with H : same_recv _ _ |- _ => destruct H end. split; cbn in *; congruence.
Qed.

Lemma send_msg_kexinit_ok now s : base (pk s) -> tables_ok s ->
  opost (fun s' => exists p tk, s' = put_newkeys (Some zero_keys) (put_sentkexinit true (put_transkexinit (Some tk) (put_pk p s))) /\
    base p /\ recvseq p = recvseq (pk s) /\ authdone p = authdone (pk s) /\ wf tk) (send_msg_kexinit cfg now s).
Proof using Hcfg S.
  intros Hb Ht. eapply opost_mono; [apply send_msg_kexinit_ok0; [apply Hb|done]|]. intros s' _ (p & tk & -> & Hok & Hs & Hw).
  exists p, tk. split; [done|]. split; [by apply (base_same (pk s))|by destruct Hs].
Qed.

(** ** The peer's KEXINIT *)

(** A direction whose algorithms have been chosen. *)
Definition dir_neg (d : kdir) : Prop :=
  exists c m h, kd_crypt d = Some c /\ kd_mode d = Some m /\ kd_mac d = Some h /\ (c_blocksize c = 8 \/ c_blocksize c = 16) /\ mac_ok h.

Definition keys_neg (nk : key_context) : Prop := dir_neg (nk_recv nk) /\ dir_neg (nk_trans nk) /\ exists kx, nk_kex nk = Some kx.

(** What reading a KEXINIT can change, the new keys apart. *)
Definition updk (s s' : kses) : Prop :=
  exists p e st f ig, s' = put_ignorenext ig (put_them_firstfollows f (put_strict_kex st (put_allow_ext_info e (put_pk p s)))) /\
    base p /\ recvseq p = recvseq (pk s) /\ authdone p = authdone (pk s).

Lemma updk_upd s s' : upd s s' -> updk s s'.
Proof. intros (p & -> & ?). exists p, (allow_ext_info s), (strict_kex s), (them_firstfollows s), (ignorenext s). by destruct s. Qed.

Lemma updk_trans s1 s2 s3 : updk s1 s2 -> updk s2 s3 -> updk s1 s3.
Proof.
  intros (p & e & st & f & ig & -> & _ & H1 & H2) (q & e' & st' & f' & ig' & -> & Hq & H3 & H4).
  exists q, e', st', f', ig'. cbn in *. split_and!; try done; congruence.
Qed.

Lemma updk_base s s' : updk s s' -> base (pk s').
Proof. by intros (p & ? & ? & ? & ? & -> & ? & _). Qed.

Lemma updk_tables s s' : updk s s' -> tables_ok s -> tables_ok s'.
Proof. intros (p & ? & ? & ? & ? & -> & _) []. by split. Qed.

Lemma upd_tables s s' : upd s s' -> tables_ok s -> tables_ok s'.
Proof. intros (p & -> & _) []. by split. Qed.

Lemma has_algo_ok name s : base (pk s) -> opost (fun '(_, s') => upd s s') (has_algo name s).
Proof.
  intros Hb. unfold has_algo. eapply opost_mono; [apply (rp_ok (fun _ => True)); [done|]|].
  - intros b Hw. eapply opost_mono; [by apply buf_has_algo_safe|]. by intros [a b'] _ ?.
  - by intros [a s'] _ [? _].
Qed.

Lemma match_algo_ok {D M} (l : list (algo_type D M)) kg s : base (pk s) -> table_ok l ->
  opost (fun '(a, _, s') => upd s s' /\ match a with Some a => a ∈ l | None => True end) (match_algo l kg s).
Proof.
  intros Hb [_ Hl]. unfold match_algo.
  eapply opost_bind; [apply (rp_ok (fun '(a, _) => match a with Some a => a ∈ l | None => True end)); [done|]|].
  - intros b Hw. eapply opost_bind; [by apply buf_match_algo_safe|]. by intros [[a g] b'] _ [? ?].
  - by intros [[a g] s'] _ [? ?].
Qed.

Lemma need_ok {A} (P : A -> Prop) (a : option A) msg : match a with Some a => P a | None => True end -> opost P (need a msg).
Proof. by destruct a. Qed.

Lemma read_kex_flags_ok s : base (pk s) -> opost (fun '(_, s') => updk s s') (read_kex_flags s).
Proof.
  intros Hb. unfold read_kex_flags. eapply opost_bind; [by apply has_algo_ok|]. intros [g s1] _ H1. destruct (donefirstkex s1); [by apply updk_upd|].
  eapply opost_bind; [apply has_algo_ok; by apply upd_base in H1|]. intros [ext s2] _ H2.
  set (s3 := if ext then _ else _). assert (H3 : updk s s3).
  { apply (updk_trans _ s1); [by apply updk_upd|]. apply (updk_trans _ s2); [by apply updk_upd|]. unfold s3. apply upd_base in H2.
    exists (pk s2), (if ext then true else allow_ext_info s2), (strict_kex s2), (them_firstfollows s2), (ignorenext s2). destruct ext, s2; done. }
  eapply opost_bind; [apply has_algo_ok; by apply updk_base in H3|]. intros [strict s4] _ H4. cbn. apply (updk_trans _ s3); [done|].
  apply (updk_trans _ s4); [by apply updk_upd|]. apply upd_base in H4.
  exists (pk s4), (allow_ext_info s4), (if strict then true else strict_kex s4), (them_firstfollows s4), (ignorenext s4). destruct strict, s4; done.
Qed.

Lemma read_kex_hostkey_ok g s : base (pk s) -> tables_ok s -> opost (fun '(_, _, _, s') => upd s s') (read_kex_hostkey cfg g s).
Proof using Hcfg.
  intros Hb Ht. unfold read_kex_hostkey. eapply opost_bind; [apply match_algo_ok; [done|apply Hcfg]|]. intros [[a g1] s1] _ [H1 _].
  eapply opost_bind; [by apply (need_ok (fun _ => True)); destruct a|]. intros a' _ _.
  eapply opost_bind; [by apply (need_ok (fun _ => True)); destruct (al_data a')|]. intros kx _ _.
  eapply opost_bind; [apply match_algo_ok; [by apply upd_base in H1|by destruct (upd_tables _ _ H1 Ht)]|]. intros [[a2 g2] s2] _ [H2 _].
  eapply opost_bind; [by apply (need_ok (fun _ => True)); destruct a2|]. intros a3 _ _. cbn. by apply (upd_trans _ s1).
Qed.

Lemma match_mac_ok cipher h msg : cipher ∈ cf_sshciphers cfg -> match h with Some h => h ∈ cf_sshhashes cfg | None => True end ->
  opost (fun h' => match h' with Some h => h ∈ cf_sshhashes cfg | None => exists m, al_mode cipher = Some m /\ aead_crypt m = true end) (match_mac cipher h msg).
Proof using Hcfg.
  intros Hc Hh. unfold match_mac. destruct (co_cipher Hcfg _ Hc) as (c & m & _ & Hm & _). rewrite Hm. cbn [the obind].
  destruct (aead_crypt m) eqn:E; [by exists m|]. eapply opost_bind; [by apply (need_ok (fun h => h ∈ cf_sshhashes cfg))|]. by intros h' _ ?.
Qed.

Lemma set_dir_ok cipher h comp d : cipher ∈ cf_sshciphers cfg ->
  match h with Some h => h ∈ cf_sshhashes cfg | None => exists m, al_mode cipher = Some m /\ aead_crypt m = true end ->
  opost dir_neg (set_dir cipher h comp d).
Proof using Hcfg.
  intros Hc Hh. unfold set_dir. destruct (co_cipher Hcfg _ Hc) as (c & m & Hd & Hm & Hbs & Hae). rewrite Hm. cbn [the obind opost].
  assert (exists mac, match h with None => aead_mac m | Some h => al_data h end = Some mac /\ mac_ok mac) as (mac & Hmac & Hok).
  { destruct h as [h|]; [by apply (co_hash Hcfg)|]. destruct Hh as (m' & Hm' & E). rewrite Hm in Hm'. injection Hm' as <-. by apply Hae. }
  exists c, m, mac. by split_and!.
Qed.

Lemma read_kex_dirs_ok s : base (pk s) -> tables_ok s -> opost (fun '(r, t, s') => upd s s' /\ dir_neg r /\ dir_neg t) (read_kex_dirs cfg s).
Proof using Hcfg.
  intros Hb Ht. unfold read_kex_dirs.
  eapply opost_bind; [apply match_algo_ok; [done|apply Hcfg]|]. intros [[a1 ?] s1] _ [H1 Ha1].
  eapply opost_bind; [by apply (need_ok (fun a => a ∈ cf_sshciphers cfg))|]. intros c2s _ Hc2s.
  eapply opost_bind; [apply match_algo_ok; [by apply upd_base in H1|apply Hcfg]|]. intros [[a2 ?] s2] _ [H2 Ha2].
  eapply opost_bind; [by apply (need_ok (fun a => a ∈ cf_sshciphers cfg))|]. intros s2c _ Hs2c.
  eapply opost_bind; [apply match_algo_ok; [by apply upd_base in H2|apply Hcfg]|]. intros [[a3 ?] s3] _ [H3 Ha3].
  eapply opost_bind; [by apply match_mac_ok|]. intros h1 _ Hh1.
  eapply opost_bind; [apply match_algo_ok; [by apply upd_base in H3|apply Hcfg]|]. intros [[a4 ?] s4] _ [H4 Ha4].
  eapply opost_bind; [by apply match_mac_ok|]. intros h2 _ Hh2.
  pose proof (upd_trans _ _ _ (upd_trans _ _ _ (upd_trans _ _ _ H1 H2) H3) H4) as H14. pose proof (upd_tables _ _ H14 Ht) as Ht4.
  eapply opost_bind; [apply match_algo_ok; [by apply upd_base in H4|apply Ht4]|]. intros [[a5 ?] s5] _ [H5 _].
  eapply opost_bind; [by apply (need_ok (fun _ => True)); destruct a5|]. intros c1 _ _.
  pose proof (upd_trans _ _ _ H14 H5) as H15. pose proof (upd_tables _ _ H15 Ht) as Ht5.
  eapply opost_bind; [apply match_algo_ok; [by apply upd_base in H5|apply Ht5]|]. intros [[a6 ?] s6] _ [H6 _].
  eapply opost_bind; [by apply (need_ok (fun _ => True)); destruct a6|]. intros c2 _ _.
  eapply opost_bind; [by apply set_dir_ok|]. intros r _ Hr. eapply opost_bind; [by apply set_dir_ok|]. intros t _ Htr.
  cbn. split; [by apply (upd_trans _ s5)|done].
Qed.

Lemma read_kex_algos_ok s nk0 : base (pk s) -> tables_ok s -> newkeys s = Some nk0 ->
  opost (fun s' => exists s1 nk, s' = put_newkeys (Some nk) s1 /\ updk s s1 /\ keys_neg nk) (read_kex_algos cfg s).
Proof using Hcfg.
  intros Hb Ht Hnk. unfold read_kex_algos. eapply opost_bind; [apply rp__ok; [done|intros; by apply buf_incrpos_post]|]. intros s1 _ H1.
  assert (newkeys s1 = Some nk0) as -> by (destruct H1 as (? & -> & _); done). cbn [the obind].
  eapply opost_bind; [apply read_kex_flags_ok; by apply upd_base in H1|]. intros [g s2] _ H2.
  pose proof (updk_trans _ _ _ (updk_upd _ _ H1) H2) as H02.
  eapply opost_bind; [apply read_kex_hostkey_ok; [by apply updk_base in H2|by apply (updk_tables s)]|]. intros [[[kx sig] good] s3] _ H3.
  pose proof (updk_trans _ _ _ H02 (updk_upd _ _ H3)) as H03.
  eapply opost_bind; [apply read_kex_dirs_ok; [by apply updk_base in H03|by apply (updk_tables s)]|]. intros [[r t] s4] _ (H4 & Hr & Htr).
  eapply opost_bind; [apply rp__ok; [by apply upd_base in H4|intros; by apply buf_eatstring_post]|]. intros s5 _ H5.
  eapply opost_bind; [apply rp__ok; [by apply upd_base in H5|intros; by apply buf_eatstring_post]|]. intros s6 _ H6.
  eapply opost_bind; [apply (rp_ok (fun _ => True)); [by apply upd_base in H6|]|].
  { intros b Hw. eapply opost_mono; [by apply buf_getbool_post|]. by intros [v b'] _ [_ ?]. }
  intros [v s7] _ [H7 _]. pose proof (updk_trans _ _ _ H03 (updk_upd _ _ (upd_trans _ _ _ (upd_trans _ _ _ (upd_trans _ _ _ H4 H5) H6) H7))) as H07.
  set (s8 := if v =? 0 then s7 else _). assert (H8 : updk s7 s8).
  { apply updk_base in H07. unfold s8. destruct (v =? 0); [apply updk_upd; by apply upd_refl|].
    exists (pk s7), (allow_ext_info s7), (strict_kex s7), true, (if good then ignorenext s7 else true). by destruct good, s7. }
  eapply opost_bind; [apply (rp_ok (fun _ => True)); [by apply updk_base in H8|]|].
  { intros b Hw. eapply opost_mono; [by apply buf_getint_post|]. by intros [w b'] _ [_ ?]. }
  intros [w s9] _ [H9 _]. cbn. eexists s9, _. split; [reflexivity|]. split; [|split_and!; [done|done|by eexists]].
  by apply (updk_trans _ s8); [apply (updk_trans _ s7)|apply updk_upd].
Qed.

(** ** The states of an exchange *)

Inductive phase := Idle | Sent | Kexed | Dhed.

#[global] Instance phase_eq_dec : EqDecision phase.
Proof. solve_decision. Defined.

(** Nothing, our KEXINIT sent, the peer's received and answered with the choice of
    algorithms, and our NEWKEYS sent. *)
Definition at_phase (ph : phase) (s : kses) : Prop :=
  recvnewkeys s = false /\
  match ph with
  | Idle => sentkexinit s = false /\ recvkexinit s = false /\ sentnewkeys s = false
  | Sent => sentkexinit s = true /\ recvkexinit s = false /\ sentnewkeys s = false /\
      (exists nk, newkeys s = Some nk) /\ exists tk, transkexinit s = Some tk /\ wf tk
  | Kexed => sentkexinit s = true /\ recvkexinit s = true /\ sentnewkeys s = false /\
      (exists nk, newkeys s = Some nk /\ keys_neg nk) /\ exists kb, kexhashbuf s = Some kb /\ wf kb
  | Dhed => sentkexinit s = true /\ recvkexinit s = true /\ sentnewkeys s = true /\
      exists nk, newkeys s = Some nk /\ dir_neg (nk_recv nk) /\ kd_valid (nk_recv nk) = true /\ kd_valid (nk_trans nk) = false
  end.

(** The session while a packet is processed, whatever [requirenext] is. *)
Record good (ph : phase) (s : kses) : Prop := {
  gd_base : base (pk s);
  gd_tables : tables_ok s;
  gd_phase : at_phase ph s;
}.

(** The packet that has to come in each state. *)
Definition expects (ph : phase) (t : Z) : Prop :=
  match ph with
  | Idle | Sent => t = 0 \/ t = SSH_MSG_KEXINIT
  | Kexed => t = SSH_MSG_KEXDH_INIT
  | Dhed => t = SSH_MSG_NEWKEYS
  end.

Lemma good_upd ph s s' : good ph s -> upd s s' -> good ph s'.
Proof. intros [Hb Ht Hp] H. split; [by apply upd_base in H|by apply (upd_tables s)|]. by destruct H as (p & -> & _). Qed.

Lemma ensure_kexinit_ok now s ph : good ph s -> recvkexinit s = false ->
  opost (fun s' => good Sent s' /\ donefirstkex s' = donefirstkex s /\ recvfirstnewkeys s' = recvfirstnewkeys s /\ recvseq (pk s') = recvseq (pk s))
    (if sentkexinit s then Ok s else send_msg_kexinit cfg now s).
Proof using Hcfg S.
  intros [Hb Ht [Hrn Hp]] Hrk. destruct (sentkexinit s) eqn:Es.
  - cbn. split; [|done]. split; try done. split; [done|]. destruct ph; cbn in Hp; try (exfalso; naive_solver congruence). cbn. by rewrite Es.
  - eapply opost_mono; [by apply send_msg_kexinit_ok|]. intros s' _ (p & tk & -> & Hb' & Hs & Ha & Hw). split; [|done]. split; [done|by destruct Ht|].
    destruct ph; cbn in Hp; try (exfalso; naive_solver congruence). split; [done|]. cbn. split_and!; naive_solver.
Qed.

Lemma recv_msg_kexinit_ok now s ph : good ph s ->
  opost (fun s' => good Kexed s' /\ requirenext s' = SSH_MSG_KEXDH_INIT /\ recvfirstnewkeys s' = recvfirstnewkeys s /\
    recvseq (pk s') = recvseq (pk s) /\ (strict_kex s' = true -> donefirstkex s = false -> recvseq (pk s) = 1)) (recv_msg_kexinit cfg now s).
Proof using Hcfg S.
  intros Hg. unfold recv_msg_kexinit. destruct (recvkexinit s) eqn:Erk.
  { assert (Hs : sentkexinit s = true) by (destruct Hg as [_ _ [_ Hp]], ph; cbn in Hp; destruct Hp as (? & ? & _); congruence). rewrite Hs. cbn [obind]. by rewrite Erk. }
  eapply opost_bind; [by eapply ensure_kexinit_ok|]. intros s1 _ ([Hb1 Ht1 (Hrn & Hsk & Hrk & Hsn & (nk0 & Hnk) & tk & Htk & Hwtk)] & Hdf & Hrf & Hseq).
  rewrite Hrk. cbn [exit_if obind]. rewrite Htk. cbn [the obind]. destruct (base_payload _ Hb1) as (pl & -> & Hwpl). cbn [the obind].
  eapply opost_bind; [apply buf_new_post, u32_range|]. intros kb _ (Hkb & _).
  eapply opost_bind; [by apply (read_kex_algos_ok s1 nk0)|]. intros s2 _ (s2' & nk & -> & Hu & Hneg).
  assert (Hb2 : base (pk (put_newkeys (Some nk) s2'))) by (apply updk_base in Hu; done).
  eapply opost_bind; [apply buf_putstring_post; [done|apply Hcfg|done]|]. intros kb1 _ Hkb1.
  eapply opost_bind; [apply buf_putstring_post; [done|apply Hcfg|done]|]. intros kb2 _ Hkb2.
  eapply opost_bind; [apply rp__ok; [done|]|].
  { intros b Hw. eapply opost_mono; [apply buf_setpos_post; [done|apply Hb2]|]. by intros b' _ [? _]. }
  intros s3 _ H3. pose proof (upd_base _ _ H3) as Hb3. destruct (base_payload _ Hb3) as (pl3 & -> & Hwpl3). cbn [the obind].
  eapply opost_bind; [apply buf_read_post; [done|apply u32_range]|]. intros ic _ [Hic Hicl].
  eapply opost_bind; [by apply buf_putstring_post|]. intros kb3 _ Hkb3.
  eapply opost_bind; [by apply buf_contents_post|]. intros is_ _ [His Hisl].
  eapply opost_bind; [by apply buf_putstring_post|]. intros kb4 _ Hkb4.
  destruct H3 as (p3 & -> & Hp3 & Hs3 & _), Hu as (p2 & e & st & f & ig & -> & _ & Hs2 & _). cbn in Hs3, Hs2.
  match goal with |- opost _ (let* _ := exit_if ?c _ in Ok ?x) => destruct c eqn:Ec; [done|] end. cbn [exit_if obind opost].
  split; [|cbn in *; split_and!; [done|done|congruence|]].
  - split; [exact Hp3|destruct Ht1; split; cbn; assumption|]. split; [done|]. cbn. split_and!; try done; eauto.
  - cbn in Ec. intros -> Hdf0. rewrite Hdf, Hdf0 in Ec. cbn in Ec. apply negb_false_iff, Z.eqb_eq in Ec. congruence.
Qed.
End safety.
