(* ===== verification/KexSession.v ===== *)
(** * The key exchange inside the session loop

    The rest of the exchange (making the keys, switching to them, the answer to KEXDH_INIT),
    the dispatch of packets, and the session loop of common-session.c around them: what it
    reads, processes, sends and writes.  The theorems of the key exchange are here. *)

From S2P Require Import Prelude Bytes Buffer Packet Transport PacketQueues PacketSafety Algo Kex KexSafety.

(** [regood H]: a field that [good] does not look at has been set. *)
Ltac regood H := let Hp := fresh in destruct H as [? [] Hp]; split; [done|by split|exact Hp].

Section session.
Context {CS ZS HD HS : Type} {C : Crypto CS ZS} {S : CryptoSane C} {K : KexLib (CS := CS) (ZS := ZS) (HD := HD) (HS := HS)}.
Context (cfg : config (CS := CS) (HD := HD)) (Hcfg : cfg_ok cfg).

Abbreviation pktses := (pktses CS ZS).
Abbreviation kses := (kses (CS := CS) (ZS := ZS) (HD := HD)).
Abbreviation kdir := (kdir (CS := CS) (ZS := ZS) (HD := HD)).
Abbreviation key_context := (key_context (CS := CS) (ZS := ZS) (HD := HD)).

(** What strict key exchange depends on is left alone. *)
Definition inert (s s' : kses) : Prop :=
  strict_kex s' = strict_kex s /\ recvfirstnewkeys s' = recvfirstnewkeys s /\ recvseq (pk s') = recvseq (pk s) /\
  ignorenext s' = ignorenext s.

Lemma inert_refl s : inert s s.
Proof. done. Qed.

Lemma inert_trans s1 s2 s3 : inert s1 s2 -> inert s2 s3 -> inert s1 s3.
Proof. intros (? & ? & ? & ?) (? & ? & ? & ?). split_and!; congruence. Qed.

Lemma upd_inert s s' : upd s s' -> inert s s'.
Proof. by intros (p & -> & _ & ? & _). Qed.

(** ** Making the keys *)

(** The same algorithms, with other keys. *)
Definition same_algos (d d' : kdir) : Prop :=
  kd_crypt d' = kd_crypt d /\ kd_mode d' = kd_mode d /\ kd_mac d' = kd_mac d /\ kd_valid d' = kd_valid d.

Lemma same_algos_neg d d' : same_algos d d' -> dir_neg d -> dir_neg d'.
Proof. intros (H1 & H2 & H3 & _) (c & m & h & E1 & E2 & E3 & H). exists c, m, h. rewrite H1, H2, H3. tauto. Qed.

Lemma start_dir_ok IV key d : dir_neg d -> opost (same_algos d) (start_dir IV key d).
Proof.
  intros (c & m & h & E1 & E2 & E3 & _). unfold start_dir. rewrite E1. cbn [the obind].
  destruct (cipherdesc c) as [name|]; [|done].
  apply (opost_bind (fun _ => True)).
  { destruct name as [n|]; [|done]. eapply opost_bind; [apply exit_if_post|]. done. }
  intros i _ _. rewrite E2. cbn [the obind]. by destruct (start m i IV key (c_keysize c)).
Qed.

Lemma mac_dir_ok hd sid hs l d : dir_neg d -> opost (same_algos d) (mac_dir hd sid hs l d).
Proof.
  intros (c & m & h & E1 & E2 & E3 & _). unfold mac_dir. rewrite E3. cbn [the obind]. by destruct (hash_desc h).
Qed.

Lemma hash_process_mp_ok hd hs mp : opost (fun _ => True) (hash_process_mp hd hs mp).
Proof.
  unfold hash_process_mp. eapply opost_bind; [by apply buf_new_post|]. intros b _ (Hb & _).
  eapply opost_bind; [by apply buf_putmpint_post|]. intros b' _ Hb'.
  eapply opost_bind; [by apply buf_contents_post|]. done.
Qed.

(** What [gen_new_keys] leaves. *)
Lemma gen_new_keys_ok s nk h sid : newkeys s = Some nk -> keys_neg nk -> hash s = Some h -> session_id s = Some sid ->
  opost (fun s' => exists nk', s' = put_newkeys (Some nk') (put_hash None (put_dh_K_bytes None (put_dh_K None s))) /\
    keys_neg nk' /\ kd_valid (nk_recv nk') = true /\ kd_valid (nk_trans nk') = true /\ nk_signature nk' = nk_signature nk) (gen_new_keys s).
Proof.
  intros Hnk (Hr & Ht & kx & Hkx) Hh Hsid. unfold gen_new_keys. rewrite Hnk. cbn [the obind]. rewrite Hkx. cbn [the obind].
  apply (opost_bind (fun _ => True)).
  { destruct (dh_K s); [apply hash_process_mp_ok|done]. }
  intros hs _ _. cbn. rewrite Hh. cbn [the obind]. rewrite Hsid. cbn [the obind].
  eapply opost_bind; [by apply start_dir_ok|]. intros r1 _ Hr1. eapply opost_bind; [by apply start_dir_ok|]. intros t1 _ Ht1.
  eapply opost_bind; [apply mac_dir_ok; by apply (same_algos_neg _ _ Ht1)|]. intros t2 _ Ht2.
  eapply opost_bind; [apply mac_dir_ok; by apply (same_algos_neg _ _ Hr1)|]. intros r2 _ Hr2. cbn.
  eexists. split; [reflexivity|]. split; [|done]. split_and!.
  - by apply (same_algos_neg _ _ Hr2), (same_algos_neg _ _ Hr1).
  - by apply (same_algos_neg _ _ Ht2), (same_algos_neg _ _ Ht1).
  - by exists kx.
Qed.

(** ** Switching to them *)

Lemma gen_new_zstream_ok init old (d : kdir) : dir_neg d -> opost dir_neg (gen_new_zstream init old d).
Proof.
  intros Hd. unfold gen_new_zstream. apply (opost_bind dir_neg).
  - destruct (kd_comp d), init; done.
  - intros d' _ Hd'. eapply opost_bind; [apply exit_if_post|]. done.
Qed.

Lemma keydir_of_ok (d : kdir) : dir_neg d -> opost dir_ok (keydir_of d).
Proof. intros (c & m & h & E1 & E2 & E3 & Hbs & Hh). unfold keydir_of. rewrite E1. cbn. rewrite E2. cbn. by rewrite E3. Qed.

Lemma base_recv k (p : pktses) : dir_ok k -> base p -> base (set_recv k p).
Proof. intros Hk [[] Hr ? ?]. split; cbn; try done. split; cbn; try done. by rewrite Hr. Qed.

Lemma base_trans k (p : pktses) : dir_ok k -> base p -> base (set_trans k p).
Proof. intros Hk [[] ? ? ?]. by split. Qed.

Lemma switch_recv_ok s nk : base (pk s) -> dir_neg (nk_recv nk) ->
  opost (fun '(s', nk') => upd s s' /\ nk_trans nk' = nk_trans nk /\ nk_kex nk' = nk_kex nk /\ nk_signature nk' = nk_signature nk /\
    (recvnewkeys s = false -> nk' = nk)) (switch_recv s nk).
Proof.
  intros Hb Hd. unfold switch_recv. destruct (recvnewkeys s && kd_valid (nk_recv nk)) eqn:E.
  - eapply opost_bind; [by apply gen_new_zstream_ok|]. intros d _ Hd'. eapply opost_bind; [by apply keydir_of_ok|]. intros k _ Hk. cbn.
    split; [|split_and!; try done; intros Hf; by rewrite Hf in E]. eexists. split; [done|]. split; [by apply base_recv|done].
  - cbn. split; [by apply upd_refl|done].
Qed.

Lemma switch_trans_ok s nk : base (pk s) -> (kd_valid (nk_trans nk) = true -> dir_neg (nk_trans nk)) ->
  opost (fun '(s', nk') => upd s s' /\ nk_recv nk' = nk_recv nk /\ nk_kex nk' = nk_kex nk /\ nk_signature nk' = nk_signature nk /\
    (sentnewkeys s = true -> kd_valid (nk_trans nk') = false)) (switch_trans s nk).
Proof.
  intros Hb Hd. unfold switch_trans. destruct (sentnewkeys s) eqn:Es; cbn [andb].
  - destruct (kd_valid (nk_trans nk)) eqn:E.
    + eapply opost_bind; [apply gen_new_zstream_ok; by apply Hd|]. intros d _ Hd'. eapply opost_bind; [by apply keydir_of_ok|]. intros k _ Hk. cbn.
      split; [|done]. eexists. split; [done|]. split; [by apply base_trans|done].
    + cbn. split; [by apply upd_refl|done].
  - cbn. split; [by apply upd_refl|done].
Qed.

Lemma sent_switch_ok now s nk : base (pk s) -> sentkexinit s = true -> recvkexinit s = true -> sentnewkeys s = true -> recvnewkeys s = false ->
  newkeys s = Some nk -> dir_neg (nk_trans nk) ->
  opost (fun s' => exists s1 nk', s' = put_newkeys (Some nk') s1 /\ upd s s1 /\ nk_recv nk' = nk_recv nk /\ nk_signature nk' = nk_signature nk /\
    kd_valid (nk_trans nk') = false) (switch_keys now s).
Proof.
  intros Hb H1 H2 H3 H4 Hnk Hd. unfold switch_keys. rewrite H1, H2. cbn [andb negb exit_if obind]. rewrite H3, H4. cbn [orb negb].
  rewrite Hnk. cbn [the obind]. unfold switch_recv. rewrite H4. cbn [andb obind].
  eapply opost_bind; [by apply switch_trans_ok|]. intros [s1 nk1] _ (Hu & E1 & E2 & E3 & E4).
  assert (recvnewkeys s1 = false /\ sentnewkeys s1 = true) as [H4' H3'] by (destruct Hu as (p & -> & _); done).
  cbn [sentnewkeys recvnewkeys put_newkeys]. rewrite H4', H3'. cbn. exists s1, nk1. split_and!; auto.
Qed.

(** Our keys are in use; with strict key exchange our sequence number starts again. *)
Lemma good_dhed_reset (s : kses) nk (b : bool) : base (pk s) -> tables_ok s -> recvnewkeys s = false ->
  sentkexinit s = true /\ recvkexinit s = true /\ sentnewkeys s = true ->
  dir_neg (nk_recv nk) /\ kd_valid (nk_recv nk) = true /\ kd_valid (nk_trans nk) = false ->
  let s1 := put_newkeys (Some nk) s in
  let s2 := if b then put_pk (set_transseq 0 (pk s1)) s1 else s1 in
  good Dhed s2 /\ (exists nk', newkeys s2 = Some nk') /\ inert s s2.
Proof.
  intros [[] ? ? ?] [] H1 (H2 & H3 & H4) H5. destruct b; cbn; (split; [|by split; [exists nk|]]); (split; [by split|by split|]); (split; [done|]); cbn; eauto 6.
Qed.

(** The peer's KEXINIT has been read and its KEXDH_INIT is being answered. *)
Record answering (nk : key_context) (s : kses) : Prop := {
  an_base : base (pk s);
  an_tables : tables_ok s;
  an_flags : recvnewkeys s = false /\ sentkexinit s = true /\ recvkexinit s = true;
  an_keys : newkeys s = Some nk;
  an_neg : keys_neg nk;
}.

Lemma answering_upd nk s s' : answering nk s -> upd s s' -> answering nk s'.
Proof. intros [Hb Ht Hp] H. split; [by apply upd_base in H|by apply (upd_tables s)| | |done]; by destruct H as (p & -> & _). Qed.

Lemma send_msg_newkeys_ok now s nk h sid : answering nk s -> hash s = Some h -> session_id s = Some sid ->
  opost (fun s' => good Dhed s' /\ (exists nk', newkeys s' = Some nk') /\ inert s s') (send_msg_newkeys now s).
Proof using S.
  intros [Hb Ht (Hrn & Hsk & Hrk) Hnk Hneg] Hh Hsid. unfold send_msg_newkeys.
  eapply opost_bind; [apply wp_ok; [done|by apply keeps_putbyte]|]. intros s1 _ (p1 & -> & Hb1 & Hq1 & _).
  eapply opost_bind; [by apply send_ok|]. intros s2 _ (p2 & -> & Hb2 & Hq2 & _). cbn [pk put_pk] in *.
  set (s3 := put_pk (set_dataallowed true _) _).
  assert (Hb3 : base (pk s3)) by (unfold s3; cbn; destruct (donefirstkex s); destruct Hb2 as [[] ? ? ?]; by split).
  assert (Hf : sentkexinit s3 = true /\ recvkexinit s3 = true /\ sentnewkeys s3 = true /\ recvnewkeys s3 = false /\ tables_ok s3 /\
    newkeys s3 = Some nk /\ hash s3 = Some h /\ session_id s3 = Some sid /\ inert s s3).
  { destruct Ht. unfold s3. cbn. destruct (donefirstkex s); cbn; split_and!; try done; unfold inert; cbn; split_and!; congruence. }
  clearbody s3. destruct Hf as (F1 & F2 & F3 & F4 & Ht3 & F5 & F6 & F7 & Fi).
  eapply opost_bind; [by apply (gen_new_keys_ok s3 nk h sid)|]. intros s4 _ (nk4 & -> & (Hr4 & Ht4 & _) & Hvr & _).
  set (s5 := put_newkeys _ _).
  assert (G : base (pk s5) /\ tables_ok s5 /\ sentkexinit s5 = true /\ recvkexinit s5 = true /\ sentnewkeys s5 = true /\ recvnewkeys s5 = false /\
    newkeys s5 = Some nk4 /\ inert s s5) by (unfold s5; cbn; split_and!; try done; by destruct Ht3).
  clearbody s5. clear - G Hr4 Ht4 Hvr. destruct G as (G0 & Gt & G1 & G2 & G3 & G4 & G5 & Gi).
  eapply opost_bind; [by apply (sent_switch_ok now s5 nk4)|].
  intros s6 _ (s7 & nk7 & -> & Hu & E1 & _ & E2). pose proof (upd_base _ _ Hu) as Hb7. pose proof (upd_tables _ _ Hu Gt) as [].
  assert (G' : recvnewkeys s7 = false /\ sentkexinit s7 = true /\ recvkexinit s7 = true /\ sentnewkeys s7 = true) by (destruct Hu as (p & -> & _); done).
  destruct (good_dhed_reset s7 nk7 (strict_kex s7)) as (Hg & Hk & Hi); [done|by split|tauto|tauto| |].
  - rewrite E1. split_and!; try done; tauto.
  - split; [exact Hg|]. split; [exact Hk|]. apply (inert_trans _ s5); [done|]. apply (inert_trans _ s7); [by apply upd_inert|exact Hi].
Qed.

Lemma end_switch_ok now (s : kses) nk : base (pk s) -> sentkexinit s = true -> recvkexinit s = true -> sentnewkeys s = true -> recvnewkeys s = true ->
  newkeys s = Some nk -> dir_neg (nk_recv nk) -> kd_valid (nk_trans nk) = false ->
  opost (fun s' => exists s1 k, s' = kexinitialise now (put_newkeys None (put_algo_kex k s1)) /\ upd s s1) (switch_keys now s).
Proof.
  intros Hb H1 H2 H3 H4 Hnk Hd Hvt. unfold switch_keys. rewrite H1, H2. cbn [andb negb exit_if obind]. rewrite H3, H4. cbn [orb negb].
  rewrite Hnk. cbn [the obind].
  eapply opost_bind; [by apply switch_recv_ok|]. intros [s1 nk1] _ (Hu1 & E1 & _).
  eapply opost_bind; [apply switch_trans_ok; [by apply upd_base in Hu1|by rewrite E1, Hvt]|]. intros [s2 nk2] _ (Hu2 & _).
  pose proof (upd_trans _ _ _ Hu1 Hu2) as Hu.
  assert (recvnewkeys s2 = true /\ sentnewkeys s2 = true) as [H4' H3'] by (destruct Hu as (p & -> & _); done).
  cbn [sentnewkeys recvnewkeys put_newkeys]. rewrite H4', H3'. cbn [andb opost]. exists s2, (nk_kex nk2). by destruct s2.
Qed.

Lemma kexinitialise_ok now (s : kses) : base (pk s) -> tables_ok s -> good Idle (kexinitialise now s).
Proof. intros Hb []. split; [destruct Hb as [[] ? ? ?]; by split|by split|by split]. Qed.

(** The client's NEWKEYS ends the exchange; before ours it is refused. *)
Lemma recv_msg_newkeys_ok now s ph : good ph s -> ph <> Kexed ->
  opost (fun s' => good Idle s' /\ requirenext s' = requirenext s /\ (strict_kex s' = true -> recvseq (pk s') = 0) /\ recvfirstnewkeys s' = true /\
    strict_kex s' = strict_kex s)
    (recv_msg_newkeys now s).
Proof.
  intros [Hb Ht [Hrn Hp]] Hne. unfold recv_msg_newkeys.
  destruct (decide (ph = Dhed)) as [->|Hd].
  - destruct Hp as (H1 & H2 & H3 & nk & Hnk & Hdn & Hv & Hvt).
    eapply opost_bind; [by apply (end_switch_ok now (put_recvnewkeys true s) nk)|].
    intros s2 _ (s1 & k & -> & p & -> & Hbp & _).
    match goal with |- context [kexinitialise now ?x] => pose proof (kexinitialise_ok now x Hbp) as Hg; set (y := x) in * end.
    assert (Hg' : good Idle (kexinitialise now y)) by (apply Hg; destruct Ht; by split). clear Hg.
    assert (Hq : requirenext (kexinitialise now y) = requirenext s) by done.
    assert (Hk : strict_kex (kexinitialise now y) = strict_kex s) by done. clearbody y. revert Hg' Hq Hk.
    generalize (kexinitialise now y). clear. intros x [Hb [] Hp] Hq Hk. cbn.
    rewrite <- Hk.
    destruct (strict_kex x) eqn:Es; cbn; rewrite Es; (split; [|done]); (split; [|by split|exact Hp]); cbn; [|done].
    destruct Hb as [[] ? ? ?]. by split.
  - unfold switch_keys. destruct ph; try done; cbn in Hp |- *.
    + by destruct Hp as (-> & _).
    + destruct Hp as (-> & Hrk & _). cbn. by rewrite Hrk.
Qed.

(** ** The answer to KEXDH_INIT *)

Lemma hb_ok f (s : kses) kb : kexhashbuf s = Some kb -> wf kb -> (forall b, wf b -> opost wf (f b)) ->
  opost (fun s' => exists kb', s' = put_kexhashbuf (Some kb') s /\ wf kb') (hb f s).
Proof.
  intros Hkb Hw Hf. unfold hb. rewrite Hkb. cbn [the obind]. eapply opost_bind; [by apply Hf|]. intros b _ Hb. by exists b.
Qed.

(** What finishing the exchange hash sets. *)
Definition hashed (s s' : kses) : Prop :=
  exists h kb sid k ks, s' = put_session_id (Some sid) (put_kexhashbuf kb (put_hash (Some h) (put_dh_K_bytes ks (put_dh_K k s)))).

Lemma finish_kexhashbuf_ok (s : kses) nk kb k ks : let s1 := put_kexhashbuf (Some kb) (put_dh_K_bytes ks (put_dh_K k s)) in
  newkeys s = Some nk -> keys_neg nk -> wf kb -> opost (hashed s) (finish_kexhashbuf s1).
Proof.
  intros s1 Hnk (_ & _ & kx & Hkx) Hw. unfold finish_kexhashbuf. subst s1. cbn. rewrite Hnk. cbn. rewrite Hkx. cbn [the obind].
  eapply opost_bind; [by apply buf_setpos_post|]. intros kb' _ [Hw' _].
  eapply opost_bind; [apply buf_read_post; [done|pose proof (wf_pos _ Hw'); lia]|]. intros bs _ _.
  destruct (session_id s) as [sid|] eqn:E.
  - cbn. eexists _, None, sid, k, ks. by rewrite <- E.
  - cbn. by eexists _, None, _, k, ks.
Qed.

Lemma kexdh_comb_key_ok p priv pub e (s : kses) nk kb : answering nk s -> kexhashbuf s = Some kb -> wf kb ->
  opost (hashed s) (kexdh_comb_key cfg p priv pub e s).
Proof using Hcfg.
  intros [_ _ _ Hnk Hneg] Hkb Hw. unfold kexdh_comb_key. eapply opost_bind; [apply exit_if_post|]. intros [] _ _.
  cbn [newkeys put_dh_K]. rewrite Hnk. cbn [the obind].
  eapply opost_bind; [apply (hb_ok _ _ kb); [done|done|intros; apply buf_putbytes_post; [done|by apply Hcfg|done]]|]. intros s1 _ (kb1 & -> & Hw1).
  eapply opost_bind; [apply (hb_ok _ _ kb1); [done|done|intros; by apply buf_putmpint_post]|]. intros s2 _ (kb2 & -> & Hw2).
  eapply opost_bind; [apply (hb_ok _ _ kb2); [done|done|intros; by apply buf_putmpint_post]|]. intros s3 _ (kb3 & -> & Hw3).
  eapply opost_bind; [apply (hb_ok _ _ kb3); [done|done|intros; by apply buf_putmpint_post]|]. intros s4 _ (kb4 & -> & Hw4).
  eapply opost_mono; [by apply (finish_kexhashbuf_ok s nk kb4 (Some (mp_exptmod e priv p)) (dh_K_bytes s))|]. done.
Qed.

Lemma other_comb_key_ok kx q (s : kses) nk kb : answering nk s -> kexhashbuf s = Some kb -> wf kb ->
  opost (fun '(field, s') => hashed s s' /\ bytes_ok field) (other_comb_key cfg kx q s).
Proof using Hcfg.
  intros [_ _ _ Hnk Hneg] Hkb Hw. unfold other_comb_key. destruct (cf_comb cfg kx q) as [[[f x] sec]|] eqn:E; [|done].
  apply (co_comb _ Hcfg) in E as [Hf Hx].
  set (k := match sec with inl k => Some k | inr _ => dh_K s end). set (ks := match sec with inl _ => dh_K_bytes s | inr k => Some k end).
  assert ((match sec with inl k => put_dh_K (Some k) s | inr k => put_dh_K_bytes (Some k) s end) = put_dh_K_bytes ks (put_dh_K k s)) as ->
    by (destruct sec, s; done).
  cbn [newkeys put_dh_K put_dh_K_bytes]. rewrite Hnk. cbn [the obind].
  eapply opost_bind; [apply (hb_ok _ _ kb); [done|done|intros; apply buf_putbytes_post; [done|by apply Hcfg|done]]|]. intros s1 _ (kb1 & -> & Hw1).
  eapply opost_bind; [apply (hb_ok _ _ kb1); [done|done|intros; by apply buf_putbytes_post]|]. intros s2 _ (kb2 & -> & Hw2).
  eapply opost_bind; [by apply (finish_kexhashbuf_ok s nk kb2 k ks)|]. intros s3 _ H3. done.
Qed.

Lemma answering_hashed nk s s' : answering nk s -> hashed s s' ->
  answering nk s' /\ exists h sid, hash s' = Some h /\ session_id s' = Some sid.
Proof. intros [Hb [] Hp Hk Hn] (h & kb & sid & k & ks & ->). split; [by split|by exists h, sid]. Qed.

Lemma send_msg_kexdh_reply_ok now e q (s : kses) nk kb : answering nk s -> kexhashbuf s = Some kb -> wf kb ->
  opost (fun s' => answering nk s' /\ (exists h sid, hash s' = Some h /\ session_id s' = Some sid) /\ inert s s') (send_msg_kexdh_reply cfg now e q s).
Proof using Hcfg S.
  intros Ha Hkb Hw. unfold send_msg_kexdh_reply.
  eapply opost_bind; [apply wp_ok; [apply Ha|by apply keeps_putbyte]|]. intros s1 _ H1. pose proof (answering_upd _ _ _ Ha H1) as Ha1.
  rewrite (an_keys _ _ Ha1). cbn [the obind].
  eapply opost_bind; [apply wp_ok; [apply Ha1|apply keeps_putbytes, Hcfg]|]. intros s2 _ H2. pose proof (answering_upd _ _ _ Ha1 H2) as Ha2.
  pose proof (upd_trans _ _ _ H1 H2) as H12. pose proof (upd_inert _ _ H12) as Hi2.
  assert (kexhashbuf s2 = Some kb) as Hkb2 by (destruct H12 as (p & -> & _); done). clear Ha1 H1 H2 Ha Hkb H12 s1.
  destruct (an_neg _ _ Ha2) as (_ & _ & kx & Hkx). rewrite Hkx. cbn [the obind].
  set (Q := fun s' : kses => answering nk s' /\ (exists h sid, hash s' = Some h /\ session_id s' = Some sid) /\ inert s s').
  apply (opost_bind Q).
  - assert (Hput : forall s3 f, keeps f -> Q s3 -> opost Q (wp f s3)).
    { intros s3 f Hf (Ha & Hx & Hi). eapply opost_mono; [apply wp_ok; [apply Ha|done]|]. intros s' _ Hu. split; [by apply (answering_upd nk s3)|].
      split; [by destruct Hu as (p & -> & _)|]. by apply (inert_trans _ s3), upd_inert. }
    assert (Hq : forall s3, hashed s2 s3 -> Q s3).
    { intros s3 H3. destruct (answering_hashed nk s2 s3) as [? ?]; [done..|]. split_and!; [done|done|].
      apply (inert_trans _ s2); [done|]. by destruct H3 as (? & ? & ? & ? & ? & ->). }
    assert (Ho : opost Q
      (let* (field, s) := other_comb_key cfg kx q s2 in wp (fun b => buf_putstring b field (zlen field)) s)).
    { eapply opost_bind; [by apply (other_comb_key_ok _ _ _ nk kb)|]. intros [f s3] _ [H3 Hf]. apply Hput; [by apply keeps_putstring|by apply Hq]. }
    destruct (kex_mode kx); [|done..]. destruct (gen_kexdh_param cfg (dh_p kx)) as [priv pub].
    eapply opost_bind; [by apply (kexdh_comb_key_ok _ _ _ _ _ nk kb)|]. intros s3 _ H3. apply Hput; [apply keeps_putmpint|by apply Hq].
  - intros s3 _ (Ha3 & (h & sid & Hh & Hsid) & Hi3). rewrite Hh. cbn [the obind].
    eapply opost_bind; [apply wp_ok; [apply Ha3|apply keeps_putbytes, Hcfg]|]. intros s4 _ H4. pose proof (answering_upd _ _ _ Ha3 H4) as Ha4.
    eapply opost_mono; [apply send_ok, Ha4|]. intros s5 _ H5. split; [by apply (answering_upd _ s4)|].
    pose proof (upd_trans _ _ _ H4 H5) as H45. split; [exists h, sid; by destruct H45 as (p & -> & _)|]. by apply (inert_trans _ s3), upd_inert.
Qed.

Lemma disable_sig_except_ok t l : table_ok l -> table_ok (disable_sig_except t l).
Proof.
  intros [Hf Hl]. split; [|by unfold disable_sig_except, zlen; rewrite length_map].
  unfold disable_sig_except. apply Forall_map. eapply Forall_impl; [exact Hf|]. intros a Ha. cbn. by destruct (_ =? _).
Qed.

Lemma send_msg_ext_info_ok now (s : kses) ph : good ph s -> opost (fun s' => upd s s') (send_msg_ext_info now s).
Proof using S.
  intros [Hb [Hsig _ _] _]. unfold send_msg_ext_info.
  eapply opost_bind; [apply wp_ok; [done|by apply keeps_putbyte]|]. intros s1 _ H1. pose proof (upd_base _ _ H1) as Hb1.
  eapply opost_bind; [apply wp_ok; [done|apply keeps_putint]|]. intros s2 _ H2. pose proof (upd_base _ _ H2) as Hb2.
  eapply opost_bind; [apply wp_ok; [done|apply keeps_putstring; by apply bytes_check]|]. intros s3 _ H3. pose proof (upd_base _ _ H3) as Hb3.
  pose proof (upd_trans _ _ _ (upd_trans _ _ _ H1 H2) H3) as H13.
  assert (sigalgs s3 = sigalgs s) as -> by (by destruct H13 as (p & -> & _)).
  eapply opost_bind; [apply wp_ok; [done|by apply keeps_put_algolist_all]|]. intros s4 _ H4. pose proof (upd_base _ _ H4) as Hb4.
  eapply opost_mono; [by apply send_ok|]. intros s5 _ H5. by apply (upd_trans _ s4), H5; apply (upd_trans _ s3).
Qed.

(** The value of the client, read from the packet. *)
Lemma kexdh_value_ok kx (s : kses) : base (pk s) -> opost (fun '(_, _, s') => upd s s')
  (match kex_mode (HD := HD) kx with
   | DROPBEAR_KEX_NORMAL_DH => let* (mp, s) := rp buf_getmpint s in let* e := need mp "Bad kex value" in Ok (e, [], s)
   | _ => let* (q, s) := rp buf_getstringbuf s in let* bs := mem_read (buf_data q) 0 (buf_len q) in Ok (0, bs, s)
   end).
Proof.
  intros Hb.
  assert (Hq : opost (fun '(_, _, s') => upd s s')
    (let* (q, s) := rp buf_getstringbuf s in let* bs := mem_read (buf_data q) 0 (buf_len q) in Ok (0, bs, s))).
  { eapply opost_bind; [apply (rp_ok wf); [done|]|].
    - intros b Hw. eapply opost_mono; [by apply buf_getstringbuf_int_post|]. intros [q b'] _. tauto.
    - intros [q s'] _ [Hu Hw]. eapply opost_bind; [by apply buf_contents_post|]. done. }
  destruct (kex_mode kx); [|exact Hq..].
  eapply opost_bind; [apply (rp_ok (fun _ => True)); [done|]|].
  - intros b Hw. eapply opost_mono; [by apply buf_getmpint_post|]. intros [v b'] _. tauto.
  - intros [v s'] _ [Hu _]. eapply opost_bind; [by apply (need_ok (fun _ => True)); destruct v|]. done.
Qed.

Lemma recv_msg_kexdh_init_ok now s ph : good ph s -> ph <> Dhed ->
  opost (fun s' => good Dhed s' /\ requirenext s' = SSH_MSG_NEWKEYS /\ inert s s') (recv_msg_kexdh_init cfg now s).
Proof using Hcfg S.
  intros [Hb Ht [Hrn Hp]] Hne. unfold recv_msg_kexdh_init. destruct ph; [| | |done]; cbn in Hp.
  1, 2: assert (recvkexinit s = false) as -> by tauto; done.
  destruct Hp as (H1 & H2 & _ & (nk & Hnk & Hneg) & kb & Hkb & Hw). rewrite H2. cbn [negb exit_if obind]. rewrite Hnk. cbn [the obind].
  destruct (Hneg) as (_ & _ & kx & Hkx). rewrite Hkx. cbn [the obind].
  eapply opost_bind; [by apply kexdh_value_ok|]. intros [[e q] s1] _ Hu. destruct (base_payload _ (upd_base _ _ Hu)) as (pl & Hpl & _).
  rewrite Hpl. cbn [the obind]. eapply opost_bind; [apply exit_if_post|]. intros [] _ _.
  assert (Ha : answering nk s1) by (apply (answering_upd nk s); [by split|done]).
  assert (Hkb1 : kexhashbuf s1 = Some kb) by (by destruct Hu as (p & -> & _)).
  eapply opost_bind; [by apply (send_msg_kexdh_reply_ok _ _ _ _ nk kb)|]. intros s2 _ (Ha2 & (h & sid & Hh & Hsid) & Hi2).
  eapply opost_bind; [by apply (send_msg_newkeys_ok _ _ nk h sid)|]. intros s3 _ (Hg3 & (nk3 & Hnk3) & Hi3).
  assert (Hi : inert s s3) by (apply (inert_trans _ s1); [by apply upd_inert|]; by apply (inert_trans _ s2)). clear Hi2 Hi3.
  apply (opost_bind (fun s' => (good Dhed s' /\ inert s s') /\ newkeys s' = Some nk3)).
  { destruct (negb (donesecondkex s3) && allow_ext_info s3); [|done]. eapply opost_mono; [by eapply send_msg_ext_info_ok|].
    intros s4 _ H4. split; [split; [by apply (good_upd _ s3)|by apply (inert_trans _ s3), upd_inert]|]. by destruct H4 as (p & -> & _). }
  intros s4 _ [[Hg4 Hi4] Hnk4]. apply (opost_bind (fun s' => good Dhed s' /\ inert s s')).
  { destruct (negb (donesecondkex s4)); [|done]. rewrite Hnk4. cbn. destruct Hg4 as [? [? ? ?] Hp4].
    split; [|exact Hi4]. split; [done|split; [by apply disable_sig_except_ok|done..]|exact Hp4]. }
  intros s5 _ [[? [] Hp5] Hi5]. cbn. split; [|by split]. split; [done|by split|exact Hp5].
Qed.

(** ** Dispatch *)

(** The handlers of the other packet types: they take part in no exchange. *)
Context (handlers : Z -> option (Z -> kses -> outcome kses)).

Definition handlers_ok : Prop := forall type h now s ph, handlers type = Some h -> good ph s ->
  opost (fun s' => good ph s' /\ requirenext s' = requirenext s) (h now s).

Context (Hh : handlers_ok).

(** The session between two packets. *)
Record sess (ph : phase) (s : kses) : Prop := {
  ss_pk : pk_ok (pk s);
  ss_payload : payload (pk s) = None;
  ss_tables : tables_ok s;
  ss_phase : at_phase ph s;
  ss_expects : expects ph (requirenext s);
}.

Lemma packet_out_ok t (s : kses) ph : good ph s -> expects ph (requirenext s) -> sess ph (packet_out t s).
Proof. intros [[[] ? ? ?] [] Hp] He. split; [by split|done|by split|exact Hp|exact He]. Qed.

Lemma recv_unimplemented_ok now (s : kses) : base (pk s) -> opost (upd s) (recv_unimplemented now s).
Proof using S.
  intros Hb. unfold recv_unimplemented.
  eapply opost_bind; [apply wp_ok; [done|by apply keeps_putbyte]|]. intros s1 _ H1. pose proof (upd_base _ _ H1) as Hb1.
  eapply opost_bind; [apply wp_ok; [done|apply keeps_putint]|]. intros s2 _ H2. pose proof (upd_base _ _ H2) as Hb2.
  eapply opost_mono; [by apply send_ok|]. intros s3 _ H3. by apply (upd_trans _ s2), H3; apply (upd_trans _ s1).
Qed.

(** Between the KEXINITs only the next packet of the exchange gets to a handler. *)
Definition may_dispatch (ph : phase) (type : Z) : Prop :=
  match ph with Idle | Sent => True | Kexed => type = SSH_MSG_KEXDH_INIT | Dhed => type = SSH_MSG_NEWKEYS end.

Lemma dispatch_ok now type s ph : good ph s -> requirenext s = 0 -> may_dispatch ph type ->
  opost (fun s' => exists ph', good ph' s' /\ expects ph' (requirenext s')) (dispatch cfg handlers now type s).
Proof using Hcfg Hh S.
  intros Hg Hr Hm. unfold dispatch. eapply opost_bind; [apply exit_if_post|]. intros [] _ _. unfold packettype.
  destruct (Z.eqb_spec type SSH_MSG_KEXINIT) as [->|H1].
  { eapply opost_mono; [by eapply recv_msg_kexinit_ok|]. intros s' _ (? & -> & _). by exists Kexed. }
  destruct (Z.eqb_spec type SSH_MSG_KEXDH_INIT) as [->|H2].
  { eapply opost_mono; [eapply recv_msg_kexdh_init_ok; [done|by intros ->]|]. intros s' _ (? & -> & _). by exists Dhed. }
  destruct (Z.eqb_spec type SSH_MSG_NEWKEYS) as [->|H3].
  { eapply opost_mono; [eapply recv_msg_newkeys_ok; [done|by intros ->]|]. intros s' _ (? & Hq & _). exists Idle. split; [done|]. left. congruence. }
  assert (He : expects ph 0) by (destruct ph; cbn in *; [by left|by left|done|done]).
  destruct (type =? 0).
  { eapply opost_mono; [apply recv_unimplemented_ok, Hg|]. intros s' _ Hu. exists ph. split; [by apply (good_upd _ s)|].
    destruct Hu as (p & -> & _). cbn. by rewrite Hr. }
  destruct (handlers type) as [h|] eqn:E.
  - eapply opost_mono; [by eapply Hh|]. intros s' _ [Hg' Hq]. exists ph. by rewrite Hq, Hr.
  - eapply opost_mono; [apply recv_unimplemented_ok, Hg|]. intros s' _ Hu. exists ph. split; [by apply (good_upd _ s)|].
    destruct Hu as (p & -> & _). cbn. by rewrite Hr.
Qed.

Lemma good_idle_time now (s : kses) ph : good ph s -> good ph (put_pk (set_last_packet_time_idle now (pk s)) s).
Proof. intros [[[] ? ? ?] [] Hp]. split; [by split|by split|exact Hp]. Qed.

Lemma process_packet_ok now s ph : good ph s -> expects ph (requirenext s) ->
  opost (fun s' => exists ph', sess ph' s') (process_packet cfg handlers now s).
Proof using Hcfg Hh S.
  intros Hg He. unfold process_packet.
  eapply opost_bind; [apply (rp_ok (fun _ => True)); [apply Hg|]|].
  { intros b Hw. eapply opost_mono; [by apply buf_getbyte_post|]. intros [v b'] _. tauto. }
  intros [type s1] _ [H1 _]. assert (Hs1 : good ph s1 /\ requirenext s1 = requirenext s) by (split; [by apply (good_upd _ s)|by destruct H1 as (p & -> & _)]).
  set (first_strict_kex := strict_kex s && negb (recvfirstnewkeys s)). clearbody first_strict_kex. clear H1 Hg.
  destruct Hs1 as [Hg Hr]. rewrite <- Hr in He. clear Hr s.
  set (s2 := put_keepalive_recv now s1). assert (Hs2 : good ph s2 /\ expects ph (requirenext s2)) by (split; [regood Hg|exact He]).
  clearbody s2. destruct Hs2 as [Hg2 He2]. clear Hg He s1.
  destruct (type =? SSH_MSG_DISCONNECT); [done|]. destruct (_ && _); [cbn; exists ph; by apply packet_out_ok|].
  set (s3 := if _ : bool then s2 else _). assert (Hs3 : good ph s3 /\ requirenext s3 = requirenext s2).
  { unfold s3. destruct (_ || _); [done|]. split; [by apply good_idle_time|done]. }
  clearbody s3. destruct Hs3 as [Hg3 Hr3]. rewrite <- Hr3 in He2. clear Hr3 Hg2 s2.
  destruct (negb (requirenext s3 =? 0) && negb (requirenext s3 =? type)) eqn:Ereq.
  { match goal with |- context [if ?c then _ else _] => destruct c end; [|done]. eapply opost_bind; [apply recv_unimplemented_ok, Hg3|]. intros s4 _ Hu. exists ph. apply packet_out_ok; [by apply (good_upd _ s3)|].
    by destruct Hu as (p & -> & _). }
  destruct (ignorenext s3). { exists ph. apply packet_out_ok; [|done]. regood Hg3. }
  set (s4 := if _ : bool then put_requirenext 0 s3 else s3).
  assert (Hs4 : good ph s4 /\ requirenext s4 = 0 /\ may_dispatch ph type).
  { unfold s4. destruct (Z.eqb_spec (requirenext s3) 0) as [E0|E0]; cbn [negb andb] in *.
    - split_and!; [done|done|]. rewrite E0 in He2. by destruct ph.
    - destruct (Z.eqb_spec (requirenext s3) type) as [Et|]; [|done]. split_and!; [|done|].
      + regood Hg3.
      + rewrite Et in He2. by destruct ph. }
  clearbody s4. destruct Hs4 as (Hg4 & Hr4 & Hm). eapply opost_bind; [by eapply dispatch_ok|].
  intros s5 _ (ph' & Hg5 & He5). exists ph'. by apply packet_out_ok.
Qed.
End session.
