(* ===== verification/KexLoop.v ===== *)
(** * The session loop

    The loop of common-session.c, for the parts modelled: the socket is read and a complete
    packet is processed, a key exchange is started, replies held back are flushed, other
    code sends packets, and the write queue goes to the socket.  The theorems of the key
    exchange are stated on it. *)

From S2P Require Import Prelude Bytes Buffer Packet Transport PacketQueues PacketSafety Algo Kex KexSafety KexSession.

Section arrival.
Context {CS ZS : Type} {C : Crypto CS ZS}.
Implicit Types s : pktses CS ZS.

(** A packet has been decrypted. *)
Definition arrived s s' : Prop :=
  readbuf s' = None /\ 0 <= payload_beginning s' /\ (exists pl, payload s' = Some pl) /\ recvseq s' = u32 (recvseq s + 1).

Lemma decrypt_packet_arrived s s' : decrypt_packet s = Ok s' -> arrived s s'.
Proof.
  intros H. unfold decrypt_packet in H. destruct (readbuf s) as [rb|]; [|done].
  apply obind_Ok in H as ([rb1 k] & _ & H). apply obind_Ok in H as (rb2 & _ & H). apply obind_Ok in H as ([padlen rb3] & _ & H).
  apply obind_Ok in H as ([] & _ & H). apply obind_Ok in H as (rb4 & H4 & H). apply obind_Ok in H as (s5 & H5 & H). injection H as <-.
  split; [done|]. cbn. destruct (is_compress_recv _).
  - apply obind_Ok in H5 as ([pl z] & _ & H5). apply obind_Ok in H5 as (pl' & _ & H5). injection H5 as <-. cbn. split_and!; [lia|by eexists|done].
  - apply obind_Ok in H5 as (pl & _ & H5). injection H5 as <-. cbn. unfold buf_setpos in H4. apply obind_Ok in H4 as ([] & _ & H4).
    injection H4 as <-. split_and!; [done|by eexists|done].
Qed.

Lemma read_packet_init_payload {SK} (rd : SK -> Z -> read_res * SK) junk sk s go s' sk' :
  read_packet_init rd junk sk s = Ok (go, s', sk') ->
  payload s' = payload s /\ recvseq s' = recvseq s.
Proof.
  intros H. unfold read_packet_init in H. apply obind_Ok in H as (rb & _ & H). apply obind_Ok in H as (p & _ & H).
  destruct (rd sk _) as [[[|c bs]| |] sk1]; try done; [|by injection H as <- <- <-].
  apply obind_Ok in H as (rb1 & _ & H). apply obind_Ok in H as (rb2 & _ & H). destruct (negb _); [by injection H as <- <- <-|].
  apply obind_Ok in H as (rb3 & _ & H). apply obind_Ok in H as ([[[len plen] rb4] k] & _ & H). apply obind_Ok in H as ([] & _ & H).
  apply obind_Ok in H as (rb5 & _ & H). apply obind_Ok in H as (rb6 & _ & H). apply obind_Ok in H as (rb7 & _ & H). by injection H as <- <- <-.
Qed.

Lemma read_packet_payload {SK} (rd : SK -> Z -> read_res * SK) junk sk s s' sk' :
  read_packet rd junk sk s = Ok (s', sk') -> payload s = None ->
  (payload s' = None /\ recvseq s' = recvseq s) \/ arrived s s'.
Proof.
  intros H Hp. unfold read_packet in H. apply obind_Ok in H as ([[go s1] sk1] & H1 & H).
  assert (Hp1 : payload s1 = None /\ recvseq s1 = recvseq s).
  { destruct (readbuf s) as [rb|]; [destruct (buf_len rb <? _)|]; [by apply read_packet_init_payload in H1 as [-> ->]|by injection H1 as <- <- <-|
      by apply read_packet_init_payload in H1 as [-> ->]]. }
  destruct (negb go); [left; by injection H as <- <-|]. destruct (readbuf s1) as [rb|]; [|done].
  destruct (_ =? 0).
  - apply obind_Ok in H as (s2 & H2 & H). injection H as <- <-. right. apply decrypt_packet_arrived in H2. destruct H2 as (? & ? & ? & Hq), Hp1 as [_ E]. cbn in Hq. rewrite E in Hq. by split_and!.
  - apply obind_Ok in H as (p & _ & H). destruct (rd sk1 _) as [[[|c bs]| |] sk2]; try done; [|left; by injection H as <- <-].
    apply obind_Ok in H as (rb1 & _ & H). apply obind_Ok in H as (rb2 & _ & H).
    destruct (_ =? _); [|left; by injection H as <- <-].
    apply obind_Ok in H as (s2 & H2 & H). injection H as <- <-. right. apply decrypt_packet_arrived in H2. destruct H2 as (? & ? & ? & Hq), Hp1 as [_ E]. cbn in Hq. rewrite E in Hq. by split_and!.
Qed.
End arrival.

Section loop.
Context {CS ZS HD HS : Type} {C : Crypto CS ZS} {K : KexLib (CS := CS) (ZS := ZS) (HD := HD) (HS := HS)}.
Context (cfg : config (CS := CS) (HD := HD)).

Abbreviation pktses := (pktses CS ZS).
Abbreviation kses := (kses (CS := CS) (ZS := ZS) (HD := HD)).

Context (handlers : Z -> option (Z -> kses -> outcome kses)).

(** ** The loop *)

Inductive kev :=
| KRead (bs : option bytes) (now : Z)  (* the socket is readable *)
| KRekey (now : Z)                     (* the session starts, or a timeout asks for new keys *)
| KSend (p : bytes) (now : Z)          (* other code fills writepayload and sends it *)
| KFlush (now : Z)
| KWrite (n : Z).

Definition kev_ok (e : kev) : Prop :=
  match e with KRead (Some bs) _ | KSend bs _ => bytes_ok bs | KWrite n => 0 <= n | _ => True end.

(** What the code does for an event; [junk] is what [realloc] leaves in a grown buffer. *)
Definition run_kev (junk : nat -> Z) (e : kev) (s : kses) : outcome kses :=
  match e with
  | KRead bs now =>
      let* p := run_pk_event junk (EvRead bs) (pk s) in
      let s := put_pk p s in
      match payload p with None => Ok s | Some _ => process_packet cfg handlers now s end
  | KRekey now => if sentkexinit s then Ok s else send_msg_kexinit cfg now s
  | KSend p now => let* p := run_pk_event junk (EvSend p now) (pk s) in Ok (put_pk p s)
  | KFlush now => let* p := run_pk_event junk (EvFlush now) (pk s) in Ok (put_pk p s)
  | KWrite n => let* p := run_pk_event junk (EvWrite n) (pk s) in Ok (put_pk p s)
  end.

Fixpoint run_kevs (junk : nat -> Z) (es : list kev) (s : kses) : outcome kses :=
  match es with
  | [] => Ok s
  | e :: es => let* s := run_kev junk e s in run_kevs junk es s
  end.

(** ** Its invariant *)

Context {S : CryptoSane C} (Hcfg : cfg_ok cfg) (Hh : handlers_ok handlers).

Lemma sess_pk ph (s : kses) p : sess ph s -> pk_ok p -> payload p = None -> sess ph (put_pk p s).
Proof. intros [? ? [] Hp He] Hok Hpl. split; [done|done|by split|exact Hp|exact He]. Qed.

(** Sending leaves the receiving side alone. *)
Lemma flush_replies_same now q : forall s s' : pktses, flush_replies now q s = Ok s' -> same_recv s s'.
Proof.
  induction q as [|pl q IH]; intros s s' H; cbn [flush_replies] in H; [by injection H as <-|].
  apply obind_Ok in H as (d & _ & H). apply obind_Ok in H as (wp & _ & H). apply obind_Ok in H as (s1 & H1 & H).
  apply IH in H. apply encrypt_packet_same in H1. destruct H, H1. split; cbn in *; congruence.
Qed.

Definition quiet (e : pk_event) : Prop := match e with EvSend _ _ | EvFlush _ | EvWrite _ => True | _ => False end.

Lemma quiet_same junk e (s s' : pktses) : quiet e -> run_pk_event junk e s = Ok s' -> same_recv s s'.
Proof.
  destruct e as [?|p now|n| |?|now]; intros Hq H; try done; cbn [run_pk_event] in H.
  - apply obind_Ok in H as (wp & _ & H). apply encrypt_packet_same in H as []. by split.
  - destruct (writequeue s) eqn:E; [by injection H as <-|]. unfold write_packet in H. apply obind_Ok in H as ([] & _ & H).
    apply obind_Ok in H as (iov & _ & H). apply obind_Ok in H as (q & _ & H). destruct (_ =? 0); [done|]. by injection H as <-.
  - unfold maybe_flush_reply_queue in H. destruct (negb _); [by injection H as <-|]. apply obind_Ok in H as (s1 & H1 & H).
    injection H as <-. apply flush_replies_same in H1 as []. by split.
Qed.

Lemma quiet_ok junk e (s : kses) ph : (forall i, is_byte (junk i)) -> event_ok e -> quiet e -> sess ph s ->
  opost (fun s' => exists ph', sess ph' s') (let* p := run_pk_event junk e (pk s) in Ok (put_pk p s)).
Proof using S.
  intros Hj He Hq Hs. eapply opost_bind.
  { eapply opost_mono; [apply run_pk_event_safe; [done|done|apply Hs]|]. intros p Hr Hok. exact (conj Hr Hok). }
  intros p _ [Hr Hok]. cbn. exists ph. apply sess_pk; [done|done|]. rewrite (sr_payload _ _ (quiet_same _ _ _ _ Hq Hr)). apply Hs.
Qed.

Lemma run_kev_ok junk e (s : kses) ph : (forall i, is_byte (junk i)) -> kev_ok e -> sess ph s ->
  opost (fun s' => exists ph', sess ph' s') (run_kev junk e s).
Proof using Hcfg Hh S.
  intros Hj He Hs. destruct e as [bs now|now|p now|now|n]; cbn [run_kev].
  - eapply opost_bind.
    { eapply opost_mono; [apply (run_pk_event_safe junk (EvRead bs)); [done|done|apply Hs]|]. intros p Hr Hok. exact (conj Hr Hok). }
    intros p _ [Hr Hok]. cbn [run_pk_event] in Hr. apply obind_Ok in Hr as ([p' sk] & Hr & [= ->]).
    apply read_packet_payload in Hr as [[Hpl _]|(Hrb & Hbg & [pl Hpl] & _)]; [| |apply Hs].
    + rewrite Hpl. exists ph. by apply sess_pk.
    + rewrite Hpl. destruct Hs as [_ _ [] Hp Hx]. apply (process_packet_ok _ Hcfg _ Hh _ _ ph); [|exact Hx].
      split; [by split; [..|exists pl|]|by split|exact Hp].
  - destruct (sentkexinit s) eqn:E; [by exists ph|]. destruct Hs as [Hok Hpl Ht [Hrn Hp] Hx].
    eapply opost_mono; [by apply send_msg_kexinit_ok0|]. intros s' _ (p & tk & -> & Hok' & Hsr & Hw). exists Sent.
    split; [done|destruct Hsr as [_ E' _ _ _ _]; cbn; congruence|by destruct Ht| |].
    + split; [done|]. destruct ph; cbn in Hp; [|exfalso; destruct Hp; congruence..]. cbn. destruct Hp as (_ & -> & ->). split_and!; eauto.
    + destruct ph; cbn in Hp; [exact Hx|exfalso; destruct Hp; congruence..].
  - by eapply (quiet_ok junk (EvSend p now)).
  - by eapply (quiet_ok junk (EvFlush now)).
  - by eapply (quiet_ok junk (EvWrite n)).
Qed.

(** C3: whatever the peer sends, in whatever pieces, and whatever the rest of the server does
    in between, the key exchange follows no null pointer, stays inside its buffers and keeps
    its invariant: the session is in one of the four states of the exchange, it holds the
    buffers and keys that state needs, and the only packet it then takes is the next of
    KEXINIT, KEXDH_INIT, NEWKEYS.  The only other outcome is one of the exits of the code. *)
Theorem kex_session_safe junk es (s : kses) ph :
  (forall i, is_byte (junk i)) -> Forall kev_ok es -> sess ph s ->
  match run_kevs junk es s with Ok s' => exists ph', sess ph' s' | Exit _ => True | Undef => False end.
Proof using Hcfg Hh S.
  intros Hj Hes. revert ph s. induction Hes as [|e es He _ IH]; intros ph s Hs; [by exists ph|]. cbn [run_kevs].
  apply (opost_bind (fun s' => exists ph', sess ph' s') (fun s' => exists ph', sess ph' s')); [by apply (run_kev_ok _ _ _ ph)|].
  intros s' _ [ph' Hs']. by apply (IH ph').
Qed.
End loop.
