(* ===== verification/KexStrict.v ===== *)
(** * Strict key exchange, the authentication gate and the derivation of keys

    What the key exchange is for: with strict key exchange nothing but the packets of the
    exchange is taken before NEWKEYS, and NEWKEYS resets the sequence number; nothing past
    authentication is handled before it is done; and the keys are those of RFC 4253 section
    7.2. *)

From S2P Require Import Prelude Bytes Buffer Packet Transport PacketQueues PacketSafety Algo Kex KexSafety KexSession KexLoop.

(** [destr_if]: the cases of the first conditional of the goal. *)
Ltac destr_if := match goal with |- context [if ?c then _ else _] => destruct c end.

Section strict.
Context {CS ZS HD HS : Type} {C : Crypto CS ZS} {S : CryptoSane C} {K : KexLib (CS := CS) (ZS := ZS) (HD := HD) (HS := HS)}.
Context (cfg : config (CS := CS) (HD := HD)).

Abbreviation pktses := (pktses CS ZS).
Abbreviation kses := (kses (CS := CS) (ZS := ZS) (HD := HD)).

Context (handlers : Z -> option (Z -> kses -> outcome kses)).

(** ** One packet, functionally *)

Lemma wp_Ok f (s s' : kses) : wp f s = Ok s' -> exists p, s' = put_pk p s /\ same_recv (pk s) p.
Proof. unfold wp. intros H. apply obind_Ok in H as (b & _ & [= <-]). eexists. by split. Qed.

Lemma send_Ok now (s s' : kses) : send now s = Ok s' -> exists p, s' = put_pk p s /\ same_recv (pk s) p.
Proof. unfold send. intros H. apply obind_Ok in H as (p & Hp & [= <-]). exists p. split; [done|]. by apply encrypt_packet_same in Hp. Qed.

(** The fields that decide what is taken next. *)
Definition keep (s s' : kses) : Prop :=
  inert s s' /\ requirenext s' = requirenext s /\ donefirstkex s' = donefirstkex s.

Lemma recv_unimplemented_keep now (s s' : kses) : recv_unimplemented now s = Ok s' -> keep s s'.
Proof.
  unfold recv_unimplemented. intros H. apply obind_Ok in H as (s1 & (p1 & -> & [])%wp_Ok & H).
  apply obind_Ok in H as (s2 & (p2 & -> & [])%wp_Ok & H). apply send_Ok in H as (p3 & -> & []). cbn in *.
  unfold keep, inert. cbn. split_and!; congruence.
Qed.

Definition kex_packet (t : Z) : Prop := t = SSH_MSG_KEXINIT \/ t = SSH_MSG_KEXDH_INIT \/ t = SSH_MSG_NEWKEYS.

(** What processing a packet does while one of the exchange is required. *)
Inductive taken (now : Z) (s s' : kses) : Prop :=
| TakenOther : lastpacket s' <> requirenext s -> strict_kex s && negb (recvfirstnewkeys s) = false -> keep s s' -> taken now s s'
| TakenIgnored : lastpacket s' = requirenext s -> ignorenext s = true -> keep (put_ignorenext false s) s' -> taken now s s'
| TakenHandled s2 s5 : lastpacket s' = requirenext s -> ignorenext s = false -> keep (put_requirenext 0 s) s2 ->
    (forall ph, good ph s -> good ph s2) -> dispatch cfg handlers now (requirenext s) s2 = Ok s5 -> s' = packet_out (requirenext s) s5 ->
    taken now s s'.

Lemma process_packet_taken now (s s' : kses) : kex_packet (requirenext s) -> process_packet cfg handlers now s = Ok s' -> taken now s s'.
Proof.
  intros Hk H. unfold process_packet in H. apply obind_Ok in H as ([type s1] & H1 & H). unfold rp in H1.
  destruct (payload (pk s)) as [pl|] eqn:Epl; [|done]. cbn [the obind] in H1. apply obind_Ok in H1 as ([v b] & Hb & [= -> <-]).
  assert (Hw : forall ph, good ph s -> good ph (put_pk (set_payload (Some b) (pk s)) s)).
  { intros ph [[[] Hr ? ?] [] Hp]. split; [|by split|exact Hp]. split; cbn; try done; [|by eexists]. split; cbn; try done.
    assert (Hpl : wf pl) by (by rewrite Epl in *). pose proof (buf_getbyte_post pl Hpl) as Hpost. rewrite Hb in Hpost. cbn in Hpost. tauto. }
  set (s1 := put_pk _ s) in *. assert (K1 : keep s s1) by done. clearbody s1.
  set (s2 := put_keepalive_recv now s1) in *.
  assert (G2 : forall ph, good ph s -> good ph s2). { intros ph Hg. apply Hw in Hg. regood Hg. }
  assert (K2 : keep s s2) by exact K1. clearbody s2. clear K1 Hw s1 Hb b Epl pl.
  destruct (Z.eqb_spec type SSH_MSG_DISCONNECT); [done|].
  destruct (negb (strict_kex s && negb (recvfirstnewkeys s)) && _) eqn:Eig.
  { injection H as <-. apply andb_true_iff in Eig as [E1 E2]. apply TakenOther; [|by apply negb_true_iff|exact K2].
    cbn. intros Et. rewrite Et in E2. by destruct Hk as [E|[E|E]]; rewrite E in E2. }
  set (s3 := if _ : bool then s2 else _) in H.
  assert (G3 : forall ph, good ph s -> good ph s3).
  { intros ph Hg. unfold s3. destr_if; [by apply G2|]. by apply good_idle_time, G2. }
  assert (K3 : keep s s3) by (unfold s3; by destr_if). clearbody s3. clear K2 G2 s2.
  pose proof K3 as ((_ & _ & _ & Hi) & Hr & _). rewrite Hr, Hi in H.
  assert (requirenext s <> 0) by (intros E; rewrite E in Hk; by destruct Hk as [?|[?|?]]).
  rewrite (proj2 (Z.eqb_neq _ _)) in H by done. cbn [negb andb] in H.
  destruct (Z.eqb_spec (requirenext s) type) as [Et|Et]; cbn [negb] in H.
  - destruct (ignorenext s) eqn:Eig2.
    + injection H as <-. apply TakenIgnored; [by rewrite Et|done|]. destruct K3 as ((? & ? & ? & ?) & ? & ?). by split_and!.
    + apply obind_Ok in H as (s5 & H5 & [= <-]). rewrite Et in *. eapply (TakenHandled _ _ _ (put_requirenext 0 s3) s5); try done.
      * destruct K3 as ((? & ? & ? & ?) & ? & ?). split_and!; done.
      * intros ph Hg. apply G3 in Hg. regood Hg.
      * by rewrite Et.
      * by rewrite Et.
  - match type of H with (if ?c then _ else _) = _ => destruct c eqn:Ec end; [|done].
    apply obind_Ok in H as (s4 & H4 & [= <-]). apply recv_unimplemented_keep in H4. apply TakenOther; [cbn; congruence| |].
    + apply andb_true_iff in Ec as [_ Ec]. by apply negb_true_iff in Ec.
    + destruct K3 as ((? & ? & ? & ?) & ? & ?), H4 as ((? & ? & ? & ?) & ? & ?). unfold keep, inert. cbn. split_and!; congruence.
Qed.

(** ** The first exchange *)

Context (Hcfg : cfg_ok cfg) (Hh : handlers_ok handlers) (junk : nat -> Z) (Hj : forall i, is_byte (junk i)).

(** A session that has just started. *)
Record fresh (s : kses) : Prop := {
  fr_sess : sess Idle s;
  fr_requirenext : requirenext s = SSH_MSG_KEXINIT;
  fr_recvseq : recvseq (pk s) = 0;
  fr_strict : strict_kex s = false;
  fr_newkeys : recvfirstnewkeys s = false;
  fr_done : donefirstkex s = false;
  fr_ignore : ignorenext s = false;
}.

(** The types of the packets an event made the session process. *)
Definition processed (e : kev) (s s' : kses) : list Z :=
  match e with
  | KRead bs _ =>
      match run_pk_event junk (EvRead bs) (pk s) with
      | Ok p => match payload p with Some _ => [lastpacket s'] | None => [] end
      | _ => []
      end
  | _ => []
  end.

(** The session up to its first NEWKEYS, with the types of the packets processed. *)
Inductive handshake : list Z -> kses -> Prop :=
| HandshakeStart s : fresh s -> handshake [] s
| HandshakeStep ts s e s' : handshake ts s -> recvfirstnewkeys s = false -> kev_ok e -> run_kev cfg handlers junk e s = Ok s' ->
    handshake (ts ++ processed e s s') s'.

(** What has been taken and what is awaited. *)
Definition awaits (ts : list Z) (s : kses) : Prop :=
  (requirenext s = SSH_MSG_KEXINIT /\ strict_kex s = false /\ donefirstkex s = false /\ ignorenext s = false /\ recvseq (pk s) = u32 (zlen ts)) \/
  (requirenext s = SSH_MSG_KEXDH_INIT /\
    (strict_kex s = true -> ts = [SSH_MSG_KEXINIT] \/ (ts = [SSH_MSG_KEXINIT; SSH_MSG_KEXDH_INIT] /\ ignorenext s = false))) \/
  (requirenext s = SSH_MSG_NEWKEYS /\ ignorenext s = false /\
    (strict_kex s = true -> ts = [SSH_MSG_KEXINIT; SSH_MSG_KEXDH_INIT] \/ ts = [SSH_MSG_KEXINIT; SSH_MSG_KEXDH_INIT; SSH_MSG_KEXDH_INIT])).

Definition finished (ts : list Z) (s : kses) : Prop :=
  strict_kex s = true -> recvseq (pk s) = 0 /\
    (ts = [SSH_MSG_KEXINIT; SSH_MSG_KEXDH_INIT; SSH_MSG_NEWKEYS] \/
     ts = [SSH_MSG_KEXINIT; SSH_MSG_KEXDH_INIT; SSH_MSG_KEXDH_INIT; SSH_MSG_NEWKEYS]).

(** The state once a packet has arrived. *)
Definition awaits_packet (ts : list Z) (s s0 : kses) : Prop :=
  awaits ts (put_pk (set_recvseq (recvseq (pk s0)) (pk s)) s) /\ recvseq (pk s) = u32 (recvseq (pk s0) + 1).

Lemma taken_awaits ts now (s0 s s' : kses) ph : zlen ts < 4294967295 -> good ph s -> expects ph (requirenext s) -> recvfirstnewkeys s = false ->
  awaits_packet ts s s0 -> taken now s s' ->
  let ts' := ts ++ [lastpacket s'] in
  (recvfirstnewkeys s' = false /\ awaits ts' s') \/ (recvfirstnewkeys s' = true /\ finished ts' s').
Proof using Hcfg S.
  intros Hlen Hg He Hrf [Ha Hseq] Ht ts'. pose proof (zlen_nonneg ts). destruct Ha as [(A1 & A2 & A3 & A4 & A5)|[(A1 & A2)|(A1 & A2 & A3)]]; cbn in *.
  - rewrite A5 in Hseq. rewrite (u32_small (zlen ts)) in Hseq by lia.
    destruct Ht as [Hl Hs ((K1 & K2 & K3 & K4) & K5 & K6)|? ? |s2 s5 Hl Hi ((K1 & K2 & K3 & K4) & K5 & K6) Hgd Hd ->]; [| |].
    + left. split; [congruence|]. left. split_and!; try congruence. rewrite K3, Hseq. unfold ts'. by rewrite zlen_app.
    + congruence.
    + rewrite A1 in Hd. unfold dispatch in Hd. apply obind_Ok in Hd as ([] & _ & Hd). cbn in Hd.
      pose proof (recv_msg_kexinit_ok cfg Hcfg now s2 ph (Hgd _ Hg)) as Hpost. rewrite Hd in Hpost. cbn in Hpost, K1, K2, K3, K4, K5, K6.
      destruct Hpost as (_ & P1 & P2 & P3 & P4). left. cbn. split; [congruence|]. right; left. cbn. split; [done|]. intros Hst. left.
      specialize (P4 Hst ltac:(congruence)). rewrite K3, Hseq, u32_small in P4 by lia.
      unfold ts'. cbn. rewrite A1. destruct ts; [done|]. rewrite zlen_cons in P4. pose proof (zlen_nonneg ts). lia.
  - destruct Ht as [Hl Hs ((K1 & K2 & K3 & K4) & K5 & K6)|Hl Hi ((K1 & K2 & K3 & K4) & K5 & K6)|s2 s5 Hl Hi ((K1 & K2 & K3 & K4) & K5 & K6) Hgd Hd ->].
    + left. split; [congruence|]. right; left. split; [congruence|]. intros Hst. rewrite K1 in Hst. by rewrite Hst, Hrf in Hs.
    + cbn in *. left. split; [congruence|]. right; left. split; [congruence|]. intros Hst. right. split; [|done].
      destruct A2 as [->|[_ E]]; [congruence| |congruence]. unfold ts'. by rewrite Hl, A1.
    + rewrite A1 in Hd. unfold dispatch in Hd. apply obind_Ok in Hd as ([] & _ & Hd). cbn in Hd.
      pose proof (recv_msg_kexdh_init_ok cfg Hcfg now s2 ph (Hgd _ Hg)) as Hpost. rewrite Hd in Hpost. cbn in Hpost, K1, K2, K3, K4, K5, K6.
      destruct Hpost as (_ & P1 & P2 & P3 & P4 & P5); [intros ->; cbn in He; rewrite A1 in He; done|].
      left. cbn. split; [congruence|]. right; right. cbn. split; [done|]. split; [congruence|]. intros Hst. unfold ts'. cbn. rewrite A1.
      destruct A2 as [->|[-> _]]; [congruence|by left|by right].
  - destruct Ht as [Hl Hs ((K1 & K2 & K3 & K4) & K5 & K6)|Hl Hi _|s2 s5 Hl Hi ((K1 & K2 & K3 & K4) & K5 & K6) Hgd Hd ->].
    + left. split; [congruence|]. right; right. split; [congruence|]. split; [congruence|]. intros Hst. rewrite K1 in Hst. by rewrite Hst, Hrf in Hs.
    + congruence.
    + rewrite A1 in Hd. unfold dispatch in Hd. apply obind_Ok in Hd as ([] & _ & Hd). cbn in Hd.
      pose proof (recv_msg_newkeys_ok now s2 ph (Hgd _ Hg)) as Hpost. rewrite Hd in Hpost. cbn in Hpost, K1.
      destruct Hpost as (_ & P1 & P2 & P3 & P4); [intros ->; cbn in He; rewrite A1 in He; done|]. rewrite K1 in P4.
      right. cbn. split; [done|]. intros Hst. cbn in Hst |- *. split; [by apply P2|]. unfold ts'. cbn. rewrite A1.
      destruct A3 as [->| ->]; [congruence|by left|by right].
Qed.

Lemma awaits_kex_packet ts s : awaits ts s -> kex_packet (requirenext s).
Proof. unfold kex_packet. intros [(-> & _)|[(-> & _)|(-> & _)]]; tauto. Qed.

(** Everything but the packet layer and the sending side of the exchange is the same. *)
Lemma awaits_out ts (s s' : kses) : awaits ts s -> requirenext s' = requirenext s -> strict_kex s' = strict_kex s ->
  donefirstkex s' = donefirstkex s -> ignorenext s' = ignorenext s -> recvseq (pk s') = recvseq (pk s) -> awaits ts s'.
Proof. unfold awaits. intros H -> -> -> -> ->. exact H. Qed.

Lemma handshake_step ts e (s s' : kses) ph : zlen ts < 4294967295 -> sess ph s -> recvfirstnewkeys s = false -> awaits ts s -> kev_ok e ->
  run_kev cfg handlers junk e s = Ok s' ->
  let ts' := ts ++ processed e s s' in
  (recvfirstnewkeys s' = false /\ awaits ts' s') \/ (recvfirstnewkeys s' = true /\ finished ts' s').
Proof using Hcfg Hh Hj S.
  intros Hlen Hs Hrf Ha He Hr.
  assert (Hquiet : forall e', event_ok e' -> quiet e' -> (let* p := run_pk_event junk e' (pk s) in Ok (put_pk p s)) = Ok s' ->
    recvfirstnewkeys s' = false /\ awaits (ts ++ []) s').
  { intros e' _ Hq H. apply obind_Ok in H as (p & H & [= <-]). apply quiet_same in H as []; [|done]. rewrite app_nil_r.
    split; [done|]. by apply (awaits_out ts s). }
  destruct e as [bs now|now|p now|now|n]; cbn [run_kev processed] in *; cbv zeta.
  - apply obind_Ok in Hr as (p & Hp & Hr). rewrite Hp. pose proof (run_pk_event_safe junk (EvRead bs) (pk s) Hj He (ss_pk _ _ Hs)) as Hok.
    rewrite Hp in Hok. cbn [opost] in Hok. cbn [run_pk_event] in Hp. apply obind_Ok in Hp as ([p' sk] & Hp & [= ->]).
    apply read_packet_payload in Hp as [[Hpl Hseq]|(Hrb & Hbg & [pl Hpl] & Hseq)]; [| |apply Hs].
    + rewrite Hpl in *. injection Hr as <-. rewrite app_nil_r. left. split; [done|]. by apply (awaits_out ts s).
    + rewrite Hpl in *. destruct Hs as [_ _ [] Hph Hx].
      apply (taken_awaits ts now s (put_pk p s) s' ph); [done| |exact Hx|done| |].
      * split; [by split; [..|exists pl|]|by split|exact Hph].
      * split; [|exact Hseq]. by apply (awaits_out ts s).
      * apply process_packet_taken; [|done]. by apply awaits_kex_packet in Ha.
  - left. rewrite app_nil_r. destruct (sentkexinit s) eqn:E; [injection Hr as <-; by split|]. destruct Hs as [Hok Hpl Ht _ _].
    pose proof (send_msg_kexinit_ok0 cfg Hcfg now s Hok Ht) as Hpost. rewrite Hr in Hpost. destruct Hpost as (p & tk & -> & _ & [] & _).
    split; [done|]. by apply (awaits_out ts s).
  - left. by apply (Hquiet (EvSend p now)).
  - left. by apply (Hquiet (EvFlush now)).
  - left. by apply (Hquiet (EvWrite n)).
Qed.

Lemma handshake_inv ts (s : kses) : handshake ts s -> zlen ts < 4294967295 ->
  (exists ph, sess ph s) /\ ((recvfirstnewkeys s = false /\ awaits ts s) \/ (recvfirstnewkeys s = true /\ finished ts s)).
Proof using Hcfg Hh Hj S.
  induction 1 as [s [H1 H2 H3 H4 H5 H6 H7]|ts s e s' Hts IH Hrf He Hr]; intros Hlen.
  - split; [by exists Idle|]. left. split; [done|]. left. by split_and!.
  - rewrite zlen_app in Hlen. pose proof (zlen_nonneg (processed e s s')).
    destruct IH as [[ph Hs] [[_ Ha]|[? _]]]; [lia| |congruence]. split.
    + pose proof (run_kev_ok cfg handlers Hcfg Hh junk e s ph Hj He Hs) as Hok. by rewrite Hr in Hok.
    + eapply handshake_step; [|done..]. lia.
Qed.

(** C2: with strict key exchange nothing can be put into the first exchange.  Whatever bytes
    arrive and whatever else the session does, once the client's KEXINIT has asked for strict
    key exchange the packets processed so far are exactly KEXINIT, KEXDH_INIT and NEWKEYS (a
    second KEXDH_INIT when the first was sent on a wrong guess): no IGNORE, DEBUG or any other
    packet was taken before, between or after them, and NEWKEYS has reset the sequence number.
    The bound is the width of the sequence number. *)
Theorem strict_kex_no_injection ts (s : kses) : handshake ts s -> zlen ts < 4294967295 -> strict_kex s = true ->
  if recvfirstnewkeys s then
    recvseq (pk s) = 0 /\
    (ts = [SSH_MSG_KEXINIT; SSH_MSG_KEXDH_INIT; SSH_MSG_NEWKEYS] \/
     ts = [SSH_MSG_KEXINIT; SSH_MSG_KEXDH_INIT; SSH_MSG_KEXDH_INIT; SSH_MSG_NEWKEYS])
  else
    ts = [SSH_MSG_KEXINIT] \/ ts = [SSH_MSG_KEXINIT; SSH_MSG_KEXDH_INIT] \/ ts = [SSH_MSG_KEXINIT; SSH_MSG_KEXDH_INIT; SSH_MSG_KEXDH_INIT].
Proof using Hcfg Hh Hj S.
  intros Hts Hlen Hst. apply handshake_inv in Hts as [_ [[-> Ha]|[-> Hf]]]; [|by apply Hf..|done].
  destruct Ha as [(_ & ? & _)|[[_ Ha]|(_ & _ & Ha)]]; [congruence| |].
  - destruct (Ha Hst) as [->|[-> _]]; tauto.
  - destruct (Ha Hst) as [->| ->]; tauto.
Qed.

(** The tail of [process_packet] on a packet that is not skipped. *)
Lemma packet_type_gate now type (s s' : kses) : authdone (pk s) = false ->
  (let* s := dispatch cfg handlers now type s in Ok (packet_out type s)) = Ok s' -> lastpacket s' <= MAX_UNAUTH_PACKET_TYPE.
Proof.
  intros Ha H. apply obind_Ok in H as (s1 & H1 & [= <-]). unfold dispatch in H1. rewrite Ha in H1. cbn [negb andb] in H1.
  destruct (Z.ltb_spec MAX_UNAUTH_PACKET_TYPE type); [done|]. done.
Qed.

(** C11: nothing past authentication is handled before it is done: while [authdone] is not set,
    a packet with a type above 60 (global requests, channels and the reserved types) ends the
    connection, whatever the state of the exchange and whatever handlers are registered.  (A
    packet the peer announced as a wrong guess is dropped unread.) *)
Theorem no_service_before_auth now (s s' : kses) :
  process_packet cfg handlers now s = Ok s' -> authdone (pk s) = false -> ignorenext s = false ->
  lastpacket s' <= MAX_UNAUTH_PACKET_TYPE.
Proof.
  intros H Ha Hi. unfold process_packet in H. apply obind_Ok in H as ([type s1] & H1 & H). unfold rp in H1.
  destruct (payload (pk s)) as [pl|]; [|done]. cbn [the obind] in H1. apply obind_Ok in H1 as ([v b] & _ & [= -> <-]).
  set (s2 := put_keepalive_recv now _) in H. assert (E2 : authdone (pk s2) = false /\ ignorenext s2 = false) by done. clearbody s2.
  destruct (Z.eqb_spec type SSH_MSG_DISCONNECT); [done|].
  match type of H with (if ?c then _ else _) = _ => destruct c eqn:Ec end.
  { injection H as <-. cbn. apply andb_true_iff in Ec as [_ Ec]. unfold SSH_MSG_IGNORE, SSH_MSG_DEBUG, SSH_MSG_UNIMPLEMENTED in Ec.
    unfold MAX_UNAUTH_PACKET_TYPE, SSH_MSG_USERAUTH_PK_OK. lia. }
  set (s3 := if _ : bool then s2 else _) in H.
  assert (E3 : authdone (pk s3) = false /\ ignorenext s3 = false) by (unfold s3; by destr_if). clearbody s3. destruct E3 as [Ha3 Hi3]. rewrite Hi3 in H.
  match type of H with (if ?c then _ else _) = _ => destruct c end.
  - match type of H with (if ?c then _ else _) = _ => destruct c eqn:Ed end; [|done].
    apply obind_Ok in H as (s4 & _ & [= <-]). cbn. unfold MAX_UNAUTH_PACKET_TYPE, SSH_MSG_USERAUTH_PK_OK. lia.
  - eapply packet_type_gate; [|exact H]. by destr_if.
Qed.
End strict.
