(* ===== verification/KexKeys.v ===== *)
(** * The keys an exchange gives

    [gen_new_keys] makes the six keys of RFC 4253 section 7.2 from the shared secret and the
    exchange hash, the client's letters for one direction and the server's for the other;
    and the Diffie-Hellman exchange gives both sides the same secret. *)

From Stdlib Require Import Zpow_facts.
From S2P Require Import Prelude Bytes Buffer Packet Transport PacketQueues PacketSafety Algo Kex.

Section keys.
Context {CS ZS HD HS : Type} {C : Crypto CS ZS} {K : KexLib (CS := CS) (ZS := ZS) (HD := HD) (HS := HS)}.

Abbreviation kses := (kses (CS := CS) (ZS := ZS) (HD := HD)).

(** ** The hash functions *)

(** Hashing in pieces is hashing the whole, and a digest has the size the descriptor says. *)
Record hash_laws (hd : HD) : Prop := {
  hash_stream st x y : hash_process hd (hash_process hd st x) y = hash_process hd st (x ++ y);
  hash_length st : zlen (hash_done hd st) = hash_size hd;
  hash_pos : 0 < hash_size hd;
}.

Definition HASH (hd : HD) (x : bytes) : bytes := hash_done hd (hash_process hd (hash_init hd) x).

(** RFC 4253 section 7.2: [K1 = HASH(K || H || X || session_id)],
    [K(i+1) = HASH(K || H || K1 || ... || Ki)]; [rfc_key n] is [K1 || ... || K(n+1)]. *)
Fixpoint rfc_key (hd : HD) (kh : bytes) (X : Z) (sid : bytes) (n : nat) : bytes :=
  match n with
  | O => HASH hd (kh ++ X :: sid)
  | S n => rfc_key hd kh X sid n ++ HASH hd (kh ++ rfc_key hd kh X sid n)
  end.

(** The first [len] bytes: [len] blocks are always enough. *)
Definition rfc_derive (hd : HD) (kh : bytes) (X : Z) (sid : bytes) (len : Z) : bytes :=
  take (Z.to_nat len) (rfc_key hd kh X sid (Z.to_nat len)).

Section derivation.
Context (hd : HD) (HL : hash_laws hd) (kh : bytes) (X : Z) (sid : bytes).

Lemma rfc_key_zlen n : zlen (rfc_key hd kh X sid n) = (Z.of_nat n + 1) * hash_size hd.
Proof using HL.
  induction n as [|n IH]; cbn [rfc_key]; [unfold HASH; rewrite hash_length by done; lia|].
  rewrite zlen_app, IH. unfold HASH. rewrite hash_length by done. lia.
Qed.

Lemma rfc_key_prefix n m : (n <= m)%nat -> exists r, rfc_key hd kh X sid m = rfc_key hd kh X sid n ++ r.
Proof.
  induction 1 as [|m _ [r IH]]; [exists []; by rewrite app_nil_r|]. cbn [rfc_key].
  exists (r ++ HASH hd (kh ++ rfc_key hd kh X sid m)). by rewrite app_assoc, <- IH.
Qed.

Lemma rfc_take n m len : 0 <= len -> len <= (Z.of_nat n + 1) * hash_size hd -> (n <= m)%nat ->
  take (Z.to_nat len) (rfc_key hd kh X sid m) = take (Z.to_nat len) (rfc_key hd kh X sid n).
Proof using HL.
  intros H0 Hlen Hnm. destruct (rfc_key_prefix n m Hnm) as [r ->]. apply take_app_le.
  pose proof (rfc_key_zlen n) as Hz. unfold zlen in Hz. lia.
Qed.

(** The loop, from the first [n + 1] blocks. *)
Lemma hashkeys_loop_rfc outlen fuel : forall n m, let hs := hash_process hd (hash_init hd) kh in
  0 <= outlen -> outlen <= (Z.of_nat n + 1 + Z.of_nat fuel) * hash_size hd -> (n + fuel <= m)%nat ->
  hashkeys_loop fuel hd hs (take (Z.to_nat outlen) (rfc_key hd kh X sid n)) outlen = take (Z.to_nat outlen) (rfc_key hd kh X sid m).
Proof using HL.
  pose proof (hash_pos _ HL) as Hpos.
  induction fuel as [|fuel IH]; intros n m hs H0 Hlen Hm; cbn [hashkeys_loop].
  { symmetry. apply rfc_take; [done|lia|lia]. }
  pose proof (rfc_key_zlen n) as Hz. destruct (Z.ltb_spec (zlen (take (Z.to_nat outlen) (rfc_key hd kh X sid n))) outlen) as [Hlt|Hge].
  - assert (Hall : zlen (rfc_key hd kh X sid n) < outlen).
    { destruct (Z.lt_ge_cases (zlen (rfc_key hd kh X sid n)) outlen); [done|]. rewrite zlen_take in Hlt by lia. lia. }
    rewrite take_ge by (unfold zlen in *; lia). unfold hs at 2. rewrite hash_stream by done.
    change (hash_done hd (hash_process hd (hash_init hd) (kh ++ rfc_key hd kh X sid n))) with (HASH hd (kh ++ rfc_key hd kh X sid n)).
    assert (Hh : zlen (HASH hd (kh ++ rfc_key hd kh X sid n)) = hash_size hd) by (unfold HASH; by apply hash_length).
    rewrite <- (IH (S n) m) by (done || lia). f_equal. cbn [rfc_key]. rewrite take_app. rewrite (take_ge (rfc_key hd kh X sid n)) by (unfold zlen in *; lia).
    f_equal. unfold zlen in *. destruct (Z.le_gt_cases (outlen - Z.of_nat (length (rfc_key hd kh X sid n))) (hash_size hd)).
    + f_equal. lia.
    + rewrite !take_ge by lia. done.
  - symmetry. apply rfc_take; [done| |lia]. pose proof (zlen_nonneg (rfc_key hd kh X sid n)). unfold zlen in *. rewrite length_take in Hge. lia.
Qed.

(** [hashkeys] is the derivation of the RFC. *)
Lemma hashkeys_rfc outlen : 0 <= outlen -> hashkeys hd sid outlen (hash_process hd (hash_init hd) kh) X = rfc_derive hd kh X sid outlen.
Proof using HL.
  intros H0. unfold hashkeys, rfc_derive. rewrite !hash_stream by done. pose proof (hash_pos _ HL) as Hpos.
  cbn [app]. change (hash_done hd (hash_process hd (hash_init hd) (kh ++ X :: sid))) with (HASH hd (kh ++ X :: sid)). rewrite <- (hashkeys_loop_rfc outlen (Z.to_nat outlen) 0 (Z.to_nat outlen)) by nia.
  f_equal. cbn [rfc_key]. assert (Hh : zlen (HASH hd (kh ++ X :: sid)) = hash_size hd) by (unfold HASH; by apply hash_length).
  unfold zlen in Hh. destruct (Z.le_gt_cases (hash_size hd) outlen).
  - rewrite !take_ge by lia. done.
  - f_equal. lia.
Qed.
End derivation.

(** ** [gen_new_keys] *)

(** What the hashes start with: the shared secret and the exchange hash. *)
Definition key_seed (s : kses) (h : bytes) : bytes :=
  match dh_K s with Some k => ssh_mpint k | None => [] end ++ match dh_K_bytes s with Some x => x | None => [] end ++ h.

Lemma hash_process_mp_eq hd hs k : 0 <= k -> zlen (mpint_bytes k) <= 528 ->
  hash_process_mp hd hs k = Ok (hash_process hd hs (ssh_mpint k)).
Proof.
  intros Hk Hl. unfold hash_process_mp. destruct (view_new (512 + 20) ltac:(unfold BUF_MAX_SIZE; lia)) as (b & -> & Hv & _). cbn [obind].
  pose proof Hv as [Hb Hu Hp Hs]. rewrite buf_putmpint_eq by (done || lia). cbn [obind]. set (x := store32h _ ++ _).
  pose proof (zlen_nonneg (mpint_bytes k)).
  assert (Hx : zlen x <= 532) by (unfold x; rewrite zlen_app; change (zlen (store32h _)) with 4; lia).
  assert (Hv' : view (put b x) (blit [] 0 x) (0 + zlen x) (512 + 20)).
  { apply view_put; [done| |lia]. unfold x. apply Forall_app. split; [apply store32h_ok|apply mpint_bytes_ok]. }
  rewrite blit_0, drop_nil, app_nil_r in Hv'. pose proof (view_len _ _ _ _ Hv') as Hlen. destruct Hv' as [[] Hu' _ _].
  rewrite mem_read_in by lia. cbn [obind]. by fold (used (put b x)); rewrite Hu'.
Qed.

(** The keys of one direction: the cipher is started with [iv] and [key], the MAC key is
    [mac] of the length the MAC wants. *)
Definition dir_keys (iv key : bytes) (mac : Z -> bytes) (d d' : kdir (CS := CS) (ZS := ZS) (HD := HD)) : Prop :=
  (forall c name, kd_crypt d = Some c -> cipherdesc c = Some name ->
     exists m, kd_mode d = Some m /\
       start m (match name with Some n => find_cipher n | None => -1 end) iv key (c_keysize c) = Some (kd_state d')) /\
  (forall h hd, kd_mac d = Some h -> hash_desc h = Some hd -> kd_mackey d' = mac (h_keysize h) /\ kd_hash_index d' = find_hash hd) /\
  kd_valid d' = true.

Lemma start_dir_Ok iv key d d' : start_dir iv key d = Ok d' -> kd_mac d' = kd_mac d /\
  (forall c name, kd_crypt d = Some c -> cipherdesc c = Some name ->
     exists m, kd_mode d = Some m /\
       start m (match name with Some n => find_cipher n | None => -1 end) iv key (c_keysize c) = Some (kd_state d')).
Proof.
  unfold start_dir. intros H. destruct (kd_crypt d) as [c|] eqn:Ec; [|done]. cbn [the obind] in H.
  destruct (cipherdesc c) as [name|] eqn:En; [|injection H as <-; split; [done|congruence]].
  apply obind_Ok in H as (idx & Hi & H).
  assert (idx = match name with Some n => find_cipher n | None => -1 end) as ->.
  { destruct name as [n|]; [|by injection Hi]. apply obind_Ok in Hi as ([] & _ & [= <-]). done. }
  destruct (kd_mode d) as [m|]; [|done]. cbn [the obind] in H. destruct (start m _ iv key (c_keysize c)) as [st|] eqn:Es; [|done].
  injection H as <-. split; [done|]. intros c' name' [= <-] E. rewrite En in E. injection E as <-. by exists m.
Qed.

Lemma mac_dir_Ok hd sid hs l d d' : mac_dir hd sid hs l d = Ok d' -> kd_state d' = kd_state d /\
  (forall h mh, kd_mac d = Some h -> hash_desc h = Some mh -> kd_mackey d' = hashkeys hd sid (h_keysize h) hs l /\ kd_hash_index d' = find_hash mh).
Proof.
  unfold mac_dir. intros H. destruct (kd_mac d) as [h|] eqn:Eh; [|done]. cbn [the obind] in H.
  destruct (hash_desc h) as [mh|] eqn:En; injection H as <-; (split; [done|]); intros ? ? [= <-] E; [|congruence].
  rewrite En in E. injection E as <-. done.
Qed.

(** C9: the keys are those of RFC 4253 section 7.2.  When the exchange has set the shared
    secret and the exchange hash, [gen_new_keys] starts the cipher of the client's direction
    with the IV and key derived with the letters A and C, that of the server's with B and D,
    takes their MAC keys with E and F, marks both directions valid and forgets the secret and
    the hash. *)
Theorem derived_keys (s s' : kses) nk kx h sid :
  newkeys s = Some nk -> nk_kex nk = Some kx -> hash s = Some h -> session_id s = Some sid -> hash_laws (kex_hash kx) ->
  match dh_K s with Some k => 0 <= k /\ zlen (mpint_bytes k) <= 528 | None => True end ->
  (forall d m, d = nk_recv nk \/ d = nk_trans nk -> kd_mac d = Some m -> 0 <= h_keysize m) ->
  gen_new_keys s = Ok s' ->
  let key X len := rfc_derive (kex_hash kx) (key_seed s h) X sid len in
  dh_K s' = None /\ dh_K_bytes s' = None /\ hash s' = None /\
  exists nk', newkeys s' = Some nk' /\
    dir_keys (key 65 MAX_IV_LEN) (key 67 MAX_KEY_LEN) (key 69) (nk_recv nk) (nk_recv nk') /\
    dir_keys (key 66 MAX_IV_LEN) (key 68 MAX_KEY_LEN) (key 70) (nk_trans nk) (nk_trans nk').
Proof.
  intros Hnk Hkx Hh Hsid HL HK Hsz H key. unfold gen_new_keys in H. rewrite Hnk in H. cbn [the obind] in H. rewrite Hkx in H. cbn [the obind] in H.
  set (hd := kex_hash kx) in *. apply obind_Ok in H as (hs & Hhs & H). cbn in H. rewrite Hh in H. cbn [the obind] in H.
  rewrite Hsid in H. cbn [the obind] in H.
  assert (Eseed : hash_process hd match dh_K_bytes s with Some k => hash_process hd hs k | None => hs end h = hash_process hd (hash_init hd) (key_seed s h)).
  { unfold key_seed. destruct (dh_K s) as [k|].
    - destruct HK. rewrite hash_process_mp_eq in Hhs by done. injection Hhs as <-. destruct (dh_K_bytes s); rewrite !hash_stream by done; by rewrite ?app_nil_l, ?app_assoc.
    - injection Hhs as <-. destruct (dh_K_bytes s); rewrite ?hash_stream by done; done. }
  rewrite Eseed in H. clear Eseed Hhs hs. rewrite !hashkeys_rfc in H by done.
  apply obind_Ok in H as (r1 & Hr1 & H). apply obind_Ok in H as (t1 & Ht1 & H). apply obind_Ok in H as (t2 & Ht2 & H). apply obind_Ok in H as (r2 & Hr2 & [= <-]).
  apply start_dir_Ok in Hr1 as [Er1 Hr1], Ht1 as [Et1 Ht1]. apply mac_dir_Ok in Hr2 as [Er2 Hr2], Ht2 as [Et2 Ht2].
  rewrite Er1 in Hr2. rewrite Et1 in Ht2. rewrite <- Er2 in Hr1. rewrite <- Et2 in Ht1.
  cbn. split_and!; try done. eexists. split; [reflexivity|]. cbn. split; split_and!; cbn; try done.
  - intros m mh Hm Hmh. destruct (Hr2 m mh Hm Hmh) as [E1 E2]. split; [|exact E2]. etransitivity; [exact E1|]. apply hashkeys_rfc; [done|]. eapply Hsz; [by left|done].
  - intros m mh Hm Hmh. destruct (Ht2 m mh Hm Hmh) as [E1 E2]. split; [|exact E2]. etransitivity; [exact E1|]. apply hashkeys_rfc; [done|]. eapply Hsz; [by right|done].
Qed.

(** ** The Diffie-Hellman exchange *)

Context (cfg : config (CS := CS) (HD := HD)).

(** Appending to the exchange hash's buffer. *)
Lemma hb_append f x (s : kses) kb pre sz : kexhashbuf s = Some kb -> view kb pre (zlen pre) sz -> bytes_ok x -> zlen pre + zlen x <= sz ->
  (f kb = Ok (put kb x)) -> exists kb', hb f s = Ok (put_kexhashbuf (Some kb') s) /\ view kb' (pre ++ x) (zlen (pre ++ x)) sz.
Proof.
  intros Hkb Hv Hx Hsz Hf. exists (put kb x). unfold hb. rewrite Hkb. cbn [the obind]. rewrite Hf. split; [done|].
  rewrite zlen_app. rewrite <- (blit_end pre x). by apply view_put.
Qed.

Lemma view_putbytes_eq b bs p sz x : view b bs p sz -> bytes_ok x -> p + zlen x <= sz -> buf_putbytes b x (zlen x) = Ok (put b x).
Proof. intros [Hb _ <- <-] Hx Hsz. rewrite buf_putbytes_eq by done. by rewrite (proj2 (Z.ltb_ge _ _)) by lia. Qed.

Lemma view_putmpint_eq b bs p sz k : view b bs p sz -> 0 <= k -> p + zlen (ssh_mpint k) <= sz -> buf_putmpint b k = Ok (put b (ssh_mpint k)).
Proof.
  intros [Hb _ <- <-] Hk Hsz. unfold ssh_mpint, ssh_string in *. rewrite zlen_app in Hsz. change (zlen (store32h _)) with 4 in Hsz.
  by apply buf_putmpint_eq; [..|lia].
Qed.

Lemma ssh_mpint_ok k : bytes_ok (ssh_mpint k).
Proof. unfold ssh_mpint, ssh_string. apply Forall_app. split; [apply store32h_ok|apply mpint_bytes_ok]. Qed.

Lemma mp_exptmod_range b e p : 1 < p -> 0 <= mp_exptmod b e p < p.
Proof. intros. unfold mp_exptmod. rewrite Zpow_mod_correct by lia. apply Z.mod_pos_bound. lia. Qed.

(** Both sides compute the same power. *)
Lemma dh_agree g x y p : 1 < p -> 0 <= x -> 0 <= y ->
  mp_exptmod (mp_exptmod g x p) y p = mp_exptmod (mp_exptmod g y p) x p.
Proof.
  intros Hp Hx Hy. unfold mp_exptmod. rewrite !Zpow_mod_correct by lia. rewrite <- !Zpower_mod by lia.
  rewrite <- !Z.pow_mul_r by lia. by rewrite Z.mul_comm.
Qed.

(** C10: the Diffie-Hellman exchange. With our private and public values from
    [gen_kexdh_param] and the client's value [e], [kexdh_comb_key] refuses every [e] outside
    [2, p - 2]; otherwise the shared secret is [e^y mod p], which for an honest client
    ([e = g^x mod p]) is the [f^x mod p] the client computes, and the exchange hash is the
    hash of what the KEXINITs put into the buffer followed by the host key, [e], [f] and the
    secret; the first exchange hash becomes the session identifier. *)
Theorem dh_exchange p e y f (s : kses) nk kx kb pre sz :
  1 < p -> 0 <= y -> 0 <= e -> gen_kexdh_param cfg p = (y, f) ->
  newkeys s = Some nk -> nk_kex nk = Some kx -> kexhashbuf s = Some kb -> view kb pre (zlen pre) sz ->
  let blob := cf_pub_key cfg (nk_hostkey nk) in
  let k := mp_exptmod e y p in
  let x := pre ++ blob ++ ssh_mpint e ++ ssh_mpint f ++ ssh_mpint k in
  bytes_ok blob -> zlen x <= sz ->
  if (2 <=? e) && (e <=? p - 2) then
    exists s', kexdh_comb_key cfg p y f e s = Ok s' /\
      dh_K s' = Some k /\ hash s' = Some (HASH (kex_hash kx) x) /\ kexhashbuf s' = None /\
      session_id s' = Some (match session_id s with Some sid => sid | None => HASH (kex_hash kx) x end) /\
      (forall a, 0 <= a -> e = mp_exptmod DH_G_VAL a p -> k = mp_exptmod f a p)
  else kexdh_comb_key cfg p y f e s = Exit "Diffie-Hellman error".
Proof.
  intros Hp Hy He Hgen Hnk Hkx Hkb Hv blob k x Hblob Hx. unfold kexdh_comb_key.
  destruct ((2 <=? e) && (e <=? p - 2)) eqn:Er.
  2: { destruct (negb (e <? p - 1) || negb (1 <? e)) eqn:E; [done|]. exfalso. lia. }
  assert (negb (e <? p - 1) || negb (1 <? e) = false) as -> by lia. cbn [exit_if obind].
  injection Hgen as Ey Ef. assert (Hf : 0 <= f) by (subst f; apply mp_exptmod_range; lia).
  assert (Hk : 0 <= k) by (apply mp_exptmod_range; lia).
  unfold x in Hx. rewrite !zlen_app in Hx. pose proof (zlen_nonneg (ssh_mpint e)). pose proof (zlen_nonneg (ssh_mpint f)). pose proof (zlen_nonneg (ssh_mpint k)).
  cbn [newkeys put_dh_K]. rewrite Hnk. cbn [the obind]. fold blob. fold k.
  destruct (hb_append (fun b => buf_putbytes b blob (zlen blob)) blob (put_dh_K (Some k) s) kb pre sz) as (kb1 & -> & Hv1); [done|done|done|lia|by eapply view_putbytes_eq; [done|done|lia]|].
  cbn [obind].
  edestruct (hb_append (fun b => buf_putmpint b e) (ssh_mpint e)) as (kb2 & -> & Hv2); [reflexivity|exact Hv1|apply ssh_mpint_ok|rewrite zlen_app; lia|eapply view_putmpint_eq; [exact Hv1|done|rewrite zlen_app; lia]|].
  cbn [obind].
  edestruct (hb_append (fun b => buf_putmpint b f) (ssh_mpint f)) as (kb3 & -> & Hv3); [reflexivity|exact Hv2|apply ssh_mpint_ok|rewrite !zlen_app; lia|eapply view_putmpint_eq; [exact Hv2|done|rewrite !zlen_app; lia]|].
  cbn [obind].
  edestruct (hb_append (fun b => buf_putmpint b k) (ssh_mpint k)) as (kb4 & -> & Hv4); [reflexivity|exact Hv3|apply ssh_mpint_ok|rewrite !zlen_app; lia|eapply view_putmpint_eq; [exact Hv3|done|rewrite !zlen_app; lia]|].
  cbn [obind]. unfold finish_kexhashbuf. cbn. rewrite Hnk. cbn. rewrite Hkx. cbn.
  rewrite <- !app_assoc in Hv4. fold x in Hv4. pose proof (view_len _ _ _ _ Hv4) as Hlen. pose proof (zlen_nonneg x).
  destruct (view_setpos _ _ _ _ 0 Hv4) as (kb5 & -> & Hv5); [lia|]. cbn [obind].
  rewrite (view_len _ _ _ _ Hv5). erewrite view_read by (done || lia). cbn [obind]. rewrite sub_all.
  eexists. split; [reflexivity|]. destruct (session_id s) eqn:Es; cbn; rewrite ?Es; (split_and!; try done);
    intros a Ha ->; unfold k; subst y f; by apply dh_agree.
Qed.
End keys.
