(* ===== verification/KexToy.v ===== *)
(** * A small instance of the key exchange

    A host with one algorithm of each kind, a group with a small prime and a hash that only
    adds bytes: the theorems of the key exchange applied to a whole handshake. *)

From S2P Require Import Prelude Bytes Buffer Packet Transport PacketQueues PacketSafety Algo Kex KexSafety KexSession KexLoop.
From S2P Require Import KexStrict KexKeys.

Module ToyKex.

Definition digest (x : bytes) : bytes := store32h (fold_left Z.add x (zlen x)).

#[export] Instance lib : KexLib (CS := Z) (ZS := unit) (HD := unit) (HS := bytes) := {|
  hash_init _ := [];
  hash_process _ st x := st ++ x;
  hash_done _ st := digest st;
  hash_size _ := 4;
  find_cipher _ := 0;
  find_hash _ := 3;
  inflateInit := Some tt;
  deflateInit2 := Some tt;
  zend _ := false;
  zs_null := tt;
  zs_is_null _ := true;
  cs_null := 0;
|}.

Lemma lib_laws : hash_laws (HD := unit) tt.
Proof. split; [intros st x y; symmetry; apply app_assoc|done|done]. Qed.

Definition none : list (algo_type unit unit) := [mkalgo (str "none") 0 None true None].

Definition cfg : config (CS := Z) (HD := unit) := {|
  cf_sshkex := [mkalgo (str "dh") 0 (Some (mkkex DROPBEAR_KEX_NORMAL_DH 23 tt)) true None];
  cf_sshciphers := [mkalgo (str "aes") 0 (Some (mkcipher (Some (Some (str "aes"))) 32 16)) true
                     (Some (mkmode (fun _ _ key _ => Some (fold_left Z.add key 0)) false None))];
  cf_sshhashes := [mkalgo (str "sha") 0 (Some (mkhash (Some tt) 20 20)) true None];
  cf_local_ident := str "SSH-2.0-server";
  cf_remoteident := str "SSH-2.0-client";
  cf_signkey_type t := t;
  cf_pub_key _ := ssh_string (str "key");
  cf_sign _ _ := ssh_string (str "signature");
  cf_random_mpint _ := 5;
  cf_comb _ _ := None;
|}.

Lemma one_in {A} (P : A -> Prop) (a : A) : P a -> forall b, b ∈ [a] -> P b.
Proof. intros Ha b ->%list_elem_of_singleton. exact Ha. Qed.

Lemma table1 {D M} (a : algo_type D M) : bytes_ok (al_name a) -> table_ok [a].
Proof. intros Ha. split; [by apply Forall_singleton|done]. Qed.

Lemma cfg_good : cfg_ok cfg.
Proof.
  split; cbn.
  1-3: by apply table1, bytes_check.
  1, 2: apply one_in; cbn; eauto 10.
  - exists (mkcipher (Some (Some (str "aes"))) 32 16), (mkmode (fun _ _ key _ => Some (fold_left Z.add key 0)) false None). split_and!; [done|done|by right|done].
  - exists (mkhash (Some tt) 20 20). by split_and!.
  - by apply bytes_check.
  - by apply bytes_check.
  - intros _. by apply bytes_check.
  - intros _ _. by apply bytes_check.
  - done.
Qed.

(** No encryption and no MAC yet. *)
Definition nokey : keydir Z unit := mkkeydir 8 0 0 [] false DROPBEAR_COMP_NONE 0 tt.

Definition session0 : kses (CS := Z) (ZS := unit) (HD := unit) :=
  mkkses (mkpktses nokey nokey Toy.writepayload0 [] 0 None None 0 0 0 true [] false 0 0 0 0 0)
    false false false false false false false false false false 0 false SSH_MSG_KEXINIT false 0 None None None None None None None None
    none none none false 0.

(** A packet of the client, before keys: its length, its padding and the payload. *)
Definition packet (c : Z) (p : bytes) : bytes :=
  let pad := 16 - (zlen p + 5) mod 8 in
  Toy.xor_stream c (store32h (zlen p + 1 + pad) ++ [pad] ++ p ++ replicate (Z.to_nat pad) 0).

Definition kexinit : bytes :=
  [SSH_MSG_KEXINIT] ++ replicate 16 9 ++ concat (map ssh_string [str "dh,kex-strict-c-v00@openssh.com"; str "none"; str "aes"; str "aes"; str "sha"; str "sha";
    str "none"; str "none"; []; []]) ++ [0; 0; 0; 0; 0].

(** [2 ^ 3 mod 23]. *)
Definition kexdh_init : bytes := [SSH_MSG_KEXDH_INIT] ++ ssh_mpint 8.

Definition newkeys_msg : bytes := [SSH_MSG_NEWKEYS].

Definition handlers : Z -> option (Z -> kses (CS := Z) (ZS := unit) (HD := unit) -> outcome (kses (CS := Z) (ZS := unit) (HD := unit))) := fun _ => None.

Definition events : list kev :=
  [KRekey 0; KWrite 1000; KRead (Some (packet 0 kexinit)) 1; KRead (Some (packet (zlen (packet 0 kexinit)) kexdh_init)) 2;
   KWrite 100000; KRead (Some (packet (zlen (packet 0 kexinit) + zlen (packet 0 kexdh_init)) newkeys_msg)) 3].

Lemma events_ok : Forall kev_ok events.
Proof. unfold events. repeat (apply Forall_cons; split; [first [done|apply bytes_check; vm_compute; reflexivity]|]). constructor. Qed.

Lemma zero_junk (i : nat) : is_byte 0.
Proof. done. Qed.

Lemma handlers_good : handlers_ok handlers.
Proof. intros type h now s ph [=]. Qed.

Lemma session0_idle : sess Idle session0.
Proof.
  assert (Hd : dir_ok nokey) by (split; [by left|done]). split; [|done| |done|by right].
  - split; [exact Hd|exact Hd|apply toy_writepayload_view|done|by apply Forall_nil_2|by apply Forall_nil_2|done|done].
  - split; by apply table1, bytes_check.
Qed.

Lemma session0_fresh : fresh session0.
Proof. split; try done. apply session0_idle. Qed.

(** A run of the loop with the types of the packets processed. *)
Fixpoint run_trace (es : list kev) (ts : list Z) (s : kses (CS := Z) (ZS := unit) (HD := unit)) :=
  match es with
  | [] => Ok (ts, s)
  | e :: es => if recvfirstnewkeys s then Undef
               else let* s' := run_kev (C := Toy.toy) cfg handlers (fun _ => 0) e s in
                    run_trace es (ts ++ processed (C := Toy.toy) (fun _ => 0) e s s') s'
  end.

Lemma run_trace_handshake es : forall ts s ts' s', Forall kev_ok es -> handshake (C := Toy.toy) cfg handlers (fun _ => 0) ts s ->
  run_trace es ts s = Ok (ts', s') -> handshake (C := Toy.toy) cfg handlers (fun _ => 0) ts' s'.
Proof.
  induction es as [|e es IH]; intros ts s ts' s' Hes Hs H; cbn [run_trace] in H; [by injection H as <- <-|].
  apply Forall_cons in Hes as [He Hes]. destruct (recvfirstnewkeys s) eqn:Er; [done|]. apply obind_Ok in H as (s1 & H1 & H).
  eapply IH; [done| |exact H]. by eapply HandshakeStep.
Qed.
End ToyKex.

Import ToyKex.

Lemma kex_session_safe_witness :
  match run_kevs (C := Toy.toy) cfg handlers (fun _ => 0) events session0 with
  | Ok s => exists ph, sess ph s
  | Exit _ => True
  | Undef => False
  end.
Proof.
  apply (kex_session_safe (S := toy_sane) cfg handlers cfg_good handlers_good (fun _ => 0) events session0 Idle).
  - done.
  - exact events_ok.
  - exact session0_idle.
Defined.

(** The whole handshake: KEXINIT, KEXDH_INIT, NEWKEYS. *)
Lemma strict_kex_no_injection_witness :
  match run_trace events [] session0 with
  | Ok (ts, s) => recvfirstnewkeys s = true /\ strict_kex s = true /\ recvseq (pk s) = 0 /\
      (ts = [SSH_MSG_KEXINIT; SSH_MSG_KEXDH_INIT; SSH_MSG_NEWKEYS] \/
       ts = [SSH_MSG_KEXINIT; SSH_MSG_KEXDH_INIT; SSH_MSG_KEXDH_INIT; SSH_MSG_NEWKEYS])
  | _ => False
  end.
Proof.
  assert (Hrun : match run_trace events [] session0 with
    Ok (ts, s) => strict_kex s && recvfirstnewkeys s && (zlen ts <? 4294967295) | _ => false end = true) by (vm_compute; reflexivity).
  destruct (run_trace events [] session0) as [[ts s]| |] eqn:E; [|discriminate|discriminate].
  apply andb_true_iff in Hrun as [Hrun Hlen]. apply andb_true_iff in Hrun as [Hst Hrf]. apply Z.ltb_lt in Hlen.
  assert (Hts : handshake (C := Toy.toy) cfg handlers (fun _ => 0) ts s).
  { eapply run_trace_handshake; [exact events_ok|apply HandshakeStart, session0_fresh|exact E]. }
  split; [exact Hrf|]. split; [exact Hst|].
  pose proof (strict_kex_no_injection (S := toy_sane) cfg handlers cfg_good handlers_good (fun _ => 0) zero_junk ts s Hts Hlen Hst) as Ht.
  rewrite Hrf in Ht. exact Ht.
Defined.

Definition service_request : kses (CS := Z) (ZS := unit) (HD := unit) :=
  put_requirenext 0 (put_pk (set_payload (Some (mkbuf [SSH_MSG_SERVICE_REQUEST; 0] 1 0 2)) (pk session0)) session0).

Lemma no_service_before_auth_witness :
  match process_packet (C := Toy.toy) cfg handlers 5 service_request with
  | Ok s => lastpacket s <= MAX_UNAUTH_PACKET_TYPE
  | _ => False
  end.
Proof.
  assert (Hok : is_ok (process_packet (C := Toy.toy) cfg handlers 5 service_request) = true) by (vm_compute; reflexivity).
  destruct (process_packet (C := Toy.toy) cfg handlers 5 service_request) as [s| |] eqn:E; [|discriminate..].
  apply (no_service_before_auth cfg handlers 5 service_request s E); reflexivity.
Defined.

(** The session when the exchange hash has been made. *)
Definition hashed_session : kses (CS := Z) (ZS := unit) (HD := unit) :=
  let d := mkkdir (Some (mkcipher (Some (Some (str "aes"))) 32 16)) (Some (mkmode (fun _ _ key _ => Some (fold_left Z.add key 0)) false None))
             (Some (mkhash (Some tt) 20 20)) 0 [] DROPBEAR_COMP_NONE 0 tt false in
  put_newkeys (Some (mkkeys d d (Some (mkkex DROPBEAR_KEX_NORMAL_DH 23 tt)) 0 0))
    (put_session_id (Some [1; 2; 3; 4]) (put_hash (Some [1; 2; 3; 4]) (put_dh_K (Some 18) session0))).

Lemma derived_keys_witness :
  match gen_new_keys hashed_session with
  | Ok s => exists nk, newkeys s = Some nk /\
      kd_mackey (nk_recv nk) = rfc_derive (HD := unit) tt (key_seed hashed_session [1; 2; 3; 4]) 69 [1; 2; 3; 4] 20
  | _ => False
  end.
Proof.
  assert (Hok : is_ok (gen_new_keys hashed_session) = true) by (vm_compute; reflexivity).
  destruct (gen_new_keys hashed_session) as [s| |] eqn:E; [|discriminate..].
  destruct (derived_keys hashed_session s _ _ _ _ eq_refl eq_refl eq_refl eq_refl lib_laws) as (_ & _ & _ & nk & Hnk & (_ & Hmac & _) & _).
  - split; [discriminate|vm_compute; discriminate].
  - intros d m [->| ->] [= <-]; discriminate.
  - exact E.
  - exists nk. split; [exact Hnk|]. exact (proj1 (Hmac _ _ eq_refl eq_refl)).
Defined.

Lemma dh_exchange_witness :
  let s := put_kexhashbuf (Some (mkbuf (replicate 100 0) 0 0 100)) hashed_session in
  exists s', kexdh_comb_key cfg 23 5 9 8 s = Ok s' /\ dh_K s' = Some 16 /\ 16 = mp_exptmod 9 3 23.
Proof.
  intros s. destruct (dh_exchange cfg 23 8 5 9 s _ _ _ [] 100 ltac:(lia) ltac:(lia) ltac:(lia) eq_refl eq_refl eq_refl eq_refl) as (s' & H1 & H2 & _ & _ & _ & H3).
  - split; try done. split; cbn; unfold BUF_MAX_SIZE; try done; try lia. by apply bytes_check.
  - by apply bytes_check.
  - vm_compute. discriminate.
  - exists s'. split; [exact H1|]. split; [exact H2|]. exact (H3 3 ltac:(lia) eq_refl).
Defined.
