(* ===== verification/SessionData.v ===== *)
(** * What a session keeps (chansession.h)

    A channel of type "session" points to a [ChanSess]; the table [childpids] of the processes
    of the session points back at it.  A [struct ChanSess *] in that table is the index of the
    channel it belongs to.  X11 and agent forwarding are not compiled in. *)

From S2P Require Import Prelude.

(** The type of these channels (svr-chansession.c). *)
Definition svrchansess : Z := 0.

(** [struct exitinfo]; [exitpid] is -1 while nothing has exited. *)
Record exitinfo := mkexit { exitpid : Z; exitstatus : Z; exitsignal : Z; exitcore : Z }.

(** [struct ChanSess]; a string is [None] for NULL. *)
Record ChanSess := mkchansess {
  cmd : option bytes;
  pid : Z;
  original_command : option bytes;
  master : Z;
  slave : Z;
  tty : option bytes;
  term : option bytes;
  ses_exit : exitinfo;
  connection_string : option bytes;
  client_string : option bytes;
}.

Definition with_cmd (v : option bytes) (c : ChanSess) : ChanSess :=
  mkchansess v (pid c) (original_command c) (master c) (slave c) (tty c) (term c) (ses_exit c) (connection_string c) (client_string c).
Definition with_pid (v : Z) (c : ChanSess) : ChanSess :=
  mkchansess (cmd c) v (original_command c) (master c) (slave c) (tty c) (term c) (ses_exit c) (connection_string c) (client_string c).
Definition with_original_command (v : option bytes) (c : ChanSess) : ChanSess :=
  mkchansess (cmd c) (pid c) v (master c) (slave c) (tty c) (term c) (ses_exit c) (connection_string c) (client_string c).
Definition with_master (v : Z) (c : ChanSess) : ChanSess :=
  mkchansess (cmd c) (pid c) (original_command c) v (slave c) (tty c) (term c) (ses_exit c) (connection_string c) (client_string c).
Definition with_slave (v : Z) (c : ChanSess) : ChanSess :=
  mkchansess (cmd c) (pid c) (original_command c) (master c) v (tty c) (term c) (ses_exit c) (connection_string c) (client_string c).
Definition with_tty (v : option bytes) (c : ChanSess) : ChanSess :=
  mkchansess (cmd c) (pid c) (original_command c) (master c) (slave c) v (term c) (ses_exit c) (connection_string c) (client_string c).
Definition with_term (v : option bytes) (c : ChanSess) : ChanSess :=
  mkchansess (cmd c) (pid c) (original_command c) (master c) (slave c) (tty c) v (ses_exit c) (connection_string c) (client_string c).
Definition with_ses_exit (v : exitinfo) (c : ChanSess) : ChanSess :=
  mkchansess (cmd c) (pid c) (original_command c) (master c) (slave c) (tty c) (term c) v (connection_string c) (client_string c).
Definition with_connection_string (v : option bytes) (c : ChanSess) : ChanSess :=
  mkchansess (cmd c) (pid c) (original_command c) (master c) (slave c) (tty c) (term c) (ses_exit c) v (client_string c).
Definition with_client_string (v : option bytes) (c : ChanSess) : ChanSess :=
  mkchansess (cmd c) (pid c) (original_command c) (master c) (slave c) (tty c) (term c) (ses_exit c) (connection_string c) v.

(** [struct ChildPid]; a free entry has pid -1. *)
Record ChildPid := mkchild { child_pid : Z; child_chansess : option nat }.

#[global] Instance childpid_eq_dec : EqDecision ChildPid.
Proof. solve_decision. Defined.

(** What [svr_chansessinitialise] sets up: one free entry, and nothing has exited. *)
Definition svr_chansessinitialise : list ChildPid * exitinfo := ([mkchild (-1) None], mkexit (-1) 0 0 0).

(** ** Well-formed data *)

(** How a process ended is known: by a signal, or [exitsignal] is -1. *)
Record exit_ok (e : exitinfo) : Prop := {
  ex_signal : exitpid e <> -1 -> exitsignal e = -1 \/ 0 < exitsignal e;
  ex_core : is_byte (exitcore e);
}.

(** The entries of a session are given up. *)
Definition forget_child (i : nat) (l : list ChildPid) : list ChildPid :=
  map (fun e => if decide (child_chansess e = Some i) then mkchild (-1) None else e) l.

Lemma forget_child_elem i e l : e ∈ forget_child i l <->
  (e = mkchild (-1) None /\ exists e', e' ∈ l /\ child_chansess e' = Some i) \/ (e ∈ l /\ child_chansess e <> Some i).
Proof.
  unfold forget_child. rewrite list_elem_of_fmap. split.
  - intros (e' & -> & Hin). case_decide; [left|right]; [split; [done|by exists e']|done].
  - intros [[-> (e' & Hin & He)]|[Hin He]]; [exists e'; by rewrite decide_True|exists e; by rewrite decide_False].
Qed.
