(* ===== verification/Channel.v ===== *)
(** * Channels (common-channel.c)

    The table of channels, their flow control and the exchange of data, EOF and CLOSE.  The
    packets go to the session through the class [Session]: the payload buffers and
    [encrypt_packet]; the packet layer of Packet.v is its instance.  The kernel is the class
    [Sys], whose state [W] is passed along: the results of [read], [writev] and [select] are
    its own.  What a channel's type adds (sessions, forwarded connections) is the class
    [ChanTypes].  A [struct Channel *] is its index in the table.  The client's
    [read_mangler] is NULL in the server and not modelled; file descriptors are closed
    through [Sys], without the table of open ones. *)

From S2P Require Import Prelude Bytes CString Buffer CircBuffer Packet SessionData.

(** ** Constants *)

Definition MAX_CHANNELS : Z := 1000.
Definition CHAN_EXTEND_SIZE : nat := 3.
Definition MAX_NAME_LEN : Z := 64.
Definition FD_UNINIT : Z := -2.
Definition FD_CLOSED : Z := -1.
Definition RECV_MAX_CHANNEL_DATA_LEN : Z := RECV_MAX_PAYLOAD_LEN - (1 + 4 + 4).
Definition SSH_EXTENDED_DATA_STDERR : Z := 1.
Definition SSH_OPEN_CONNECT_FAILED : Z := 2.
Definition SSH_OPEN_UNKNOWN_CHANNEL_TYPE : Z := 3.
Definition SSH_OPEN_RESOURCE_SHORTAGE : Z := 4.
Definition SSH_OPEN_IN_PROGRESS : Z := 99.
Definition SHUT_RD : Z := 0.
Definition SHUT_WR : Z := 1.
Definition SHUT_RDWR : Z := 2.

Inductive dropbear_prio := DROPBEAR_PRIO_NORMAL | DROPBEAR_PRIO_LOWDELAY.

#[global] Instance dropbear_prio_eq_dec : EqDecision dropbear_prio.
Proof. solve_decision. Defined.

(** The callback of a connection in progress: the channel it is for, or none any more. *)
Inductive connect_callback := ChannelConnectDone (user_data : nat) | CancelCallback.

(** ** The session and the kernel *)

(** What the channels need of the session. *)
Class Session (P : Type) := {
  ses_writepayload : P -> buffer;
  ses_set_writepayload : buffer -> P -> P;
  ses_payload : P -> option buffer;
  ses_set_payload : buffer -> P -> P;
  ses_dataallowed : P -> bool;
  ses_encrypt_packet : P -> outcome P;
}.

(** A [read]: data, end of file being none, an interruption, or another error. *)
Inductive fdread := FdData (bs : bytes) | FdEintr | FdError.

Class Sys (W : Type) := {
  sys_read : Z -> Z -> W -> fdread * W;
  sys_writev : Z -> bytes -> W -> write_res * W;
  sys_close : Z -> W -> W;
  sys_shutdown : Z -> Z -> W -> W;
  sys_read_pending : Z -> W -> bool;
  sys_set_sock_priority : dropbear_prio -> W -> W;
}.

(** [struct Channel]; [type] identifies the [ChanType], and [ctypedata] is its [typedata],
    which only sessions have. *)
Record Channel := mkchannel {
  index : nat;
  remotechan : Z;
  recvwindow : Z;
  transwindow : Z;
  recvdonelen : Z;
  recvmaxpacket : Z;
  transmaxpacket : Z;
  writefd : Z;
  readfd : Z;
  errfd : Z;
  bidir_fd : bool;
  writebuf : circbuffer;
  extrabuf : option circbuffer;
  sent_close : bool;
  recv_close : bool;
  recv_eof : bool;
  sent_eof : bool;
  flushing : bool;
  conn_pending : option nat;
  await_open : bool;
  type : Z;
  prio : dropbear_prio;
  ctypedata : option ChanSess;
}.

Definition with_index (v : nat) (c : Channel) : Channel :=
  mkchannel v (remotechan c) (recvwindow c) (transwindow c) (recvdonelen c) (recvmaxpacket c) (transmaxpacket c) (writefd c) (readfd c) (errfd c) (bidir_fd c) (writebuf c) (extrabuf c) (sent_close c) (recv_close c) (recv_eof c) (sent_eof c) (flushing c) (conn_pending c) (await_open c) (type c) (prio c) (ctypedata c).
Definition with_remotechan (v : Z) (c : Channel) : Channel :=
  mkchannel (index c) v (recvwindow c) (transwindow c) (recvdonelen c) (recvmaxpacket c) (transmaxpacket c) (writefd c) (readfd c) (errfd c) (bidir_fd c) (writebuf c) (extrabuf c) (sent_close c) (recv_close c) (recv_eof c) (sent_eof c) (flushing c) (conn_pending c) (await_open c) (type c) (prio c) (ctypedata c).
Definition with_recvwindow (v : Z) (c : Channel) : Channel :=
  mkchannel (index c) (remotechan c) v (transwindow c) (recvdonelen c) (recvmaxpacket c) (transmaxpacket c) (writefd c) (readfd c) (errfd c) (bidir_fd c) (writebuf c) (extrabuf c) (sent_close c) (recv_close c) (recv_eof c) (sent_eof c) (flushing c) (conn_pending c) (await_open c) (type c) (prio c) (ctypedata c).
Definition with_transwindow (v : Z) (c : Channel) : Channel :=
  mkchannel (index c) (remotechan c) (recvwindow c) v (recvdonelen c) (recvmaxpacket c) (transmaxpacket c) (writefd c) (readfd c) (errfd c) (bidir_fd c) (writebuf c) (extrabuf c) (sent_close c) (recv_close c) (recv_eof c) (sent_eof c) (flushing c) (conn_pending c) (await_open c) (type c) (prio c) (ctypedata c).
Definition with_recvdonelen (v : Z) (c : Channel) : Channel :=
  mkchannel (index c) (remotechan c) (recvwindow c) (transwindow c) v (recvmaxpacket c) (transmaxpacket c) (writefd c) (readfd c) (errfd c) (bidir_fd c) (writebuf c) (extrabuf c) (sent_close c) (recv_close c) (recv_eof c) (sent_eof c) (flushing c) (conn_pending c) (await_open c) (type c) (prio c) (ctypedata c).
Definition with_recvmaxpacket (v : Z) (c : Channel) : Channel :=
  mkchannel (index c) (remotechan c) (recvwindow c) (transwindow c) (recvdonelen c) v (transmaxpacket c) (writefd c) (readfd c) (errfd c) (bidir_fd c) (writebuf c) (extrabuf c) (sent_close c) (recv_close c) (recv_eof c) (sent_eof c) (flushing c) (conn_pending c) (await_open c) (type c) (prio c) (ctypedata c).
Definition with_transmaxpacket (v : Z) (c : Channel) : Channel :=
  mkchannel (index c) (remotechan c) (recvwindow c) (transwindow c) (recvdonelen c) (recvmaxpacket c) v (writefd c) (readfd c) (errfd c) (bidir_fd c) (writebuf c) (extrabuf c) (sent_close c) (recv_close c) (recv_eof c) (sent_eof c) (flushing c) (conn_pending c) (await_open c) (type c) (prio c) (ctypedata c).
Definition with_writefd (v : Z) (c : Channel) : Channel :=
  mkchannel (index c) (remotechan c) (recvwindow c) (transwindow c) (recvdonelen c) (recvmaxpacket c) (transmaxpacket c) v (readfd c) (errfd c) (bidir_fd c) (writebuf c) (extrabuf c) (sent_close c) (recv_close c) (recv_eof c) (sent_eof c) (flushing c) (conn_pending c) (await_open c) (type c) (prio c) (ctypedata c).
Definition with_readfd (v : Z) (c : Channel) : Channel :=
  mkchannel (index c) (remotechan c) (recvwindow c) (transwindow c) (recvdonelen c) (recvmaxpacket c) (transmaxpacket c) (writefd c) v (errfd c) (bidir_fd c) (writebuf c) (extrabuf c) (sent_close c) (recv_close c) (recv_eof c) (sent_eof c) (flushing c) (conn_pending c) (await_open c) (type c) (prio c) (ctypedata c).
Definition with_errfd (v : Z) (c : Channel) : Channel :=
  mkchannel (index c) (remotechan c) (recvwindow c) (transwindow c) (recvdonelen c) (recvmaxpacket c) (transmaxpacket c) (writefd c) (readfd c) v (bidir_fd c) (writebuf c) (extrabuf c) (sent_close c) (recv_close c) (recv_eof c) (sent_eof c) (flushing c) (conn_pending c) (await_open c) (type c) (prio c) (ctypedata c).
Definition with_bidir_fd (v : bool) (c : Channel) : Channel :=
  mkchannel (index c) (remotechan c) (recvwindow c) (transwindow c) (recvdonelen c) (recvmaxpacket c) (transmaxpacket c) (writefd c) (readfd c) (errfd c) v (writebuf c) (extrabuf c) (sent_close c) (recv_close c) (recv_eof c) (sent_eof c) (flushing c) (conn_pending c) (await_open c) (type c) (prio c) (ctypedata c).
Definition with_writebuf (v : circbuffer) (c : Channel) : Channel :=
  mkchannel (index c) (remotechan c) (recvwindow c) (transwindow c) (recvdonelen c) (recvmaxpacket c) (transmaxpacket c) (writefd c) (readfd c) (errfd c) (bidir_fd c) v (extrabuf c) (sent_close c) (recv_close c) (recv_eof c) (sent_eof c) (flushing c) (conn_pending c) (await_open c) (type c) (prio c) (ctypedata c).
Definition with_extrabuf (v : option circbuffer) (c : Channel) : Channel :=
  mkchannel (index c) (remotechan c) (recvwindow c) (transwindow c) (recvdonelen c) (recvmaxpacket c) (transmaxpacket c) (writefd c) (readfd c) (errfd c) (bidir_fd c) (writebuf c) v (sent_close c) (recv_close c) (recv_eof c) (sent_eof c) (flushing c) (conn_pending c) (await_open c) (type c) (prio c) (ctypedata c).
Definition with_sent_close (v : bool) (c : Channel) : Channel :=
  mkchannel (index c) (remotechan c) (recvwindow c) (transwindow c) (recvdonelen c) (recvmaxpacket c) (transmaxpacket c) (writefd c) (readfd c) (errfd c) (bidir_fd c) (writebuf c) (extrabuf c) v (recv_close c) (recv_eof c) (sent_eof c) (flushing c) (conn_pending c) (await_open c) (type c) (prio c) (ctypedata c).
Definition with_recv_close (v : bool) (c : Channel) : Channel :=
  mkchannel (index c) (remotechan c) (recvwindow c) (transwindow c) (recvdonelen c) (recvmaxpacket c) (transmaxpacket c) (writefd c) (readfd c) (errfd c) (bidir_fd c) (writebuf c) (extrabuf c) (sent_close c) v (recv_eof c) (sent_eof c) (flushing c) (conn_pending c) (await_open c) (type c) (prio c) (ctypedata c).
Definition with_recv_eof (v : bool) (c : Channel) : Channel :=
  mkchannel (index c) (remotechan c) (recvwindow c) (transwindow c) (recvdonelen c) (recvmaxpacket c) (transmaxpacket c) (writefd c) (readfd c) (errfd c) (bidir_fd c) (writebuf c) (extrabuf c) (sent_close c) (recv_close c) v (sent_eof c) (flushing c) (conn_pending c) (await_open c) (type c) (prio c) (ctypedata c).
Definition with_sent_eof (v : bool) (c : Channel) : Channel :=
  mkchannel (index c) (remotechan c) (recvwindow c) (transwindow c) (recvdonelen c) (recvmaxpacket c) (transmaxpacket c) (writefd c) (readfd c) (errfd c) (bidir_fd c) (writebuf c) (extrabuf c) (sent_close c) (recv_close c) (recv_eof c) v (flushing c) (conn_pending c) (await_open c) (type c) (prio c) (ctypedata c).
Definition with_flushing (v : bool) (c : Channel) : Channel :=
  mkchannel (index c) (remotechan c) (recvwindow c) (transwindow c) (recvdonelen c) (recvmaxpacket c) (transmaxpacket c) (writefd c) (readfd c) (errfd c) (bidir_fd c) (writebuf c) (extrabuf c) (sent_close c) (recv_close c) (recv_eof c) (sent_eof c) v (conn_pending c) (await_open c) (type c) (prio c) (ctypedata c).
Definition with_conn_pending (v : option nat) (c : Channel) : Channel :=
  mkchannel (index c) (remotechan c) (recvwindow c) (transwindow c) (recvdonelen c) (recvmaxpacket c) (transmaxpacket c) (writefd c) (readfd c) (errfd c) (bidir_fd c) (writebuf c) (extrabuf c) (sent_close c) (recv_close c) (recv_eof c) (sent_eof c) (flushing c) v (await_open c) (type c) (prio c) (ctypedata c).
Definition with_await_open (v : bool) (c : Channel) : Channel :=
  mkchannel (index c) (remotechan c) (recvwindow c) (transwindow c) (recvdonelen c) (recvmaxpacket c) (transmaxpacket c) (writefd c) (readfd c) (errfd c) (bidir_fd c) (writebuf c) (extrabuf c) (sent_close c) (recv_close c) (recv_eof c) (sent_eof c) (flushing c) (conn_pending c) v (type c) (prio c) (ctypedata c).
Definition with_type (v : Z) (c : Channel) : Channel :=
  mkchannel (index c) (remotechan c) (recvwindow c) (transwindow c) (recvdonelen c) (recvmaxpacket c) (transmaxpacket c) (writefd c) (readfd c) (errfd c) (bidir_fd c) (writebuf c) (extrabuf c) (sent_close c) (recv_close c) (recv_eof c) (sent_eof c) (flushing c) (conn_pending c) (await_open c) v (prio c) (ctypedata c).
Definition with_prio (v : dropbear_prio) (c : Channel) : Channel :=
  mkchannel (index c) (remotechan c) (recvwindow c) (transwindow c) (recvdonelen c) (recvmaxpacket c) (transmaxpacket c) (writefd c) (readfd c) (errfd c) (bidir_fd c) (writebuf c) (extrabuf c) (sent_close c) (recv_close c) (recv_eof c) (sent_eof c) (flushing c) (conn_pending c) (await_open c) (type c) v (ctypedata c).
Definition with_ctypedata (v : option ChanSess) (c : Channel) : Channel :=
  mkchannel (index c) (remotechan c) (recvwindow c) (transwindow c) (recvdonelen c) (recvmaxpacket c) (transmaxpacket c) (writefd c) (readfd c) (errfd c) (bidir_fd c) (writebuf c) (extrabuf c) (sent_close c) (recv_close c) (recv_eof c) (sent_eof c) (flushing c) (conn_pending c) (await_open c) (type c) (prio c) v.

Definition ERRFD_IS_READ (c : Channel) : bool := match extrabuf c with None => true | Some _ => false end.
Definition ERRFD_IS_WRITE (c : Channel) : bool := negb (ERRFD_IS_READ c).

(** [write_pending] *)
Definition write_pending (c : Channel) : bool :=
  if (0 <=? writefd c) && (0 <? cbuf_getused (writebuf c)) then true
  else match extrabuf c with Some eb => (0 <=? errfd c) && (0 <? cbuf_getused eb) | None => false end.

Section channel.
Context {P W : Type} {SP : Session P} {SW : Sys W}.

(** The channel table of the session with the rest of it; [conns] are the connections in
    progress (netio.c), of which only the callback matters here, [childpids] and [lastexit] those of
    the processes of sessions. *)
Record chses := mkchses {
  ses : P;
  world : W;
  channels : list (option Channel);
  chancount : Z;
  socket_prio : dropbear_prio;
  sock_out : Z;
  conns : gmap nat connect_callback;
  childpids : list ChildPid;
  lastexit : exitinfo;
}.

Definition with_ses (v : P) (s : chses) : chses := mkchses v (world s) (channels s) (chancount s) (socket_prio s) (sock_out s) (conns s) (childpids s) (lastexit s).
Definition with_world (v : W) (s : chses) : chses := mkchses (ses s) v (channels s) (chancount s) (socket_prio s) (sock_out s) (conns s) (childpids s) (lastexit s).
Definition with_channels (v : list (option Channel)) (s : chses) : chses := mkchses (ses s) (world s) v (chancount s) (socket_prio s) (sock_out s) (conns s) (childpids s) (lastexit s).
Definition with_chancount (v : Z) (s : chses) : chses := mkchses (ses s) (world s) (channels s) v (socket_prio s) (sock_out s) (conns s) (childpids s) (lastexit s).
Definition with_socket_prio (v : dropbear_prio) (s : chses) : chses := mkchses (ses s) (world s) (channels s) (chancount s) v (sock_out s) (conns s) (childpids s) (lastexit s).
Definition with_conns (v : gmap nat connect_callback) (s : chses) : chses := mkchses (ses s) (world s) (channels s) (chancount s) (socket_prio s) (sock_out s) v (childpids s) (lastexit s).

Definition with_childpids (v : list ChildPid) (s : chses) : chses :=
  mkchses (ses s) (world s) (channels s) (chancount s) (socket_prio s) (sock_out s) (conns s) v (lastexit s).
Definition with_lastexit (v : exitinfo) (s : chses) : chses :=
  mkchses (ses s) (world s) (channels s) (chancount s) (socket_prio s) (sock_out s) (conns s) (childpids s) v.

(** What a channel's type adds to it; a missing handler is [None]. [ct_names] are the types
    the peer may open, [ct_name] the name of any type. *)
Class ChanTypes := {
  ct_names : list (Z * bytes);
  ct_name : Z -> bytes;
  ct_inithandler : Z -> option (nat -> chses -> outcome (Z * chses));
  ct_check_close : Z -> option (Channel -> outcome (Channel * bool));
  ct_reqhandler : Z -> option (nat -> chses -> outcome chses);
  ct_closehandler : Z -> option (Channel -> P -> outcome P);
  ct_cleanup : Z -> option (Channel -> list ChildPid -> outcome (list ChildPid));
}.

Context {CT : ChanTypes}.

(** [opts.recv_window]. *)
Context (recv_window : Z).

Definition RECV_WINDOWEXTEND : Z := recv_window / 3.

(** ** Access *)

(** Following a [struct Channel *]. *)
Definition chan (i : nat) (s : chses) : outcome Channel :=
  match channels s !! i with Some (Some c) => Ok c | _ => Undef end.

Definition put_chan (i : nat) (c : Channel) (s : chses) : chses := with_channels (<[i := Some c]> (channels s)) s.

(** The write payload and [encrypt_packet]. *)
Definition pw (f : buffer -> outcome buffer) (p : P) : outcome P :=
  let* b := f (ses_writepayload p) in Ok (ses_set_writepayload b p).

(** The received payload. *)
Definition pr {A} (f : buffer -> outcome (A * buffer)) (s : chses) : outcome (A * chses) :=
  match ses_payload (ses s) with
  | None => Undef
  | Some b => let* (a, b) := f b in Ok (a, with_ses (ses_set_payload b (ses s)) s)
  end.

(** Run an operation of the session alone. *)
Definition on_ses (f : P -> outcome P) (s : chses) : outcome chses := let* p := f (ses s) in Ok (with_ses p s).

(** ** Messages *)

Definition send_msg_channel_window_adjust (c : Channel) (incr : Z) (p : P) : outcome P :=
  let* p := pw (fun b => buf_putbyte b SSH_MSG_CHANNEL_WINDOW_ADJUST) p in
  let* p := pw (fun b => buf_putint b (remotechan c)) p in
  let* p := pw (fun b => buf_putint b incr) p in
  ses_encrypt_packet p.

(** The messages with nothing but the channel. *)
Definition send_msg_channel_simple (type : Z) (c : Channel) (p : P) : outcome P :=
  let* p := pw (fun b => buf_putbyte b type) p in
  let* p := pw (fun b => buf_putint b (remotechan c)) p in
  ses_encrypt_packet p.

Definition send_msg_channel_failure (c : Channel) (p : P) : outcome P :=
  if sent_close c then Ok p else send_msg_channel_simple SSH_MSG_CHANNEL_FAILURE c p.

Definition send_msg_channel_success (c : Channel) (p : P) : outcome P :=
  if sent_close c then Ok p else send_msg_channel_simple SSH_MSG_CHANNEL_SUCCESS c p.

Definition send_msg_channel_open_failure (remotechan reason : Z) (text lang : bytes) (p : P) : outcome P :=
  let* p := pw (fun b => buf_putbyte b SSH_MSG_CHANNEL_OPEN_FAILURE) p in
  let* p := pw (fun b => buf_putint b remotechan) p in
  let* p := pw (fun b => buf_putint b reason) p in
  let* p := pw (fun b => buf_putstring b text (zlen text)) p in
  let* p := pw (fun b => buf_putstring b lang (zlen lang)) p in
  ses_encrypt_packet p.

Definition send_msg_channel_open_confirmation (c : Channel) (recvwindow recvmaxpacket : Z) (p : P) : outcome P :=
  let* p := pw (fun b => buf_putbyte b SSH_MSG_CHANNEL_OPEN_CONFIRMATION) p in
  let* p := pw (fun b => buf_putint b (remotechan c)) p in
  let* p := pw (fun b => buf_putint b (Z.of_nat (index c))) p in
  let* p := pw (fun b => buf_putint b recvwindow) p in
  let* p := pw (fun b => buf_putint b recvmaxpacket) p in
  ses_encrypt_packet p.

Definition send_msg_request_success (p : P) : outcome P :=
  let* p := pw (fun b => buf_putbyte b SSH_MSG_REQUEST_SUCCESS) p in ses_encrypt_packet p.

Definition send_msg_request_failure (p : P) : outcome P :=
  let* p := pw (fun b => buf_putbyte b SSH_MSG_REQUEST_FAILURE) p in ses_encrypt_packet p.

(** ** File descriptors *)

Definition m_close (fd : Z) (w : W) : W := if fd <? 0 then w else sys_close fd w.

(** [close_chan_fd]: the channel and the kernel. *)
Definition close_chan_fd (fd how : Z) (c : Channel) (w : W) : Channel * W :=
  let w := if bidir_fd c then sys_shutdown fd how w else m_close fd w in
  let closeout := negb (bidir_fd c) || (how =? 0) in
  let closein := negb (bidir_fd c) || negb (how =? 0) in
  let c := if closeout && (fd =? readfd c) then with_readfd FD_CLOSED c else c in
  let c := if closeout && ERRFD_IS_READ c && (fd =? errfd c) then with_errfd FD_CLOSED c else c in
  let c := if closein && (fd =? writefd c) then with_writefd FD_CLOSED c else c in
  let c := if closein && ERRFD_IS_WRITE c && (fd =? errfd c) then with_errfd FD_CLOSED c else c in
  let w := if bidir_fd c && (readfd c =? FD_CLOSED) && (writefd c =? FD_CLOSED) && (errfd c =? FD_CLOSED) then m_close fd w else w in
  (c, w).

(** ** EOF and CLOSE *)

Definition send_msg_channel_eof (c : Channel) (p : P) : outcome (Channel * P) :=
  let* p := send_msg_channel_simple SSH_MSG_CHANNEL_EOF c p in
  Ok (with_sent_eof true c, p).

Definition send_msg_channel_close (c : Channel) (p : P) (w : W) : outcome (Channel * P * W) :=
  let* p := match ct_closehandler (type c) with Some h => h c p | None => Ok p end in
  let* p := send_msg_channel_simple SSH_MSG_CHANNEL_CLOSE c p in
  let c := with_sent_close true (with_sent_eof true c) in
  let '(c, w) := close_chan_fd (readfd c) SHUT_RD c w in
  let '(c, w) := close_chan_fd (errfd c) SHUT_RDWR c w in
  let '(c, w) := close_chan_fd (writefd c) SHUT_WR c w in
  Ok (c, p, w).

Definition update_channel_prio (s : chses) : chses :=
  if sock_out s <? 0 then s
  else
    let any := existsb (fun o => match o with Some _ => true | None => false end) (channels s) in
    let low := existsb (fun o => match o with Some c => bool_decide (prio c = DROPBEAR_PRIO_LOWDELAY) | None => false end) (channels s) in
    let new_prio := if low || negb any then DROPBEAR_PRIO_LOWDELAY else DROPBEAR_PRIO_NORMAL in
    if bool_decide (new_prio = socket_prio s) then s
    else with_socket_prio new_prio (with_world (sys_set_sock_priority new_prio (world s)) s).

Definition cancel_connect (k : nat) (s : chses) : chses := with_conns (<[k := CancelCallback]> (conns s)) s.

Definition remove_channel (i : nat) (s : chses) : outcome chses :=
  let* c := chan i s in
  let w := m_close (errfd c) (m_close (readfd c) (m_close (writefd c) (world s))) in
  let* l := match ct_cleanup (type c) with Some f => f c (childpids s) | None => Ok (childpids s) end in
  let s := with_childpids l (with_world w s) in
  let s := match conn_pending c with Some k => cancel_connect k s | None => s end in
  let s := with_channels (<[index c := None]> (channels s)) s in
  let s := with_chancount (u32 (chancount s - 1)) s in
  Ok (update_channel_prio s).

(** In flushing mode a descriptor with nothing to read is closed. *)
Definition flush_fds (c : Channel) (w : W) : Channel * W :=
  if flushing c then
    let '(c, w) := if (0 <=? readfd c) && negb (sys_read_pending (readfd c) w) then close_chan_fd (readfd c) SHUT_RD c w else (c, w) in
    if ERRFD_IS_READ c && (0 <=? errfd c) && negb (sys_read_pending (errfd c) w) then close_chan_fd (errfd c) SHUT_RD c w else (c, w)
  else (c, w).

(** Nothing more will come out of the channel. *)
Definition out_closed (c : Channel) : bool := (readfd c =? FD_CLOSED) && (ERRFD_IS_WRITE c || (errfd c =? FD_CLOSED)).

Definition check_close (i : nat) (s : chses) : outcome chses :=
  let* c := chan i s in
  let check := ct_check_close (type c) in
  let* (c, close_allowed) :=
    match check with
    | Some f => if sent_close c then Ok (c, true) else f c
    | None => Ok (c, true)
    end in
  let '(c, w) := flush_fds c (world s) in
  if recv_close c && negb (write_pending c) && close_allowed then
    let* (c, p, w) := if sent_close c then Ok (c, ses s, w) else send_msg_channel_close c (ses s) w in
    remove_channel i (put_chan i c (with_world w (with_ses p s)))
  else
    let '(c, w) :=
      if (recv_eof c && negb (write_pending c))
         || (negb (writefd c =? FD_UNINIT) && match check with Some _ => true | None => false end && close_allowed)
      then close_chan_fd (writefd c) SHUT_WR c w else (c, w) in
    let* (c, p) := if negb (sent_eof c) && out_closed c then send_msg_channel_eof c (ses s) else Ok (c, ses s) in
    let* (c, p, w) :=
      if (readfd c =? FD_CLOSED) && (writefd c =? FD_CLOSED) && (ERRFD_IS_WRITE c || (errfd c =? FD_CLOSED))
         && negb (sent_close c) && close_allowed && negb (write_pending c)
      then send_msg_channel_close c p w else Ok (c, p, w) in
    Ok (put_chan i c (with_world w (with_ses p s))).

(** ** The table *)

(** [chaninitialise], then [svr_chansessinitialise]. *)
Definition chaninitialise (p : P) (w : W) (prio : dropbear_prio) (sock_out : Z) : chses :=
  mkchses p w [None] 0 prio sock_out ∅ (fst svr_chansessinitialise) (snd svr_chansessinitialise).

(** The lowest free slot, or one past the end. *)
Fixpoint free_slot {A} (l : list (option A)) : nat :=
  match l with
  | [] => 0
  | None :: _ => 0
  | Some _ :: l => S (free_slot l)
  end.

Definition newchannel (remotechan type transwindow transmaxpacket : Z) (s : chses) : outcome (option nat * chses) :=
  let i := free_slot (channels s) in
  if bool_decide (i = length (channels s)) && (MAX_CHANNELS <=? zlen (channels s)) then Ok (None, s)
  else
    let l := if bool_decide (i = length (channels s)) then channels s ++ replicate CHAN_EXTEND_SIZE None else channels s in
    let* wb := cbuf_new recv_window in
    let c := mkchannel i remotechan recv_window transwindow 0 RECV_MAX_CHANNEL_DATA_LEN transmaxpacket
               FD_UNINIT FD_UNINIT FD_CLOSED false wb None false false false false false None false type
               DROPBEAR_PRIO_NORMAL None in
    Ok (Some i, with_chancount (u32 (chancount s + 1)) (with_channels (<[i := Some c]> l) s)).

(** [getchannel_msg]: the channel number at the position of the payload. *)
Definition getchannel_msg (kind : option string) (s : chses) : outcome (nat * chses) :=
  let* (n, s) := pr buf_getint s in
  if zlen (channels s) <=? n then Exit "Unknown channel %d"
  else match channels s !! Z.to_nat n with
       | Some (Some _) => Ok (Z.to_nat n, s)
       | _ => Exit (match kind with Some _ => "%s for unknown channel %d" | None => "Unknown channel %d" end)
       end.

Definition getchannel (s : chses) : outcome (nat * chses) := getchannel_msg None s.

(** Removes what is left, slot by slot. *)
Fixpoint chancleanup_from (n : nat) (i : nat) (s : chses) : outcome chses :=
  match n with
  | O => Ok s
  | S n =>
      let* s := match channels s !! i with
                | Some (Some c) => remove_channel (index c) s
                | _ => Ok s
                end in
      chancleanup_from n (S i) s
  end.

Definition chancleanup (s : chses) : outcome chses :=
  let* s := chancleanup_from (length (channels s)) 0 s in Ok (with_channels [] s).

(** ** Data from the wire *)

(** The buffer for the standard input of the program, or ([ext]) the one for extended data. *)
Definition chan_cbuf (ext : bool) (c : Channel) : option circbuffer := if ext then extrabuf c else Some (writebuf c).

Definition put_cbuf (ext : bool) (b : circbuffer) (c : Channel) : Channel :=
  if ext then with_extrabuf (Some b) c else with_writebuf b c.

(** The bytes given to [writev], whether it succeeded, and [*morelen]. *)
Definition writechannel_writev (ext : bool) (fd : Z) (moredata : option bytes) (c : Channel) (w : W)
  : outcome (bool * Z * Channel * W) :=
  match chan_cbuf ext c with
  | None => Undef
  | Some cbuf =>
      let* circ := cbuf_peek cbuf in
      if bool_decide (circ = []) && match moredata with None => true | Some _ => false end then Ok (true, 0, c, w)
      else
        let '(r, w) := sys_writev fd (circ ++ default [] moredata) w in
        match r with
        | WriteAgain => Ok (true, 0, c, w)
        | WriteError => let '(c, w) := close_chan_fd fd SHUT_WR c w in Ok (false, 0, c, w)
        | Written written =>
            let cbuf_written := Z.min (zlen circ) written in
            let* cbuf := cbuf_incrread cbuf cbuf_written in
            let c := put_cbuf ext cbuf c in
            Ok (true, written - cbuf_written, with_recvdonelen (u32 (recvdonelen c + written)) c, w)
        end
  end.

(** The window adjustment at the end of [writechannel], with its assertions. *)
Definition writechannel_window (c : Channel) (p : P) : outcome (Channel * P) :=
  let* (c, p) :=
    if RECV_WINDOWEXTEND <=? recvdonelen c then
      let* p := send_msg_channel_window_adjust c (recvdonelen c) p in
      Ok (with_recvdonelen 0 (with_recvwindow (u32 (recvwindow c + recvdonelen c)) c), p)
    else Ok (c, p) in
  let* _ := oassert (recvwindow c <=? recv_window) in
  let* _ := oassert (recvwindow c <=? cbuf_getavail (writebuf c)) in
  let* _ := oassert (match extrabuf c with None => true | Some eb => recvwindow c <=? cbuf_getavail eb end) in
  Ok (c, p).

Definition writechannel (ext : bool) (fd : Z) (moredata : option bytes) (c : Channel) (p : P) (w : W)
  : outcome (bool * Z * Channel * P * W) :=
  let* (ret, morelen, c, w) := writechannel_writev ext fd moredata c w in
  let* (c, p) := writechannel_window c p in
  Ok (ret, morelen, c, p, w).

(** The loop that keeps what was not written at once; each turn takes at least one byte. *)
Fixpoint cbuf_put_all (fuel : nat) (cbuf : circbuffer) (bs : bytes) : outcome circbuffer :=
  if 0 <? zlen bs then
    match fuel with
    | O => Undef
    | S fuel =>
        let* buflen := cbuf_writelen cbuf in
        let buflen := Z.min buflen (zlen bs) in
        let* cbuf := cbuf_append cbuf (take (Z.to_nat buflen) bs) in
        cbuf_put_all fuel cbuf (drop (Z.to_nat buflen) bs)
    end
  else Ok cbuf.

Definition common_recv_msg_channel_data (ext : bool) (i : nat) (s : chses) : outcome chses :=
  let* c := chan i s in
  let fd := if ext then errfd c else writefd c in
  let* _ := exit_if (recv_eof c) "Received data after eof" in
  match chan_cbuf ext c with
  | None => Ok s
  | Some cbuf =>
      if fd <? 0 then Ok s
      else
        let* (datalen, s) := pr buf_getint s in
        let* _ := exit_if (cbuf_getavail cbuf <? datalen) "Oversized packet" in
        let* _ := oassert (datalen <=? recvwindow c) in
        let c := with_recvwindow (u32 (recvwindow c - datalen)) c in
        let* _ := oassert (recvwindow c <=? recv_window) in
        let* (data, s) := pr (fun b => let* d := buf_read b datalen in Ok (d, b)) s in
        let* (res, consumed, c, p, w) := writechannel ext fd (Some data) c (ses s) (world s) in
        let s := with_world w (with_ses p s) in
        let* (_, s) := pr (fun b => let* b := buf_incrpos b consumed in Ok (tt, b)) s in
        if res then
          match chan_cbuf ext c with
          | None => Undef
          | Some cbuf =>
              let rest := drop (Z.to_nat consumed) data in
              let* cbuf := cbuf_put_all (length rest) cbuf rest in
              let* (_, s) := pr (fun b => let* b := buf_incrpos b (zlen rest) in Ok (tt, b)) s in
              Ok (put_chan i (put_cbuf ext cbuf c) s)
          end
        else Ok (put_chan i c s)
  end.

Definition recv_msg_channel_data (s : chses) : outcome chses :=
  let* (i, s) := getchannel s in common_recv_msg_channel_data false i s.

(** The window the peer gives saturates at the largest 32-bit number. *)
Definition recv_msg_channel_window_adjust (s : chses) : outcome chses :=
  let* (i, s) := getchannel s in
  let* (incr, s) := pr buf_getint s in
  let* c := chan i s in
  let newwin := u32 (transwindow c + incr) in
  Ok (put_chan i (with_transwindow (if newwin <? transwindow c then 4294967295 else newwin) c) s).

(** ** Data to the wire *)

(** What a channel may still send in one packet. *)
Definition channel_maxlen (isextended : bool) (c : Channel) (size : Z) : Z :=
  Z.min (Z.min (transwindow c) (transmaxpacket c)) (u32 (size - 1 - 4 - 4 - (if isextended then 4 else 0))).

Definition reset_writepayload (b : buffer) : outcome buffer := let* b := buf_setpos b 0 in buf_setlen b 0.

Definition send_msg_channel_data (isextended : bool) (c : Channel) (p : P) (w : W) : outcome (Channel * P * W) :=
  let* _ := oassert (negb (sent_close c)) in
  let fd := if isextended then errfd c else readfd c in
  let* _ := oassert (0 <=? fd) in
  let maxlen := channel_maxlen isextended c (buf_size (ses_writepayload p)) in
  if maxlen =? 0 then Ok (c, p, w)
  else
    let* p := pw (fun b => buf_putbyte b (if isextended then SSH_MSG_CHANNEL_EXTENDED_DATA else SSH_MSG_CHANNEL_DATA)) p in
    let* p := pw (fun b => buf_putint b (remotechan c)) p in
    let* p := if isextended then pw (fun b => buf_putint b SSH_EXTENDED_DATA_STDERR) p else Ok p in
    let size_pos := buf_pos (ses_writepayload p) in
    let* p := pw (fun b => buf_putint b 0) p in
    let* ptr := buf_getwriteptr (ses_writepayload p) maxlen in
    let '(r, w) := sys_read fd maxlen w in
    match r with
    | FdData [] | FdError =>
        let '(c, w) := close_chan_fd fd SHUT_RD c w in
        let* p := pw reset_writepayload p in Ok (c, p, w)
    | FdEintr => let* p := pw reset_writepayload p in Ok (c, p, w)
    | FdData bs =>
        let* p := pw (fun b => buf_overwrite b ptr bs) p in
        let* p := pw (fun b => buf_incrwritepos b (zlen bs)) p in
        let* p := pw (fun b => buf_setpos b size_pos) p in
        let* p := pw (fun b => buf_putint b (zlen bs)) p in
        let* p := ses_encrypt_packet p in
        Ok (with_transwindow (u32 (transwindow c - zlen bs)) c, p, w)
    end.

(** ** The main loop's part *)

(** The descriptors to wait for, reading and writing. *)
Definition chan_fds (dataallowed allow_reads : bool) (c : Channel) : list Z * list Z :=
  let rd :=
    if (0 <? transwindow c) && (dataallowed && allow_reads) then
      (if 0 <=? readfd c then [readfd c] else [])
      ++ (if ERRFD_IS_READ c && (0 <=? errfd c) then [errfd c] else [])
    else [] in
  let wr :=
    (if (0 <=? writefd c) && (0 <? cbuf_getused (writebuf c)) then [writefd c] else [])
    ++ match extrabuf c with
       | Some eb => if (0 <=? errfd c) && (0 <? cbuf_getused eb) then [errfd c] else []
       | None => []
       end in
  (rd, wr).

Definition setchannelfds (allow_reads : bool) (s : chses) : list Z * list Z :=
  let l := map (chan_fds (ses_dataallowed (ses s)) allow_reads) (omap id (channels s)) in
  (concat (map fst l), concat (map snd l)).

(** One channel's turn: what [select] reported, then the closing. *)
Definition channel_io_one (readfds writefds : Z -> bool) (channel_signal_pending : bool) (i : nat) (s : chses) : outcome chses :=
  match channels s !! i with
  | Some (Some c) =>
      let p := ses s in
      let w := world s in
      let r1 := (0 <=? readfd c) && readfds (readfd c) in
      let* (c, p, w) := if r1 then send_msg_channel_data false c p w else Ok (c, p, w) in
      let r2 := ERRFD_IS_READ c && (0 <=? errfd c) && readfds (errfd c) in
      let* (c, p, w) := if r2 then send_msg_channel_data true c p w else Ok (c, p, w) in
      let r3 := (0 <=? writefd c) && writefds (writefd c) in
      let* (c, p, w) :=
        if r3 then let* (_, _, c, p, w) := writechannel false (writefd c) None c p w in Ok (c, p, w) else Ok (c, p, w) in
      let r4 := ERRFD_IS_WRITE c && (0 <=? errfd c) && writefds (errfd c) in
      let* (c, p, w) :=
        if r4 then let* (_, _, c, p, w) := writechannel true (errfd c) None c p w in Ok (c, p, w) else Ok (c, p, w) in
      let s := put_chan i c (with_world w (with_ses p s)) in
      if r1 || r2 || r3 || r4 || channel_signal_pending then check_close i s else Ok s
  | _ => Ok s
  end.

Fixpoint channelio_from (n i : nat) (readfds writefds : Z -> bool) (sig : bool) (s : chses) : outcome chses :=
  match n with
  | O => Ok s
  | S n => let* s := channel_io_one readfds writefds sig i s in channelio_from n (S i) readfds writefds sig s
  end.

(** [channelio]; [handle_listeners] accepts the new connections (listener.c). *)
Definition channelio (handle_listeners : (Z -> bool) -> chses -> outcome chses) (readfds writefds : Z -> bool)
    (channel_signal_pending : bool) (s : chses) : outcome chses :=
  let* s := channelio_from (length (channels s)) 0 readfds writefds channel_signal_pending s in
  handle_listeners readfds s.

(** ** Messages received *)

Definition recv_msg_channel_eof (s : chses) : outcome chses :=
  let* (i, s) := getchannel_msg (Some "EOF"%string) s in
  let* c := chan i s in
  check_close i (put_chan i (with_recv_eof true c) s).

Definition recv_msg_channel_close (s : chses) : outcome chses :=
  let* (i, s) := getchannel_msg (Some "Close"%string) s in
  let* c := chan i s in
  check_close i (put_chan i (with_recv_close true (with_recv_eof true c)) s).

Definition recv_msg_channel_request (s : chses) : outcome chses :=
  let* (i, s) := getchannel s in
  let* c := chan i s in
  match ct_reqhandler (type c) with
  | Some h => h i s
  | None =>
      let* (_, s) := pr (fun b => let* b := buf_eatstring b in Ok (tt, b)) s in
      let* (wantreply, s) := pr buf_getbool s in
      if negb (wantreply =? 0) then on_ses (send_msg_channel_failure c) s else Ok s
  end.

(** [strcmp] of a received string, up to its first NUL, with the name of a type. *)
Definition find_chantype (name : bytes) : option Z :=
  match list_find (fun tn => cstr name = snd tn) ct_names with Some (_, (type, _)) => Some type | None => None end.

(** The initialisation by the type: [inl] when the open failed, with the reason. *)
Definition recv_msg_channel_open (s : chses) : outcome chses :=
  let* (type, typelen, s) :=
    pr (fun b => let* (t, l, b) := buf_getstring b in Ok ((t, l), b)) s in
  let* (remotechan, s) := pr buf_getint s in
  let* (transwindow, s) := pr buf_getint s in
  let* (transmaxpacket, s) := pr buf_getint s in
  let transmaxpacket := Z.min transmaxpacket TRANS_MAX_PAYLOAD_LEN in
  let failure errtype s := on_ses (send_msg_channel_open_failure remotechan errtype [] []) s in
  if MAX_NAME_LEN <? typelen then failure SSH_OPEN_UNKNOWN_CHANNEL_TYPE s
  else match find_chantype type with
  | None => failure SSH_OPEN_UNKNOWN_CHANNEL_TYPE s
  | Some chantype =>
      let* (channel, s) := newchannel remotechan chantype transwindow transmaxpacket s in
      match channel with
      | None => failure SSH_OPEN_RESOURCE_SHORTAGE s
      | Some i =>
          let* (ret, s) := match ct_inithandler chantype with Some h => h i s | None => Ok (0, s) end in
          if ret =? SSH_OPEN_IN_PROGRESS then Ok s
          else if 0 <? ret then
            let* s := remove_channel i s in failure ret s
          else
            let s := update_channel_prio s in
            let* c := chan i s in
            on_ses (send_msg_channel_open_confirmation c (recvwindow c) (recvmaxpacket c)) s
      end
  end.

(** The server opens a channel over [fd]; the caller completes the message in the write
    payload and sends it. [false]: DROPBEAR_FAILURE. *)
Definition send_msg_channel_open_init (fd type : Z) (s : chses) : outcome (bool * chses) :=
  let* (channel, s) := newchannel 0 type 0 0 s in
  match channel with
  | None => Ok (false, s)
  | Some i =>
      let* c := chan i s in
      let c := with_await_open true (with_bidir_fd true (with_readfd fd (with_writefd fd c))) in
      let s := put_chan i c s in
      let* s := on_ses (fun p =>
        let* p := pw (fun b => buf_putbyte b SSH_MSG_CHANNEL_OPEN) p in
        let* p := pw (fun b => buf_putstring b (ct_name type) (zlen (ct_name type))) p in
        let* p := pw (fun b => buf_putint b (Z.of_nat (index c))) p in
        let* p := pw (fun b => buf_putint b recv_window) p in
        pw (fun b => buf_putint b RECV_MAX_CHANNEL_DATA_LEN) p) s in
      Ok (true, s)
  end.

Definition recv_msg_channel_open_confirmation (s : chses) : outcome chses :=
  let* (i, s) := getchannel s in
  let* c := chan i s in
  let* _ := exit_if (negb (await_open c)) "Unexpected channel reply" in
  let c := with_await_open false c in
  let* (remotechan, s) := pr buf_getint s in
  let* (transwindow, s) := pr buf_getint s in
  let* (transmaxpacket, s) := pr buf_getint s in
  let c := with_transmaxpacket transmaxpacket (with_transwindow transwindow (with_remotechan remotechan c)) in
  let s := put_chan i c s in
  let* (ret, s) := match ct_inithandler (type c) with Some h => h i s | None => Ok (0, s) end in
  if 0 <? ret then remove_channel i s else Ok (update_channel_prio s).

Definition recv_msg_channel_open_failure (s : chses) : outcome chses :=
  let* (i, s) := getchannel s in
  let* c := chan i s in
  let* _ := exit_if (negb (await_open c)) "Unexpected channel reply" in
  remove_channel i (put_chan i (with_await_open false c) s).

(** The end of a connection in progress: [sock] when it succeeded, or the error. *)
Definition channel_connect_done (result : Z + bytes) (user_data : nat) (s : chses) : outcome chses :=
  let* c := chan user_data s in
  match result with
  | inl sock =>
      let c := with_conn_pending None (with_bidir_fd true (with_readfd sock (with_writefd sock c))) in
      let s := put_chan user_data c s in
      on_ses (send_msg_channel_open_confirmation c (recvwindow c) (recvmaxpacket c)) s
  | inr errstring =>
      let* s := on_ses (send_msg_channel_open_failure (remotechan c) SSH_OPEN_CONNECT_FAILED errstring []) s in
      remove_channel user_data s
  end.

(** [c->cb(...)] then [remove_connect]; a cancelled connection closes its socket. *)
Definition connect_finished (k : nat) (result : Z + bytes) (s : chses) : outcome chses :=
  let* s := match conns s !! k with
            | Some (ChannelConnectDone i) => channel_connect_done result i s
            | Some CancelCallback =>
                Ok (match result with inl sock => with_world (m_close sock (world s)) s | inr _ => s end)
            | None => Undef
            end in
  Ok (with_conns (delete k (conns s)) s).

Definition chan_ready (o : option Channel) : bool :=
  match o with Some c => negb (sent_eof c || recv_eof c) && negb (await_open c) | None => false end.

Definition get_any_ready_channel (s : chses) : option nat :=
  if chancount s =? 0 then None
  else fst <$> list_find (fun o => chan_ready o = true) (channels s).

Definition start_send_channel_request (c : Channel) (type : bytes) (p : P) : outcome P :=
  let* p := pw (fun b => buf_putbyte b SSH_MSG_CHANNEL_REQUEST) p in
  let* p := pw (fun b => buf_putint b (remotechan c)) p in
  pw (fun b => buf_putstring b type (zlen type)) p.
End channel.
