(* ===== verification/ChannelLaws.v ===== *)
(** * What the channels rely on, and the messages they send

    [SessionLaws], [SysLaws] and [TypeLaws] are the contracts between the channels and the
    session, the kernel and the channel types.  [sent] is the list of the payloads given to
    [encrypt_packet], the view of the session on which the theorems about messages are
    stated. *)

From S2P Require Import Prelude Bytes Buffer CircBuffer Packet Channel.

(** ** The session *)

(** The write payload between two messages. *)
Definition blank (b : buffer) : Prop := view b [] 0 TRANS_MAX_PAYLOAD_LEN.

Class SessionLaws (P : Type) {SP : Session P} := {
  ses_ok : P -> Prop;
  sent : P -> list bytes;
  sl_wp_wp b p : ses_writepayload (ses_set_writepayload b p) = b;
  sl_set_wp a b p : ses_set_writepayload a (ses_set_writepayload b p) = ses_set_writepayload a p;
  sl_set_pl a b p : ses_set_payload a (ses_set_payload b p) = ses_set_payload a p;
  sl_pl_wp b p : ses_payload (ses_set_writepayload b p) = ses_payload p;
  sl_pl_pl b p : ses_payload (ses_set_payload b p) = Some b;
  sl_wp_pl b p : ses_writepayload (ses_set_payload b p) = ses_writepayload p;
  sl_sent_wp b p : sent (ses_set_writepayload b p) = sent p;
  sl_sent_pl b p : sent (ses_set_payload b p) = sent p;
  sl_ok_wp b p : ses_ok p -> wf b -> buf_size b = TRANS_MAX_PAYLOAD_LEN -> ses_ok (ses_set_writepayload b p);
  sl_ok_pl b p : ses_ok p -> wf b -> ses_ok (ses_set_payload b p);
  sl_encrypt p m q : ses_ok p -> view (ses_writepayload p) m q TRANS_MAX_PAYLOAD_LEN -> m <> [] ->
    safe (fun p' => ses_ok p' /\ blank (ses_writepayload p') /\ ses_payload p' = ses_payload p /\
            sent p' = sent p ++ [m]) (ses_encrypt_packet p);
}.

(** ** The kernel *)

(** [fd_out fd w] is what has been written to [fd]. *)
Class SysLaws (W : Type) {SW : Sys W} := {
  fd_out : Z -> W -> bytes;
  wl_read fd n w bs w' : 0 <= n -> sys_read fd n w = (FdData bs, w') -> zlen bs <= n /\ bytes_ok bs;
  wl_writev fd bs w n w' : sys_writev fd bs w = (Written n, w') ->
    0 <= n <= zlen bs /\ fd_out fd w' = fd_out fd w ++ take (Z.to_nat n) bs;
  wl_writev_none fd bs w r w' : sys_writev fd bs w = (r, w') -> (forall n, r <> Written n) -> fd_out fd w' = fd_out fd w;
}.

Section messages.
Context {P : Type} {SP : Session P} {L : SessionLaws P}.

(** The session ready for a message, and in the middle of writing one. *)
Definition idle (p : P) : Prop := ses_ok p /\ blank (ses_writepayload p).

Definition filled (p0 : P) (bs : bytes) (p : P) : Prop :=
  exists b, p = ses_set_writepayload b p0 /\ view b bs (zlen bs) TRANS_MAX_PAYLOAD_LEN.

(** The session with its payload left where it is, after more messages. *)
Definition talked (p : P) (ms : list bytes) (p' : P) : Prop :=
  idle p' /\ ses_payload p' = ses_payload p /\ sent p' = sent p ++ ms.

Definition sends (p : P) (m : bytes) : outcome P -> Prop := safe (talked p [m]).

Lemma talked_refl p : idle p -> talked p [] p.
Proof. intros. split; [done|]. split; [done|]. by rewrite app_nil_r. Qed.

Lemma talked_trans p1 p2 p3 l1 l2 : talked p1 l1 p2 -> talked p2 l2 p3 -> talked p1 (l1 ++ l2) p3.
Proof. intros (_ & H1 & H2) (H3 & H4 & H5). split; [done|]. split; [congruence|]. rewrite H5, H2. by rewrite app_assoc. Qed.

Lemma view_fields b bs p sz : view b bs p sz -> buf_pos b = p /\ buf_size b = sz /\ wf b.
Proof. by intros []. Qed.

(** The first write of a message starts from the blank payload. *)
Lemma pw_start (f : buffer -> outcome buffer) (p : P) bs :
  idle p -> (forall b, blank b -> exists b', f b = Ok b' /\ view b' bs (zlen bs) TRANS_MAX_PAYLOAD_LEN) ->
  exists p', pw f p = Ok p' /\ filled p bs p'.
Proof.
  intros [_ Hb] Hf. destruct (Hf _ Hb) as (b' & Hb' & Hv). unfold pw. rewrite Hb'. cbn.
  eexists. split; [done|]. by exists b'.
Qed.

Lemma pw_more (f : buffer -> outcome buffer) (p0 p : P) bs bs' :
  filled p0 bs p -> (forall b, view b bs (zlen bs) TRANS_MAX_PAYLOAD_LEN -> exists b', f b = Ok b' /\ view b' bs' (zlen bs') TRANS_MAX_PAYLOAD_LEN) ->
  exists p', pw f p = Ok p' /\ filled p0 bs' p'.
Proof.
  intros (b & -> & Hv) Hf. destruct (Hf _ Hv) as (b' & Hb' & Hv'). unfold pw. rewrite sl_wp_wp, Hb'. cbn.
  eexists. split; [done|]. exists b'. split; [by rewrite sl_set_wp|done].
Qed.

Lemma putbyte_end b bs v : view b bs (zlen bs) TRANS_MAX_PAYLOAD_LEN -> is_byte v -> zlen bs + 1 <= TRANS_MAX_PAYLOAD_LEN ->
  exists b', buf_putbyte b v = Ok b' /\ view b' (bs ++ [v]) (zlen (bs ++ [v])) TRANS_MAX_PAYLOAD_LEN.
Proof. apply append_byte. Qed.

Lemma putint_end b bs v : view b bs (zlen bs) TRANS_MAX_PAYLOAD_LEN -> zlen bs + 4 <= TRANS_MAX_PAYLOAD_LEN ->
  exists b', buf_putint b v = Ok b' /\ view b' (bs ++ store32h v) (zlen (bs ++ store32h v)) TRANS_MAX_PAYLOAD_LEN.
Proof. apply append_int. Qed.

Lemma putbytes_end b bs x : view b bs (zlen bs) TRANS_MAX_PAYLOAD_LEN -> bytes_ok x -> zlen bs + zlen x <= TRANS_MAX_PAYLOAD_LEN ->
  exists b', buf_putbytes b x (zlen x) = Ok b' /\ view b' (bs ++ x) (zlen (bs ++ x)) TRANS_MAX_PAYLOAD_LEN.
Proof. apply append_bytes. Qed.

Lemma putstring_end b bs x : view b bs (zlen bs) TRANS_MAX_PAYLOAD_LEN -> bytes_ok x -> zlen bs + 4 + zlen x <= TRANS_MAX_PAYLOAD_LEN ->
  exists b', buf_putstring b x (zlen x) = Ok b' /\ view b' (bs ++ ssh_string x) (zlen (bs ++ ssh_string x)) TRANS_MAX_PAYLOAD_LEN.
Proof. apply append_string. Qed.

Lemma encrypt_at p0 b bs q : idle p0 -> view b bs q TRANS_MAX_PAYLOAD_LEN -> bs <> [] ->
  sends p0 bs (ses_encrypt_packet (ses_set_writepayload b p0)).
Proof.
  intros [Hok Hb] Hv Hne. pose proof Hv as [Hw _ _ Hs].
  eapply safe_mono; [apply (sl_encrypt _ bs q); [by apply sl_ok_wp|by rewrite sl_wp_wp|done]|].
  intros p' (? & ? & Hp & Hsent). cbn beta. rewrite sl_pl_wp in Hp. rewrite sl_sent_wp in Hsent. split; [by split|by split].
Qed.

Lemma encrypt_filled p0 bs p : idle p0 -> filled p0 bs p -> bs <> [] -> sends p0 bs (ses_encrypt_packet p).
Proof. intros Hi (b & -> & Hv) Hne. by eapply encrypt_at. Qed.

Lemma pw_bind (f g : buffer -> outcome buffer) p :
  (let* p := pw f p in pw g p) = pw (fun b => let* b := f b in g b) p.
Proof.
  unfold pw. destruct (f (ses_writepayload p)); cbn [obind]; [|done..]. rewrite sl_wp_wp.
  destruct (g a); cbn [obind]; [|done..]. by rewrite sl_set_wp.
Qed.

(** Giving up a message half-written. *)
Lemma reset_filled p0 bs p : idle p0 -> filled p0 bs p -> exists p', pw reset_writepayload p = Ok p' /\ talked p0 [] p'.
Proof.
  intros [Hok Hb] (b & -> & Hv). unfold pw. rewrite sl_wp_wp. unfold reset_writepayload.
  destruct (view_setpos _ _ _ _ 0 Hv) as (b1 & -> & H1); [pose proof (zlen_nonneg bs); lia|]. cbn [obind].
  destruct (view_setlen _ _ _ _ 0 H1) as (b2 & ext & -> & H2 & He); [done|]. cbn [obind]. eexists. split; [done|].
  rewrite Z.max_l in He by (pose proof (zlen_nonneg bs); lia). destruct ext; [|unfold zlen in He; cbn in He; lia].
  cbn in H2. rewrite sl_set_wp. split; [split|split].
  - destruct H2. by apply sl_ok_wp.
  - unfold blank. by rewrite sl_wp_wp.
  - apply sl_pl_wp.
  - by rewrite sl_sent_wp, app_nil_r.
Qed.

End messages.

(** The room for the next field of a message. *)
Ltac room :=
  unfold TRANS_MAX_PAYLOAD_LEN, ssh_string in *; rewrite ?zlen_app, ?zlen_cons, ?zlen_nil;
  repeat match goal with |- context [zlen (store32h ?v)] => change (zlen (store32h v)) with 4 end; lia.

(** Run one write of a message whose start is known. *)
Ltac pwstep lem := let p := fresh "p" in let Hp := fresh "Hp" in let Hf := fresh "Hf" in
  match goal with
  | |- context [pw ?f ?q] =>
      lazymatch goal with
      | H : filled ?q0 ?bs q |- _ => edestruct (pw_more f q0 q bs) as (p & Hp & Hf); [exact H|intros; eapply lem; first [eassumption|done|room]|rewrite Hp; cbn [obind]; clear H Hp]
      | H : idle q |- _ => edestruct (pw_start f q) as (p & Hp & Hf); [exact H|intros; eapply (lem _ []); first [eassumption|done|room]|rewrite Hp; cbn [obind]; clear Hp]
      end
  end.

Section sending.
Context {P : Type} {SP : Session P} {L : SessionLaws P}.

Lemma send_simple_ok t c p : idle p -> is_byte t -> sends p (t :: store32h (remotechan c)) (send_msg_channel_simple t c p).
Proof.
  intros Hi Ht. unfold send_msg_channel_simple. pwstep putbyte_end. pwstep putint_end. by apply encrypt_filled.
Qed.

Lemma send_window_adjust_ok c incr p : idle p ->
  sends p (SSH_MSG_CHANNEL_WINDOW_ADJUST :: store32h (remotechan c) ++ store32h incr) (send_msg_channel_window_adjust c incr p).
Proof.
  intros Hi. unfold send_msg_channel_window_adjust. pwstep putbyte_end. pwstep putint_end. pwstep putint_end.
  by apply encrypt_filled.
Qed.

Lemma send_confirmation_ok c win mx p : idle p ->
  sends p (SSH_MSG_CHANNEL_OPEN_CONFIRMATION :: store32h (remotechan c) ++ store32h (Z.of_nat (index c)) ++ store32h win ++ store32h mx)
    (send_msg_channel_open_confirmation c win mx p).
Proof.
  intros Hi. unfold send_msg_channel_open_confirmation. pwstep putbyte_end. do 4 pwstep putint_end.
  by apply encrypt_filled.
Qed.

(** A text short enough for the message. *)
Definition text_ok (x : bytes) : Prop := bytes_ok x /\ zlen x <= 4096.

Lemma send_open_failure_ok rc reason text lang p : idle p -> text_ok text -> text_ok lang ->
  sends p (SSH_MSG_CHANNEL_OPEN_FAILURE :: store32h rc ++ store32h reason ++ ssh_string text ++ ssh_string lang)
    (send_msg_channel_open_failure rc reason text lang p).
Proof.
  intros Hi [Ht Htl] [Hl Hll]. unfold send_msg_channel_open_failure. 
  pwstep putbyte_end. do 2 pwstep putint_end.
  pwstep putstring_end.
  pwstep putstring_end.
  rewrite <- !app_assoc in *. by apply encrypt_filled.
Qed.

Lemma send_failure_ok c p : idle p -> safe (fun p' => exists l, talked p l p') (send_msg_channel_failure c p).
Proof.
  intros Hi. unfold send_msg_channel_failure. destruct (sent_close c); [exists []; by apply talked_refl|].
  eapply safe_mono; [by apply send_simple_ok|]. intros p' ?. by eexists.
Qed.

(** ** Data messages *)

Definition data_header (ext : bool) (rc : Z) : bytes :=
  (if ext then SSH_MSG_CHANNEL_EXTENDED_DATA else SSH_MSG_CHANNEL_DATA) :: store32h rc ++ (if ext then store32h SSH_EXTENDED_DATA_STDERR else []).

Definition data_msg (ext : bool) (rc : Z) (bs : bytes) : bytes := data_header ext rc ++ ssh_string bs.

(** The data read behind a length of zero, and the length put in afterwards. *)
Lemma fill_data ext rc p0 p bs : idle p0 -> filled p0 (data_header ext rc ++ store32h 0) p -> bytes_ok bs ->
  zlen (data_msg ext rc bs) <= TRANS_MAX_PAYLOAD_LEN ->
  sends p0 (data_msg ext rc bs)
    (let* p := pw (fun b => buf_overwrite b (zlen (data_header ext rc ++ store32h 0)) bs) p in
     let* p := pw (fun b => buf_incrwritepos b (zlen bs)) p in
     let* p := pw (fun b => buf_setpos b (zlen (data_header ext rc))) p in
     let* p := pw (fun b => buf_putint b (zlen bs)) p in
     ses_encrypt_packet p).
Proof.
  intros Hi (b & -> & Hv) Hbs Hlen. set (h := data_header ext rc) in *. pose proof (zlen_nonneg bs). pose proof (zlen_nonneg h).
  assert (Hl : zlen (h ++ store32h 0) = zlen h + 4) by (by rewrite zlen_app).
  assert (Hl2 : zlen (data_msg ext rc bs) = zlen h + 4 + zlen bs) by (unfold data_msg, ssh_string; rewrite !zlen_app; fold h; change (zlen (store32h (zlen bs))) with 4; lia).
  rewrite <- (obind_assoc (pw _ _)). rewrite pw_bind. unfold pw at 1. rewrite sl_wp_wp.
  destruct (view_putbytes b _ _ _ bs Hv Hbs) as (b1 & Hput & H1); [lia|].
  assert (buf_overwrite b (zlen (h ++ store32h 0)) bs = buf_write b (zlen bs) bs) as ->.
  { unfold buf_write, buf_overwrite. rewrite (view_getwriteptr _ _ _ _ _ Hv) by lia. done. }
  unfold buf_putbytes in Hput. rewrite Hput. cbn [obind]. rewrite sl_set_wp. unfold pw at 1. rewrite sl_wp_wp.
  rewrite blit_end in H1. destruct (view_setpos _ _ _ _ (zlen h) H1) as (b2 & -> & H2); [rewrite zlen_app; lia|].
  cbn [obind]. rewrite sl_set_wp. unfold pw. rewrite sl_wp_wp.
  destruct (view_putint _ _ _ _ (zlen bs) H2) as (b3 & -> & H3); [lia|]. cbn [obind]. rewrite sl_set_wp.
  rewrite <- app_assoc in H3. replace (zlen h) with (zlen h + 0) in H3 at 1 by lia. rewrite blit_app_r in H3 by done.
  rewrite blit_0 in H3. change (drop _ (store32h 0 ++ bs)) with bs in H3. by eapply encrypt_at.
Qed.
End sending.
