(* ===== verification/ChannelFlow.v ===== *)
(** * The flow control of one channel

    [chan_ok] is the invariant of a channel of the server; the window the peer has been
    given never exceeds what the circular buffer can take.  The theorems say what
    [writechannel], [send_msg_channel_data] and [close_chan_fd] do to a channel. *)

From S2P Require Import Prelude Bytes Buffer CircBuffer Packet SessionData Channel ChannelLaws.

(** [opts.recv_window] after [parse_recv_window]. *)
Definition MAX_RECV_WINDOW : Z := 10 * 1024 * 1024.

Record chan_ok (rw : Z) (i : nat) (c : Channel) : Prop := {
  co_index : index c = i;
  co_writebuf : cwf (writebuf c);
  co_size : cb_size (writebuf c) = rw;
  co_recvwindow : 0 <= recvwindow c;
  co_recvdonelen : 0 <= recvdonelen c;
  co_window : recvwindow c + recvdonelen c + cb_used (writebuf c) <= rw;
  co_transwindow : is_u32 (transwindow c);
  co_transmax : is_u32 (transmaxpacket c);
  co_extrabuf : extrabuf c = None;
  co_bidir : bidir_fd c = true -> errfd c = FD_CLOSED;
  co_pending : conn_pending c <> None -> errfd c = FD_CLOSED;
  co_await : await_open c = true -> conn_pending c = None /\ errfd c = FD_CLOSED;
  co_sent_eof : sent_eof c = true -> readfd c = FD_CLOSED /\ errfd c = FD_CLOSED;
  co_sent_close : sent_close c = true -> sent_eof c = true /\ writefd c = FD_CLOSED;
}.

(** ** Sessions *)

(** What a channel of the type of sessions points to. *)
Definition typed (c : Channel) : Prop :=
  type c = svrchansess -> conn_pending c = None /\ await_open c = false /\ exists cs, ctypedata c = Some cs /\ exit_ok (ses_exit cs).

(** [c'] is of the type of [c] and has the same data. *)
Record same_kind (c c' : Channel) : Prop := {
  sk_type : type c' = type c;
  sk_data : ctypedata c' = ctypedata c;
  sk_typed : typed c -> typed c';
}.

#[global] Instance same_kind_pre : PreOrder same_kind.
Proof. split; [by split|]. intros c1 c2 c3 [? ? ?] [? ? ?]. split; [congruence|congruence|auto]. Qed.

Lemma same_kind_pending c c' : type c' = type c -> ctypedata c' = ctypedata c -> conn_pending c' = conn_pending c ->
  await_open c' = await_open c \/ await_open c' = false -> same_kind c c'.
Proof.
  intros Ht Hd Hc Ha. split; [done..|]. unfold typed. rewrite Ht, Hd, Hc. intros H Hs. destruct (H Hs) as (? & ? & ?).
  split; [done|]. split; [destruct Ha; congruence|done].
Qed.

(** ** Closing descriptors *)

(** [c'] is [c] with some of its descriptors closed. *)
Record closes (c c' : Channel) : Prop := {
  cl_same : c' = with_errfd (errfd c') (with_readfd (readfd c') (with_writefd (writefd c') c));
  cl_readfd : readfd c' = readfd c \/ readfd c' = FD_CLOSED;
  cl_writefd : writefd c' = writefd c \/ writefd c' = FD_CLOSED;
  cl_errfd : errfd c' = errfd c \/ errfd c' = FD_CLOSED;
}.

Lemma closes_refl c : closes c c.
Proof. split; try (by left). by destruct c. Qed.

Lemma closes_trans c1 c2 c3 : closes c1 c2 -> closes c2 c3 -> closes c1 c3.
Proof.
  intros [H1 ? ? ?] [H2 ? ? ?]. split; [|intuition congruence..].
  rewrite H2, H1. by destruct c1.
Qed.

Lemma closes_ok rw i c c' : chan_ok rw i c -> closes c c' -> chan_ok rw i c'.
Proof.
  intros [] [-> Hr Hw He]. destruct c; cbn in *. split; cbn; try done; intuition congruence.
Qed.

Lemma closes_kind c c' : closes c c' -> same_kind c c'.
Proof. intros [-> _ _ _]. by split. Qed.

(** ** Reading the payload never fails an assertion *)

Lemma noassert_mem_read l o n : noassert (mem_read l o n).
Proof. unfold mem_read. by destruct (_ && _). Qed.

Lemma noassert_mem_get l o : noassert (mem_get l o).
Proof. unfold mem_get. destruct (0 <=? o); [|done]. by destruct (l !! _). Qed.

(** Every fatal error of an operation on buffers has a message of its own. *)
Ltac noassert_tac :=
  repeat first [ discriminate | apply noassert_mem_read | apply noassert_mem_get | apply noassert_exit_if; discriminate
               | apply noassert_bind; [|intros]
               | match goal with |- noassert (match ?x with _ => _ end) => destruct x end ].

Lemma noassert_read b n : noassert (buf_read b n).
Proof. unfold buf_read, buf_getptr. noassert_tac. Qed.

Lemma noassert_incrpos b n : noassert (buf_incrpos b n).
Proof. unfold buf_incrpos. noassert_tac. Qed.

Lemma noassert_getint b : noassert (buf_getint b).
Proof. unfold buf_getint, buf_read, buf_getptr, buf_incrpos. noassert_tac. Qed.

Lemma noassert_getbool b : noassert (buf_getbool b).
Proof. unfold buf_getbool, buf_getbyte. noassert_tac. Qed.

Lemma noassert_getstring b : noassert (buf_getstring b).
Proof. unfold buf_getstring, buf_getint, buf_read, buf_getptr, buf_incrpos. noassert_tac. Qed.

Lemma noassert_eatstring b : noassert (buf_eatstring b).
Proof. unfold buf_eatstring, buf_getint, buf_read, buf_getptr, buf_incrpos. noassert_tac. Qed.

Lemma safe_getint b : wf b -> safe (fun '(v, b') => is_u32 v /\ wf b') (buf_getint b).
Proof. intros. apply safe_split. split; [by apply buf_getint_post|apply noassert_getint]. Qed.

Lemma safe_read b n : wf b -> 0 <= n -> safe (fun bs => bytes_ok bs /\ zlen bs = n) (buf_read b n).
Proof. intros. apply safe_split. split; [by apply buf_read_post|apply noassert_read]. Qed.

Lemma safe_incrpos b n : wf b -> 0 <= n -> safe wf (buf_incrpos b n).
Proof. intros. apply safe_split. split; [by apply buf_incrpos_post|apply noassert_incrpos]. Qed.

Section flow.
Context {P W : Type} {SP : Session P} {LS : SessionLaws P} {SW : Sys W} {LW : SysLaws W} {CT : @ChanTypes P W}.
Context (rw : Z) (Hrw : 0 < rw <= MAX_RECV_WINDOW).

Abbreviation chan_ok := (chan_ok rw).
Abbreviation RECV_WINDOWEXTEND := (RECV_WINDOWEXTEND rw).

(** What is closed: the descriptor given, for reading, for writing or both. *)
Lemma close_chan_fd_closes fd how c (w : W) : closes c (fst (close_chan_fd fd how c w)).
Proof.
  unfold close_chan_fd. destruct c; cbn.
  repeat match goal with |- context [if ?b then _ else _] => destruct b eqn:?; cbn [fst] end;
    split; cbn; auto.
Qed.

(** Case analysis on everything [close_chan_fd] looks at. *)
Ltac close_cases c :=
  unfold close_chan_fd, SHUT_RD, SHUT_WR, SHUT_RDWR; destruct c as [? ? ? ? ? ? ? ? ? ? [] ? [] ? ? ? ? ? ? ? ? ?];
  cbn in *; try done;
  repeat match goal with |- context [if ?b then _ else _] => destruct b eqn:?; cbn in * end; blia; try done.

Lemma close_readfd c (w : W) : readfd (fst (close_chan_fd (readfd c) SHUT_RD c w)) = FD_CLOSED.
Proof. close_cases c. Qed.

Lemma close_writefd c (w : W) : writefd (fst (close_chan_fd (writefd c) SHUT_WR c w)) = FD_CLOSED.
Proof. close_cases c. Qed.

Lemma close_errfd how c (w : W) : extrabuf c = None -> bidir_fd c = false ->
  errfd (fst (close_chan_fd (errfd c) how c w)) = FD_CLOSED.
Proof. intros He Hb. close_cases c. Qed.

(** ** Writing to the program *)

(** The message for [n] more bytes of window, when enough have been consumed. *)
Definition adjust_msg (c : Channel) (done : Z) : list bytes :=
  if RECV_WINDOWEXTEND <=? done
  then [SSH_MSG_CHANNEL_WINDOW_ADJUST :: store32h (remotechan c) ++ store32h done] else [].

(** The windows of the channel after [n] bytes have gone to the program. *)
Definition consume (n : Z) (b : circbuffer) (c : Channel) : Channel :=
  let done := recvdonelen c + n in
  let c := with_writebuf b c in
  if RECV_WINDOWEXTEND <=? done then with_recvdonelen 0 (with_recvwindow (recvwindow c + done) c)
  else with_recvdonelen done c.

Lemma consume_kind n b c : same_kind c (consume n b c).
Proof. unfold consume. by destruct (_ <=? _); split. Qed.

(** What one [writechannel] with [data] behind the buffered bytes did. *)
Inductive write_step (fd : Z) (data : bytes) (c : Channel) (p : P) (w : W) :
    bool -> Z -> Channel -> P -> W -> Prop :=
| write_some n b c' p' w' :
    0 <= n <= zlen (contents (writebuf c) ++ data) -> cwf b -> cb_size b = cb_size (writebuf c) ->
    contents b = drop (Z.to_nat n) (contents (writebuf c)) ->
    c' = consume n b c -> fd_out fd w' = fd_out fd w ++ take (Z.to_nat n) (contents (writebuf c) ++ data) ->
    talked p (adjust_msg c (recvdonelen c + n)) p' ->
    write_step fd data c p w true (n - Z.min (zlen (contents (writebuf c))) n) c' p' w'
| write_error c1 c' p' w' :
    closes c c1 -> (fd = writefd c -> writefd c1 = FD_CLOSED) -> c' = consume 0 (writebuf c) c1 -> talked p (adjust_msg c (recvdonelen c)) p' ->
    write_step fd data c p w false 0 c' p' w'.

(** A channel that may still be given [n] more bytes. *)
Record writable (n : Z) (c : Channel) : Prop := {
  wr_writebuf : cwf (writebuf c);
  wr_size : cb_size (writebuf c) = rw;
  wr_recvwindow : 0 <= recvwindow c;
  wr_recvdonelen : 0 <= recvdonelen c;
  wr_window : recvwindow c + recvdonelen c + cb_used (writebuf c) + n <= rw;
  wr_extrabuf : extrabuf c = None;
}.

(** The part of [writechannel] after the write: the window adjustment and the assertions. *)
Lemma writechannel_adjust c (p : P) :
  idle p -> cwf (writebuf c) -> cb_size (writebuf c) = rw -> 0 <= recvwindow c -> 0 <= recvdonelen c ->
  recvwindow c + recvdonelen c + cb_used (writebuf c) <= rw -> extrabuf c = None ->
  safe (fun '(c', p') => c' = consume 0 (writebuf c) c /\ talked p (adjust_msg c (recvdonelen c)) p')
    (writechannel_window rw c p).
Proof.
  intros Hi Hb Hs Hw Hd Hsum He. pose proof (cwf_used _ Hb). unfold MAX_RECV_WINDOW in Hrw. unfold writechannel_window.
  eapply safe_bind with (P := fun '(c', p') => c' = consume 0 (writebuf c) c /\ talked p (adjust_msg c (recvdonelen c)) p').
  - unfold consume, adjust_msg. rewrite Z.add_0_r. destruct (RECV_WINDOWEXTEND <=? recvdonelen c).
    + eapply safe_bind; [by apply send_window_adjust_ok|]. intros p' _ Hp'. cbn. split; [|done].
      rewrite u32_small by lia. by destruct c.
    + cbn. split; [by destruct c|by apply talked_refl].
  - intros [c' p'] _ [-> Hp']. set (c' := consume _ _ _).
    assert (recvwindow c' <= rw /\ recvwindow c' <= cbuf_getavail (writebuf c') /\ extrabuf c' = None) as (H1 & H2 & H3).
    { unfold c', consume, cbuf_getavail. rewrite Z.add_0_r. destruct (_ <=? _); destruct c; cbn in *; rewrite u32_small by lia; subst; repeat split; lia. }
    rewrite (proj2 (Z.leb_le _ _) H1), (proj2 (Z.leb_le _ _) H2), H3. cbn. by split.
Qed.

Lemma consume_again n b c : consume n b c = consume 0 b (with_recvdonelen (recvdonelen c + n) (with_writebuf b c)).
Proof. unfold consume. destruct c; cbn. by rewrite !Z.add_0_r. Qed.

(** [writechannel] makes one step: some bytes, or an error that closes the descriptor. *)
Lemma writechannel_ok fd moredata c (p : P) (w : W) :
  writable (zlen (default [] moredata)) c -> idle p ->
  safe (fun '(ret, consumed, c', p', w') => write_step fd (default [] moredata) c p w ret consumed c' p' w')
    (writechannel rw false fd moredata c p w).
Proof.
  intros [Hb Hs Hw Hd Hsum He] Hi. set (data := default [] moredata) in *. pose proof (zlen_nonneg data).
  pose proof (contents_zlen _ Hb) as Hl. pose proof (cwf_used _ Hb). unfold MAX_RECV_WINDOW in Hrw.
  (* what is left to prove once [n] bytes have gone *)
  assert (Hafter : forall n b w', 0 <= n <= zlen (contents (writebuf c) ++ data) -> cwf b -> cb_size b = cb_size (writebuf c) ->
    contents b = drop (Z.to_nat n) (contents (writebuf c)) ->
    fd_out fd w' = fd_out fd w ++ take (Z.to_nat n) (contents (writebuf c) ++ data) ->
    safe (fun '(ret, consumed, c', p', w') => write_step fd data c p w ret consumed c' p' w')
      (let* (c1, p1) := writechannel_window rw (with_recvdonelen (recvdonelen c + n) (with_writebuf b c)) p in
       Ok (true, n - Z.min (zlen (contents (writebuf c))) n, c1, p1, w'))).
  { intros n b w' Hn Hb' Hs' Hc' Hout. pose proof (contents_zlen _ Hb') as Hl'. rewrite zlen_app in Hn.
    assert (cb_used b = Z.max 0 (cb_used (writebuf c) - n)) as Hu by (rewrite <- Hl', Hc'; unfold zlen in *; rewrite length_drop; lia).
    eapply safe_bind; [apply writechannel_adjust; destruct c; cbn in *; (done || congruence || lia)|].
    intros [c1 p1] _ [-> Htalk]. eapply write_some; [by rewrite zlen_app|done|done|done| |done|].
    - rewrite (consume_again n). by destruct c.
    - by destruct c. }
  assert (Hnone : forall w', fd_out fd w' = fd_out fd w ->
    safe (fun '(ret, consumed, c', p', w') => write_step fd data c p w ret consumed c' p' w')
      (let* (c1, p1) := writechannel_window rw c p in Ok (true, 0, c1, p1, w'))).
  { intros w' Hout. ospecialize* (Hafter 0 (writebuf c) w'); try done.
    - rewrite zlen_app. lia.
    - by rewrite Hout, app_nil_r.
    - rewrite Z.min_r in Hafter by lia. rewrite Z.add_0_r in Hafter. by destruct c. }
  unfold writechannel, writechannel_writev. cbn [chan_cbuf]. rewrite cbuf_peek_contents by done. cbn [obind].
  destruct (bool_decide (contents (writebuf c) = []) && _); [by apply Hnone|].
  destruct (sys_writev fd _ w) as [[n| |] w'] eqn:E.
  - apply wl_writev in E as [Hn Hout]. fold data in Hn, Hout. rewrite zlen_app in Hn.
    destruct (cbuf_incrread_ok (writebuf c) (Z.min (zlen (contents (writebuf c))) n) Hb) as (b & Hr & Hb' & Hc' & Hs'); [lia|].
    rewrite Hr. cbn [obind put_cbuf]. rewrite u32_small by (destruct c; cbn in *; lia).
    specialize (Hafter n b w'). destruct c; cbn in *. apply Hafter; [rewrite zlen_app; lia|done|done| |done].
    rewrite Hc'. destruct (Z.le_gt_cases n (zlen (contents writebuf))) as [|]; [by rewrite Z.min_r by lia|].
    rewrite Z.min_l by lia. rewrite !drop_ge by (unfold zlen in *; lia). done.
  - apply Hnone. by eapply wl_writev_none.
  - pose proof (close_chan_fd_closes fd SHUT_WR c w') as Hc. pose proof (close_writefd c w') as Hcw.
    assert (Hcl : fd = writefd c -> writefd (fst (close_chan_fd fd SHUT_WR c w')) = FD_CLOSED) by (by intros ->). clear Hcw.
    destruct (close_chan_fd fd SHUT_WR c w') as [c1 w1]. cbn [fst obind] in *.
    eapply safe_bind.
    + apply writechannel_adjust; destruct Hc as [-> ? ? ?]; destruct c; cbn in *; (done || lia).
    + intros [c2 p2] _ [-> Htalk]. cbn. destruct Hc as [Hc1 ? ? ?].
      eapply write_error; [by split|exact Hcl| |]; rewrite Hc1 in *; by destruct c.
Qed.

(** ** Keeping what could not be written *)

Lemma cbuf_put_all_ok fuel : forall cb bs, cwf cb -> cb_used cb + zlen bs <= cb_size cb -> (length bs <= fuel)%nat ->
  exists cb', cbuf_put_all fuel cb bs = Ok cb' /\ cwf cb' /\ contents cb' = contents cb ++ bs /\ cb_size cb' = cb_size cb.
Proof.
  induction fuel as [|fuel IH]; intros cb bs Hc Hroom Hfuel; cbn [cbuf_put_all]; destruct (Z.ltb_spec 0 (zlen bs)) as [Hp|Hp].
  1: unfold zlen in Hp; lia.
  1,3: exists cb; destruct bs; [by rewrite app_nil_r|unfold zlen in Hp; cbn in Hp; lia].
  destruct (cbuf_writelen_ok cb Hc) as (n & Hn & Hn0 & _ & _ & Hpos & _). rewrite Hn. cbn [obind].
  destruct (cbuf_append_ok cb (take (Z.to_nat (Z.min n (zlen bs))) bs) n Hc Hn) as (cb1 & Ha & Hc1 & Hcon & Hs1).
  { unfold zlen. rewrite length_take. lia. }
  rewrite Ha. cbn [obind]. pose proof (contents_zlen _ Hc) as Hl. pose proof (contents_zlen _ Hc1) as Hl1.
  rewrite Hcon, zlen_app, Hl, zlen_take in Hl1 by lia.
  destruct (IH cb1 (drop (Z.to_nat (Z.min n (zlen bs))) bs) Hc1) as (cb2 & H2 & Hw2 & Hcon2 & Hs2).
  { rewrite zlen_drop, <- Hl1 by lia. lia. }
  { rewrite length_drop. unfold zlen in *. lia. }
  exists cb2. split_and!; [done|done| |congruence]. by rewrite Hcon2, Hcon, <- app_assoc, take_drop.
Qed.

(** ** The invariant through a write *)

Lemma consume_ok i n b c : chan_ok i c -> cwf b -> cb_size b = rw -> 0 <= n ->
  recvwindow c + recvdonelen c + n + cb_used b <= rw -> chan_ok i (consume n b c).
Proof.
  intros [] Hb Hs Hn Hsum. pose proof (cwf_used _ Hb). unfold consume. destruct (_ <=? _); destruct c; cbn in *; split; cbn; try done; lia.
Qed.

Lemma chan_ok_writable i c : chan_ok i c -> writable 0 c.
Proof. intros []. split; try done. lia. Qed.

(** The main loop's call of [writechannel]. *)
Lemma write_step_ok i fd c (p : P) (w : W) ret consumed c' p' w' :
  chan_ok i c -> write_step fd [] c p w ret consumed c' p' w' -> chan_ok i c' /\ exists l, talked p l p'.
Proof.
  intros Hc Hst. pose proof Hc as [_ Hb Hs _ _ ? _ _ _ _ _ _ _]. pose proof (contents_zlen _ Hb) as Hl.
  destruct Hst as [n b c' p' w' Hn Hb' Hs' Hc' -> Hout Ht|c1 c' p' w' Hcl _ -> Ht]; (split; [|by eexists]).
  - rewrite app_nil_r in Hn. pose proof (contents_zlen _ Hb') as Hl'.
    apply consume_ok; [done|done|congruence|lia|]. rewrite <- Hl', Hc', zlen_drop by lia. lia.
  - assert (Hc1 : chan_ok i c1) by by eapply closes_ok. destruct Hcl as [Hsame _ _ _].
    assert (writebuf c1 = writebuf c) as <- by (rewrite Hsame; by destruct c).
    apply consume_ok; [done|by destruct Hc1..|lia|]. destruct Hc1. lia.
Qed.

(** ** Sending data *)

(** What one [send_msg_channel_data] did: nothing, perhaps closing the descriptor, or one
    message within the window and the packet size of the peer. *)
Inductive send_step (ext : bool) (c : Channel) (p : P) (w : W) : Channel -> P -> Prop :=
| send_nothing c' p' : closes c c' -> talked p [] p' -> send_step ext c p w c' p'
| send_data bs c' p' :
    (exists n w', sys_read (if ext then errfd c else readfd c) n w = (FdData bs, w')) ->
    0 < zlen bs -> zlen bs <= transwindow c -> zlen bs <= transmaxpacket c -> bytes_ok bs ->
    c' = with_transwindow (transwindow c - zlen bs) c -> talked p [data_msg ext (remotechan c) bs] p' ->
    send_step ext c p w c' p'.

Lemma send_msg_channel_data_ok i (ext : bool) c (p : P) (w : W) :
  chan_ok i c -> idle p -> sent_close c = false -> 0 <= (if ext then errfd c else readfd c) ->
  safe (fun '(c', p', w') => send_step ext c p w c' p') (send_msg_channel_data ext c p w).
Proof.
  intros Hc Hi Hsc Hfd. unfold send_msg_channel_data. rewrite Hsc. cbn [negb oassert obind].
  rewrite (proj2 (Z.leb_le _ _) Hfd). cbn [oassert obind]. pose proof Hi as [Hok Hb]. assert (buf_size (ses_writepayload p) = TRANS_MAX_PAYLOAD_LEN) as -> by apply Hb.
  set (maxlen := channel_maxlen ext c TRANS_MAX_PAYLOAD_LEN).
  assert (Hm : 0 <= maxlen /\ maxlen <= transwindow c /\ maxlen <= transmaxpacket c /\ zlen (data_header ext (remotechan c)) + 4 + maxlen <= TRANS_MAX_PAYLOAD_LEN).
  { destruct Hc as [? ? ? ? ? ? Hw Hx ? ? ? ? ? ?]. unfold is_u32 in *. unfold maxlen, channel_maxlen, TRANS_MAX_PAYLOAD_LEN.
    destruct ext; [change (u32 _) with 16371; change (zlen (data_header true _)) with 9|change (u32 _) with 16375; change (zlen (data_header false _)) with 5]; lia. }
  destruct (Z.eqb_spec maxlen 0) as [|Hne]; [apply send_nothing; [apply closes_refl|by apply talked_refl]|].
  assert (Hstart : exists p1, (let* p := pw (fun b => buf_putbyte b (if ext then SSH_MSG_CHANNEL_EXTENDED_DATA else SSH_MSG_CHANNEL_DATA)) p in
      let* p := pw (fun b => buf_putint b (remotechan c)) p in
      if ext then pw (fun b => buf_putint b SSH_EXTENDED_DATA_STDERR) p else Ok p) = Ok p1 /\ filled p (data_header ext (remotechan c)) p1).
  { destruct ext; pwstep putbyte_end; do 2 try pwstep putint_end; eexists; (split; [done|]);
      unfold data_header; by rewrite ?app_nil_r, <- ?app_assoc in *. }
  destruct Hstart as (p1 & Hstart & H1). rewrite <- !obind_assoc.
  rewrite <- obind_assoc in Hstart. rewrite Hstart. cbn [obind].
  assert (buf_pos (ses_writepayload p1) = zlen (data_header ext (remotechan c))) as ->.
  { destruct H1 as (b & -> & Hv). rewrite sl_wp_wp. by destruct Hv. }
  pwstep putint_end. rename Hf into H2.
  assert (buf_getwriteptr (ses_writepayload p0) maxlen = Ok (zlen (data_header ext (remotechan c) ++ store32h 0))) as ->.
  { destruct H2 as (b & -> & Hv). rewrite sl_wp_wp. apply (view_getwriteptr _ _ _ _ _ Hv); [lia|]. rewrite zlen_app. exact (proj2 (proj2 (proj2 Hm))). }
  cbn [obind]. destruct (sys_read _ maxlen w) as [r w'] eqn:Er. destruct (reset_filled _ _ _ Hi H2) as (p2 & Hreset & Htalk).
  assert (Hclose : safe (fun '(c', p', w') => send_step ext c p w c' p')
    (let '(c, w) := close_chan_fd (if ext then errfd c else readfd c) SHUT_RD c w' in let* p := pw reset_writepayload p0 in Ok (c, p, w))).
  { pose proof (close_chan_fd_closes (if ext then errfd c else readfd c) SHUT_RD c w') as Hcl.
    destruct (close_chan_fd _ _ _ _) as [c1 w1]. rewrite Hreset. cbn. by apply send_nothing. }
  destruct r as [[|x bs]| |]; [exact Hclose| | |exact Hclose].
  - pose proof Er as Hread. apply wl_read in Er as [Hlen Hbs]; [|lia]. set (d := x :: bs) in *. assert (0 < zlen d) by (unfold d; rewrite zlen_cons; pose proof (zlen_nonneg bs); lia).
    assert (zlen (data_msg ext (remotechan c) d) <= TRANS_MAX_PAYLOAD_LEN).
    { unfold data_msg, ssh_string. rewrite !zlen_app. change (zlen (store32h (zlen d))) with 4. lia. }
    pose proof (fill_data _ _ _ _ d Hi H2 Hbs ltac:(done)) as Hfill. rewrite <- !obind_assoc in *. eapply safe_bind; [exact Hfill|].
    intros p' _ Hp'. cbn. assert (is_u32 (transwindow c)) as Hu by apply Hc. unfold is_u32 in Hu. rewrite u32_small by lia.
    by apply (send_data _ _ _ _ d); try lia; eauto.
  - rewrite Hreset. cbn. apply send_nothing; [apply closes_refl|done].
Qed.
End flow.
