(* ===== verification/ChannelData.v ===== *)
(** * Data received on a channel

    [common_recv_msg_channel_data] takes the data out of the payload, gives it to the
    program behind what is already waiting and keeps the rest: nothing is lost, reordered or
    repeated unless the descriptor fails, and the windows stay consistent. *)

From S2P Require Import Prelude Bytes Buffer CircBuffer Packet Channel ChannelLaws ChannelFlow.

Section data.
Context {P W : Type} {SP : Session P} {LS : SessionLaws P} {SW : Sys W} {LW : SysLaws W} {CT : @ChanTypes P W}.
Context (rw : Z) (Hrw : 0 < rw <= MAX_RECV_WINDOW).

Abbreviation chses := (@Channel.chses P W).
Abbreviation chan_ok := (chan_ok rw).

Lemma chan_at i c (s : chses) : channels s !! i = Some (Some c) -> chan i s = Ok c.
Proof. unfold chan. by intros ->. Qed.

(** Reading the payload leaves everything else as it is. *)
Definition read_from (s s' : chses) : Prop :=
  exists pl, wf pl /\ s' = with_ses (ses_set_payload pl (ses s)) s.

Lemma pr_eq {A} (f : buffer -> outcome (A * buffer)) (s : chses) pl : ses_payload (ses s) = Some pl ->
  pr f s = let* (a, b) := f pl in Ok (a, with_ses (ses_set_payload b (ses s)) s).
Proof. unfold pr. by intros ->. Qed.

Lemma pr_safe {A} (Q : A -> Prop) (f : buffer -> outcome (A * buffer)) (s : chses) pl :
  ses_payload (ses s) = Some pl -> wf pl -> safe (fun '(a, b) => Q a /\ wf b) (f pl) ->
  safe (fun '(a, s') => Q a /\ read_from s s') (pr f s).
Proof.
  intros Hp Hw Hf. unfold pr. rewrite Hp. eapply safe_bind; [exact Hf|]. intros [a b] _ [Ha Hb]. cbn. split; [done|].
  by exists b.
Qed.

Lemma consume_writebuf n b c : writebuf (consume rw n b c) = b.
Proof. unfold consume. by destruct (_ <=? _). Qed.

(** What is not written fits behind what is left in the buffer. *)
Lemma write_step_room fd data c p w consumed c' p' w' :
  writable rw (zlen data) c -> write_step rw fd data c p w true consumed c' p' w' ->
  0 <= consumed <= zlen data /\ cwf (writebuf c') /\ cb_size (writebuf c') = rw /\ cb_used (writebuf c') + (zlen data - consumed) <= rw.
Proof.
  intros [Hb Hs Hw Hd Hsum _] Hst. remember true as ret. destruct Hst as [n b c' p' w' Hn Hb' Hs' Hcon -> _ _|]; [|done]. rewrite consume_writebuf.
  pose proof (contents_zlen _ Hb) as Hl. pose proof (contents_zlen _ Hb') as Hl'. rewrite zlen_app in Hn. pose proof (zlen_nonneg (contents (writebuf c))).
  assert (zlen (contents b) = Z.max 0 (zlen (contents (writebuf c)) - n)) by (rewrite Hcon; unfold zlen in *; rewrite length_drop; lia).
  pose proof (zlen_nonneg data). split_and!; [lia|lia|done|congruence|lia].
Qed.

(** The channel with [n] bytes of its window used. *)
Definition charged (n : Z) (c : Channel) : Channel := with_recvwindow (recvwindow c - n) c.

(** The result of receiving [data] on a channel; [pl0] is the payload behind the length. *)
Inductive recv_step (i : nat) (data : bytes) (c : Channel) (s : chses) : chses -> Prop :=
| recv_kept pl0 consumed c1 p' w' b pl :
    write_step rw (writefd c) data (charged (zlen data) c) (ses_set_payload pl0 (ses s)) (world s) true consumed c1 p' w' ->
    cwf b -> cb_size b = rw -> contents b = contents (writebuf c1) ++ drop (Z.to_nat consumed) data -> wf pl0 -> wf pl ->
    recv_step i data c s (put_chan i (with_writebuf b c1) (with_ses (ses_set_payload pl p') (with_world w' s)))
| recv_dropped pl0 c1 p' w' pl :
    write_step rw (writefd c) data (charged (zlen data) c) (ses_set_payload pl0 (ses s)) (world s) false 0 c1 p' w' ->
    wf pl0 -> wf pl -> recv_step i data c s (put_chan i c1 (with_ses (ses_set_payload pl p') (with_world w' s))).

Lemma idle_payload p pl : idle p -> wf pl -> idle (ses_set_payload pl p).
Proof. intros [Ho Hb] Hw. split; [by apply sl_ok_pl|]. by rewrite sl_wp_pl. Qed.

Lemma sl_pl_set p pl pl' : forall q : P, q = ses_set_payload pl' (ses_set_payload pl p) -> ses_payload q = Some pl' /\ ses_writepayload q = ses_writepayload p /\ sent q = sent p.
Proof. intros q ->. by rewrite sl_pl_pl, !sl_wp_pl, !sl_sent_pl. Qed.

(** Receiving data: the guards in the order of the code, then one [recv_step]. *)
Lemma common_recv_ok i c (s : chses) pl :
  channels s !! i = Some (Some c) -> chan_ok i c -> idle (ses s) -> ses_payload (ses s) = Some pl -> wf pl ->
  recv_eof c = false -> 0 <= writefd c ->
  match buf_getint pl with
  | Ok (n, pl1) =>
      n <= recvwindow c -> match buf_read pl1 n with
      | Ok data => safe (recv_step i data c s) (common_recv_msg_channel_data rw false i s)
      | m => common_recv_msg_channel_data rw false i s = match m with Exit e => Exit e | _ => Undef end
      end
  | Exit e => common_recv_msg_channel_data rw false i s = Exit e
  | Undef => False
  end.
Proof.
  intros Hlk Hc Hi Hpl Hw He Hfd. unfold common_recv_msg_channel_data. rewrite (chan_at _ _ _ Hlk). cbn [obind].
  rewrite He. cbn [exit_if obind chan_cbuf]. rewrite (proj2 (Z.ltb_ge _ _) Hfd). rewrite (pr_eq buf_getint s pl Hpl).
  pose proof (safe_getint pl Hw) as Hint. destruct (buf_getint pl) as [[n pl1]|e|]; [|done|destruct Hint]. destruct Hint as [Hn Hw1].
  intros Hwin. cbn [obind]. pose proof Hc as [_ Hb Hs Hrw0 Hd0 Hsum _ _ _ _ _ _ _]. pose proof (cwf_used _ Hb). unfold is_u32 in Hn.
  unfold MAX_RECV_WINDOW in Hrw. assert (cbuf_getavail (writebuf c) = rw - cb_used (writebuf c)) as Ha by (unfold cbuf_getavail; rewrite Hs, u32_small by lia; done).
  rewrite (proj2 (Z.ltb_ge (cbuf_getavail _) n)) by lia. rewrite (proj2 (Z.leb_le n (recvwindow c))) by done. cbn [exit_if oassert obind].
  rewrite u32_small by lia. fold (charged n c). set (c0 := charged n c).
  assert (recvwindow c0 <=? rw = true) as -> by (apply Z.leb_le; subst c0; destruct c; cbn in *; lia). cbn [oassert obind].
  set (s1 := with_ses (ses_set_payload pl1 (ses s)) s). assert (ses_payload (ses s1) = Some pl1) as Hpl1 by apply sl_pl_pl.
  rewrite (pr_eq _ s1 pl1 Hpl1). pose proof (safe_read pl1 n Hw1 ltac:(lia)) as Hread.
  destruct (buf_read pl1 n) as [data|e|]; [|done|destruct Hread]. destruct Hread as [Hdata Hlen]. cbn [obind].
  subst s1. cbn [ses world with_ses]. rewrite sl_set_pl. set (p1 := ses_set_payload pl1 (ses s)).
  assert (Hi1 : idle p1) by by apply idle_payload.
  assert (writable rw (zlen data) c0) as Hwr by (pose proof (co_extrabuf _ _ _ Hc); subst c0; destruct c; cbn in *; split; cbn; (done || lia)).
  eapply safe_bind; [apply (writechannel_ok rw Hrw _ (Some data) _ _ _ Hwr Hi1)|]. intros [[[[ret consumed] c1] p'] w'] _ Hst. change (default [] (Some data)) with data in Hst.
  assert (Hp' : ses_payload p' = Some pl1).
  { transitivity (ses_payload p1); [|apply sl_pl_pl]. by destruct Hst as [? ? ? ? ? ? ? ? ? ? ? (? & ? & ?)|? ? ? ? ? ? ? (? & ? & ?)]. }
  rewrite (pr_eq _ _ pl1) by done.
  assert (Hcons : 0 <= consumed <= zlen data).
  { destruct ret; [by apply (write_step_room _ _ _ _ _ _ _ _ _ Hwr Hst)|]. pose proof (zlen_nonneg data). remember false as ret. destruct Hst; [done|lia]. }
  pose proof (safe_incrpos pl1 consumed Hw1 ltac:(lia)) as Hinc. rewrite !obind_assoc. eapply safe_bind; [exact Hinc|]. intros pl2 _ Hw2. cbn [obind].
  cbn [ses with_ses with_world]. 
  destruct ret; cycle 1.
  - assert (consumed = 0) as -> by (by remember false as ret; destruct Hst). subst c0 n. cbn. eapply (recv_dropped i data c s pl1 c1 p' w' pl2); [exact Hst|done|done].
  - destruct (write_step_room _ _ _ _ _ _ _ _ _ Hwr Hst) as (_ & Hb1 & Hs1 & Hroom). cbn [chan_cbuf].
    set (rest := drop (Z.to_nat consumed) data). assert (zlen rest = zlen data - consumed) as Hrest by (by apply zlen_drop).
    destruct (cbuf_put_all_ok (length rest) (writebuf c1) rest Hb1) as (b & -> & Hb2 & Hcon & Hs2); [lia|done|]. cbn [obind].
    rewrite (pr_eq _ _ pl2) by apply sl_pl_pl. rewrite !obind_assoc. eapply safe_bind; [apply safe_incrpos; [done|lia]|]. intros pl3 _ Hw3.
    cbn. subst c0 n. rewrite sl_set_pl. eapply (recv_kept i data c s pl1 consumed c1 p' w' b pl3); try done. congruence.
Qed.

Lemma put_chan_lookup i c (s : chses) : (i < length (channels s))%nat -> channels (put_chan i c s) !! i = Some (Some c).
Proof. intros. cbn. by apply list_lookup_insert_eq. Qed.

(** The windows after [n] bytes have gone to the program. *)
Lemma consume_sum n b c : recvwindow (consume rw n b c) + recvdonelen (consume rw n b c) = recvwindow c + recvdonelen c + n.
Proof. unfold consume. destruct (_ <=? _); destruct c; cbn; lia. Qed.

(** The step keeps the invariant of the channel and the session. *)
Lemma recv_step_ok i data c (s s' : chses) :
  chan_ok i c -> idle (ses s) -> zlen data <= recvwindow c -> recv_step i data c s s' ->
  exists c' p' w' l, s' = put_chan i c' (with_ses p' (with_world w' s)) /\ chan_ok i c' /\ idle p' /\
    sent p' = sent (ses s) ++ l /\ (exists pl, ses_payload p' = Some pl /\ wf pl) /\ conn_pending c' = conn_pending c /\ same_kind c c'.
Proof.
  intros Hc Hi Hd Hst. pose proof Hc as [_ Hb Hs Hw0 Hd0 Hsum _ _ Hx _ _ _ _]. pose proof (zlen_nonneg data).
  assert (Hc0 : chan_ok i (charged (zlen data) c)) by (destruct Hc; destruct c; cbn in *; split; cbn; (done || lia)).
  destruct Hst as [pl0 consumed c1 p' w' b pl Hst Hb' Hs' Hcon Hpl0 Hpl|pl0 c1 p' w' pl Hst Hpl0 Hpl].
  - assert (Hwr : writable rw (zlen data) (charged (zlen data) c)) by (destruct c; cbn in *; split; cbn; (done || lia)).
    destruct (write_step_room _ _ _ _ _ _ _ _ _ Hwr Hst) as (Hcons & Hb1 & Hs1 & Hroom).
    pose proof (contents_zlen _ Hb') as Hl'. pose proof (contents_zlen _ Hb1) as Hl1. rewrite Hcon, zlen_app, zlen_drop in Hl' by lia.
    remember true as ret. destruct Hst as [n b0 c1 p' w' Hn Hb0 Hs0 Hcon0 -> _ Htalk|]; [|done]. rewrite consume_writebuf in *. rewrite zlen_app in Hn. change (writebuf (charged _ c)) with (writebuf c) in *.
    pose proof (contents_zlen _ Hb) as Hlc. 
    assert (zlen (contents b0) = Z.max 0 (zlen (contents (writebuf c)) - n)) as Hlb by (rewrite Hcon0; unfold zlen in *; rewrite length_drop; lia).
    destruct Htalk as (Hi' & Hp' & Hsent'). rewrite sl_sent_pl in Hsent'.
    eexists _, _, _, _. split; [done|]. split; [|split; [by apply idle_payload|split; [by rewrite sl_sent_pl|split]]].
    + assert (Hk : chan_ok i (consume rw n b (charged (zlen data) c))).
      { apply consume_ok; [done|done|done|lia|]. change (recvwindow (charged (zlen data) c)) with (recvwindow c - zlen data). change (recvdonelen (charged (zlen data) c)) with (recvdonelen c). lia. }
      replace (with_writebuf b (consume rw n b0 (charged (zlen data) c))) with (consume rw n b (charged (zlen data) c)); [done|]. unfold consume. by destruct (_ <=? _).
    + exists pl. by rewrite sl_pl_pl.
    + split; [unfold consume; by destruct (_ <=? _)|]. etrans; [|by apply (same_kind_pending (consume rw n b0 (charged (zlen data) c))); [..|left]].
      etrans; [|apply consume_kind]. by split.
  - assert (Hcp : conn_pending c1 = conn_pending c /\ same_kind c c1).
    { remember false as ret. destruct Hst as [|c2 c1 p' w' Hcl _ -> _]; [done|]. split; [destruct Hcl as [-> _ _ _]; unfold consume; by destruct (_ <=? _)|].
      etrans; [|apply consume_kind]. etrans; [|by apply closes_kind]. by split. }
    assert (Hk : chan_ok i c1).
    { remember false as ret. destruct Hst as [|c2 c1 p' w' Hcl _ -> _]; [done|]. assert (Hc2 : chan_ok i c2) by by eapply closes_ok.
      destruct Hcl as [Hsame _ _ _]. assert (writebuf c2 = writebuf (charged (zlen data) c)) as <- by by rewrite Hsame. apply consume_ok; try apply Hc2; [done|]. destruct Hc2. lia. }
    assert (talked (ses_set_payload pl0 (ses s)) (adjust_msg rw (charged (zlen data) c) (recvdonelen c)) p') as (Hi' & Hp' & Hsent') by (remember false as ret; by destruct Hst).
    rewrite sl_sent_pl in Hsent'. eexists _, _, _, _. split; [done|]. split; [done|]. split; [by apply idle_payload|]. split; [by rewrite sl_sent_pl|].
    split; [|done]. exists pl. by rewrite sl_pl_pl.
Qed.

(** The outcome of receiving [data] on channel [i] in state [s]: either what the program has
    been given and what is buffered are together as before followed by [data], and [n] bytes
    more have been taken, or the descriptor failed and is closed. *)
Definition delivered (i : nat) (c : Channel) (data : bytes) (s s' : chses) : Prop :=
  exists c', channels s' !! i = Some (Some c') /\ chan_ok i c' /\
     ((exists n, 0 <= n /\ writefd c' = writefd c /\
         fd_out (writefd c) (world s') ++ contents (writebuf c') = fd_out (writefd c) (world s) ++ contents (writebuf c) ++ data /\
         zlen (contents (writebuf c')) = zlen (contents (writebuf c)) + zlen data - n /\
         recvwindow c' + recvdonelen c' = recvwindow c - zlen data + recvdonelen c + n /\
         sent (ses s') = sent (ses s) ++ adjust_msg rw c (recvdonelen c + n)) \/
      (writefd c' = FD_CLOSED /\ contents (writebuf c') = contents (writebuf c) /\
         sent (ses s') = sent (ses s) ++ adjust_msg rw c (recvdonelen c))).

End data.
