(* ===== verification/ChannelClose.v ===== *)
(** * Closing channels

    [st_ok] is the invariant of the table of channels: every channel in it satisfies
    [chan_ok], the count is right, the connections in progress point to channels that exist
    and know them, and so do the processes of sessions.  The theorem says which messages
    [check_close] sends. *)

From S2P Require Import Prelude Bytes Buffer CircBuffer Packet SessionData Channel ChannelLaws ChannelFlow ChannelData.

(** ** Sessions and their processes *)

(** An entry of the table of processes: free, or the process of a session that is there. *)
Definition child_ok (l : list (option Channel)) (e : ChildPid) : Prop :=
  e = mkchild (-1) None \/
  exists i c cs, e = mkchild (pid cs) (Some i) /\ 0 < pid cs /\ l !! i = Some (Some c) /\ type c = svrchansess /\ ctypedata c = Some cs.

(** The channels [l] and the processes [ps]: [h] is a channel being made, whose type has not
    initialised it yet. *)
Record procs_ok (h : option nat) (l : list (option Channel)) (ps : list ChildPid) (e : exitinfo) : Prop := {
  pk_typed i c : l !! i = Some (Some c) -> h <> Some i -> typed c;
  pk_children p : p ∈ ps -> child_ok l p;
  pk_running i c cs : l !! i = Some (Some c) -> type c = svrchansess -> ctypedata c = Some cs -> pid cs <> 0 ->
    mkchild (pid cs) (Some i) ∈ ps;
  pk_lastexit : exit_ok e;
}.

(** A session keeps its process. *)
Lemma procs_put h l ps e i c c' : procs_ok h l ps e -> l !! i = Some (Some c) -> same_kind c c' -> procs_ok h (<[i := Some c']> l) ps e.
Proof.
  intros [H1 H2 H3 H4] Hc [Ht Hd Hk]. apply lookup_lt_Some in Hc as Hlt. split; [..|done].
  - intros j d. rewrite list_lookup_insert_Some. intros [(-> & [= <-] & _)|[_ Hj]] Hh; [apply Hk; by eapply H1|by eapply H1].
  - intros p Hp. destruct (H2 p Hp) as [->|(j & d & cs & -> & Hpos & Hj & Hty & Hcs)]; [by left|]. right. destruct (decide (i = j)) as [->|].
    + exists j, c', cs. rewrite list_lookup_insert_eq by done. split_and!; try done; congruence.
    + exists j, d, cs. by rewrite list_lookup_insert_ne.
  - intros j d cs. rewrite list_lookup_insert_Some. intros [(-> & [= <-] & _)|[_ Hj]]; [rewrite Ht, Hd; by apply (H3 _ c)|by apply H3].
Qed.

(** A channel is gone, with the entries of its process. *)
Lemma procs_remove l ps e i c : procs_ok None l ps e -> l !! i = Some (Some c) ->
  procs_ok None (<[i := None]> l) (if type c =? svrchansess then forget_child i ps else ps) e.
Proof.
  intros [H1 H2 H3 H4] Hc. apply lookup_lt_Some in Hc as Hlt. split; [..|done].
  - intros j d. rewrite list_lookup_insert_Some. intros [(_ & [=] & _)|[_ Hj]]; by eapply H1.
  - intros p Hp. destruct (Z.eqb_spec (type c) svrchansess) as [Hty|Hty].
    + apply forget_child_elem in Hp as [[-> _]|[Hp Hne]]; [by left|]. destruct (H2 p Hp) as [->|(j & d & cs & -> & Hpos & Hj & ?)]; [by left|].
      right. exists j, d, cs. rewrite list_lookup_insert_ne; [done|]. by intros ->.
    + destruct (H2 p Hp) as [->|(j & d & cs & -> & Hpos & Hj & ? & ?)]; [by left|].
      right. exists j, d, cs. rewrite list_lookup_insert_ne; [done|]. intros ->. congruence.
  - intros j d cs. rewrite list_lookup_insert_Some. intros [(_ & [=] & _)|[Hne Hj]] Hty Hcs Hpid. pose proof (H3 _ _ _ Hj Hty Hcs Hpid) as Hin.
    destruct (type c =? svrchansess); [|done]. apply forget_child_elem. right. split; [done|]. cbn. congruence.
Qed.

(** One more channel, which is not initialised yet. *)
Lemma procs_new l l' ps e i c : procs_ok None l ps e -> (forall j d, l' !! j = Some (Some d) <-> l !! j = Some (Some d)) ->
  l' !! i = Some None -> ctypedata c = None -> procs_ok (Some i) (<[i := Some c]> l') ps e.
Proof.
  intros [H1 H2 H3 H4] Hl Hi Hc. apply lookup_lt_Some in Hi as Hlt. split; [..|done].
  - intros j d. rewrite list_lookup_insert_Some. intros [(-> & _ & _)|[_ Hj]] Hh; [done|]. eapply H1; [by apply Hl|done].
  - intros p Hp. destruct (H2 p Hp) as [->|(j & d & cs & -> & Hpos & Hj & ?)]; [by left|]. right. exists j, d, cs.
    apply Hl in Hj. rewrite list_lookup_insert_ne; [done|]. intros ->. congruence.
  - intros j d cs. rewrite list_lookup_insert_Some. intros [(-> & [= <-] & _)|[_ Hj]]; [congruence|]. apply Hl in Hj. by apply H3.
Qed.

(** The channel being made is of another type, or has been initialised. *)
Lemma procs_made i l ps e : procs_ok (Some i) l ps e -> (forall c, l !! i = Some (Some c) -> typed c) -> procs_ok None l ps e.
Proof. intros [H1 H2 H3 H4] Hi. split; [|done..]. intros j d Hj _. destruct (decide (i = j)) as [->|]; [by apply Hi|]. apply (H1 j); [done|congruence]. Qed.

Section closing.
Context {P W : Type} {SP : Session P} {LS : SessionLaws P} {SW : Sys W} {LW : SysLaws W} {CT : @ChanTypes P W}.
Context (rw : Z).

Abbreviation chses := (@Channel.chses P W).
Abbreviation chan_ok := (chan_ok rw).

Definition payload_ok (p : P) : Prop := match ses_payload p with Some pl => wf pl | None => True end.

Record st_ok_but (h : option nat) (s : chses) : Prop := {
  so_idle : idle (ses s);
  so_payload : payload_ok (ses s);
  so_chans i c : channels s !! i = Some (Some c) -> chan_ok i c;
  so_size : zlen (channels s) < MAX_CHANNELS + Z.of_nat CHAN_EXTEND_SIZE;
  so_count : chancount s = Z.of_nat (length (omap id (channels s)));
  so_conns k i : conns s !! k = Some (ChannelConnectDone i) <-> exists c, channels s !! i = Some (Some c) /\ conn_pending c = Some k;
  so_procs : procs_ok h (channels s) (childpids s) (lastexit s);
}.

#[global] Arguments so_idle {h} s _.
#[global] Arguments so_payload {h} s _.
#[global] Arguments so_chans {h} s _ i c _.
#[global] Arguments so_size {h} s _.
#[global] Arguments so_count {h} s _.
#[global] Arguments so_conns {h} s _ k i.
#[global] Arguments so_procs {h} s _.

Definition st_ok : chses -> Prop := st_ok_but None.

(** What the types must keep while a channel closes: handlers may send messages of their own,
    the check may start the flushing of the channel, and a session that goes gives up the
    entries of its process. *)
Record close_law : Prop := {
  cl_close (c : Channel) h (p : P) : ct_closehandler (P := P) (W := W) (type c) = Some h -> typed c -> idle p -> safe (fun p' => exists l, talked p l p') (h c p);
  cl_check (c : Channel) f : ct_check_close (P := P) (W := W) (type c) = Some f -> typed c -> exists b a, f c = Ok (with_flushing b c, a);
  cl_cleanup (c : Channel) (l : list ChildPid) : typed c -> (forall e, e ∈ l -> child_chansess e = Some (index c) -> 0 < child_pid e) ->
    match ct_cleanup (P := P) (W := W) (type c) with Some f => f c l | None => Ok l end = Ok (if type c =? svrchansess then forget_child (index c) l else l);
}.

Lemma talked_payload_ok p l p' : talked p l p' -> payload_ok p -> payload_ok p'.
Proof. intros (_ & Hp & _). unfold payload_ok. by rewrite Hp. Qed.

Lemma count_insert {A} (l : list (option A)) i (o o' : option A) : l !! i = Some o ->
  Z.of_nat (length (omap id (<[i := o']> l))) =
  Z.of_nat (length (omap id l)) - (if o then 1 else 0) + (if o' then 1 else 0).
Proof.
  intros Hl. apply lookup_lt_Some in Hl as Hlt. rewrite insert_take_drop by done.
  assert (length (omap id l) = length (omap id (take i l ++ o :: drop (S i) l))) as -> by (by rewrite (take_drop_middle l i o Hl)).
  rewrite !omap_app. destruct o, o'; cbn; rewrite !length_app; cbn; lia.
Qed.

(** Changing the session, the world, the processes and one channel that keeps its connection. *)
Lemma st_replace h h' i c c' (s : chses) p' w' ps e :
  st_ok_but h s -> channels s !! i = Some (Some c) -> chan_ok i c' -> conn_pending c' = conn_pending c ->
  procs_ok h' (<[i := Some c']> (channels s)) ps e -> idle p' -> payload_ok p' ->
  st_ok_but h' (with_lastexit e (with_childpids ps (put_chan i c' (with_world w' (with_ses p' s))))).
Proof.
  intros [] Hlk Hc' Hcp Hk Hi Hp. apply lookup_lt_Some in Hlk as Hlt. split; cbn; try done.
  - intros j d. rewrite list_lookup_insert_Some. intros [(-> & [= <-] & _)|[_ ?]]; [done|auto].
  - unfold zlen; by rewrite length_insert.
  - rewrite (count_insert _ _ _ _ Hlk). lia.
  - intros k j. rewrite so_conns0. split.
    + intros (d & Hd & Hk'). destruct (decide (i = j)) as [->|]; [|exists d; by rewrite list_lookup_insert_ne].
      exists c'. rewrite list_lookup_insert_eq by done. split; [done|congruence].
    + intros (d & Hd & Hk'). apply list_lookup_insert_Some in Hd as [(-> & [= <-] & _)|[_ Hd]]; [exists c; split; [done|congruence]|by exists d].
Qed.

(** The channel stays of its kind. *)
Lemma st_put i c c' (s : chses) p' w' :
  st_ok s -> channels s !! i = Some (Some c) -> chan_ok i c' -> conn_pending c' = conn_pending c -> same_kind c c' -> idle p' -> payload_ok p' ->
  st_ok (put_chan i c' (with_world w' (with_ses p' s))).
Proof.
  intros Hok Hlk Hc' Hcp Hsk Hi Hp. pose proof (procs_put _ _ _ _ _ _ _ (so_procs _ Hok) Hlk Hsk) as Hk.
  pose proof (st_replace None None i c c' s p' w' _ _ Hok Hlk Hc' Hcp Hk Hi Hp) as H. by destruct s.
Qed.

Lemma st_put_chan i c c' (s : chses) :
  st_ok s -> channels s !! i = Some (Some c) -> chan_ok i c' -> conn_pending c' = conn_pending c -> same_kind c c' -> st_ok (put_chan i c' s).
Proof.
  intros Hok Hlk Hc' Hcp Hk. pose proof (st_put i c c' s (ses s) (world s) Hok Hlk Hc' Hcp Hk (so_idle _ Hok) (so_payload _ Hok)) as H. by destruct s.
Qed.

Lemma st_typed i c (s : chses) : st_ok s -> channels s !! i = Some (Some c) -> typed c.
Proof. intros Hok Hc. by eapply (pk_typed _ _ _ _ (so_procs _ Hok)). Qed.

Lemma st_prio (s : chses) : st_ok s -> st_ok (update_channel_prio s).
Proof. intros []. unfold update_channel_prio. repeat case_match; by split. Qed.

Lemma prio_ses (s : chses) : ses (update_channel_prio s) = ses s /\ channels (update_channel_prio s) = channels s.
Proof. unfold update_channel_prio. repeat case_match; done. Qed.

Lemma remove_channel_ok i c (s : chses) : close_law -> st_ok s -> channels s !! i = Some (Some c) ->
  exists s', remove_channel i s = Ok s' /\ st_ok s' /\ ses s' = ses s /\ channels s' = <[i := None]> (channels s).
Proof.
  intros Hlaw Hok Hlk. pose proof (co_index _ _ _ (so_chans _ Hok _ _ Hlk)) as Hidx. apply lookup_lt_Some in Hlk as Hlt.
  unfold remove_channel. rewrite (chan_at _ _ _ Hlk). cbn [obind]. rewrite (cl_cleanup Hlaw c); [|by eapply st_typed|].
  2: { intros e He Hi. destruct (pk_children _ _ _ _ (so_procs _ Hok) e He) as [->|(j & d & cs & -> & ? & _)]; done. }
  cbn [obind]. rewrite Hidx. set (ps := if type c =? svrchansess then _ else _). eexists. split; [done|]. set (s1 := with_chancount _ _). assert (st_ok s1); [|split; [by apply st_prio|]].
  2: { destruct (prio_ses s1) as [-> ->]. subst s1. by destruct (conn_pending c). }
  destruct Hok. assert (Hcount : u32 (chancount s - 1) = Z.of_nat (length (omap id (<[i := None]> (channels s))))).
  { rewrite (count_insert _ _ _ None Hlk), so_count0. assert (1 <= Z.of_nat (length (omap id (channels s)))).
    { pose proof (count_insert _ _ _ None Hlk). lia. }
    assert (Z.of_nat (length (omap id (channels s))) <= zlen (channels s)).
    { unfold zlen. clear. induction (channels s) as [|[] l IH]; cbn; lia. }
    unfold MAX_CHANNELS, CHAN_EXTEND_SIZE in so_size0. rewrite u32_small by lia. lia. }
  assert (Hcs : conns s1 = match conn_pending c with Some k => <[k := CancelCallback]> (conns s) | None => conns s end) by (subst s1; by destruct (conn_pending c)).
  assert (Hch : channels s1 = <[i := None]> (channels s)) by (subst s1; by destruct (conn_pending c)).
  pose proof (procs_remove _ _ _ _ _ so_procs0 Hlk) as Hprocs.
  split; rewrite ?Hch, ?Hcs; try (subst s1; destruct (conn_pending c); done).
  - intros j d. rewrite list_lookup_insert_Some. intros [(_ & ? & _)|[_ ?]]; [done|auto].
  - unfold zlen; by rewrite length_insert.
  - intros k j. assert (Hback : forall d, channels s !! j = Some (Some d) -> conn_pending d = Some k -> i = j -> conn_pending c = Some k) by (intros d Hd ? ->; congruence).
    split.
    + intros Hk. assert (conns s !! k = Some (ChannelConnectDone j) /\ conn_pending c <> Some k) as [Hk' Hne].
      { destruct (conn_pending c) as [k0|]; [|done]. apply lookup_insert_Some in Hk as [[_ ?]|[? ?]]; [done|]. split; congruence. }
      apply so_conns0 in Hk' as (d & Hd & Hdk). exists d. rewrite list_lookup_insert_ne; [done|]. intros ->. naive_solver.
    + intros (d & Hd & Hdk). apply list_lookup_insert_Some in Hd as [(_ & ? & _)|[Hne Hd]]; [done|].
      assert (conns s !! k = Some (ChannelConnectDone j)) as Hk by (apply so_conns0; by exists d).
      destruct (conn_pending c) as [k0|] eqn:Hk0; [|done]. rewrite lookup_insert_ne; [done|]. intros ->.
      assert (conns s !! k = Some (ChannelConnectDone i)) by (apply so_conns0; by exists c). congruence.
Qed.

(** ** EOF and CLOSE *)

Definition eof_msg (c : Channel) : bytes := SSH_MSG_CHANNEL_EOF :: store32h (remotechan c).
Definition close_msg (c : Channel) : bytes := SSH_MSG_CHANNEL_CLOSE :: store32h (remotechan c).

Lemma closes_keep (f : Channel -> Z) c c' : closes c c' -> (f = readfd \/ f = writefd \/ f = errfd) -> f c = FD_CLOSED -> f c' = FD_CLOSED.
Proof. intros [_ ? ? ?] [->|[->| ->]]; intuition congruence. Qed.

Record same_state (c c' : Channel) : Prop := {
  ss_remotechan : remotechan c' = remotechan c;
  ss_sent_close : sent_close c' = sent_close c;
  ss_sent_eof : sent_eof c' = sent_eof c;
  ss_recv_close : recv_close c' = recv_close c;
  ss_conn_pending : conn_pending c' = conn_pending c;
  ss_kind : same_kind c c';
}.

Lemma closes_same c c' : closes c c' -> same_state c c'.
Proof. intros H. pose proof (closes_kind _ _ H). destruct H as [-> _ _ _]. by split. Qed.

(** What the handler of the type said while the channel was closed. *)
Definition close_said (c : Channel) (l : list bytes) : Prop :=
  exists (c1 : Channel) (p1 p2 : P), same_kind c c1 /\ remotechan c1 = remotechan c /\ idle p1 /\
    match ct_closehandler (P := P) (W := W) (type c1) with Some h => h c1 p1 | None => Ok p1 end = Ok p2 /\ sent p2 = sent p1 ++ l.

Lemma close_said_same c c' l : same_kind c c' -> remotechan c' = remotechan c -> close_said c' l -> close_said c l.
Proof. intros Hk Hr (c1 & p1 & p2 & Hk1 & Hr1 & ?). exists c1, p1, p2. split; [by etrans|]. split; [congruence|done]. Qed.

(** The type lets the channel close. *)
Definition may_close (c : Channel) : Prop :=
  exists b, match ct_check_close (P := P) (W := W) (type c) with Some f => if sent_close c then Ok (c, true) else f c | None => Ok (c, true) end = Ok (with_flushing b c, true).

Lemma send_close_ok i c (p : P) (w : W) : close_law -> typed c -> chan_ok i c -> idle p ->
  safe (fun '(c', p', w') => chan_ok i c' /\ conn_pending c' = conn_pending c /\ same_kind c c' /\ remotechan c' = remotechan c /\ recv_close c' = recv_close c /\ sent_close c' = true /\ sent_eof c' = true /\
          exists l, close_said c l /\ talked p (l ++ [close_msg c]) p') (send_msg_channel_close c p w).
Proof.
  intros Hlaw Hty Hc Hi. unfold send_msg_channel_close. eapply (safe_bind (fun p' => exists l, talked p l p')).
  { destruct (ct_closehandler (type c)) as [h|] eqn:E; [by apply (cl_close Hlaw c h p E)|]. exists []. by apply talked_refl. }
  intros p1 Hsaid (l & H1). assert (Hl : close_said c l) by (exists c, p, p1; split; [done|]; split; [done|]; split; [done|]; split; [done|apply H1]).
  eapply safe_bind; [apply (send_simple_ok SSH_MSG_CHANNEL_CLOSE c p1); [by destruct H1|done]|]. intros p2 _ H2.
  set (c1 := with_sent_close true (with_sent_eof true c)).
  destruct (close_chan_fd (readfd c1) SHUT_RD c1 w) as [c2 w2] eqn:E2.
  destruct (close_chan_fd (errfd c2) SHUT_RDWR c2 w2) as [c3 w3] eqn:E3.
  destruct (close_chan_fd (writefd c3) SHUT_WR c3 w3) as [c4 w4] eqn:E4.
  pose proof (close_chan_fd_closes (readfd c1) SHUT_RD c1 w) as C2. pose proof (close_readfd c1 w) as R2. rewrite E2 in C2, R2.
  pose proof (close_chan_fd_closes (errfd c2) SHUT_RDWR c2 w2) as C3. rewrite E3 in C3.
  pose proof (close_chan_fd_closes (writefd c3) SHUT_WR c3 w3) as C4. pose proof (close_writefd c3 w3) as W4. rewrite E4 in C4, W4. cbn [fst] in *.
  pose proof (co_extrabuf _ _ _ Hc) as Hx. assert (H12 : bidir_fd c2 = bidir_fd c /\ extrabuf c2 = None) by (destruct C2 as [-> _ _ _]; by destruct c).
  assert (R3 : errfd c3 = FD_CLOSED).
  { destruct H12 as [Hb2 Hx2]. destruct (bidir_fd c) eqn:Hb.
    - apply (closes_keep errfd _ _ C3); [auto|]. apply (closes_keep errfd _ _ C2); [auto|]. apply (co_bidir _ _ _ Hc Hb).
    - pose proof (close_errfd SHUT_RDWR c2 w2 Hx2 Hb2) as R3. by rewrite E3 in R3. }
  assert (C : closes c1 c4) by (eapply closes_trans; [exact C2|]; eapply closes_trans; [exact C3|exact C4]).
  assert (R4 : readfd c4 = FD_CLOSED) by (apply (closes_keep readfd _ _ C4); [auto|]; apply (closes_keep readfd _ _ C3); auto).
  assert (F4 : errfd c4 = FD_CLOSED) by (apply (closes_keep errfd _ _ C4); auto).
  cbn [obind safe]. destruct C as [Hsame _ _ _]. split_and!.
  - rewrite Hsame, R4, F4, W4. destruct Hc. destruct c; cbn in *. split; cbn; intuition.
  - rewrite Hsame. by destruct c.
  - rewrite Hsame. by destruct c; split.
  - rewrite Hsame. by destruct c.
  - rewrite Hsame. by destruct c.
  - rewrite Hsame. by destruct c.
  - rewrite Hsame. by destruct c.
  - exists l. split; [done|]. by eapply talked_trans.
Qed.

Lemma send_eof_ok i c (p : P) : chan_ok i c -> idle p -> out_closed c = true ->
  safe (fun '(c', p') => c' = with_sent_eof true c /\ chan_ok i c' /\ talked p [eof_msg c] p') (send_msg_channel_eof c p).
Proof.
  intros Hc Hi Ho. unfold send_msg_channel_eof. eapply safe_bind; [by apply send_simple_ok|]. intros p' _ Hp'. cbn. split; [done|]. split; [|done].
  unfold out_closed, ERRFD_IS_WRITE, ERRFD_IS_READ in Ho. rewrite (co_extrabuf _ _ _ Hc) in Ho. cbn in Ho. blia.
  destruct Hc. destruct c; cbn in *. split; cbn; try done. intuition.
Qed.

Lemma flush_closes c (w : W) : closes c (fst (flush_fds c w)).
Proof.
  unfold flush_fds. destruct (flushing c); [|apply closes_refl].
  assert (H : closes c (fst (if (0 <=? readfd c) && negb (sys_read_pending (readfd c) w) then close_chan_fd (readfd c) SHUT_RD c w else (c, w)))).
  { destruct (_ && _); [apply close_chan_fd_closes|apply closes_refl]. }
  destruct (if (0 <=? readfd c) && negb (sys_read_pending (readfd c) w) then close_chan_fd (readfd c) SHUT_RD c w else (c, w)) as [c1 w1].
  cbn [fst] in H. eapply closes_trans; [exact H|]. destruct (_ && _); [apply close_chan_fd_closes|apply closes_refl].
Qed.

(** The messages [check_close] sends: one EOF when there has been none, what the handler of
    the type says, and one CLOSE when there has been none. *)
Definition closing_msgs (c : Channel) (eof close : bool) (l : list bytes) : list bytes :=
  (if eof then [eof_msg c] else []) ++ (if close then l ++ [close_msg c] else []).

(** Whether the type lets the channel close; the flushing may start. *)
Lemma check_allowed c : close_law -> typed c -> exists b a,
  match ct_check_close (P := P) (W := W) (type c) with Some f => if sent_close c then Ok (c, true) else f c | None => Ok (c, true) end = Ok (with_flushing b c, a).
Proof.
  intros Hlaw Hty. assert (Hid : with_flushing (flushing c) c = c) by by destruct c.
  destruct (ct_check_close (type c)) as [f|] eqn:E; [destruct (sent_close c)|]; [|by apply (cl_check Hlaw)|]; exists (flushing c), true; by rewrite Hid.
Qed.

Lemma check_close_ok i c (s : chses) : close_law -> st_ok s -> channels s !! i = Some (Some c) ->
  safe (fun s' => st_ok s' /\ exists eof close l,
      sent (ses s') = sent (ses s) ++ closing_msgs c eof close l /\ ses_payload (ses s') = ses_payload (ses s) /\
      (eof = true -> sent_eof c = false) /\ (close = true -> sent_close c = false /\ close_said c l /\ may_close c) /\
      (channels s' = <[i := None]> (channels s) /\ recv_close c = true /\ (sent_close c = true \/ close = true) \/
       exists c', channels s' = <[i := Some c']> (channels s) /\ remotechan c' = remotechan c /\ recv_close c' = recv_close c /\
         same_kind c c' /\
         sent_eof c' = (sent_eof c || eof || close) /\ sent_close c' = (sent_close c || close)))
    (check_close i s).
Proof.
  intros Hlaw Hok Hlk. pose proof (so_chans _ Hok _ _ Hlk) as Hc. pose proof (so_idle _ Hok) as Hi. pose proof (so_payload _ Hok) as Hpl.
  apply lookup_lt_Some in Hlk as Hlt. unfold check_close. rewrite (chan_at _ _ _ Hlk). cbn [obind]. pose proof (st_typed _ _ _ Hok Hlk) as Hty.
  destruct (check_allowed c Hlaw Hty) as (b & allowed & Hallow).
  assert (Hmay : allowed = true -> may_close c) by (intros ->; by exists b). rewrite Hallow. cbn [obind]. clear Hallow. set (c0 := with_flushing b c).
  pose proof (flush_closes c0 (world s)) as C1. destruct (flush_fds c0 (world s)) as [c1 w1]. cbn [fst] in C1.
  assert (Hc1 : chan_ok i c1) by (eapply closes_ok; [|exact C1]; by destruct Hc).
  destruct (closes_same _ _ C1) as [S1 S2 S3 S4 S5 S6]. change (remotechan c0) with (remotechan c) in S1. change (sent_close c0) with (sent_close c) in S2.
  change (sent_eof c0) with (sent_eof c) in S3. change (recv_close c0) with (recv_close c) in S4. change (conn_pending c0) with (conn_pending c) in S5.
  assert (K1 : same_kind c c1) by (etrans; [|exact S6]; by split). set (gone := recv_close c1 && _ && _). destruct gone eqn:Hg; subst gone.
  - apply andb_prop in Hg as [[Hrc _]%andb_prop Hal].
    eapply (safe_bind (fun '(c2, p, w) => chan_ok i c2 /\ conn_pending c2 = conn_pending c /\ same_kind c c2 /\
      exists l, (sent_close c = false -> close_said c l) /\ talked (ses s) (if sent_close c then [] else l ++ [close_msg c]) p)).
    { rewrite S2. destruct (sent_close c); [split; [done|split; [done|split; [done|exists []; split; [done|]; by apply talked_refl]]]|].
      eapply safe_mono; [apply send_close_ok; [done|by apply K1|done|done]|]. intros [[c2 p] w] (? & H2 & H3 & _ & _ & _ & _ & l & Hl & ?). split; [done|]. split; [congruence|].
      split; [by etrans|]. exists l. split; [intros _; by eapply close_said_same|]. unfold close_msg in *. by rewrite <- S1. }
    intros [[c2 p] w] _ (Hc2 & Hcp & K2 & l & Hl & Hp).
    destruct (remove_channel_ok i c2 (put_chan i c2 (with_world w (with_ses p s)))) as (s' & -> & Hs' & Hses & Hch); [done|..].
    { apply st_put with (c := c); try done; [by destruct Hp|by eapply talked_payload_ok]. }
    { cbn. by apply list_lookup_insert_eq. }
    split; [done|]. exists false, (negb (sent_close c)), l. rewrite Hses. cbn. destruct Hp as (_ & Hpay & Hsent).
    rewrite Hsent. split_and!; [by unfold closing_msgs; destruct (sent_close c)|done|done| |].
    { intros Hn%negb_true_iff. split; [done|]. split; [by apply Hl|by apply Hmay]. }
    left. rewrite Hch. cbn. rewrite list_insert_insert_eq. split_and!; [done|congruence|destruct (sent_close c); auto].
  - clear Hg. match goal with |- context [if ?b then close_chan_fd (writefd c1) SHUT_WR c1 w1 else _] => generalize b; intros shut end.
    assert (C2 : closes c1 (fst (if shut then close_chan_fd (writefd c1) SHUT_WR c1 w1 else (c1, w1)))) by (destruct shut; [apply close_chan_fd_closes|apply closes_refl]).
    destruct (if shut then close_chan_fd (writefd c1) SHUT_WR c1 w1 else (c1, w1)) as [c2 w2]. clear shut. cbn [fst] in C2. assert (Hc2 : chan_ok i c2) by by eapply closes_ok.
    destruct (closes_same _ _ (closes_trans _ _ _ C1 C2)) as [T1 T2 T3 T4 T5 T6].
    change (remotechan c0) with (remotechan c) in T1. change (sent_close c0) with (sent_close c) in T2. change (sent_eof c0) with (sent_eof c) in T3.
    change (recv_close c0) with (recv_close c) in T4. change (conn_pending c0) with (conn_pending c) in T5.
    assert (K2 : same_kind c c2) by (etrans; [|exact T6]; by split). clear S1 S2 S3 S4 S5 S6 T6 K1 C1 C2 Hc1 c1 w1.
    eapply (safe_bind (fun '(c3, p) => exists eof : bool, chan_ok i c3 /\ talked (ses s) (if eof then [eof_msg c] else []) p /\
      (eof = true -> sent_eof c = false) /\ sent_eof c3 = (sent_eof c || eof) /\ sent_close c3 = sent_close c /\ recv_close c3 = recv_close c /\
      conn_pending c3 = conn_pending c /\ remotechan c3 = remotechan c /\ same_kind c c3)).
    { rewrite T3. destruct (negb (sent_eof c) && out_closed c2) eqn:He.
      - apply andb_prop in He as [He Ho]. eapply safe_mono; [by apply send_eof_ok|]. intros [c3 p] (-> & Hc3 & Hp). exists true.
        unfold eof_msg in *. rewrite T1 in Hp. destruct (sent_eof c); [done|]. split_and!; try done. etrans; [exact K2|by split].
      - exists false. rewrite orb_false_r. split_and!; try done. by apply talked_refl. }
    intros [c3 p] _ (eof & Hc3 & Hp & He1 & He2 & U2 & U4 & U5 & U1 & K3). set (go := _ && negb (write_pending c3)).
    assert (Hgo : go = true -> sent_close c = false /\ may_close c).
    { subst go. intros Hg. repeat (apply andb_prop in Hg as [Hg ?]). split; [|by apply Hmay]. rewrite <- U2. by destruct (sent_close c3). }
    eapply (safe_bind (fun '(c4, p4, w4) => chan_ok i c4 /\ conn_pending c4 = conn_pending c /\ same_kind c c4 /\ remotechan c4 = remotechan c /\ recv_close c4 = recv_close c /\
      sent_eof c4 = (sent_eof c3 || go) /\ sent_close c4 = (sent_close c || go) /\ exists l, (go = true -> close_said c l) /\ talked p (if go then l ++ [close_msg c] else []) p4)).
    { destruct go.
      - eapply safe_mono; [apply send_close_ok; [done|by apply K3|done|by destruct Hp]|]. intros [[c4 p4] w4] (? & H2 & H6 & H1 & H3 & H4 & H5 & l & Hl & ?).
        split_and!; try congruence; [by etrans|by rewrite orb_true_r|by rewrite orb_true_r|]. exists l. split; [intros _; by eapply close_said_same|].
        unfold close_msg in *. by rewrite <- U1.
      - cbn. rewrite !orb_false_r. split_and!; try done. exists []. split; [done|]. apply talked_refl. by destruct Hp. }
    intros [[c4 p4] w4] _ (Hc4 & V5 & K4 & V1 & V4 & V3 & V2 & l & Hl & Hp4). pose proof (talked_trans _ _ _ _ _ Hp Hp4) as (Hi4 & Hpay & Hsent).
    split; [eapply st_put; [done|done|done|done|done|done|]|].
    { unfold payload_ok. by rewrite Hpay. }
    exists eof, go, l. cbn. split_and!; [done|done|done|intros Hg; destruct (Hgo Hg); by split; [|split; [apply Hl|]]|]. right. exists c4. split_and!; [done|done|done|done|by rewrite V3, He2|done].
Qed.
End closing.
