(* ===== verification/ChannelSafety.v ===== *)
(** * Safety of the channels

    [chan_event] lists what the session can make the channels do: a message, a round of the
    main loop, the end of a connection, a channel opened by the server.  No sequence of
    them breaks the invariant [st_ok], makes the code follow a dangling pointer or leave a
    buffer, or fails an assertion as long as the peer keeps to the window it was given. *)

From S2P Require Import Prelude Bytes Buffer CircBuffer Packet SessionData Channel ChannelLaws ChannelFlow ChannelData ChannelClose.

Section safety.
Context {P W : Type} {SP : Session P} {LS : SessionLaws P} {SW : Sys W} {LW : SysLaws W} {CT : @ChanTypes P W}.
Context (rw : Z) (Hrw : 0 < rw <= MAX_RECV_WINDOW).

Abbreviation chses := (@Channel.chses P W).
Abbreviation chan_ok := (chan_ok rw).
Abbreviation st_ok := (st_ok rw).
Abbreviation st_ok_but := (st_ok_but rw).

(** The state while a message is handled: its payload is there. *)
Definition ready (s : chses) : Prop := st_ok s /\ exists pl, ses_payload (ses s) = Some pl /\ wf pl.

Definition has_chan (i : nat) (s : chses) : Prop := exists c, channels s !! i = Some (Some c).

(** A request for a session comes before its EOF while no command has been started. *)
Definition req_ok (c : Channel) : Prop :=
  type c = svrchansess -> forall cs, ctypedata c = Some cs -> pid cs = 0 -> sent_eof c = false.

(** What the handlers of the channel types must keep; [inithandler] is called on a channel
    that may be in the making. *)
Record type_laws : Prop := {
  tl_close : close_law (P := P) (W := W);
  tl_init ty h i c s : ct_inithandler ty = Some h -> st_ok_but (Some i) s -> (exists pl, ses_payload (ses s) = Some pl /\ wf pl) ->
    channels s !! i = Some (Some c) -> type c = ty -> (ty = svrchansess -> ctypedata c = None) ->
    conn_pending c = None -> errfd c = FD_CLOSED -> await_open c = false ->
    safe (fun '(ret, s') => ready s' /\ has_chan i s' /\ ret < 4294967296) (h i s);
  tl_plain ty name : (ty, name) ∈ ct_names (P := P) (W := W) -> ct_inithandler (P := P) (W := W) ty = None -> ty <> svrchansess;
  tl_req i h c s : channels s !! i = Some (Some c) -> ct_reqhandler (type c) = Some h -> ready s -> req_ok c -> safe st_ok (h i s);
  tl_names ty : text_ok (ct_name ty);
}.

Lemma st_made i c (s : chses) : st_ok_but (Some i) s -> channels s !! i = Some (Some c) -> typed c -> st_ok s.
Proof.
  intros [] Hc Hty. split; try done. apply (procs_made i); [done|]. intros d Hd. rewrite Hc in Hd. by injection Hd as <-.
Qed.

Lemma st_making i (s : chses) : st_ok s -> st_ok_but (Some i) s.
Proof. intros []. split; try done. destruct so_procs. split; try done. intros j c Hc _. by eapply pk_typed. Qed.

Lemma typed_other c : type c <> svrchansess -> typed c.
Proof. by intros H ?. Qed.

Context (TL : type_laws).

Lemma read_from_ready (s s' : chses) : ready s -> read_from s s' -> ready s' /\ channels s' = channels s /\ sent (ses s') = sent (ses s).
Proof.
  intros [[] (pl0 & Hp0 & Hw0)] (pl & Hw & ->). split; [|cbn; by rewrite sl_sent_pl]. split; [|exists pl; cbn; by rewrite sl_pl_pl].
  split; cbn; try done; [by apply idle_payload|]. unfold payload_ok. by rewrite sl_pl_pl.
Qed.

Lemma pr_ready {A} (Q : A -> Prop) (f : buffer -> outcome (A * buffer)) (s : chses) :
  ready s -> (forall b, wf b -> safe (fun '(a, b') => Q a /\ wf b') (f b)) ->
  safe (fun '(a, s') => Q a /\ ready s' /\ channels s' = channels s /\ sent (ses s') = sent (ses s)) (pr f s).
Proof.
  intros Hr Hf. destruct Hr as [Hok (pl & Hp & Hw)] eqn:E. clear E. eapply safe_mono; [eapply (pr_safe Q); [exact Hp|exact Hw|by apply Hf]|].
  intros [a s'] [Ha Hs']. split; [done|]. apply read_from_ready; [|done]. split; [done|]. by exists pl.
Qed.

Lemma getint_ready (s : chses) : ready s ->
  safe (fun '(n, s') => is_u32 n /\ ready s' /\ channels s' = channels s /\ sent (ses s') = sent (ses s)) (pr buf_getint s).
Proof. intros Hr. apply pr_ready; [done|]. apply safe_getint. Qed.

Lemma getchannel_msg_ok kind (s : chses) : ready s ->
  safe (fun '(i, s') => ready s' /\ has_chan i s' /\ sent (ses s') = sent (ses s) /\ channels s' = channels s) (getchannel_msg kind s).
Proof.
  intros Hr. unfold getchannel_msg. eapply safe_bind; [by apply getint_ready|]. intros [n s'] _ (Hn & Hr' & Hch & Hs).
  destruct (zlen (channels s') <=? n); [done|]. destruct (channels s' !! Z.to_nat n) as [[c|]|] eqn:E; [|by destruct kind..].
  split; [done|]. split; [by exists c|done].
Qed.

Lemma recv_eof_ok (s : chses) : ready s -> safe st_ok (recv_msg_channel_eof s).
Proof.
  intros Hr. unfold recv_msg_channel_eof. eapply safe_bind; [by apply getchannel_msg_ok|]. intros [i s'] _ ([Hok' Hp'] & [c Hc] & _).
  rewrite (chan_at _ _ _ Hc). cbn [obind].
  pose proof (so_chans _ _ Hok' _ _ Hc) as Hck.
  eapply safe_mono; [apply (check_close_ok rw i (with_recv_eof true c)); [apply TL| |]|by intros ? []].
  - eapply st_put_chan; [done|done| |done|by split]. destruct Hck. by split.
  - cbn. apply list_lookup_insert_eq. by eapply lookup_lt_Some.
Qed.

Lemma recv_close_ok (s : chses) : ready s -> safe st_ok (recv_msg_channel_close s).
Proof.
  intros Hr. unfold recv_msg_channel_close. eapply safe_bind; [by apply getchannel_msg_ok|]. intros [i s'] _ ([Hok' Hp'] & [c Hc] & _).
  rewrite (chan_at _ _ _ Hc). cbn [obind]. pose proof (so_chans _ _ Hok' _ _ Hc) as Hck.
  eapply safe_mono; [apply (check_close_ok rw i (with_recv_close true (with_recv_eof true c))); [apply TL| |]|by intros ? []].
  - eapply st_put_chan; [done|done| |done|by split]. destruct Hck. by split.
  - cbn. apply list_lookup_insert_eq. by eapply lookup_lt_Some.
Qed.

Lemma on_ses_ok (f : P -> outcome P) (s : chses) : st_ok s -> safe (fun p' => exists l, talked (ses s) l p') (f (ses s)) ->
  safe (fun s' => st_ok s' /\ channels s' = channels s /\ ses_payload (ses s') = ses_payload (ses s)) (on_ses f s).
Proof.
  intros [] Hf. unfold on_ses. eapply safe_bind; [exact Hf|]. intros p' _ (l & Hi & Hp & Hs). cbn. split; [|done].
  split; cbn; try done. unfold payload_ok in *. by rewrite Hp.
Qed.

(** The request of the payload comes at a time its channel allows. *)
Definition request_ok (s : chses) : Prop := forall i s1 c, getchannel s = Ok (i, s1) -> channels s1 !! i = Some (Some c) -> req_ok c.

Lemma recv_request_ok (s : chses) : ready s -> request_ok s -> safe st_ok (recv_msg_channel_request s).
Proof.
  intros Hr Hreq. unfold recv_msg_channel_request. eapply safe_bind; [by apply getchannel_msg_ok|]. intros [i s1] Hget (Hr1 & Hc1 & _).
  destruct Hc1 as [c Hc]. rewrite (chan_at _ _ _ Hc). cbn [obind]. destruct (ct_reqhandler (type c)) as [h|] eqn:E.
  { apply (tl_req TL _ _ _ _ Hc E Hr1). by eapply Hreq. }
  eapply safe_bind; [apply (pr_ready (fun _ => True)); [done|]|].
  { intros b Hb. eapply safe_bind; [apply safe_split; split; [by apply buf_eatstring_post|apply noassert_eatstring]|]. done. }
  intros [u s2] _ (_ & Hr2 & _ & _). eapply safe_bind; [apply (pr_ready (fun _ => True)); [done|]|].
  { intros b Hb. apply safe_split. split; [|apply noassert_getbool]. eapply opost_mono; [by apply buf_getbool_post|]. intros [a b'] _ []. done. }
  intros [wr s3] _ (_ & [Hok3 _] & _ & _). destruct (negb (wr =? 0)); [|done].
  eapply safe_mono; [apply on_ses_ok; [done|apply send_failure_ok, Hok3]|by intros ? []].
Qed.

Lemma recv_window_ok (s : chses) : ready s -> safe st_ok (recv_msg_channel_window_adjust s).
Proof.
  intros Hr. unfold recv_msg_channel_window_adjust. eapply safe_bind; [by apply getchannel_msg_ok|]. intros [i s1] _ (Hr1 & [c Hc] & _).
  eapply safe_bind; [by apply getint_ready|]. intros [n s2] _ (Hn & [Hok2 _] & Hch & _). rewrite <- Hch in Hc. rewrite (chan_at _ _ _ Hc). cbn.
  pose proof (so_chans _ _ Hok2 _ _ Hc) as []. eapply st_put_chan; [done|done| |done|by split]. split; try done. unfold with_transwindow, is_u32. cbn.
  destruct (_ <? _); [done|]. apply u32_range.
Qed.

(** ** New channels *)

Lemma free_slot_le {A} (l : list (option A)) : (free_slot l <= length l)%nat.
Proof. induction l as [|[] l IH]; cbn; lia. Qed.

Lemma free_slot_none {A} (l : list (option A)) : (free_slot l < length l)%nat -> l !! free_slot l = Some None.
Proof. induction l as [|[] l IH]; cbn; intros; [lia|apply IH; lia|done]. Qed.

(** The channel as [newchannel] makes it. *)
Record fresh (i : nat) (c : Channel) : Prop := {
  fr_ok : chan_ok i c;
  fr_pending : conn_pending c = None;
  fr_errfd : errfd c = FD_CLOSED;
  fr_await : await_open c = false;
  fr_sent_eof : sent_eof c = false;
  fr_sent_close : sent_close c = false;
  fr_data : ctypedata c = None;
}.

Lemma st_ses p (s : chses) : st_ok s -> idle p -> payload_ok p -> st_ok (with_ses p s).
Proof. intros [] Hi Hp. by split. Qed.

(** The table with one more slot filled, which was free or is past the end. *)
Lemma st_new i c (s : chses) l :
  st_ok s -> l = channels s \/ (zlen (channels s) < MAX_CHANNELS /\ l = channels s ++ replicate CHAN_EXTEND_SIZE None) ->
  l !! i = Some None -> chan_ok i c -> conn_pending c = None -> ctypedata c = None ->
  st_ok_but (Some i) (with_chancount (u32 (chancount s + 1)) (with_channels (<[i := Some c]> l) s)).
Proof.
  intros Hok Hl Hi Hc Hcp Hcd. pose proof Hok as [H1 H2 H3 H4 H5 H6 H7].
  assert (Hlook : forall j d, l !! j = Some (Some d) <-> channels s !! j = Some (Some d)).
  { intros j d. destruct Hl as [->|[_ ->]]; [done|]. rewrite lookup_app_Some. split; [|auto].
    intros [?|[_ Hr]]; [done|]. apply lookup_replicate in Hr as [[=] _]. }
  assert (Hcount : length (omap id l) = length (omap id (channels s))).
  { destruct Hl as [->|[_ ->]]; [done|]. rewrite omap_app, length_app. cbn. lia. }
  assert (Hsize : zlen l < MAX_CHANNELS + Z.of_nat CHAN_EXTEND_SIZE).
  { destruct Hl as [->|[? ->]]; [done|]. unfold zlen, CHAN_EXTEND_SIZE, MAX_CHANNELS in *. rewrite length_app. cbn. lia. }
  apply lookup_lt_Some in Hi as Hlt. split; cbn; try done; [..|by eapply procs_new].
  - intros j d. rewrite list_lookup_insert_Some, Hlook. intros [(-> & [= <-] & _)|[_ ?]]; [done|auto].
  - unfold zlen. by rewrite length_insert.
  - rewrite (count_insert _ _ _ (Some c) Hi), Hcount, H5.
    assert (Z.of_nat (length (omap id (channels s))) <= zlen l).
    { rewrite <- Hcount. unfold zlen. clear. induction l as [|[] l IH]; cbn; lia. }
    unfold MAX_CHANNELS, CHAN_EXTEND_SIZE in *. rewrite u32_small by lia. lia.
  - intros k j. rewrite H6. split.
    + intros (d & Hd & Hk). exists d. split; [|done]. apply Hlook in Hd. rewrite list_lookup_insert_ne; [done|]. intros ->. congruence.
    + intros (d & Hd & Hk). apply list_lookup_insert_Some in Hd as [(_ & [= <-] & _)|[_ Hd]]; [congruence|]. exists d. by rewrite <- Hlook.
Qed.

(** Whether there is neither a free slot nor room for more. *)
Definition table_full (s : chses) : bool :=
  bool_decide (free_slot (channels s) = length (channels s)) && (MAX_CHANNELS <=? zlen (channels s)).

Lemma newchannel_spec rc ty tw tm (s : chses) : st_ok s -> is_u32 tw -> is_u32 tm ->
  if table_full s then newchannel rw rc ty tw tm s = Ok (None, s)
  else exists c s', newchannel rw rc ty tw tm s = Ok (Some (free_slot (channels s)), s') /\ st_ok_but (Some (free_slot (channels s))) s' /\ ses s' = ses s /\
    channels s' !! free_slot (channels s) = Some (Some c) /\ fresh (free_slot (channels s)) c /\ type c = ty /\ remotechan c = rc /\
    transwindow c = tw /\ transmaxpacket c = tm /\ recvwindow c = rw /\ recvmaxpacket c = RECV_MAX_CHANNEL_DATA_LEN /\
    (forall j d, j <> free_slot (channels s) -> channels s' !! j = Some (Some d) <-> channels s !! j = Some (Some d)).
Proof.
  intros Hok Htw Htm. unfold newchannel, table_full. pose proof (free_slot_le (channels s)) as Hle. set (i := free_slot (channels s)) in *.
  destruct (bool_decide (i = length (channels s)) && (MAX_CHANNELS <=? zlen (channels s))) eqn:Hfull; [done|].
  set (l := if bool_decide (i = length (channels s)) then _ else _).
  assert (Hl : l = channels s \/ (zlen (channels s) < MAX_CHANNELS /\ l = channels s ++ replicate CHAN_EXTEND_SIZE None)).
  { subst l. destruct (bool_decide (i = length (channels s))); [|by left]. right. split; [|done]. by apply Z.leb_gt in Hfull. }
  assert (Hi : l !! i = Some None).
  { subst l. case_bool_decide as Hd.
    - rewrite lookup_app_r by lia. rewrite Hd, Nat.sub_diag. done.
    - apply free_slot_none. lia. }
  clearbody l. unfold MAX_RECV_WINDOW in Hrw. pose proof (cbuf_new_ok rw) as Hnew. unfold cbuf_new in *.
  rewrite (proj2 (Z.ltb_ge MAX_CBUF_SIZE rw)) in * by (unfold MAX_CBUF_SIZE; lia). cbn [exit_if obind] in *.
  destruct (Hnew _ eq_refl ltac:(lia)) as (Hb & Hcon & Hs).
  match goal with |- context [<[i := Some ?c]> l] => set (c0 := c) end. exists c0. eexists. split; [done|].
  assert (Hc0 : fresh i c0) by (split; try done; split; cbn; try done; lia).
  split; [apply st_new; [done..|apply (fr_ok _ _ Hc0)|apply (fr_pending _ _ Hc0)|apply (fr_data _ _ Hc0)]|]. split; [done|]. split; [cbn; apply list_lookup_insert_eq; by eapply lookup_lt_Some|].
  split_and!; try done. intros j d Hj. cbn. rewrite list_lookup_insert_ne by done. destruct Hl as [->|[_ ->]]; [done|].
  rewrite lookup_app_Some. split; [|auto]. intros [?|[_ Hr]]; [done|]. by apply lookup_replicate in Hr as [[=] _].
Qed.

Lemma newchannel_ok rc ty tw tm (s : chses) : st_ok s -> is_u32 tw -> is_u32 tm ->
  safe (fun '(o, s') => ses s' = ses s /\ match o with
      | None => s' = s
      | Some i => st_ok_but (Some i) s' /\ exists c, channels s' !! i = Some (Some c) /\ fresh i c /\ type c = ty
      end) (newchannel rw rc ty tw tm s).
Proof.
  intros Hok Htw Htm. pose proof (newchannel_spec rc ty tw tm s Hok Htw Htm) as H. destruct (table_full s); [by rewrite H|].
  destruct H as (c & s' & -> & Hok' & Hses & Hc & Hf & Hty & _). cbn. split; [done|]. split; [done|]. by exists c.
Qed.

Lemma text_nil : text_ok [].
Proof. split; [constructor|done]. Qed.

Lemma open_failure_ok rc reason text (s : chses) : st_ok s -> text_ok text ->
  safe (fun s' => st_ok s' /\ channels s' = channels s /\ ses_payload (ses s') = ses_payload (ses s))
    (on_ses (send_msg_channel_open_failure rc reason text []) s).
Proof.
  intros Hok Ht. apply on_ses_ok; [done|]. eapply safe_mono; [apply send_open_failure_ok; [apply Hok|done|apply text_nil]|].
  intros p' ?. by eexists.
Qed.

Lemma safe_ignore {A} (Q : Prop) (R : A -> Prop) (m : outcome A) : safe (fun a => Q /\ R a) m -> safe R m.
Proof. intros H. eapply safe_mono; [exact H|]. by intros a []. Qed.

Lemma find_chantype_elem name ty : find_chantype (P := P) (W := W) name = Some ty -> exists nm, (ty, nm) ∈ ct_names (P := P) (W := W).
Proof.
  unfold find_chantype. destruct (list_find _ ct_names) as [[k [t nm]]|] eqn:E; [|done]. intros [= <-].
  apply list_find_Some in E as (Hk & _ & _). exists nm. by eapply list_elem_of_lookup_2.
Qed.

Lemma recv_open_ok (s : chses) : ready s -> safe st_ok (recv_msg_channel_open rw s).
Proof.
  intros Hr. unfold recv_msg_channel_open. eapply safe_bind; [apply (pr_ready (fun _ => True)); [done|]|].
  { intros b Hb. eapply safe_bind; [apply safe_split; split; [by apply buf_getstring_post|apply noassert_getstring]|].
    intros [[x l] b'] _ Hx. cbn. split; [done|]. by destruct Hx as (? & ? & ?). }
  intros [[ty tl] s1] _ (_ & Hr1 & _). eapply safe_bind; [by apply getint_ready|]. intros [rc s2] _ (Hrc & Hr2 & _).
  eapply safe_bind; [by apply getint_ready|]. intros [tw s3] _ (Htw & Hr3 & _).
  eapply safe_bind; [by apply getint_ready|]. intros [tm s4] _ (Htm & Hr4 & _). clear Hr Hr1 Hr2 Hr3. pose proof Hr4 as [Hok4 Hpl4].
  assert (Hfail : forall e (s' : chses), st_ok s' -> safe st_ok (on_ses (send_msg_channel_open_failure rc e [] []) s')).
  { intros e s' Hs'. eapply safe_mono; [by apply open_failure_ok, text_nil|]. by intros ? []. }
  destruct (MAX_NAME_LEN <? tl); [by apply Hfail|]. destruct (find_chantype ty) as [ct|] eqn:Hct; [|by apply Hfail]. apply find_chantype_elem in Hct as [nm Hct].
  eapply safe_bind; [apply newchannel_ok; [done|done|]|].
  { unfold is_u32, TRANS_MAX_PAYLOAD_LEN in *. lia. }
  intros [o s5] _ (Hses & Ho). destruct o as [i|]; [|subst s5; by apply Hfail]. destruct Ho as (Hok5 & c & Hc & Hf & Hty).
  assert (Hpl5 : exists pl, ses_payload (ses s5) = Some pl /\ wf pl) by by rewrite Hses.
  eapply (safe_bind (fun '(ret, s6) => ready s6 /\ has_chan i s6 /\ ret < 4294967296)).
  { destruct (ct_inithandler ct) as [h|] eqn:E.
    - apply (tl_init TL _ _ _ c _ E); try done; [intros _; apply (fr_data _ _ Hf)|apply (fr_pending _ _ Hf)|apply (fr_errfd _ _ Hf)|apply (fr_await _ _ Hf)].
    - cbn. split_and!; [|by exists c|done]. split; [|done]. eapply st_made; [done|done|]. apply typed_other. rewrite Hty. by eapply (tl_plain TL). }
  intros [ret s6] _ ([Hok6 _] & [c6 Hc6] & _). destruct (ret =? SSH_OPEN_IN_PROGRESS); [done|]. destruct (0 <? ret).
  - destruct (remove_channel_ok rw i c6 s6 (tl_close TL) Hok6 Hc6) as (s7 & -> & Hok7 & _). by apply Hfail.
  - destruct (prio_ses s6) as [_ Hch]. rewrite (chan_at i c6) by by rewrite Hch. cbn [obind].
    eapply safe_mono; [apply on_ses_ok; [by apply st_prio|]|by intros ? []].
    eapply safe_mono; [apply send_confirmation_ok; apply (so_idle rw (h := None)); by apply st_prio|]. intros p' ?. by eexists.
Qed.

Lemma recv_confirmation_ok (s : chses) : ready s -> safe st_ok (recv_msg_channel_open_confirmation s).
Proof.
  intros Hr. unfold recv_msg_channel_open_confirmation. eapply safe_bind; [by apply getchannel_msg_ok|]. intros [i s1] _ (Hr1 & [c Hc] & _).
  rewrite (chan_at _ _ _ Hc). cbn [obind]. destruct (await_open c) eqn:Haw; [|done]. cbn [negb exit_if obind].
  eapply safe_bind; [by apply getint_ready|]. intros [rc s2] _ (Hrc & Hr2 & Hch2 & _).
  eapply safe_bind; [by apply getint_ready|]. intros [tw s3] _ (Htw & Hr3 & Hch3 & _).
  eapply safe_bind; [by apply getint_ready|]. intros [tm s4] _ (Htm & Hr4 & Hch4 & _).
  assert (Hc4 : channels s4 !! i = Some (Some c)) by (by rewrite Hch4, Hch3, Hch2). pose proof Hr4 as [Hok4 Hpl4].
  pose proof (so_chans _ _ Hok4 _ _ Hc4) as Hck. set (c' := with_transmaxpacket _ _).
  assert (Hns : type c <> svrchansess).
  { intros Hs. destruct (st_typed _ _ _ _ Hok4 Hc4 Hs) as (_ & ? & _). congruence. }
  apply (co_await _ _ _ Hck) in Haw.
  assert (Hok5 : st_ok (put_chan i c' s4)).
  { eapply st_put_chan; [done|done| |done|]; [destruct Hck; split; done|]. apply same_kind_pending; try done. by right. }
  assert (Hc5 : has_chan i (put_chan i c' s4)).
  { exists c'. cbn. apply list_lookup_insert_eq. by eapply lookup_lt_Some. }
  eapply (safe_bind (fun '(ret, s6) => ready s6 /\ has_chan i s6 /\ ret < 4294967296)).
  { destruct (ct_inithandler (type c')) as [h|] eqn:E; [|cbn; split_and!; try done; lia].
    apply (tl_init TL _ _ _ c' _ E); [by apply st_making|done|cbn; apply list_lookup_insert_eq; by eapply lookup_lt_Some|done|done|apply Haw..|done]. }
  intros [ret s6] _ ([Hok6 _] & [c6 Hc6] & _). destruct (0 <? ret).
  - destruct (remove_channel_ok rw i c6 s6 (tl_close TL) Hok6 Hc6) as (s7 & -> & Hok7 & _). done.
  - by apply st_prio.
Qed.

Lemma recv_failure_ok (s : chses) : ready s -> safe st_ok (recv_msg_channel_open_failure s).
Proof.
  intros Hr. unfold recv_msg_channel_open_failure. eapply safe_bind; [by apply getchannel_msg_ok|]. intros [i s1] _ ([Hok1 _] & [c Hc] & _).
  rewrite (chan_at _ _ _ Hc). cbn [obind]. destruct (await_open c); [|done]. cbn [negb exit_if obind].
  destruct (remove_channel_ok rw i (with_await_open false c) (put_chan i (with_await_open false c) s1)) as (s' & -> & ? & _); [apply TL| | |done].
  - eapply st_put_chan; [done|done| |done|]; [destruct (so_chans _ _ Hok1 _ _ Hc); by split|]. apply same_kind_pending; try done. by right.
  - cbn. apply list_lookup_insert_eq. by eapply lookup_lt_Some.
Qed.

(** ** Connections in progress *)

(** A channel starts waiting for a connection. *)
Lemma st_connect i k c (s : chses) : st_ok s -> channels s !! i = Some (Some c) -> conns s !! k = None ->
  conn_pending c = None -> errfd c = FD_CLOSED -> await_open c = false -> type c <> svrchansess ->
  st_ok (with_conns (<[k := ChannelConnectDone i]> (conns s)) (put_chan i (with_conn_pending (Some k) c) s)).
Proof.
  intros Hok Hc Hk Hcp He Haw Hns. apply lookup_lt_Some in Hc as Hlt.
  pose proof (so_chans _ _ Hok _ _ Hc) as Hck. pose proof Hok as [H1 H2 H3 H4 H5 H6 H7]. split; cbn; try done; [..|eapply procs_put; [done..|by split]].
  - intros j d. rewrite list_lookup_insert_Some. intros [(-> & [= <-] & _)|[_ ?]]; [|auto]. destruct Hck; split; try done. cbn. congruence.
  - unfold zlen. by rewrite length_insert.
  - rewrite (count_insert _ _ _ _ Hc). lia.
  - intros k' j. rewrite lookup_insert_Some, H6. split.
    + intros [[<- [= <-]]|[Hne (d & Hd & Hdk)]]; [exists (with_conn_pending (Some k) c); by rewrite list_lookup_insert_eq|].
      exists d. split; [|done]. rewrite list_lookup_insert_ne; [done|]. intros ->. congruence.
    + intros (d & Hd & Hdk). apply list_lookup_insert_Some in Hd as [(-> & [= <-] & _)|[Hne Hd]]; [left; cbn in Hdk; split; congruence|].
      right. split; [|by exists d]. intros ->. assert (conns s !! k' = Some (ChannelConnectDone j)) as Hkj by (apply H6; by exists d). congruence.
Qed.

(** A connection may only be completed while its channel has not been closed. *)
Definition connect_ok (k : nat) (r : Z + bytes) (s : chses) : Prop :=
  match r with
  | inl sock => 0 <= sock /\ forall i c, conns s !! k = Some (ChannelConnectDone i) -> channels s !! i = Some (Some c) ->
                  sent_eof c = false /\ sent_close c = false
  | inr text => text_ok text
  end.

Lemma st_delete_conn k (s : chses) : st_ok s -> (forall i, conns s !! k <> Some (ChannelConnectDone i)) -> st_ok (with_conns (delete k (conns s)) s).
Proof.
  intros [] Hk. split; cbn; try done. intros k' j. rewrite <- so_conns. destruct (decide (k = k')) as [<-|].
  - rewrite lookup_delete_eq. split; [done|]. intros ?. by destruct (Hk j).
  - by rewrite lookup_delete_ne.
Qed.

Lemma connect_done_ok k i r (s : chses) : st_ok s -> conns s !! k = Some (ChannelConnectDone i) -> connect_ok k r s ->
  safe (fun s' => st_ok (with_conns (delete k (conns s')) s')) (channel_connect_done r i s).
Proof.
  intros Hok Hk Hr. pose proof Hk as Hk'. apply (so_conns _ _ Hok) in Hk' as (c & Hc & Hcp). pose proof (so_chans _ _ Hok _ _ Hc) as Hck.
  unfold channel_connect_done. rewrite (chan_at _ _ _ Hc). cbn [obind]. destruct r as [sock|text]; cbn [connect_ok] in Hr.
  - destruct Hr as [Hsock Hr]. destruct (Hr i c Hk Hc) as [He Hcl]. set (c' := with_conn_pending None _).
    assert (Hc' : chan_ok i c').
    { pose proof (co_pending _ _ _ Hck) as Hp. rewrite Hcp in Hp. specialize (Hp ltac:(done)). destruct Hck. split; cbn; try done; congruence. }
    assert (Hst : st_ok (with_conns (delete k (conns s)) (put_chan i c' s))).
    { apply lookup_lt_Some in Hc as Hlt. pose proof Hok as [H1 H2 H3 H4 H5 H6 H7].
      assert (Hns : type c <> svrchansess) by (intros Hs; destruct (st_typed _ _ _ _ Hok Hc Hs) as (? & _); congruence).
      split; cbn; try done; [..|eapply procs_put; [done..|by split]].
      - intros j d. rewrite list_lookup_insert_Some. intros [(-> & [= <-] & _)|[_ ?]]; [done|auto].
      - unfold zlen. by rewrite length_insert.
      - rewrite (count_insert _ _ _ (Some c') Hc). lia.
      - intros k' j. split.
        + intros Hd. apply lookup_delete_Some in Hd as [Hne Hd]. apply H6 in Hd as (d & Hd & Hdk). exists d. split; [|done].
          rewrite list_lookup_insert_ne; [done|]. intros ->. congruence.
        + intros (d & Hd & Hdk). apply list_lookup_insert_Some in Hd as [(_ & [= <-] & _)|[Hne Hd]]; [done|].
          assert (conns s !! k' = Some (ChannelConnectDone j)) as Hkk by (apply H6; by exists d).
          rewrite lookup_delete_ne; [done|]. intros ->. congruence. }
    unfold on_ses. eapply safe_bind; [apply send_confirmation_ok, Hok|]. intros p' _ (Hi' & Hp' & _). cbn [safe].
    apply (st_ses p') in Hst; [exact Hst|done|]. pose proof (so_payload _ _ Hok). unfold payload_ok in *. cbn in Hp'. by rewrite Hp'.
  - eapply safe_bind; [by apply open_failure_ok|]. intros s1 _ (Hok1 & Hch1 & _).
    assert (Hc1 : channels s1 !! i = Some (Some c)) by by rewrite Hch1.
    destruct (remove_channel_ok rw i c s1 (tl_close TL) Hok1 Hc1) as (s2 & Hrem & Hok2 & _ & Hch2). rewrite Hrem. cbn.
    apply st_delete_conn; [done|]. intros j Hj. apply (so_conns _ _ Hok2) in Hj as (d & Hd & Hdk). rewrite Hch2 in Hd.
    apply list_lookup_insert_Some in Hd as [(_ & ? & _)|[Hne Hd]]; [done|]. rewrite Hch1 in Hd.
    assert (conns s !! k = Some (ChannelConnectDone j)) as Hkj by (apply (so_conns _ _ Hok); by exists d). congruence.
Qed.

Lemma connect_finished_ok k r (s : chses) : st_ok s -> is_Some (conns s !! k) -> connect_ok k r s -> safe st_ok (connect_finished k r s).
Proof.
  intros Hok [cb Hk] Hr. unfold connect_finished. rewrite Hk. destruct cb as [i|].
  - eapply safe_bind; [by apply connect_done_ok|]. done.
  - cbn [obind safe]. apply st_delete_conn; destruct r; try (destruct Hok; by split); cbn; rewrite Hk; done.
Qed.

(** ** Data *)

(** The message stays within the window of its channel, or is refused as oversized. *)
Definition data_ok (s : chses) : Prop :=
  forall i s1 c n s2, getchannel s = Ok (i, s1) -> channels s1 !! i = Some (Some c) -> 0 <= writefd c -> recv_eof c = false ->
    pr buf_getint s1 = Ok (n, s2) -> n <= recvwindow c \/ cbuf_getavail (writebuf c) < n.

Lemma recv_data_ok (s : chses) : ready s -> data_ok s -> safe st_ok (recv_msg_channel_data rw s).
Proof.
  intros Hr Hd. unfold recv_msg_channel_data. eapply safe_bind; [by apply getchannel_msg_ok|]. intros [i s1] Hget (Hr1 & [c Hc] & _).
  pose proof Hr1 as [Hok1 (pl & Hpl & Hw)]. pose proof (so_chans _ _ Hok1 _ _ Hc) as Hck.
  destruct (recv_eof c) eqn:He; [unfold common_recv_msg_channel_data; by rewrite (chan_at _ _ _ Hc); cbn; rewrite He|].
  destruct (Z.lt_ge_cases (writefd c) 0) as [Hfd|Hfd].
  { unfold common_recv_msg_channel_data. rewrite (chan_at _ _ _ Hc). cbn. rewrite He. cbn. by rewrite (proj2 (Z.ltb_lt _ _) Hfd). }
  pose proof (common_recv_ok rw Hrw i c s1 pl Hc Hck (so_idle _ _ Hok1) Hpl Hw He Hfd) as Hgen.
  destruct (buf_getint pl) as [[n pl1]|e|] eqn:Hint; [|rewrite Hgen; by pose proof (noassert_getint pl); rewrite Hint in *; cbn; intros ->|done].
  assert (Hpr : pr buf_getint s1 = Ok (n, with_ses (ses_set_payload pl1 (ses s1)) s1)) by (rewrite (pr_eq _ _ _ Hpl), Hint; done).
  destruct (Hd _ _ _ _ _ Hget Hc Hfd He Hpr) as [Hwin|Hbig].
  - specialize (Hgen Hwin). pose proof (safe_getint pl Hw) as Hn. rewrite Hint in Hn. destruct Hn as [Hn Hw1]. unfold is_u32 in Hn.
    pose proof (safe_read pl1 n Hw1 ltac:(lia)) as Hread. destruct (buf_read pl1 n) as [data|e|]; [|by rewrite Hgen|done].
    eapply safe_mono; [exact Hgen|]. intros s2 Hst. destruct Hread as [_ <-].
    destruct (recv_step_ok rw Hrw i data c s1 s2 Hck (so_idle _ _ Hok1) Hwin Hst) as (c' & p' & w' & l & -> & Hc' & Hi' & _ & (pl' & Hpl' & Hw') & Hcp & Hsk).
    rewrite <- (eq_refl : with_world w' (with_ses p' s1) = with_ses p' (with_world w' s1)).
    eapply st_put; try done. unfold payload_ok. by rewrite Hpl'.
  - unfold common_recv_msg_channel_data. rewrite (chan_at _ _ _ Hc). cbn [obind]. rewrite He. cbn [exit_if obind chan_cbuf].
    rewrite (proj2 (Z.ltb_ge _ _) Hfd), Hpr. cbn [obind]. by rewrite (proj2 (Z.ltb_lt _ _) Hbig).
Qed.

(** A data message beyond the window always ends the session. *)
Lemma data_kept (s : chses) : (forall m, recv_msg_channel_data rw s <> Exit m) -> data_ok s.
Proof.
  intros H i s1 c n s2 Hget Hc Hfd He Hpr. destruct (Z.le_gt_cases n (recvwindow c)) as [|Hwin]; [by left|].
  destruct (Z.lt_ge_cases (cbuf_getavail (writebuf c)) n) as [|Hav]; [by right|]. exfalso. apply (H assert_msg).
  unfold recv_msg_channel_data. rewrite Hget. cbn [obind]. unfold common_recv_msg_channel_data. rewrite (chan_at _ _ _ Hc). cbn [obind]. rewrite He.
  cbn [exit_if obind chan_cbuf]. rewrite (proj2 (Z.ltb_ge _ _) Hfd), Hpr. cbn [obind]. rewrite (proj2 (Z.ltb_ge _ _) Hav). cbn [exit_if obind].
  by rewrite (proj2 (Z.leb_gt _ _) Hwin).
Qed.

(** ** The main loop *)

Lemma send_step_ok i ext c (p : P) (w : W) c' p' : chan_ok i c -> send_step ext c p w c' p' ->
  chan_ok i c' /\ conn_pending c' = conn_pending c /\ same_kind c c' /\ exists l, talked p l p'.
Proof.
  intros Hc [c1 p1 Hcl Ht|bs c1 p1 _ H0 H1 H2 _ -> Ht].
  - split; [by eapply closes_ok|]. split; [by apply closes_same|]. split; [by apply closes_kind|by eexists].
  - split; [|split; [done|split; [by split|by eexists]]]. pose proof (co_transwindow _ _ _ Hc) as Hu. destruct Hc. split; cbn; try done. unfold is_u32 in *. lia.
Qed.

Lemma not_closed i c : chan_ok i c -> 0 <= readfd c \/ 0 <= errfd c -> sent_close c = false.
Proof.
  intros Hc Hfd. destruct (sent_close c) eqn:E; [|done]. destruct (co_sent_close _ _ _ Hc E) as [He _].
  destruct (co_sent_eof _ _ _ Hc He) as [Hr Hx]. unfold FD_CLOSED in *. lia.
Qed.

(** The state of one channel in the middle of its turn. *)
Definition turn (i : nat) (c0 : Channel) (p0 : P) (x : Channel * P * W) : Prop :=
  let '(c, p, _) := x in chan_ok i c /\ conn_pending c = conn_pending c0 /\ same_kind c0 c /\ exists l, talked p0 l p.

Lemma turn_data i (ext : bool) c0 p0 c p w (go : bool) : turn i c0 p0 (c, p, w) -> (go = true -> 0 <= (if ext then errfd c else readfd c)) ->
  safe (turn i c0 p0) (if go then send_msg_channel_data ext c p w else Ok (c, p, w)).
Proof.
  intros (Hc & Hcp & Hk & l & Ht) Hgo. destruct go; [|by split_and!; [..|exists l]]. specialize (Hgo eq_refl).
  eapply safe_mono; [apply (send_msg_channel_data_ok rw i); [done|by destruct Ht|apply (not_closed i); [done|destruct ext; auto]|done]|].
  intros [[c1 p1] w1] Hst. destruct (send_step_ok _ _ _ _ _ _ _ Hc Hst) as (H1 & H2 & H4 & l1 & H3). split; [done|]. split; [congruence|]. split; [by etrans|].
  eexists. by eapply talked_trans.
Qed.

Lemma turn_write i c0 p0 c p w (go : bool) : turn i c0 p0 (c, p, w) ->
  safe (turn i c0 p0) (if go then let* (_, _, c, p, w) := writechannel rw false (writefd c) None c p w in Ok (c, p, w) else Ok (c, p, w)).
Proof.
  intros (Hc & Hcp & Hk & l & Ht). destruct go; [|by split_and!; [..|exists l]].
  eapply safe_bind; [apply (writechannel_ok rw Hrw _ None); [by eapply chan_ok_writable|by destruct Ht]|].
  intros [[[[ret n] c1] p1] w1] _ Hst. destruct (write_step_ok rw i _ _ _ _ _ _ _ _ _ Hc Hst) as (H1 & l1 & H3). split; [done|]. split; [|split; [|eexists; by eapply talked_trans]].
  - destruct Hst as [n0 b c1 p1 w1 _ _ _ _ -> _ _|c2 c1 p1 w1 Hcl _ -> _]; [|apply closes_same in Hcl as []]; unfold consume; destruct (_ <=? _); cbn; congruence.
  - etrans; [exact Hk|]. destruct Hst as [n0 b c1 p1 w1 _ _ _ _ -> _ _|c2 c1 p1 w1 Hcl _ -> _]; [apply consume_kind|]. etrans; [by apply closes_kind|apply consume_kind].
Qed.

Lemma channel_io_one_ok rd wr sig i (s : chses) : st_ok s -> safe st_ok (channel_io_one rw rd wr sig i s).
Proof.
  intros Hok. unfold channel_io_one. destruct (channels s !! i) as [[c|]|] eqn:Hc; [|done|done].
  pose proof (so_chans _ _ Hok _ _ Hc) as Hck. set (go1 := (0 <=? readfd c) && rd (readfd c)).
  eapply (safe_bind (turn i c (ses s))).
  { apply (turn_data i false c (ses s) c (ses s) (world s) go1).
    - split_and!; [done..|]. exists []. apply talked_refl, Hok.
    - subst go1. intros Hg. apply andb_prop in Hg as [Hg _]. by apply Z.leb_le in Hg. }
  intros [[c1 p1] w1] _ T1. set (go2 := ERRFD_IS_READ c1 && _ && _). eapply (safe_bind (turn i c (ses s))).
  { apply (turn_data i true c (ses s) c1 p1 w1 go2); [done|]. subst go2. intros Hg. apply andb_prop in Hg as [[_ Hg]%andb_prop _]. by apply Z.leb_le in Hg. }
  intros [[c2 p2] w2] _ T2. set (go3 := (0 <=? writefd c2) && _). eapply (safe_bind (turn i c (ses s))); [by apply turn_write|].
  intros [[c3 p3] w3] _ T3. set (go4 := ERRFD_IS_WRITE c3 && _ && _). assert (go4 = false) as ->.
  { subst go4. unfold ERRFD_IS_WRITE, ERRFD_IS_READ. by rewrite (co_extrabuf _ _ _ (proj1 T3)). }
  cbn [obind]. destruct T3 as (Hc3 & Hcp3 & Hk3 & l & Ht3).
  assert (Hst : st_ok (put_chan i c3 (with_world w3 (with_ses p3 s)))).
  { eapply st_put; try done; [by destruct Ht3|]. eapply talked_payload_ok; [done|]. apply (so_payload _ _ Hok). }
  destruct (_ || sig); [|done]. eapply safe_mono; [eapply check_close_ok; [apply TL|exact Hst|]|by intros ? []].
  cbn. apply list_lookup_insert_eq. by eapply lookup_lt_Some.
Qed.

Lemma channelio_from_ok rd wr sig n : forall i (s : chses), st_ok s -> safe st_ok (channelio_from rw n i rd wr sig s).
Proof.
  induction n as [|n IH]; intros i s Hok; cbn [channelio_from]; [done|].
  eapply safe_bind; [by apply channel_io_one_ok|]. intros s' _ Hok'. by apply IH.
Qed.

(** ** Channels the server opens *)

(** The message [send_msg_channel_open_init] leaves to be completed. *)
Definition opening (s : chses) : Prop :=
  exists p0 bs, st_ok (with_ses p0 s) /\ filled p0 bs (ses s) /\ bs <> [] /\ zlen bs <= 4200.

Lemma open_init_ok fd ty (s : chses) : st_ok s -> ty <> svrchansess ->
  safe (fun '(ok, s') => if (ok : bool) then opening s' else s' = s) (send_msg_channel_open_init rw fd ty s).
Proof.
  intros Hok Hns. unfold send_msg_channel_open_init.
  eapply safe_bind; [by apply (newchannel_ok 0 ty 0 0 s Hok)|]. intros [o s1] _ (Hses & Ho). destruct o as [i|]; [|by subst s1].
  destruct Ho as (Hok1 & c & Hc & Hf & Hty). rewrite (chan_at _ _ _ Hc). cbn [obind]. set (c' := with_await_open true _).
  assert (Hst : st_ok (put_chan i c' s1)).
  { assert (Hns' : type c <> svrchansess) by by rewrite Hty. apply (st_made i c) in Hok1; [|done|by apply typed_other].
    eapply st_put_chan; [done|done| |done|by split; [..|intros _; apply typed_other]]. destruct Hf as [Hck ? ? H3 H4]. destruct Hck. split; cbn; try done; congruence. }
  set (s2 := put_chan i c' s1) in *. pose proof (so_idle _ _ Hst) as Hi. destruct (tl_names TL ty) as [Hn Hnl].
  unfold on_ses. pwstep putbyte_end. pwstep putstring_end. pwstep putint_end. pwstep putint_end. pwstep putint_end. cbn [obind safe].
  match goal with H : filled _ _ _ |- _ => rename H into Hfill end.
  eexists (ses s2), _. split; [|split; [exact Hfill|split; [done|]]].
  - destruct Hst. by split.
  - cbn [ct_name]. room.
Qed.

(** The end of the message, and its sending. *)
Lemma opening_sent (f : P -> outcome P) (s : chses) bs' : opening s ->
  (forall p0 bs p, filled p0 bs p -> zlen bs <= 4200 -> exists p', f p = ses_encrypt_packet p' /\ filled p0 (bs ++ bs') p') ->
  safe st_ok (on_ses f s).
Proof.
  intros (p0 & bs & Hst & Hfill & Hne & Hl) Hf. unfold on_ses. destruct (Hf _ _ _ Hfill Hl) as (p' & -> & Hfill').
  eapply safe_bind; [eapply encrypt_filled; [apply (so_idle _ _ Hst)|exact Hfill'|by destruct bs]|]. intros p1 _ (Hi & Hp & _). cbn [safe].
  apply (st_ses p1) in Hst; [exact Hst|done|]. pose proof (so_payload _ _ Hst) as Hpl. unfold payload_ok in *. cbn in Hpl. by rewrite Hp.
Qed.

(** [send_msg_channel_open_init], then the caller's part of the message and its sending, as
    for a forwarded connection. *)
Definition open_forward (fd ty : Z) (extra : bytes) (s : chses) : outcome chses :=
  let* (ok, s) := send_msg_channel_open_init rw fd ty s in
  if ok then on_ses (fun p => let* p := pw (fun b => buf_putbytes b extra (zlen extra)) p in ses_encrypt_packet p) s
  else Ok s.

Lemma open_forward_ok fd ty extra (s : chses) : st_ok s -> ty <> svrchansess -> text_ok extra -> safe st_ok (open_forward fd ty extra s).
Proof.
  intros Hok Hns [Hx Hxl]. unfold open_forward. eapply safe_bind; [by apply open_init_ok|]. intros [ok s1] _ Ho. destruct ok; [|by subst s1].
  apply (opening_sent _ _ extra); [done|]. intros p0 bs p Hf Hl. pwstep putbytes_end. eexists. split; [done|]. eassumption.
Qed.

(** ** Sequences of events *)

Context (handle_listeners : (Z -> bool) -> chses -> outcome chses).

(** The messages whose handler is here, each with its payload behind the type byte. *)
Inductive chan_msg := MsgOpen | MsgConfirmation | MsgFailure | MsgData | MsgWindowAdjust | MsgEof | MsgClose | MsgRequest.

Definition handle_msg (m : chan_msg) (s : chses) : outcome chses :=
  match m with
  | MsgOpen => recv_msg_channel_open rw s
  | MsgConfirmation => recv_msg_channel_open_confirmation s
  | MsgFailure => recv_msg_channel_open_failure s
  | MsgData => recv_msg_channel_data rw s
  | MsgWindowAdjust => recv_msg_channel_window_adjust s
  | MsgEof => recv_msg_channel_eof s
  | MsgClose => recv_msg_channel_close s
  | MsgRequest => recv_msg_channel_request s
  end.

Inductive chan_event :=
| EvMsg (m : chan_msg) (pl : buffer)
| EvIO (readfds writefds : Z -> bool) (signal : bool)
| EvConnect (k : nat) (r : Z + bytes)
| EvForward (fd ty : Z) (extra : bytes).

Definition with_payload (pl : buffer) (s : chses) : chses := with_ses (ses_set_payload pl (ses s)) s.

Definition run_event (e : chan_event) (s : chses) : outcome chses :=
  match e with
  | EvMsg m pl => handle_msg m (with_payload pl s)
  | EvIO rd wr sig => channelio rw handle_listeners rd wr sig s
  | EvConnect k r => match conns s !! k with Some _ => connect_finished k r s | None => Ok s end
  | EvForward fd ty extra => open_forward fd ty extra s
  end.

Fixpoint run_events (es : list chan_event) (s : chses) : outcome chses :=
  match es with [] => Ok s | e :: es => let* s := run_event e s in run_events es s end.

(** What is asked of an event: payloads are buffers, no connection is completed for a channel
    that EOF or CLOSE has been sent on, and no request comes for a session without a process
    that EOF has been sent on. *)
Definition event_timely (e : chan_event) (s : chses) : Prop :=
  match e with
  | EvMsg m pl => wf pl /\ (m = MsgRequest -> request_ok (with_payload pl s))
  | EvIO _ _ _ => True
  | EvConnect k r => connect_ok k r s
  | EvForward _ ty extra => ty <> svrchansess /\ text_ok extra
  end.

(** The peer keeps to the window of the channel it writes to. *)
Definition event_in_window (e : chan_event) (s : chses) : Prop :=
  match e with EvMsg MsgData pl => data_ok (with_payload pl s) | _ => True end.

Definition event_ok (e : chan_event) (s : chses) : Prop := event_timely e s /\ event_in_window e s.

Fixpoint events_timely (es : list chan_event) (s : chses) : Prop :=
  match es with [] => True | e :: es => event_timely e s /\ forall s', run_event e s = Ok s' -> events_timely es s' end.

Fixpoint events_ok (es : list chan_event) (s : chses) : Prop :=
  match es with [] => True | e :: es => event_ok e s /\ forall s', run_event e s = Ok s' -> events_ok es s' end.

Lemma events_in_time es : forall (s : chses), events_ok es s -> events_timely es s.
Proof. induction es as [|e es IH]; intros s H; [done|]. destruct H as [[H1 _] H2]. split; [done|]. intros s' Hs'. by apply IH, H2. Qed.

Lemma run_event_ok e (s : chses) : (forall rd s, st_ok s -> safe st_ok (handle_listeners rd s)) ->
  st_ok s -> event_ok e s -> safe st_ok (run_event e s).
Proof.
  intros Hl Hok [He Hd]. destruct e as [m pl|rd wr sig|k r|fd ty extra]; cbn [run_event event_timely event_in_window] in *.
  - destruct He as (Hw & Hq). assert (Hr : ready (with_payload pl s)).
    { split; [|exists pl; split; [apply sl_pl_pl|done]]. apply st_ses; [done|apply idle_payload; [apply Hok|done]|]. unfold payload_ok. by rewrite sl_pl_pl. }
    destruct m; cbn [handle_msg];
      auto using recv_open_ok, recv_confirmation_ok, recv_failure_ok, recv_data_ok, recv_window_ok, recv_eof_ok, recv_close_ok, recv_request_ok.
  - unfold channelio. eapply safe_bind; [by apply channelio_from_ok|]. intros s' _ ?. by apply Hl.
  - destruct (conns s !! k) as [cb|] eqn:E; [|done]. by apply connect_finished_ok.
  - destruct He. by apply open_forward_ok.
Qed.

(** Without the window, an assertion may fail, but nothing else is lost. *)
Lemma run_event_any e (s : chses) : (forall rd s, st_ok s -> safe st_ok (handle_listeners rd s)) ->
  st_ok s -> event_timely e s -> opost st_ok (run_event e s).
Proof.
  intros Hl Hok He. pose proof (run_event_ok e s Hl Hok) as H.
  assert (Hwin : (forall m, run_event e s <> Exit m) -> event_ok e s).
  { intros Hne. split; [done|]. destruct e as [[] pl|rd wr sig|k r|fd ty extra]; try done. by apply data_kept. }
  destruct (run_event e s) as [s'|m|]; [|done|]; by apply H, Hwin.
Qed.

Lemma run_events_any es : forall (s : chses), (forall rd s, st_ok s -> safe st_ok (handle_listeners rd s)) ->
  st_ok s -> events_timely es s -> opost st_ok (run_events es s).
Proof.
  induction es as [|e es IH]; intros s Hl Hok Hes; cbn [run_events]; [done|].
  destruct Hes as [He Hes]. eapply opost_bind; [by apply run_event_any|]. intros s' Hrun Hok'. auto.
Qed.

Lemma run_events_ok es : forall (s : chses), (forall rd s, st_ok s -> safe st_ok (handle_listeners rd s)) ->
  st_ok s -> events_ok es s -> safe st_ok (run_events es s).
Proof.
  induction es as [|e es IH]; intros s Hl Hok Hes; cbn [run_events]; [done|].
  destruct Hes as [He Hes]. eapply safe_bind; [by apply run_event_ok|]. intros s' Hrun Hok'. auto.
Qed.

Lemma chaninitialise_ok (p : P) (w : W) pr so : idle p -> payload_ok p -> st_ok (chaninitialise p w pr so).
Proof.
  intros Hi Hp. split; cbn; try done.
  - intros [|[|i]] c; cbn; done.
  - intros k i. split; [by rewrite lookup_empty|]. intros (c & Hc & _). by destruct i as [|[|i]].
  - split.
    + by intros [|[|i]] c.
    + intros e ->%list_elem_of_singleton. by left.
    + by intros [|[|i]] c.
    + by split.
Qed.

(** C17: The channels are safe. From an initialised table, through any sequence of channel
    messages, rounds of the main loop, ends of connections and channels opened by the server,
    with payloads of any content, in which no connection is completed for a channel that EOF or
    CLOSE has been sent on already and no request comes for a session without a process that EOF
    has been sent on already (what happens then is shown by [eof_before_connection] and
    [command_after_eof]): no undefined behaviour occurs (no dangling channel or connection
    pointer, no access outside a buffer); the count of channels and the pointers between channels
    and pending connections stay right; every channel keeps its flow-control invariant (window
    given + bytes taken but not yet announced + bytes buffered never exceed the receive window);
    every channel of a session has its data, and every entry of the table of processes is the
    process of a session that is there. And no assertion fails when, moreover, every data
    message is within the window of its channel, or too big for its buffer. *)
Theorem channels_safe (es : list chan_event) (p : P) (w : W) (pr : dropbear_prio) (so : Z) :
  (forall rd s, st_ok s -> safe st_ok (handle_listeners rd s)) ->
  idle p -> payload_ok p -> events_timely es (chaninitialise p w pr so) ->
  opost st_ok (run_events es (chaninitialise p w pr so)) /\
  (events_ok es (chaninitialise p w pr so) -> safe st_ok (run_events es (chaninitialise p w pr so))).
Proof.
  intros Hl Hi Hp Hes. split; [apply run_events_any|intros Hok; apply run_events_ok]; try done; by apply chaninitialise_ok.
Qed.
End safety.
