(* ===== verification/ChannelMessages.v ===== *)
(** * What the channel messages do

    The effect of the messages whose contents matter to the peer: opening a channel, the
    window, sending data and closing. *)

From S2P Require Import Prelude Bytes CString Buffer CircBuffer Packet Channel ChannelLaws ChannelFlow ChannelData ChannelClose.
From S2P Require Import ChannelSafety.

Section messages.
Context {P W : Type} {SP : Session P} {LS : SessionLaws P} {SW : Sys W} {LW : SysLaws W} {CT : @ChanTypes P W}.
Context (rw : Z).

Abbreviation chses := (@Channel.chses P W).
Abbreviation chan_ok := (chan_ok rw).
Abbreviation st_ok := (st_ok rw).

(** The payload still to read. *)
Definition reading (bs : bytes) (s : chses) : Prop := exists pl, ses_payload (ses s) = Some pl /\ wf pl /\ unread pl = bs.

Lemma pr_takes {A} (m : buffer -> outcome (A * buffer)) bs a rest (s : chses) :
  takes m bs a -> reading (bs ++ rest) s -> exists s', pr m s = Ok (a, s') /\ reading rest s' /\ read_from s s'.
Proof.
  intros Ht (pl & Hp & Hw & Hu). destruct (Ht pl rest Hw Hu) as (Hm & Hu' & Hw'). rewrite (pr_eq _ _ _ Hp), Hm. cbn.
  eexists. split; [done|]. split; [eexists; cbn; by rewrite sl_pl_pl|by eexists].
Qed.

Lemma read_from_same (s s' : chses) : read_from s s' -> channels s' = channels s /\ sent (ses s') = sent (ses s) /\
  world s' = world s /\ conns s' = conns s /\ chancount s' = chancount s.
Proof. intros (pl & _ & ->). cbn. by rewrite sl_sent_pl. Qed.

Lemma read_from_st (s s' : chses) : st_ok s -> read_from s s' -> st_ok s'.
Proof.
  intros [] (pl & Hw & ->). split; cbn; try done; [by apply idle_payload|]. unfold payload_ok. by rewrite sl_pl_pl.
Qed.

Lemma getchannel_takes kind i c rest (s : chses) : channels s !! i = Some (Some c) -> zlen (channels s) < 4294967296 ->
  reading (store32h (Z.of_nat i) ++ rest) s -> exists s', getchannel_msg kind s = Ok (i, s') /\ reading rest s' /\ read_from s s'.
Proof.
  intros Hc Hlen Hr. apply lookup_lt_Some in Hc as Hlt. unfold zlen in *.
  destruct (pr_takes _ _ (Z.of_nat i) rest s (takes_int (Z.of_nat i) ltac:(unfold is_u32; lia)) Hr) as (s' & Hpr & Hr' & Hf).
  exists s'. split; [|done]. unfold getchannel_msg. rewrite Hpr. cbn [obind]. destruct (read_from_same _ _ Hf) as (-> & _).
  unfold zlen. rewrite (proj2 (Z.leb_gt _ _)) by lia. by rewrite Nat2Z.id, Hc.
Qed.

(** Window adjustments add up and saturate. A window adjustment for channel [i] adds its
    increment to the window for sending, up to the largest 32-bit number, whatever the window
    was, and changes nothing else of the channel, of the other channels or of the messages
    sent. *)
Theorem window_adjust_saturates (s : chses) i c incr rest :
  st_ok s -> channels s !! i = Some (Some c) -> is_u32 incr ->
  reading (store32h (Z.of_nat i) ++ store32h incr ++ rest) s ->
  exists s', recv_msg_channel_window_adjust s = Ok s' /\
    channels s' = <[i := Some (with_transwindow (Z.min (transwindow c + incr) 4294967295) c)]> (channels s) /\
    sent (ses s') = sent (ses s) /\ world s' = world s.
Proof.
  intros Hok Hc Hincr Hr. unfold recv_msg_channel_window_adjust, getchannel. pose proof (so_size _ _ Hok).
  destruct (getchannel_takes None i c (store32h incr ++ rest) s Hc) as (s1 & -> & Hr1 & Hf1); [unfold MAX_CHANNELS, CHAN_EXTEND_SIZE in *; lia|done|]. cbn [obind].
  destruct (pr_takes _ _ incr rest s1 (takes_int incr Hincr) Hr1) as (s2 & -> & _ & Hf2). cbn [obind].
  destruct (read_from_same _ _ Hf1) as (H1 & H1s & H1w & _), (read_from_same _ _ Hf2) as (H2 & H2s & H2w & _).
  rewrite (chan_at i c) by congruence. cbn [obind]. eexists. split; [done|]. cbn. rewrite H2, H1.
  pose proof (co_transwindow _ _ _ (so_chans _ _ Hok _ _ Hc)) as Hw. unfold is_u32 in *.
  split; [|split; congruence]. do 3 f_equal. unfold u32. destruct (Z.ltb_spec ((transwindow c + incr) mod 4294967296) (transwindow c)); lia.
Qed.

(** The outcome of reading a descriptor of the channel: no message, or one with the bytes read. *)
Definition data_sent (i : nat) (ext : bool) (c : Channel) (p : P) (w : W) (x : Channel * P * W) : Prop :=
  let '(c', p', _) := x in
  chan_ok i c' /\ idle p' /\
  ((sent p' = sent p /\ transwindow c' = transwindow c) \/
   (exists bs n w1, sys_read (if ext then errfd c else readfd c) n w = (FdData bs, w1) /\
      0 < zlen bs <= Z.min (transwindow c) (transmaxpacket c) /\ transwindow c' = transwindow c - zlen bs /\
      sent p' = sent p ++ [data_msg ext (remotechan c) bs])).


(** ** Closing, over the life of a channel *)

(** What makes [check_close] run on channel [i]. *)
Inductive close_op := GotEof | GotClose | Turn.

Definition run_close_op (i : nat) (o : close_op) (s : chses) : outcome chses :=
  match channels s !! i with
  | Some (Some c) =>
      check_close i (match o with
                     | GotEof => put_chan i (with_recv_eof true c) s
                     | GotClose => put_chan i (with_recv_close true (with_recv_eof true c)) s
                     | Turn => s
                     end)
  | _ => Ok s
  end.

Fixpoint run_close_ops (i : nat) (os : list close_op) (s : chses) : outcome chses :=
  match os with [] => Ok s | o :: os => let* s := run_close_op i o s in run_close_ops i os s end.

Lemma run_close_gone i os : forall (s : chses), channels s !! i = Some None -> run_close_ops i os s = Ok s.
Proof. induction os as [|o os IH]; intros s Hs; cbn [run_close_ops]; [done|]. unfold run_close_op. rewrite Hs. by apply IH. Qed.

(** The channel as [check_close] finds it. *)
Lemma close_op_start i c o (s : chses) : st_ok s -> channels s !! i = Some (Some c) ->
  exists c1 s1, match o with GotEof => put_chan i (with_recv_eof true c) s | GotClose => put_chan i (with_recv_close true (with_recv_eof true c)) s | Turn => s end = s1 /\
    st_ok s1 /\ channels s1 = <[i := Some c1]> (channels s) /\ sent (ses s1) = sent (ses s) /\
    remotechan c1 = remotechan c /\ same_kind c c1 /\ sent_eof c1 = sent_eof c /\ sent_close c1 = sent_close c /\ (recv_close c1 = true -> recv_close c = true \/ o = GotClose).
Proof.
  intros Hok Hc. pose proof (so_chans _ _ Hok _ _ Hc) as Hck.
  exists (match o with GotEof => with_recv_eof true c | GotClose => with_recv_close true (with_recv_eof true c) | Turn => c end).
  eexists. split; [done|]. destruct o; (split; [try (eapply st_put_chan; [done|done|destruct Hck; by split|done|by split]); done|]); cbn;
    (split; [rewrite ?list_insert_id by done; done|]); split_and!; auto; by split.
Qed.

(** Two turns on the same channel: after a CLOSE nothing more is sent, after an EOF no other. *)
Lemma closing_twice (c : Channel) e cl x e' cl' x' : (cl = true -> e' = false /\ cl' = false) -> (e = true -> e' = false) ->
  closing_msgs c e cl x ++ closing_msgs c e' cl' x' = closing_msgs c (e || e') (cl || cl') (if cl then x else x').
Proof.
  unfold closing_msgs. intros Hcl He. destruct cl.
  { destruct Hcl as [-> ->]; [done|]. by rewrite orb_false_r, !app_nil_r. }
  destruct e; [rewrite He by done|]; cbn [orb]; by rewrite ?app_nil_r, <- ?app_assoc.
Qed.

(** What was sent while channel [i] was looked at, and where it ended. *)
Definition closed_once (i : nat) (c : Channel) (os : list close_op) (s s' : chses) : Prop :=
  st_ok s' /\ exists eof close x,
    sent (ses s') = sent (ses s) ++ closing_msgs c eof close x /\
    (eof = true -> sent_eof c = false) /\ (close = true -> sent_close c = false /\ close_said c x) /\
    (forall j, j <> i -> channels s' !! j = channels s !! j) /\
    match channels s' !! i with
    | Some (Some c') => remotechan c' = remotechan c /\ same_kind c c' /\
        sent_eof c' = (sent_eof c || eof || close) /\ sent_close c' = (sent_close c || close)
    | _ => (recv_close c = true \/ In GotClose os) /\ sent_close c || close = true
    end.

(** Whatever EOF and CLOSE messages arrive and however often the channel is looked at, in any
    order, everything [check_close] sends over the life of the channel is at most one EOF and
    then at most one CLOSE preceded by what the type of the channel says at the end. *)
Lemma close_run i (s : chses) c (os : list close_op) :
  close_law (P := P) (W := W) -> st_ok s -> channels s !! i = Some (Some c) ->
  safe (closed_once i c os s) (run_close_ops i os s).
Proof.
  intros Hlaw. unfold closed_once. revert c s. induction os as [|o os IH]; intros c s Hok Hc; cbn [run_close_ops].
  - cbn. split; [done|]. exists false, false, []. rewrite Hc, app_nil_r, !orb_false_r. by split_and!.
  - unfold run_close_op. rewrite Hc. destruct (close_op_start i c o s Hok Hc) as (c1 & s1 & -> & Hok1 & Hch1 & Hs1 & R1 & K1 & E1 & C1 & G1).
    apply lookup_lt_Some in Hc as Hlt. assert (Hc1 : channels s1 !! i = Some (Some c1)) by (rewrite Hch1; by apply list_lookup_insert_eq).
    eapply safe_bind; [by apply (check_close_ok rw i c1)|]. intros s2 _ (Hok2 & e & cl & x & Hs2 & _ & He & Hcl0 & Hcase).
    assert (Hcl : cl = true -> sent_close c = false /\ close_said c x).
    { intros Hx. destruct (Hcl0 Hx) as (H1 & H2 & _). split; [congruence|]. by eapply close_said_same. }
    assert (Hmsgs : closing_msgs c1 e cl x = closing_msgs c e cl x) by (unfold closing_msgs, eof_msg, close_msg; by rewrite R1).
    rewrite E1 in He. rewrite C1 in Hcase. rewrite Hmsgs, Hs1 in Hs2. clear Hmsgs Hcl0.
    destruct Hcase as [(Hch2 & Hrc & Hgone)|(c2 & Hch2 & R2 & G2 & K2 & E2 & C2)]; rewrite Hch1, list_insert_insert_eq in Hch2.
    + rewrite run_close_gone by (rewrite Hch2; by apply list_lookup_insert_eq). split; [done|]. exists e, cl, x.
      rewrite Hch2, list_lookup_insert_eq by done. split_and!; [done..| | |].
      * intros j Hj. by rewrite list_lookup_insert_ne.
      * destruct (G1 Hrc) as [?| ->]; cbn; auto.
      * destruct Hgone as [->| ->]; [done|apply orb_true_r].
    + assert (Hc2 : channels s2 !! i = Some (Some c2)) by (rewrite Hch2; by apply list_lookup_insert_eq).
      eapply safe_mono; [by apply (IH c2 s2)|]. intros s3 (Hok3 & e' & cl' & x' & Hs3 & He' & Hcl' & Hoth & Hend). split; [done|].
      assert (Hsc : sent_close c2 = true -> sent_eof c2 = true) by (intros H; by destruct (co_sent_close _ _ _ (so_chans _ _ Hok2 _ _ Hc2) H)).
      rewrite E2, E1 in *. rewrite C2 in *. rewrite R2, R1 in Hend. assert (Kc : same_kind c c2) by (by etrans).
      exists (e || e'), (cl || cl'), (if cl then x else x').
      assert (Hno : cl = true -> e' = false /\ cl' = false).
      { intros ->. split; [destruct e'; [specialize (He' eq_refl)|done]|destruct cl'; [destruct (Hcl' eq_refl) as [H _]|done]]; rewrite orb_true_r in *; done. }
      rewrite <- closing_twice; [|done|intros ->; destruct e'; [specialize (He' eq_refl)|done]; by destruct (sent_eof c)].
      assert (Hm2 : closing_msgs c2 e' cl' x' = closing_msgs c e' cl' x') by (unfold closing_msgs, eof_msg, close_msg; by rewrite R2, R1).
      split_and!.
      * by rewrite Hs3, Hs2, Hm2, <- app_assoc.
      * destruct e; [by intros _; apply He|]. cbn [orb]. intros ->. specialize (He' eq_refl). by destruct (sent_eof c).
      * destruct cl; [done|]. cbn [orb]. intros ->. destruct (Hcl' eq_refl) as [H1 H2]. rewrite orb_false_r in H1. split; [done|].
        eapply close_said_same; [exact Kc|congruence|done].
      * intros j Hj. rewrite Hoth, Hch2 by done. by rewrite list_lookup_insert_ne.
      * destruct (channels s3 !! i) as [[c3|]|].
        { destruct Hend as (? & ? & -> & ->). split_and!; [done|by etrans| |by rewrite orb_assoc]. destruct (sent_eof c), e, cl, e', cl'; done. }
        all: destruct Hend as [Hr Hn]; rewrite G2 in Hr; (split; [|by rewrite orb_assoc]);
          destruct Hr as [Hr|Hr]; [destruct (G1 Hr) as [?| ->]; cbn; auto|cbn; auto].
Qed.

(** ** Opening *)

Definition open_failure_msg (rc reason : Z) : bytes :=
  SSH_MSG_CHANNEL_OPEN_FAILURE :: store32h rc ++ store32h reason ++ ssh_string [] ++ ssh_string [].

Definition open_confirmation_msg (rc : Z) (i : nat) : bytes :=
  SSH_MSG_CHANNEL_OPEN_CONFIRMATION :: store32h rc ++ store32h (Z.of_nat i) ++ store32h rw ++ store32h RECV_MAX_CHANNEL_DATA_LEN.

Lemma find_type name : Forall (fun b => b <> 0) name ->
  find_chantype (name ++ [0]) = match list_find (fun tn => name = snd tn) ct_names with Some (_, (ty, _)) => Some ty | None => None end.
Proof. intros Hn. unfold find_chantype. by rewrite cstr_app. Qed.

(** What is left of [s] after reads of the payload. *)
Lemma reads_same (s s' : chses) : rtc read_from s s' -> channels s' = channels s /\ sent (ses s') = sent (ses s) /\ world s' = world s /\ conns s' = conns s.
Proof.
  induction 1 as [|s1 s2 s3 H _ IH]; [done|]. apply read_from_same in H. destruct_and!. split_and!; congruence.
Qed.

Lemma reads_st (s s' : chses) : rtc read_from s s' -> st_ok s -> st_ok s'.
Proof. induction 1; [done|]. intros. by eapply IHrtc, read_from_st. Qed.

(** The end of [recv_msg_channel_open], from the result of the type's initialisation. *)
Definition open_answer (rc : Z) (i : nat) (init : outcome (Z * chses)) : outcome chses :=
  let* (ret, s) := init in
  if ret =? SSH_OPEN_IN_PROGRESS then Ok s
  else if 0 <? ret then let* s := remove_channel i s in on_ses (send_msg_channel_open_failure rc ret [] []) s
  else
    let s := update_channel_prio s in
    let* c := chan i s in
    on_ses (send_msg_channel_open_confirmation c (recvwindow c) (recvmaxpacket c)) s.

(** A new channel [i] of type [ty] in [s'], as the peer asked for it. *)
Definition new_chan (i : nat) (ty rc win mx : Z) (c : Channel) : Prop :=
  type c = ty /\ remotechan c = rc /\ transwindow c = win /\ transmaxpacket c = Z.min mx TRANS_MAX_PAYLOAD_LEN /\ recvwindow c = rw /\
  recvmaxpacket c = RECV_MAX_CHANNEL_DATA_LEN /\ index c = i.

Definition is_full (s : chses) : bool := bool_decide (free_slot (channels s) = length (channels s)) && (MAX_CHANNELS <=? zlen (channels s)).

(** What [recv_msg_channel_open] makes of a well-formed request for a channel of type [name]. *)
Lemma open_request_read (s : chses) name rc win mx rest :
  0 < rw <= MAX_RECV_WINDOW -> st_ok s -> Forall (fun b => b <> 0) name -> zlen name <= MAX_STRING_LEN ->
  is_u32 rc -> is_u32 win -> is_u32 mx -> reading (ssh_string name ++ store32h rc ++ store32h win ++ store32h mx ++ rest) s ->
  exists s4, rtc read_from s s4 /\ st_ok s4 /\ reading rest s4 /\
    match (if MAX_NAME_LEN <? zlen name then None else list_find (fun tn => name = snd tn) ct_names) with
    | None => recv_msg_channel_open rw s = on_ses (send_msg_channel_open_failure rc SSH_OPEN_UNKNOWN_CHANNEL_TYPE [] []) s4
    | Some (_, (ty, _)) =>
        if is_full s then recv_msg_channel_open rw s = on_ses (send_msg_channel_open_failure rc SSH_OPEN_RESOURCE_SHORTAGE [] []) s4
        else let i := free_slot (channels s) in
          exists c s5, st_ok_but rw (Some i) s5 /\ ses s5 = ses s4 /\ channels s5 !! i = Some (Some c) /\ fresh rw i c /\ new_chan i ty rc win mx c /\
            (forall j d, j <> i -> channels s5 !! j = Some (Some d) <-> channels s !! j = Some (Some d)) /\
            recv_msg_channel_open rw s =
              open_answer rc i (match ct_inithandler (P := P) (W := W) ty with Some h => h i s5 | None => Ok (0, s5) end)
    end.
Proof.
  intros Hrw Hok Hnz Hlen Hrc Hwin Hmx Hr. unfold recv_msg_channel_open.
  assert (Htk : takes (fun b => let* (t, l, b) := buf_getstring b in Ok ((t, l), b)) (ssh_string name) (name ++ [0], zlen name)).
  { intros b r Hb Hu. destruct (takes_string name Hlen b r Hb Hu) as (-> & H2). done. }
  destruct (pr_takes _ _ _ _ s Htk Hr) as (s1 & -> & Hr1 & F1). cbn [obind].
  destruct (pr_takes _ _ _ _ s1 (takes_int rc Hrc) Hr1) as (s2 & -> & Hr2 & F2). cbn [obind].
  destruct (pr_takes _ _ _ _ s2 (takes_int win Hwin) Hr2) as (s3 & -> & Hr3 & F3). cbn [obind].
  destruct (pr_takes _ _ _ _ s3 (takes_int mx Hmx) Hr3) as (s4 & -> & Hr4 & F4). cbn [obind].
  assert (F : rtc read_from s s4) by (do 4 (eapply rtc_l; [eassumption|]); apply rtc_refl).
  pose proof (reads_st _ _ F Hok) as Hok4. destruct (reads_same _ _ F) as (E4 & _). exists s4. split; [done|]. split; [done|]. split; [done|].
  clear F1 F2 F3 F4 Hr1 Hr2 Hr3 Hr Htk s1 s2 s3. destruct (MAX_NAME_LEN <? zlen name); [done|]. rewrite find_type by done.
  destruct (list_find (fun tn => name = snd tn) ct_names) as [[k [ty nm]]|]; [|done].
  assert (Hm : is_u32 (Z.min mx TRANS_MAX_PAYLOAD_LEN)) by (unfold is_u32, TRANS_MAX_PAYLOAD_LEN in *; lia).
  pose proof (newchannel_spec rw Hrw rc ty win (Z.min mx TRANS_MAX_PAYLOAD_LEN) s4 Hok4 Hwin Hm) as Hnew. unfold table_full in Hnew. rewrite E4 in Hnew.
  unfold is_full. destruct (bool_decide (free_slot (channels s) = length (channels s)) && (MAX_CHANNELS <=? zlen (channels s))); [by rewrite Hnew|].
  destruct Hnew as (c & s5 & -> & Hok5 & Hses & Hc & Hf & Hty & Hcrc & Hcw & Hcm & Hrwin & Hrmx & Hoth). cbn [obind].
  exists c, s5. split_and!; try done. split_and!; try done. by apply (co_index _ _ _ (fr_ok _ _ _ Hf)).
Qed.
End messages.
