(* ===== verification/ChannelErrors.v ===== *)
(** * How the channels fail

    Two places where what the peer sends ends the session: data that is not allowed, and an
    EOF for a channel whose connection is still being made. *)

From S2P Require Import Prelude Bytes Buffer CircBuffer Packet Channel ChannelLaws ChannelFlow ChannelData ChannelClose.
From S2P Require Import ChannelSafety ChannelMessages.

Section errors.
Context {P W : Type} {SP : Session P} {LS : SessionLaws P} {SW : Sys W} {LW : SysLaws W} {CT : @ChanTypes P W}.
Context (rw : Z).

Abbreviation chses := (@Channel.chses P W).
Abbreviation chan_ok := (chan_ok rw).
Abbreviation st_ok := (st_ok rw).

(** Data that is not allowed is never taken. A data message for a channel whose program
    still reads ends the session when EOF has been received before, when the data does not fit
    the buffer, and when it is beyond the window although it would still fit; each with its own
    error, the last one by a failed assertion. *)
Theorem data_refused (s : chses) i c n rest :
  st_ok s -> channels s !! i = Some (Some c) -> 0 <= writefd c -> is_u32 n ->
  reading (store32h (Z.of_nat i) ++ store32h n ++ rest) s ->
  recv_eof c = true \/ recvwindow c < n ->
  recv_msg_channel_data rw s =
  Exit (if recv_eof c then "Received data after eof"
        else if cbuf_getavail (writebuf c) <? n then "Oversized packet" else assert_msg).
Proof.
  intros Hok Hc Hfd Hn Hr Hbad. unfold recv_msg_channel_data, getchannel. pose proof (so_size _ _ Hok).
  destruct (getchannel_takes None i c (store32h n ++ rest) s Hc) as (s1 & -> & Hr1 & Hf1); [unfold MAX_CHANNELS, CHAN_EXTEND_SIZE in *; lia|done|].
  destruct (read_from_same _ _ Hf1) as (H1 & _). cbn [obind]. unfold common_recv_msg_channel_data.
  rewrite (chan_at i c) by congruence. cbn [obind]. destruct (recv_eof c); [done|]. destruct Hbad as [[=]|Hbad]. cbn [exit_if obind chan_cbuf].
  rewrite (proj2 (Z.ltb_ge _ _) Hfd). destruct (pr_takes _ _ n rest s1 (takes_int n Hn) Hr1) as (s2 & -> & _). cbn [obind].
  destruct (_ <? n); [done|]. cbn [exit_if obind]. by rewrite (proj2 (Z.leb_gt _ _) Hbad).
Qed.

Lemma simple_sent t c (p p' : P) : idle p -> is_byte t -> send_msg_channel_simple t c p = Ok p' -> talked p [t :: store32h (remotechan c)] p'.
Proof. intros Hi Ht H. pose proof (send_simple_ok t c p Hi Ht) as T. by rewrite H in T. Qed.

(** A channel without descriptors yet, whose type lets it close without a word. *)
Record unopened (c : Channel) : Prop := {
  cg_readfd : readfd c = FD_UNINIT;
  cg_writefd : writefd c = FD_UNINIT;
  cg_errfd : errfd c = FD_CLOSED;
  cg_bidir : bidir_fd c = false;
  cg_flushing : flushing c = false;
  cg_recv_close : recv_close c = false;
  cg_sent_eof : sent_eof c = false;
  cg_sent_close : sent_close c = false;
  cg_check : match ct_check_close (P := P) (W := W) (type c) with Some f => f (with_recv_eof true c) = Ok (with_recv_eof true c, true) | None => True end;
  cg_handler (d : Channel) (p : P) : ctypedata d = ctypedata c ->
    match ct_closehandler (P := P) (W := W) (type c) with Some h => h d p | None => Ok p end = Ok p;
}.

(** One waiting for connection [k], as the code that opens it leaves it. *)
Definition connecting (k : nat) (c : Channel) : Prop := conn_pending c = Some k /\ unopened c.

Definition closed_early (c : Channel) : Channel :=
  with_sent_close true (with_sent_eof true (with_writefd FD_CLOSED (with_readfd FD_CLOSED (with_recv_eof true c)))).

(** Closing descriptors that are not open only marks them closed. *)
Lemma close_uninit c (w : W) : bidir_fd c = false -> extrabuf c = None -> readfd c = FD_UNINIT -> writefd c = FD_UNINIT -> errfd c = FD_CLOSED ->
  close_chan_fd (writefd c) SHUT_WR c w = (with_writefd FD_CLOSED (with_readfd FD_CLOSED c), w).
Proof. destruct c. cbn. intros. by subst. Qed.

Lemma close_closed how c (w : W) : bidir_fd c = false -> extrabuf c = None -> readfd c = FD_CLOSED -> writefd c = FD_CLOSED -> errfd c = FD_CLOSED ->
  close_chan_fd FD_CLOSED how c w = (c, w).
Proof. destruct c. cbn. intros. by subst. Qed.

(** What [check_close] does then. *)
Lemma check_close_steps i c (s : chses) : unopened c -> extrabuf c = None -> channels s !! i = Some (Some (with_recv_eof true c)) ->
  check_close i s =
  (let shut := with_writefd FD_CLOSED (with_readfd FD_CLOSED (with_recv_eof true c)) in
   let* p1 := send_msg_channel_simple SSH_MSG_CHANNEL_EOF shut (ses s) in
   let* p2 := send_msg_channel_simple SSH_MSG_CHANNEL_CLOSE (with_sent_eof true shut) p1 in
   Ok (put_chan i (closed_early c) (with_world (world s) (with_ses p2 s)))).
Proof.
  intros Hcg Hx Hc. pose proof Hcg as []. unfold check_close. rewrite (chan_at _ _ _ Hc). cbn [obind].
  change (type (with_recv_eof true c)) with (type c).
  change (sent_close (with_recv_eof true c)) with (sent_close c). rewrite cg_sent_close0.
  match goal with |- context [obind ?m _] => assert (m = Ok (with_recv_eof true c, true)) as -> by by destruct (ct_check_close (type c)) end.
  cbn [obind]. unfold flush_fds. change (flushing (with_recv_eof true c)) with (flushing c).
  rewrite cg_flushing0. change (recv_close (with_recv_eof true c)) with (recv_close c). rewrite cg_recv_close0. cbn [andb].
  assert (write_pending (with_recv_eof true c) = false) as ->.
  { unfold write_pending. cbn [writefd extrabuf with_recv_eof]. by rewrite cg_writefd0, Hx. }
  change (recv_eof (with_recv_eof true c)) with true. change (sent_close (with_recv_eof true c)) with (sent_close c). cbn [negb andb orb].
  rewrite (close_uninit (with_recv_eof true c) (world s)) by done. set (shut := with_writefd FD_CLOSED _).
  assert (out_closed shut = true) as -> by (unfold out_closed, ERRFD_IS_WRITE, ERRFD_IS_READ; cbn; by rewrite Hx, cg_errfd0).
  change (sent_eof shut) with (sent_eof c). rewrite cg_sent_eof0. cbn [negb andb]. unfold send_msg_channel_eof.
  destruct (send_msg_channel_simple SSH_MSG_CHANNEL_EOF shut (ses s)) as [p1|m|]; cbn [obind]; [|done..].
  assert (write_pending (with_sent_eof true shut) = false) as -> by (unfold write_pending; cbn; by rewrite Hx).
  change (sent_close (with_sent_eof true shut)) with (sent_close c). rewrite cg_sent_close0. change (ERRFD_IS_WRITE (with_sent_eof true shut)) with (ERRFD_IS_WRITE c).
  change (errfd (with_sent_eof true shut)) with (errfd c). rewrite cg_errfd0, orb_true_r. cbn [negb andb readfd writefd with_sent_eof shut with_writefd with_readfd with_recv_eof].
  change (FD_CLOSED =? FD_CLOSED) with true. cbn [andb]. fold shut. unfold send_msg_channel_close. change (type (with_sent_eof true shut)) with (type c).
  rewrite cg_handler0 by done. cbn [obind]. destruct (send_msg_channel_simple SSH_MSG_CHANNEL_CLOSE _ p1) as [p2|m|]; cbn [obind]; [|done..].
  set (c1 := with_sent_close true _). change (readfd c1) with FD_CLOSED. rewrite (close_closed SHUT_RD c1) by done.
  change (errfd c1) with (errfd c). rewrite cg_errfd0. rewrite (close_closed SHUT_RDWR c1) by done. change (writefd c1) with FD_CLOSED.
  rewrite (close_closed SHUT_WR c1) by done. cbn [obind]. done.
Qed.

Lemma check_close_unopened i c (s s' : chses) : st_ok s -> unopened c -> channels s !! i = Some (Some (with_recv_eof true c)) ->
  check_close i s = Ok s' ->
  exists p', talked (ses s) [eof_msg c; close_msg c] p' /\ s' = put_chan i (closed_early c) (with_world (world s) (with_ses p' s)).
Proof.
  intros Hok Hcg Hc. rewrite (check_close_steps i c s Hcg (co_extrabuf _ _ _ (so_chans _ _ Hok _ _ Hc)) Hc). intros H.
  apply obind_Ok in H as (p1 & H1 & H). apply obind_Ok in H as (p2 & H2 & H). injection H as <-.
  apply simple_sent in H1 as T1; [|apply Hok|done]. apply simple_sent in H2 as T2; [|by destruct T1|done].
  exists p2. split; [|done]. exact (talked_trans _ _ _ _ _ T1 T2).
Qed.

Definition confirmation_of (c : Channel) : bytes :=
  SSH_MSG_CHANNEL_OPEN_CONFIRMATION :: store32h (remotechan c) ++ store32h (Z.of_nat (index c)) ++ store32h (recvwindow c) ++ store32h (recvmaxpacket c).

(** C23: An EOF for a channel still connecting breaks it. When the peer ends its side of a
    channel whose connection is in progress, EOF and CLOSE are sent before the channel has been
    confirmed; when the connection is then made, the channel is confirmed after its CLOSE and
    gets its socket; and the first time the socket can be read, an assertion fails and the
    session ends. *)
Theorem eof_before_connection (s s1 s2 : chses) i c k sock rest :
  st_ok s -> channels s !! i = Some (Some c) -> connecting k c -> 0 <= sock ->
  reading (store32h (Z.of_nat i) ++ rest) s ->
  recv_msg_channel_eof s = Ok s1 -> connect_finished k (inl sock) s1 = Ok s2 ->
  sent (ses s2) = sent (ses s) ++ [eof_msg c; close_msg c; confirmation_of c] /\
  forall readfds writefds sig, readfds sock = true -> channel_io_one rw readfds writefds sig i s2 = Exit assert_msg.
Proof.
  intros Hok Hc Hcg Hsock Hr H1 H2. pose proof (so_size _ _ Hok) as Hsz. apply lookup_lt_Some in Hc as Hlt. unfold recv_msg_channel_eof in H1.
  destruct (getchannel_takes (Some "EOF"%string) i c rest s Hc) as (s0 & Hg & _ & Hf); [unfold MAX_CHANNELS, CHAN_EXTEND_SIZE in *; lia|done|].
  rewrite Hg in H1. cbn [obind] in H1. destruct (read_from_same _ _ Hf) as (Hch & Hsent & _ & Hconns & _). assert (Hc0 : channels s0 !! i = Some (Some c)) by congruence.
  rewrite (chan_at _ _ _ Hc0) in H1. cbn [obind] in H1. pose proof (read_from_st _ _ _ Hok Hf) as Hok0. pose proof (so_chans _ _ Hok _ _ Hc) as Hck.
  apply (check_close_unopened i c) in H1 as (p1 & T1 & ->); [|eapply st_put_chan; [done|done|destruct Hck; by split|done|by split]|apply Hcg|cbn; rewrite list_lookup_insert_eq by congruence; done].
  assert (Hk : conns s !! k = Some (ChannelConnectDone i)) by (apply (so_conns _ _ Hok); exists c; split; [done|apply Hcg]).
  unfold connect_finished in H2. cbn in H2. rewrite Hconns, Hk in H2. apply obind_Ok in H2 as (s3 & H3 & H2). injection H2 as <-.
  unfold channel_connect_done in H3. erewrite chan_at in H3; [|cbn; rewrite list_lookup_insert_eq by (rewrite length_insert; congruence); done].
  cbn [obind] in H3. unfold on_ses in H3. apply obind_Ok in H3 as (p2 & H3 & H4). injection H4 as <-. cbn in H3.
  match type of H3 with send_msg_channel_open_confirmation ?d ?x ?y ?p = _ => pose proof (send_confirmation_ok d x y p (proj1 T1)) as T2; set (c2 := d) in * end.
  rewrite H3 in T2. split.
  - destruct T1 as (_ & _ & T1), T2 as (_ & _ & T2). cbn in T1, T2 |- *. rewrite T2, T1, Hsent, <- app_assoc. done.
  - intros rd wr sig Hrd. unfold channel_io_one. cbn. rewrite list_lookup_insert_eq by (rewrite !length_insert; congruence).
    change (readfd c2) with sock. rewrite (proj2 (Z.leb_le _ _) Hsock), Hrd. done.
Qed.
End errors.
