(* ===== verification/ChannelPacket.v ===== *)
(** * The packet layer as the session of the channels

    Packet.v discharges the contract [SessionLaws]: the session is the state of the packet
    layer with the list of the payloads given to [encrypt_packet].  Its assertions do not
    fail, provided zlib takes all its input when there is room, as it documents. *)

From S2P Require Import Prelude Bytes Buffer CircBuffer Packet Transport PacketSafety KexSafety Channel ChannelLaws ChannelFlow.
From S2P Require Import ChannelData ChannelClose ChannelSafety.

(** [deflate] with Z_SYNC_FLUSH takes all its input when the output has room for its worst case. *)
Class DeflateAll {CS ZS} (C : Crypto CS ZS) :=
  deflate_all z x room ok rest out z' : deflate z x room = (ok, rest, out, z') -> zlen x + ZLIB_COMPRESS_EXPANSION <= room -> rest = 0.

Section packet.
Context {CS ZS : Type} {C : Crypto CS ZS} {S : CryptoSane C} {D : DeflateAll C} (now : Z).

Abbreviation pktses := (pktses CS ZS).

(** ** No assertion of the sending side fails *)

Lemma noassert_mem_write l o bs : noassert (mem_write l o bs).
Proof. unfold mem_write. by destruct (_ && _). Qed.

Ltac na := repeat first [ apply noassert_mem_write | progress noassert_tac | progress cbn beta ].

Lemma noassert_setpos b n : noassert (buf_setpos b n).
Proof. unfold buf_setpos. na. Qed.
Lemma noassert_setlen b n : noassert (buf_setlen b n).
Proof. unfold buf_setlen. na. Qed.
Lemma noassert_new n : noassert (buf_new n).
Proof. unfold buf_new. na. Qed.

Lemma noassert_compress dest src len z ld sd ls :
  shape dest ld 5 sd -> shape src ls 0 TRANS_MAX_PAYLOAD_LEN -> 0 <= len <= ls -> len + ZLIB_COMPRESS_EXPANSION + 5 <= sd ->
  noassert (buf_compress dest src len z).
Proof.
  intros Hd Hs Hlen Hroom. pose proof (shape_bounds _ _ _ _ Hd). pose proof (shape_bounds _ _ _ _ Hs).
  unfold BUF_MAX_SIZE, TRANS_MAX_PAYLOAD_LEN in *. unfold buf_compress. assert (buf_pos dest = 5) as -> by apply Hd. assert (buf_size dest = sd) as -> by apply Hd.
  assert (buf_pos src = 0) as -> by apply Hs. rewrite (u32_small (0 + len)), (u32_small (sd - 5)), (u32_small (0 + len - 0)) by lia.
  change ZLIB_COMPRESS_EXPANSION with 51 in *. rewrite (u32_small (len + 51)) by lia. rewrite (proj2 (Z.leb_le _ _)) by lia. cbn [oassert obind].
  apply noassert_bind; [apply noassert_read|]. intros input Hin. pose proof (shape_read src ls 0 _ (0 + len - 0) Hs ltac:(lia)) as Hr. rewrite Hin in Hr. destruct Hr as (_ & _ & Hil).
  apply noassert_bind; [unfold buf_getwriteptr; na|]. intros q _. destruct (deflate z input (sd - 5)) as [[[ok rest] out] z'] eqn:E.
  apply deflate_all in E; [|change ZLIB_COMPRESS_EXPANSION with 51; lia]. subst rest.
  apply noassert_bind; [unfold buf_overwrite; na|]. intros d1 _. apply noassert_bind; [apply noassert_setpos|]. intros s1 _.
  apply noassert_bind; [apply noassert_setlen|]. intros d2 _. apply noassert_bind; [apply noassert_setpos|]. intros d3 _.
  apply noassert_bind; [na|]. intros [] _. cbn. done.
Qed.

Lemma noassert_frame k rng wb : noassert (encrypt_frame k rng wb).
Proof. unfold encrypt_frame, buf_overwrite. repeat (apply noassert_bind; [unfold buf_setpos, buf_putint, buf_putbyte, buf_write, buf_getwriteptr, buf_incrwritepos, buf_incrlen, buf_getptr; na|intros]). done. Qed.

Lemma noassert_crypt seqno k wb : noassert (encrypt_crypt seqno k wb).
Proof.
  unfold encrypt_crypt, make_mac, buf_overwrite, buf_putbytes, buf_write, buf_read, buf_setpos, buf_getwriteptr, buf_incrwritepos, buf_incrlen, buf_incrpos, buf_getptr.
  na.
Qed.

Lemma noassert_enqueue (s : pktses) : noassert (enqueue_reply_packet s).
Proof. unfold enqueue_reply_packet, buf_newcopy, buf_new, buf_setpos, buf_setlen. na. Qed.

Lemma noassert_encrypt_packet (s : pktses) : pk_ok s -> noassert (encrypt_packet now s).
Proof.
  intros Hok. pose proof Hok as [[Hblk Hh] Hr Hw Hsz Hq Hrep Hrb Hpl]. pose proof (shape_self _ Hw) as Hs. rewrite Hsz in Hs. unfold encrypt_packet.
  apply noassert_bind; [apply noassert_setpos|]. intros w1 H1. pose proof (opost_Ok _ _ _ (shape_setpos _ _ _ _ 0 Hs ltac:(lia)) H1) as [_ S1].
  apply noassert_bind; [unfold buf_getbyte; na|]. intros [t w2] H2. pose proof (opost_Ok _ _ _ (shape_getbyte _ _ _ _ S1) H2) as (_ & _ & S2).
  apply noassert_bind; [apply noassert_setpos|]. intros w3 H3. pose proof (opost_Ok _ _ _ (shape_setpos _ _ _ _ 0 S2 ltac:(lia)) H3) as [_ S3]. cbn [dataallowed set_writepayload trans].
  destruct (_ && _); [apply noassert_enqueue|]. cbn [transseq datatrans]. set (lp := buf_len (writepayload s)) in *.
  pose proof (shape_bounds _ _ _ _ S3) as Hb. unfold TRANS_MAX_PAYLOAD_LEN, MAX_MAC_LEN in *. assert (buf_len w3 = lp) as -> by apply S3.
  set (size := u32 _). assert (Hsize : lp + ZLIB_COMPRESS_EXPANSION + 5 <= size).
  { unfold size. change ZLIB_COMPRESS_EXPANSION with 51. unfold MIN_PACKET_LEN. rewrite u32_small; lia. }
  assert (0 <= size) by apply u32_range.
  apply noassert_bind; [apply noassert_new|]. intros b0 H4. pose proof (opost_Ok _ _ _ (shape_new size ltac:(done)) H4) as S4.
  apply noassert_bind; [apply noassert_setlen|]. intros b1 H5. pose proof (opost_Ok _ _ _ (shape_setlen _ _ _ _ PACKET_PAYLOAD_OFF S4 ltac:(done)) H5) as [_ S5].
  apply noassert_bind; [apply noassert_setpos|]. intros b2 H6. pose proof (opost_Ok _ _ _ (shape_setpos _ _ _ _ PACKET_PAYLOAD_OFF S5 ltac:(done)) H6) as [_ S6].
  apply noassert_bind.
  { unfold encrypt_body. destruct (is_compress_trans _).
    - apply noassert_bind; [|by intros [[? ?] ?] _]. assert (buf_len w3 = lp) as -> by apply S3.
      apply (noassert_compress b2 w3 lp _ _ _ _ S6 S3); lia.
    - unfold buf_read, buf_write, buf_getptr, buf_getwriteptr, buf_incrwritepos. na. }
  intros [[b3 w4] k] _. apply noassert_bind; [apply noassert_setpos|]. intros w5 _. apply noassert_bind; [apply noassert_setlen|]. intros w6 _.
  apply noassert_bind; [apply noassert_frame|]. intros [b4 n] _. apply noassert_bind; [apply noassert_crypt|]. intros [b5 k5] _.
  apply noassert_bind; [unfold writebuf_enqueue, buf_setpos; na|]. intros s7 _. by destruct (_ && _ && _).
Qed.

(** The payload is empty again afterwards. *)
Lemma encrypt_packet_empty (s s' : pktses) : encrypt_packet now s = Ok s' -> buf_len (writepayload s') = 0 /\ buf_pos (writepayload s') = 0.
Proof.
  assert (Hempty : forall b b1 b2, buf_setpos b 0 = Ok b1 -> buf_setlen b1 0 = Ok b2 -> buf_len b2 = 0 /\ buf_pos b2 = 0).
  { unfold buf_setpos, buf_setlen. intros b b1 b2 H1 H2. destruct (buf_len b <? 0); [done|]. injection H1 as <-. cbn in H2.
    destruct (buf_size b <? 0); [done|]. injection H2 as <-. done. }
  intros H. unfold encrypt_packet in H. apply obind_Ok in H as (b1 & _ & H). apply obind_Ok in H as ([t b2] & _ & H).
  apply obind_Ok in H as (b3 & _ & H). destruct (negb _ && negb _).
  - unfold enqueue_reply_packet in H. apply obind_Ok in H as ([] & _ & H). apply obind_Ok in H as (b4 & _ & H).
    apply obind_Ok in H as (b5 & H5 & H). apply obind_Ok in H as (b6 & H6 & H). injection H as <-. by eapply Hempty.
  - apply obind_Ok in H as (b4 & _ & H). apply obind_Ok in H as (b5 & _ & H). apply obind_Ok in H as (b6 & _ & H).
    apply obind_Ok in H as ([[b7 b8] k] & _ & H). apply obind_Ok in H as (b9 & H9 & H). apply obind_Ok in H as (b10 & H10 & H).
    apply obind_Ok in H as ([b11 n] & _ & H). apply obind_Ok in H as ([b12 k'] & _ & H).
    apply obind_Ok in H as (s1 & H1 & H). unfold writebuf_enqueue in H1. apply obind_Ok in H1 as (b13 & _ & H1). injection H1 as <-.
    injection H as <-. destruct (negb _ && negb _ && negb _); by eapply Hempty.
Qed.

(** ** The instance *)

#[global] Instance packet_session : Session (pktses * list bytes) := {|
  ses_writepayload p := writepayload (fst p);
  ses_set_writepayload b p := (set_writepayload b (fst p), snd p);
  ses_payload p := payload (fst p);
  ses_set_payload b p := (set_payload (Some b) (fst p), snd p);
  ses_dataallowed p := dataallowed (fst p);
  ses_encrypt_packet p := let* s := encrypt_packet now (fst p) in Ok (s, snd p ++ [used (writepayload (fst p))]);
|}.

#[global] Instance packet_session_laws : SessionLaws (pktses * list bytes).
Proof.
  refine {| ses_ok p := pk_ok (fst p); sent := snd |}; try done.
  - intros b [s l] [] Hw Hs. by split.
  - intros b [s l] [] Hw. by split.
  - intros [s l] m q Hok Hv Hm. cbn in *. apply safe_bind with (P := fun s' => pk_ok s' /\ encrypt_packet now s = Ok s').
    + pose proof (noassert_encrypt_packet s Hok). pose proof (encrypt_packet_safe now s Hok) as Hsafe. unfold noassert in *.
      destruct (encrypt_packet now s); cbn in *; [done|congruence|done].
    + intros s' _ [Hok' He]. cbn. pose proof (encrypt_packet_same _ _ _ He) as []. destruct (encrypt_packet_empty _ _ He) as [Hl0 Hp0].
      split_and!; try done; [|by destruct Hv as [_ -> _ _]]. destruct Hok'. split; try done. unfold used. rewrite Hl0. apply sub_0.
Defined.

(** ** Channels over the packet layer *)

Context {W : Type} {SW : Sys W} {LW : SysLaws W} {CT : @ChanTypes (pktses * list bytes) W}.

(** C22: Channels and packet layer together are safe. With the packet layer as the session, any
    sequence of channel events in which no connection is completed for a channel that EOF or CLOSE
    has been sent on, and no request comes for a session without a process that EOF has been sent
    on, makes neither the channel code nor the packet layer below it follow a dangling pointer or
    leave a buffer; the invariants of both hold afterwards, and the write payload is left empty
    between messages. When, moreover, every data message is within the window of its channel or
    too big for its buffer, no assertion fails. *)
Theorem channels_over_packets rw handle_listeners (es : list (@chan_event)) (p : pktses) (w : W) prio so :
  0 < rw <= MAX_RECV_WINDOW -> type_laws rw -> (forall rd s, st_ok rw s -> safe (st_ok rw) (handle_listeners rd s)) ->
  pk_ok p -> buf_len (writepayload p) = 0 -> events_timely rw handle_listeners es (chaninitialise (p, []) w prio so) ->
  let run := run_events rw handle_listeners es (chaninitialise (p, []) w prio so) in
  let both_ok := fun s' => st_ok rw s' /\ pk_ok (fst (ses s')) /\ buf_len (writepayload (fst (ses s'))) = 0 in
  opost both_ok run /\ (events_ok rw handle_listeners es (chaninitialise (p, []) w prio so) -> safe both_ok run).
Proof.
  intros Hrw TL Hl Hok Hlen Hes run both_ok. assert (Hboth : forall s', st_ok rw s' -> both_ok s').
  { intros s' Hs'. split; [done|]. destruct (so_idle _ _ Hs') as [Hp Hb]. split; [exact Hp|]. by apply view_len in Hb. }
  assert (Hstart : st_ok rw (chaninitialise (p, []) w prio so)).
  { pose proof Hok as [_ _ Hw Hsz _ _ _ Hpl]. apply chaninitialise_ok; [|exact Hpl]. split; [done|]. cbn.
    split; [done|unfold used; rewrite Hlen; apply sub_0|bwf; lia|done]. }
  pose proof (run_events_any rw Hrw TL handle_listeners es _ Hl Hstart Hes) as H1. split; [exact (opost_mono _ _ _ H1 (fun s _ => Hboth s))|]. intros Hes'.
  pose proof (run_events_ok rw Hrw TL handle_listeners es _ Hl Hstart Hes') as H2. exact (safe_mono _ _ _ H2 Hboth).
Qed.
End packet.

#[export] Instance toy_deflate_all : DeflateAll Toy.toy.
Proof.
  intros z x room ok rest out z' E Hr. cbn in E. unfold ZLIB_COMPRESS_EXPANSION, RECV_MAX_PAYLOAD_LEN in Hr.
  rewrite (proj2 (Z.leb_le _ _)) in E by lia. by injection E.
Qed.
