(* ===== verification/ChannelToy.v ===== *)
(** * The channels at work on a concrete session

    A session that records the messages, a kernel with files that are lists of bytes, and two
    channel types: one that opens at once and one that waits for a connection.  The theorems
    on channels are applied to them, and two runs show what their hypotheses exclude. *)

From S2P Require Import Prelude Bytes Buffer CircBuffer Packet Transport PacketQueues PacketSafety SessionData Channel ChannelLaws ChannelFlow.
From S2P Require Import ChannelData ChannelClose ChannelSafety ChannelMessages ChannelErrors ChannelPacket.

Module ToyChan.

(** ** The session *)

Record tses := mktses { t_wp : buffer; t_pl : option buffer; t_log : list bytes }.

#[global] Instance toy_session : Session tses := {|
  ses_writepayload := t_wp;
  ses_set_writepayload b p := mktses b (t_pl p) (t_log p);
  ses_payload := t_pl;
  ses_set_payload b p := mktses (t_wp p) (Some b) (t_log p);
  ses_dataallowed _ := true;
  ses_encrypt_packet p := Ok (mktses (mkbuf (buf_data (t_wp p)) 0 0 (buf_size (t_wp p))) (t_pl p) (t_log p ++ [used (t_wp p)]));
|}.

#[global] Instance toy_session_laws : SessionLaws tses.
Proof.
  refine {| ses_ok _ := True; sent := t_log |}; try done.
  intros p m q _ Hv _. cbn. destruct Hv as [Hw Hu Hp Hs]. cbn in *. split_and!; try done; [|by rewrite Hu].
  split; cbn; [|by unfold used; rewrite sub_0|done|done]. bwf. split; cbn; unfold BUF_MAX_SIZE; try done; lia.
Defined.

Definition zeros (n : Z) : buffer := mkbuf (replicate (Z.to_nat n) 0) 0 0 n.

Lemma zeros_view n : 0 <= n <= BUF_MAX_SIZE -> view (zeros n) [] 0 n.
Proof.
  intros Hn. split; [|by unfold used, zeros; cbn [buf_len buf_data]; rewrite sub_0|done|done].
  split; cbn [buf_data buf_pos buf_len buf_size zeros]; [by apply Forall_replicate|apply zlen_replicate; lia|lia|lia|lia].
Qed.

Definition toy_blank : buffer := zeros TRANS_MAX_PAYLOAD_LEN.
Definition toy_start : tses := mktses toy_blank None [].

(** ** The kernel *)

(** What can still be read, what has been written, and how much a write takes at most. *)
Record tworld := mktworld { w_in : list (Z * bytes); w_out : list (Z * bytes); w_cap : Z }.

Definition file_out (fd : Z) (w : tworld) : bytes := concat (map snd (filter (fun x => fst x = fd) (w_out w))).

#[global] Instance toy_sys : Sys tworld := {|
  sys_read fd n w :=
    match w_in w with
    | (fd', bs) :: l =>
        if (fd =? fd') && forallb (fun b => (0 <=? b) && (b <? 256)) bs && (zlen bs <=? n) then (FdData bs, mktworld l (w_out w) (w_cap w)) else (FdEintr, w)
    | [] => (FdData [], w)
    end;
  sys_writev fd bs w :=
    if w_cap w <? 0 then (WriteError, w)
    else let n := Z.min (zlen bs) (w_cap w) in (Written n, mktworld (w_in w) (w_out w ++ [(fd, take (Z.to_nat n) bs)]) (w_cap w));
  sys_close _ w := w;
  sys_shutdown _ _ w := w;
  sys_read_pending _ _ := false;
  sys_set_sock_priority _ w := w;
|}.

#[global] Instance toy_sys_laws : SysLaws tworld.
Proof.
  refine {| fd_out := file_out |}.
  - intros fd n w bs w' Hn H. cbn in H. destruct (w_in w) as [|[fd' b] l]; [injection H as <- <-; split; [done|constructor]|].
    destruct (_ && _) eqn:E; [|done]. injection H as <- <-. apply andb_prop in E as [[_ E]%andb_prop Hl]. split; [by apply Z.leb_le|by apply bytes_check].
  - intros fd bs w n w' H. cbn in H. destruct (Z.ltb_spec (w_cap w) 0); [done|]. injection H as <- <-. pose proof (zlen_nonneg bs). split; [lia|].
    unfold file_out. cbn. rewrite filter_app, map_app, concat_app. rewrite filter_cons_True by done. cbn. by rewrite app_nil_r.
  - intros fd bs w r w' H Hr. cbn in H. destruct (w_cap w <? 0); [by injection H as <- <-|]. injection H as <- <-. by destruct (Hr (Z.min (zlen bs) (w_cap w))).
Defined.

(** ** The channel types *)

Definition session_type : Z := 1.
Definition direct_type : Z := 2.

(** The second type waits for a connection, numbered as the channel. *)
Definition wait_connection (i : nat) (s : @chses tses tworld) : outcome (Z * @chses tses tworld) :=
  match channels s !! i, conns s !! i with
  | Some (Some c), None =>
      Ok (SSH_OPEN_IN_PROGRESS, with_conns (<[i := ChannelConnectDone i]> (conns s)) (put_chan i (with_conn_pending (Some i) c) s))
  | _, _ => Ok (SSH_OPEN_CONNECT_FAILED, s)
  end.

(** Whatever makes sessions must give their processes up. *)
Definition toy_cleanup (ty : Z) : option (Channel -> list ChildPid -> outcome (list ChildPid)) :=
  if ty =? svrchansess then Some (fun c l => Ok (forget_child (index c) l)) else None.

#[global] Instance toy_types : @ChanTypes tses tworld := {|
  ct_names := [(session_type, str "session"); (direct_type, str "direct-tcpip")];
  ct_name ty := if ty =? session_type then str "session" else str "direct-tcpip";
  ct_inithandler ty := if ty =? direct_type then Some wait_connection else None;
  ct_check_close _ := None;
  ct_reqhandler _ := None;
  ct_closehandler _ := None;
  ct_cleanup := toy_cleanup;
|}.

Definition toy_rw : Z := 20.

Lemma toy_cleanup_ok (c : Channel) (l : list ChildPid) : typed c -> (forall e, e ∈ l -> child_chansess e = Some (index c) -> 0 < child_pid e) ->
  match toy_cleanup (type c) with Some f => f c l | None => Ok l end = Ok (if type c =? svrchansess then forget_child (index c) l else l).
Proof. intros _ _. unfold toy_cleanup. by destruct (type c =? svrchansess). Qed.

Lemma toy_laws : type_laws (P := tses) (W := tworld) toy_rw.
Proof.
  split.
  - split; [by intros c h p [=]|by intros c f [=]|apply toy_cleanup_ok].
  - intros ty h i c s H Hok Hpl Hc Hty _ Hcp He Haw. cbn in H. destruct (Z.eqb_spec ty direct_type) as [->|]; [|done]. injection H as <-.
    assert (Hns : type c <> svrchansess) by by rewrite Hty. apply (st_made toy_rw i c) in Hok; [|done|by apply typed_other].
    unfold wait_connection. rewrite Hc. destruct (conns s !! i) eqn:Hk; [cbn; split_and!; try done; by exists c|].
    cbn. split_and!; [|exists (with_conn_pending (Some i) c); cbn; apply list_lookup_insert_eq; by eapply lookup_lt_Some|done].
    split; [by apply st_connect|done].
  - intros ty nm Hin _. cbn in Hin. apply elem_of_cons in Hin as [[= -> _]|[= -> _]%list_elem_of_singleton]; done.
  - intros i h c s _ [=].
  - intros ty. cbn. destruct (ty =? session_type); (split; [by apply bytes_check|done]).
Qed.

(** ** Checking the hypotheses of a run by evaluation *)

Abbreviation tchses := (@chses tses tworld).

Section checks.
Context {P W : Type} {SP : Session P} {SW : Sys W} {CT : ChanTypes (P := P) (W := W)}.

Definition data_okb (s : chses (P := P) (W := W)) : bool :=
  match getchannel s with
  | Ok (i, s1) =>
      match channels s1 !! i, pr buf_getint s1 with
      | Some (Some c), Ok (n, _) => (n <=? recvwindow c) || (cbuf_getavail (writebuf c) <? n)
      | _, _ => true
      end
  | _ => true
  end.

Lemma data_okb_ok s : data_okb s = true -> data_ok s.
Proof.
  unfold data_okb. intros H i s1 c n s2 Hg Hc _ _ Hp. rewrite Hg, Hc, Hp in H. apply orb_prop in H as [H|H]; blia; auto.
Qed.

(** Requests for sessions come before their EOF or after their command. *)
Definition request_okb (s : chses (P := P) (W := W)) : bool :=
  match getchannel s with
  | Ok (i, s1) => match channels s1 !! i with Some (Some c) =>
      negb (type c =? svrchansess) || negb (sent_eof c) || match ctypedata c with Some cs => negb (pid cs =? 0) | None => true end
      | _ => true end
  | _ => true
  end.

Lemma request_okb_ok s : request_okb s = true -> request_ok s.
Proof.
  unfold request_okb. intros H i s1 c Hg Hc Hty cs Hd Hp. rewrite Hg, Hc, Hty, Hd, Hp in H. by destruct (sent_eof c).
Qed.
End checks.

Definition connect_okb (k : nat) (r : Z + bytes) (s : tchses) : bool :=
  match r with
  | inl sock => (0 <=? sock) && match conns s !! k with
      | Some (ChannelConnectDone i) => match channels s !! i with Some (Some c) => negb (sent_eof c) && negb (sent_close c) | _ => true end
      | _ => true end
  | inr text => forallb (fun b => (0 <=? b) && (b <? 256)) text && (zlen text <=? 4096)
  end.

Lemma connect_okb_ok k r s : connect_okb k r s = true -> connect_ok k r s.
Proof.
  destruct r as [sock|text]; cbn; intros H; apply andb_prop in H as [H1 H2].
  - split; [by apply Z.leb_le|]. intros i c Hk Hc. rewrite Hk, Hc in H2. apply andb_prop in H2 as [? ?]. by destruct (sent_eof c), (sent_close c).
  - split; [by apply bytes_check|by apply Z.leb_le].
Qed.

Definition payload_of (bs : bytes) : buffer := mkbuf bs (zlen bs) 0 (zlen bs).

Definition is_payload (b : buffer) : bool :=
  forallb (fun b => (0 <=? b) && (b <? 256)) (buf_data b) && (buf_pos b =? 0) && (buf_len b =? zlen (buf_data b)) &&
  (buf_size b =? zlen (buf_data b)) && (buf_size b <=? BUF_MAX_SIZE).

Lemma is_payload_wf b : is_payload b = true -> wf b.
Proof.
  intros H. repeat (apply andb_prop in H as [H ?]). blia. pose proof (zlen_nonneg (buf_data b)).
  split; try lia. by apply bytes_check.
Qed.

Definition event_okb (e : @chan_event) (s : tchses) : bool :=
  match e with
  | EvMsg m pl => is_payload pl && match m with MsgData => data_okb (with_payload pl s) | MsgRequest => request_okb (with_payload pl s) | _ => true end
  | EvIO _ _ _ => true
  | EvConnect k r => connect_okb k r s
  | EvForward _ ty extra => negb (ty =? svrchansess) && forallb (fun b => (0 <=? b) && (b <? 256)) extra && (zlen extra <=? 4096)
  end.

Definition no_listeners (rd : Z -> bool) (s : tchses) : outcome tchses := Ok s.

Fixpoint events_okb (es : list chan_event) (s : tchses) : bool :=
  match es with
  | [] => true
  | e :: es => event_okb e s && match run_event toy_rw no_listeners e s with Ok s' => events_okb es s' | _ => true end
  end.

Lemma event_okb_ok e s : event_okb e s = true -> event_ok e s.
Proof.
  destruct e as [m pl| |k r|fd ty extra]; cbn; [|done|intros H; split; [by apply connect_okb_ok|done]|].
  - intros [H1 H2]%andb_prop. split; [split; [by apply is_payload_wf|intros ->; by apply request_okb_ok]|destruct m; try done; by apply data_okb_ok].
  - intros [[H0 H1]%andb_prop H2]%andb_prop. split; [|done]. split; [by intros ->|]. split; [by apply bytes_check|by apply Z.leb_le].
Qed.

Lemma events_okb_ok es : forall s, events_okb es s = true -> events_ok toy_rw no_listeners es s.
Proof.
  induction es as [|e es IH]; intros s H; [done|]. cbn [events_okb events_ok] in *. apply andb_prop in H as [H1 H2].
  split; [by apply event_okb_ok|]. intros s' Hs'. rewrite Hs' in H2. by apply IH.
Qed.

Lemma toy_start_idle : idle toy_start.
Proof.
  split; [exact I|]. apply zeros_view. unfold BUF_MAX_SIZE, TRANS_MAX_PAYLOAD_LEN. lia.
Qed.

Definition str_field (s : bytes) : bytes := store32h (zlen s) ++ s.

(** A connection and a session are opened, data arrives and is written in part, the program
    answers, the connection is made, the peer closes. *)
Definition toy_events : list chan_event :=
  [EvMsg MsgOpen (payload_of (str_field (str "direct-tcpip") ++ store32h 7 ++ store32h 100 ++ store32h 50));
   EvMsg MsgOpen (payload_of (str_field (str "session") ++ store32h 8 ++ store32h 100 ++ store32h 50));
   EvConnect 0 (inl 5);
   EvMsg MsgData (payload_of (store32h 0 ++ str_field [1; 2; 3; 4; 5; 6; 7; 8]));
   EvIO (fun fd => fd =? 5) (fun fd => fd =? 5) false;
   EvForward 6 session_type [];
   EvMsg MsgClose (payload_of (store32h 0))].

Definition toy_world : tworld := mktworld [(5, [40; 41; 42])] [] 5.

Definition toy_init : tchses := chaninitialise toy_start toy_world DROPBEAR_PRIO_NORMAL 3.

Lemma toy_events_ok : events_ok toy_rw no_listeners toy_events toy_init.
Proof. apply events_okb_ok. vm_compute. reflexivity. Qed.

Lemma channels_safe_witness :
  opost (st_ok toy_rw) (run_events toy_rw no_listeners toy_events toy_init) /\
  safe (st_ok toy_rw) (run_events toy_rw no_listeners toy_events toy_init).
Proof.
  destruct (channels_safe toy_rw ltac:(unfold toy_rw, MAX_RECV_WINDOW; lia) toy_laws no_listeners toy_events toy_start toy_world DROPBEAR_PRIO_NORMAL 3) as [H1 H2].
  - intros rd s Hs. exact Hs.
  - exact toy_start_idle.
  - exact I.
  - apply events_in_time. exact toy_events_ok.
  - split; [exact H1|]. apply H2. exact toy_events_ok.
Defined.

(** The run is a complete one: the messages sent, the bytes the program got, the windows. *)
Example toy_run :
  match run_events toy_rw no_listeners toy_events toy_init with
  | Ok s => Some (t_log (ses s), w_out (world s), map (option_map (fun c => (recvwindow c, transwindow c))) (channels s))
  | _ => None
  end =
  Some ([[91; 0; 0; 0; 8; 0; 0; 0; 1; 0; 0; 0; 20; 0; 1; 255; 247];
         [91; 0; 0; 0; 7; 0; 0; 0; 0; 0; 0; 0; 20; 0; 1; 255; 247];
         [94; 0; 0; 0; 7; 0; 0; 0; 3; 40; 41; 42];
         [93; 0; 0; 0; 7; 0; 0; 0; 8];
         [90; 0; 0; 0; 7; 115; 101; 115; 115; 105; 111; 110; 0; 0; 0; 2; 0; 0; 0; 20; 0; 1; 255; 247];
         [97; 0; 0; 0; 7]],
        [(5, [1; 2; 3; 4; 5]); (5, [6; 7; 8])],
        [None; Some (20, 100); Some (20, 0); None]).
Proof. vm_compute. reflexivity. Qed.

(** ** What the hypotheses on events exclude *)

Definition open_direct : chan_event :=
  EvMsg MsgOpen (payload_of (str_field (str "direct-tcpip") ++ store32h 7 ++ store32h 100 ++ store32h 50)).

(** An EOF for a channel whose connection is still in progress closes it; when the connection
    is then made the channel is confirmed after its CLOSE, and the first data on the socket
    fails the assertion in [send_msg_channel_data], ending the whole session. *)
Example eof_while_connecting :
  run_events toy_rw no_listeners
    [open_direct; EvMsg MsgEof (payload_of (store32h 0)); EvConnect 0 (inl 5); EvIO (fun fd => fd =? 5) (fun _ => false) false] toy_init
  = Exit assert_msg.
Proof. vm_compute. reflexivity. Qed.

(** The order of the messages before that: EOF and CLOSE, then the confirmation. *)
Example confirmation_after_close :
  match run_events toy_rw no_listeners [open_direct; EvMsg MsgEof (payload_of (store32h 0)); EvConnect 0 (inl 5)] toy_init with
  | Ok s => map (take 1) (t_log (ses s)) = [[SSH_MSG_CHANNEL_EOF]; [SSH_MSG_CHANNEL_CLOSE]; [SSH_MSG_CHANNEL_OPEN_CONFIRMATION]]
  | _ => False
  end.
Proof. vm_compute. reflexivity. Qed.

(** Data beyond the window that still fits the buffer, because bytes taken by the program have
    not been announced yet, is not refused as oversized but fails an assertion. *)
Example data_beyond_window :
  run_events toy_rw no_listeners
    [open_direct; EvConnect 0 (inl 5); EvMsg MsgData (payload_of (store32h 0 ++ str_field [1; 2; 3; 4; 5]));
     EvMsg MsgData (payload_of (store32h 0 ++ str_field (replicate 17 9)))] toy_init
  = Exit assert_msg.
Proof. vm_compute. reflexivity. Qed.

(** ** The other theorems at a concrete channel *)

Definition toy_chan : Channel :=
  mkchannel 0 7 12 30 4 RECV_MAX_CHANNEL_DATA_LEN 50 5 5 FD_CLOSED true (mkcbuf 20 2 5 3 (Some (replicate 20 1))) None
    false false false false false None false session_type DROPBEAR_PRIO_NORMAL None.

Lemma toy_chan_ok : chan_ok toy_rw 0 toy_chan.
Proof. split; cbn; try done. Qed.

(** A table without sessions. *)
Lemma procs_plain l e : (forall i c, l !! i = Some (Some c) -> type c <> svrchansess) -> exit_ok e -> procs_ok None l [] e.
Proof.
  intros Hl He. split; [|by intros p ?%elem_of_nil| |done].
  - intros i c Hc _. by eapply typed_other, Hl.
  - intros i c cs Hc Hty. by destruct (Hl i c Hc).
Qed.

Definition toy_state (pl : bytes) : tchses :=
  mkchses (mktses toy_blank (Some (payload_of pl)) []) toy_world [Some toy_chan; None] 1 DROPBEAR_PRIO_NORMAL 3 ∅ [] (mkexit (-1) 0 0 0).

Lemma toy_state_ok pl : forallb (fun b => (0 <=? b) && (b <? 256)) pl = true -> zlen pl <= BUF_MAX_SIZE -> st_ok toy_rw (toy_state pl).
Proof.
  intros Hpl Hl. split; try done.
  - exact toy_start_idle.
  - cbn. pose proof (zlen_nonneg pl). split; cbn; try lia. by apply bytes_check.
  - intros [|[|i]] c Hc; try done. injection Hc as <-. exact toy_chan_ok.
  - intros k i. split; [done|]. intros (c & Hc & Hk). destruct i as [|[|i]]; [injection Hc as <-|done..]. done.
  - by apply procs_plain; [intros [|[|i]] c Hc; [injection Hc as <-|..]|].
Qed.

Lemma toy_rw_ok : 0 < toy_rw <= MAX_RECV_WINDOW.
Proof. unfold toy_rw, MAX_RECV_WINDOW. lia. Qed.



Lemma toy_reading pl : is_payload (payload_of pl) = true -> reading pl (toy_state pl).
Proof.
  intros H. exists (payload_of pl). split; [done|]. split; [by apply is_payload_wf|]. unfold unread. cbn.
  rewrite Z.sub_0_r. apply sub_all.
Qed.

Lemma window_adjust_saturates_witness :
  let s := toy_state (store32h 0 ++ store32h 4294967290) in
  exists s', recv_msg_channel_window_adjust s = Ok s' /\
    channels s' = <[0%nat := Some (with_transwindow (Z.min (transwindow toy_chan + 4294967290) 4294967295) toy_chan)]> (channels s) /\
    sent (ses s') = sent (ses s) /\ world s' = world s.
Proof.
  apply (window_adjust_saturates toy_rw (toy_state (store32h 0 ++ store32h 4294967290)) 0 toy_chan 4294967290 []).
  - apply toy_state_ok; vm_compute; [reflexivity|discriminate].
  - reflexivity.
  - unfold is_u32. lia.
  - apply toy_reading. vm_compute. reflexivity.
Defined.

(** ** The errors *)

Lemma data_refused_witness :
  recv_msg_channel_data toy_rw (toy_state (store32h 0 ++ store32h 13)) = Exit assert_msg.
Proof.
  apply (data_refused toy_rw (toy_state (store32h 0 ++ store32h 13)) 0 toy_chan 13 []).
  - apply toy_state_ok; vm_compute; [reflexivity|discriminate].
  - reflexivity.
  - cbn. lia.
  - unfold is_u32. lia.
  - apply toy_reading. vm_compute. reflexivity.
  - right. cbn. lia.
Defined.

Definition waiting_chan : Channel :=
  mkchannel 0 7 20 100 0 RECV_MAX_CHANNEL_DATA_LEN 50 FD_UNINIT FD_UNINIT FD_CLOSED false (mkcbuf 20 0 0 0 None) None
    false false false false false (Some 0%nat) false direct_type DROPBEAR_PRIO_NORMAL None.

Definition waiting_state : tchses :=
  mkchses (mktses toy_blank (Some (payload_of (store32h 0))) []) toy_world [Some waiting_chan] 1 DROPBEAR_PRIO_NORMAL 3 {[0%nat := ChannelConnectDone 0]} [] (mkexit (-1) 0 0 0).

Lemma waiting_state_ok : st_ok toy_rw waiting_state.
Proof.
  split; try done.
  - exact toy_start_idle.
  - apply is_payload_wf. vm_compute. reflexivity.
  - intros [|i] c Hc; [|done]. injection Hc as <-. split; cbn; try done.
  - intros k i. cbn. rewrite lookup_singleton_Some. split.
    + intros [<- [= <-]]. by exists waiting_chan.
    + intros (c & Hc & Hk). destruct i; [|done]. injection Hc as <-. by injection Hk as <-.
  - by apply procs_plain; [intros [|i] c Hc; [injection Hc as <-|]|].
Qed.

Lemma eof_before_connection_witness :
  match recv_msg_channel_eof waiting_state with
  | Ok s1 => match connect_finished 0 (inl 5) s1 with
             | Ok s2 => sent (ses s2) = [eof_msg waiting_chan; close_msg waiting_chan; confirmation_of waiting_chan] /\
                 forall rd wr sig, rd 5 = true -> channel_io_one toy_rw rd wr sig 0 s2 = Exit assert_msg
             | _ => False
             end
  | _ => False
  end.
Proof.
  assert (Hrun : is_ok (let* s1 := recv_msg_channel_eof waiting_state in connect_finished 0 (inl 5) s1) = true) by (vm_compute; reflexivity).
  destruct (recv_msg_channel_eof waiting_state) as [s1| |] eqn:E1; [|discriminate Hrun..]. cbn [obind] in Hrun.
  destruct (connect_finished 0 (inl 5) s1) as [s2| |] eqn:E2; [|discriminate Hrun..].
  change (sent (ses s2) = sent (ses waiting_state) ++ [eof_msg waiting_chan; close_msg waiting_chan; confirmation_of waiting_chan] /\
    forall rd wr sig, rd 5 = true -> channel_io_one toy_rw rd wr sig 0 s2 = Exit assert_msg).
  apply (eof_before_connection toy_rw waiting_state s1 s2 0 waiting_chan 0 5 []).
  - exact waiting_state_ok.
  - reflexivity.
  - split; [reflexivity|split; done].
  - lia.
  - exists (payload_of (store32h 0)). split; [reflexivity|]. split; [apply is_payload_wf; vm_compute; reflexivity|reflexivity].
  - exact E1.
  - exact E2.
Defined.

(** ** Over the packet layer *)

Abbreviation psession := (pktses Z unit * list bytes)%type.

#[local] Instance toy_packets : Session psession := packet_session (C := Toy.toy) 0.
#[local] Instance toy_packets_laws : SessionLaws psession := packet_session_laws (C := Toy.toy) 0.

#[local] Instance plain_types : @ChanTypes psession tworld := {|
  ct_names := [(session_type, str "session")];
  ct_name _ := str "session";
  ct_inithandler _ := None;
  ct_check_close _ := None;
  ct_reqhandler _ := None;
  ct_closehandler _ := None;
  ct_cleanup := toy_cleanup;
|}.

(** Events whose hypothesis does not depend on the state. *)
Definition plain_event (e : @chan_event) : bool :=
  match e with
  | EvMsg MsgData _ | EvMsg MsgRequest _ | EvConnect _ _ | EvForward _ _ _ => false
  | EvMsg _ pl => is_payload pl
  | EvIO _ _ _ => true
  end.

Lemma plain_events es : forallb plain_event es = true -> forall s : @chses psession tworld, events_ok toy_rw (fun _ s => Ok s) es s.
Proof.
  induction es as [|e es IH]; intros H s; [done|]. cbn in H. apply andb_prop in H as [He Hes]. split; [|intros s' _; by apply IH].
  destruct e as [[] pl| | |]; cbn in He |- *; try done; (split; [|done]); try done; (split; [by apply is_payload_wf|done]).
Qed.

Lemma channels_over_packets_witness :
  let es := [EvMsg MsgOpen (payload_of (str_field (str "session") ++ store32h 8 ++ store32h 100 ++ store32h 50));
             EvMsg MsgWindowAdjust (payload_of (store32h 0 ++ store32h 5)); EvIO (fun _ => true) (fun _ => true) true;
             EvMsg MsgEof (payload_of (store32h 0)); EvMsg MsgClose (payload_of (store32h 0))] in
  let run := run_events toy_rw (fun _ s => Ok s) es (chaninitialise (Toy.session Toy.writepayload0, []) toy_world DROPBEAR_PRIO_NORMAL 3) in
  let both_ok := fun s' => st_ok toy_rw s' /\ pk_ok (fst (ses s')) /\ buf_len (writepayload (fst (ses s'))) = 0 in
  opost both_ok run /\ safe both_ok run.
Proof.
  intros es run both_ok. assert (Hes : events_ok toy_rw (fun _ s => Ok s) es (chaninitialise (Toy.session Toy.writepayload0, []) toy_world DROPBEAR_PRIO_NORMAL 3)).
  { apply plain_events. vm_compute. reflexivity. }
  destruct (channels_over_packets (C := Toy.toy) 0 toy_rw (fun _ s => Ok s) es (Toy.session Toy.writepayload0) toy_world DROPBEAR_PRIO_NORMAL 3) as [H1 H2].
  - exact toy_rw_ok.
  - split.
    + split; [by intros c h p [=]|by intros c f [=]|apply toy_cleanup_ok].
    + intros ty h i c s [=].
    + intros ty nm [= -> _]%list_elem_of_singleton _. done.
    + intros i h c s _ [=].
    + intros ty. split; [by apply bytes_check|done].
  - intros rd s Hs. exact Hs.
  - assert (Hd : dir_ok Toy.key) by (split; [by right|done]). split; [exact Hd|exact Hd|apply toy_writepayload_view|done|by apply Forall_nil_2|by apply Forall_nil_2|done|done].
  - reflexivity.
  - apply events_in_time. exact Hes.
  - split; [exact H1|]. apply H2. exact Hes.
Defined.

End ToyChan.
