(* ===== verification/Base64.v ===== *)
(** * Base64

    libtomcrypt's base64_encode.c and base64_decode.c: the encoder with a table of characters
    and optional padding, the decoder in its relaxed and strict forms, and the proof that
    what is encoded is decoded. *)

From S2P Require Import Prelude Bytes.

(** ** Encoding *)

Definition codes_base64 : bytes := str "ABCDEFGHIJKLMNOPQRSTUVWXYZabcdefghijklmnopqrstuvwxyz0123456789+/".

Definition PAD : Z := 61.

Definition code (codes : bytes) (i : Z) : Z := nth (Z.to_nat (Z.land i 63)) codes 0.

(** The characters for the groups of three bytes and for the rest. *)
Fixpoint encode_groups (codes : bytes) (pad : bool) (l : bytes) : bytes :=
  match l with
  | in0 :: in1 :: in2 :: l =>
      code codes (Z.shiftr in0 2) ::
      code codes (Z.shiftl (Z.land in0 3) 4 + Z.shiftr in1 4) ::
      code codes (Z.shiftl (Z.land in1 15) 2 + Z.shiftr in2 6) ::
      code codes in2 :: encode_groups codes pad l
  | [a; b] =>
      [code codes (Z.shiftr a 2); code codes (Z.shiftl (Z.land a 3) 4 + Z.shiftr b 4); code codes (Z.shiftl (Z.land b 15) 2)]
      ++ (if pad then [PAD] else [])
  | [a] =>
      [code codes (Z.shiftr a 2); code codes (Z.shiftl (Z.land a 3) 4)] ++ (if pad then [PAD; PAD] else [])
  | [] => []
  end.

(** [None] is CRYPT_BUFFER_OVERFLOW: the characters and a NUL need [outlen] bytes. *)
Definition base64_encode_internal (inp : bytes) (outlen : Z) (codes : bytes) (pad : bool) : option bytes :=
  let len2 := 4 * ((zlen inp + 2) / 3) in
  if outlen <? len2 + 1 then None else Some (encode_groups codes pad inp).

Definition base64_encode (inp : bytes) (outlen : Z) : option bytes := base64_encode_internal inp outlen codes_base64 true.

(** ** Decoding *)

Definition map_base64 : list Z :=
  replicate 43 255 ++ [62] ++ replicate 3 255 ++ [63] ++ [52; 53; 54; 55; 56; 57; 58; 59; 60; 61] ++ replicate 3 255 ++ [254] ++
  replicate 3 255 ++ [0; 1; 2; 3; 4; 5; 6; 7; 8; 9; 10; 11; 12; 13; 14; 15; 16; 17; 18; 19; 20; 21; 22; 23; 24; 25] ++ replicate 6 255 ++
  [26; 27; 28; 29; 30; 31; 32; 33; 34; 35; 36; 37; 38; 39; 40; 41; 42; 43; 44; 45; 46; 47; 48; 49; 50; 51] ++ replicate 133 255.

Inductive decoded := Decoded (out : bytes) | InvalidPacket | BufferOverflow.

(** The state of the loop: the bits gathered [t], how many characters they come from [y], the
    number of pad characters [g] and the bytes written. *)
Record dec_state := mkdec { d_t : Z; d_y : Z; d_g : Z; d_out : bytes }.

Definition dec_bytes (t : Z) : bytes := [u8 (Z.land (Z.shiftr t 16) 255); u8 (Z.land (Z.shiftr t 8) 255); u8 (Z.land t 255)].

Fixpoint decode_loop (map : list Z) (is_strict : bool) (outlen : Z) (inp : bytes) (s : dec_state) : decoded + dec_state :=
  match inp with
  | [] => inr s
  | x :: inp =>
      let c := nth (Z.to_nat (Z.land x 255)) map 255 in
      if c =? 254 then decode_loop map is_strict outlen inp (mkdec (d_t s) (d_y s) (d_g s + 1) (d_out s))
      else if is_strict && (0 <? d_g s) then inl InvalidPacket
      else if c =? 255 then
        if is_strict then inl InvalidPacket else decode_loop map is_strict outlen inp s
      else
        let t := u64 (Z.lor (Z.shiftl (d_t s) 6) c) in
        let y := d_y s + 1 in
        if y =? 4 then
          if outlen <? zlen (d_out s) + 3 then inl BufferOverflow
          else decode_loop map is_strict outlen inp (mkdec 0 0 (d_g s) (d_out s ++ dec_bytes t))
        else decode_loop map is_strict outlen inp (mkdec t y (d_g s) (d_out s))
  end.

(** What is left after the loop. *)
Definition decode_end (is_strict : bool) (outlen : Z) (r : decoded + dec_state) : decoded :=
  match r with
  | inl e => e
  | inr s =>
      if negb (d_y s =? 0) then
        if d_y s =? 1 then InvalidPacket
        else if negb (d_y s + d_g s =? 4) && is_strict then InvalidPacket
        else
          let t := u64 (Z.shiftl (d_t s) (6 * (4 - d_y s))) in
          if outlen <? zlen (d_out s) + d_y s - 1 then BufferOverflow
          else
            Decoded (d_out s ++ (if 2 <=? d_y s then [u8 (Z.land (Z.shiftr t 16) 255)] else []) ++
                     (if d_y s =? 3 then [u8 (Z.land (Z.shiftr t 8) 255)] else []))
      else Decoded (d_out s)
  end.

Definition base64_decode_internal (inp : bytes) (outlen : Z) (map : list Z) (is_strict : bool) : decoded :=
  decode_end is_strict outlen (decode_loop map is_strict outlen inp (mkdec 0 0 0 [])).

Definition base64_decode (inp : bytes) (outlen : Z) : decoded := base64_decode_internal inp outlen map_base64 false.
Definition base64_strict_decode (inp : bytes) (outlen : Z) : decoded := base64_decode_internal inp outlen map_base64 true.

(** ** The round trip *)

Lemma code_map i : nth (Z.to_nat (Z.land (code codes_base64 i) 255)) map_base64 255 = i mod 64.
Proof.
  unfold code. change 63 with (Z.ones 6). rewrite Z.land_ones by done. change (2 ^ 6) with 64.
  assert (H : forall k, 0 <= k < 64 -> nth (Z.to_nat (Z.land (nth (Z.to_nat k) codes_base64 0) 255)) map_base64 255 = k).
  { intros k Hk. apply (Forall_forall (fun k => nth (Z.to_nat (Z.land (nth (Z.to_nat k) codes_base64 0) 255)) map_base64 255 = k) (seqZ 0 64)); [|by apply elem_of_seqZ].
    vm_compute. repeat constructor. }
  apply H. by apply Z.mod_pos_bound.
Qed.

(** One character that is not padding. *)
Lemma decode_code strict outlen i inp t y out : 0 <= t < 2 ^ 24 -> 0 <= y < 3 ->
  decode_loop map_base64 strict outlen (code codes_base64 i :: inp) (mkdec t y 0 out) =
  decode_loop map_base64 strict outlen inp (mkdec (t * 64 + i mod 64) (y + 1) 0 out).
Proof.
  intros Ht Hy. cbn [decode_loop d_t d_y d_g d_out]. rewrite code_map. pose proof (Z.mod_pos_bound i 64 ltac:(done)).
  rewrite !(proj2 (Z.eqb_neq _ _)) by lia. rewrite andb_false_r, lor_shiftl_add by (change (2 ^ 6) with 64; lia). change (2 ^ 6) with 64.
  unfold u64. by rewrite Z.mod_small by lia.
Qed.

Lemma decode_last strict outlen i inp t out : 0 <= t < 2 ^ 24 -> zlen out + 3 <= outlen ->
  decode_loop map_base64 strict outlen (code codes_base64 i :: inp) (mkdec t 3 0 out) =
  decode_loop map_base64 strict outlen inp (mkdec 0 0 0 (out ++ dec_bytes (t * 64 + i mod 64))).
Proof.
  intros Ht Hr. cbn [decode_loop d_t d_y d_g d_out]. rewrite code_map. pose proof (Z.mod_pos_bound i 64 ltac:(done)).
  rewrite !(proj2 (Z.eqb_neq _ _)) by lia. rewrite andb_false_r, lor_shiftl_add by (change (2 ^ 6) with 64; lia). change (2 ^ 6) with 64.
  change (3 + 1 =? 4) with true. rewrite (proj2 (Z.ltb_ge _ _)) by lia. unfold u64. by rewrite Z.mod_small by lia.
Qed.

Lemma land_low z n : 0 <= n -> Z.land z (Z.ones n) = z mod 2 ^ n.
Proof. intros. by apply Z.land_ones. Qed.

(** The bytes put together again. *)
Lemma dec_bytes_eq t : 0 <= t < 2 ^ 24 -> dec_bytes t = [t / 65536; t / 256 mod 256; t mod 256].
Proof.
  intros Ht. unfold dec_bytes, u8. rewrite !land_255, !Z.shiftr_div_pow2, !Z.mod_mod by done. change (2 ^ 16) with 65536. change (2 ^ 8) with 256.
  rewrite (Z.mod_small (t / 65536)) by lia. done.
Qed.

(** The sextets of the encoder as numbers. *)
Lemma sextet_hi a : is_byte a -> Z.shiftr a 2 mod 64 = a / 4.
Proof. unfold is_byte. intros. rewrite Z.shiftr_div_pow2 by done. change (2 ^ 2) with 4. lia. Qed.

Lemma sextet_mid a b n k m : 0 <= n -> 0 <= k -> 0 <= m -> (Z.shiftl (Z.land a (Z.ones n)) k + Z.shiftr b m) = a mod 2 ^ n * 2 ^ k + b / 2 ^ m.
Proof. intros. by rewrite Z.land_ones, Z.shiftl_mul_pow2, Z.shiftr_div_pow2. Qed.

Lemma sextet_low a n k : 0 <= n -> 0 <= k -> Z.shiftl (Z.land a (Z.ones n)) k = a mod 2 ^ n * 2 ^ k.
Proof. intros. by rewrite Z.land_ones, Z.shiftl_mul_pow2. Qed.

Lemma decode_group strict outlen a b c inp out : is_byte a -> is_byte b -> is_byte c -> zlen out + 3 <= outlen ->
  decode_loop map_base64 strict outlen
    (code codes_base64 (Z.shiftr a 2) :: code codes_base64 (Z.shiftl (Z.land a 3) 4 + Z.shiftr b 4) ::
     code codes_base64 (Z.shiftl (Z.land b 15) 2 + Z.shiftr c 6) :: code codes_base64 c :: inp) (mkdec 0 0 0 out) =
  decode_loop map_base64 strict outlen inp (mkdec 0 0 0 (out ++ [a; b; c])).
Proof.
  intros Ha Hb Hc Hr. unfold is_byte in *. change 3 with (Z.ones 2) at 1. change 15 with (Z.ones 4) at 1. rewrite !sextet_mid by done.
  change (2 ^ 2) with 4. change (2 ^ 4) with 16. change (2 ^ 6) with 64.
  rewrite decode_code, decode_code, decode_code by lia. rewrite sextet_hi by done. change (0 + 1 + 1 + 1) with 3.
  rewrite decode_last by lia. rewrite dec_bytes_eq by lia. do 4 f_equal; [lia|]. repeat f_equal; lia.
Qed.

Lemma decode_pads strict outlen n t y g out : decode_loop map_base64 strict outlen (replicate n PAD) (mkdec t y g out) = inr (mkdec t y (g + Z.of_nat n) out).
Proof.
  revert g. induction n as [|n IH]; intros g; [by rewrite Z.add_0_r|]. cbn [replicate decode_loop].
  change (nth (Z.to_nat (Z.land PAD 255)) map_base64 255) with 254. cbn [Z.eqb Pos.eqb d_t d_y d_g d_out]. rewrite IH. do 2 f_equal. lia.
Qed.

Lemma encode_groups_step (P : bytes -> Prop) : P [] -> (forall a, P [a]) -> (forall a b, P [a; b]) -> (forall a b c l, P l -> P (a :: b :: c :: l)) -> forall l, P l.
Proof.
  intros H0 H1 H2 H3. assert (forall l, P l /\ (forall a, P (a :: l)) /\ (forall a b, P (a :: b :: l))) as H; [|by intros l; apply H].
  induction l as [|c l (IH0 & IH1 & IH2)]; [done|]. split; [done|]. split; [done|]. intros a b. by apply H3.
Qed.

Lemma decode_end_2 strict outlen t out : 0 <= t < 4096 -> zlen out + 1 <= outlen ->
  decode_end strict outlen (inr (mkdec t 2 2 out)) = Decoded (out ++ [t / 16]).
Proof.
  intros Ht Hr. cbn [decode_end d_t d_y d_g d_out]. change (6 * (4 - 2)) with 12. change (2 =? 3) with false. cbn [Z.eqb Pos.eqb negb andb Z.add Pos.add Pos.succ].
  rewrite (proj2 (Z.ltb_ge _ _)) by lia. unfold u64, u8. rewrite land_255, Z.shiftl_mul_pow2, Z.shiftr_div_pow2 by done.
  change (2 ^ 12) with 4096. change (2 ^ 16) with 65536. rewrite (Z.mod_small (t * 4096)), Z.mod_mod by lia.
  change (2 <=? 2) with true. cbn [app]. do 3 f_equal. lia.
Qed.

Lemma decode_end_3 strict outlen t out : 0 <= t < 262144 -> zlen out + 2 <= outlen ->
  decode_end strict outlen (inr (mkdec t 3 1 out)) = Decoded (out ++ [t / 1024; t / 4 mod 256]).
Proof.
  intros Ht Hr. cbn [decode_end d_t d_y d_g d_out]. change (6 * (4 - 3)) with 6. cbn [Z.eqb Pos.eqb negb andb Z.add Pos.add Pos.succ].
  rewrite (proj2 (Z.ltb_ge _ _)) by lia. unfold u64, u8. rewrite !land_255, Z.shiftl_mul_pow2, !Z.shiftr_div_pow2 by done.
  change (2 ^ 6) with 64. change (2 ^ 16) with 65536. change (2 ^ 8) with 256. rewrite (Z.mod_small (t * 64)), !Z.mod_mod by lia.
  change (2 <=? 3) with true. cbn [app]. do 3 f_equal; [lia|]. f_equal. lia.
Qed.

Lemma decode_encoded strict outlen l : bytes_ok l -> forall out, zlen out + zlen l <= outlen ->
  decode_end strict outlen (decode_loop map_base64 strict outlen (encode_groups codes_base64 true l) (mkdec 0 0 0 out)) = Decoded (out ++ l).
Proof.
  revert l. refine (encode_groups_step _ _ _ _ _).
  - intros _ out _. cbn. by rewrite app_nil_r.
  - intros a Ha out Hr. apply Forall_cons in Ha as [Ha _]. change (zlen [a]) with 1 in Hr. unfold is_byte in Ha. cbn [encode_groups app].
    change 3 with (Z.ones 2). rewrite sextet_low by done. change (2 ^ 2) with 4. change (2 ^ 4) with 16.
    rewrite decode_code, decode_code, (decode_pads _ _ 2) by lia. rewrite sextet_hi by done. rewrite decode_end_2 by lia. do 3 f_equal. lia.
  - intros a b Hab out Hr. apply Forall_cons in Hab as [Ha Hb]. apply Forall_cons in Hb as [Hb _]. change (zlen [a; b]) with 2 in Hr. unfold is_byte in *.
    cbn [encode_groups app]. change 3 with (Z.ones 2). change 15 with (Z.ones 4). rewrite sextet_mid, sextet_low by done.
    change (2 ^ 2) with 4. change (2 ^ 4) with 16. rewrite decode_code, decode_code, decode_code, (decode_pads _ _ 1) by lia.
    rewrite sextet_hi by done. rewrite decode_end_3 by lia. do 3 f_equal; [lia|]. f_equal. lia.
  - intros a b c l IH Hl out Hr. apply Forall_cons in Hl as [Ha Hl]. apply Forall_cons in Hl as [Hb Hl]. apply Forall_cons in Hl as [Hc Hl].
    rewrite !zlen_cons in Hr. pose proof (zlen_nonneg l). cbn [encode_groups]. rewrite decode_group by (done || lia).
    rewrite IH; [by rewrite <- app_assoc|done|]. rewrite zlen_app, !zlen_cons, zlen_nil. lia.
Qed.

Lemma encode_groups_zlen codes l : zlen (encode_groups codes true l) = 4 * ((zlen l + 2) / 3).
Proof.
  revert l. refine (encode_groups_step _ _ _ _ _); [done|done|done|]. intros a b c l IH. cbn [encode_groups]. rewrite !zlen_cons, IH. lia.
Qed.

(** Base64 round trip. Bytes encoded with the table and padding of base64.c take
    4 * ceil(n / 3) characters, encoding fails only when those and a NUL do not fit, and what
    was encoded is decoded to the same bytes by the relaxed and the strict decoder, when their
    output has room for them. *)
Theorem base64_roundtrip (l : bytes) (outlen room : Z) :
  bytes_ok l -> 4 * ((zlen l + 2) / 3) < outlen -> zlen l <= room ->
  exists e, base64_encode l outlen = Some e /\ zlen e = 4 * ((zlen l + 2) / 3) /\
    base64_decode e room = Decoded l /\ base64_strict_decode e room = Decoded l.
Proof.
  intros Hl Ho Hr. exists (encode_groups codes_base64 true l). unfold base64_encode, base64_encode_internal.
  rewrite (proj2 (Z.ltb_ge _ _)) by lia. split; [done|]. split; [apply encode_groups_zlen|].
  split; apply (decode_encoded _ _ _ Hl []); by rewrite zlen_nil.
Qed.

Lemma base64_roundtrip_witness :
  exists e, base64_encode (str "Sshd4a!") 13 = Some e /\ zlen e = 4 * ((zlen (str "Sshd4a!") + 2) / 3) /\
    base64_decode e 7 = Decoded (str "Sshd4a!") /\ base64_strict_decode e 7 = Decoded (str "Sshd4a!").
Proof.
  apply (base64_roundtrip (str "Sshd4a!") 13 7).
  - apply bytes_check. vm_compute. reflexivity.
  - vm_compute. reflexivity.
  - vm_compute. discriminate.
Defined.

(** ** What the decoder writes *)

Lemma dec_bytes_ok t : bytes_ok (dec_bytes t).
Proof. unfold dec_bytes. repeat (constructor; [apply u8_range|]). constructor. Qed.

Lemma decode_loop_bounds map strict outlen inp s : zlen (d_out s) <= outlen -> bytes_ok (d_out s) -> 0 <= d_y s <= 3 ->
  match decode_loop map strict outlen inp s with inl e => True | inr s' => zlen (d_out s') <= outlen /\ bytes_ok (d_out s') /\ 0 <= d_y s' <= 3 end.
Proof.
  revert s. induction inp as [|x inp IH]; intros s Hz Hb Hy; [done|]. cbn [decode_loop].
  destruct (_ =? 254); [by apply IH|]. destruct (strict && _); [done|]. destruct (_ =? 255).
  { destruct strict; [done|by apply IH]. }
  destruct (Z.eqb_spec (d_y s + 1) 4).
  - destruct (Z.ltb_spec outlen (zlen (d_out s) + 3)); [done|]. apply IH; cbn; [rewrite zlen_app; unfold zlen in *; cbn; lia| |lia].
    apply Forall_app. split; [done|apply dec_bytes_ok].
  - apply IH; cbn; [done|done|lia].
Qed.

Lemma decode_end_bounds strict outlen r out : match r with inl e => True | inr s => zlen (d_out s) <= outlen /\ bytes_ok (d_out s) /\ 0 <= d_y s <= 3 end ->
  r <> inl (Decoded out) -> decode_end strict outlen r = Decoded out -> zlen out <= outlen /\ bytes_ok out.
Proof.
  destruct r as [e|s]; cbn [decode_end]; [congruence|]. intros (Hz & Hb & Hy) _. destruct (negb _) eqn:E; [|by intros [= <-]].
  destruct (Z.eqb_spec (d_y s) 1); [done|]. destruct (_ && strict); [done|]. destruct (Z.ltb_spec outlen (zlen (d_out s) + d_y s - 1)); [done|].
  intros [= <-]. split.
  - rewrite !zlen_app. destruct (Z.leb_spec 2 (d_y s)), (Z.eqb_spec (d_y s) 3); rewrite ?zlen_cons, ?zlen_nil; lia.
  - apply Forall_app. split; [done|]. apply Forall_app. split; [destruct (2 <=? d_y s)|destruct (d_y s =? 3)]; try by apply Forall_nil_2.
    all: apply Forall_singleton, u8_range.
Qed.

Lemma decode_loop_not map strict outlen inp s out : decode_loop map strict outlen inp s <> inl (Decoded out).
Proof.
  revert s. induction inp as [|x inp IH]; intros s; cbn [decode_loop]; [done|].
  destruct (_ =? 254); [apply IH|]. destruct (strict && _); [done|]. destruct (_ =? 255); [destruct strict; [done|apply IH]|].
  destruct (_ =? 4); [|apply IH]. destruct (_ <? _); [done|apply IH].
Qed.

Lemma base64_decode_bounds inp outlen out : 0 <= outlen -> base64_decode inp outlen = Decoded out -> zlen out <= outlen /\ bytes_ok out.
Proof.
  intros Ho. unfold base64_decode, base64_decode_internal. apply decode_end_bounds.
  - apply decode_loop_bounds; [done|by apply Forall_nil_2|done].
  - apply decode_loop_not.
Qed.
