(* ===== verification/Sshd4a.v ===== *)
(** * The Android side of the server

    jni-dropbear.c: the configuration handed over from Java, the file of users with their
    password hashes and roles, the environment and the names of the executables; and
    [run_shell_command] of dbutil.c, which uses them. *)

From S2P Require Import Prelude CString Base64.

(** ** Configuration *)

(** The global variables set from Java, and the contents of the files of the configuration
    directory that are read. *)
Record sshd4a := {
  sshd4a_shell_exe : bytes;
  sshd4a_home_path : bytes;
  lib_path : bytes;
  conf_path : bytes;
  env_var_list : option bytes;
  enable_service_shell_access : bool;
  enable_public_key_auth : bool;
  enable_single_use_passwords : bool;
  authorized_users_file : option bytes;
  authorized_keys_file : option bytes;
}.

Definition SSHD4A_ROLE_USER : bytes := str "user".
Definition SSHD4A_ROLE_ROOT : bytes := str "root".
Definition SSHD4A_ROLE_SHELL : bytes := str "shell".
Definition SSHD4A_ROOT_HOME : bytes := str "/data/local/tmp/Sshd4a/root/home".
Definition SSHD4A_SHELL_HOME : bytes := str "/data/local/tmp/Sshd4a/shell/home".
Definition SSHD4A_ROOT_SHELL_LIB : bytes := str "libsuroot.so".
Definition SSHD4A_SHELL_SHELL_LIB : bytes := str "libsushell.so".
Definition SSHD4A_CONF_DIR : bytes := str "SSHD4A_CONF_DIR".
Definition PATH : bytes := str "PATH".

(** [sprintf] of [s] into a block of [size] bytes, with its NUL. *)
Definition sprintf (size : Z) (s : bytes) : outcome bytes := if zlen s + 1 <=? size then Ok s else Undef.

Section config.
Context (cf : sshd4a).

Definition config_file_exists (file : option bytes) (min_chars : Z) : bool :=
  match file with None => false | Some f => min_chars <=? zlen f end.

Definition sshd4a_conf_file (fn : bytes) : outcome bytes :=
  sprintf (zlen (conf_path cf) + zlen fn + 1 + 1) (conf_path cf ++ str "/" ++ fn).

Definition sshd4a_lib_exe_path (name : bytes) : bytes := lib_path cf ++ str "/" ++ name.

Definition sshd4a_enable_public_key_auth : bool := enable_public_key_auth cf && config_file_exists (authorized_keys_file cf) 10.
Definition sshd4a_enable_password_file : bool := config_file_exists (authorized_users_file cf) 3.

(** ** Executables *)

(** The command line with the name of the executable replaced. *)
Definition sshd4a_exe_to_lib (cmd : bytes) : outcome bytes :=
  let lib := lib_path cf in
  if strncmp_eq cmd (str "scp ") 4 then
    sprintf (zlen lib + 11 + zlen cmd + 1) (lib ++ str "/libscp.so " ++ drop 4 cmd)
  else if strncmp_eq cmd (str "rsync ") 6 then
    sprintf (zlen lib + 13 + zlen cmd - 6 + 1) (lib ++ str "/librsync.so " ++ drop 6 cmd)
  else if strncmp_eq cmd (str "sftp-server") 11 then
    sprintf (zlen lib + 18 + 1) (lib ++ str "/libsftp-server.so")
  else if strncmp_eq cmd (str "busybox ") 8 then
    sprintf (zlen lib + zlen cmd + 32) (lib ++ str "/libbusybox.so " ++ drop 8 cmd)
  else if strcmp_eq cmd (str "busybox") then
    sprintf (zlen lib + 32) (lib ++ str "/libbusybox.so")
  else Ok cmd.

(** What [run_shell_command] runs: the program and its arguments; [None] when it refuses. *)
Definition run_shell_command (cmd : option bytes) (usershell baseshell : bytes) : outcome (option (bytes * list bytes)) :=
  match cmd with
  | Some cmd =>
      let* cmd := sshd4a_exe_to_lib cmd in
      Ok (Some (usershell, [baseshell; str "-c"; cmd]))
  | None =>
      if negb (enable_service_shell_access cf) then Ok None
      else Ok (Some (usershell, [str "-" ++ baseshell]))
  end.

(** ** Environment *)

Definition environ : Type := gmap bytes bytes.

Definition eol (b : Z) : bool := (b =? 13) || (b =? 10).

Fixpoint set_env_loop (fuel : nat) (s : bytes) (env : environ) : environ :=
  match fuel with
  | O => env
  | S fuel =>
      match s with
      | [] => env
      | _ =>
          let '(name, s) := span (fun b => negb (b =? 61) && negb (eol b)) s in
          let '(val, s) := match s with
                           | 61 :: s => span (fun b => negb (eol b)) s
                           | _ => ([], s)
                           end in
          let s := snd (span eol s) in
          let env := if 0 <? zlen name then <[name := val]> env else env in
          set_env_loop fuel s env
      end
  end.

Definition sshd4a_set_env (env : environ) : environ :=
  match env_var_list cf with
  | None => env
  | Some s => <[SSHD4A_CONF_DIR := conf_path cf]> (set_env_loop (length s) s env)
  end.

Definition sshd4a_append_lib_to_path (env : environ) : environ :=
  let old := default [] (env !! PATH) in
  <[PATH := match old with [] => lib_path cf | _ => old ++ str ":" ++ lib_path cf end]> env.

(** ** Users *)

(** [getline]: the next line with its newline, and the rest of the file. *)
Definition getline (f : bytes) : bytes * bytes :=
  match span (fun b => negb (b =? 10)) f with
  | (l, b :: rest) => (l ++ [b], rest)
  | (l, []) => (l, [])
  end.

(** Without the newlines and carriage returns at the end. *)
Fixpoint strip_eol (l : bytes) : bytes :=
  match l with
  | [] => []
  | b :: l => match strip_eol l with [] => if eol b then [] else [b] | l' => b :: l' end
  end.

(** [strcmp] with a pointer that may be NULL. *)
Definition strcmp_null (a : bytes) (b : option bytes) : outcome bool :=
  match b with None => Undef | Some b => Ok (strcmp_eq a b) end.

(** [sshd4a_find_user]: the password of the first line for [username], if the line has one,
    and its role; [None] when there is no such line. *)
Fixpoint find_user_loop (fuel : nat) (f : bytes) (username : option bytes) : outcome (option (option bytes * bytes)) :=
  match fuel with
  | O => Ok None
  | S fuel =>
      match f with
      | [] => Ok None
      | _ =>
          let '(line, f) := getline f in
          let line := cstr (strip_eol line) in
          match line, strchr 58 line with
          | [], _ | _, None => find_user_loop fuel f username
          | _, _ =>
              let '(field_user, saveptr) := strtok_r 58 line in
              match field_user with
              | None => find_user_loop fuel f username
              | Some field_user =>
                  let* same := strcmp_null field_user username in
                  if negb same then find_user_loop fuel f username
                  else
                    let '(field_pass, saveptr) := strtok_r 58 saveptr in
                    let '(field_role, _) := strtok_r 58 saveptr in
                    Ok (Some (field_pass, default SSHD4A_ROLE_USER field_role))
              end
          end
      end
  end.

Definition sshd4a_find_user (username : option bytes) : outcome (option (option bytes * bytes)) :=
  match authorized_users_file cf with
  | None => Ok None
  | Some f => find_user_loop (length f) f username
  end.

Definition sshd4a_get_role_for_user (username : bytes) : outcome bytes :=
  let* u := sshd4a_find_user (Some username) in
  Ok (match u with Some (_, role) => role | None => SSHD4A_ROLE_USER end).

(** ** Single-use passwords *)

Definition tab64 : bytes := str "abcdefghijk!mnopqrstuvwxyzABCDEFGH@JKLMN#PQRSTUVWXYZ$%23456789^&".

(** From eight random bytes. *)
Definition sshd4a_generate_single_use_password (random : bytes) : bytes :=
  map (fun b => nth (Z.to_nat (Z.land b 63)) tab64 0) (take 8 random).
End config.

(** ** The file of users *)

Record user_entry := mkuser { ue_name : bytes; ue_hash : bytes; ue_role : option bytes }.

Definition user_line (e : user_entry) : bytes :=
  ue_name e ++ 58 :: ue_hash e ++ (match ue_role e with Some r => 58 :: r | None => [] end) ++ [10].

(** A field of a line: not empty, without separators, line ends and NULs. *)
Definition user_char (b : Z) : Prop := b <> 58 /\ b <> 10 /\ b <> 13 /\ b <> 0.
Definition user_field (l : bytes) : Prop := l <> [] /\ Forall user_char l.

Record user_entry_ok (e : user_entry) : Prop := {
  ueo_name : user_field (ue_name e);
  ueo_hash : user_field (ue_hash e);
  ueo_role r : ue_role e = Some r -> user_field r;
}.

Lemma user_field_ok l : user_field l -> field_ok 58 l.
Proof. intros [Hne Hl]. split; [done|]. eapply Forall_impl; [exact Hl|]. by intros b []. Qed.

Lemma getline_line l f : Forall (fun b => b <> 10) l -> getline (l ++ 10 :: f) = (l ++ [10], f).
Proof. intros Hl. unfold getline. by rewrite span_app by (done || by apply field_span). Qed.

Lemma strip_eol_keep l b : eol b = false -> strip_eol (l ++ [b]) = l ++ [b].
Proof. intros Hb. induction l as [|c l IH]; cbn; [by rewrite Hb|]. rewrite IH. by destruct l. Qed.

Lemma strip_eol_end l e : eol e = true -> strip_eol (l ++ [e]) = strip_eol l.
Proof. intros He. induction l as [|c l IH]; cbn; [by rewrite He|]. by rewrite IH. Qed.

(** The line of an entry without its end. *)
Definition user_text (e : user_entry) : bytes := ue_name e ++ 58 :: ue_hash e ++ (match ue_role e with Some r => 58 :: r | None => [] end).

Lemma user_text_chars e : user_entry_ok e -> Forall (fun b => b <> 10 /\ b <> 13 /\ b <> 0) (user_text e).
Proof.
  intros [[_ Hn] [_ Hh] Hr]. unfold user_text.
  assert (H : forall l, Forall user_char l -> Forall (fun b => b <> 10 /\ b <> 13 /\ b <> 0) l).
  { intros l Hl. eapply Forall_impl; [exact Hl|]. by intros b []. }
  apply Forall_app. split; [by apply H|]. constructor; [done|]. apply Forall_app. split; [by apply H|].
  destruct (ue_role e) as [r|]; [|done]. constructor; [done|]. by apply H, Hr.
Qed.

Lemma user_text_read e : user_entry_ok e -> cstr (strip_eol (user_text e ++ [10])) = user_text e.
Proof.
  intros He. pose proof (user_text_chars e He) as Hc. rewrite strip_eol_end by done.
  destruct (exists_last (l := user_text e)) as (l & b & E); [unfold user_text; by destruct (ue_name e)|]. rewrite E in *.
  apply Forall_app in Hc as Hb. destruct Hb as [_ Hb]. apply Forall_cons in Hb as [(H10 & H13 & _) _].
  rewrite strip_eol_keep by (unfold eol; by rewrite (proj2 (Z.eqb_neq _ _) H10), (proj2 (Z.eqb_neq _ _) H13)).
  apply cstr_id. eapply Forall_impl; [exact Hc|]. by intros ? (_ & _ & ?).
Qed.

Lemma find_user_line fuel e f u : user_entry_ok e ->
  find_user_loop (S fuel) (user_line e ++ f) u =
  let* same := strcmp_null (ue_name e) u in
  if same then Ok (Some (Some (ue_hash e), default SSHD4A_ROLE_USER (ue_role e))) else find_user_loop fuel f u.
Proof.
  intros He. pose proof (user_text_chars e He) as Hc. pose proof (user_text_read e He) as Hread. pose proof He as [Hn Hh Hr].
  assert (user_line e ++ f = user_text e ++ 10 :: f) as ->.
  { unfold user_line, user_text. rewrite <- !app_assoc. cbn. by rewrite <- !app_assoc. }
  assert (Hne : exists b l, user_text e ++ 10 :: f = b :: l) by (unfold user_text; destruct (ue_name e); cbn; eauto).
  cbn [find_user_loop]. destruct Hne as (b & l & E). rewrite E, <- E. rewrite getline_line by (eapply Forall_impl; [exact Hc|]; by intros ? []).
  rewrite Hread. assert (Htok : strtok_r 58 (user_text e) = (Some (ue_name e), ue_hash e ++ match ue_role e with Some r => 58 :: r | None => [] end)).
  { unfold user_text. apply strtok_field. by apply user_field_ok. }
  assert (Hchr : strchr 58 (user_text e) = Some (ue_name e, ue_hash e ++ match ue_role e with Some r => 58 :: r | None => [] end)).
  { unfold strchr, user_text. rewrite span_app; [done| |done]. apply field_span. apply user_field_ok, Hn. }
  rewrite Htok. destruct (user_text e) eqn:Ht; [unfold user_text in Ht; by destruct (ue_name e)|]. rewrite Hchr.
  destruct (strcmp_null _ u) as [same| |]; cbn [obind]; [|done..]. destruct same; cbn [negb]; [|done]. destruct (ue_role e) as [r|].
  - rewrite strtok_field by by apply user_field_ok. rewrite strtok_last by by apply user_field_ok, Hr. done.
  - rewrite app_nil_r, strtok_last by by apply user_field_ok. done.
Qed.

Lemma find_user_step fuel e f u : user_entry_ok e ->
  find_user_loop (S fuel) (user_line e ++ f) (Some u) =
  if strcmp_eq (ue_name e) u then Ok (Some (Some (ue_hash e), default SSHD4A_ROLE_USER (ue_role e))) else find_user_loop fuel f (Some u).
Proof. intros He. by rewrite find_user_line. Qed.

(** What [sshd4a_find_user] should find. *)
Fixpoint first_user (es : list user_entry) (u : bytes) : option (option bytes * bytes) :=
  match es with
  | [] => None
  | e :: es => if bool_decide (ue_name e = u) then Some (Some (ue_hash e), default SSHD4A_ROLE_USER (ue_role e)) else first_user es u
  end.

Lemma user_line_len e : (0 < length (user_line e))%nat.
Proof. unfold user_line. rewrite length_app. cbn. lia. Qed.

Lemma find_user_entries es u : Forall user_entry_ok es -> nonul u ->
  forall fuel, (length (concat (map user_line es)) <= fuel)%nat -> find_user_loop fuel (concat (map user_line es)) (Some u) = Ok (first_user es u).
Proof.
  intros Hes Hu. induction Hes as [|e es He Hes IH]; intros fuel Hf; [by destruct fuel|]. cbn [map concat] in *. rewrite length_app in Hf.
  pose proof (user_line_len e). destruct fuel as [|fuel]; [lia|]. rewrite find_user_step by done. cbn [first_user].
  assert (strcmp_eq (ue_name e) u = bool_decide (ue_name e = u)) as ->.
  { apply eq_true_iff_eq. rewrite bool_decide_eq_true. apply strcmp_eq_iff; [|done]. eapply Forall_impl; [apply (ueo_name _ He)|]. by intros b (_ & _ & _ & ?). }
  destruct (bool_decide _); [done|]. apply IH. lia.
Qed.

(** Users are looked up by name. For a file of users made of lines with a name, a hash and
    possibly a role, the lookup terminates and gives the hash and the role of the first line
    whose name is the user's, with the role "user" when the line has none, and nothing when
    there is no such line. *)
Theorem find_user_first (cf : sshd4a) (es : list user_entry) (u : bytes) :
  authorized_users_file cf = Some (concat (map user_line es)) -> Forall user_entry_ok es -> nonul u ->
  sshd4a_find_user cf (Some u) = Ok (first_user es u).
Proof. intros Hf Hes Hu. unfold sshd4a_find_user. rewrite Hf. by apply find_user_entries. Qed.

(** ** The environment *)

Definition env_line (nv : bytes * bytes) : bytes := fst nv ++ 61 :: snd nv ++ [10].

Definition env_ok (nv : bytes * bytes) : Prop :=
  fst nv <> [] /\ Forall (fun b => negb (b =? 61) && negb (eol b) = true) (fst nv) /\ Forall (fun b => negb (eol b) = true) (snd nv).

Definition set_all (env : environ) (l : list (bytes * bytes)) : environ := foldl (fun m nv => <[fst nv := snd nv]> m) env l.

Lemma span_none p b l : p b = false -> span p (b :: l) = ([], b :: l).
Proof. intros H. cbn. by rewrite H. Qed.

Lemma env_lines_start l b s : Forall env_ok l -> concat (map env_line l) = b :: s -> eol b = false.
Proof.
  intros Hl E. destruct Hl as [|[n v] l (Hne & Hn & _) _]; [done|]. unfold env_line in E. cbn in *. destruct n as [|c n]; [done|].
  injection E as -> _. apply Forall_cons in Hn as [Hc _]. destruct (eol b); [by rewrite andb_false_r in Hc|done].
Qed.

Lemma set_env_lines l : Forall env_ok l -> forall fuel env, (length (concat (map env_line l)) <= fuel)%nat ->
  set_env_loop fuel (concat (map env_line l)) env = set_all env l.
Proof.
  induction 1 as [|[n v] l (Hne & Hn & Hv) Hl IH]; intros fuel env Hf; [by destruct fuel|]. cbn [map concat fst snd] in *.
  assert (Htext : env_line (n, v) ++ concat (map env_line l) = n ++ 61 :: v ++ 10 :: concat (map env_line l)).
  { unfold env_line. cbn. rewrite <- !app_assoc. cbn. by rewrite <- app_assoc. }
  rewrite Htext in *. assert (Hfuel : (length (concat (map env_line l)) < fuel)%nat) by (rewrite !length_app in Hf; cbn in Hf; rewrite length_app in Hf; cbn in Hf; lia).
  destruct fuel as [|fuel]; [lia|]. assert (exists x y, n ++ 61 :: v ++ 10 :: concat (map env_line l) = x :: y) as (x & y & E) by (destruct n; cbn; eauto).
  cbn [set_env_loop]. rewrite E, <- E. rewrite span_app by done. cbn beta iota. rewrite span_app by done. cbn beta iota.
  assert (Hspan : snd (span eol (10 :: concat (map env_line l))) = concat (map env_line l)).
  { cbn. destruct (concat (map env_line l)) as [|b s] eqn:El; [done|]. by rewrite span_none by by eapply env_lines_start. }
  rewrite Hspan. assert (0 <? zlen n = true) as -> by (destruct n; [done|rewrite zlen_cons; pose proof (zlen_nonneg n); apply Z.ltb_lt; lia]).
  rewrite IH by lia. done.
Qed.

(** The user's variables are set as written. When the list of variables from Java consists
    of lines with a non-empty name, an equals sign and a value, exactly these variables are
    set, later ones over earlier ones, and then the variable with the configuration
    directory. *)
Theorem env_vars_set (cf : sshd4a) (l : list (bytes * bytes)) (env : environ) :
  env_var_list cf = Some (concat (map env_line l)) -> Forall env_ok l ->
  sshd4a_set_env cf env = <[SSHD4A_CONF_DIR := conf_path cf]> (set_all env l).
Proof. intros Hv Hl. unfold sshd4a_set_env. rewrite Hv. by rewrite set_env_lines. Qed.

(** ** Executables *)

Lemma sprintf_ok size s : zlen s + 1 <= size -> sprintf size s = Ok s.
Proof. intros H. unfold sprintf. by rewrite (proj2 (Z.leb_le _ _)). Qed.

(** Whether the command line begins with [p]. *)
Ltac prefix p :=
  match goal with |- context [strncmp_eq ?c (str p) ?n] =>
    let H := fresh in let E := fresh "E" in
    assert (H : strncmp_eq c (str p) n = true <-> exists r, c = str p ++ r) by (apply (strncmp_prefix c (str p)), nonul_check; vm_compute; reflexivity);
    destruct (strncmp_eq c (str p) n) eqn:E;
    [destruct (proj1 H eq_refl) as [? ->] | assert (forall r, c <> str p ++ r) by (intros r Hr; discriminate (proj2 H (ex_intro _ r Hr)))]; clear H E
  end.

Ltac fits :=
  repeat match goal with |- context [drop ?n (str ?p ++ ?x)] => change (drop n (str p ++ x)) with x end;
  rewrite !zlen_app; repeat match goal with |- context [zlen (str ?p)] => let n := eval vm_compute in (zlen (str p)) in change (zlen (str p)) with n end;
  repeat match goal with |- context [zlen ?l] => lazymatch goal with H : 0 <= zlen l |- _ => fail | _ => pose proof (zlen_nonneg l) end end; lia.

(** The command run for a command line. *)
Inductive library_command (lib : bytes) : bytes -> bytes -> Prop :=
| RunScp args : library_command lib (str "scp " ++ args) (lib ++ str "/libscp.so " ++ args)
| RunRsync args : library_command lib (str "rsync " ++ args) (lib ++ str "/librsync.so " ++ args)
| RunSftp args : library_command lib (str "sftp-server" ++ args) (lib ++ str "/libsftp-server.so")
| RunBusybox args : library_command lib (str "busybox " ++ args) (lib ++ str "/libbusybox.so " ++ args)
| RunBusyboxAlone : library_command lib (str "busybox") (lib ++ str "/libbusybox.so")
| RunOther cmd :
    (forall p args, In p [str "scp "; str "rsync "; str "sftp-server"; str "busybox "] -> cmd <> p ++ args) -> cmd <> str "busybox" ->
    library_command lib cmd cmd.

(** Command lines are rewritten within their memory. The name of each program the server
    brings along is replaced by the name of its library file, the arguments stay, every other
    command is left as it is, and the text written never exceeds the memory allocated for
    it. *)
Theorem exe_to_lib_fits (cf : sshd4a) (cmd : bytes) :
  nonul cmd -> exists out, sshd4a_exe_to_lib cf cmd = Ok out /\ library_command (lib_path cf) cmd out.
Proof.
  intros Hcmd. unfold sshd4a_exe_to_lib. pose proof (zlen_nonneg (lib_path cf)).
  prefix "scp "%string; [eexists; split; [apply sprintf_ok; fits|]; apply RunScp|].
  prefix "rsync "%string; [eexists; split; [apply sprintf_ok; fits|]; apply RunRsync|].
  prefix "sftp-server"%string; [eexists; split; [apply sprintf_ok; fits|]; apply RunSftp|].
  prefix "busybox "%string; [eexists; split; [apply sprintf_ok; fits|]; apply RunBusybox|].
  destruct (strcmp_eq cmd (str "busybox")) eqn:E.
  - apply strcmp_eq_iff in E as ->; [|done|apply nonul_check; vm_compute; reflexivity]. eexists. split; [apply sprintf_ok; fits|]. apply RunBusyboxAlone.
  - exists cmd. split; [done|]. apply RunOther.
    + intros p args Hp. cbn [In] in Hp. destruct Hp as [<-|[<-|[<-|[<-|[]]]]]; auto.
    + intros ->. by vm_compute in E.
Qed.

(** ** A concrete configuration *)

Definition toy_users : list user_entry :=
  [mkuser (str "alice") (str "hash1") (Some (str "root")); mkuser (str "bob") (str "hash2") None].

Definition toy_env : list (bytes * bytes) := [(str "LANG", str "C"); (str "EMPTY", []); (str "LANG", str "en")].

Definition toy_config : sshd4a := {|
  sshd4a_shell_exe := str "/system/bin/sh";
  sshd4a_home_path := str "/data/home";
  lib_path := str "/data/lib";
  conf_path := str "/data/conf";
  env_var_list := Some (concat (map env_line toy_env));
  enable_service_shell_access := false;
  enable_public_key_auth := true;
  enable_single_use_passwords := false;
  authorized_users_file := Some (concat (map user_line toy_users));
  authorized_keys_file := None;
|}.

Definition user_charb (b : Z) : bool := negb (b =? 58) && negb (b =? 10) && negb (b =? 13) && negb (b =? 0).

Lemma user_field_check l : negb (bool_decide (l = [])) && forallb user_charb l = true -> user_field l.
Proof.
  intros [H1 H2]%andb_prop. split; [by destruct (bool_decide_reflect (l = []))|]. apply Forall_forall. intros b Hb. rewrite forallb_forall in H2.
  apply list_elem_of_In, H2 in Hb. unfold user_charb in Hb. repeat (apply andb_prop in Hb as [Hb ?]). repeat split; intros ->; done.
Qed.

Lemma toy_users_ok : Forall user_entry_ok toy_users.
Proof. repeat apply Forall_cons_2; [split..|by apply Forall_nil_2]; try (apply user_field_check; vm_compute; reflexivity); cbn; intros r [=]; subst r; apply user_field_check; vm_compute; reflexivity. Qed.

Lemma find_user_first_witness : sshd4a_find_user toy_config (Some (str "bob")) = Ok (Some (Some (str "hash2"), str "user")).
Proof.
  apply (find_user_first toy_config toy_users (str "bob")).
  - reflexivity.
  - exact toy_users_ok.
  - apply nonul_check. vm_compute. reflexivity.
Defined.

Lemma env_vars_set_witness : sshd4a_set_env toy_config ∅ = <[SSHD4A_CONF_DIR := str "/data/conf"]> (set_all ∅ toy_env).
Proof.
  apply (env_vars_set toy_config toy_env ∅).
  - reflexivity.
  - repeat constructor; discriminate.
Defined.

Lemma exe_to_lib_fits_witness : exists out, sshd4a_exe_to_lib toy_config (str "rsync --server .") = Ok out /\ library_command (str "/data/lib") (str "rsync --server .") out.
Proof.
  apply (exe_to_lib_fits toy_config (str "rsync --server .")). apply nonul_check. vm_compute. reflexivity.
Defined.
