(* ===== verification/AuthKeys.v ===== *)
(** * Authorized keys

    The file of public keys that may log in: reading it line by line (dbutil.c), matching a
    line with the key of a request (svr-authpubkey.c, signkey.c) and parsing the options of
    the line (svr-authpubkeyoptions.c). *)

From S2P Require Import Prelude Bytes CString Base64 Buffer.

Definition MIN_AUTHKEYS_LINE : Z := 10.
Definition MAX_AUTHKEYS_LINE : Z := 3000.
Definition MAX_AUTHKEYS_LINE_COUNT : nat := 300.
Definition DROPBEAR_MAX_LINE_LENGTH : Z := 10000.
Definition PUBKEY_OPTIONS_ANY_PORT : Z := UINT_MAX.

Definition SPACE : Z := 32.
Definition TAB : Z := 9.
Definition QUOTE : Z := 34.
Definition BACKSLASH : Z := 92.

(** ** Options *)

Record PermitTCPFwdEntry := mkpermit { permit_host : option bytes; permit_port : Z }.

Record PubKeyOptions := mkopts {
  no_port_forwarding_flag : bool;
  no_pty_flag : bool;
  forced_command : option bytes;
  permit_open_destinations : option (list PermitTCPFwdEntry);
  permit_listens : option (list PermitTCPFwdEntry);
  no_touch_required_flag : bool;
  verify_required_flag : bool;
  info_env : option bytes;
}.

Definition no_options : PubKeyOptions := mkopts false false None None None false false None.

Definition set_no_port_forwarding (o : PubKeyOptions) : PubKeyOptions :=
  mkopts true (no_pty_flag o) (forced_command o) (permit_open_destinations o) (permit_listens o) (no_touch_required_flag o) (verify_required_flag o) (info_env o).
Definition set_no_pty (o : PubKeyOptions) : PubKeyOptions :=
  mkopts (no_port_forwarding_flag o) true (forced_command o) (permit_open_destinations o) (permit_listens o) (no_touch_required_flag o) (verify_required_flag o) (info_env o).
Definition set_forced_command (c : bytes) (o : PubKeyOptions) : PubKeyOptions :=
  mkopts (no_port_forwarding_flag o) (no_pty_flag o) (Some c) (permit_open_destinations o) (permit_listens o) (no_touch_required_flag o) (verify_required_flag o) (info_env o).
Definition add_permit_open (e : PermitTCPFwdEntry) (o : PubKeyOptions) : PubKeyOptions :=
  mkopts (no_port_forwarding_flag o) (no_pty_flag o) (forced_command o) (Some (default [] (permit_open_destinations o) ++ [e])) (permit_listens o)
    (no_touch_required_flag o) (verify_required_flag o) (info_env o).
Definition add_permit_listen (e : PermitTCPFwdEntry) (o : PubKeyOptions) : PubKeyOptions :=
  mkopts (no_port_forwarding_flag o) (no_pty_flag o) (forced_command o) (permit_open_destinations o) (Some (default [] (permit_listens o) ++ [e]))
    (no_touch_required_flag o) (verify_required_flag o) (info_env o).
Definition set_no_touch_required (o : PubKeyOptions) : PubKeyOptions :=
  mkopts (no_port_forwarding_flag o) (no_pty_flag o) (forced_command o) (permit_open_destinations o) (permit_listens o) true (verify_required_flag o) (info_env o).
Definition set_verify_required (o : PubKeyOptions) : PubKeyOptions :=
  mkopts (no_port_forwarding_flag o) (no_pty_flag o) (forced_command o) (permit_open_destinations o) (permit_listens o) (no_touch_required_flag o) true (info_env o).
Definition set_info_env (i : option bytes) (o : PubKeyOptions) : PubKeyOptions :=
  mkopts (no_port_forwarding_flag o) (no_pty_flag o) (forced_command o) (permit_open_destinations o) (permit_listens o) (no_touch_required_flag o) (verify_required_flag o) i.

(** What the options allow; [None] when the login was not by a key. *)
Definition svr_pubkey_allows_tcpfwd (o : option PubKeyOptions) : bool :=
  match o with Some o => negb (no_port_forwarding_flag o) | None => true end.

Definition svr_pubkey_allows_pty (o : option PubKeyOptions) : bool :=
  match o with Some o => negb (no_pty_flag o) | None => true end.

Definition svr_pubkey_has_forced_command (o : option PubKeyOptions) : bool :=
  match o with Some o => match forced_command o with Some _ => true | None => false end | None => false end.

Fixpoint permit_open_match (l : list PermitTCPFwdEntry) (host : bytes) (port : Z) : outcome bool :=
  match l with
  | [] => Ok false
  | e :: l =>
      match permit_host e with
      | None => Undef
      | Some h =>
          if strcmp_eq h host && ((permit_port e =? PUBKEY_OPTIONS_ANY_PORT) || (permit_port e =? port)) then Ok true
          else permit_open_match l host port
      end
  end.

Definition svr_pubkey_allows_local_tcpfwd (o : option PubKeyOptions) (host : bytes) (port : Z) : outcome bool :=
  match o with
  | Some o => match permit_open_destinations o with Some l => permit_open_match l host port | None => Ok true end
  | None => Ok true
  end.

Definition svr_pubkey_allows_remote_tcpfwd (o : option PubKeyOptions) (host : bytes) (port : Z) : bool :=
  match o with
  | Some o => match permit_listens o with Some l => existsb (fun e => permit_port e =? port) l | None => true end
  | None => true
  end.

(** The command to run and the one that was asked for. *)
Definition svr_pubkey_set_forced_command (o : option PubKeyOptions) (cmd original : option bytes) : option bytes * option bytes :=
  match o with
  | Some o => match forced_command o with Some c => (Some c, Some (default [] cmd)) | None => (cmd, original) end
  | None => (cmd, original)
  end.

(** ** Parsing options *)

Definition tolower (b : Z) : Z := if (65 <=? b) && (b <=? 90) then b + 32 else b.

(** [strncasecmp(a, b, n) == 0] *)
Fixpoint strncasecmp_eq (a b : bytes) (n : nat) : bool :=
  match n with
  | O => true
  | S n => if tolower (hd 0 a) =? tolower (hd 0 b) then (hd 0 a =? 0) || strncasecmp_eq (tl a) (tl b) n else false
  end.

Definition match_option (b : buffer) (opt_name : bytes) : outcome (option buffer) :=
  let len := zlen opt_name in
  if buf_len b - buf_pos b <? len then Ok None
  else
    let* text := buf_read b len in
    if strncasecmp_eq text opt_name (Z.to_nat len) then let* b := buf_incrpos b len in Ok (Some b) else Ok None.

(** The text up to the closing quote, and the buffer after the quote. *)
Fixpoint scan_command (fuel : nat) (start : Z) (escaped : bool) (b : buffer) : outcome (option (bytes * buffer)) :=
  match fuel with
  | O => Ok None
  | S fuel =>
      if buf_pos b <? buf_len b then
        let* (c, b) := buf_getbyte b in
        if negb escaped && (c =? QUOTE) then
          let* p := buf_getptr b 0 in
          let command_len := p - start in
          let* cmd := mem_read (buf_data b) start (command_len - 1) in
          Ok (Some (cmd, b))
        else scan_command fuel start (negb escaped && (c =? BACKSLASH)) b
      else Ok None
  end.

Fixpoint scan_spec (fuel : nat) (start : Z) (b : buffer) : outcome (option (bytes * buffer)) :=
  match fuel with
  | O => Ok None
  | S fuel =>
      if buf_pos b <? buf_len b then
        let* (c, b) := buf_getbyte b in
        if c =? QUOTE then
          let* p := buf_getptr b 0 in
          let permit_len := p - start in
          let* spec := mem_read (buf_data b) start (permit_len - 1) in
          Ok (Some (spec, b))
        else scan_spec fuel start b
      else Ok None
  end.

Section options.
(** Whether errno was left at EINVAL before the numbers are read. *)
Context (einval : bool).

Definition permitopen_entry (spec : bytes) : option PermitTCPFwdEntry :=
  match split_address_port (cstr spec) with
  | Some (Some host, Some portstring) =>
      if strcmp_eq portstring (str "*") then Some (mkpermit (Some host) PUBKEY_OPTIONS_ANY_PORT)
      else match m_str_to_uint einval portstring with
           | Some port => if port <=? 65535 then Some (mkpermit (Some host) port) else None
           | None => None
           end
  | _ => None
  end.

Definition permitlisten_entry (spec : bytes) : option PermitTCPFwdEntry :=
  match m_str_to_uint einval (cstr spec) with
  | Some port => if port <=? 65535 then Some (mkpermit None port) else None
  | None => None
  end.

(** The options without an argument, in the order they are tried. *)
Definition flag_options : list (bytes * (PubKeyOptions -> PubKeyOptions)) :=
  [(str "no-port-forwarding", set_no_port_forwarding); (str "no-agent-forwarding", fun o => o); (str "no-X11-forwarding", fun o => o);
   (str "no-pty", set_no_pty); (str "restrict", fun o => set_no_pty (set_no_port_forwarding o))].

Definition late_flag_options : list (bytes * (PubKeyOptions -> PubKeyOptions)) :=
  [(str "no-touch-required", set_no_touch_required); (str "verify-required", set_verify_required)].

Fixpoint match_flags (l : list (bytes * (PubKeyOptions -> PubKeyOptions))) (b : buffer) : outcome (option ((PubKeyOptions -> PubKeyOptions) * buffer)) :=
  match l with
  | [] => Ok None
  | (name, f) :: l => let* r := match_option b name in match r with Some b => Ok (Some (f, b)) | None => match_flags l b end
  end.

(** One option; [None] is [bad_option]. An unknown option leaves the buffer where it is. *)
Definition parse_option (o : PubKeyOptions) (b : buffer) : outcome (option (PubKeyOptions * buffer)) :=
  let* r := match_flags flag_options b in
  match r with Some (f, b) => Ok (Some (f o, b)) | None =>
  let* r := match_option b (str "command=" ++ [QUOTE]) in
  match r with Some b =>
    let* start := buf_getptr b 0 in
    match forced_command o with
    | Some _ => Ok None
    | None =>
        let* c := scan_command (Z.to_nat (buf_len b)) start false b in
        Ok (match c with Some (cmd, b) => Some (set_forced_command (cstr cmd) o, b) | None => None end)
    end
  | None =>
  let* r := match_option b (str "permitopen=" ++ [QUOTE]) in
  match r with Some b =>
    let* start := buf_getptr b 0 in
    let* c := scan_spec (Z.to_nat (buf_len b)) start b in
    Ok (match c with
        | Some (spec, b) => match permitopen_entry spec with Some e => Some (add_permit_open e o, b) | None => None end
        | None => None
        end)
  | None =>
  let* r := match_option b (str "permitlisten=" ++ [QUOTE]) in
  match r with Some b =>
    let* start := buf_getptr b 0 in
    let* c := scan_spec (Z.to_nat (buf_len b)) start b in
    Ok (match c with
        | Some (spec, b) => match permitlisten_entry spec with Some e => Some (add_permit_listen e o, b) | None => None end
        | None => None
        end)
  | None =>
  let* r := match_flags late_flag_options b in
  Ok (match r with Some (f, b) => Some (f o, b) | None => Some (o, b) end)
  end end end end.

Fixpoint parse_options_loop (fuel : nat) (o : PubKeyOptions) (b : buffer) : outcome (option PubKeyOptions) :=
  match fuel with
  | O => Ok (Some o)
  | S fuel =>
      if buf_pos b <? buf_len b then
        let* r := parse_option o b in
        match r with
        | None => Ok None
        | Some (o, b) =>
            if buf_pos b <? buf_len b then
              let* (c, b) := buf_getbyte b in
              if negb (c =? 44) then Ok None else parse_options_loop fuel o b
            else Ok (Some o)
        end
      else Ok (Some o)
  end.

Definition svr_parse_pubkey_options (options_buf : option buffer) : outcome (option PubKeyOptions) :=
  match options_buf with
  | None => Ok (Some no_options)
  | Some b => let* b := buf_setpos b 0 in parse_options_loop (Z.to_nat (buf_len b)) no_options b
  end.
End options.

(** ** Lines *)

(** [buf_getline]: the buffer and what is left of the file; [false] is failure. *)
Fixpoint getline_loop (n : nat) (line : buffer) (truncated : bool) (f : bytes) : outcome (bool * buffer * bytes) :=
  match n with
  | O => Ok (false, line, f)
  | S n =>
      match f with
      | [] => if buf_pos line =? 0 then Ok (false, line, f) else let* line := buf_setpos line 0 in Ok (true, line, f)
      | c :: f =>
          if (c =? 10) || (c =? 13) then let* line := buf_setpos line 0 in Ok (true, line, f)
          else if negb truncated && (buf_len line <? buf_size line) then
            let* line := buf_putbyte line c in getline_loop n line truncated f
          else
            let* line := buf_setlen line 0 in getline_loop n line true f
      end
  end.

Definition buf_getline (line : buffer) (f : bytes) : outcome (bool * buffer * bytes) :=
  let* line := buf_setlen line 0 in
  getline_loop (Z.to_nat DROPBEAR_MAX_LINE_LENGTH) line false f.

(** [cmp_base64_key], without the fingerprint. *)
Definition cmp_base64_key (keyblob : bytes) (algoname : bytes) (line : buffer) : outcome bool :=
  let len := u32 (buf_len line - buf_pos line) in
  if len =? 0 then Ok false
  else
    let* decodekey := buf_new (u32 (len * 2)) in
    let* src := buf_read line len in
    let* p := buf_getwriteptr decodekey (buf_size decodekey) in
    match base64_decode src (len * 2) with
    | Decoded out =>
        let* d := mem_write (buf_data decodekey) p out in
        let* decodekey := buf_incrlen (mkbuf d (buf_len decodekey) (buf_pos decodekey) (buf_size decodekey)) (zlen out) in
        if negb (zlen out =? zlen keyblob) then Ok false
        else
          let* text := buf_read decodekey (buf_len decodekey) in
          if negb (bool_decide (text = keyblob)) then Ok false
          else
            let* (filealgolen, decodekey) := buf_getint decodekey in
            let* filealgo := buf_read decodekey filealgolen in
            Ok ((filealgolen =? zlen algoname) && bool_decide (filealgo = algoname))
    | _ => Ok false
    end.

(** Skip leading whitespace; the flag says the line is a comment. *)
Fixpoint skip_space (fuel : nat) (line : buffer) : outcome (bool * buffer) :=
  match fuel with
  | O => Ok (false, line)
  | S fuel =>
      if buf_pos line <? buf_len line then
        let* (c, line) := buf_getbyte line in
        if (c =? SPACE) || (c =? TAB) then skip_space fuel line
        else if c =? 35 then Ok (true, line)
        else let* line := buf_decrpos line 1 in Ok (false, line)
      else Ok (false, line)
  end.

(** The length of the options, and the buffer after the space behind them. *)
Fixpoint options_end (fuel : nat) (quoted escape : bool) (options_len : Z) (line : buffer) : outcome (Z * buffer) :=
  match fuel with
  | O => Ok (options_len, line)
  | S fuel =>
      if buf_pos line <? buf_len line then
        let* (c, line) := buf_getbyte line in
        if negb quoted && ((c =? SPACE) || (c =? TAB)) then Ok (options_len, line)
        else
          let escape := negb escape && (c =? BACKSLASH) in
          let quoted := if negb escape && (c =? QUOTE) then negb quoted else quoted in
          options_end fuel quoted escape (options_len + 1) line
      else Ok (options_len, line)
  end.

(** How many bytes come before a space or the end of the line. *)
Fixpoint word_len (fuel : nat) (len : Z) (line : buffer) : outcome (Z * buffer) :=
  match fuel with
  | O => Ok (len, line)
  | S fuel =>
      if buf_pos line <? buf_len line then
        let* (c, line) := buf_getbyte line in
        if c =? SPACE then Ok (len, line) else word_len fuel (len + 1) line
      else Ok (len, line)
  end.

Definition ascii_isalnum (c : Z) : bool := ((97 <=? c) && (c <=? 122)) || ((65 <=? c) && (c <=? 90)) || ((48 <=? c) && (c <=? 57)).

Definition info_char (c : Z) : bool := ascii_isalnum c || existsb (Z.eqb c) (str ".,_-+@").

Fixpoint info_len (fuel : nat) (len : Z) (line : buffer) : outcome (Z * buffer) :=
  match fuel with
  | O => Ok (len, line)
  | S fuel =>
      if buf_pos line <? buf_len line then
        let* (c, line) := buf_getbyte line in
        if c =? SPACE then Ok (len, line) else if negb (info_char c) then Ok (0, line) else info_len fuel (len + 1) line
      else Ok (len, line)
  end.

(** Past the options to the name of the algorithm: [None] when the line does not have it
    there, else the options and the buffer. *)
Definition find_algo (algo : bytes) (line : buffer) : outcome (option (option buffer * buffer)) :=
  let algolen := zlen algo in
  let n := Z.to_nat (buf_len line) in
  if buf_len line <? u32 (buf_pos line + algolen + 3) then Ok None
  else
    let* text := buf_read line algolen in
    if strncmp_eq text algo (Z.to_nat algolen) then Ok (Some (None, line))
    else
      let* (is_comment, line) := skip_space n line in
      if is_comment then Ok None
      else
        let* start := buf_getptr line 1 in
        let* (options_len, line) := options_end n false false 0 line in
        let* b := buf_new options_len in
        let* options := mem_read (buf_data line) start options_len in
        let* b := buf_putbytes b options options_len in
        if buf_len line <? u32 (buf_pos line + algolen + 3) then Ok None
        else
          let* text := buf_read line algolen in
          if strncmp_eq text algo (Z.to_nat algolen) then Ok (Some (Some b, line)) else Ok None.

(** [checkpubkey_line]: the options of the line when its key is [keyblob]. *)
Definition checkpubkey_line (einval : bool) (line : buffer) (algo keyblob : bytes) : outcome (option PubKeyOptions) :=
  if (buf_len line <? MIN_AUTHKEYS_LINE) || (MAX_AUTHKEYS_LINE <? buf_len line) then Ok None
  else
    let* text := mem_read (buf_data line) 0 (buf_len line) in
    if existsb (Z.eqb 0) text then Ok None
    else
      let* r := find_algo algo line in
      match r with
      | None => Ok None
      | Some (options_buf, line) =>
          let n := Z.to_nat (buf_len line) in
          let* line := buf_incrpos line (zlen algo) in
          let* (c, line) := buf_getbyte line in
          if negb (c =? SPACE) then Ok None
          else
            let pos := buf_pos line in
            let* (len, line) := word_len n 0 line in
            let infopos := buf_pos line in
            let* (infolen, line) := info_len n 0 line in
            let* (info_str, line) :=
              if 0 <? infolen then
                let* line := buf_setpos line infopos in
                let* info := buf_read line infolen in
                Ok (Some info, line)
              else Ok (None, line) in
            let* line := buf_setpos line pos in
            let* line := buf_setlen line (buf_pos line + len) in
            let* same := cmp_base64_key keyblob algo line in
            if same then
              let* o := svr_parse_pubkey_options einval options_buf in
              Ok (match o with Some o => Some (set_info_env info_str o) | None => None end)
            else Ok None
      end.

Fixpoint checkpubkey_loop (einval : bool) (n : nat) (line : buffer) (f algo keyblob : bytes) : outcome (option PubKeyOptions) :=
  match n with
  | O => Ok None
  | S n =>
      let* (ok, line, f) := buf_getline line f in
      if negb ok then Ok None
      else
        let* r := checkpubkey_line einval line algo keyblob in
        match r with Some o => Ok (Some o) | None => checkpubkey_loop einval n line f algo keyblob end
  end.

(** [checkpubkey]; [f] is the contents of the file, if it could be opened. *)
Definition checkpubkey (einval : bool) (f : option bytes) (algo keyblob : bytes) : outcome (option PubKeyOptions) :=
  match f with
  | None => Ok None
  | Some f => let* line := buf_new MAX_AUTHKEYS_LINE in checkpubkey_loop einval MAX_AUTHKEYS_LINE_COUNT line f algo keyblob
  end.
