(* ===== verification/AuthKeysSafety.v ===== *)
(** * Authorized keys: what is accepted

    Reading and matching the file of authorized keys never leaves a buffer, whatever the file
    holds, and a key is accepted only when a line of the file names its algorithm and encodes
    exactly that key. *)

From S2P Require Import Prelude Bytes CString Base64 Buffer AuthKeys.

(** ** Reading within a line *)

Lemma view_byte b bs p sz : view b bs p sz -> p < zlen bs ->
  exists v b', bs !! Z.to_nat p = Some v /\ buf_getbyte b = Ok (v, b') /\ view b' bs (p + 1) sz.
Proof.
  intros Hv Hp. pose proof (view_bounds _ _ _ _ Hv). destruct (bs !! Z.to_nat p) as [v|] eqn:E.
  - destruct (view_getbyte _ _ _ _ _ Hv E) as (b' & ? & ?). by exists v, b'.
  - apply lookup_ge_None in E. unfold zlen in *. lia.
Qed.

(** The buffer moved on within the same text. *)
Definition moved (bs : bytes) (p sz : Z) (b : buffer) : Prop := exists q, p <= q /\ view b bs q sz.

Lemma view_at_end b bs p sz : view b bs p sz -> (buf_pos b <? buf_len b) = (p <? zlen bs).
Proof. intros Hv. rewrite (view_len _ _ _ _ Hv). by destruct Hv as [_ _ -> _]. Qed.

Ltac at_byte Hv :=
  rewrite (view_at_end _ _ _ _ Hv);
  match type of Hv with view _ ?bs ?p _ =>
    destruct (Z.ltb_spec p (zlen bs));
    [let v := fresh "v" in let b' := fresh "b'" in let Hb := fresh "Hb" in let Hg := fresh "Hg" in let H := fresh "Hv'" in
     destruct (view_byte _ _ _ _ Hv) as (v & b' & Hb & Hg & H); [done|]; rewrite Hg; cbn [obind]|] end.

Lemma skip_space_view fuel b bs p sz : view b bs p sz ->
  opost (fun '(_, b') => moved bs p sz b') (skip_space fuel b).
Proof.
  revert b p. induction fuel as [|fuel IH]; intros b p Hv; [cbn; exists p; by split|]. cbn [skip_space].
  at_byte Hv; [|cbn; exists p; by split]. pose proof (view_bounds _ _ _ _ Hv). destruct (_ || _).
  - eapply opost_mono; [by eapply IH|]. intros [c b2] _ (q & ? & ?). exists q. split; [lia|done].
  - destruct (v =? 35); [exists (p + 1); split; [lia|done]|]. unfold buf_decrpos. pose proof Hv' as [Hw Hu Hp Hs].
    rewrite Hp, (proj2 (Z.ltb_ge _ _)) by lia. cbn. exists p. split; [lia|]. destruct Hw. split; cbn; try done; [|lia]. split; cbn; try done. lia.
Qed.

Lemma options_end_view fuel quoted escape b bs p sz len : view b bs p sz -> 0 <= len ->
  opost (fun '(n, b') => exists q, p <= q /\ view b' bs q sz /\ len <= n <= len + (q - p)) (options_end fuel quoted escape len b).
Proof.
  revert quoted escape b p len. induction fuel as [|fuel IH]; intros quoted escape b p len Hv Hl; [exists p; split; [lia|]; split; [done|lia]|]. cbn [options_end].
  at_byte Hv; [|exists p; split; [lia|]; split; [done|lia]]. destruct (_ && (_ || _)); [exists (p + 1); split; [lia|]; split; [done|lia]|].
  eapply opost_mono; [eapply IH; [done|lia]|]. intros [n b2] _ (q & ? & ? & ?). exists q. split; [lia|]. split; [done|lia].
Qed.

(** The word up to a space or the end of the text. *)
Lemma word_len_view fuel b bs p sz len : view b bs p sz -> (Z.to_nat (zlen bs - p) <= fuel)%nat ->
  opost (fun '(n, b') => exists q w, p <= q /\ view b' bs q sz /\ n = len + zlen w /\ Forall (fun c => c <> SPACE) w /\
           (drop (Z.to_nat p) bs = w \/ exists post, drop (Z.to_nat p) bs = w ++ SPACE :: post)) (word_len fuel len b).
Proof.
  revert b p len. induction fuel as [|fuel IH]; intros b p len Hv Hf; pose proof (view_bounds _ _ _ _ Hv).
  - cbn. exists p, []. rewrite zlen_nil. split; [lia|]. split; [done|]. split; [lia|]. split; [done|]. left. apply drop_ge. unfold zlen in *. lia.
  - cbn [word_len]. at_byte Hv; [|exists p, []; rewrite zlen_nil; split; [lia|]; split; [done|]; split; [lia|]; split; [done|left; apply drop_ge; unfold zlen in *; lia]].
    assert (Hd : drop (Z.to_nat p) bs = v :: drop (Z.to_nat (p + 1)) bs).
    { rewrite (drop_S _ v) by done. do 2 f_equal. lia. }
    destruct (Z.eqb_spec v SPACE) as [->|Hne].
    + exists (p + 1), []. rewrite zlen_nil. split; [lia|]. split; [done|]. split; [lia|]. split; [done|]. right. by eexists.
    + eapply opost_mono; [eapply IH; [done|lia]|]. intros [n b2] _ (q & w & Hq & Hv2 & -> & Hw & Hcase). exists q, (v :: w).
      rewrite zlen_cons, Hd. split; [lia|]. split; [done|]. split; [lia|]. split; [by constructor|].
      destruct Hcase as [->|[post ->]]; [by left|right; by exists post].
Qed.

Lemma info_len_view fuel b bs p sz len : view b bs p sz -> 0 <= len ->
  opost (fun '(n, b') => moved bs p sz b' /\ 0 <= n <= len + (zlen bs - p)) (info_len fuel len b).
Proof.
  revert b p len. induction fuel as [|fuel IH]; intros b p len Hv Hl; pose proof (view_bounds _ _ _ _ Hv).
  - cbn. split; [exists p; by split|lia].
  - cbn [info_len]. at_byte Hv; [|cbn; split; [exists p; by split|lia]].
    destruct (v =? SPACE); [cbn; split; [exists (p + 1); split; [lia|done]|lia]|].
    destruct (negb _); [cbn; split; [exists (p + 1); split; [lia|done]|lia]|].
    eapply opost_mono; [eapply IH; [done|lia]|]. intros [n b2] _ [(q & ? & ?) ?]. split; [exists q; split; [lia|done]|lia].
Qed.

Lemma view_read_opost b bs p sz n : view b bs p sz -> 0 <= n -> opost (fun x => x = sub bs p n /\ p + n <= zlen bs) (buf_read b n).
Proof.
  intros Hv Hn. rewrite buf_read_eq by (done || by destruct Hv). destruct (Z.ltb_spec (buf_len b) (buf_pos b + n)); [done|].
  rewrite (view_len _ _ _ _ Hv) in *. pose proof (view_bounds _ _ _ _ Hv). pose proof Hv as [Hw Hu Hp Hs]. rewrite Hp in *.
  pose proof (view_read _ _ _ _ n Hv Hn ltac:(lia)) as Hr. rewrite buf_read_eq, (view_len _ _ _ _ Hv), Hp, (proj2 (Z.ltb_ge _ _)) in Hr by (done || lia).
  injection Hr as Hr. cbn. by rewrite Hr.
Qed.

Lemma view_setpos_opost b bs p sz q : view b bs p sz -> 0 <= q -> opost (fun b' => view b' bs q sz) (buf_setpos b q).
Proof.
  intros Hv Hq. destruct (decide (q <= zlen bs)).
  - destruct (view_setpos _ _ _ _ q Hv) as (b' & -> & ?); [lia|done].
  - unfold buf_setpos. rewrite (view_len _ _ _ _ Hv), (proj2 (Z.ltb_lt _ _)) by lia. done.
Qed.

Lemma view_incrpos_opost b bs p sz n : view b bs p sz -> 0 <= n -> opost (fun b' => view b' bs (p + n) sz) (buf_incrpos b n).
Proof.
  intros Hv Hn. destruct (decide (p + n <= zlen bs)).
  - by destruct (view_incrpos _ _ _ _ n Hv) as (b' & -> & ?).
  - pose proof (view_bounds _ _ _ _ Hv). pose proof (view_len _ _ _ _ Hv) as Hl. destruct Hv as [Hw _ Hp _]. rewrite buf_incrpos_eq by done. rewrite Hl, Hp, (proj2 (Z.ltb_lt _ _)) by lia. done.
Qed.

Lemma view_getbyte_opost b bs p sz : view b bs p sz -> opost (fun '(v, b') => bs !! Z.to_nat p = Some v /\ view b' bs (p + 1) sz) (buf_getbyte b).
Proof.
  intros Hv. destruct (decide (p < zlen bs)).
  - destruct (view_byte _ _ _ _ Hv) as (v & b' & ? & -> & ?); done.
  - pose proof (view_len _ _ _ _ Hv) as Hl. pose proof (view_bounds _ _ _ _ Hv). unfold buf_getbyte. rewrite Hl. destruct Hv as [_ _ -> _]. rewrite (proj2 (Z.leb_le _ _)) by lia. done.
Qed.

(** ** Finding the algorithm *)

Definition algo_at (algo bs : bytes) (q : Z) : Prop := sub bs q (zlen algo) = algo /\ q + zlen algo + 3 <= zlen bs.

Lemma nonul_sub bs p n : nonul bs -> nonul (sub bs p n).
Proof. intros H. unfold sub. by apply Forall_take, Forall_drop. Qed.

(** The two places where the name of the algorithm is looked for. *)
Lemma algo_here algo b bs p sz {A} (k1 k2 : outcome A) (Q : A -> Prop) : view b bs p sz -> nonul bs -> nonul algo -> zlen algo <= 1000 ->
  (algo_at algo bs p -> opost Q k1) -> opost Q k2 ->
  opost Q (let* text := buf_read b (zlen algo) in if strncmp_eq text algo (Z.to_nat (zlen algo)) then k1 else k2) \/ zlen bs < p + zlen algo + 3.
Proof.
  intros Hv Hbs Ha Hlen H1 H2. destruct (decide (p + zlen algo + 3 <= zlen bs)); [|right; lia]. left. pose proof (zlen_nonneg algo). pose proof (view_bounds _ _ _ _ Hv).
  eapply opost_bind; [by eapply view_read_opost|]. intros text _ [-> _]. destruct (strncmp_eq _ _ _) eqn:E; [|done]. apply H1. split; [|done].
  apply strncmp_eq_iff in E; [done|by apply nonul_sub|done| |unfold zlen; lia].
  pose proof (zlen_sub bs p (zlen algo) ltac:(lia) ltac:(lia) ltac:(lia)). unfold zlen in *. lia.
Qed.

Lemma room_u32 p n : 0 <= p <= BUF_MAX_SIZE -> 0 <= n <= 1000 -> u32 (p + n + 3) = p + n + 3.
Proof. unfold BUF_MAX_SIZE. intros. rewrite u32_small; lia. Qed.

Lemma find_algo_view algo b bs p sz : view b bs p sz -> nonul bs -> nonul algo -> zlen algo <= 1000 ->
  opost (fun r => match r with
                  | None => True
                  | Some (ob, b') => exists q, p <= q /\ view b' bs q sz /\ algo_at algo bs q /\ match ob with Some o => wf o | None => True end
                  end) (find_algo algo b).
Proof.
  intros Hv Hbs Ha Hlen. pose proof (view_bounds _ _ _ _ Hv). pose proof (zlen_nonneg algo). unfold find_algo.
  rewrite (view_len _ _ _ _ Hv). destruct Hv as [Hw Hu Hp Hs] eqn:E. clear E. rewrite Hp, room_u32 by lia.
  destruct (Z.ltb_spec (zlen bs) (p + zlen algo + 3)); [done|].
  match goal with |- opost ?Q (let* text := _ in if _ then ?k1 else ?k2) => destruct (algo_here algo b bs p sz k1 k2 Q Hv Hbs Ha Hlen) as [G|G]; [| |exact G|lia] end.
  - intros Hat. cbn. exists p. split; [lia|]. by split.
  - eapply opost_bind; [by eapply skip_space_view|]. intros [c b1] _ (q1 & Hq1 & Hv1). destruct c; [done|].
    eapply opost_bind with (P := fun s => s = q1).
    { destruct Hv1 as [Hw1 _ Hp1 _]. rewrite buf_getptr_eq by done. destruct (_ <? _); [done|]. cbn. done. }
    intros st _ ->. eapply opost_bind; [by eapply options_end_view|]. intros [n b2] _ (q2 & Hq2 & Hv2 & Hn).
    pose proof (view_bounds _ _ _ _ Hv2). pose proof (view_bounds _ _ _ _ Hv1).
    eapply opost_bind; [apply buf_new_post; lia|]. intros ob _ (Hob & _).
    eapply opost_bind with (P := fun x => bytes_ok x /\ zlen x = n).
    { destruct Hv2 as [Hw2 Hu2 Hp2 Hs2]. pose proof Hw2 as []. rewrite mem_read_in by lia. cbn. split; [by apply bytes_ok_sub|apply zlen_sub; lia]. }
    intros x _ [Hx Hxn]. eapply opost_bind; [by apply buf_putbytes_post|]. intros ob2 _ Hob2. rewrite (view_len _ _ _ _ Hv2).
    assert (buf_pos b2 = q2) as -> by apply Hv2. rewrite room_u32 by lia. destruct (Z.ltb_spec (zlen bs) (q2 + zlen algo + 3)); [done|].
    match goal with |- opost ?Q (let* text := _ in if _ then ?k1 else ?k2) => destruct (algo_here algo b2 bs q2 sz k1 k2 Q Hv2 Hbs Ha Hlen) as [G|G]; [|done|exact G|lia] end.
    intros Hat. cbn. exists q2. split; [lia|]. by split.
Qed.

(** ** Comparing the key *)

Lemma store_load_bytes l : bytes_ok l -> zlen l = 4 -> store32h (load32h_bytes l) = l.
Proof.
  intros Hl Hn. unfold zlen in Hn. destruct l as [|a [|b [|c [|d [|]]]]]; try (cbn in Hn; lia).
  do 4 apply Forall_cons in Hl as [? Hl]. by apply store_load32h.
Qed.

Definition key_of (algo keyblob : bytes) : Prop := exists rest, keyblob = ssh_string algo ++ rest.

Lemma cmp_base64_key_view algo keyblob b bs p sz : view b bs p sz -> zlen bs <= 100000 -> zlen algo <= 1000 ->
  opost (fun r => r = true -> base64_decode (drop (Z.to_nat p) bs) (2 * (zlen bs - p)) = Decoded keyblob /\ key_of algo keyblob) (cmp_base64_key keyblob algo b).
Proof.
  intros Hv Hbs Ha. pose proof (view_bounds _ _ _ _ Hv). pose proof (view_len _ _ _ _ Hv) as Hl. unfold cmp_base64_key. assert (buf_pos b = p) as -> by apply Hv.
  rewrite Hl, (u32_small (zlen bs - p)) by lia. destruct (Z.eqb_spec (zlen bs - p) 0); [done|]. rewrite (u32_small ((zlen bs - p) * 2)) by lia.
  destruct (view_new ((zlen bs - p) * 2)) as (d & -> & Hd & _); [unfold BUF_MAX_SIZE; lia|]. cbn [obind].
  eapply opost_bind; [eapply view_read_opost; [done|lia]|]. intros src _ [-> _].
  assert (buf_size d = (zlen bs - p) * 2) as -> by apply Hd. rewrite (view_getwriteptr _ _ _ _ _ Hd) by lia. cbn [obind].
  assert (sub bs p (zlen bs - p) = drop (Z.to_nat p) bs) as ->.
  { unfold sub. apply take_ge. rewrite length_drop. unfold zlen in *. lia. }
  rewrite (Z.mul_comm (zlen bs - p)). destruct (base64_decode _ _) as [out| |] eqn:Eb; [|done..]. apply base64_decode_bounds in Eb as Hout; [|lia]. destruct Hout as [Hol Hout].
  pose proof (zlen_nonneg out). destruct Hd as [Hwd Hud Hpd Hsd]. pose proof Hwd as [].
  rewrite mem_write_in by lia. cbn [obind].
  eapply opost_bind with (P := fun d' => view d' out 0 ((zlen bs - p) * 2)).
  { pose proof (view_len _ _ _ _ (view_self _ Hwd)) as Hdl. rewrite Hud in Hdl. rewrite Hpd, zlen_nil in *.
    set (d1 := mkbuf _ _ _ _). assert (Hw1 : wf d1).
    { split; cbn; try lia; [by apply bytes_ok_blit|rewrite zlen_blit; lia]. }
    rewrite buf_incrlen_eq by done. cbn [buf_len buf_size buf_data buf_pos d1]. rewrite Hdl. destruct (_ <? _); [done|]. cbn. split; cbn; try done.
    - destruct Hw1. cbn in *. split; cbn; try done; lia.
    - unfold used. cbn. apply sub_blit_same; lia.
    - lia. }
  intros d' _ Hd'. destruct (Z.eqb_spec (zlen out) (zlen keyblob)); [|done]. cbn [negb].
  rewrite (view_len _ _ _ _ Hd'). eapply opost_bind; [eapply view_read_opost; [done|lia]|].
  intros text _ [-> _]. rewrite sub_all. destruct (bool_decide_reflect (out = keyblob)) as [->|]; [|done]. cbn [negb].
  destruct (decide (0 + 4 <= zlen keyblob)) as [H4|H4].
  2:{ pose proof (view_len _ _ _ _ Hd'). destruct Hd' as [Hw' _ Hp' _]. unfold buf_getint. rewrite buf_read_eq, Hp', (proj2 (Z.ltb_lt _ _)) by (done || lia). done. }
  destruct (view_getint _ _ _ _ Hd' H4) as (d2 & -> & Hd2). cbn [obind]. set (fl := load32h_bytes _).
  assert (Hn : is_u32 fl) by (by apply load32h_bytes_u32, bytes_ok_sub).
  eapply opost_bind; [eapply view_read_opost; [done|apply Hn]|]. intros fa _ [-> Hfa]. cbn. intros [Hna Hal]%andb_prop. apply Z.eqb_eq in Hna. apply bool_decide_eq_true in Hal.
  split; [done|]. exists (drop (Z.to_nat (4 + zlen algo)) keyblob). unfold ssh_string. rewrite Hna in *. pose proof (zlen_nonneg algo).
  assert (Hs : store32h (zlen algo) = sub keyblob 0 4).
  { rewrite <- Hna. unfold fl. apply store_load_bytes; [by apply bytes_ok_sub|apply zlen_sub; lia]. }
  change (0 + 4) with 4 in Hal. rewrite Hs, <- Hal at 1. rewrite <- sub_split by lia. rewrite <- take_sub. by rewrite take_drop.
Qed.

(** ** A line *)

(** The line names the algorithm and then, as a word, encodes the key. *)
Definition key_line (algo keyblob line : bytes) : Prop :=
  exists pre b64 post,
    line = pre ++ algo ++ [SPACE] ++ b64 ++ post /\ (post = [] \/ exists r, post = SPACE :: r) /\ Forall (fun c => c <> SPACE) b64 /\
    base64_decode b64 (2 * zlen b64) = Decoded keyblob /\ key_of algo keyblob.

Lemma opost_True_bind {A B} (m : outcome A) (k : A -> outcome B) Q : defined m -> (forall a, m = Ok a -> opost Q (k a)) -> opost Q (obind m k).
Proof. destruct m; naive_solver. Qed.

Lemma existsb_nonul l : existsb (Z.eqb 0) l = false -> nonul l.
Proof.
  induction l as [|b l IH]; cbn; intros H; [by constructor|]. apply orb_false_iff in H as [Hb Hl]. constructor; [|by apply IH].
  intros ->. done.
Qed.

(** ** Options *)

Lemma scan_command_view fuel start escaped b bs p sz : view b bs p sz -> 0 <= start <= p ->
  opost (fun r => match r with Some (_, b') => wf b' | None => True end) (scan_command fuel start escaped b).
Proof.
  revert escaped b p. induction fuel as [|fuel IH]; intros escaped b p Hv Hst; [done|]. cbn [scan_command].
  at_byte Hv; [|done]. destruct (_ && _); [|eapply IH; [done|lia]].
  pose proof (view_bounds _ _ _ _ Hv'). rewrite (view_getptr _ _ _ _ 0 Hv') by lia. cbn [obind]. destruct Hv' as [Hw Hu Hp Hs]. pose proof Hw as [].
  rewrite mem_read_in by lia. done.
Qed.

Lemma scan_spec_view fuel start b bs p sz : view b bs p sz -> 0 <= start <= p ->
  opost (fun r => match r with Some (_, b') => wf b' | None => True end) (scan_spec fuel start b).
Proof.
  revert b p. induction fuel as [|fuel IH]; intros b p Hv Hst; [done|]. cbn [scan_spec].
  at_byte Hv; [|done]. destruct (_ =? _); [|eapply IH; [done|lia]].
  pose proof (view_bounds _ _ _ _ Hv'). rewrite (view_getptr _ _ _ _ 0 Hv') by lia. cbn [obind]. destruct Hv' as [Hw Hu Hp Hs]. pose proof Hw as [].
  rewrite mem_read_in by lia. done.
Qed.

Definition maybe {A} (P : A -> buffer -> Prop) (r : option (A * buffer)) : Prop := match r with Some (a, b) => P a b | None => True end.

Lemma match_option_wf b name : wf b -> opost (fun r => match r with Some b' => wf b' | None => True end) (match_option b name).
Proof.
  intros Hb. unfold match_option. pose proof (zlen_nonneg name). destruct (_ <? _); [done|].
  eapply opost_bind; [by apply buf_read_post|]. intros text _ _. destruct (strncasecmp_eq _ _ _); [|done].
  eapply opost_bind; [by apply buf_incrpos_post|]. by intros b' _ ?.
Qed.

Lemma match_flags_wf l b : wf b -> opost (fun r => match r with Some (_, b') => wf b' | None => True end) (match_flags l b).
Proof.
  intros Hb. induction l as [|[name f] l IH]; [done|]. cbn [match_flags]. eapply opost_bind; [by apply match_option_wf|].
  by intros [b'|] _ ?.
Qed.

Lemma parse_option_wf einval o b : wf b -> opost (fun r => match r with Some (_, b') => wf b' | None => True end) (parse_option einval o b).
Proof.
  intros Hb. unfold parse_option. eapply opost_bind; [by apply match_flags_wf|]. intros [[f b1]|] _ H1; [done|].
  eapply opost_bind; [by apply match_option_wf|]. intros [b1'|] _ H2.
  { rewrite (view_getptr _ _ _ _ 0 (view_self _ H2)) by (pose proof (view_bounds _ _ _ _ (view_self _ H2)); lia). cbn [obind].
    destruct (forced_command o); [done|]. eapply opost_bind; [eapply scan_command_view; [by apply view_self|]|]; [destruct H2; lia|].
    by intros [[c b2]|] _ ?. }
  eapply opost_bind; [by apply match_option_wf|]. intros [b1'|] _ H3.
  { rewrite (view_getptr _ _ _ _ 0 (view_self _ H3)) by (pose proof (view_bounds _ _ _ _ (view_self _ H3)); lia). cbn [obind].
    eapply opost_bind; [eapply scan_spec_view; [by apply view_self|]|]; [destruct H3; lia|].
    intros [[c b2]|] _ ?; [|done]. cbn. by destruct (permitopen_entry _ _). }
  eapply opost_bind; [by apply match_option_wf|]. intros [b1'|] _ H4.
  { rewrite (view_getptr _ _ _ _ 0 (view_self _ H4)) by (pose proof (view_bounds _ _ _ _ (view_self _ H4)); lia). cbn [obind].
    eapply opost_bind; [eapply scan_spec_view; [by apply view_self|]|]; [destruct H4; lia|].
    intros [[c b2]|] _ ?; [|done]. cbn. by destruct (permitlisten_entry _ _). }
  eapply opost_bind; [by apply match_flags_wf|]. by intros [[f b2]|] _ ?.
Qed.

Lemma parse_options_defined einval o : match o with Some b => wf b | None => True end -> defined (svr_parse_pubkey_options einval o).
Proof.
  destruct o as [b|]; [|done]. intros Hb. unfold svr_parse_pubkey_options. apply (opost_defined (fun _ => True)).
  eapply opost_bind; [by apply buf_setpos_post|]. intros b1 _ [H1 _]. generalize no_options. generalize (Z.to_nat (buf_len b1)). intros n. revert b1 H1.
  induction n as [|n IH]; intros b1 H1 o; [done|]. cbn [parse_options_loop]. destruct (_ <? _); [|done].
  eapply opost_bind; [by apply parse_option_wf|]. intros [[o' b2]|] _ H2; [|done]. destruct (_ <? _); [|done].
  eapply opost_bind; [by apply buf_getbyte_post|]. intros [c b3] _ [_ H3]. destruct (negb _); [done|]. by apply IH.
Qed.

(** ** Matching a line *)

Lemma checkpubkey_line_view einval algo keyblob b bs sz : view b bs 0 sz -> nonul algo -> zlen algo <= 1000 ->
  opost (fun r => match r with Some _ => key_line algo keyblob bs | None => True end) (checkpubkey_line einval b algo keyblob).
Proof.
  intros Hv Ha Hal. pose proof (view_bounds _ _ _ _ Hv). unfold checkpubkey_line. rewrite (view_len _ _ _ _ Hv). pose proof (zlen_nonneg algo).
  destruct (_ || _) eqn:El; [done|]. apply orb_false_iff in El as [El1 El2]. apply Z.ltb_ge in El1, El2. unfold MAX_AUTHKEYS_LINE in El2.
  pose proof Hv as [Hw Hu Hp Hs]. pose proof Hw as []. rewrite (view_len _ _ _ _ Hv) in *. rewrite mem_read_in by lia. cbn [obind].
  assert (sub (buf_data b) 0 (zlen bs) = bs) as Hbs by (rewrite <- Hu at 2; unfold used; by rewrite (view_len _ _ _ _ Hv)). rewrite Hbs.
  destruct (existsb _ bs) eqn:Enul; [done|]. apply existsb_nonul in Enul.
  eapply opost_bind; [by apply (find_algo_view algo b bs 0 sz)|]. intros [[ob b1]|] _ H1; [|done]. destruct H1 as (q & Hq & Hv1 & [Hat1 Hat2] & Hob).
  rewrite (view_len _ _ _ _ Hv1). eapply opost_bind; [by apply (view_incrpos_opost _ _ _ _ (zlen algo) Hv1)|]. intros b2 _ Hv2.
  eapply opost_bind; [apply (view_getbyte_opost _ _ _ _ Hv2)|]. intros [c b3] _ [Hc Hv3]. destruct (Z.eqb_spec c SPACE) as [->|]; [|done]. cbn [negb].
  assert (buf_pos b3 = q + zlen algo + 1) as -> by apply Hv3. set (pos := q + zlen algo + 1) in *. pose proof (view_bounds _ _ _ _ Hv3).
  eapply opost_bind; [apply (word_len_view _ _ _ _ _ 0 Hv3); lia|]. intros [len b4] _ (q4 & w & Hq4 & Hv4 & Hlen & Hw4 & Hcase).
  assert (buf_pos b4 = q4) as -> by apply Hv4. pose proof (view_bounds _ _ _ _ Hv4).
  eapply opost_bind; [apply (info_len_view _ _ _ _ _ 0 Hv4); lia|]. intros [il b5] _ [(q5 & Hq5 & Hv5) Hil].
  eapply (opost_bind (fun '(_, b6) => exists q6, view b6 bs q6 sz)).
  { destruct (0 <? il); [|by exists q5]. eapply opost_bind; [apply (view_setpos_opost _ _ _ _ q4 Hv5); lia|]. intros b6 _ Hv6.
    eapply opost_bind; [apply (view_read_opost _ _ _ _ il Hv6); lia|]. intros x _ _. by exists q4. }
  intros [info b6] _ [q6 Hv6]. eapply opost_bind; [apply (view_setpos_opost _ _ _ _ pos Hv6); lia|]. intros b7 _ Hv7.
  assert (buf_pos b7 = pos) as -> by apply Hv7. rewrite Z.add_0_l in Hlen. subst len.
  assert (Hwb : zlen w <= zlen bs - pos).
  { assert (zlen (drop (Z.to_nat pos) bs) = zlen bs - pos) by (unfold zlen in *; rewrite length_drop; lia).
    destruct Hcase as [E|[post E]]; rewrite E in *; [lia|]. rewrite zlen_app, zlen_cons in *. pose proof (zlen_nonneg post). lia. }
  pose proof (zlen_nonneg w).
  destruct (view_setlen _ _ _ _ (pos + zlen w) Hv7) as (b8 & ext & -> & Hv8 & Hext); [lia|]. cbn [obind]. rewrite Z.max_l in Hext by lia.
  destruct ext; [|unfold zlen in Hext; cbn in Hext; lia]. rewrite app_nil_r, Z.min_l in Hv8 by lia.
  assert (Ht : zlen (take (Z.to_nat (pos + zlen w)) bs) = pos + zlen w) by (rewrite zlen_take; lia).
  eapply opost_bind; [apply (cmp_base64_key_view algo keyblob _ _ _ _ Hv8); lia|]. intros [] _ Hsame; [|done].
  apply opost_True_bind; [by apply parse_options_defined|]. intros o _. destruct o; [|done]. cbn. destruct (Hsame eq_refl) as [Hdec Hkey].
  assert (exists post, drop (Z.to_nat pos) bs = w ++ post /\ (post = [] \/ exists r, post = SPACE :: r)) as (post & Hd & Hpost).
  { destruct Hcase as [->|[post ->]]; [exists []; rewrite app_nil_r; auto|exists (SPACE :: post); eauto]. }
  assert (Hw8 : drop (Z.to_nat pos) (take (Z.to_nat (pos + zlen w)) bs) = w).
  { rewrite skipn_firstn_comm, Hd. unfold zlen. replace (_ - _)%nat with (length w) by lia. by rewrite take_app_length. }
  rewrite Hw8, Ht in Hdec. exists (take (Z.to_nat q) bs), w, post. split; [|split; [done|]; split; [done|]; split; [|done]].
  - apply (f_equal (app (sub bs 0 pos))) in Hd. rewrite <- take_sub, take_drop in Hd. rewrite Hd at 1. rewrite take_sub. unfold pos.
    replace (q + zlen algo + 1) with (q + (zlen algo + 1)) by lia. rewrite !sub_split by lia. rewrite !Z.add_0_l, Hat1, <- take_sub, <- !app_assoc. do 2 f_equal.
    unfold sub. rewrite (drop_S _ SPACE) by done. done.
  - rewrite <- Hdec. f_equal. lia.
Qed.

(** ** Lines of the file *)

(** The text between line ends, [acc] being what the current line has so far. *)
Fixpoint lines_from (acc f : bytes) : list bytes :=
  match f with
  | [] => [acc]
  | c :: f => if (c =? 10) || (c =? 13) then acc :: lines_from [] f else lines_from (acc ++ [c]) f
  end.

Definition lines (f : bytes) : list bytes := lines_from [] f.

(** What [buf_getline] leaves: a line of the file or, for one that is too long, nothing. *)
Definition line_read (sz : Z) (acc f : bytes) (r : bool * buffer * bytes) : Prop :=
  let '(ok, line, f') := r in
  ok = true -> exists text, view line text 0 sz /\ (text = [] \/ text ∈ lines_from acc f) /\ bytes_ok f' /\
    forall acc' l, l <> [] -> l ∈ lines f' -> l ∈ lines_from acc' f.

Lemma line_read_cons sz acc c f r : (c =? 10) || (c =? 13) = false -> line_read sz (acc ++ [c]) f r -> line_read sz acc (c :: f) r.
Proof.
  intros Hc. destruct r as [[ok line] f']. intros H ->. destruct (H eq_refl) as (text & Hv & Ht & Hf & Hl). exists text. cbn [lines_from]. rewrite Hc.
  split; [done|]. split; [done|]. split; [done|]. intros acc' l Hn Hin. by apply Hl.
Qed.

Lemma view_reset b bs p sz : view b bs p sz -> opost (fun b' => view b' [] 0 sz) (buf_setlen b 0).
Proof.
  intros Hv. pose proof (view_bounds _ _ _ _ Hv). destruct (view_setlen _ _ _ _ 0 Hv) as (b' & ext & -> & Hv' & Hext); [lia|]. cbn.
  destruct ext; [|rewrite zlen_cons in Hext; pose proof (zlen_nonneg ext); lia]. rewrite app_nil_r in Hv'. change (Z.to_nat 0) with 0%nat in Hv'. cbn in Hv'.
  by replace (Z.min p 0) with 0 in Hv' by lia.
Qed.

Lemma getline_loop_read n truncated b acc sz f : view b acc (zlen acc) sz -> bytes_ok f -> (truncated = true -> acc = []) ->
  opost (fun r => if truncated then forall acc', line_read sz acc' f r else line_read sz acc f r) (getline_loop n b truncated f).
Proof.
  revert truncated b acc f. induction n as [|n IH]; intros tr b acc f Hv Hf Htr; cbn [getline_loop]; [by destruct tr|].
  assert (Hend : opost (fun b' => view b' acc 0 sz) (buf_setpos b 0)) by (by eapply view_setpos_opost).
  pose proof (view_len _ _ _ _ Hv) as Hl. assert (buf_pos b = zlen acc) as -> by apply Hv. destruct f as [|c f].
  - destruct (_ =? 0); [by destruct tr|]. eapply opost_bind; [done|]. intros b' _ Hv'. cbn.
    assert (forall acc', tr = true \/ acc' = acc -> line_read sz acc' [] (true, b', [])) as G.
    { intros acc' Ha _. exists acc. split; [done|]. split; [|split; [done|]].
      - destruct Ha as [E| ->]; [left; auto|right; cbn; set_solver].
      - cbn. intros acc2 l Hn Hin. apply list_elem_of_singleton in Hin. done. }
    destruct tr; [intros; apply G|apply G]; auto.
  - apply Forall_cons in Hf as [Hc Hf]. destruct ((c =? 10) || (c =? 13)) eqn:Ec.
    + eapply opost_bind; [done|]. intros b' _ Hv'. cbn.
      assert (forall acc', tr = true \/ acc' = acc -> line_read sz acc' (c :: f) (true, b', f)) as G.
      { intros acc' Ha _. exists acc. split; [done|]. cbn [lines_from]. rewrite Ec. split; [|split; [done|]].
        - destruct Ha as [E| ->]; [left; auto|right; set_solver].
        - intros acc2 l Hn Hin. set_solver. }
      destruct tr; [intros; apply G|apply G]; auto.
    + assert (Hw : opost (fun r => forall acc', line_read sz acc' (c :: f) r) (let* line := buf_setlen b 0 in getline_loop n line true f)).
      { eapply opost_bind; [by eapply view_reset|]. intros b' _ Hv'. eapply opost_mono; [by apply (IH true b' [] f)|].
        cbn. intros r _ Hr acc'. by apply line_read_cons. }
      destruct tr; [exact Hw|]. cbn [negb andb]. destruct (Z.ltb_spec (buf_len b) (buf_size b)).
      * assert (buf_size b = sz) by apply Hv. destruct (view_putbyte _ _ _ _ c Hv Hc) as (b' & -> & Hv'); [lia|]. rewrite blit_end in Hv'. cbn [obind].
        eapply opost_mono; [apply (IH false b' (acc ++ [c]) f); [by rewrite zlen_app, zlen_cons, zlen_nil|done|done]|].
        cbn. intros r _ Hr. by apply line_read_cons.
      * eapply opost_mono; [exact Hw|]. cbn. intros r _ Hr. apply Hr.
Qed.

Lemma buf_getline_read b bs p sz f : view b bs p sz -> bytes_ok f -> opost (line_read sz [] f) (buf_getline b f).
Proof.
  intros Hv Hf. unfold buf_getline. eapply opost_bind; [by eapply view_reset|]. intros b' _ Hv'.
  by eapply (getline_loop_read _ false).
Qed.

(** ** The file *)

Lemma key_line_not_nil algo keyblob line : key_line algo keyblob line -> line <> [].
Proof. intros (pre & b64 & post & E & _) ->. by destruct pre, algo. Qed.

Lemma checkpubkey_loop_view einval n algo keyblob b bs p f : view b bs p MAX_AUTHKEYS_LINE -> bytes_ok f -> nonul algo -> zlen algo <= 1000 ->
  opost (fun r => match r with Some _ => exists line, line ∈ lines f /\ key_line algo keyblob line | None => True end) (checkpubkey_loop einval n b f algo keyblob).
Proof.
  intros Hv Hf Ha Hal. revert b bs p f Hv Hf. induction n as [|n IH]; intros b bs p f Hv Hf; [done|]. cbn [checkpubkey_loop].
  eapply opost_bind; [by eapply buf_getline_read|]. intros [[[] b1] f1] _ Hr; [|done]. destruct (Hr eq_refl) as (text & Hv1 & Ht & Hf1 & Hl). cbn [negb].
  eapply opost_bind; [by eapply checkpubkey_line_view|]. intros [o|] _ Hk.
  - cbn. exists text. split; [|done]. destruct Ht as [->|]; [by apply key_line_not_nil in Hk|done].
  - eapply opost_mono; [by eapply IH|]. intros [o|] _ H; [|done]. destruct H as (line & Hin & Hkl). exists line. split; [|done].
    apply Hl; [by eapply key_line_not_nil|done].
Qed.

(** C24: Whatever the file of authorized keys holds, looking a key up in it stays within its
    buffers, and a key is accepted only when a line of the file names its algorithm and then
    encodes exactly that key in base64. *)
Theorem accepted_key_in_file einval f algo keyblob : bytes_ok f -> nonul algo -> zlen algo <= 1000 ->
  match checkpubkey einval (Some f) algo keyblob with
  | Undef => False
  | Ok (Some _) => exists line, line ∈ lines f /\ key_line algo keyblob line
  | _ => True
  end.
Proof.
  intros Hf Ha Hal. unfold checkpubkey. destruct (view_new MAX_AUTHKEYS_LINE) as (b & -> & Hb & _); [by vm_compute|]. cbn [obind].
  pose proof (checkpubkey_loop_view einval MAX_AUTHKEYS_LINE_COUNT algo keyblob b _ _ f Hb Hf Ha Hal) as H.
  by destruct (checkpubkey_loop _ _ _ _ _ _) as [[]| |].
Qed.

Definition toy_algo : bytes := str "ssh-ed25519".

Definition toy_keyblob : bytes := ssh_string toy_algo ++ ssh_string (replicate 32 7).

(** A comment, and a key with options and a comment behind it. *)
Definition toy_authorized_keys : bytes :=
  str "# keys" ++ [10] ++ str "no-pty,command=" ++ [QUOTE] ++ str "ls -l" ++ [QUOTE; SPACE] ++ toy_algo ++ [SPACE] ++
  match base64_encode toy_keyblob 100 with Some t => t | None => [] end ++ str " user@host" ++ [10].

Lemma accepted_key_in_file_witness :
  exists line, line ∈ lines toy_authorized_keys /\ key_line toy_algo toy_keyblob line.
Proof.
  assert (bytes_ok toy_authorized_keys) as Hf by (apply bytes_check; vm_compute; reflexivity).
  assert (nonul toy_algo) as Ha by (apply nonul_check; vm_compute; reflexivity).
  pose proof (accepted_key_in_file false toy_authorized_keys toy_algo toy_keyblob Hf Ha ltac:(vm_compute; discriminate)) as H.
  destruct (checkpubkey _ _ _ _) as [[o|]| |] eqn:E; [exact H| | |]; exfalso; vm_compute in E; discriminate E.
Defined.
