(* ===== verification/KeyTypes.v ===== *)
(** * Types of keys and of signatures

    The names of the key types of signkey.c and the numbers behind them. A signature type is
    the number of its key type, except for RSA with SHA-256. *)

From S2P Require Import Prelude Bytes Buffer.

(** [enum signkey_type]; [SIGNKEY_NONE] is the value for an unknown name. *)
Inductive signkey_type :=
| SIGNKEY_RSA
| SIGNKEY_ECDSA_NISTP256
| SIGNKEY_ECDSA_NISTP384
| SIGNKEY_ECDSA_NISTP521
| SIGNKEY_SK_ECDSA_NISTP256
| SIGNKEY_ED25519
| SIGNKEY_SK_ED25519
| SIGNKEY_NONE.

#[export] Instance signkey_type_eq_dec : EqDecision signkey_type.
Proof. solve_decision. Defined.

(** [enum signature_type]: the enumerators are numbered as the key types, and the casts of
    the code between the two keep the number, also where the result is no enumerator. *)
Inductive signature_type := SIGNATURE_OF (k : signkey_type) | SIGNATURE_RSA_SHA256.

#[export] Instance signature_type_eq_dec : EqDecision signature_type.
Proof. solve_decision. Defined.

Definition SIGNATURE_NONE : signature_type := SIGNATURE_OF SIGNKEY_NONE.

Definition SSH_SIGNKEY_RSA : bytes := str "ssh-rsa".
Definition SSH_SIGNATURE_RSA_SHA256 : bytes := str "rsa-sha2-256".

Definition signkey_names : list (signkey_type * bytes) :=
  [(SIGNKEY_RSA, SSH_SIGNKEY_RSA);
   (SIGNKEY_ECDSA_NISTP256, str "ecdsa-sha2-nistp256");
   (SIGNKEY_ECDSA_NISTP384, str "ecdsa-sha2-nistp384");
   (SIGNKEY_ECDSA_NISTP521, str "ecdsa-sha2-nistp521");
   (SIGNKEY_SK_ECDSA_NISTP256, str "sk-ecdsa-sha2-nistp256@openssh.com");
   (SIGNKEY_ED25519, str "ssh-ed25519");
   (SIGNKEY_SK_ED25519, str "sk-ssh-ed25519@openssh.com")].

Fixpoint find_name (l : list (signkey_type * bytes)) (type : signkey_type) : option bytes :=
  match l with
  | [] => None
  | (t, n) :: l => if decide (t = type) then Some n else find_name l type
  end.

Definition signkey_name_from_type (type : signkey_type) : outcome bytes :=
  match find_name signkey_names type with Some n => Ok n | None => Exit "Bad key type %d" end.

Fixpoint find_type (l : list (signkey_type * bytes)) (name : bytes) : signkey_type :=
  match l with
  | [] => SIGNKEY_NONE
  | (t, n) :: l => if decide (n = name) then t else find_type l name
  end.

Definition signkey_type_from_name (name : bytes) : signkey_type := find_type signkey_names name.

Definition signature_name_from_type (type : signature_type) : outcome bytes :=
  match type with
  | SIGNATURE_RSA_SHA256 => Ok SSH_SIGNATURE_RSA_SHA256
  | SIGNATURE_OF k => signkey_name_from_type k
  end.

Definition signature_type_from_name (name : bytes) : signature_type :=
  if decide (name = SSH_SIGNATURE_RSA_SHA256) then SIGNATURE_RSA_SHA256 else SIGNATURE_OF (signkey_type_from_name name).

Definition signkey_type_from_signature (sigtype : signature_type) : signkey_type :=
  match sigtype with SIGNATURE_RSA_SHA256 => SIGNKEY_RSA | SIGNATURE_OF k => k end.

(** [signkey_is_ecdsa] *)
Definition signkey_is_ecdsa (type : signkey_type) : bool :=
  match type with SIGNKEY_ECDSA_NISTP256 | SIGNKEY_ECDSA_NISTP384 | SIGNKEY_ECDSA_NISTP521 => true | _ => false end.

(** ** The names and the types *)

Lemma find_type_name name t n : find_type signkey_names name = t -> t <> SIGNKEY_NONE -> find_name signkey_names t = Some n -> n = name.
Proof.
  cbn [find_type signkey_names]. intros <-. repeat case_decide; subst; intros Hn Hf; try done; vm_compute in Hf; by injection Hf as <-.
Qed.

Lemma signkey_name_type name n : signkey_name_from_type (signkey_type_from_name name) = Ok n -> n = name.
Proof.
  unfold signkey_name_from_type, signkey_type_from_name. destruct (decide (find_type signkey_names name = SIGNKEY_NONE)) as [->|Hne]; [done|].
  destruct (find_name _ _) eqn:E; [|done]. intros [= ->]. by eapply find_type_name.
Qed.

Lemma signkey_type_name t n : signkey_name_from_type t = Ok n -> signkey_type_from_name n = t.
Proof. unfold signkey_name_from_type. by destruct t; cbn; intros [= <-]. Qed.

(** The name of a key type is short and has no NUL. *)
Lemma signkey_name_plain t n : signkey_name_from_type t = Ok n -> Forall (fun b => b <> 0) n /\ bytes_ok n /\ zlen n <= 100.
Proof.
  unfold signkey_name_from_type. destruct t; cbn [find_name signkey_names decide]; intros [= <-]; (split; [|split]);
    first [by apply bytes_check|by vm_compute|repeat constructor; done].
Qed.
