(* ===== verification/Rsa.v ===== *)
(** * RSA keys and signatures

    rsa.c: reading and writing keys, the padded value of a message, and signing (with both
    blindings) and verifying; [gen_random_mpint] of dbrandom.c. *)

From S2P Require Import Prelude Bytes Buffer KeyTypes.
From Stdlib Require Import Zpow_facts Zcong.

Definition MIN_RSA_KEYLEN : Z := 1024.
Definition SHA256_HASH_SIZE : Z := 32.

(** ** Numbers *)

(** [mp_exptmod], [mp_mulmod] and [mp_invmod] for a positive modulus. *)
Definition mp_exptmod (b e m : Z) : Z := Zpow_mod b e m.
Definition mp_mulmod (a b m : Z) : Z := (a * b) mod m.
Definition mp_invmod (a m : Z) : option Z := if Z.gcd a m =? 1 then Some (Z.invmod a m) else None.

Definition masks : list Z := [255; 1; 3; 7; 15; 31; 63; 127].

(** [gen_random_mpint]: the bytes are the stream [random] from [pos]; [tries] bounds how often
    a value out of range is drawn. *)
Fixpoint gen_random_mpint (random : nat -> Z) (tries : nat) (pos : nat) (max : Z) : option (Z * nat) :=
  match tries with
  | O => None
  | S tries =>
      let size_bits := mp_count_bits max in
      let len := Z.to_nat (size_bits / 8 + (if size_bits mod 8 =? 0 then 0 else 1)) in
      let randbuf := map random (seq pos len) in
      let randbuf := match randbuf with [] => [] | b :: r => Z.land b (nth (Z.to_nat (size_bits mod 8)) masks 0) :: r end in
      let rand := mp_from_ubin randbuf in
      if (rand <? max) && (0 <? rand) then Some (rand, (pos + len)%nat)
      else gen_random_mpint random tries (pos + len)%nat max
  end.

(** ** Keys *)

Record dropbear_rsa_key := mkrsa { rsa_n : Z; rsa_e : Z; rsa_d : option Z; rsa_p : option Z; rsa_q : option Z }.

(** The key, when it could be read, and the buffer. *)
Definition buf_get_rsa_pub_key (b : buffer) : outcome (option dropbear_rsa_key * buffer) :=
  let* b := buf_incrpos b (4 + zlen SSH_SIGNKEY_RSA) in
  let* (e, b) := buf_getmpint b in
  match e with None => Ok (None, b) | Some e =>
  let* (n, b) := buf_getmpint b in
  match n with None => Ok (None, b) | Some n =>
  if mp_count_bits n <? MIN_RSA_KEYLEN then Ok (None, b)
  else if 64 <? mp_count_bits e then Ok (None, b)
  else Ok (Some (mkrsa n e None None None), b)
  end end.

Definition buf_get_rsa_priv_key (b : buffer) : outcome (option dropbear_rsa_key * buffer) :=
  let* (key, b) := buf_get_rsa_pub_key b in
  match key with None => Ok (None, b) | Some key =>
  let* (d, b) := buf_getmpint b in
  match d with None => Ok (None, b) | Some d =>
  let* _ := exit_if (buf_pos b =? buf_len b) "RSA key format is ancient" in
  let* (p, b) := buf_getmpint b in
  match p with None => Ok (None, b) | Some p =>
  let* (q, b) := buf_getmpint b in
  match q with None => Ok (None, b) | Some q =>
  Ok (Some (mkrsa (rsa_n key) (rsa_e key) (Some d) (Some p) (Some q)), b)
  end end end end.

Definition buf_put_rsa_pub_key (b : buffer) (key : dropbear_rsa_key) : outcome buffer :=
  let* b := buf_putstring b SSH_SIGNKEY_RSA (zlen SSH_SIGNKEY_RSA) in
  let* b := buf_putmpint b (rsa_e key) in
  buf_putmpint b (rsa_n key).

Definition buf_put_rsa_priv_key (b : buffer) (key : dropbear_rsa_key) : outcome buffer :=
  let* b := buf_put_rsa_pub_key b key in
  match rsa_d key with
  | None => Undef
  | Some d =>
      let* b := buf_putmpint b d in
      let* b := match rsa_p key with Some p => buf_putmpint b p | None => Ok b end in
      match rsa_q key with Some q => buf_putmpint b q | None => Ok b end
  end.

(** ** Signatures *)

Definition T_sha256 : bytes := [48; 49; 48; 13; 6; 9; 96; 134; 72; 1; 101; 3; 4; 2; 1; 5; 0; 4; 32].

(** [while (pos != stop) buf_putbyte(0xff)]; it ends at the latest when the buffer is full. *)
Fixpoint pad_loop (fuel : nat) (b : buffer) (stop : Z) : outcome buffer :=
  if buf_pos b =? stop then Ok b
  else match fuel with O => Ok b | S fuel => let* b := buf_putbyte b 255 in pad_loop fuel b stop end.

Section rsa.
Context (sha256 : bytes -> bytes).

(** For another signature type [assert(0)] is reached; assertions are not compiled into a
    release build, where the null hash descriptor is followed next. *)
Definition rsa_pad_em (key : dropbear_rsa_key) (data : bytes) (sigtype : signature_type) : outcome Z :=
  match sigtype with
  | SIGNATURE_OF _ => Undef
  | SIGNATURE_RSA_SHA256 =>
      let nsize := mp_ubin_size (rsa_n key) in
      let* b := buf_new nsize in
      let* b := buf_putbyte b 0 in
      let* b := buf_putbyte b 1 in
      let* b := pad_loop (S (Z.to_nat nsize)) b (u32 (buf_size b - (1 + zlen T_sha256 + SHA256_HASH_SIZE))) in
      let* b := buf_putbyte b 0 in
      let* b := buf_putbytes b T_sha256 (zlen T_sha256) in
      let* p := buf_getwriteptr b SHA256_HASH_SIZE in
      let* d := mem_write (buf_data b) p (sha256 data) in
      let* b := buf_incrwritepos (mkbuf d (buf_len b) (buf_pos b) (buf_size b)) SHA256_HASH_SIZE in
      let* _ := oassert (buf_pos b =? buf_size b) in
      let* b := buf_setpos b 0 in
      let* em := buf_read b (buf_size b) in
      Ok (mp_from_ubin em)
  end.

Definition buf_rsa_verify (b : buffer) (key : dropbear_rsa_key) (sigtype : signature_type) (data : bytes) : outcome bool :=
  let* (slen, b) := buf_getint b in
  if negb (slen =? mp_ubin_size (rsa_n key)) then Ok false
  else
    let* s := buf_read b (u32 (buf_len b - buf_pos b)) in
    let s := mp_from_ubin s in
    if negb (s <? rsa_n key) then Ok false
    else
      let* em := rsa_pad_em key data sigtype in
      let mdash := mp_exptmod s (rsa_e key) (rsa_n key) in
      Ok (em =? mdash).

(** The signature of [em] with [r] blinding the base and [br] the exponent, as drawn by
    [gen_random_mpint]; [None] is "RSA error". *)
Definition rsa_blinded (key : dropbear_rsa_key) (d p q em r br : Z) : option Z :=
  let n := rsa_n key in
  let s := mp_exptmod r (rsa_e key) n in
  match mp_invmod r n with
  | None => None
  | Some rinv =>
      let em' := mp_mulmod em s n in
      let phi_n := n + 1 - p - q in
      let b_d := d + br * phi_n in
      let s' := mp_exptmod em' b_d n in
      Some (mp_mulmod s' rinv n)
  end.

Fixpoint put_zeros (n : nat) (b : buffer) : outcome buffer :=
  match n with O => Ok b | S n => let* b := buf_putbyte b 0 in put_zeros n b end.

Definition buf_put_rsa_sign (b : buffer) (key : dropbear_rsa_key) (sigtype : signature_type) (data : bytes) (r br : Z) : outcome buffer :=
  let* em := rsa_pad_em key data sigtype in
  match rsa_d key, rsa_p key, rsa_q key with
  | Some d, Some p, Some q =>
      match rsa_blinded key d p q em r br with
      | None => Exit "RSA error"
      | Some s =>
          let* name := signature_name_from_type sigtype in
          let* b := buf_putstring b name (zlen name) in
          let nsize := mp_ubin_size (rsa_n key) in
          let* b := buf_putint b nsize in
          let ssize := mp_ubin_size s in
          let* _ := oassert (ssize <=? nsize) in
          let* b := put_zeros (Z.to_nat (u32 (nsize - ssize))) b in
          let* p := buf_getwriteptr b ssize in
          match mp_to_ubin s ssize with
          | None => Exit "RSA error"
          | Some bs =>
              let* d := mem_write (buf_data b) p bs in
              buf_incrwritepos (mkbuf d (buf_len b) (buf_pos b) (buf_size b)) (zlen bs)
          end
      end
  | _, _, _ => Undef
  end.
End rsa.
