(* ===== verification/RsaCorrect.v ===== *)
(** * RSA: signatures verify

    With a key made of two primes and inverse exponents, what [buf_put_rsa_sign] writes is
    accepted by [buf_rsa_verify], whatever values blind the computation; and a signature is
    accepted only when its power is the padded hash of the message. *)

From S2P Require Import Prelude Bytes Buffer KeyTypes Rsa.
From Stdlib Require Import Znumtheory Zpow_facts Zcong Zmod.

(** ** Powers modulo a product of two primes *)

Lemma fermat_Z p x : Z.prime p -> x mod p <> 0 -> x ^ (p - 1) mod p = 1.
Proof.
  intros Hp Hx. pose proof (Z.prime_ge_2 _ Hp) as H2.
  assert (Ha : Zmod.of_Z p x <> Zmod.zero).
  { intros E. apply (f_equal Zmod.to_Z) in E. by rewrite Zmod.unsigned_of_Z, Zmod.unsigned_0 in E. }
  pose proof (Zmod.fermat_nz _ Ha Hp) as Hf. apply (f_equal Zmod.to_Z) in Hf.
  rewrite Zmod.unsigned_pow_nonneg_r, Zmod.unsigned_of_Z, Zmod.unsigned_1_pos in Hf by lia.
  rewrite <- Zpower_mod in Hf by lia. by replace (Z.pred p) with (p - 1) in Hf by lia.
Qed.

Lemma pow_prime p x m : Z.prime p -> 0 <= m -> x ^ (1 + m * (p - 1)) mod p = x mod p.
Proof.
  intros Hp Hm. pose proof (Z.prime_ge_2 _ Hp) as H2. assert (0 <= m * (p - 1)) by (apply Z.mul_nonneg_nonneg; lia).
  rewrite Z.pow_add_r, Z.pow_1_r by lia. destruct (decide (x mod p = 0)) as [E|E].
  - rewrite Z.mul_mod, E by lia. by rewrite Z.mul_0_l, Z.mod_0_l by lia.
  - rewrite (Z.mul_comm m), Z.pow_mul_r by lia.
    rewrite Z.mul_mod, (Zpower_mod (x ^ (p - 1))), fermat_Z by (done || lia). rewrite Z.pow_1_l, (Z.mod_small 1), Z.mul_1_r, Z.mod_mod by lia. done.
Qed.

Lemma divide_sub p a b : 0 < p -> a mod p = b mod p -> (p | a - b).
Proof. intros Hp E. apply Z.mod_divide; [lia|]. rewrite Zminus_mod, E, Z.sub_diag. apply Z.mod_0_l. lia. Qed.

Lemma mod_product p q a b : Z.prime p -> Z.prime q -> p <> q -> a mod p = b mod p -> a mod q = b mod q -> a mod (p * q) = b mod (p * q).
Proof.
  intros Hp Hq Hne Ha Hb. pose proof (Z.prime_ge_2 _ Hp) as Hp2. pose proof (Z.prime_ge_2 _ Hq) as Hq2.
  apply divide_sub in Ha, Hb; [|lia..]. destruct Hb as [k Hk]. rewrite Hk in Ha.
  apply Z.divide_prime_mul in Ha as [[j Hj]|H]; [|by apply Z.divide_prime_prime in H|done].
  replace a with (b + j * (p * q)) by (rewrite Hj in Hk; lia). apply Z.mod_add. lia.
Qed.

(** ** The key *)

Record rsa_key_ok (key : dropbear_rsa_key) (d p q : Z) : Prop := {
  rko_d : rsa_d key = Some d;
  rko_p : rsa_p key = Some p;
  rko_q : rsa_q key = Some q;
  rko_prime_p : Z.prime p;
  rko_prime_q : Z.prime q;
  rko_distinct : p <> q;
  rko_n : rsa_n key = p * q;
  rko_inverse : (rsa_e key * d) mod ((p - 1) * (q - 1)) = 1 mod ((p - 1) * (q - 1));
  rko_e : 0 < rsa_e key;
  rko_dpos : 0 < d;
}.

(** Raising to [e] undoes the blinded private exponent. *)
Lemma rsa_power key d p q x br : rsa_key_ok key d p q -> 0 <= br ->
  x ^ ((d + br * ((p - 1) * (q - 1))) * rsa_e key) mod rsa_n key = x mod rsa_n key.
Proof.
  intros [_ _ _ Hp Hq Hne Hn Hinv He Hd] Hbr. pose proof (Z.prime_ge_2 _ Hp) as Hp2. pose proof (Z.prime_ge_2 _ Hq) as Hq2. rewrite Hn.
  set (phi := (p - 1) * (q - 1)) in *. assert (0 < phi) as Hphi by (apply Z.mul_pos_pos; lia).
  destruct (divide_sub phi _ _ Hphi Hinv) as [m Hm].
  assert (0 <= m) by (assert (0 < rsa_e key * d) by (apply Z.mul_pos_pos; lia); destruct (Z.neg_nonneg_cases m) as [Hneg|]; [|done]; assert (m * phi <= -1 * phi) by (apply Z.mul_le_mono_nonneg_r; lia); lia).
  assert (0 <= br * rsa_e key) by (apply Z.mul_nonneg_nonneg; lia).
  assert (Hx : (d + br * phi) * rsa_e key = 1 + (m + br * rsa_e key) * phi) by lia.
  rewrite Hx. apply mod_product; try done; unfold phi.
  - rewrite (Z.mul_comm (p - 1)), Z.mul_assoc. apply pow_prime; [done|]. apply Z.mul_nonneg_nonneg; lia.
  - rewrite Z.mul_assoc. apply pow_prime; [done|]. apply Z.mul_nonneg_nonneg; lia.
Qed.

Lemma pow_mul_mod a b e n : 1 < n -> 0 <= e -> ((a mod n * b) mod n) ^ e mod n = (a ^ e * b ^ e) mod n.
Proof. intros. rewrite <- Zpower_mod by lia. rewrite Zpower_mod, Z.mul_mod_idemp_l, <- Zpower_mod by lia. by rewrite Z.pow_mul_l. Qed.

(** The signed value is verified, whatever blinds it. *)
Lemma blinded_verifies key d p q em r br : rsa_key_ok key d p q -> 0 <= em < rsa_n key -> 0 <= br -> Z.gcd r (rsa_n key) = 1 ->
  exists s, rsa_blinded key d p q em r br = Some s /\ 0 <= s < rsa_n key /\ mp_exptmod s (rsa_e key) (rsa_n key) = em.
Proof.
  intros Hk Hem Hbr Hr. pose proof (rsa_power key d p q) as Hpow. pose proof Hk as [_ _ _ Hp Hq _ Hn _ He Hd].
  pose proof (Z.prime_ge_2 _ Hp). pose proof (Z.prime_ge_2 _ Hq). assert (Hphi : rsa_n key + 1 - p - q = (p - 1) * (q - 1)) by lia.
  unfold rsa_blinded, mp_invmod, mp_exptmod, mp_mulmod. rewrite Hr, Hphi. cbn [Z.eqb Pos.eqb]. set (n := rsa_n key) in *. set (e := rsa_e key) in *.
  assert (1 < n) by (rewrite Hn; assert (2 * 2 <= p * q) by (apply Z.mul_le_mono_nonneg; lia); lia). set (x := d + br * ((p - 1) * (q - 1))).
  assert (0 <= x) by (unfold x; assert (0 <= br * ((p - 1) * (q - 1))) by (apply Z.mul_nonneg_nonneg; [lia|apply Z.mul_nonneg_nonneg; lia]); lia).
  rewrite !Zpow_mod_correct by lia. eexists. split; [done|]. split; [apply Z.mod_pos_bound; lia|]. rewrite Zpow_mod_correct by lia.
  rewrite pow_mul_mod, <- Z.pow_mul_r by lia. rewrite Z.mul_mod, (Hpow _ br Hk Hbr), Z.mod_mod, <- Z.mul_mod by lia.
  rewrite (Z.mul_comm em), <- Z.mul_assoc, Z.mul_mod_idemp_l by lia.
  rewrite (Z.mul_comm em), Z.mul_assoc, <- Z.pow_mul_l, <- Z.mul_mod_idemp_l by lia.
  rewrite (Zpower_mod (r * _)), (Z.mul_comm r), Z.invmod_coprime by (done || lia). rewrite Z.pow_1_l, (Z.mod_small 1), Z.mul_1_l by lia.
  by apply Z.mod_small.
Qed.

(** ** The padded value *)

(** The encoded message of RFC 8017 section 9.2. *)
Definition em_bytes (nsize : Z) (h : bytes) : bytes :=
  [0; 1] ++ replicate (Z.to_nat (nsize - 54)) 255 ++ [0] ++ T_sha256 ++ h.

Lemma pad_loop_appends n : forall fuel b bs sz, view b bs (zlen bs) sz -> zlen bs + Z.of_nat n <= sz -> (n <= fuel)%nat ->
  appends (fun b => pad_loop fuel b (zlen bs + Z.of_nat n)) b bs (replicate n 255) sz.
Proof.
  induction n as [|n IH]; intros fuel b bs sz Hv Hsz Hf.
  - exists b. rewrite app_nil_r. split; [|done]. assert (buf_pos b = zlen bs) as E by apply Hv. destruct fuel; cbn [pad_loop]; by rewrite E, (proj2 (Z.eqb_eq _ _)) by lia.
  - destruct fuel as [|fuel]; [lia|]. assert (buf_pos b = zlen bs) as E by apply Hv. unfold appends. cbn [pad_loop]. rewrite E, (proj2 (Z.eqb_neq _ _)) by lia.
    destruct (append_byte b bs sz 255 Hv) as (b1 & -> & Hv1); [done|lia|]. cbn [obind].
    destruct (IH fuel b1 (bs ++ [255]) sz Hv1) as (b2 & Hb2 & Hv2); [rewrite zlen_app, zlen_cons, zlen_nil; lia|lia|].
    exists b2. rewrite zlen_app, zlen_cons, zlen_nil in Hb2. replace (zlen bs + (1 + 0) + Z.of_nat n) with (zlen bs + Z.of_nat (S n)) in Hb2 by lia.
    split; [exact Hb2|]. cbn [replicate]. by rewrite <- app_assoc in Hv2.
Qed.

Lemma T_sha256_ok : bytes_ok T_sha256 /\ zlen T_sha256 = 19.
Proof. split; [by apply bytes_check|done]. Qed.

Section em.
Context (sha256 : bytes -> bytes) (Hsha : forall x, bytes_ok (sha256 x) /\ zlen (sha256 x) = SHA256_HASH_SIZE).

Lemma em_bytes_ok nsize x : 54 <= nsize -> bytes_ok (em_bytes nsize (sha256 x)) /\ zlen (em_bytes nsize (sha256 x)) = nsize.
Proof.
  intros Hn. destruct (Hsha x) as [Hx Hl]. unfold SHA256_HASH_SIZE in Hl. unfold em_bytes, bytes_ok. split.
  - rewrite !Forall_app. split_and!; [by apply bytes_check|by apply Forall_replicate|by apply bytes_check|apply T_sha256_ok|done].
  - rewrite !zlen_app, zlen_replicate, Hl by lia. change (zlen T_sha256) with 19. unfold zlen. cbn. lia.
Qed.

Lemma rsa_pad_em_value key x : 54 <= mp_ubin_size (rsa_n key) <= BUF_MAX_SIZE ->
  rsa_pad_em sha256 key x SIGNATURE_RSA_SHA256 = Ok (be_value (em_bytes (mp_ubin_size (rsa_n key)) (sha256 x))).
Proof.
  intros Hn. destruct (Hsha x) as [Hx Hl]. unfold rsa_pad_em. change SHA256_HASH_SIZE with 32 in Hl. set (nsize := mp_ubin_size (rsa_n key)) in *.
  destruct (view_new nsize) as (b & -> & Hv & _); [lia|]. cbn [obind].
  destruct (append_byte b [] nsize 0 Hv) as (b1 & -> & Hv1); [done|unfold zlen; cbn; lia|]. cbn [obind app] in *.
  destruct (append_byte b1 [0] nsize 1 Hv1) as (b2 & -> & Hv2); [done|unfold zlen; cbn; lia|]. cbn [obind app] in *.
  assert (buf_size b2 = nsize) as -> by apply Hv2. replace (1 + zlen T_sha256 + SHA256_HASH_SIZE) with 52 by done. unfold BUF_MAX_SIZE in Hn. rewrite (u32_small (nsize - 52)) by lia.
  destruct (pad_loop_appends (Z.to_nat (nsize - 54)) (S (Z.to_nat nsize)) b2 [0; 1] nsize Hv2) as (b3 & H3 & Hv3); [unfold zlen; cbn; lia|lia|].
  replace (zlen [0; 1] + Z.of_nat (Z.to_nat (nsize - 54))) with (nsize - 52) in H3 by (unfold zlen; cbn; lia). rewrite H3. cbn [obind].
  set (l3 := [0; 1] ++ _) in *. assert (E3 : zlen l3 = nsize - 52) by (unfold l3; rewrite zlen_app, zlen_replicate; unfold zlen; cbn; lia).
  destruct (append_byte b3 l3 nsize 0 Hv3) as (b4 & -> & Hv4); [done|lia|]. cbn [obind].
  assert (E4 : zlen (l3 ++ [0]) = nsize - 51) by (rewrite zlen_app, E3; unfold zlen; cbn; lia).
  destruct (append_bytes b4 _ nsize T_sha256 Hv4) as (b5 & -> & Hv5); [apply T_sha256_ok|change (zlen T_sha256) with 19; lia|]. cbn [obind].
  set (l5 := (l3 ++ [0]) ++ T_sha256) in *. assert (E5 : zlen l5 = nsize - 32) by (unfold l5; rewrite zlen_app, E4; change (zlen T_sha256) with 19; lia).
  destruct (append_bytes b5 l5 nsize (sha256 x) Hv5) as (b6 & H6 & Hv6); [done|lia|]. unfold buf_putbytes, buf_write in H6. rewrite Hl in H6. change SHA256_HASH_SIZE with 32.
  rewrite !obind_assoc in H6. cbn [obind] in H6. destruct (buf_getwriteptr b5 32); cbn [obind] in *; [|done..]. rewrite !obind_assoc in H6. cbn [obind] in H6.
  destruct (mem_write _ _ _); cbn [obind] in *; [|done..]. rewrite H6. cbn [obind].
  assert (E6 : zlen (l5 ++ sha256 x) = nsize) by (rewrite zlen_app; lia). assert (buf_pos b6 = nsize) as -> by (rewrite <- E6; apply Hv6). assert (buf_size b6 = nsize) as -> by apply Hv6.
  rewrite Z.eqb_refl. cbn [oassert obind]. destruct (view_setpos _ _ _ _ 0 Hv6) as (b7 & -> & Hv7); [lia|]. cbn [obind]. assert (buf_size b7 = nsize) as -> by apply Hv7.
  rewrite (view_read _ _ _ _ nsize Hv7) by lia. cbn [obind]. rewrite <- E6 at 1. rewrite sub_all.
  assert (l5 ++ sha256 x = em_bytes nsize (sha256 x)) as -> by (unfold em_bytes, l5, l3; by rewrite <- !app_assoc).
  rewrite mp_from_ubin_value by (apply em_bytes_ok; lia). done.
Qed.

Lemma ubin_size_lower n : 0 < n -> 256 ^ (mp_ubin_size n - 1) <= n < 256 ^ mp_ubin_size n.
Proof.
  intros Hn. destruct (mp_count_bits_pos n Hn) as [Hb [Hlo Hhi]]. rewrite mp_ubin_size_spec. change 256 with (2 ^ 8). rewrite <- !Z.pow_mul_r by lia.
  split; [eapply Z.le_trans; [|exact Hlo]|eapply Z.lt_le_trans; [exact Hhi|]]; apply Z.pow_le_mono_r; lia.
Qed.

Lemma em_range nsize x n : 54 <= nsize -> nsize = mp_ubin_size n -> 0 < n -> 0 <= be_value (em_bytes nsize (sha256 x)) < n.
Proof.
  intros Hn -> Hpos. destruct (em_bytes_ok (mp_ubin_size n) x Hn) as [Hok Hl]. destruct (ubin_size_lower n Hpos) as [Hlo _]. set (nsize := mp_ubin_size n) in *.
  pose proof (be_value_range _ Hok) as [H0 _]. split; [done|]. unfold em_bytes in *. cbn [app] in *. rewrite !zlen_cons in Hl. rewrite !be_value_cons.
  set (rest := replicate _ _ ++ _) in *. apply Forall_cons in Hok as [_ Hok]. apply Forall_cons in Hok as [_ Hok]. pose proof (be_value_range _ Hok) as Hr.
  assert (E : zlen rest = nsize - 2) by lia. rewrite E in *.
  assert (256 ^ (nsize - 1) = 256 * 256 ^ (nsize - 2)) as Hp by (replace (nsize - 1) with (1 + (nsize - 2)) by lia; by rewrite Z.pow_add_r by lia). lia.
Qed.

(** ** Verification *)

Lemma buf_rsa_verify_value key x b pre sig sz : view b (pre ++ ssh_string sig) (zlen pre) sz -> 54 <= mp_ubin_size (rsa_n key) <= BUF_MAX_SIZE ->
  buf_rsa_verify sha256 b key SIGNATURE_RSA_SHA256 x =
  Ok ((zlen sig =? mp_ubin_size (rsa_n key)) && (be_value sig <? rsa_n key) &&
      (be_value (em_bytes (mp_ubin_size (rsa_n key)) (sha256 x)) =? mp_exptmod (be_value sig) (rsa_e key) (rsa_n key))).
Proof.
  intros Hv Hn. pose proof (view_bounds _ _ _ _ Hv) as Hb. pose proof (view_bytes _ _ _ _ Hv) as Hok. pose proof (zlen_nonneg sig). pose proof (zlen_nonneg pre). unfold BUF_MAX_SIZE in *.
  assert (Hl : zlen (pre ++ ssh_string sig) = zlen pre + 4 + zlen sig) by (unfold ssh_string; rewrite !zlen_app; change (zlen (store32h (zlen sig))) with 4; lia).
  unfold buf_rsa_verify. destruct (view_getint _ _ _ _ Hv) as (b1 & -> & Hv1); [lia|]. cbn [obind].
  assert (sub (pre ++ ssh_string sig) (zlen pre) 4 = store32h (zlen sig)) as ->.
  { rewrite sub_app_r_at. unfold ssh_string. rewrite sub_app_l by (try done; change (zlen (store32h (zlen sig))) with 4; lia). by apply (sub_all (store32h (zlen sig))). }
  rewrite load_store32h by (unfold is_u32; lia). destruct (Z.eqb_spec (zlen sig) (mp_ubin_size (rsa_n key))) as [E|]; [|done]. cbn [negb andb].
  rewrite (view_len _ _ _ _ Hv1), Hl. assert (buf_pos b1 = zlen pre + 4) as -> by apply Hv1. rewrite u32_small by lia.
  rewrite (view_read _ _ _ _ _ Hv1) by lia. cbn [obind].
  assert (sub (pre ++ ssh_string sig) (zlen pre + 4) (zlen pre + 4 + zlen sig - (zlen pre + 4)) = sig) as ->.
  { rewrite sub_app_ge by lia. unfold ssh_string. change 4 with (zlen (store32h (zlen sig))). rewrite sub_app_r_at. replace (_ - _) with (zlen sig) by lia. apply sub_all. }
  rewrite mp_from_ubin_value by (unfold bytes_ok, ssh_string in Hok; rewrite !Forall_app in Hok; apply Hok).
  destruct (be_value sig <? rsa_n key); [|done]. cbn [negb]. rewrite rsa_pad_em_value by (unfold BUF_MAX_SIZE; lia). done.
Qed.

(** ** Signing *)

Lemma put_zeros_appends n : forall b bs sz, view b bs (zlen bs) sz -> zlen bs + Z.of_nat n <= sz -> appends (put_zeros n) b bs (replicate n 0) sz.
Proof.
  induction n as [|n IH]; intros b bs sz Hv Hsz; [exists b; by rewrite app_nil_r|]. unfold appends. cbn [put_zeros].
  destruct (append_byte b bs sz 0 Hv) as (b1 & -> & Hv1); [done|lia|]. cbn [obind].
  destruct (IH b1 _ sz Hv1) as (b2 & -> & Hv2); [rewrite zlen_app, zlen_cons, zlen_nil; lia|]. exists b2. split; [done|]. by rewrite <- app_assoc in Hv2.
Qed.

(** The signature as a string of the size of the modulus. *)
Definition sig_bytes (n s : Z) : bytes := replicate (Z.to_nat (mp_ubin_size n - mp_ubin_size s)) 0 ++ mp_to_ubin_loop (Z.to_nat (mp_ubin_size s)) s [].

Lemma be_value_zeros n l : be_value (replicate n 0 ++ l) = be_value l.
Proof. induction n as [|n IH]; [done|]. cbn [replicate app]. rewrite be_value_cons, IH. lia. Qed.

Lemma ubin_size_mono a b : 0 <= a <= b -> mp_ubin_size a <= mp_ubin_size b.
Proof.
  intros H. rewrite !mp_ubin_size_spec. apply Z.div_le_mono; [lia|]. unfold mp_count_bits. pose proof (Z.log2_nonneg b).
  destruct (Z.eqb_spec a 0), (Z.eqb_spec b 0); rewrite ?(Z.abs_eq a), ?(Z.abs_eq b) by lia; try lia. pose proof (Z.log2_le_mono a b). lia.
Qed.

Lemma sig_bytes_ok n s : 0 <= s < n -> bytes_ok (sig_bytes n s) /\ zlen (sig_bytes n s) = mp_ubin_size n /\ be_value (sig_bytes n s) = s.
Proof.
  intros Hs. unfold sig_bytes. destruct (mp_to_ubin_loop_spec (Z.to_nat (mp_ubin_size s)) s) as (Hok & _ & _). pose proof (mp_to_ubin_loop_zlen s ltac:(lia)) as Hl.
  pose proof (ubin_size_mono s n ltac:(lia)). split; [apply Forall_app; split; [by apply Forall_replicate|done]|]. split; [rewrite zlen_app, zlen_replicate; lia|].
  rewrite be_value_zeros. destruct (mp_to_ubin_value s (mp_ubin_size s) (mp_to_ubin_loop (Z.to_nat (mp_ubin_size s)) s [])) as (_ & _ & ?); [lia| |done].
  unfold mp_to_ubin. rewrite Z.ltb_irrefl. by rewrite Z.abs_eq by lia.
Qed.

Lemma put_number_appends b bs sz s : view b bs (zlen bs) sz -> 0 <= s -> zlen bs + mp_ubin_size s <= sz ->
  appends (fun b => let* p := buf_getwriteptr b (mp_ubin_size s) in
    match mp_to_ubin s (mp_ubin_size s) with
    | None => Exit "RSA error"
    | Some bs => let* d := mem_write (buf_data b) p bs in buf_incrwritepos (mkbuf d (buf_len b) (buf_pos b) (buf_size b)) (zlen bs)
    end) b bs (mp_to_ubin_loop (Z.to_nat (mp_ubin_size s)) s []) sz.
Proof.
  intros Hv Hs Hsz. destruct (mp_to_ubin_loop_spec (Z.to_nat (mp_ubin_size s)) s) as (Hok & _ & _). pose proof (mp_to_ubin_loop_zlen s ltac:(lia)) as Hl.
  unfold mp_to_ubin. rewrite Z.ltb_irrefl, Z.abs_eq by lia. set (l := mp_to_ubin_loop _ _ _) in *.
  destruct (append_bytes b bs sz l Hv Hok) as (b' & Hb' & Hv'); [lia|]. exists b'. split; [|done]. rewrite <- Hb', <- Hl.
  unfold buf_putbytes, buf_write. rewrite !obind_assoc. destruct (buf_getwriteptr _ _); cbn [obind]; [|done..]. rewrite !obind_assoc. by destruct (mem_write _ _ _).
Qed.

Lemma rsa_sha256_name_ok : bytes_ok SSH_SIGNATURE_RSA_SHA256 /\ zlen SSH_SIGNATURE_RSA_SHA256 = 12.
Proof. split; [by apply bytes_check|done]. Qed.

Lemma sign_appends key d p q x r br b bs sz s :
  rsa_key_ok key d p q -> 54 <= mp_ubin_size (rsa_n key) <= BUF_MAX_SIZE ->
  rsa_blinded key d p q (be_value (em_bytes (mp_ubin_size (rsa_n key)) (sha256 x))) r br = Some s -> 0 <= s < rsa_n key ->
  view b bs (zlen bs) sz -> zlen bs + 20 + mp_ubin_size (rsa_n key) <= sz ->
  appends (fun b => buf_put_rsa_sign sha256 b key SIGNATURE_RSA_SHA256 x r br) b bs
    (ssh_string SSH_SIGNATURE_RSA_SHA256 ++ ssh_string (sig_bytes (rsa_n key) s)) sz.
Proof.
  intros Hk Hn Hs Hrange Hv Hsz. destruct (sig_bytes_ok _ _ Hrange) as (_ & Hlen & _). pose proof Hk as [Hkd Hkp Hkq _ _ _ _ _ _ _].
  pose proof (ubin_size_mono s (rsa_n key) ltac:(lia)) as Hle. destruct rsa_sha256_name_ok as [Hname Hnl]. unfold BUF_MAX_SIZE in *.
  assert (0 <= mp_ubin_size s) as H0 by (rewrite mp_ubin_size_spec; pose proof (mp_count_bits_nonneg s ltac:(lia)); lia).
  unfold appends, buf_put_rsa_sign. rewrite rsa_pad_em_value by (unfold BUF_MAX_SIZE; lia). cbn [obind]. rewrite Hkd, Hkp, Hkq, Hs. cbn [signature_name_from_type obind].
  destruct (append_string b bs sz SSH_SIGNATURE_RSA_SHA256 Hv Hname) as (b1 & -> & Hv1); [lia|]. cbn [obind].
  set (l1 := bs ++ _) in *. assert (E1 : zlen l1 = zlen bs + 16) by (unfold l1, ssh_string; rewrite !zlen_app; change (zlen (store32h _)) with 4; lia).
  destruct (append_int b1 l1 sz (mp_ubin_size (rsa_n key)) Hv1) as (b2 & -> & Hv2); [lia|]. cbn [obind]. set (l2 := l1 ++ _) in *.
  assert (E2 : zlen l2 = zlen bs + 20) by (unfold l2; rewrite zlen_app; change (zlen (store32h _)) with 4; lia).
  rewrite (proj2 (Z.leb_le _ _)) by lia. cbn [oassert obind]. rewrite u32_small by lia.
  destruct (put_zeros_appends (Z.to_nat (mp_ubin_size (rsa_n key) - mp_ubin_size s)) b2 l2 sz Hv2) as (b3 & -> & Hv3); [lia|]. cbn [obind].
  destruct (put_number_appends b3 _ sz s Hv3) as (b4 & Hb4 & Hv4); [lia|rewrite zlen_app, zlen_replicate; lia|].
  exists b4. split; [exact Hb4|]. assert (ssh_string (sig_bytes (rsa_n key) s) = store32h (mp_ubin_size (rsa_n key)) ++ sig_bytes (rsa_n key) s) as -> by (unfold ssh_string; by rewrite Hlen).
  revert Hv4. unfold l2, l1, sig_bytes. by rewrite <- !app_assoc.
Qed.

(** C27: RSA signatures verify, and nothing else does. With a key made of two different primes
    and inverse exponents, signing a message succeeds whatever numbers blind the base and the
    exponent, and appends the name of the algorithm and a string of the size of the modulus;
    verifying that string with the key accepts it; and any string that is accepted has the size
    of the modulus, is a number below it, and its power is the padded hash of the message. *)
Theorem rsa_sign_verify key d p q x r br :
  rsa_key_ok key d p q -> 54 <= mp_ubin_size (rsa_n key) <= BUF_MAX_SIZE -> Z.gcd r (rsa_n key) = 1 -> 0 <= br ->
  exists sig, zlen sig = mp_ubin_size (rsa_n key) /\
    (forall b bs sz, view b bs (zlen bs) sz -> zlen bs + 20 + mp_ubin_size (rsa_n key) <= sz ->
       exists b', buf_put_rsa_sign sha256 b key SIGNATURE_RSA_SHA256 x r br = Ok b' /\
         used b' = bs ++ ssh_string SSH_SIGNATURE_RSA_SHA256 ++ ssh_string sig) /\
    (forall b pre sz, view b (pre ++ ssh_string sig) (zlen pre) sz -> buf_rsa_verify sha256 b key SIGNATURE_RSA_SHA256 x = Ok true) /\
    (forall b pre sz sig', view b (pre ++ ssh_string sig') (zlen pre) sz -> buf_rsa_verify sha256 b key SIGNATURE_RSA_SHA256 x = Ok true ->
       zlen sig' = zlen sig /\ be_value sig' < rsa_n key /\
       be_value (em_bytes (mp_ubin_size (rsa_n key)) (sha256 x)) = be_value sig' ^ rsa_e key mod rsa_n key).
Proof.
  intros Hk Hn Hr Hbr. pose proof Hk as [_ _ _ Hp Hq _ Hpq _ He _]. pose proof (Z.prime_ge_2 _ Hp). pose proof (Z.prime_ge_2 _ Hq).
  assert (0 < rsa_n key) as Hpos by (rewrite Hpq; apply Z.mul_pos_pos; lia).
  pose proof (em_range _ x _ (proj1 Hn) eq_refl Hpos) as Hem. destruct (blinded_verifies key d p q _ r br Hk Hem Hbr Hr) as (s & Hs & Hrange & Hpow).
  destruct (sig_bytes_ok _ _ Hrange) as (_ & Hlen & Hval). exists (sig_bytes (rsa_n key) s). split; [done|]. split; [|split].
  - intros b bs sz Hv Hsz. destruct (sign_appends key d p q x r br b bs sz s) as (b' & ? & Hv'); try done. exists b'. split; [done|]. by destruct Hv' as [_ -> _ _].
  - intros b pre sz Hv. rewrite (buf_rsa_verify_value key x b pre _ sz Hv Hn), Hlen, Hval, Hpow. by rewrite !Z.eqb_refl, (proj2 (Z.ltb_lt _ _)) by lia.
  - intros b pre sz sig' Hv. rewrite (buf_rsa_verify_value key x b pre _ sz Hv Hn). intros [= H']. apply andb_prop in H' as [[H1 H2]%andb_prop H3].
    rewrite Hlen. apply Z.eqb_eq in H1, H3. apply Z.ltb_lt in H2. split; [done|]. split; [done|]. rewrite H3. unfold mp_exptmod. by rewrite Zpow_mod_correct by lia.
Qed.
End em.
