(* ===== verification/RsaToy.v ===== *)
(** * A concrete RSA key

    Proth's criterion makes two primes of 256 bits, for a key to which the theorem on RSA
    signatures is applied. *)

From S2P Require Import Prelude Bytes Buffer KeyTypes Rsa RsaCorrect.
From Stdlib Require Import Znumtheory Zpow_facts Zcong.

(** ** Proth primes *)

Lemma prime_divisor n : 1 < n -> exists q, Z.prime q /\ (q | n).
Proof.
  intros Hn. assert (0 <= n) as H0 by lia. revert n H0 Hn. apply (Z_lt_induction (fun n => 1 < n -> exists q, Z.prime q /\ (q | n))).
  intros n IH Hn. destruct (prime_dec n) as [Hp|Hp]; [exists n; split; [by apply prime_alt|apply Z.divide_refl]|].
  destruct (not_prime_divide n Hn Hp) as (d & [Hd1 Hd2] & Hd). destruct (IH d) as (q & Hq & Hqd); [lia|lia|].
  exists q. split; [done|]. by eapply Z.divide_trans.
Qed.

(** If a power of two takes [b] to -1 and [t] takes it to 1, twice that power divides [t]. *)
Lemma order_divides q b m t : 2 < q -> 0 <= m -> 0 < t -> b ^ (2 ^ m) mod q = q - 1 -> b ^ t mod q = 1 -> (2 ^ (m + 1) | t).
Proof.
  intros Hq Hm Ht Hneg. assert (0 <= m) as Hind by done. revert b Hneg. revert t Ht. pattern m. apply natlike_ind; [| |done]; clear m Hm Hind.
  - intros t Ht b Hneg Hone. change (2 ^ 0) with 1 in Hneg. rewrite Z.pow_1_r in Hneg. change (2 ^ (0 + 1)) with 2.
    apply Z.mod_divide; [lia|]. destruct (Z.eq_dec (t mod 2) 0) as [|Hodd]; [done|]. assert (Ht2 : t = 1 + 2 * (t / 2)) by lia.
    rewrite Ht2, Z.pow_add_r, Z.pow_1_r, Z.pow_mul_r, Z.mul_mod, Hneg in Hone by lia. rewrite (Zpower_mod (b ^ 2)) in Hone by lia.
    assert (b ^ 2 mod q = 1) as E.
    { rewrite Zpower_mod, Hneg by lia. replace ((q - 1) ^ 2) with (1 + (q - 2) * q) by lia. rewrite Z.mod_add by lia. apply Z.mod_small. lia. }
    rewrite E, Z.pow_1_l, (Z.mod_small 1), Z.mul_1_r, Z.mod_small in Hone by lia. lia.
  - intros m Hm IH t Ht b Hneg Hone. rewrite Z.pow_succ_r, Z.pow_mul_r in Hneg by (try apply Z.pow_nonneg; lia).
    assert (H2 : (2 ^ (m + 1) | t)). { apply (IH t Ht (b ^ 2) Hneg). rewrite <- Z.pow_mul_r, Z.mul_comm, Z.pow_mul_r by lia. rewrite Zpower_mod, Hone, Z.pow_1_l by lia. apply Z.mod_small. lia. }
    assert (Heven : (2 | t)). { eapply Z.divide_trans; [|exact H2]. rewrite Z.pow_add_r, Z.pow_1_r by lia. apply Z.divide_factor_r. }
    destruct Heven as [u ->]. replace (Z.succ m + 1) with (m + 1 + 1) by lia. rewrite Z.pow_add_r, Z.pow_1_r by lia. apply Z.mul_divide_mono_r.
    apply (IH u ltac:(lia) (b ^ 2) Hneg). rewrite <- Z.pow_mul_r by lia. by rewrite (Z.mul_comm 2).
Qed.

Lemma proth k m a : 0 < k < 2 ^ m -> 0 < m -> mp_exptmod a (k * 2 ^ (m - 1)) (k * 2 ^ m + 1) = k * 2 ^ m -> Z.prime (k * 2 ^ m + 1).
Proof.
  intros Hk Hm Ha. set (n := k * 2 ^ m + 1) in *. assert (2 ^ 1 <= 2 ^ m) as H2 by (apply Z.pow_le_mono_r; lia). assert (2 < n) as Hn by lia.
  unfold mp_exptmod in Ha. rewrite Zpow_mod_correct in Ha by lia.
  assert (Hbig : forall q, Z.prime q -> (q | n) -> 2 ^ m < q).
  { intros q Hq Hqn. pose proof (Z.prime_ge_2 _ Hq) as Hq2.
    assert (Hne : q <> 2). { intros ->. destruct Hqn as [j Hj]. assert (n mod 2 = 0) as E by (rewrite Hj; apply Z.mod_mul; lia). unfold n in E.
      replace m with (1 + (m - 1)) in E by lia. rewrite Z.pow_add_r in E by lia. lia. }
    assert (Hneg : (a ^ k) ^ (2 ^ (m - 1)) mod q = q - 1).
    { rewrite <- Z.pow_mul_r by lia. assert (Hd : (q | a ^ (k * 2 ^ (m - 1)) + 1)).
      { eapply Z.divide_trans; [exact Hqn|]. exists (a ^ (k * 2 ^ (m - 1)) / n + 1). pose proof (Z.div_mod (a ^ (k * 2 ^ (m - 1))) n) as E. rewrite Ha in E. unfold n in *. lia. }
      destruct Hd as [j Hj]. replace (a ^ (k * 2 ^ (m - 1))) with (q - 1 + (j - 1) * q) by lia. rewrite Z.mod_add by lia. apply Z.mod_small. lia. }
    assert (Hnz : (a ^ k) mod q <> 0). { intros E. rewrite Zpower_mod, E, Z.pow_0_l in Hneg by (assert (0 < 2 ^ (m - 1)) by (apply Z.pow_pos_nonneg; lia); lia). rewrite Z.mod_0_l in Hneg; lia. }
    destruct (order_divides q (a ^ k) (m - 1) (q - 1)) as [j Hj]; [lia|lia|lia|done|by apply fermat_Z|]. replace (m - 1 + 1) with m in Hj by lia.
    assert (0 < j) by (destruct (Z.lt_trichotomy j 0) as [?|[->|?]]; [assert (j * 2 ^ m <= 0) by (apply Z.mul_nonpos_nonneg; lia); lia|lia|lia]).
    assert (1 * 2 ^ m <= j * 2 ^ m) by (apply Z.mul_le_mono_nonneg_r; lia). lia. }
  split; [lia|]. intros d Hd Hdn. destruct Hdn as [c Hc]. assert (1 < c).
  { destruct (Z.lt_trichotomy c 1) as [?|[->|?]]; [assert (c * d <= 0 * d) by (apply Z.mul_le_mono_nonneg_r; lia); lia|lia|done]. }
  destruct (prime_divisor d) as (q1 & Hq1 & Hd1); [lia|]. destruct (prime_divisor c) as (q2 & Hq2 & Hd2); [lia|].
  pose proof (Hbig q1 Hq1 ltac:(eapply Z.divide_trans; [exact Hd1|rewrite Hc; apply Z.divide_factor_r])) as B1.
  pose proof (Hbig q2 Hq2 ltac:(eapply Z.divide_trans; [exact Hd2|rewrite Hc; apply Z.divide_factor_l])) as B2.
  apply Z.divide_pos_le in Hd1, Hd2; [|lia..]. assert ((2 ^ m + 1) * (2 ^ m + 1) <= c * d) by (apply Z.mul_le_mono_nonneg; lia).
  assert (k * 2 ^ m <= 2 ^ m * 2 ^ m) by (apply Z.mul_le_mono_nonneg_r; lia). lia.
Qed.

(** ** The key *)

Definition toy_rsa_p : Z := 4225 * 2 ^ 244 + 1.
Definition toy_rsa_q : Z := 4233 * 2 ^ 244 + 1.
Definition toy_rsa_d : Z :=
  6134520208376600029649519369640959856435597497783187606664719170483088210522227555300019751048019306603086095194162913862686981977330903011760928727171073.

Definition toy_rsa : dropbear_rsa_key := mkrsa (toy_rsa_p * toy_rsa_q) 65537 (Some toy_rsa_d) (Some toy_rsa_p) (Some toy_rsa_q).

Lemma toy_rsa_ok : rsa_key_ok toy_rsa toy_rsa_d toy_rsa_p toy_rsa_q.
Proof.
  split; [reflexivity..| | | |reflexivity| | |].
  - apply (proth 4225 244 3); [split|..]; vm_compute; reflexivity.
  - apply (proth 4233 244 11); [split|..]; vm_compute; reflexivity.
  - vm_compute. discriminate.
  - vm_compute. reflexivity.
  - reflexivity.
  - vm_compute. reflexivity.
Qed.

(** A hash with values of the right size. *)
Definition toy_sha256 (x : bytes) : bytes := take 32 (map u8 x ++ replicate 32 0).

Lemma toy_sha256_ok x : bytes_ok (toy_sha256 x) /\ zlen (toy_sha256 x) = SHA256_HASH_SIZE.
Proof.
  unfold toy_sha256. split.
  - apply Forall_take, Forall_app. split; [|by apply Forall_replicate]. apply Forall_forall. intros b. rewrite list_elem_of_fmap. intros (c & -> & _). apply u8_range.
  - unfold zlen. rewrite length_take, length_app, length_replicate. unfold SHA256_HASH_SIZE. lia.
Qed.

Lemma rsa_sign_verify_witness :
  exists sig, zlen sig = 65 /\ forall b pre sz, view b (pre ++ ssh_string sig) (zlen pre) sz -> buf_rsa_verify toy_sha256 b toy_rsa SIGNATURE_RSA_SHA256 (str "message") = Ok true.
Proof.
  destruct (rsa_sign_verify toy_sha256 toy_sha256_ok toy_rsa toy_rsa_d toy_rsa_p toy_rsa_q (str "message") 12345 99 toy_rsa_ok) as (sig & Hl & _ & Hv & _).
  - vm_compute. split; discriminate.
  - vm_compute. reflexivity.
  - discriminate.
  - exists sig. split; [exact Hl|exact Hv].
Defined.

(** A signature by the name of the key type instead of "rsa-sha2-256" is not refused as an
    unknown type, and the padded value for it is undefined. *)
Lemma ssh_rsa_name_is_a_type : signature_type_from_name (str "ssh-rsa") = SIGNATURE_OF SIGNKEY_RSA /\
  signkey_type_from_signature (SIGNATURE_OF SIGNKEY_RSA) = SIGNKEY_RSA.
Proof. by vm_compute. Qed.
