(* ===== verification/SignKey.v ===== *)
(** * Signing keys of any type

    signkey.c: reading and writing keys, making and verifying signatures, and fingerprints, by
    the type of the key. RSA is Rsa.v; the operations on elliptic curve keys are a class. *)

From S2P Require Import Prelude Bytes Base64 Buffer KeyTypes Rsa.

Definition MAX_PUBKEY_SIZE : Z := 600.
Definition SSH_SK_USER_PRESENCE_REQD : Z := 1.
Definition SSH_SK_USER_VERIFICATION_REQD : Z := 4.

(** ecdsa.c, ed25519.c, sk-ecdsa.c, sk-ed25519.c, and SHA-256. *)
Class KeyAlgs (EC ED : Type) := {
  buf_get_ecdsa_pub_key : buffer -> outcome (option EC * buffer);
  buf_get_ecdsa_priv_key : buffer -> outcome (option EC * buffer);
  buf_put_ecdsa_pub_key : buffer -> EC -> outcome buffer;
  buf_put_ecdsa_priv_key : buffer -> EC -> outcome buffer;
  buf_put_ecdsa_sign : buffer -> EC -> bytes -> outcome buffer;
  buf_ecdsa_verify : buffer -> EC -> bytes -> outcome bool;
  buf_sk_ecdsa_verify : buffer -> EC -> bytes -> bytes -> Z -> outcome bool;
  buf_get_ed25519_pub_key : signkey_type -> buffer -> outcome (option ED * buffer);
  buf_get_ed25519_priv_key : buffer -> outcome (option ED * buffer);
  buf_put_ed25519_pub_key : buffer -> ED -> outcome buffer;
  buf_put_ed25519_priv_key : buffer -> ED -> outcome buffer;
  buf_put_ed25519_sign : buffer -> ED -> bytes -> outcome buffer;
  buf_ed25519_verify : buffer -> ED -> bytes -> outcome bool;
  buf_sk_ed25519_verify : buffer -> ED -> bytes -> bytes -> Z -> outcome bool;
  sha256 : bytes -> bytes;
}.

Section signkey.
Context {EC ED : Type} {KA : KeyAlgs EC ED}.

(** [struct SIGN_key]; a null pointer is [None]. *)
Record sign_key := mksignkey {
  rsakey : option dropbear_rsa_key;
  ecckey256 : option EC;
  ecckey384 : option EC;
  ecckey521 : option EC;
  ed25519key : option ED;
  sk_app : option bytes;
  sk_flags_mask : Z;
}.

Definition new_sign_key : sign_key := mksignkey None None None None None None 0.

Definition set_rsakey (k : option dropbear_rsa_key) (s : sign_key) : sign_key :=
  mksignkey k (ecckey256 s) (ecckey384 s) (ecckey521 s) (ed25519key s) (sk_app s) (sk_flags_mask s).
Definition set_ed25519key (k : option ED) (s : sign_key) : sign_key :=
  mksignkey (rsakey s) (ecckey256 s) (ecckey384 s) (ecckey521 s) k (sk_app s) (sk_flags_mask s).
Definition set_sk_app (a : option bytes) (s : sign_key) : sign_key :=
  mksignkey (rsakey s) (ecckey256 s) (ecckey384 s) (ecckey521 s) (ed25519key s) a (sk_flags_mask s).
Definition set_sk_flags_mask (m : Z) (s : sign_key) : sign_key :=
  mksignkey (rsakey s) (ecckey256 s) (ecckey384 s) (ecckey521 s) (ed25519key s) (sk_app s) m.

(** [signkey_key_ptr] for the curve types: reading and writing through the pointer. *)
Definition ecckey (type : signkey_type) (s : sign_key) : option EC :=
  match type with
  | SIGNKEY_ECDSA_NISTP256 | SIGNKEY_SK_ECDSA_NISTP256 => ecckey256 s
  | SIGNKEY_ECDSA_NISTP384 => ecckey384 s
  | SIGNKEY_ECDSA_NISTP521 => ecckey521 s
  | _ => None
  end.

Definition set_ecckey (type : signkey_type) (k : option EC) (s : sign_key) : sign_key :=
  match type with
  | SIGNKEY_ECDSA_NISTP256 | SIGNKEY_SK_ECDSA_NISTP256 => mksignkey (rsakey s) k (ecckey384 s) (ecckey521 s) (ed25519key s) (sk_app s) (sk_flags_mask s)
  | SIGNKEY_ECDSA_NISTP384 => mksignkey (rsakey s) (ecckey256 s) k (ecckey521 s) (ed25519key s) (sk_app s) (sk_flags_mask s)
  | SIGNKEY_ECDSA_NISTP521 => mksignkey (rsakey s) (ecckey256 s) (ecckey384 s) k (ed25519key s) (sk_app s) (sk_flags_mask s)
  | _ => s
  end.

Definition found {A} (o : option A) : bool := match o with Some _ => true | None => false end.

(** [buf_getstring] gives the text with a NUL behind it, and its length.
    Whether the key is read, its type, the key and the buffer; [type] is [None] for any. *)
Definition buf_get_pub_key (b : buffer) (key : sign_key) (type : option signkey_type) : outcome (bool * option signkey_type * sign_key * buffer) :=
  let* (ident, len, b) := buf_getstring b in
  let keytype := signkey_type_from_name (take (Z.to_nat len) ident) in
  if match type with Some t => negb (bool_decide (t = keytype)) | None => false end then Ok (false, type, key, b)
  else
    let* b := buf_decrpos b (u32 (len + 4)) in
    let* (ret, key, b) :=
      match keytype with
      | SIGNKEY_RSA => let* (k, b) := buf_get_rsa_pub_key b in Ok (found k, set_rsakey k key, b)
      | SIGNKEY_ECDSA_NISTP256 | SIGNKEY_ECDSA_NISTP384 | SIGNKEY_ECDSA_NISTP521 | SIGNKEY_SK_ECDSA_NISTP256 =>
          let* (k, b) := buf_get_ecdsa_pub_key b in Ok (found k, set_ecckey keytype k key, b)
      | SIGNKEY_ED25519 | SIGNKEY_SK_ED25519 =>
          let* (k, b) := buf_get_ed25519_pub_key keytype b in Ok (found k, set_ed25519key k key, b)
      | SIGNKEY_NONE => Ok (false, key, b)
      end in
    match keytype with
    | SIGNKEY_SK_ED25519 | SIGNKEY_SK_ECDSA_NISTP256 =>
        let* (app, len, b) := buf_getstring b in Ok (ret, Some keytype, set_sk_app (Some (take (Z.to_nat len) app)) key, b)
    | _ => Ok (ret, Some keytype, key, b)
    end.

Definition buf_get_priv_key (b : buffer) (key : sign_key) (type : option signkey_type) : outcome (bool * option signkey_type * sign_key * buffer) :=
  let* (ident, len, b) := buf_getstring b in
  let keytype := signkey_type_from_name (take (Z.to_nat len) ident) in
  if match type with Some t => negb (bool_decide (t = keytype)) | None => false end then Ok (false, type, key, b)
  else
    let* b := buf_decrpos b (u32 (len + 4)) in
    match keytype with
    | SIGNKEY_RSA => let* (k, b) := buf_get_rsa_priv_key b in Ok (found k, Some keytype, set_rsakey k key, b)
    | SIGNKEY_ECDSA_NISTP256 | SIGNKEY_ECDSA_NISTP384 | SIGNKEY_ECDSA_NISTP521 =>
        let* (k, b) := buf_get_ecdsa_priv_key b in Ok (found k, Some keytype, set_ecckey keytype k key, b)
    | SIGNKEY_ED25519 => let* (k, b) := buf_get_ed25519_priv_key b in Ok (found k, Some keytype, set_ed25519key k key, b)
    | _ => Ok (false, Some keytype, key, b)
    end.

(** A null key of the type is followed, except for curve keys. *)
Definition buf_put_pub_key (b : buffer) (key : sign_key) (type : signkey_type) : outcome buffer :=
  let* pubkeys := buf_new MAX_PUBKEY_SIZE in
  let* pubkeys :=
    match type with
    | SIGNKEY_RSA => match rsakey key with Some k => buf_put_rsa_pub_key pubkeys k | None => Exit assert_msg end
    | SIGNKEY_ECDSA_NISTP256 | SIGNKEY_ECDSA_NISTP384 | SIGNKEY_ECDSA_NISTP521 | SIGNKEY_SK_ECDSA_NISTP256 =>
        match ecckey type key with Some k => buf_put_ecdsa_pub_key pubkeys k | None => Ok pubkeys end
    | SIGNKEY_ED25519 | SIGNKEY_SK_ED25519 => match ed25519key key with Some k => buf_put_ed25519_pub_key pubkeys k | None => Exit assert_msg end
    | SIGNKEY_NONE => Ok pubkeys
    end in
  let* _ := exit_if (buf_len pubkeys =? 0) "Bad key types in buf_put_pub_key" in
  buf_putbufstring b pubkeys.

Definition buf_put_priv_key (b : buffer) (key : sign_key) (type : signkey_type) : outcome buffer :=
  match type with
  | SIGNKEY_RSA => match rsakey key with Some k => buf_put_rsa_priv_key b k | None => Exit assert_msg end
  | SIGNKEY_ECDSA_NISTP256 | SIGNKEY_ECDSA_NISTP384 | SIGNKEY_ECDSA_NISTP521 =>
      match ecckey type key with Some k => buf_put_ecdsa_priv_key b k | None => Exit "Bad key types in put pub key" end
  | SIGNKEY_ED25519 => match ed25519key key with Some k => buf_put_ed25519_priv_key b k | None => Exit assert_msg end
  | _ => Exit "Bad key types in put pub key"
  end.

(** [r] and [br] blind an RSA signature. *)
Definition buf_put_sign (b : buffer) (key : sign_key) (sigtype : signature_type) (data : bytes) (r br : Z) : outcome buffer :=
  let* sigblob := buf_new MAX_PUBKEY_SIZE in
  let keytype := signkey_type_from_signature sigtype in
  let* sigblob :=
    match keytype with
    | SIGNKEY_RSA => match rsakey key with Some k => buf_put_rsa_sign sha256 sigblob k sigtype data r br | None => Exit assert_msg end
    | SIGNKEY_ECDSA_NISTP256 | SIGNKEY_ECDSA_NISTP384 | SIGNKEY_ECDSA_NISTP521 =>
        match ecckey keytype key with Some k => buf_put_ecdsa_sign sigblob k data | None => Ok sigblob end
    | SIGNKEY_ED25519 => match ed25519key key with Some k => buf_put_ed25519_sign sigblob k data | None => Exit assert_msg end
    | _ => Ok sigblob
    end in
  let* _ := exit_if (buf_len sigblob =? 0) "Non-matching signing type" in
  buf_putbufstring b sigblob.

(** [sk_app] is null only when no key of a security key type has been read. *)
Definition buf_verify (b : buffer) (key : sign_key) (expect_sigtype : signature_type) (data : bytes) : outcome bool :=
  let* (_, b) := buf_getint b in
  let* (type_name, len, b) := buf_getstring b in
  let sigtype := signature_type_from_name (take (Z.to_nat len) type_name) in
  let* _ := exit_if (negb (bool_decide (expect_sigtype = sigtype))) "Non-matching signing type" in
  let keytype := signkey_type_from_signature sigtype in
  match keytype with
  | SIGNKEY_RSA => match rsakey key with Some k => buf_rsa_verify sha256 b k sigtype data | None => Exit "No RSA key to verify signature" end
  | SIGNKEY_ECDSA_NISTP256 | SIGNKEY_ECDSA_NISTP384 | SIGNKEY_ECDSA_NISTP521 =>
      match ecckey keytype key with Some k => buf_ecdsa_verify b k data | None => Exit "Non-matching signing type" end
  | SIGNKEY_ED25519 => match ed25519key key with Some k => buf_ed25519_verify b k data | None => Exit "No Ed25519 key to verify signature" end
  | SIGNKEY_SK_ECDSA_NISTP256 =>
      match ecckey keytype key with Some k => buf_sk_ecdsa_verify b k data (default [] (sk_app key)) (sk_flags_mask key) | None => Exit "Non-matching signing type" end
  | SIGNKEY_SK_ED25519 =>
      match ed25519key key with Some k => buf_sk_ed25519_verify b k data (default [] (sk_app key)) (sk_flags_mask key) | None => Exit "Non-matching signing type" end
  | SIGNKEY_NONE => Exit "Non-matching signing type"
  end.

(** [sign_key_fingerprint] *)
Definition sign_key_sha256_fingerprint (keyblob : bytes) : outcome bytes :=
  let b64chars := 43%nat in
  match base64_encode (sha256 keyblob) (Z.of_nat b64chars + 4) with
  | None => Exit "base64 failed"
  | Some t => Ok (str "SHA256:" ++ take b64chars t)
  end.
End signkey.

Arguments sign_key : clear implicits.
