(* ===== verification/Auth.v ===== *)
(** * Authentication

    svr-auth.c, svr-authpasswd.c and the request of svr-authpubkey.c; [fill_passwd] of
    common-session.c and the password check and initialisation of jni-dropbear.c; and the
    service requests of svr-service.c. *)

From S2P Require Import Prelude Bytes CString Base64 Sshd4a Buffer Packet AuthKeys KeyTypes SignKey Channel.

Definition MAX_USERNAME_LEN : Z := 100.
Definition MAX_PUBKEY_QUERIES : Z := 15.
Definition DROPBEAR_MAX_PASSWORD_LEN : Z := 100.
Definition AUTH_TYPE_PUBKEY : Z := 2.
Definition AUTH_TYPE_PASSWORD : Z := 4.
Definition AUTH_METHOD_NONE : bytes := str "none".
Definition AUTH_METHOD_PUBKEY : bytes := str "publickey".
Definition AUTH_METHOD_PASSWORD : bytes := str "password".
Definition SSH_SERVICE_USERAUTH : bytes := str "ssh-userauth".
Definition SSH_SERVICE_CONNECTION : bytes := str "ssh-connection".
Definition SSH_MSG_USERAUTH_BANNER : Z := 53.

(** ** State *)

(** The session below, the session identifier and the flag for a finished authentication. *)
Class AuthSession (P : Type) := {
  #[global] auth_session :: Session P;
  ses_authdone : P -> bool;
  ses_set_authdone : bool -> P -> P;
  ses_payload_beginning : P -> Z;
  ses_session_id : P -> bytes;
}.

(** The clock, random numbers, and sleeping until the time is over, also when signals
    interrupt it; closing the pipe to the process that counts unauthenticated connections. *)
Class AuthSys (W : Type) := {
  gettime_wrapper : W -> (Z * Z) * W;
  sys_genrandom32 : W -> Z * W;
  sys_sleep : Z * Z -> W -> W;
  sys_close_childpipe : W -> W;
}.

(** The options of the command line. *)
Record svr_runopts := mksvropts {
  noauthpass : bool;
  norootpass : bool;
  allowblankpass : bool;
  multiauthmethod : bool;
  maxauthtries : Z;
}.

(** [struct AuthState], without [authdone]; null pointers are [None]. *)
Record AuthState := mkauth {
  username : option bytes;
  authtypes : Z;
  failcount : Z;
  checkusername_failed : bool;
  auth_starttime : Z * Z;
  serv_pubkey_query_count : Z;
  pw_uid : Z;
  pw_gid : Z;
  pw_dir : option bytes;
  pw_shell : option bytes;
  pw_name : option bytes;
  pw_passwd : option bytes;
  pubkey_options : option PubKeyOptions;
}.

Definition zero_auth : AuthState := mkauth None 0 0 false (0, 0) 0 0 0 None None None None None.

Definition set_authtypes (v : Z) (a : AuthState) : AuthState :=
  mkauth (username a) v (failcount a) (checkusername_failed a) (auth_starttime a) (serv_pubkey_query_count a) (pw_uid a) (pw_gid a) (pw_dir a) (pw_shell a) (pw_name a) (pw_passwd a) (pubkey_options a).
Definition set_failcount (v : Z) (a : AuthState) : AuthState :=
  mkauth (username a) (authtypes a) v (checkusername_failed a) (auth_starttime a) (serv_pubkey_query_count a) (pw_uid a) (pw_gid a) (pw_dir a) (pw_shell a) (pw_name a) (pw_passwd a) (pubkey_options a).
Definition set_checkusername_failed (v : bool) (a : AuthState) : AuthState :=
  mkauth (username a) (authtypes a) (failcount a) v (auth_starttime a) (serv_pubkey_query_count a) (pw_uid a) (pw_gid a) (pw_dir a) (pw_shell a) (pw_name a) (pw_passwd a) (pubkey_options a).
Definition set_auth_starttime (v : Z * Z) (a : AuthState) : AuthState :=
  mkauth (username a) (authtypes a) (failcount a) (checkusername_failed a) v (serv_pubkey_query_count a) (pw_uid a) (pw_gid a) (pw_dir a) (pw_shell a) (pw_name a) (pw_passwd a) (pubkey_options a).
Definition set_serv_pubkey_query_count (v : Z) (a : AuthState) : AuthState :=
  mkauth (username a) (authtypes a) (failcount a) (checkusername_failed a) (auth_starttime a) v (pw_uid a) (pw_gid a) (pw_dir a) (pw_shell a) (pw_name a) (pw_passwd a) (pubkey_options a).
Definition set_username (v : option bytes) (a : AuthState) : AuthState :=
  mkauth v (authtypes a) (failcount a) (checkusername_failed a) (auth_starttime a) (serv_pubkey_query_count a) (pw_uid a) (pw_gid a) (pw_dir a) (pw_shell a) (pw_name a) (pw_passwd a) (pubkey_options a).
Definition set_pw_passwd (v : option bytes) (a : AuthState) : AuthState :=
  mkauth (username a) (authtypes a) (failcount a) (checkusername_failed a) (auth_starttime a) (serv_pubkey_query_count a) (pw_uid a) (pw_gid a) (pw_dir a) (pw_shell a) (pw_name a) v (pubkey_options a).
Definition set_pubkey_options (v : option PubKeyOptions) (a : AuthState) : AuthState :=
  mkauth (username a) (authtypes a) (failcount a) (checkusername_failed a) (auth_starttime a) (serv_pubkey_query_count a) (pw_uid a) (pw_gid a) (pw_dir a) (pw_shell a) (pw_name a) (pw_passwd a) v.
(** The account of a user: user and group are always 0. *)
Definition set_account (name dir shell : bytes) (a : AuthState) : AuthState :=
  mkauth (username a) (authtypes a) (failcount a) (checkusername_failed a) (auth_starttime a) (serv_pubkey_query_count a) 0 0 (Some dir) (Some shell) (Some name) (pw_passwd a) (pubkey_options a).

Section auth.
Context {P : Type} {SP : AuthSession P} {W : Type} {SW : AuthSys W} {EC ED : Type} {KA : KeyAlgs EC ED}.
Context (cf : sshd4a) (svr_opts : svr_runopts) (sha512 : bytes -> bytes) (einval : bool).

Record authses := mkauthses { a_ses : P; a_world : W; authstate : AuthState; banner : option buffer; allowprivport : bool }.

Definition with_a_ses (p : P) (s : authses) : authses := mkauthses p (a_world s) (authstate s) (banner s) (allowprivport s).
Definition with_a_world (w : W) (s : authses) : authses := mkauthses (a_ses s) w (authstate s) (banner s) (allowprivport s).
Definition with_authstate (f : AuthState -> AuthState) (s : authses) : authses := mkauthses (a_ses s) (a_world s) (f (authstate s)) (banner s) (allowprivport s).
Definition with_banner (b : option buffer) (s : authses) : authses := mkauthses (a_ses s) (a_world s) (authstate s) b (allowprivport s).
Definition with_allowprivport (b : bool) (s : authses) : authses := mkauthses (a_ses s) (a_world s) (authstate s) (banner s) b.

(** Writing and reading the payloads, and [encrypt_packet]. *)
Definition aw (f : buffer -> outcome buffer) (s : authses) : outcome authses := let* p := pw f (a_ses s) in Ok (with_a_ses p s).
Definition ar {A} (f : buffer -> outcome (A * buffer)) (s : authses) : outcome (A * authses) :=
  match ses_payload (a_ses s) with
  | None => Undef
  | Some b => let* (a, b) := f b in Ok (a, with_a_ses (ses_set_payload b (a_ses s)) s)
  end.
Definition a_encrypt (s : authses) : outcome authses := let* p := ses_encrypt_packet (a_ses s) in Ok (with_a_ses p s).

(** ** Messages *)

Definition send_msg_userauth_banner (text : buffer) (s : authses) : outcome authses :=
  let* s := aw (fun b => buf_putbyte b SSH_MSG_USERAUTH_BANNER) s in
  let* s := aw (fun b => buf_putbufstring b text) s in
  let* s := aw (fun b => buf_putstring b (str "en") 2) s in
  a_encrypt s.

Definition has_type (a t : Z) : bool := negb (Z.land a t =? 0).

(** The list of the methods that can continue. *)
Definition auth_methods (types : Z) : outcome buffer :=
  let* typebuf := buf_new 30 in
  let* typebuf :=
    if has_type types AUTH_TYPE_PUBKEY then
      let* typebuf := buf_putbytes typebuf AUTH_METHOD_PUBKEY (zlen AUTH_METHOD_PUBKEY) in
      if has_type types AUTH_TYPE_PASSWORD then buf_putbyte typebuf 44 else Ok typebuf
    else Ok typebuf in
  if has_type types AUTH_TYPE_PASSWORD then buf_putbytes typebuf AUTH_METHOD_PASSWORD (zlen AUTH_METHOD_PASSWORD) else Ok typebuf.

(** How long to wait: the delay drawn less the time since the request, in seconds and
    nanoseconds. *)
Definition mindelay : Z := 250000000.
Definition vardelay : Z := 100000000.

Definition failure_delay (start now : Z * Z) (random : Z) : Z * Z :=
  let sec := fst now - fst start in
  let nsec := snd now - snd start in
  let '(sec, nsec) := if nsec <? 0 then (sec - 1, nsec + 1000000000) else (sec, nsec) in
  let rand_delay := u32 (mindelay + random mod vardelay) in
  if (sec =? 0) && (nsec <=? rand_delay) then (sec, rand_delay - nsec) else (0, rand_delay).

Definition send_msg_userauth_failure (partial incrfail : bool) (s : authses) : outcome authses :=
  let* s := aw (fun b => buf_putbyte b SSH_MSG_USERAUTH_FAILURE) s in
  let* typebuf := auth_methods (authtypes (authstate s)) in
  let* s := aw (fun b => buf_putbufstring b typebuf) s in
  let* s := aw (fun b => buf_putbyte b (if partial then 1 else 0)) s in
  let* s := a_encrypt s in
  let s :=
    if incrfail then
      let '(now, w) := gettime_wrapper (a_world s) in
      let '(random, w) := sys_genrandom32 w in
      let w := sys_sleep (failure_delay (auth_starttime (authstate s)) now random) w in
      with_authstate (fun a => set_failcount (u32 (failcount a + 1)) a) (with_a_world w s)
    else s in
  let* _ := exit_if (maxauthtries svr_opts <? failcount (authstate s)) "Max auth tries reached - user '%s'" in
  Ok s.

Definition send_msg_userauth_success (s : authses) : outcome authses :=
  let* s := aw (fun b => buf_putbyte b SSH_MSG_USERAUTH_SUCCESS) s in
  let* s := a_encrypt s in
  let s := with_a_ses (ses_set_authdone true (a_ses s)) s in
  let s := if pw_uid (authstate s) =? 0 then with_allowprivport true s else s in
  Ok (with_a_world (sys_close_childpipe (a_world s)) s).

Definition send_msg_userauth_pk_ok (sigalgo keyblob : bytes) (s : authses) : outcome authses :=
  let* s := aw (fun b => buf_putbyte b SSH_MSG_USERAUTH_PK_OK) s in
  let* s := aw (fun b => buf_putstring b sigalgo (zlen sigalgo)) s in
  let* s := aw (fun b => buf_putstring b keyblob (zlen keyblob)) s in
  a_encrypt s.

(** ** The user *)

Definition fill_passwd (name : bytes) (s : authses) : outcome authses :=
  let* role := sshd4a_get_role_for_user cf name in
  let '(dir, shell) :=
    if strcmp_eq role SSHD4A_ROLE_ROOT then (SSHD4A_ROOT_HOME, sshd4a_lib_exe_path cf SSHD4A_ROOT_SHELL_LIB)
    else if strcmp_eq role SSHD4A_ROLE_SHELL then (SSHD4A_SHELL_HOME, sshd4a_lib_exe_path cf SSHD4A_SHELL_SHELL_LIB)
    else (sshd4a_home_path cf, sshd4a_shell_exe cf) in
  Ok (with_authstate (fun a =>
        let a := set_account name dir shell a in
        match pw_passwd a with None => set_pw_passwd (Some (str "!!")) a | Some _ => a end) s).

(** [name] is a text with a NUL behind it, of length [userlen]. *)
Definition checkusername (name : bytes) (userlen : Z) (s : authses) : outcome (bool * authses) :=
  if MAX_USERNAME_LEN <? userlen then Ok (false, s)
  else
    let* _ := exit_if (negb (zlen (cstr name) =? userlen)) "Attempted username with a null byte" in
    let* s :=
      match username (authstate s) with
      | None => let* s := fill_passwd (cstr name) s in Ok (with_authstate (set_username (Some (cstr name))) s)
      | Some u => let* _ := exit_if (negb (strcmp_eq name u)) "Client trying multiple usernames" in Ok s
      end in
    if checkusername_failed (authstate s) then Ok (false, s)
    else match pw_name (authstate s) with
         | None => Ok (false, with_authstate (set_checkusername_failed true) s)
         | Some _ => Ok (true, s)
         end.

(** ** Passwords *)

(** What the password is compared with, the password as it is compared, and the session. *)
Definition sshd4a_svr_auth_password (password : bytes) (passwordlen : Z) (s : authses) : outcome (option bytes * option bytes * authses) :=
  let* u := sshd4a_find_user cf (username (authstate s)) in
  let whole := passwordlen =? zlen (cstr password) in
  match u with
  | Some (Some ((_ :: _) as hash), _) =>
      let s := with_authstate (set_pw_passwd (Some hash)) s in
      let testcrypt := match base64_encode (sha512 (take (Z.to_nat passwordlen) password)) (2 * 64) with Some t => t | None => [] end in
      Ok (Some hash, if whole then Some testcrypt else None, s)
  | _ => Ok (pw_passwd (authstate s), if whole then Some (cstr password) else None, s)
  end.

(** [constant_time_strcmp], whether the texts are equal. *)
Definition constant_time_strcmp (a b : bytes) : bool :=
  let la := zlen (cstr a) in
  let lb := zlen (cstr b) in
  if negb (la =? lb) then false else constant_time_memcmp (take (Z.to_nat la) a) (take (Z.to_nat la) b) =? 0.

(** Success, or with more than one method required, one of them done. *)
Definition method_done (method : Z) (s : authses) : outcome authses :=
  if multiauthmethod svr_opts && has_type (authtypes (authstate s)) (Z.lnot method) then
    let s := with_authstate (fun a => set_authtypes (Z.land (authtypes a) (Z.lnot method)) a) s in
    send_msg_userauth_failure true false s
  else send_msg_userauth_success s.

Definition svr_auth_password (valid_user : bool) (s : authses) : outcome authses :=
  let* (changepw, s) := ar buf_getbool s in
  if negb (changepw =? 0) then send_msg_userauth_failure false true s
  else
    let* (r, s) := ar (fun b => let* (t, l, b) := buf_getstring b in Ok ((t, l), b)) s in
    let '(password, passwordlen) := r in
    let* (passwdcrypt, testcrypt, s) :=
      if valid_user && (passwordlen <=? DROPBEAR_MAX_PASSWORD_LEN) then sshd4a_svr_auth_password password passwordlen s
      else Ok (None, None, s) in
    if negb valid_user then send_msg_userauth_failure false true s
    else if DROPBEAR_MAX_PASSWORD_LEN <? passwordlen then send_msg_userauth_failure false true s
    else
      match testcrypt with
      | None => send_msg_userauth_failure false true s
      | Some testcrypt =>
          match passwdcrypt with
          | None => Undef
          | Some passwdcrypt =>
              if hd 0 passwdcrypt =? 0 then send_msg_userauth_failure false true s
              else if constant_time_strcmp testcrypt passwdcrypt then method_done AUTH_TYPE_PASSWORD s
              else send_msg_userauth_failure false true s
          end
      end.

(** ** Public keys *)

(** How many queries are free of charge: [MAX(0, MAX_PUBKEY_QUERIES - (int)maxauthtries)]. *)
Definition free_query_limit : outcome Z :=
  let d := MAX_PUBKEY_QUERIES - s32 (maxauthtries svr_opts) in
  if 2147483647 <? d then Undef else Ok (u32 (Z.max 0 d)).

Definition key_flags_mask (o : PubKeyOptions) : Z :=
  let m := SSH_SK_USER_PRESENCE_REQD in
  let m := if no_touch_required_flag o then u8 (Z.land m (Z.lnot SSH_SK_USER_PRESENCE_REQD)) else m in
  if verify_required_flag o then u8 (Z.lor m SSH_SK_USER_VERIFICATION_REQD) else m.

(** The key is read and the signature checked over the session identifier and the payload up
    to it; a failed [assert] is undefined behaviour, as in rsa.c. *)
Definition pubkey_signature (sigtype : signature_type) (keytype : signkey_type) (keyblob : bytes) (o : PubKeyOptions) (s : authses) : outcome authses :=
  let* (r, s) := ar (fun b => let* (ret, type, key, b) := buf_get_pub_key b new_sign_key (Some keytype) in Ok ((ret, key), b)) s in
  let '(ret, key) := r in
  if negb ret then send_msg_userauth_failure false true s
  else
    let key := set_sk_flags_mask (key_flags_mask o) key in
    match ses_payload (a_ses s) with
    | None => Undef
    | Some payload =>
        let beginning := ses_payload_beginning (a_ses s) in
        let id := ses_session_id (a_ses s) in
        if buf_pos payload <? beginning then Undef
        else
          let len := u32 (buf_pos payload - beginning) in
          let* signbuf := buf_new (u32 (buf_pos payload + 4 + zlen id)) in
          let* signbuf := buf_putstring signbuf id (zlen id) in
          let* payload := buf_setpos payload beginning in
          let* text := buf_read payload len in
          let* signbuf := buf_putbytes signbuf text len in
          let* payload := buf_incrpos payload len in
          let* signbuf := buf_setpos signbuf 0 in
          let s := with_a_ses (ses_set_payload payload (a_ses s)) s in
          let* fp := sign_key_sha256_fingerprint keyblob in
          let* data := mem_read (buf_data signbuf) 0 (buf_len signbuf) in
          let* ok := buf_verify payload key sigtype data in
          if ok then
            let s := with_authstate (fun a => match pubkey_options a with None => set_pubkey_options (Some o) a | Some _ => a end) s in
            method_done AUTH_TYPE_PUBKEY s
          else send_msg_userauth_failure false true s
    end.

Definition svr_auth_pubkey (valid_user : bool) (s : authses) : outcome authses :=
  let* (b, s) := ar buf_getbool s in
  let testkey := b =? 0 in
  let* (r, s) := ar (fun b => let* (t, l, b) := buf_getstring b in Ok ((t, l), b)) s in
  let '(sigalgo, sigalgolen) := r in
  let sigalgo := take (Z.to_nat sigalgolen) sigalgo in
  let* (keybloblen, s) := ar buf_getint s in
  let* (keyblob, s) := ar (fun b => let* k := buf_read b keybloblen in Ok (k, b)) s in
  if negb valid_user then send_msg_userauth_failure false false s
  else
    let sigtype := signature_type_from_name sigalgo in
    if bool_decide (sigtype = SIGNATURE_NONE) then send_msg_userauth_failure false false s
    else
      let keytype := signkey_type_from_signature sigtype in
      let* keyalgo := signkey_name_from_type keytype in
      let* options := checkpubkey einval (authorized_keys_file cf) keyalgo keyblob in
      match options with
      | None =>
          let* limit := free_query_limit in
          let* s := send_msg_userauth_failure false (limit <=? serv_pubkey_query_count (authstate s)) s in
          Ok (with_authstate (fun a => set_serv_pubkey_query_count (u32 (serv_pubkey_query_count a + 1)) a) s)
      | Some o =>
          if testkey then send_msg_userauth_pk_ok sigalgo keyblob s
          else pubkey_signature sigtype keytype keyblob o s
      end.

(** ** Requests *)

(** The banner is sent once. *)
Definition maybe_banner (s : authses) : outcome authses :=
  match banner s with
  | None => Ok s
  | Some b => let* s := send_msg_userauth_banner b s in Ok (with_banner None s)
  end.

Definition name_is (name : bytes) (len : Z) (expected : bytes) : bool :=
  (len =? zlen expected) && strncmp_eq name expected (length expected).

Definition auth_getstring (s : authses) : outcome (bytes * Z * authses) :=
  let* (r, s) := ar (fun b => let* (t, l, b) := buf_getstring b in Ok ((t, l), b)) s in Ok (fst r, snd r, s).

(** The method asked for is tried. *)
Definition auth_method (methodname : bytes) (methodlen : Z) (valid_user : bool) (s : authses) : outcome authses :=
  if name_is methodname methodlen AUTH_METHOD_NONE then
    if valid_user && allowblankpass svr_opts && negb (noauthpass svr_opts) && negb (norootpass svr_opts && (pw_uid (authstate s) =? 0)) then
      match pw_passwd (authstate s) with
      | None => Undef
      | Some p => if hd 0 p =? 0 then send_msg_userauth_success s else send_msg_userauth_failure false false s
      end
    else send_msg_userauth_failure false false s
  else if has_type (authtypes (authstate s)) AUTH_TYPE_PUBKEY && name_is methodname methodlen AUTH_METHOD_PUBKEY then svr_auth_pubkey valid_user s
  else if has_type (authtypes (authstate s)) AUTH_TYPE_PASSWORD && name_is methodname methodlen AUTH_METHOD_PASSWORD then svr_auth_password true s
  else send_msg_userauth_failure false true s.

Definition recv_msg_userauth_request (s : authses) : outcome authses :=
  let '(now, w) := gettime_wrapper (a_world s) in
  let s := with_authstate (set_auth_starttime now) (with_a_world w s) in
  if ses_authdone (a_ses s) then Ok s
  else
    let* s := maybe_banner s in
    let* (name, userlen, s) := auth_getstring s in
    let* (servicename, servicelen, s) := auth_getstring s in
    let* (methodname, methodlen, s) := auth_getstring s in
    let* _ := exit_if (negb (name_is servicename servicelen SSH_SERVICE_CONNECTION)) "unknown service in auth" in
    let* (valid_user, s) := checkusername name userlen s in
    auth_method methodname methodlen valid_user s.

(** ** Start *)

(** [sshd4a_svr_authinitialise]; the single-use password is made of eight random bytes. *)
Definition sshd4a_svr_authinitialise (random : bytes) (a : AuthState) : AuthState :=
  let a := if sshd4a_enable_public_key_auth cf then set_authtypes (Z.lor (authtypes a) AUTH_TYPE_PUBKEY) a
           else set_authtypes (Z.land (authtypes a) (Z.lnot AUTH_TYPE_PUBKEY)) a in
  let a := if sshd4a_enable_password_file cf then set_authtypes (Z.lor (authtypes a) AUTH_TYPE_PASSWORD) a else a in
  if enable_single_use_passwords cf then
    set_pw_passwd (Some (sshd4a_generate_single_use_password random)) (set_authtypes (Z.lor (authtypes a) AUTH_TYPE_PASSWORD) a)
  else a.

Definition svr_authinitialise (random : bytes) (s : authses) : authses :=
  let s := with_a_ses (ses_set_authdone false (a_ses s)) s in
  with_authstate (fun _ => sshd4a_svr_authinitialise random (set_authtypes (Z.lor (authtypes zero_auth) AUTH_TYPE_PUBKEY) zero_auth)) s.

(** ** Services *)

Definition send_msg_service_accept (name : bytes) (len : Z) (s : authses) : outcome authses :=
  let* s := aw (fun b => buf_putbyte b SSH_MSG_SERVICE_ACCEPT) s in
  let* s := aw (fun b => buf_putstring b (take (Z.to_nat len) name) len) s in
  a_encrypt s.

Definition recv_msg_service_request (s : authses) : outcome authses :=
  let* (name, len, s) := auth_getstring s in
  if name_is name len SSH_SERVICE_USERAUTH then send_msg_service_accept name len s
  else if name_is name len SSH_SERVICE_CONNECTION then
    let* _ := exit_if (negb (ses_authdone (a_ses s))) "Request for connection before auth" in
    send_msg_service_accept name len s
  else Exit "Unrecognised SSH_MSG_SERVICE_REQUEST".
End auth.
