(* ===== verification/AuthSafety.v ===== *)
(** * Authentication: what a password request does

    What a reader takes from the payload, what the replies leave alone, and how a password
    request ends: it is accepted exactly when the password is the right one. *)

From S2P Require Import Prelude Bytes CString Base64 Sshd4a Buffer Packet AuthKeys AuthKeysSafety KeyTypes SignKey Channel Auth.

(** ** What has been read *)

(** [m] reads some text from the buffer; [R] relates what it gives and the text. *)
Definition took {A} (m : buffer -> outcome (A * buffer)) (R : A -> bytes -> Prop) : Prop :=
  forall b a b', wf b -> m b = Ok (a, b') -> exists bs, R a bs /\ unread b = bs ++ unread b' /\ b' = advance b (zlen bs) /\ wf b'.

Lemma took_prefix b n : wf b -> 0 <= n -> buf_pos b + n <= buf_len b ->
  let bs := sub (buf_data b) (buf_pos b) n in zlen bs = n /\ unread b = bs ++ unread (advance b n) /\ wf (advance b n).
Proof.
  intros Hb Hn Hl. pose proof Hb as []. cbn zeta. split; [apply zlen_sub; lia|]. split; [|by apply wf_advance].
  unfold unread. cbn. replace (buf_len b - buf_pos b) with (n + (buf_len b - (buf_pos b + n))) by lia. by rewrite sub_split by lia.
Qed.

Lemma took_byte : took buf_getbyte (fun v bs => bs = [v]).
Proof.
  intros b v b' Hb H. rewrite buf_getbyte_eq in H by done. destruct (Z.leb_spec (buf_len b) (buf_pos b)); [done|].
  destruct (buf_data b !! Z.to_nat (buf_pos b)) eqn:E; [|done]. injection H as -> <-. destruct (took_prefix b 1 Hb) as (_ & Hu & Hw); [lia|lia|].
  exists [v]. split; [done|]. split; [|done]. rewrite Hu at 1. f_equal. unfold sub. by rewrite (drop_S _ v) by done.
Qed.

Lemma took_bool : took buf_getbool (fun v bs => exists c, bs = [c] /\ v = if c =? 0 then 0 else 1).
Proof.
  intros b v b' Hb H. unfold buf_getbool in H. apply obind_Ok in H as ([c b1] & Hc & [= <- <-]).
  destruct (took_byte _ _ _ Hb Hc) as (bs & -> & Hu). exists [c]. split; [|exact Hu]. exists c. split; [done|]. by destruct (Z.eqb_spec c 0).
Qed.

Lemma took_int : took buf_getint (fun v bs => bs = store32h v /\ is_u32 v).
Proof.
  intros b v b' Hb H. unfold buf_getint in H. apply obind_Ok in H as (bs & Hr & H). rewrite buf_read_eq in Hr by done.
  destruct (Z.ltb_spec (buf_len b) (buf_pos b + 4)); [done|]. injection Hr as <-. apply obind_Ok in H as (b1 & Hi & H). injection H as <- <-.
  destruct (took_prefix b 4 Hb) as (Hl & Hu & Hw); [lia|lia|]. rewrite buf_incrpos_advance in Hi by (done || lia). injection Hi as <-.
  assert (bytes_ok (sub (buf_data b) (buf_pos b) 4)) as Hok by (apply bytes_ok_sub, Hb).
  exists (sub (buf_data b) (buf_pos b) 4). rewrite store_load_bytes by done. split; [split; [done|by apply load32h_bytes_u32]|]. by rewrite Hl.
Qed.

Lemma took_string : took (fun b => let* (t, l, b) := buf_getstring b in Ok ((t, l), b)) (fun '(t, l) bs => exists x, t = x ++ [0] /\ l = zlen x /\ bs = ssh_string x /\ zlen x <= MAX_STRING_LEN).
Proof.
  intros b [t l] b' Hb H. apply obind_Ok in H as ([[t' l'] b1] & H & [= <- <- <-]). unfold buf_getstring in H.
  apply obind_Ok in H as ([n b2] & Hn & H). destruct (took_int _ _ _ Hb Hn) as (bs & [-> Hu32] & Hu & -> & Hw). unfold is_u32 in Hu32.
  apply obind_Ok in H as ([] & Hmax & H). apply obind_Ok in H as (x & Hx & H). apply obind_Ok in H as (b3 & Hi & H). injection H as <- <- <-.
  rewrite buf_read_eq in Hx by (done || lia). destruct (Z.ltb_spec (buf_len (advance b (zlen (store32h n)))) (buf_pos (advance b (zlen (store32h n))) + n)); [done|]. injection Hx as <-.
  destruct (took_prefix _ n Hw) as (Hl & Hu2 & Hw2); [lia|lia|]. rewrite buf_incrpos_advance in Hi by (done || lia). injection Hi as <-. set (x := sub _ _ _) in *.
  apply exit_if_Ok, Z.ltb_ge in Hmax. exists (ssh_string x). split; [exists x; by rewrite Hl|]. unfold ssh_string. rewrite zlen_app, Hl. split; [by rewrite <- app_assoc, <- Hu2|].
  change (zlen (store32h n)) with 4. split; [|done]. unfold advance. cbn. f_equal. lia.
Qed.

(** ** Texts *)

Lemma cstr_nul x : cstr (x ++ [0]) = cstr x.
Proof. induction x as [|c x IH]; [done|]. cbn. case_match; [done|]. by rewrite IH. Qed.

Lemma cstr_length_nonul x : zlen (cstr x) = zlen x -> nonul x /\ cstr x = x.
Proof.
  induction x as [|c x IH]; [by repeat constructor|]. cbn. destruct (Z.eqb_spec c 0) as [->|Hc].
  - rewrite zlen_cons. intros H. unfold zlen in H. cbn in H. lia.
  - rewrite !zlen_cons. intros H. destruct IH as [Hn ->]; [lia|]. split; [by constructor|done].
Qed.

Lemma cstr_take x : take (length (cstr x)) x = cstr x.
Proof. induction x as [|c x IH]; [done|]. cbn. case_match; [done|]. cbn. by rewrite IH. Qed.

Lemma constant_time_strcmp_eq a b : bytes_ok a -> bytes_ok b -> constant_time_strcmp a b = bool_decide (cstr a = cstr b).
Proof.
  intros Ha Hb. unfold constant_time_strcmp. destruct (Z.eqb_spec (zlen (cstr a)) (zlen (cstr b))) as [E|E]; cbn [negb].
  - unfold zlen in *. rewrite Nat2Z.id, cstr_take. replace (length (cstr a)) with (length (cstr b)) by lia. rewrite cstr_take.
    apply eq_true_iff_eq. rewrite Z.eqb_eq, bool_decide_eq_true. apply constant_time_memcmp_eq; [by apply cstr_bytes..|lia].
  - symmetry. apply bool_decide_eq_false. intros Heq. by rewrite Heq in E.
Qed.

(** What the file of users holds. *)
Lemma span_Forall (Q : Z -> Prop) p l x y : Forall Q l -> span p l = (x, y) -> Forall Q x /\ Forall Q y.
Proof.
  intros Hl. revert x y. induction Hl as [|b l Hb Hl IH]; intros x y; cbn; [by intros [= <- <-]|].
  destruct (p b); [|intros [= <- <-]; split; [constructor|by constructor]]. destruct (span p l) as [x' y'] eqn:E. intros [= <- <-].
  destruct (IH _ _ eq_refl). split; [by constructor|done].
Qed.

Lemma strtok_Forall (Q : Z -> Prop) d l t r : Forall Q l -> strtok_r d l = (t, r) -> match t with Some t => Forall Q t | None => True end /\ Forall Q r.
Proof.
  intros Hl. unfold strtok_r. destruct (span _ l) as [x y] eqn:E1. destruct (span_Forall Q _ _ _ _ Hl E1) as [_ Hy].
  destruct y as [|c y]; cbn [snd]; [intros [= <- <-]; split; [done|constructor]|].
  destruct (span _ (c :: y)) as [t' r'] eqn:E2. destruct (span_Forall Q _ _ _ _ Hy E2) as [Ht Hr].
  destruct r' as [|z r']; intros [= <- <-]; (split; [done|]); [constructor|by apply Forall_cons in Hr as [_ ?]].
Qed.

Lemma cstr_Forall (Q : Z -> Prop) l : Forall Q l -> Forall Q (cstr l).
Proof. induction 1 as [|c x Hc Hx IH]; [constructor|]. cbn. case_match; [constructor|by constructor]. Qed.

Lemma strip_eol_Forall (Q : Z -> Prop) l : Forall Q l -> Forall Q (strip_eol l).
Proof.
  induction 1 as [|c x Hc Hx IH]; [constructor|]. cbn. destruct (strip_eol x); [case_match; [constructor|by repeat constructor]|by constructor].
Qed.

Lemma getline_Forall (Q : Z -> Prop) f l r : Forall Q f -> getline f = (l, r) -> Forall Q l /\ Forall Q r.
Proof.
  intros Hf. unfold getline. destruct (span _ f) as [x y] eqn:E. destruct (span_Forall Q _ _ _ _ Hf E) as [Hx Hy].
  destruct y as [|b y]; intros [= <- <-]; [done|]. apply Forall_cons in Hy as [Hb Hy]. split; [|done]. apply Forall_app. split; [done|by constructor].
Qed.

(** Bytes of a text. *)
Definition text_byte (b : Z) : Prop := is_byte b /\ b <> 0.

Lemma text_bytes x : Forall text_byte x <-> bytes_ok x /\ nonul x.
Proof. unfold bytes_ok, nonul, text_byte. by rewrite Forall_and. Qed.

Lemma find_user_text fuel f u h role : bytes_ok f -> find_user_loop fuel f u = Ok (Some (Some h, role)) -> Forall text_byte h.
Proof.
  revert f. induction fuel as [|fuel IH]; intros f Hf; [done|]. cbn [find_user_loop]. destruct f as [|c f]; [done|].
  destruct (getline (c :: f)) as [line f'] eqn:Eg. destruct (getline_Forall _ _ _ _ Hf Eg) as [Hl Hf'].
  apply strip_eol_Forall, cstr_Forall in Hl. assert (Forall text_byte (cstr (strip_eol line))) as Ht by (apply text_bytes; split; [done|apply cstr_nonul]).
  destruct (cstr (strip_eol line)) as [|d l] eqn:El; [by apply IH|].
  destruct (strchr 58 (d :: l)); [|by apply IH]. destruct (strtok_r 58 (d :: l)) as [t sp] eqn:Et. destruct (strtok_Forall _ _ _ _ _ Ht Et) as [_ Hsp].
  destruct t as [t|]; [|by apply IH]. destruct (strcmp_null t u) as [same| |]; cbn [obind]; [|done..]. destruct same; cbn [negb]; [|by apply IH].
  destruct (strtok_r 58 sp) as [t2 sp2] eqn:Et2. destruct (strtok_Forall _ _ _ _ _ Hsp Et2) as [Ht2 _]. destruct (strtok_r 58 sp2). by intros [= -> _].
Qed.

Lemma find_user_null fuel f o : find_user_loop fuel f None = Ok o -> o = None.
Proof.
  revert f. induction fuel as [|fuel IH]; intros f; cbn [find_user_loop]; [by intros [= <-]|]. destruct f as [|c f]; [by intros [= <-]|].
  destruct (getline _) as [line f']. destruct (cstr _); [by apply IH|]. destruct (strchr _ _); [|by apply IH]. destruct (strtok_r _ _) as [[t|] sp]; [done|by apply IH].
Qed.

Lemma code_text i : text_byte (code codes_base64 i).
Proof.
  assert (Forall text_byte codes_base64) as Hc by (apply text_bytes; split; [by apply bytes_check|by apply nonul_check]).
  unfold code. assert (0 <= Z.land i 63 < 64) as Hr by (change 63 with (Z.ones 6); rewrite Z.land_ones by done; by apply Z.mod_pos_bound).
  rewrite Forall_forall in Hc. apply Hc, list_elem_of_In, nth_In. change (length codes_base64) with 64%nat. lia.
Qed.

Lemma base64_text x n t : base64_encode x n = Some t -> Forall text_byte t.
Proof.
  assert (text_byte 61) as H61 by done. unfold base64_encode, base64_encode_internal. case_match; [done|]. intros [= <-]. revert x H. intros x _. revert x.
  refine (encode_groups_step _ _ _ _ _); [constructor|intros; cbn; repeat constructor; first [apply code_text|done]..|].
  intros a b c l IH. cbn [encode_groups]. repeat (constructor; [apply code_text|]). done.
Qed.

Lemma cstr_id_iff x : zlen (cstr x) = zlen x <-> nonul x.
Proof.
  split; [by intros [H _]%cstr_length_nonul|]. intros H. by rewrite cstr_id.
Qed.

Section auth.
Context {P : Type} {SP : AuthSession P} {W : Type} {SW : AuthSys W} {EC ED : Type} {KA : KeyAlgs EC ED}.
Context (cf : sshd4a) (svr_opts : svr_runopts) (sha512 : bytes -> bytes) (einval : bool).

Abbreviation authses := (@authses P W).

(** ** Laws of the session below *)

Class AuthLaws := {
  al_pl_pl b p : ses_payload (ses_set_payload b p) = Some b;
  al_set_pl b b' p : ses_set_payload b (ses_set_payload b' p) = ses_set_payload b p;
  al_pl_wp b p : ses_payload (ses_set_writepayload b p) = ses_payload p;
  al_pl_enc p p' : ses_encrypt_packet p = Ok p' -> ses_payload p' = ses_payload p;
  al_done_set v p : ses_authdone (ses_set_authdone v p) = v;
  al_done_wp b p : ses_authdone (ses_set_writepayload b p) = ses_authdone p;
  al_done_pl b p : ses_authdone (ses_set_payload b p) = ses_authdone p;
  al_done_enc p p' : ses_encrypt_packet p = Ok p' -> ses_authdone p' = ses_authdone p;
  al_beg_wp b p : ses_payload_beginning (ses_set_writepayload b p) = ses_payload_beginning p;
  al_beg_pl b p : ses_payload_beginning (ses_set_payload b p) = ses_payload_beginning p;
  al_beg_enc p p' : ses_encrypt_packet p = Ok p' -> ses_payload_beginning p' = ses_payload_beginning p;
  al_id_wp b p : ses_session_id (ses_set_writepayload b p) = ses_session_id p;
  al_id_pl b p : ses_session_id (ses_set_payload b p) = ses_session_id p;
  al_id_enc p p' : ses_encrypt_packet p = Ok p' -> ses_session_id p' = ses_session_id p;
  al_id_ok p : bytes_ok (ses_session_id p) /\ zlen (ses_session_id p) <= 1000;
  al_beg_ok p : 0 <= ses_payload_beginning p;
}.

Context {L : AuthLaws}.

(** The session has only been written to and read from: nothing of it that is asked here has
    changed but the position in the payload. *)
Record quiet (s s' : authses) : Prop := {
  q_done : ses_authdone (a_ses s') = ses_authdone (a_ses s);
  q_beg : ses_payload_beginning (a_ses s') = ses_payload_beginning (a_ses s);
  q_id : ses_session_id (a_ses s') = ses_session_id (a_ses s);
}.

Lemma quiet_refl s : quiet s s.
Proof. by split. Qed.

Lemma quiet_trans s1 s2 s3 : quiet s1 s2 -> quiet s2 s3 -> quiet s1 s3.
Proof. intros [] []. split; congruence. Qed.

Lemma aw_quiet f s s' : aw f s = Ok s' -> quiet s s' /\ ses_payload (a_ses s') = ses_payload (a_ses s) /\ authstate s' = authstate s /\ banner s' = banner s.
Proof.
  unfold aw, pw. intros H. apply obind_Ok in H as (p & Hp & [= <-]). apply obind_Ok in Hp as (b & _ & [= <-]).
  cbn. split; [split; cbn; [apply al_done_wp|apply al_beg_wp|apply al_id_wp]|]. split; [apply al_pl_wp|done].
Qed.

Lemma encrypt_quiet s s' : a_encrypt s = Ok s' -> quiet s s' /\ ses_payload (a_ses s') = ses_payload (a_ses s) /\ authstate s' = authstate s /\ banner s' = banner s.
Proof.
  unfold a_encrypt. intros H. apply obind_Ok in H as (p & Hp & [= <-]).
  cbn. split; [split; cbn; [by apply al_done_enc|by apply al_beg_enc|by apply al_id_enc]|]. split; [by apply al_pl_enc|done].
Qed.

Lemma ar_quiet {A} (m : buffer -> outcome (A * buffer)) R s a s' b : took m R -> ses_payload (a_ses s) = Some b -> wf b -> ar m s = Ok (a, s') ->
  exists bs b', R a bs /\ unread b = bs ++ unread b' /\ b' = advance b (zlen bs) /\ wf b' /\ ses_payload (a_ses s') = Some b' /\
    quiet s s' /\ authstate s' = authstate s.
Proof.
  intros Hm Hb Hw H. unfold ar in H. rewrite Hb in H. apply obind_Ok in H as ([a1 b'] & Hb' & [= <- <-]).
  destruct (Hm _ _ _ Hw Hb') as (bs & HR & Hu & E & Hw'). exists bs, b'. do 4 (split; [done|]).
  cbn. split; [apply al_pl_pl|]. split; [|done]. split; cbn; [apply al_done_pl|apply al_beg_pl|apply al_id_pl].
Qed.

(** ** Replies *)

Lemma failure_reply partial incr s s' : send_msg_userauth_failure svr_opts partial incr s = Ok s' ->
  quiet s s' /\ failcount (authstate s') <= maxauthtries svr_opts /\
  authstate s' = (if incr then set_failcount (u32 (failcount (authstate s) + 1)) (authstate s) else authstate s).
Proof.
  unfold send_msg_userauth_failure. intros H. apply obind_Ok in H as (s1 & H1 & H). destruct (aw_quiet _ _ _ H1) as (Q1 & _ & A1 & _).
  apply obind_Ok in H as (tb & _ & H). apply obind_Ok in H as (s2 & H2 & H). destruct (aw_quiet _ _ _ H2) as (Q2 & _ & A2 & _).
  apply obind_Ok in H as (s3 & H3 & H). destruct (aw_quiet _ _ _ H3) as (Q3 & _ & A3 & _).
  apply obind_Ok in H as (s4 & H4 & H). destruct (encrypt_quiet _ _ H4) as (Q4 & _ & A4 & _).
  assert (Q : quiet s s4) by eauto using quiet_trans. assert (E : authstate s4 = authstate s) by congruence. destruct incr.
  - destruct (gettime_wrapper _) as [now w]. destruct (sys_genrandom32 w) as [random w2]. apply obind_Ok in H as ([] & Hm & [= <-]).
    apply exit_if_Ok, Z.ltb_ge in Hm. cbn in *. rewrite E in *. split; [|done]. by destruct Q.
  - apply obind_Ok in H as ([] & Hm & [= <-]). apply exit_if_Ok, Z.ltb_ge in Hm. by rewrite E in *.
Qed.

Lemma failure_done partial incr s s' : send_msg_userauth_failure svr_opts partial incr s = Ok s' -> ses_authdone (a_ses s') = ses_authdone (a_ses s).
Proof. intros H. apply failure_reply in H as [[] _]. done. Qed.

(** ** The right password *)

(** The password of a user with a hash in the file of users, or else the stored one. *)
Definition password_right (user stored : option bytes) (pw : bytes) : Prop :=
  nonul pw /\ zlen pw <= DROPBEAR_MAX_PASSWORD_LEN /\ exists o, sshd4a_find_user cf user = Ok o /\
    match o with
    | Some (Some (c :: hash), _) => c <> 0 /\ exists t, base64_encode (sha512 pw) 128 = Some t /\ cstr t = cstr (c :: hash)
    | _ => exists st, stored = Some st /\ hd 0 st <> 0 /\ pw = cstr st
    end.

(** ** The password request *)

Lemma ar_takes {A} (m : buffer -> outcome (A * buffer)) bs a (s : authses) b rest : takes m bs a -> ses_payload (a_ses s) = Some b -> wf b -> unread b = bs ++ rest ->
  exists b', ar m s = Ok (a, with_a_ses (ses_set_payload b' (a_ses s)) s) /\ wf b' /\ unread b' = rest /\ used b' = used b.
Proof.
  intros Hm Hb Hw Hu. destruct (Hm b rest Hw Hu) as (He & Hu' & Hw'). exists (advance b (zlen bs)). unfold ar. rewrite Hb, He. done.
Qed.

Lemma takes_getstring x : zlen x <= MAX_STRING_LEN -> takes (fun b => let* (t, l, b) := buf_getstring b in Ok ((t, l), b)) (ssh_string x) (x ++ [0], zlen x).
Proof. intros Hx b rest Hw Hu. destruct (takes_string x Hx b rest Hw Hu) as (-> & ? & ?). done. Qed.

Definition config_bytes : Prop := match authorized_users_file cf with Some f => bytes_ok f | None => True end.

Lemma with_payload_twice b b' (s : authses) :
  with_a_ses (ses_set_payload b (a_ses (with_a_ses (ses_set_payload b' (a_ses s)) s))) (with_a_ses (ses_set_payload b' (a_ses s)) s) =
  with_a_ses (ses_set_payload b (a_ses s)) s.
Proof. unfold with_a_ses. cbn. by rewrite al_set_pl. Qed.

(** The session with the payload read on, and possibly the hash of the user stored. *)
Definition password_read (s s1 : authses) : Prop :=
  exists b f, wf b /\ s1 = with_authstate f (with_a_ses (ses_set_payload b (a_ses s)) s) /\
    (f = (fun a => a) \/
     exists c h role, f = set_pw_passwd (Some (c :: h)) /\ sshd4a_find_user cf (username (authstate s)) = Ok (Some (Some (c :: h), role))).

(** The comparison with the stored password, or with the hash from the file of users. *)
Lemma stored_compare u stored (pw st : bytes) o : bytes_ok pw -> bytes_ok st -> nonul pw -> zlen pw <= DROPBEAR_MAX_PASSWORD_LEN ->
  sshd4a_find_user cf u = Ok o -> match o with Some (Some (_ :: _), _) => False | _ => True end -> stored = Some st ->
  password_right u stored pw <-> hd 0 st <> 0 /\ constant_time_strcmp pw st = true.
Proof.
  intros Hpw Hst Hn Hl Ho Hm ->. rewrite constant_time_strcmp_eq, (cstr_id pw), bool_decide_eq_true by done. split.
  - intros (_ & _ & o' & Ho' & H). rewrite Ho in Ho'. injection Ho' as <-.
    assert (exists st0, Some st = Some st0 /\ hd 0 st0 <> 0 /\ pw = cstr st0) as (st0 & [= <-] & ?) by (by destruct o as [[[[|? ?]|] ?]|]). done.
  - intros [H1 H2]. split; [done|]. split; [done|]. exists o. split; [done|]. destruct o as [[[[|? ?]|] ?]|]; [| done| |]; by exists st.
Qed.

Lemma hash_compare u stored (pw : bytes) c hash role : (forall x, bytes_ok (sha512 x)) -> bytes_ok (c :: hash) -> nonul pw -> zlen pw <= DROPBEAR_MAX_PASSWORD_LEN ->
  sshd4a_find_user cf u = Ok (Some (Some (c :: hash), role)) ->
  password_right u stored pw <-> c <> 0 /\ constant_time_strcmp (match base64_encode (sha512 pw) 128 with Some t => t | None => [] end) (c :: hash) = true.
Proof.
  intros Hsha Hh Hn Hl Ho. destruct (base64_encode (sha512 pw) 128) as [t|] eqn:Et.
  - rewrite constant_time_strcmp_eq, bool_decide_eq_true by (done || by eapply text_bytes, base64_text). split.
    + intros (_ & _ & o' & Ho' & H). rewrite Ho in Ho'. injection Ho' as <-. destruct H as (Hc & t' & Ht' & E). split; [done|]. congruence.
    + intros [Hc E]. split; [done|]. split; [done|]. eexists. split; [exact Ho|]. split; [done|]. by exists t.
  - rewrite constant_time_strcmp_eq, bool_decide_eq_true by (done || constructor). split.
    + intros (_ & _ & o' & Ho' & H). rewrite Ho in Ho'. injection Ho' as <-. destruct H as (Hc & t' & Ht' & E). congruence.
    + intros [Hc E]. cbn in E. by destruct (Z.eqb_spec c 0).
Qed.

Lemma config_hash u h role : config_bytes -> sshd4a_find_user cf u = Ok (Some (Some h, role)) -> Forall text_byte h.
Proof. unfold config_bytes, sshd4a_find_user. intros Hc H. destruct (authorized_users_file cf); [by eapply find_user_text|done]. Qed.

Lemma svr_auth_password_eq s b pw tail o :
  ses_payload (a_ses s) = Some b -> wf b -> unread b = 0 :: ssh_string pw ++ tail -> zlen pw <= MAX_STRING_LEN ->
  (zlen pw <= DROPBEAR_MAX_PASSWORD_LEN -> sshd4a_find_user cf (username (authstate s)) = Ok o) -> (forall x, bytes_ok (sha512 x)) -> config_bytes ->
  (forall st, pw_passwd (authstate s) = Some st -> bytes_ok st) ->
  let right := password_right (username (authstate s)) (pw_passwd (authstate s)) pw in
  exists s1, password_read s s1 /\
    ((right /\ svr_auth_password cf svr_opts sha512 true s = method_done svr_opts AUTH_TYPE_PASSWORD s1) \/
     (~ right /\ svr_auth_password cf svr_opts sha512 true s = send_msg_userauth_failure svr_opts false true s1) \/
     (pw_passwd (authstate s) = None /\ svr_auth_password cf svr_opts sha512 true s = Undef)).
Proof.
  intros Hb Hw Hu Hl Ho Hsha Hcf Hstok. cbn zeta. unfold svr_auth_password.
  destruct (ar_takes buf_getbool [0] 0 s b (ssh_string pw ++ tail)) as (b1 & -> & Hw1 & Hu1 & _); [by apply takes_bool; left|done..|]. cbn [obind Z.eqb negb].
  destruct (ar_takes _ _ _ (with_a_ses (ses_set_payload b1 (a_ses s)) s) b1 tail (takes_getstring pw Hl)) as (b2 & -> & Hw2 & Hu2 & _); [cbn; apply al_pl_pl|done|done|]. cbn [obind].
  rewrite with_payload_twice. set (s2 := with_a_ses (ses_set_payload b2 (a_ses s)) s).
  assert (R2 : password_read s s2) by (exists b2, (fun a => a); by split; [|split; [|left]]).
  assert (Hpw : bytes_ok pw). { pose proof (unread_ok b Hw) as H. rewrite Hu in H. unfold bytes_ok, ssh_string in H. rewrite Forall_cons, !Forall_app in H. apply H. }
  destruct (Z.leb_spec (zlen pw) DROPBEAR_MAX_PASSWORD_LEN) as [Hlen|Hlen]; cbn [andb negb].
  2:{ exists s2. split; [done|]. right; left. cbn [obind]. rewrite (proj2 (Z.ltb_lt _ _)) by lia. split; [|done]. intros (_ & ? & _). lia. }
  specialize (Ho Hlen). rewrite (proj2 (Z.ltb_ge _ _)) by lia. unfold sshd4a_svr_auth_password. change (authstate s2) with (authstate s). rewrite Ho. cbn [obind]. rewrite cstr_nul.
  replace (take (Z.to_nat (zlen pw)) (pw ++ [0])) with pw by (by unfold zlen; rewrite Nat2Z.id, take_app_length).
  destruct (Z.eqb_spec (zlen pw) (zlen (cstr pw))) as [E|E].
  - assert (nonul pw) as Hn by by apply cstr_id_iff. rewrite (cstr_id pw) by done.
    destruct o as [[[[|c hash]|] role]|]; cbn [obind].
    2:{ pose proof (hash_compare _ (pw_passwd (authstate s)) _ _ _ _ Hsha (proj1 (proj1 (text_bytes _) (config_hash _ _ _ Hcf Ho))) Hn Hlen Ho) as HR.
        eexists. split; [exists b2; eexists; split; [done|]; split; [reflexivity|]; right; by exists c, hash, role|].
        cbn [hd]. change (2 * 64) with 128. destruct (Z.eqb_spec c 0); [right; left; split; [rewrite HR; by intros []|done]|].
        destruct (constant_time_strcmp _ _); [left; split; [by apply HR|done]|right; left; split; [rewrite HR; naive_solver|done]]. }
    all: exists s2; split; [done|]; destruct (pw_passwd (authstate s)) as [st|]; [|by right; right];
      pose proof (stored_compare _ _ pw st _ Hpw (Hstok _ eq_refl) Hn Hlen Ho I eq_refl) as HR;
      destruct (Z.eqb_spec (hd 0 st) 0); [right; left; split; [rewrite HR; by intros []|done]|];
      destruct (constant_time_strcmp _ _); [left; split; [by apply HR|done]|right; left; split; [rewrite HR; naive_solver|done]].
  - assert (~ password_right (username (authstate s)) (pw_passwd (authstate s)) pw) by (intros (Hn%cstr_id_iff & _); lia).
    destruct o as [[[[|c hash]|] role]|]; cbn [obind]; try (exists s2; split; [done|]; by right; left).
    eexists. split; [exists b2; eexists; split; [done|]; split; [reflexivity|]; right; by exists c, hash, role|]. by right; left.
Qed.

Lemma password_read_quiet s s1 : password_read s s1 -> quiet s s1.
Proof. intros (b & f & _ & -> & _). split; cbn; [apply al_done_pl|apply al_beg_pl|apply al_id_pl]. Qed.

Lemma failure_reply_state partial incr s s' : send_msg_userauth_failure svr_opts partial incr s = Ok s' ->
  username (authstate s') = username (authstate s) /\ pw_passwd (authstate s') = pw_passwd (authstate s).
Proof. intros (_ & _ & ->)%failure_reply. by destruct incr. Qed.

Lemma success_reply s s' : send_msg_userauth_success s = Ok s' -> authstate s' = authstate s.
Proof.
  unfold send_msg_userauth_success. intros H. apply obind_Ok in H as (s1 & (_ & _ & A1 & _)%aw_quiet & H). apply obind_Ok in H as (s2 & (_ & _ & A2 & _)%encrypt_quiet & H).
  injection H as <-. cbn. rewrite <- A1, <- A2. by destruct (_ =? 0).
Qed.

Lemma method_done_state m s s' : method_done svr_opts m s = Ok s' ->
  username (authstate s') = username (authstate s) /\ pw_passwd (authstate s') = pw_passwd (authstate s) /\ failcount (authstate s') = failcount (authstate s).
Proof.
  unfold method_done. case_match; [intros (_ & _ & ->)%failure_reply; done|]. intros ->%success_reply. done.
Qed.

(** How a password request ends: refused for the flag that asks for a change of password, or
    by the comparison. *)
Lemma password_cases s b s' :
  ses_payload (a_ses s) = Some b -> wf b -> (forall x, bytes_ok (sha512 x)) -> config_bytes ->
  (forall st, pw_passwd (authstate s) = Some st -> bytes_ok st) -> svr_auth_password cf svr_opts sha512 true s = Ok s' ->
  (exists s1, quiet s s1 /\ authstate s1 = authstate s /\ send_msg_userauth_failure svr_opts false true s1 = Ok s') \/
  exists s1 pw tail, password_read s s1 /\ unread b = 0 :: ssh_string pw ++ tail /\
    let right := password_right (username (authstate s)) (pw_passwd (authstate s)) pw in
    (right /\ method_done svr_opts AUTH_TYPE_PASSWORD s1 = Ok s') \/ (~ right /\ send_msg_userauth_failure svr_opts false true s1 = Ok s').
Proof.
  intros Hb Hw Hsha Hcf Hst H. pose proof H as Hrun. unfold svr_auth_password in H. apply obind_Ok in H as ([v s1] & H1 & H).
  destruct (ar_quiet _ _ _ _ _ _ took_bool Hb Hw H1) as (bs & b1 & (c & -> & ->) & Hu & -> & Hw1 & Hb1 & Q1 & A1).
  destruct (Z.eqb_spec c 0) as [Hc|Hc]; cbn [negb Z.eqb] in H; [|by left; exists s1]. right. subst c.
  apply obind_Ok in H as ([[t l] s2] & H2 & H). destruct (ar_quiet _ _ _ _ _ _ took_string Hb1 Hw1 H2) as (bs & b2 & (pw & -> & -> & -> & Hl) & Hu2 & _ & Hw2 & Hb2 & Q2 & A2).
  rewrite Hu2 in Hu. assert (exists o, zlen pw <= DROPBEAR_MAX_PASSWORD_LEN -> sshd4a_find_user cf (username (authstate s)) = Ok o) as [o Ho].
  { destruct (Z.leb_spec (zlen pw) DROPBEAR_MAX_PASSWORD_LEN); [|exists None; lia]. cbn [andb] in H. unfold sshd4a_svr_auth_password in H. rewrite A2, A1 in H.
    destruct (sshd4a_find_user cf (username (authstate s))) as [o| |]; [by exists o|done..]. }
  destruct (svr_auth_password_eq s b pw (unread b2) o Hb Hw Hu Hl Ho Hsha Hcf Hst) as (s3 & Hr & Hcase). exists s3, pw, (unread b2). do 2 (split; [done|]).
  cbn zeta in *. destruct Hcase as [[? E]|[[? E]|[_ E]]]; rewrite E in Hrun; [by left|by right|done].
Qed.
End auth.
