(* ===== verification/AuthRun.v ===== *)
(** * Authentication: nobody gets in without a credential

    The requests of a session in any order, with anything between them that leaves the
    authentication alone. When they end with the authentication done, one of them carried a
    credential: the right password, or a listed key with a signature over the session and the
    request. Wrong passwords are refused, and only so many of them. *)

From S2P Require Import Prelude Bytes CString Base64 Sshd4a Buffer Packet AuthKeys AuthKeysSafety KeyTypes Rsa SignKey Channel ChannelLaws Auth AuthSafety.

(** ** Reading keys *)

(** [m] does nothing to the buffer but read on. *)
Abbreviation reads_on m := (took m (fun _ _ => True)).

Lemma took_weaken {A} (m : buffer -> outcome (A * buffer)) R : took m R -> reads_on m.
Proof. intros Hm b a b' Hw H. destruct (Hm b a b' Hw H) as (bs & _ & ?). by exists bs. Qed.

Lemma reads_on_ret {A} (f : buffer -> A) : reads_on (fun b => Ok (f b, b)).
Proof. intros b a b' Hw [= <- <-]. exists []. by rewrite advance_0. Qed.

Lemma reads_on_bind {A B} (m : buffer -> outcome (A * buffer)) (k : A -> buffer -> outcome (B * buffer)) :
  reads_on m -> (forall a, reads_on (k a)) -> reads_on (fun b => let* (a, b) := m b in k a b).
Proof.
  intros Hm Hk b r b' Hw H. apply obind_Ok in H as ([a b1] & H1 & H). destruct (Hm _ _ _ Hw H1) as (x & _ & Hu & -> & Hw1).
  destruct (Hk a _ _ _ Hw1 H) as (y & _ & Hu2 & -> & Hw2). exists (x ++ y). split; [done|]. rewrite Hu, Hu2, <- app_assoc, advance_advance, zlen_app.
  split; [done|]. split; [done|]. by rewrite advance_advance in Hw2.
Qed.

Lemma incrpos_reads b n b' : wf b -> 0 <= n -> buf_incrpos b n = Ok b' -> exists x, unread b = x ++ unread b' /\ b' = advance b (zlen x) /\ wf b'.
Proof.
  intros Hw Hn H. rewrite buf_incrpos_eq in H by done. destruct (Z.ltb_spec (buf_len b) (buf_pos b + n)); [done|]. injection H as <-.
  destruct (took_prefix b n Hw Hn ltac:(lia)) as (Hl & Hu & Hw'). eexists. split; [exact Hu|]. by rewrite Hl.
Qed.

Lemma reads_on_mpint : reads_on buf_getmpint.
Proof.
  intros b v b' Hw H. unfold buf_getmpint in H. apply obind_Ok in H as ([len b1] & H1 & H).
  destruct (took_int _ _ _ Hw H1) as (x & [-> Hlen] & Hu & E & Hw1). unfold is_u32 in Hlen.
  destruct (Z.eqb_spec len 0); [injection H as <- <-; by exists (store32h len)|]. case_match; [injection H as <- <-; by exists (store32h len)|].
  apply obind_Ok in H as (p & _ & H). apply obind_Ok in H as (top & _ & H). case_match; [injection H as <- <-; by exists (store32h len)|].
  apply obind_Ok in H as (bs & _ & H). apply obind_Ok in H as (b2 & Hi & [= <- <-]). destruct (incrpos_reads _ len _ Hw1 ltac:(lia) Hi) as (y & Hu2 & -> & Hw2).
  exists (store32h len ++ y). split; [done|]. rewrite Hu, Hu2, <- app_assoc. split; [done|]. split; [|done]. by rewrite E, advance_advance, zlen_app.
Qed.

Lemma reads_on_rsa : reads_on buf_get_rsa_pub_key.
Proof.
  intros b k b' Hw H. unfold buf_get_rsa_pub_key in H. apply obind_Ok in H as (b1 & H1 & H).
  destruct (incrpos_reads _ (4 + zlen SSH_SIGNKEY_RSA) _ Hw ltac:(done) H1) as (x & Hu & -> & Hw1).
  assert (reads_on (fun b => let* (e, b) := buf_getmpint b in match e with None => Ok (None, b) | Some e =>
     let* (n, b) := buf_getmpint b in match n with None => Ok (None, b) | Some n =>
       if mp_count_bits n <? MIN_RSA_KEYLEN then Ok (None, b) else if 64 <? mp_count_bits e then Ok (None, b) else Ok (Some (mkrsa n e None None None), b) end end)) as Hr.
  { apply (reads_on_bind buf_getmpint (fun e b => _) reads_on_mpint). intros [e|]; [|apply (reads_on_ret (fun _ => None))].
    apply (reads_on_bind buf_getmpint (fun n b => _) reads_on_mpint). intros [n|]; [|apply (reads_on_ret (fun _ => None))].
    case_match; [apply (reads_on_ret (fun _ => None))|]. case_match; [apply (reads_on_ret (fun _ => None))|apply (reads_on_ret (fun _ => _))]. }
  destruct (Hr _ _ _ Hw1 H) as (y & _ & Hu2 & -> & Hw2). exists (x ++ y). rewrite advance_advance, <- zlen_app in *. rewrite Hu, Hu2, <- app_assoc. done.
Qed.

Section run.
Context {P : Type} {SP : AuthSession P} {W : Type} {SW : AuthSys W} {EC ED : Type} {KA : KeyAlgs EC ED} {L : AuthLaws}.
Context (cf : sshd4a) (svr_opts : svr_runopts) (sha512 : bytes -> bytes) (einval : bool).

Abbreviation authses := (@authses P W).
Implicit Types s : authses.

(** Reading a key reads on in the buffer. *)
Class KeyReads := {
  kr_ecdsa : reads_on buf_get_ecdsa_pub_key;
  kr_ed25519 t : reads_on (buf_get_ed25519_pub_key t);
}.

Context {KR : KeyReads}.

Lemma reads_on_pub_key key type : reads_on (fun b => let* (ret, type, key, b) := buf_get_pub_key b key type in Ok ((ret, type, key), b)).
Proof.
  intros b [[ret ty] k] b' Hw H. apply obind_Ok in H as ([[[ret' ty'] k'] b2] & H & [= <- <- <- <-]).
  unfold buf_get_pub_key in H. apply obind_Ok in H as ([[ident len] b1] & H1 & H).
  assert ((let* (t, l, b) := buf_getstring b in Ok ((t, l), b)) = Ok ((ident, len), b1)) as H1' by by rewrite H1.
  destruct (took_string _ _ _ Hw H1') as (x & (t & -> & -> & -> & Ht) & Hu & E & Hw1).
  case_match; [injection H as <- <- <- <-; by exists (ssh_string t)|]. apply obind_Ok in H as (b0 & Hd & H).
  assert (b0 = b) as ->.
  { subst b1. unfold buf_decrpos in Hd. apply obind_Ok in Hd as ([] & _ & [= <-]). pose proof (zlen_nonneg t). assert (MAX_STRING_LEN < 4294967000) by done.
    rewrite u32_small by lia. destruct b. cbn. unfold ssh_string. rewrite zlen_app. change (zlen (store32h (zlen t))) with 4. f_equal. lia. }
  clear Hd Hu E Hw1 H1 H1' b1. apply obind_Ok in H as ([[ret1 key1] b1] & H1 & H).
  assert (exists y, unread b = y ++ unread b1 /\ b1 = advance b (zlen y) /\ wf b1) as (y & Hu & -> & Hw1).
  { destruct (signkey_type_from_name _); try (apply obind_Ok in H1 as ([k1 b3] & H1 & [= <- <- <-]));
      try (destruct (reads_on_rsa _ _ _ Hw H1) as (y & _ & ?); by exists y); try (destruct (kr_ecdsa _ _ _ Hw H1) as (y & _ & ?); by exists y);
      try (destruct (kr_ed25519 _ _ _ _ Hw H1) as (y & _ & ?); by exists y).
    injection H1 as <- <- <-. exists []. by rewrite advance_0. }
  destruct (signkey_type_from_name _); try (injection H as <- <- <- <-; by exists y);
    apply obind_Ok in H as ([[app len] b3] & H2 & [= <- <- <- <-]);
    assert ((let* (t, l, b) := buf_getstring (advance b (zlen y)) in Ok ((t, l), b)) = Ok ((app, len), b3)) as H2' by (by rewrite H2);
    destruct (took_string _ _ _ Hw1 H2') as (z & _ & Hu2 & -> & Hw2); exists (y ++ z);
    (split; [done|]); rewrite Hu, Hu2, <- app_assoc, advance_advance, zlen_app in *; done.
Qed.

(** ** Keys *)

(** What is signed: the session identifier, and the payload up to the signature. *)
Definition signed_text (s : authses) (b : buffer) : bytes :=
  ssh_string (ses_session_id (a_ses s)) ++ sub (used b) (ses_payload_beginning (a_ses s)) (buf_pos b - ses_payload_beginning (a_ses s)).

(** The text to sign, as it is put together. *)
Lemma signbuf_Ok {B} (s : authses) (b : buffer) (k : buffer -> buffer -> outcome B) r : wf b ->
  let beginning := ses_payload_beginning (a_ses s) in
  let id := ses_session_id (a_ses s) in
  let len := u32 (buf_pos b - beginning) in
  beginning <= buf_pos b ->
  (let* signbuf := buf_new (u32 (buf_pos b + 4 + zlen id)) in
   let* signbuf := buf_putstring signbuf id (zlen id) in
   let* payload := buf_setpos b beginning in
   let* text := buf_read payload len in
   let* signbuf := buf_putbytes signbuf text len in
   let* payload := buf_incrpos payload len in
   let* signbuf := buf_setpos signbuf 0 in k signbuf payload) = Ok r ->
  exists signbuf, mem_read (buf_data signbuf) 0 (buf_len signbuf) = Ok (signed_text s b) /\ k signbuf b = Ok r.
Proof.
  intros Hw beg id len Hbeg H. destruct (al_id_ok (a_ses s)) as [Hidok Hidlen]. pose proof (al_beg_ok (a_ses s)) as Hb0. fold id in Hidok, Hidlen. fold beg in Hb0.
  pose proof Hw as []. assert (BUF_MAX_SIZE < 4000000000) as HM by done. pose proof (zlen_nonneg id).
  assert (len = buf_pos b - beg) as El by (unfold len; apply u32_small; lia). rewrite u32_small in H by lia. rewrite El in H. clear El len.
  set (sz := buf_pos b + 4 + zlen id) in *. apply obind_Ok in H as (sb0 & Hnew & H).
  assert (sz <= BUF_MAX_SIZE) as Hsz. { unfold buf_new in Hnew. apply obind_Ok in Hnew as ([] & Hx & _). by apply exit_if_Ok, Z.ltb_ge in Hx. }
  destruct (view_new sz ltac:(lia)) as (sb0' & E0 & Hv0 & _). rewrite Hnew in E0. injection E0 as <-.
  destruct (append_string sb0 [] sz id Hv0 Hidok) as (sb1 & E1 & Hv1); [unfold zlen at 1; cbn; lia|]. rewrite app_nil_l in Hv1.
  rewrite E1 in H. cbn [obind] in H. assert (buf_setpos b beg = Ok (mkbuf (buf_data b) (buf_len b) beg (buf_size b))) as E2 by (unfold buf_setpos; by rewrite (proj2 (Z.ltb_ge _ _)) by lia).
  rewrite E2 in H. cbn [obind] in H. set (p1 := mkbuf _ _ _ _) in *. assert (wf p1) as Hw1 by (split; cbn; first [done|lia]).
  assert (sub (buf_data p1) beg (buf_pos b - beg) = sub (used b) beg (buf_pos b - beg)) as Hsub by (unfold used; rewrite sub_sub by lia; by rewrite Z.add_0_l).
  rewrite buf_read_eq in H by (done || lia). rewrite (proj2 (Z.ltb_ge _ _)) in H by (cbn; lia). cbn [obind buf_pos p1] in H. rewrite Hsub in H.
  set (text := sub (used b) _ _) in *. assert (zlen text = buf_pos b - beg) as Hlt by (apply zlen_sub; rewrite ?used_zlen by done; lia).
  assert (bytes_ok text) as Ht by (apply bytes_ok_sub, bytes_ok_sub; done). rewrite <- Hlt in H.
  assert (zlen (ssh_string id) = 4 + zlen id) as Hlid by (unfold ssh_string; by rewrite zlen_app).
  destruct (append_bytes sb1 _ sz text Hv1 Ht) as (sb2 & E3 & Hv3); [lia|]. rewrite E3 in H. cbn [obind] in H.
  rewrite buf_incrpos_advance in H by (done || (cbn; lia)). cbn [obind] in H.
  assert (advance p1 (zlen text) = b) as Eb by (destruct b; unfold advance, p1; cbn in *; f_equal; lia). rewrite Eb in H.
  destruct (view_setpos _ _ _ _ 0 Hv3) as (sb3 & E4 & Hv4); [pose proof (zlen_nonneg (ssh_string id ++ text)); lia|].
  rewrite E4 in H. cbn [obind] in H. exists sb3. split; [|done]. pose proof (view_wf _ _ _ _ Hv4) as []. rewrite mem_read_in by lia.
  f_equal. exact (view_used _ _ _ _ Hv4).
Qed.

(** The request [b], behind the name of the method, holds a key of the file of authorized keys
    and a signature with it. *)
Definition key_right (s : authses) (b : buffer) : Prop :=
  exists c sigalgo keyblob tail keyalgo o t key n,
    c <> 0 /\ unread b = c :: ssh_string sigalgo ++ ssh_string keyblob ++ tail /\
    let sigtype := signature_type_from_name sigalgo in
    let keytype := signkey_type_from_signature sigtype in
    let b1 := advance b (1 + zlen (ssh_string sigalgo) + 4) in
    signkey_name_from_type keytype = Ok keyalgo /\ checkpubkey einval (authorized_keys_file cf) keyalgo keyblob = Ok (Some o) /\
    buf_get_pub_key b1 new_sign_key (Some keytype) = Ok (true, t, key, advance b1 n) /\
    buf_verify (advance b1 n) (set_sk_flags_mask (key_flags_mask o) key) sigtype (signed_text s (advance b1 n)) = Ok true.

(** The user and the password are the ones before, and failures have only been added, up to the
    limit. *)
Definition grown (s s' : authses) : Prop := maxauthtries svr_opts < 4294967295 -> 0 <= failcount (authstate s) <= maxauthtries svr_opts ->
  failcount (authstate s) <= failcount (authstate s') <= maxauthtries svr_opts.
Definition kept (s s' : authses) : Prop :=
  username (authstate s') = username (authstate s) /\ pw_passwd (authstate s') = pw_passwd (authstate s) /\ grown s s'.

Lemma kept_trans s1 s2 s3 : kept s1 s2 -> kept s2 s3 -> kept s1 s3.
Proof. unfold kept, grown. intros (? & ? & ?) (? & ? & ?). split_and!; [congruence..|lia]. Qed.

Lemma kept_same s s' : username (authstate s') = username (authstate s) -> pw_passwd (authstate s') = pw_passwd (authstate s) ->
  failcount (authstate s') = failcount (authstate s) -> kept s s'.
Proof. unfold kept, grown. intros ? ? ->. split_and!; [done..|lia]. Qed.

Lemma kept_eq s s' : authstate s' = authstate s -> kept s s'.
Proof. by intros E; apply kept_same; rewrite E. Qed.

Lemma kept_failure partial incr s s' : send_msg_userauth_failure svr_opts partial incr s = Ok s' -> kept s s' /\ ses_authdone (a_ses s') = ses_authdone (a_ses s).
Proof.
  intros H. split; [|exact (failure_done _ _ _ _ _ H)]. destruct (failure_reply_state _ _ _ _ _ H) as [E1 E2]. split; [done|]. split; [done|].
  destruct (failure_reply _ _ _ _ _ H) as (_ & Hm & E). unfold grown. intros HM Hf. rewrite E in *. destruct incr; cbn in *; [|lia]. rewrite u32_small in * by lia. lia.
Qed.

Lemma kept_done m s s' : method_done svr_opts m s = Ok s' -> kept s s'.
Proof. intros H. destruct (method_done_state _ _ _ _ H) as (? & ? & ?). by apply kept_same. Qed.

Lemma pk_ok_reply sigalgo keyblob (s s' : authses) : send_msg_userauth_pk_ok sigalgo keyblob s = Ok s' -> quiet s s' /\ authstate s' = authstate s.
Proof.
  unfold send_msg_userauth_pk_ok. intros H. apply obind_Ok in H as (s1 & H1 & H). destruct (aw_quiet _ _ _ H1) as (Q1 & _ & A1 & _).
  apply obind_Ok in H as (s2 & H2 & H). destruct (aw_quiet _ _ _ H2) as (Q2 & _ & A2 & _).
  apply obind_Ok in H as (s3 & H3 & H). destruct (aw_quiet _ _ _ H3) as (Q3 & _ & A3 & _). destruct (encrypt_quiet _ _ H) as (Q4 & _ & A4 & _).
  split; [eauto using quiet_trans|congruence].
Qed.

Lemma pubkey_signature_cases sigtype keytype keyblob o s b s' : ses_payload (a_ses s) = Some b -> wf b ->
  pubkey_signature svr_opts sigtype keytype keyblob o s = Ok s' ->
  kept s s' /\ (ses_authdone (a_ses s') = ses_authdone (a_ses s) \/
    exists t key n, buf_get_pub_key b new_sign_key (Some keytype) = Ok (true, t, key, advance b n) /\
      buf_verify (advance b n) (set_sk_flags_mask (key_flags_mask o) key) sigtype (signed_text s (advance b n)) = Ok true).
Proof.
  intros Hb Hw H. unfold pubkey_signature in H. apply obind_Ok in H as ([[ret key] s1] & H1 & H). unfold ar in H1. rewrite Hb in H1.
  apply obind_Ok in H1 as ([r b1] & H1 & [= -> <-]). apply obind_Ok in H1 as ([[[ret' t] key'] b1'] & H1 & [= -> -> ->]).
  assert ((let* (ret, type, key, b) := buf_get_pub_key b new_sign_key (Some keytype) in Ok ((ret, type, key), b)) = Ok ((ret, t, key), b1)) as H1' by by rewrite H1.
  destruct (reads_on_pub_key _ _ _ _ _ Hw H1') as (x & _ & _ & -> & Hw1). set (b1 := advance b (zlen x)) in *.
  set (s1 := with_a_ses _ s) in *. assert (quiet s s1) as Q1 by (split; cbn; [apply al_done_pl|apply al_beg_pl|apply al_id_pl]).
  destruct ret; cbn [negb] in H; [|apply kept_failure in H as [K D]; split; [exact K|left; rewrite D; apply Q1]].
  assert (ses_payload (a_ses s1) = Some b1) as Hb1 by apply al_pl_pl. rewrite Hb1 in H.
  destruct (Z.ltb_spec (buf_pos b1) (ses_payload_beginning (a_ses s1))) as [?|Hbeg]; [done|].
  apply (signbuf_Ok s1 b1 (fun signbuf payload => _) s' Hw1 Hbeg) in H as (signbuf & Hd & H). apply obind_Ok in H as (fp & _ & H). rewrite Hd in H. cbn [obind] in H.
  assert (signed_text s1 b1 = signed_text s b1) as Est by (unfold signed_text; by rewrite (q_id _ _ Q1), (q_beg _ _ Q1)). rewrite Est in H.
  apply obind_Ok in H as (ok & Hok & H). destruct ok; [|apply kept_failure in H as [K D]; split; [exact K|left; rewrite D; cbn; rewrite al_done_pl; apply Q1]].
  split; [|right; by exists t, key, (zlen x)]. apply kept_done in H. eapply kept_trans; [|exact H]. apply kept_same; cbn; by destruct (pubkey_options _).
Qed.

Lemma pubkey_cases valid s b s' : ses_payload (a_ses s) = Some b -> wf b -> svr_auth_pubkey cf svr_opts einval valid s = Ok s' ->
  kept s s' /\ (ses_authdone (a_ses s') = ses_authdone (a_ses s) \/ (valid = true /\ key_right s b)).
Proof.
  intros Hb Hw H. unfold svr_auth_pubkey in H. apply obind_Ok in H as ([v s1] & H1 & H).
  destruct (ar_quiet _ _ _ _ _ _ took_bool Hb Hw H1) as (x1 & b1 & (c & -> & ->) & Hu1 & E1 & Hw1 & Hb1 & Q1 & A1).
  apply obind_Ok in H as ([[t l] s2] & H2 & H). destruct (ar_quiet _ _ _ _ _ _ took_string Hb1 Hw1 H2) as (x2 & b2 & (sigalgo & -> & -> & -> & Hl) & Hu2 & E2 & Hw2 & Hb2 & Q2 & A2).
  apply obind_Ok in H as ([len s3] & H3 & H). destruct (ar_quiet _ _ _ _ _ _ took_int Hb2 Hw2 H3) as (x3 & b3 & [-> Hlen] & Hu3 & E3 & Hw3 & Hb3 & Q3 & A3). unfold is_u32 in Hlen.
  apply obind_Ok in H as ([keyblob s4] & H4 & H). unfold ar in H4. rewrite Hb3 in H4. apply obind_Ok in H4 as ([k b4] & H4 & [= -> <-]). apply obind_Ok in H4 as (k & H4 & [= -> <-]).
  set (s4 := with_a_ses _ s3) in *. assert (quiet s s4) as Q by (apply (quiet_trans _ s3); [eauto using quiet_trans|]; split; cbn; [apply al_done_pl|apply al_beg_pl|apply al_id_pl]).
  assert (authstate s4 = authstate s) as A by (cbn; congruence). assert (kept s s4) as K by by apply kept_eq.
  assert (forall p i s1 s2, kept s s1 -> quiet s s1 -> send_msg_userauth_failure svr_opts p i s1 = Ok s2 -> kept s s2 /\ ses_authdone (a_ses s2) = ses_authdone (a_ses s)) as Hfail.
  { intros p i r r' Kr Qr Hr. destruct (kept_failure _ _ _ _ Hr) as [K' D]. split; [by eapply kept_trans|]. rewrite D. apply Qr. }
  replace (take (Z.to_nat (zlen sigalgo)) (sigalgo ++ [0])) with sigalgo in H by (unfold zlen; by rewrite Nat2Z.id, take_app_length).
  destruct valid; cbn [negb] in H; [|destruct (Hfail _ _ _ _ K Q H); by auto].
  case_bool_decide; [destruct (Hfail _ _ _ _ K Q H); by auto|]. apply obind_Ok in H as (keyalgo & Ha & H). apply obind_Ok in H as ([o|] & Ho & H).
  - destruct (Z.eqb_spec c 0) as [->|Hc]; cbn in H.
    + destruct (pk_ok_reply _ _ _ _ H) as [Q' A']. split; [apply kept_eq; congruence|]. left. rewrite (q_done _ _ Q'). apply Q.
    + assert (ses_payload (a_ses s4) = Some b3) as Hb4 by apply al_pl_pl. destruct (pubkey_signature_cases _ _ _ _ _ _ _ Hb4 Hw3 H) as [K' D]. split; [by eapply kept_trans|].
      destruct D as [D|(t & key & n & Hk & Hv)]; [left; rewrite D; apply Q|right; split; [done|]].
      rewrite buf_read_eq in H4 by (done || lia). destruct (Z.ltb_spec (buf_len b3) (buf_pos b3 + len)); [done|]. injection H4 as <-.
      destruct (took_prefix b3 len Hw3 ltac:(lia) ltac:(lia)) as (Hkl & Hu4 & _).
      assert (b3 = advance b (1 + zlen (ssh_string sigalgo) + 4)) as E by (rewrite E3, E2, E1, !advance_advance; change (zlen (store32h len)) with 4; change (zlen [c]) with 1; f_equal; lia). rewrite E in Hk, Hv.
      assert (forall r, signed_text s4 r = signed_text s r) as Est by (intros r; unfold signed_text; by rewrite (q_id _ _ Q), (q_beg _ _ Q)). rewrite Est in Hv.
      exists c, sigalgo, (sub (buf_data b3) (buf_pos b3) len), (unread (advance b3 len)), keyalgo, o, t, key, n. split; [done|]. split; [|done].
      rewrite Hu1, Hu2, Hu3. cbn [app]. rewrite Hu4 at 1. f_equal. f_equal. unfold ssh_string. by rewrite Hkl, <- app_assoc.
  - apply obind_Ok in H as (limit & _ & H). apply obind_Ok in H as (s5 & H5 & [= <-]). destruct (Hfail _ _ _ _ K Q H5) as [K' ?]. split; [|by left]. eapply kept_trans; [exact K'|by apply kept_same].
Qed.

(** ** The state of the authentication *)

Context (random : bytes).

(** The password of the session, from the random bytes at its start. *)
Definition session_password : option bytes := if enable_single_use_passwords cf then Some (sshd4a_generate_single_use_password random) else None.

(** What a user without a password in the file of users is asked for. *)
Definition fallback : bytes := default (str "!!") session_password.

(** The user is looked up once; the password stored is the one of the session, the default, or
    the user's from the file. *)
Definition auth_inv (a : AuthState) : Prop :=
  match username a with
  | None => pw_passwd a = session_password
  | Some u => nonul u /\ exists st, pw_passwd a = Some st /\
      (st = fallback \/ exists c h role, sshd4a_find_user cf (Some u) = Ok (Some (Some (c :: h), role)) /\ st = c :: h)
  end.

Hypothesis Hsha : forall x, bytes_ok (sha512 x).
Hypothesis Hcf : config_bytes cf.
Hypothesis Hrandom : random <> [] /\ bytes_ok random.

Lemma fallback_text : fallback <> [] /\ Forall text_byte fallback.
Proof.
  unfold fallback, session_password. destruct (enable_single_use_passwords cf); cbn [default].
  2: split; [done|apply text_bytes; split; [by apply bytes_check|by apply nonul_check]].
  unfold sshd4a_generate_single_use_password. destruct random as [|r l] eqn:E; [by destruct Hrandom|]. split; [done|].
  apply Forall_map, Forall_true. intros b. unfold compose. assert (Forall text_byte tab64) as Hc by (apply text_bytes; split; [by apply bytes_check|by apply nonul_check]).
  assert (0 <= Z.land b 63 < 64) as Hr by (change 63 with (Z.ones 6); rewrite Z.land_ones by done; by apply Z.mod_pos_bound).
  rewrite Forall_forall in Hc. apply Hc, list_elem_of_In, nth_In. change (length tab64) with 64%nat. lia.
Qed.

Lemma inv_text a st : auth_inv a -> pw_passwd a = Some st -> st <> [] /\ Forall text_byte st.
Proof.
  unfold auth_inv. intros Ha Hst. destruct (username a) as [u|].
  - destruct Ha as (_ & st' & Hst' & [->|(c & h & role & Hf & ->)]); rewrite Hst in Hst'; injection Hst' as ->; [apply fallback_text|].
    split; [done|]. by eapply config_hash.
  - rewrite Hst in Ha. pose proof fallback_text as H. unfold fallback in H. by rewrite <- Ha in H.
Qed.

Lemma text_hd st : st <> [] -> Forall text_byte st -> hd 0 st <> 0.
Proof. intros Hne Ht. destruct Ht as [|c h [_ Hc]]; done. Qed.

(** The right password: the one with the hash in the file of users, or else the fallback. *)
Definition password_credential (user : option bytes) (pw : bytes) : Prop :=
  nonul pw /\ zlen pw <= DROPBEAR_MAX_PASSWORD_LEN /\ exists o, sshd4a_find_user cf user = Ok o /\
    match o with
    | Some (Some ((_ :: _) as hash), _) => base64_encode (sha512 pw) 128 = Some hash
    | _ => pw = fallback
    end.

Lemma inv_not_hash a st o : auth_inv a -> pw_passwd a = Some st -> sshd4a_find_user cf (username a) = Ok o ->
  match o with Some (Some (_ :: _), _) => False | _ => True end -> st = fallback.
Proof.
  unfold auth_inv. intros Ha Hst Ho Hm. destruct (username a) as [u|].
  - destruct Ha as (_ & st' & Hst' & [->|(c & h & role & Hf & ->)]); rewrite Hst in Hst'; injection Hst' as ->; [done|].
    rewrite Hf in Ho. by injection Ho as <-.
  - unfold fallback. by rewrite <- Ha, Hst.
Qed.

Lemma password_right_iff a st pw : auth_inv a -> pw_passwd a = Some st ->
  password_right cf sha512 (username a) (pw_passwd a) pw <-> password_credential (username a) pw.
Proof.
  intros Ha Hst. destruct (inv_text _ _ Ha Hst) as [Hne Ht]. pose proof (text_hd _ Hne Ht) as Hhd. apply text_bytes in Ht as [_ Hn].
  assert (forall o, sshd4a_find_user cf (username a) = Ok o -> match o with
      | Some (Some (c :: hash), _) => c <> 0 /\ exists t, base64_encode (sha512 pw) 128 = Some t /\ cstr t = cstr (c :: hash)
      | _ => exists st', pw_passwd a = Some st' /\ hd 0 st' <> 0 /\ pw = cstr st' end <->
    match o with Some (Some ((_ :: _) as hash), _) => base64_encode (sha512 pw) 128 = Some hash | _ => pw = fallback end) as Hiff.
  { intros o Ho. assert (match o with Some (Some (_ :: _), _) => False | _ => True end -> (exists st', pw_passwd a = Some st' /\ hd 0 st' <> 0 /\ pw = cstr st') <-> pw = fallback) as Hfall.
    { intros Hm. rewrite <- (inv_not_hash a st o Ha Hst Ho Hm). split; [intros (st' & Hst' & _ & ->)|intros ->].
      - rewrite Hst in Hst'. injection Hst' as <-. by apply cstr_id.
      - exists st. by rewrite cstr_id. }
    destruct o as [[[[|c h]|] role]|]; try by apply Hfall. pose proof (config_hash _ _ _ _ Hcf Ho) as Hh. pose proof Hh as [_ Hhn]%text_bytes.
    apply Forall_cons in Hh as [[_ Hc] _]. rewrite (cstr_id (c :: h)) by done. split.
    - intros (_ & t & Ht & E). pose proof (base64_text _ _ _ Ht) as [_ Htn]%text_bytes. rewrite (cstr_id t) in E by done. congruence.
    - intros Ht. split; [done|]. exists (c :: h). by rewrite cstr_id. }
  unfold password_right, password_credential. split; intros (Hpw & Hl & o & Ho & H); (split; [done|]); (split; [done|]); exists o; (split; [done|]); by apply Hiff.
Qed.

(** ** A request *)

(** The user whose password is asked for: the one named, unless the name is too long to be
    looked at. *)
Definition checked_user (user : option bytes) (u : bytes) : option bytes := if MAX_USERNAME_LEN <? zlen u then user else Some u.

Lemma name_is_iff x M : nonul M -> name_is (x ++ [0]) (zlen x) M = true <-> x = M.
Proof.
  intros HM. unfold name_is. rewrite andb_true_iff, Z.eqb_eq, strncmp_prefix by done. split; [|intros ->; split; [done|by exists [0]]].
  intros [Hl [r Hr]]. unfold zlen in Hl. apply app_inj_1 in Hr as [? _]; [done|lia].
Qed.

Lemma fill_passwd_inv x (s s' : authses) : nonul x -> username (authstate s) = None -> auth_inv (authstate s) -> fill_passwd cf x s = Ok s' ->
  let s2 := with_authstate (set_username (Some x)) s' in
  a_ses s2 = a_ses s /\ authtypes (authstate s2) = authtypes (authstate s) /\ auth_inv (authstate s2) /\ username (authstate s2) = Some x /\ failcount (authstate s2) = failcount (authstate s).
Proof.
  intros Hx Hnone Ha H. unfold fill_passwd in H. apply obind_Ok in H as (role & _ & H).
  assert (exists dir shell, s' = with_authstate (fun a => let a := set_account x dir shell a in match pw_passwd a with None => set_pw_passwd (Some (str "!!")) a | Some _ => a end) s) as (dir & shell & ->).
  { destruct (strcmp_eq role SSHD4A_ROLE_ROOT); [injection H as <-; by do 2 eexists|]. destruct (strcmp_eq role SSHD4A_ROLE_SHELL); injection H as <-; by do 2 eexists. }
  unfold auth_inv in *. rewrite Hnone in Ha. cbn zeta. split; [done|]. split; [cbn; by destruct (pw_passwd _)|]. cbn [authstate with_authstate set_username username].
  cbn [pw_passwd set_account]. rewrite Ha. unfold fallback. destruct session_password as [p|] eqn:Ep; cbn.
  - split; [|done]. split; [done|]. rewrite Ha. exists p. split; [done|]. by left.
  - split; [|done]. split; [done|]. exists (str "!!"). split; [done|]. by left.
Qed.

Lemma checkusername_inv x v (s s' : authses) : auth_inv (authstate s) -> checkusername cf (x ++ [0]) (zlen x) s = Ok (v, s') ->
  a_ses s' = a_ses s /\ authtypes (authstate s') = authtypes (authstate s) /\ auth_inv (authstate s') /\
  username (authstate s') = checked_user (username (authstate s)) x /\ failcount (authstate s') = failcount (authstate s) /\ (v = true -> is_Some (username (authstate s'))).
Proof.
  intros Ha H. unfold checkusername in H. unfold checked_user. destruct (Z.ltb_spec MAX_USERNAME_LEN (zlen x)) as [Hl|Hl]; [injection H as <- <-; by repeat split|].
  apply obind_Ok in H as ([] & Hlen & H). apply exit_if_Ok, negb_false_iff, Z.eqb_eq in Hlen. rewrite cstr_nul in *. apply cstr_id_iff in Hlen as Hx. rewrite (cstr_id x) in * by done.
  apply obind_Ok in H as (s1 & H1 & H).
  assert (a_ses s1 = a_ses s /\ authtypes (authstate s1) = authtypes (authstate s) /\ auth_inv (authstate s1) /\ username (authstate s1) = Some x /\ failcount (authstate s1) = failcount (authstate s)) as (Q & Hp & Ha1 & Hu & Hf).
  { destruct (username (authstate s)) as [u|] eqn:Eu.
    - apply obind_Ok in H1 as ([] & Hcmp & [= <-]). apply exit_if_Ok, negb_false_iff in Hcmp. unfold strcmp_eq in Hcmp. apply bool_decide_eq_true in Hcmp.
      assert (nonul u) as Hun by (unfold auth_inv in Ha; rewrite Eu in Ha; apply Ha). rewrite cstr_nul, !cstr_id in Hcmp by done. subst u. by repeat split.
    - apply obind_Ok in H1 as (s2 & H2 & [= <-]). by apply fill_passwd_inv. }
  destruct (checkusername_failed _); [injection H as <- <-; by split_and!|].
  destruct (pw_name _); injection H as <- <-; [split_and!; try done; by exists x|by split_and!].
Qed.

Lemma maybe_banner_quiet (s s' : authses) : maybe_banner s = Ok s' -> quiet s s' /\ ses_payload (a_ses s') = ses_payload (a_ses s) /\ authstate s' = authstate s.
Proof.
  unfold maybe_banner. destruct (banner s) as [text|]; [|intros [= <-]; by repeat split]. intros H. apply obind_Ok in H as (s1 & H & [= <-]). unfold send_msg_userauth_banner in H.
  apply obind_Ok in H as (s2 & H2 & H). destruct (aw_quiet _ _ _ H2) as (Q2 & P2 & A2 & _). apply obind_Ok in H as (s3 & H3 & H). destruct (aw_quiet _ _ _ H3) as (Q3 & P3 & A3 & _).
  apply obind_Ok in H as (s4 & H4 & H). destruct (aw_quiet _ _ _ H4) as (Q4 & P4 & A4 & _). destruct (encrypt_quiet _ _ H) as (Q5 & P5 & A5 & _).
  assert (quiet s s1) as [] by eauto using quiet_trans. split; [by split|]. split; cbn; congruence.
Qed.

(** The credential for the method [m] in the rest [b] of the request. *)
Definition credential (user : option bytes) (m : bytes) (s : authses) (b : buffer) : Prop :=
  (m = AUTH_METHOD_PASSWORD /\ exists pw tail, unread b = 0 :: ssh_string pw ++ tail /\ password_credential user pw) \/
  (m = AUTH_METHOD_PUBKEY /\ key_right s b).

(** A request: the user, the service and the method, and [b'] with what the method takes. *)
Definition request (b : buffer) (u svc m : bytes) (b' : buffer) : Prop :=
  unread b = ssh_string u ++ ssh_string svc ++ ssh_string m ++ unread b' /\ zlen u <= MAX_STRING_LEN /\ zlen svc <= MAX_STRING_LEN /\ zlen m <= MAX_STRING_LEN /\
  b' = advance b (zlen (ssh_string u) + zlen (ssh_string svc) + zlen (ssh_string m)).

Lemma string_unique x y r r' : zlen x <= MAX_STRING_LEN -> zlen y <= MAX_STRING_LEN -> ssh_string x ++ r = ssh_string y ++ r' -> x = y /\ r = r'.
Proof.
  assert (MAX_STRING_LEN < 4294967296) as HM by done. pose proof (zlen_nonneg x). pose proof (zlen_nonneg y). unfold ssh_string. rewrite <- !app_assoc. intros Hx Hy E.
  apply app_inj_1 in E as [E1 E]; [|done]. assert (zlen x = zlen y) as El by (rewrite <- (load_store32h (zlen x)), <- (load_store32h (zlen y)) by (unfold is_u32; lia); by rewrite E1).
  apply app_inj_1 in E; [done|]. unfold zlen in El. lia.
Qed.

Lemma request_unique b u svc m b' u2 svc2 m2 b2 : request b u svc m b' -> request b u2 svc2 m2 b2 -> u2 = u /\ svc2 = svc /\ m2 = m /\ b2 = b'.
Proof.
  intros (Hu & ? & ? & ? & ->) (Hu' & ? & ? & ? & ->). rewrite Hu in Hu'. apply string_unique in Hu' as [<- Hu']; [|done..].
  apply string_unique in Hu' as [<- Hu']; [|done..]. by apply string_unique in Hu' as [<- _].
Qed.

Lemma auth_getstring_took (s : authses) b t l s' : ses_payload (a_ses s) = Some b -> wf b -> auth_getstring s = Ok (t, l, s') ->
  exists x b', t = x ++ [0] /\ l = zlen x /\ zlen x <= MAX_STRING_LEN /\ unread b = ssh_string x ++ unread b' /\ b' = advance b (zlen (ssh_string x)) /\ wf b' /\
    ses_payload (a_ses s') = Some b' /\ quiet s s' /\ authstate s' = authstate s.
Proof.
  intros Hb Hw H. unfold auth_getstring in H. apply obind_Ok in H as ([[t' l'] s1] & H & [= <- <- <-]).
  destruct (ar_quiet _ _ _ _ _ _ took_string Hb Hw H) as (bs & b' & (x & -> & -> & -> & Hl) & Hu & E & Hw' & Hp & Q & A). by exists x, b'.
Qed.

Lemma inv_kept (s s' : authses) : auth_inv (authstate s) -> kept s s' -> auth_inv (authstate s').
Proof. unfold auth_inv. by intros Ha (-> & -> & _). Qed.

Lemma method_none_never (s s' : authses) v : auth_inv (authstate s) -> auth_method cf svr_opts sha512 einval (AUTH_METHOD_NONE ++ [0]) (zlen AUTH_METHOD_NONE) v s = Ok s' ->
  kept s s' /\ ses_authdone (a_ses s') = ses_authdone (a_ses s).
Proof.
  intros Ha H. unfold auth_method in H. assert (nonul AUTH_METHOD_NONE) as HM by by apply nonul_check.
  rewrite (proj2 (name_is_iff _ _ HM) eq_refl) in H.
  case_match; [|by eapply kept_failure]. destruct (pw_passwd (authstate s)) as [p|] eqn:Ep; [|done].
  destruct (inv_text _ _ Ha Ep) as [Hne Ht]. pose proof (text_hd _ Hne Ht). rewrite (proj2 (Z.eqb_neq _ _)) in H by done. by eapply kept_failure.
Qed.

Lemma password_read_inv s s1 : auth_inv (authstate s) -> password_read cf s s1 ->
  auth_inv (authstate s1) /\ failcount (authstate s1) = failcount (authstate s).
Proof.
  intros Ha (b & f & _ & -> & [->|(c & h & role & -> & Hf)]); [done|]. split; [|done]. unfold auth_inv in *. cbn [authstate with_authstate with_a_ses username pw_passwd set_pw_passwd].
  destruct (username (authstate s)) as [u|]; [destruct Ha as [Hu _]; split; [done|]; eexists; split; [done|]; right; by exists c, h, role|].
  exfalso. unfold sshd4a_find_user in Hf. destruct (authorized_users_file cf); [by apply find_user_null in Hf|done].
Qed.

(** A failure has been counted. *)
Definition counted (s s' : authses) : Prop :=
  failcount (authstate s') = u32 (failcount (authstate s) + 1) /\ failcount (authstate s') <= maxauthtries svr_opts.

Lemma counted_failure partial s s1 s' : failcount (authstate s1) = failcount (authstate s) -> send_msg_userauth_failure svr_opts partial true s1 = Ok s' -> counted s s'.
Proof. intros E H. destruct (failure_reply _ _ _ _ _ H) as (_ & Hm & E'). unfold counted. rewrite <- E. split; [by rewrite E'|done]. Qed.

(** How a request for one of the methods ends. *)
Lemma method_cases m v s b s' : ses_payload (a_ses s) = Some b -> wf b -> auth_inv (authstate s) ->
  auth_method cf svr_opts sha512 einval (m ++ [0]) (zlen m) v s = Ok s' ->
  auth_inv (authstate s') /\ grown s s' /\ (ses_authdone (a_ses s') = ses_authdone (a_ses s) \/ credential (username (authstate s)) m s b) /\
  (m = AUTH_METHOD_PASSWORD -> ~ credential (username (authstate s)) m s b -> counted s s').
Proof.
  intros Hb Hw Ha H. destruct (decide (m = AUTH_METHOD_NONE)) as [->|Hm].
  { apply method_none_never in H as [K D]; [|done]. split_and!; [by eapply inv_kept|apply K|by left|done]. }
  assert (forall M, nonul M -> name_is (m ++ [0]) (zlen m) M = bool_decide (m = M)) as Hname by (intros M HM; apply eq_true_iff_eq; by rewrite name_is_iff, bool_decide_eq_true).
  unfold auth_method in H. rewrite !Hname, bool_decide_eq_false_2 in H by (done || by apply nonul_check).
  destruct (_ && bool_decide (m = AUTH_METHOD_PUBKEY)) eqn:Epk.
  { apply andb_prop in Epk as [_ ->%bool_decide_eq_true]. destruct (pubkey_cases _ _ _ _ Hb Hw H) as [K D]. split_and!; [by eapply inv_kept|apply K| |done].
    destruct D as [D|[_ D]]; [by left|right; by right]. }
  destruct (_ && bool_decide (m = AUTH_METHOD_PASSWORD)) eqn:Epw; [|destruct (kept_failure _ _ _ _ H) as [K D]; split_and!; [by eapply inv_kept|apply K|by left|intros _ _; by eapply counted_failure]].
  apply andb_prop in Epw as [_ ->%bool_decide_eq_true].
  destruct (password_cases cf svr_opts sha512 s b s' Hb Hw Hsha Hcf ltac:(intros st Hst; by apply text_bytes, (inv_text _ _ Ha Hst)) H) as
    [(s1 & Q & A & Hf)|(s1 & pw & tail & Hr & Hu & Hcase)].
  { destruct (kept_failure _ _ _ _ Hf) as [K D]. split_and!; [eapply inv_kept; [|exact K]; by rewrite A| |left; rewrite D; apply Q|intros _ _; eapply counted_failure; [|done]; by rewrite A].
    destruct K as (_ & _ & K). unfold grown in *. by rewrite A in K. }
  destruct (password_read_inv _ _ Ha Hr) as [Ha1 Hfc]. destruct Hcase as [[Hright Hd]|[_ Hf]].
  - assert (credential (username (authstate s)) AUTH_METHOD_PASSWORD s b); [|destruct (kept_done _ _ _ Hd) as (? & ? & K); split_and!; [eapply inv_kept; [exact Ha1|by split]|unfold grown in *; by rewrite Hfc in K|by right|done]].
    left. split; [done|]. exists pw, tail. split; [done|].
    destruct (pw_passwd (authstate s)) as [st|] eqn:Est; [by apply (password_right_iff _ _ _ Ha Est); rewrite Est|]. exfalso.
    unfold auth_inv in Ha. destruct (username (authstate s)); [destruct Ha as (_ & st & Hst & _); congruence|].
    destruct Hright as (_ & _ & o & Ho & Ho'). unfold sshd4a_find_user in Ho. assert (o = None) as -> by (destruct (authorized_users_file cf); [by eapply find_user_null|congruence]).
    by destruct Ho' as (st & [=] & _).
  - destruct (kept_failure _ _ _ _ Hf) as [K D]. split_and!; [by eapply inv_kept| |left; rewrite D; apply (password_read_quiet _ _ _ Hr)|intros _ _; by eapply counted_failure].
    destruct K as (_ & _ & K). unfold grown in *. by rewrite Hfc in K.
Qed.

Lemma credential_quiet user m s s1 b : quiet s s1 -> credential user m s1 b -> credential user m s b.
Proof.
  intros Q [?|[-> H]]; [by left|right; split; [done|]]. destruct H as (c & sigalgo & keyblob & tail & keyalgo & o & t & key & n & Hc & Hu & Ha & Ho & Hk & Hv).
  exists c, sigalgo, keyblob, tail, keyalgo, o, t, key, n. do 5 (split; [done|]). unfold signed_text in *. by rewrite (q_id _ _ Q), (q_beg _ _ Q) in Hv.
Qed.

Lemma request_cases s b s' : ses_payload (a_ses s) = Some b -> wf b -> auth_inv (authstate s) -> ses_authdone (a_ses s) = false ->
  recv_msg_userauth_request cf svr_opts sha512 einval s = Ok s' ->
  exists u m b', request b u SSH_SERVICE_CONNECTION m b' /\ let right := credential (checked_user (username (authstate s)) u) m s b' in
    auth_inv (authstate s') /\ grown s s' /\ (ses_authdone (a_ses s') = false \/ right) /\ (m = AUTH_METHOD_PASSWORD -> ~ right -> counted s s').
Proof.
  intros Hb Hw Ha Ed H. unfold recv_msg_userauth_request in H. destruct (gettime_wrapper _) as [now w]. set (s0 := with_authstate _ _) in H.
  assert (quiet s s0) as Q0 by by split. assert (auth_inv (authstate s0)) as Ha0 by exact Ha. assert (username (authstate s0) = username (authstate s)) as Hu0 by done.
  assert (failcount (authstate s0) = failcount (authstate s)) as Hf0 by done.
  change (ses_payload (a_ses s0) = Some b) in Hb. change (a_ses s0) with (a_ses s) in H. rewrite Ed in H. clearbody s0.
  apply obind_Ok in H as (s1 & H1 & H). destruct (maybe_banner_quiet _ _ H1) as (Q1 & P1 & A1). rewrite Hb in P1.
  apply obind_Ok in H as ([[t1 l1] s2] & H2 & H). destruct (auth_getstring_took _ _ _ _ _ P1 Hw H2) as (u & b2 & -> & -> & Hl2 & Hu2 & E2 & Hw2 & P2 & Q2 & A2).
  apply obind_Ok in H as ([[t3 l3] s3] & H3 & H). destruct (auth_getstring_took _ _ _ _ _ P2 Hw2 H3) as (svc & b3 & -> & -> & Hl3 & Hu3 & E3 & Hw3 & P3 & Q3 & A3).
  apply obind_Ok in H as ([[t4 l4] s4] & H4 & H). destruct (auth_getstring_took _ _ _ _ _ P3 Hw3 H4) as (m & b4 & -> & -> & Hl4 & Hu4 & E4 & Hw4 & P4 & Q4 & A4).
  apply obind_Ok in H as ([] & Hs & H). apply exit_if_Ok, negb_false_iff in Hs. assert (nonul SSH_SERVICE_CONNECTION) as Hsn by by apply nonul_check. apply (name_is_iff _ _ Hsn) in Hs as ->.
  apply obind_Ok in H as ([v s5] & H5 & H). assert (authstate s4 = authstate s0) as A by congruence. rewrite <- A in Ha0.
  destruct (checkusername_inv _ _ _ _ Ha0 H5) as (E5 & _ & Ha5 & Hu5 & Hf5 & _). assert (quiet s4 s5) as Q5 by by split; rewrite E5. rewrite <- E5 in P4. rewrite A, Hu0 in Hu5. rewrite A, Hf0 in Hf5.
  assert (quiet s s5) as Q by eauto 8 using quiet_trans. destruct (method_cases _ _ _ _ _ P4 Hw4 Ha5 H) as (Ha' & Hg & D & Hc).
  exists u, m, b4. split; [split_and!; try done; [by rewrite Hu2, Hu3, Hu4|by rewrite E4, E3, E2, !advance_advance, ?Z.add_assoc]|].
  rewrite Hu5 in *. unfold grown, counted in *. rewrite Hf5 in *. cbn zeta. split_and!; [done|done| |].
  - destruct D as [D|D]; [left; rewrite D, <- Ed; apply Q|right; by eapply credential_quiet].
  - intros Hm Hn. apply Hc; [done|]. intros Hr. apply Hn. by eapply credential_quiet.
Qed.

(** ** A session *)

(** The request [b] comes to a session that has become [t] in the meantime, with nothing
    changed in the authentication. *)
Record step (s t : authses) (b : buffer) (s' : authses) : Prop := {
  st_state : authstate t = authstate s;
  st_done : ses_authdone (a_ses t) = ses_authdone (a_ses s);
  st_payload : ses_payload (a_ses t) = Some b;
  st_wf : wf b;
  st_recv : recv_msg_userauth_request cf svr_opts sha512 einval t = Ok s';
}.

(** The sessions that requests lead to from the start of the authentication. *)
Inductive reached (s0 : authses) : authses -> Prop :=
| reached_start : reached s0 (svr_authinitialise cf random s0)
| reached_request s t b s' : reached s0 s -> step s t b s' -> reached s0 s'.

Lemma init_inv s0 : auth_inv (authstate (svr_authinitialise cf random s0)).
Proof.
  unfold svr_authinitialise, sshd4a_svr_authinitialise, auth_inv, session_password. cbn.
  by destruct (sshd4a_enable_public_key_auth cf), (sshd4a_enable_password_file cf), (enable_single_use_passwords cf).
Qed.

Lemma step_done s t b s' : step s t b s' -> ses_authdone (a_ses s) = true -> authstate s' = set_auth_starttime (fst (gettime_wrapper (a_world t))) (authstate s) /\ ses_authdone (a_ses s') = true.
Proof.
  intros [A D _ _ H] Hd. unfold recv_msg_userauth_request in H. destruct (gettime_wrapper (a_world t)) as [now w]. cbn [a_ses with_authstate with_a_world] in H.
  rewrite D, Hd in H. injection H as <-. cbn. by rewrite A, D, Hd.
Qed.

Lemma step_inv s t b s' : auth_inv (authstate s) -> step s t b s' -> auth_inv (authstate s') /\ grown s s'.
Proof.
  intros Ha Hs. destruct (ses_authdone (a_ses s)) eqn:Ed.
  - destruct (step_done _ _ _ _ Hs Ed) as [A _]. unfold grown. rewrite A. split; [done|]. cbn. lia.
  - destruct Hs as [A D Hb Hw H]. rewrite <- A in Ha. rewrite <- D in Ed. destruct (request_cases _ _ _ Hb Hw Ha Ed H) as (u & m & b' & _ & ? & Hg & _). by unfold grown in *; rewrite A in Hg.
Qed.

Lemma reached_inv s0 s : reached s0 s -> auth_inv (authstate s).
Proof. induction 1 as [|s t b s' _ IH Hs]; [apply init_inv|]. by apply (step_inv _ _ _ _ IH Hs). Qed.

(** C4: no session gets its authentication done without a credential: when it is done, one of
    the requests came with the right password (the one that has the hash in the file of users
    or, for a user without one, the single-use password or the text "!!"), or with a key of
    the file of authorized keys and a signature over the session identifier and the request. *)
Theorem auth_needs_credential s0 s : reached s0 s -> ses_authdone (a_ses s) = true ->
  exists s1 t b s2 u m b', reached s0 s1 /\ ses_authdone (a_ses s1) = false /\ step s1 t b s2 /\
    request b u SSH_SERVICE_CONNECTION m b' /\ credential (checked_user (username (authstate s1)) u) m t b'.
Proof.
  induction 1 as [|s t b s' Hr IH Hs].
  - unfold svr_authinitialise. cbn. by rewrite al_done_set.
  - intros Hdone. destruct (ses_authdone (a_ses s)) eqn:Ed; [by apply IH|]. pose proof (reached_inv _ _ Hr) as Ha.
    pose proof Hs as [A D Hb Hw H]. rewrite <- A in Ha.
    destruct (request_cases _ _ _ Hb Hw Ha ltac:(congruence) H) as (u & m & b' & Hq & _ & _ & [E|Hc] & _); [congruence|].
    exists s, t, b, s', u, m, b'. rewrite A in Hc. do 2 (split; [done|]). split; [done|done].
Qed.

(** A session in which [n] requests came with a password that was not right. *)
Inductive guessed (s0 : authses) : nat -> authses -> Prop :=
| guessed_start : guessed s0 0 (svr_authinitialise cf random s0)
| guessed_wrong n s t b s' u b' : guessed s0 n s -> ses_authdone (a_ses s) = false -> step s t b s' ->
    request b u SSH_SERVICE_CONNECTION AUTH_METHOD_PASSWORD b' -> ~ credential (checked_user (username (authstate s)) u) AUTH_METHOD_PASSWORD t b' ->
    guessed s0 (S n) s'
| guessed_other n s t b s' : guessed s0 n s -> step s t b s' -> guessed s0 n s'.

(** C25: however the requests of a session follow each other, at most [maxauthtries] of them can
    come with a wrong password: the next one ends the session. *)
Theorem password_guesses_limited s0 n s : 0 <= maxauthtries svr_opts < 4294967295 -> guessed s0 n s -> Z.of_nat n <= maxauthtries svr_opts.
Proof.
  intros Hmax Hg. assert (auth_inv (authstate s) /\ Z.of_nat n <= failcount (authstate s) <= maxauthtries svr_opts) as (_ & ?); [|lia].
  induction Hg as [|n s t b s' u b' _ [Ha IH] Hd Hs Hq Hn|n s t b s' _ [Ha IH] Hs].
  - split; [apply init_inv|]. unfold svr_authinitialise, sshd4a_svr_authinitialise. cbn.
    destruct (sshd4a_enable_public_key_auth cf), (sshd4a_enable_password_file cf), (enable_single_use_passwords cf); cbn; lia.
  - split; [by apply (step_inv _ _ _ _ Ha Hs)|]. destruct Hs as [A D Hb Hw H]. rewrite <- A in *. rewrite <- D in Hd.
    destruct (request_cases _ _ _ Hb Hw Ha Hd H) as (u2 & m & b2 & Hq2 & _ & _ & _ & Hc). destruct (request_unique _ _ _ _ _ _ _ _ _ Hq Hq2) as (-> & _ & -> & ->).
    destruct (Hc eq_refl Hn) as [E Hle]. rewrite E in *. rewrite u32_small in * by lia. lia.
  - destruct (step_inv _ _ _ _ Ha Hs) as [Ha' Hg]. split; [done|]. unfold grown in Hg. lia.
Qed.

(** ** Logging in *)

Context {SL : SessionLaws P}.

Definition can_send : Prop := forall p m, view (ses_writepayload p) m (zlen m) TRANS_MAX_PAYLOAD_LEN -> exists p', ses_encrypt_packet p = Ok p'.

Lemma success_sends s : can_send -> blank (ses_writepayload (a_ses s)) -> exists s' p p', send_msg_userauth_success s = Ok s' /\
  view (ses_writepayload p) [SSH_MSG_USERAUTH_SUCCESS] 1 TRANS_MAX_PAYLOAD_LEN /\ ses_encrypt_packet p = Ok p' /\ a_ses s' = ses_set_authdone true p'.
Proof.
  intros Hsend Hb. destruct (putbyte_end _ [] SSH_MSG_USERAUTH_SUCCESS Hb) as (b & Eb & Hv); [done|done|].
  set (p := ses_set_writepayload b (a_ses s)). assert (view (ses_writepayload p) [SSH_MSG_USERAUTH_SUCCESS] 1 TRANS_MAX_PAYLOAD_LEN) as Hp by (unfold p; by rewrite sl_wp_wp).
  destruct (Hsend _ _ Hp) as (p' & Ep). unfold send_msg_userauth_success, aw, pw. rewrite Eb. cbn [obind]. unfold a_encrypt. cbn [a_ses with_a_ses]. fold p. rewrite Ep. cbn [obind].
  eexists _, p, p'. split; [done|]. split; [done|]. split; [done|]. cbn. by destruct (_ =? 0).
Qed.

(** After the password, only the key can be left. *)
Definition methods_left (types : Z) : bytes := if has_type types AUTH_TYPE_PUBKEY then AUTH_METHOD_PUBKEY else [].

(** The message of a partial success. *)
Definition partial_msg (types : Z) : bytes := SSH_MSG_USERAUTH_FAILURE :: ssh_string (methods_left types) ++ [1].

Lemma methods_list types : has_type types AUTH_TYPE_PASSWORD = false -> exists tb, auth_methods types = Ok tb /\
  mem_read (buf_data tb) 0 (buf_len tb) = Ok (methods_left types) /\ buf_len tb = zlen (methods_left types) /\ bytes_ok (methods_left types).
Proof.
  intros Ht. unfold auth_methods, methods_left. rewrite Ht. destruct (has_type types AUTH_TYPE_PUBKEY); eexists; (split; [vm_compute; reflexivity|]);
    (split; [vm_compute; reflexivity|]); (split; [reflexivity|]); by apply bytes_check.
Qed.

Lemma password_removed types : has_type (Z.land types (Z.lnot AUTH_TYPE_PASSWORD)) AUTH_TYPE_PASSWORD = false.
Proof. unfold has_type. rewrite <- Z.land_assoc. change (Z.land (Z.lnot AUTH_TYPE_PASSWORD) AUTH_TYPE_PASSWORD) with 0. by rewrite Z.land_0_r. Qed.

Lemma partial_sends s : can_send -> blank (ses_writepayload (a_ses s)) -> failcount (authstate s) <= maxauthtries svr_opts ->
  has_type (authtypes (authstate s)) AUTH_TYPE_PASSWORD = false ->
  exists s' p p', send_msg_userauth_failure svr_opts true false s = Ok s' /\
    view (ses_writepayload p) (partial_msg (authtypes (authstate s))) (zlen (partial_msg (authtypes (authstate s)))) TRANS_MAX_PAYLOAD_LEN /\
    ses_encrypt_packet p = Ok p' /\ a_ses s' = p' /\ authstate s' = authstate s.
Proof.
  intros Hsend Hb Hf Ht. destruct (methods_list _ Ht) as (tb & Etb & Hread & Hlen & Hok). set (types := authtypes (authstate s)) in *.
  assert (Hm : zlen (methods_left types) <= 9) by (unfold methods_left; destruct (has_type types AUTH_TYPE_PUBKEY); apply Z.leb_le; reflexivity).
  destruct (putbyte_end _ [] SSH_MSG_USERAUTH_FAILURE Hb) as (b1 & E1 & Hv1); [done|done|]. cbn [app] in Hv1. change (zlen [SSH_MSG_USERAUTH_FAILURE]) with 1 in Hv1.
  destruct (putstring_end b1 [SSH_MSG_USERAUTH_FAILURE] (methods_left types) Hv1 Hok) as (b2 & E2 & Hv2); [unfold TRANS_MAX_PAYLOAD_LEN; change (zlen [_]) with 1; lia|].
  destruct (putbyte_end b2 _ 1 Hv2) as (b3 & E3 & Hv3); [done|unfold ssh_string; rewrite !zlen_app; change (zlen [_]) with 1; change (zlen (store32h _)) with 4; unfold TRANS_MAX_PAYLOAD_LEN; lia|].
  rewrite <- app_assoc in Hv3. cbn [app] in Hv3. change (view b3 (partial_msg types) (zlen (partial_msg types)) TRANS_MAX_PAYLOAD_LEN) in Hv3.
  unfold send_msg_userauth_failure, aw, pw. rewrite E1. cbn [obind a_ses with_a_ses authstate]. fold types. rewrite Etb. cbn [obind].
  unfold buf_putbufstring. rewrite sl_wp_wp, Hread, Hlen. cbn [obind]. rewrite E2. cbn [obind a_ses with_a_ses]. rewrite sl_wp_wp, E3. cbn [obind].
  match goal with |- context [a_encrypt (with_a_ses ?q _)] => set (p := q) end.
  assert (Hp : view (ses_writepayload p) (partial_msg types) (zlen (partial_msg types)) TRANS_MAX_PAYLOAD_LEN) by (unfold p; by rewrite sl_wp_wp).
  destruct (Hsend _ _ Hp) as (p' & Ep). unfold a_encrypt. cbn [a_ses with_a_ses]. rewrite Ep. cbn [obind with_a_ses authstate].
  rewrite (proj2 (Z.ltb_ge _ _)) by done. cbn [exit_if obind]. eexists _, p, p'. by split_and!.
Qed.

(** Failures stay within the limit. *)
Lemma reached_fails s0 s : 0 <= maxauthtries svr_opts < 4294967295 -> reached s0 s -> 0 <= failcount (authstate s) <= maxauthtries svr_opts.
Proof.
  intros Hmax Hr. assert (auth_inv (authstate s) /\ 0 <= failcount (authstate s) <= maxauthtries svr_opts) as (_ & ?); [|lia].
  induction Hr as [|s t b s' _ [Ha IH] Hs].
  - split; [apply init_inv|]. unfold svr_authinitialise, sshd4a_svr_authinitialise. cbn.
    destruct (sshd4a_enable_public_key_auth cf), (sshd4a_enable_password_file cf), (enable_single_use_passwords cf); cbn; lia.
  - destruct (step_inv _ _ _ _ Ha Hs) as [Ha' Hg]. split; [done|]. unfold grown in Hg. lia.
Qed.

Lemma checkusername_Ok u o s : nonul u -> zlen u <= MAX_USERNAME_LEN -> (username (authstate s) = None \/ username (authstate s) = Some u) ->
  sshd4a_find_user cf (Some u) = Ok o -> exists v s', checkusername cf (u ++ [0]) (zlen u) s = Ok (v, s').
Proof.
  intros Hu Hl Hn Ho. unfold checkusername. rewrite (proj2 (Z.ltb_ge _ _)) by done. rewrite cstr_nul, (cstr_id u) by done. rewrite Z.eqb_refl. cbn [negb exit_if obind].
  assert (exists s1, match username (authstate s) with None => let* s := fill_passwd cf u s in Ok (with_authstate (set_username (Some u)) s)
      | Some u2 => let* _ := exit_if (negb (strcmp_eq (u ++ [0]) u2)) "Client trying multiple usernames" in Ok s end = Ok s1) as [s1 ->].
  { destruct Hn as [->| ->].
    - unfold fill_passwd, sshd4a_get_role_for_user. rewrite Ho. cbn [obind]. destruct (if strcmp_eq _ _ then _ else _). by eexists.
    - unfold strcmp_eq. rewrite cstr_nul, bool_decide_eq_true_2 by done. by eexists. }
  cbn [obind]. destruct (checkusername_failed _); [by do 2 eexists|]. destruct (pw_name _); by do 2 eexists.
Qed.

Lemma auth_getstring_takes s b x r : ses_payload (a_ses s) = Some b -> wf b -> zlen x <= MAX_STRING_LEN -> unread b = ssh_string x ++ r ->
  let b' := advance b (zlen (ssh_string x)) in
  auth_getstring s = Ok (x ++ [0], zlen x, with_a_ses (ses_set_payload b' (a_ses s)) s) /\ wf b' /\ unread b' = r.
Proof.
  intros Hb Hw Hx Hu b'. destruct (takes_getstring x Hx b r Hw Hu) as (E & Hu' & Hw'). unfold auth_getstring, ar. rewrite Hb, E. done.
Qed.

(** The names of a request are read, and the payload stands behind the method. *)
Lemma request_read s b u svc m b' : ses_payload (a_ses s) = Some b -> wf b -> request b u svc m b' ->
  wf b' /\ forall B (k : bytes -> Z -> bytes -> Z -> bytes -> Z -> authses -> outcome B),
    (let* (name, userlen, s) := auth_getstring s in let* (servicename, servicelen, s) := auth_getstring s in let* (methodname, methodlen, s) := auth_getstring s in
     k name userlen servicename servicelen methodname methodlen s) =
    k (u ++ [0]) (zlen u) (svc ++ [0]) (zlen svc) (m ++ [0]) (zlen m) (with_a_ses (ses_set_payload b' (a_ses s)) s).
Proof.
  intros Hb Hw (Hu & Hl1 & Hl2 & Hl3 & E). destruct (auth_getstring_takes s b u _ Hb Hw Hl1 Hu) as (E1 & Hw1 & Hu1).
  set (s1 := with_a_ses _ s) in *. destruct (auth_getstring_takes s1 _ svc _ (al_pl_pl _ _) Hw1 Hl2 Hu1) as (E2 & Hw2 & Hu2).
  set (s2 := with_a_ses _ s1) in *. destruct (auth_getstring_takes s2 _ m _ (al_pl_pl _ _) Hw2 Hl3 Hu2) as (E3 & Hw3 & Hu3).
  rewrite !advance_advance, Z.add_assoc, <- E in *. split; [done|]. intros B k. rewrite E1. cbn [obind]. rewrite E2. cbn [obind]. rewrite E3. cbn [obind].
  unfold s2. rewrite with_payload_twice. unfold s1. by rewrite with_payload_twice.
Qed.

Lemma password_method v s : has_type (authtypes (authstate s)) AUTH_TYPE_PASSWORD = true ->
  auth_method cf svr_opts sha512 einval (AUTH_METHOD_PASSWORD ++ [0]) (zlen AUTH_METHOD_PASSWORD) v s = svr_auth_password cf svr_opts sha512 true s.
Proof. intros Ht. unfold auth_method. rewrite Ht. change (name_is _ _ AUTH_METHOD_NONE) with false. change (name_is _ _ AUTH_METHOD_PUBKEY) with false. by rewrite andb_false_r. Qed.

(** Whether another method is required after the password. *)
Definition another_method (s : authses) : bool := multiauthmethod svr_opts && has_type (authtypes (authstate s)) (Z.lnot AUTH_TYPE_PASSWORD).

(** The answer to the right password: success, or partial success when another method is
    required. *)
Definition password_answer (s s' : authses) : Prop :=
  exists p p', ses_encrypt_packet p = Ok p' /\
    if another_method s then
      let left := Z.land (authtypes (authstate s)) (Z.lnot AUTH_TYPE_PASSWORD) in
      view (ses_writepayload p) (partial_msg left) (zlen (partial_msg left)) TRANS_MAX_PAYLOAD_LEN /\
      a_ses s' = p' /\ ses_authdone (a_ses s') = false /\ authtypes (authstate s') = left
    else
      view (ses_writepayload p) [SSH_MSG_USERAUTH_SUCCESS] 1 TRANS_MAX_PAYLOAD_LEN /\
      a_ses s' = ses_set_authdone true p' /\ ses_authdone (a_ses s') = true.

(** The end of a request with the right password, in a state [s1] that has read it. *)
Lemma method_done_answers s s1 : can_send -> ses_authdone (a_ses s1) = false -> blank (ses_writepayload (a_ses s1)) ->
  authtypes (authstate s1) = authtypes (authstate s) -> (another_method s = true -> failcount (authstate s1) <= maxauthtries svr_opts) ->
  exists s', method_done svr_opts AUTH_TYPE_PASSWORD s1 = Ok s' /\ password_answer s s'.
Proof.
  intros Hsend Hd Hbl Ht Hf. unfold method_done, password_answer. fold (another_method s1).
  assert (another_method s1 = another_method s) as -> by (unfold another_method; by rewrite Ht). destruct (another_method s).
  - set (s2 := with_authstate _ s1). assert (Ht2 : authtypes (authstate s2) = Z.land (authtypes (authstate s)) (Z.lnot AUTH_TYPE_PASSWORD)) by (subst s2; cbn; by rewrite Ht).
    destruct (partial_sends s2 Hsend Hbl (Hf eq_refl)) as (s' & p & p' & E & Hv & Ep & Hs & Ha); [rewrite Ht2; apply password_removed|].
    rewrite Ht2 in Hv. exists s'. split; [done|]. exists p, p'. split; [done|]. split; [done|]. split; [done|]. split; [|by rewrite Ha].
    rewrite (failure_done _ _ _ _ _ E). exact Hd.
  - destruct (success_sends s1 Hsend Hbl) as (s' & p & p' & E & Hv & Ep & Hs). exists s'. split; [done|]. exists p, p'. split; [done|]. split; [done|].
    split; [done|]. by rewrite Hs, al_done_set.
Qed.

(** A request with the right password is answered. *)
Lemma password_accepted s b u b' pw tail : ses_payload (a_ses s) = Some b -> wf b -> blank (ses_writepayload (a_ses s)) -> can_send ->
  ses_authdone (a_ses s) = false -> banner s = None -> auth_inv (authstate s) -> (another_method s = true -> failcount (authstate s) <= maxauthtries svr_opts) ->
  has_type (authtypes (authstate s)) AUTH_TYPE_PASSWORD = true -> (username (authstate s) = None \/ username (authstate s) = Some u) ->
  request b u SSH_SERVICE_CONNECTION AUTH_METHOD_PASSWORD b' -> nonul u -> zlen u <= MAX_USERNAME_LEN ->
  unread b' = 0 :: ssh_string pw ++ tail -> password_credential (Some u) pw ->
  exists s', recv_msg_userauth_request cf svr_opts sha512 einval s = Ok s' /\ password_answer s s'.
Proof.
  intros Hb Hw Hbl Hsend Hd Hban Ha Hfails Htype Hname Hq Hun Hul Hpw Hcred. unfold recv_msg_userauth_request. destruct (gettime_wrapper _) as [now w].
  set (s0 := with_authstate _ _). change (ses_authdone (a_ses s0)) with (ses_authdone (a_ses s)). rewrite Hd. unfold maybe_banner. change (banner s0) with (banner s). rewrite Hban. cbn [obind].
  change (ses_payload (a_ses s0) = Some b) in Hb. destruct (request_read s0 b u _ _ b' Hb Hw Hq) as [Hw' Hread].
  rewrite Hread. set (s4 := with_a_ses _ s0). assert (nonul SSH_SERVICE_CONNECTION) as Hsn by by apply nonul_check.
  rewrite (proj2 (name_is_iff _ _ Hsn) eq_refl). cbn [negb exit_if obind]. pose proof Hcred as (Hpn & Hpl & o & Ho & _).
  destruct (checkusername_Ok u o s4 Hun Hul Hname Ho) as (v & s5 & E5). assert (auth_inv (authstate s4)) as Ha4 by exact Ha.
  destruct (checkusername_inv _ _ _ _ Ha4 E5) as (Es5 & Et5 & Ha5 & Hu5 & Ef5 & _). rewrite E5. cbn [obind]. unfold checked_user in Hu5. rewrite (proj2 (Z.ltb_ge _ _)) in Hu5 by done.
  rewrite password_method by (rewrite Et5; exact Htype). rewrite <- Hu5 in Ho, Hcred. assert (MAX_STRING_LEN >= DROPBEAR_MAX_PASSWORD_LEN) as Hle by done.
  destruct (svr_auth_password_eq cf svr_opts sha512 s5 b' pw tail o) as (s1 & (b1 & f & _ & E1 & Hf) & Hcase);
    [rewrite Es5; apply al_pl_pl|done|done|lia|done|done|done|intros st Hst; by apply text_bytes, (inv_text _ _ Ha5 Hst)|].
  assert (exists st, pw_passwd (authstate s5) = Some st) as [st Hst] by (unfold auth_inv in Ha5; rewrite Hu5 in Ha5; destruct Ha5 as (_ & st & ? & _); by exists st).
  cbn zeta in Hcase. apply (password_right_iff _ _ _ Ha5 Hst) in Hcred. destruct Hcase as [[_ E]|[[? _]|[? _]]]; [|done|congruence]. rewrite E.
  assert (authtypes (authstate s1) = authtypes (authstate s) /\ failcount (authstate s1) = failcount (authstate s)) as [Et1 Ef1].
  { change (authtypes (authstate s4)) with (authtypes (authstate s)) in Et5. change (failcount (authstate s4)) with (failcount (authstate s)) in Ef5.
    rewrite E1. destruct Hf as [->|(c & h & role & -> & _)]; by split. }
  apply method_done_answers; [done| | |done|by rewrite Ef1].
  - rewrite E1. cbn. rewrite al_done_pl, Es5. cbn. by rewrite al_done_pl.
  - rewrite E1. cbn. rewrite Es5. cbn. rewrite !sl_wp_pl. exact Hbl.
Qed.

(** C26: the right password logs in. In a session that is not logged in yet and has sent its
    banner or has none, a request for the password method, with the user's name (of at most a
    hundred bytes, and the name of earlier requests) and the right password, while the method is
    still to do, is answered: by the message of success, and the authentication is done, when no
    other method is required after it; with two methods required (the option -t) and the key
    still to do, by a partial success that names the key as the method left, and the password is
    no longer to do. (The packet layer is taken to accept the message, and the limit of tries is
    less than the largest 32-bit number.) *)
Theorem password_logs_in s0 s b u b' pw tail : 0 <= maxauthtries svr_opts < 4294967295 -> reached s0 s ->
  ses_payload (a_ses s) = Some b -> wf b -> blank (ses_writepayload (a_ses s)) -> can_send -> ses_authdone (a_ses s) = false -> banner s = None ->
  has_type (authtypes (authstate s)) AUTH_TYPE_PASSWORD = true -> (username (authstate s) = None \/ username (authstate s) = Some u) ->
  request b u SSH_SERVICE_CONNECTION AUTH_METHOD_PASSWORD b' -> nonul u -> zlen u <= MAX_USERNAME_LEN ->
  unread b' = 0 :: ssh_string pw ++ tail -> password_credential (Some u) pw ->
  exists s', recv_msg_userauth_request cf svr_opts sha512 einval s = Ok s' /\ password_answer s s'.
Proof.
  intros Hmax Hr Hb Hw Hbl Hsend Hd Hban Htype Hname Hq Hun Hul Hpw Hcred.
  apply (password_accepted s b u b' pw tail); try done; [by eapply reached_inv|]. intros _. by eapply reached_fails.
Qed.

(** C28: with the single-use passwords off and the file of users in use, the first request of a
    session logs in with the password "!!", which stands for a locked account elsewhere, for any
    user name (of at most a hundred bytes) without a line in the file, unless a key is required
    too (the option -t with key authentication on) and when no banner is still to be sent; the
    packet layer is taken to accept the message. *)
Theorem default_password_logs_in s0 t b u b' tail :
  let s := svr_authinitialise cf random s0 in
  authstate t = authstate s -> ses_authdone (a_ses t) = false -> ses_payload (a_ses t) = Some b -> wf b -> blank (ses_writepayload (a_ses t)) -> can_send ->
  banner t = None -> multiauthmethod svr_opts && sshd4a_enable_public_key_auth cf = false ->
  sshd4a_enable_password_file cf = true -> enable_single_use_passwords cf = false ->
  request b u SSH_SERVICE_CONNECTION AUTH_METHOD_PASSWORD b' -> nonul u -> zlen u <= MAX_USERNAME_LEN ->
  sshd4a_find_user cf (Some u) = Ok None -> unread b' = 0 :: ssh_string (str "!!") ++ tail ->
  exists s', recv_msg_userauth_request cf svr_opts sha512 einval t = Ok s' /\ ses_authdone (a_ses s') = true.
Proof.
  intros s A Hd Hb Hw Hbl Hsend Hban Hmulti Hfile Hsingle Hq Hun Hul Hnone Hpw.
  assert (authtypes (authstate s) = (if sshd4a_enable_public_key_auth cf then 6 else 4) /\ username (authstate s) = None) as [Ht Hn].
  { unfold s, svr_authinitialise, sshd4a_svr_authinitialise. rewrite Hfile, Hsingle. cbn. by destruct (sshd4a_enable_public_key_auth cf). }
  assert (Hno : another_method t = false).
  { unfold another_method. rewrite A, Ht. destruct (sshd4a_enable_public_key_auth cf); [by rewrite andb_true_r in Hmulti; rewrite Hmulti|apply andb_false_r]. }
  destruct (password_accepted t b u b' (str "!!") tail) as (s' & H & p & p' & _ & Hans); try done.
  - rewrite A. apply init_inv.
  - by rewrite Hno.
  - rewrite A, Ht. by destruct (sshd4a_enable_public_key_auth cf).
  - left. by rewrite A.
  - split; [by apply nonul_check|]. split; [done|]. exists None. split; [done|]. unfold fallback, session_password. by rewrite Hsingle.
  - rewrite Hno in Hans. exists s'. split; [done|]. apply Hans.
Qed.

(** C29: a name that is too long is not stored, and a request for the password method then
    compares the names in the file of users with a null pointer. *)
Theorem long_username_undefined s0 t b u b' pw tail es :
  let s := svr_authinitialise cf random s0 in
  authstate t = authstate s -> ses_authdone (a_ses t) = false -> ses_payload (a_ses t) = Some b -> wf b -> banner t = None ->
  sshd4a_enable_password_file cf = true -> authorized_users_file cf = Some (concat (map user_line es)) -> es <> [] -> Forall user_entry_ok es ->
  request b u SSH_SERVICE_CONNECTION AUTH_METHOD_PASSWORD b' -> MAX_USERNAME_LEN < zlen u ->
  unread b' = 0 :: ssh_string pw ++ tail -> zlen pw <= DROPBEAR_MAX_PASSWORD_LEN ->
  recv_msg_userauth_request cf svr_opts sha512 einval t = Undef.
Proof.
  intros s A Hd Hb Hw Hban Hfile Hes Hne Hok Hq Hul Hpw Hpl.
  assert (username (authstate s) = None /\ has_type (authtypes (authstate s)) AUTH_TYPE_PASSWORD = true) as [Hn Ht].
  { unfold s, svr_authinitialise, sshd4a_svr_authinitialise. rewrite Hfile. by destruct (sshd4a_enable_public_key_auth cf), (enable_single_use_passwords cf). }
  unfold recv_msg_userauth_request. destruct (gettime_wrapper _) as [now w]. set (t0 := with_authstate _ _).
  change (ses_authdone (a_ses t0)) with (ses_authdone (a_ses t)). rewrite Hd. unfold maybe_banner. change (banner t0) with (banner t). rewrite Hban. cbn [obind].
  change (ses_payload (a_ses t0) = Some b) in Hb. destruct (request_read t0 b u _ _ b' Hb Hw Hq) as [Hw' Hread]. rewrite Hread.
  assert (nonul SSH_SERVICE_CONNECTION) as Hsn by by apply nonul_check. rewrite (proj2 (name_is_iff _ _ Hsn) eq_refl). cbn [negb exit_if obind].
  unfold checkusername. rewrite (proj2 (Z.ltb_lt _ _)) by done. cbn [obind]. set (t1 := with_a_ses _ t0).
  assert (authstate t1 = set_auth_starttime now (authstate t)) as A1 by done. rewrite A in A1.
  rewrite password_method by (rewrite A1; exact Ht). unfold svr_auth_password. assert (MAX_STRING_LEN >= DROPBEAR_MAX_PASSWORD_LEN) as Hle by done.
  destruct (ar_takes buf_getbool [0] 0 t1 b' (ssh_string pw ++ tail)) as (b1 & -> & Hw1 & Hu1 & _); [by apply takes_bool; left|apply al_pl_pl|done..|]. cbn [obind Z.eqb negb].
  destruct (ar_takes _ _ _ (with_a_ses (ses_set_payload b1 (a_ses t1)) t1) b1 tail (takes_getstring pw ltac:(lia))) as (b2 & -> & _); [apply al_pl_pl|done|done|]. cbn [obind].
  rewrite (proj2 (Z.leb_le _ _)) by done. cbn [andb]. unfold sshd4a_svr_auth_password. cbn [authstate with_a_ses]. rewrite A1. cbn [username set_auth_starttime]. rewrite Hn.
  unfold sshd4a_find_user. rewrite Hes. destruct Hok as [|e es He _]; [done|]. cbn [map concat]. pose proof (user_line_len e). rewrite length_app.
  destruct (length (user_line e) + _)%nat eqn:El; [lia|]. by rewrite find_user_line.
Qed.
End run.
