(* ===== verification/AuthToy.v ===== *)
(** * Authentication on a concrete session

    A session that keeps the messages it is given, with elliptic curve keys that are never read
    and a file of users with one password; the theorems on authentication are applied to it. *)

From S2P Require Import Prelude Bytes CString Base64 Sshd4a Buffer Packet AuthKeys KeyTypes SignKey Channel ChannelLaws Auth AuthSafety AuthRun.

Module ToyAuth.

Record ases := mkases { s_wp : buffer; s_pl : option buffer; s_log : list bytes; s_done : bool }.

#[global] Instance toy_session : Session ases := {|
  ses_writepayload := s_wp;
  ses_set_writepayload b p := mkases b (s_pl p) (s_log p) (s_done p);
  ses_payload := s_pl;
  ses_set_payload b p := mkases (s_wp p) (Some b) (s_log p) (s_done p);
  ses_dataallowed _ := true;
  ses_encrypt_packet p := Ok (mkases (mkbuf (buf_data (s_wp p)) 0 0 (buf_size (s_wp p))) (s_pl p) (s_log p ++ [used (s_wp p)]) (s_done p));
|}.

#[global] Instance toy_auth : AuthSession ases := {|
  ses_authdone := s_done;
  ses_set_authdone v p := mkases (s_wp p) (s_pl p) (s_log p) v;
  ses_payload_beginning _ := 5;
  ses_session_id _ := replicate 32 7;
|}.

#[global] Instance toy_auth_sys : AuthSys Z := {|
  gettime_wrapper w := ((w, 0), w + 1);
  sys_genrandom32 w := (12345, w);
  sys_sleep _ w := w + 1;
  sys_close_childpipe w := w;
|}.

#[global] Instance toy_keys : KeyAlgs unit unit := {|
  buf_get_ecdsa_pub_key b := Ok (None, b);
  buf_get_ecdsa_priv_key b := Ok (None, b);
  buf_put_ecdsa_pub_key b _ := Ok b;
  buf_put_ecdsa_priv_key b _ := Ok b;
  buf_put_ecdsa_sign b _ _ := Ok b;
  buf_ecdsa_verify _ _ _ := Ok false;
  buf_sk_ecdsa_verify _ _ _ _ _ := Ok false;
  buf_get_ed25519_pub_key _ b := Ok (None, b);
  buf_get_ed25519_priv_key b := Ok (None, b);
  buf_put_ed25519_pub_key b _ := Ok b;
  buf_put_ed25519_priv_key b _ := Ok b;
  buf_put_ed25519_sign b _ _ := Ok b;
  buf_ed25519_verify _ _ _ := Ok false;
  buf_sk_ed25519_verify _ _ _ _ _ := Ok false;
  sha256 _ := replicate 32 0;
|}.

#[global] Instance toy_session_laws : SessionLaws ases.
Proof.
  refine {| ses_ok _ := True; sent := s_log |}; try done.
  intros p m q _ Hv _. cbn. destruct Hv as [Hw Hu Hp Hs]. cbn in *. split_and!; try done; [|by rewrite Hu].
  split; cbn; [|by unfold used; rewrite sub_0|done|done]. bwf. split; cbn; unfold BUF_MAX_SIZE; try done; lia.
Defined.

#[global] Instance toy_auth_laws : AuthLaws.
Proof.
  split; try done; cbn; try by intros p p' [= <-]. intros _. split; [by apply bytes_check|done].
Defined.

#[global] Instance toy_key_reads : KeyReads.
Proof. split; [apply (reads_on_ret (fun _ => None))|intros t; apply (reads_on_ret (fun _ => None))]. Defined.

Lemma toy_can_send : can_send (P := ases).
Proof. intros p m _. by eexists. Qed.

(** ** A configuration *)

(** Texts of 64 bytes instead of hashes. *)
Definition toy_sha512 (x : bytes) : bytes := map (fun b => b mod 256) (take 64 (x ++ replicate 64 1)).

Lemma toy_sha512_ok x : bytes_ok (toy_sha512 x).
Proof. apply Forall_map, Forall_true. intros b. unfold compose, is_byte. apply Z.mod_pos_bound. done. Qed.

Definition toy_password : bytes := str "secret".
Definition toy_hash : bytes := Eval vm_compute in match base64_encode (toy_sha512 toy_password) 128 with Some t => t | None => [] end.
Definition toy_accounts : list user_entry := [mkuser (str "alice") toy_hash (Some (str "root"))].

Definition toy_config : sshd4a := {|
  sshd4a_shell_exe := str "/system/bin/sh";
  sshd4a_home_path := str "/data/home";
  lib_path := str "/data/lib";
  conf_path := str "/data/conf";
  env_var_list := None;
  enable_service_shell_access := false;
  enable_public_key_auth := true;
  enable_single_use_passwords := false;
  authorized_users_file := Some (concat (map user_line toy_accounts));
  authorized_keys_file := None;
|}.

Definition toy_opts : svr_runopts := mksvropts false false false false 10.
Definition toy_random : bytes := [1; 2; 3; 4; 5; 6; 7; 8].

Lemma toy_config_ok : config_bytes toy_config.
Proof. apply bytes_check. vm_compute. reflexivity. Qed.

Lemma toy_random_ok : toy_random <> [] /\ bytes_ok toy_random.
Proof. split; [done|by apply bytes_check]. Qed.

Lemma toy_accounts_ok : Forall user_entry_ok toy_accounts.
Proof. apply Forall_singleton. split; [..|intros r [= <-]]; apply user_field_check; vm_compute; reflexivity. Qed.

(** ** Requests *)

Definition toy_blank : buffer := mkbuf (replicate (Z.to_nat TRANS_MAX_PAYLOAD_LEN) 0) 0 0 TRANS_MAX_PAYLOAD_LEN.

Lemma toy_blank_view : blank toy_blank.
Proof.
  split; [|by unfold used; rewrite sub_0|done|done].
  split; cbn [toy_blank buf_data buf_pos buf_len buf_size]; [by apply Forall_replicate|apply zlen_replicate; done|done..].
Qed.

(** The names, and what the method takes. *)
Definition toy_names (u : bytes) : bytes := ssh_string u ++ ssh_string SSH_SERVICE_CONNECTION ++ ssh_string AUTH_METHOD_PASSWORD.
Definition toy_request (u pw : bytes) : buffer :=
  let bs := replicate 6 0 ++ toy_names u ++ 0 :: ssh_string pw in mkbuf bs (zlen bs) 6 (zlen bs).
Definition toy_rest (u pw : bytes) : buffer := advance (toy_request u pw) (zlen (toy_names u)).

Definition toy_init : @authses ases Z := svr_authinitialise toy_config toy_random (mkauthses (mkases toy_blank None [] false) 1000 zero_auth None false).
Definition toy_arrives (b : buffer) (s : @authses ases Z) : @authses ases Z := with_a_ses (mkases toy_blank (Some b) (s_log (a_ses s)) (s_done (a_ses s))) s.

(** The session after a request, and what it asks for. *)
Definition toy_recv (s : @authses ases Z) : outcome (@authses ases Z) := recv_msg_userauth_request toy_config toy_opts toy_sha512 false s.
Definition toy_after (b : buffer) (s : @authses ases Z) : @authses ases Z := match toy_recv (toy_arrives b s) with Ok s' => s' | _ => s end.

Definition wf_check (b : buffer) : bool :=
  forallb (fun x => (0 <=? x) && (x <? 256)) (buf_data b) && (zlen (buf_data b) =? buf_size b) && (0 <=? buf_pos b) && (buf_pos b <=? buf_len b) &&
  (buf_len b <=? buf_size b) && (buf_size b <=? BUF_MAX_SIZE).

Lemma wf_checked b : wf_check b = true -> wf b.
Proof.
  unfold wf_check. intros H. repeat (apply andb_prop in H as [H ?]). split; [by apply bytes_check|by apply Z.eqb_eq|split; by apply Z.leb_le|by apply Z.leb_le..].
Qed.

(** What the hypotheses ask of a request, computed. *)
Definition request_check (u pw : bytes) : bool :=
  wf_check (toy_request u pw) && bool_decide (unread (toy_request u pw) = toy_names u ++ unread (toy_rest u pw)) &&
  bool_decide (unread (toy_rest u pw) = 0 :: ssh_string pw ++ []) && (zlen u <=? MAX_STRING_LEN).

Lemma request_checked u pw : request_check u pw = true ->
  wf (toy_request u pw) /\ request (toy_request u pw) u SSH_SERVICE_CONNECTION AUTH_METHOD_PASSWORD (toy_rest u pw) /\ unread (toy_rest u pw) = 0 :: ssh_string pw ++ [].
Proof.
  unfold request_check. intros H. apply andb_prop in H as [[[H1 H2%bool_decide_eq_true]%andb_prop H3%bool_decide_eq_true]%andb_prop H4%Z.leb_le].
  split; [by apply wf_checked|]. split; [|done]. split_and!; [|done..|].
  - rewrite H2. unfold toy_names. by rewrite <- !app_assoc.
  - unfold toy_rest, toy_names. rewrite !zlen_app. f_equal. lia.
Qed.

Lemma toy_step b s s' : wf b -> toy_recv (toy_arrives b s) = Ok s' -> step toy_config toy_opts toy_sha512 false s (toy_arrives b s) b s'.
Proof. intros Hw H. by split. Qed.

(** ** The theorems at work *)

Definition alice : bytes := str "alice".
Definition toy_in : @authses ases Z := toy_after (toy_request alice toy_password) toy_init.

Abbreviation toy_reached := (reached toy_config toy_opts toy_sha512 false toy_random (mkauthses (mkases toy_blank None [] false) 1000 zero_auth None false)).

Definition credential_check (user : option bytes) (pw : bytes) : bool :=
  match sshd4a_find_user toy_config user with
  | Ok (Some (Some ((_ :: _) as hash), _)) => bool_decide (base64_encode (toy_sha512 pw) 128 = Some hash)
  | Ok _ => bool_decide (pw = fallback toy_config toy_random)
  | _ => false
  end.

Lemma credential_checked user pw : nonul pw -> zlen pw <= DROPBEAR_MAX_PASSWORD_LEN ->
  password_credential toy_config toy_sha512 toy_random user pw <-> credential_check user pw = true.
Proof.
  intros Hn Hl. unfold password_credential, credential_check. destruct (sshd4a_find_user toy_config user) as [o| |].
  - transitivity (match o with Some (Some ((_ :: _) as hash), _) => base64_encode (toy_sha512 pw) 128 = Some hash | _ => pw = fallback toy_config toy_random end).
    + split; [by intros (_ & _ & o' & [= <-] & H)|]. intros H. split; [done|]. split; [done|]. by exists o.
    + destruct o as [[[[|c h]|] role]|]; by rewrite bool_decide_eq_true.
  - split; [by intros (_ & _ & o & [=] & _)|done].
  - split; [by intros (_ & _ & o & [=] & _)|done].
Qed.

Lemma auth_needs_credential_witness : toy_reached toy_in /\ ses_authdone (a_ses toy_in) = true /\
  exists s1 t b s2 u m b', toy_reached s1 /\ ses_authdone (a_ses s1) = false /\ step toy_config toy_opts toy_sha512 false s1 t b s2 /\
    request b u SSH_SERVICE_CONNECTION m b' /\ credential toy_config toy_sha512 false toy_random (checked_user (username (authstate s1)) u) m t b'.
Proof.
  assert (toy_reached toy_in) as Hr.
  { destruct (request_checked alice toy_password) as (Hw & _); [vm_compute; reflexivity|]. eapply reached_request; [apply reached_start|]. apply toy_step; [exact Hw|]. vm_compute. reflexivity. }
  assert (ses_authdone (a_ses toy_in) = true) as Hd by (vm_compute; reflexivity). split; [exact Hr|]. split; [exact Hd|].
  exact (auth_needs_credential toy_config toy_opts toy_sha512 false toy_random toy_sha512_ok toy_config_ok toy_random_ok _ toy_in Hr Hd).
Defined.

Definition toy_wrong : bytes := str "wrong".

Lemma toy_wrong_not : forall t : @authses ases Z, ~ credential toy_config toy_sha512 false toy_random (checked_user None alice) AUTH_METHOD_PASSWORD t (toy_rest alice toy_wrong).
Proof.
  intros t [(_ & pw & tail & Hu & Hc)|[H _]]; [|vm_compute in H; discriminate].
  destruct (request_checked alice toy_wrong) as (_ & _ & Hu'); [vm_compute; reflexivity|]. assert (ssh_string toy_wrong ++ [] = ssh_string pw ++ tail) as E by congruence.
  pose proof Hc as (Hn & Hl & _). apply string_unique in E as [<- _]; [|done|by transitivity DROPBEAR_MAX_PASSWORD_LEN].
  apply credential_checked in Hc; [|done..]. vm_compute in Hc. discriminate.
Qed.

Definition toy_refused : @authses ases Z := toy_after (toy_request alice toy_wrong) toy_init.

Lemma password_guesses_limited_witness :
  guessed toy_config toy_opts toy_sha512 false toy_random (mkauthses (mkases toy_blank None [] false) 1000 zero_auth None false) 1 toy_refused /\ Z.of_nat 1 <= maxauthtries toy_opts.
Proof.
  assert (guessed toy_config toy_opts toy_sha512 false toy_random (mkauthses (mkases toy_blank None [] false) 1000 zero_auth None false) 1 toy_refused) as Hg.
  { destruct (request_checked alice toy_wrong) as (Hw & Hq & _); [vm_compute; reflexivity|].
    apply (guessed_wrong _ _ _ _ _ _ _ _ (toy_arrives (toy_request alice toy_wrong) toy_init) (toy_request alice toy_wrong) _ alice (toy_rest alice toy_wrong) (guessed_start _ _ _ _ _ _)); [reflexivity| |exact Hq|apply toy_wrong_not].
    apply toy_step; [exact Hw|]. vm_compute. reflexivity. }
  split; [exact Hg|]. refine (password_guesses_limited toy_config toy_opts toy_sha512 false toy_random toy_sha512_ok toy_config_ok toy_random_ok _ 1 toy_refused _ Hg). vm_compute. split; [discriminate|reflexivity].
Defined.

Lemma password_logs_in_witness : exists s', toy_recv (toy_arrives (toy_request alice toy_password) toy_init) = Ok s' /\
  password_answer toy_opts (toy_arrives (toy_request alice toy_password) toy_init) s'.
Proof.
  destruct (request_checked alice toy_password) as (Hw & Hq & Hu); [vm_compute; reflexivity|].
  assert (nonul toy_password) as Hn by (apply nonul_check; vm_compute; reflexivity).
  assert (reached toy_config toy_opts toy_sha512 false toy_random (mkauthses (mkases toy_blank (Some (toy_request alice toy_password)) [] false) 1000 zero_auth None false)
    (toy_arrives (toy_request alice toy_password) toy_init)) as Hr by exact (reached_start _ _ _ _ _ _).
  apply (password_logs_in toy_config toy_opts toy_sha512 false toy_random toy_sha512_ok toy_config_ok toy_random_ok _ _ (toy_request alice toy_password) alice (toy_rest alice toy_password) toy_password []
    ltac:(vm_compute; split; [discriminate|reflexivity]) Hr eq_refl Hw toy_blank_view toy_can_send eq_refl eq_refl).
  - vm_compute. reflexivity.
  - left. vm_compute. reflexivity.
  - exact Hq.
  - apply nonul_check. vm_compute. reflexivity.
  - vm_compute. discriminate.
  - exact Hu.
  - apply credential_checked; [exact Hn|vm_compute; discriminate|vm_compute; reflexivity].
Defined.

Definition mallory : bytes := str "mallory".

Lemma default_password_logs_in_witness : exists s', toy_recv (toy_arrives (toy_request mallory (str "!!")) toy_init) = Ok s' /\ ses_authdone (a_ses s') = true.
Proof.
  destruct (request_checked mallory (str "!!")) as (Hw & Hq & Hu); [vm_compute; reflexivity|].
  apply (default_password_logs_in toy_config toy_opts toy_sha512 false toy_random toy_sha512_ok toy_config_ok toy_random_ok
    (mkauthses (mkases toy_blank None [] false) 1000 zero_auth None false) (toy_arrives (toy_request mallory (str "!!")) toy_init) (toy_request mallory (str "!!")) mallory
    (toy_rest mallory (str "!!")) []).
  1-3: reflexivity.
  - exact Hw.
  - exact toy_blank_view.
  - exact toy_can_send.
  - reflexivity.
  - reflexivity.
  - vm_compute. reflexivity.
  - reflexivity.
  - exact Hq.
  - apply nonul_check. vm_compute. reflexivity.
  - vm_compute. discriminate.
  - vm_compute. reflexivity.
  - exact Hu.
Defined.

Definition toy_long : bytes := replicate 101 97.

Lemma long_username_undefined_witness : toy_recv (toy_arrives (toy_request toy_long (str "x")) toy_init) = Undef.
Proof.
  destruct (request_checked toy_long (str "x")) as (Hw & Hq & Hu); [vm_compute; reflexivity|].
  apply (long_username_undefined toy_config toy_opts toy_sha512 false toy_random (mkauthses (mkases toy_blank None [] false) 1000 zero_auth None false)
    (toy_arrives (toy_request toy_long (str "x")) toy_init) (toy_request toy_long (str "x")) toy_long (toy_rest toy_long (str "x")) (str "x") [] toy_accounts).
  1-3: reflexivity.
  - exact Hw.
  - reflexivity.
  - vm_compute. reflexivity.
  - reflexivity.
  - discriminate.
  - exact toy_accounts_ok.
  - exact Hq.
  - vm_compute. reflexivity.
  - exact Hu.
  - vm_compute. discriminate.
Defined.

(** A refusal is counted, and does not end the session. *)
Example toy_refused_count : failcount (authstate toy_refused) = 1 /\ ses_authdone (a_ses toy_refused) = false.
Proof. vm_compute. by split. Qed.

End ToyAuth.
