(* ===== verification/Timers.v ===== *)
(** * Timeouts and the exchange of identifications

    The timeouts of the session loop (common-session.c): what is due when the loop comes
    round, how long [select] may sleep, and keepalive messages; and the line the peer
    identifies itself with, read byte by byte while the timeouts are checked. The clock does
    not move during one round of checks. *)

From S2P Require Import Prelude Bytes CString Buffer Packet Channel.

Definition KEX_REKEY_TIMEOUT : Z := 3600 * 8.
Definition KEX_REKEY_DATA : Z := Z.shiftl 1 30.
Definition AUTH_TIMEOUT : Z := 300.
Definition DEFAULT_KEEPALIVE_LIMIT : Z := 3.
Definition DROPBEAR_KEEPALIVE_STRING : bytes := str "keepalive@openssh.com".
Definition LONG_MAX : Z := 9223372036854775807.

(** The parts of the session that are looked at; [ts_ready_channel] is the remote number of
    [get_any_ready_channel]. *)
Class TimerSession (P : Type) := {
  #[global] ts_session :: Session P;
  connect_time : P -> Z;
  ts_authdone : P -> bool;
  ts_remoteident : P -> option bytes;
  ts_set_remoteident : bytes -> P -> P;
  ts_sentkexinit : P -> bool;
  ts_lastkextime : P -> Z;
  ts_datarecv : P -> Z;
  ts_datatrans : P -> Z;
  ts_needrekey : P -> bool;
  ts_set_needrekey : bool -> P -> P;
  ts_send_msg_kexinit : Z -> P -> outcome P;
  ts_any_sent : P -> Z;
  ts_keepalive_recv : P -> Z;
  ts_keepalive_sent : P -> Z;
  ts_set_keepalive_sent : Z -> P -> P;
  ts_idle : P -> Z;
  ts_set_idle : Z -> P -> P;
  ts_ready_channel : P -> option Z;
}.

(** [struct runopts]; 0 is off. *)
Record runopts := mkopts { keepalive_secs : Z; idle_timeout_secs : Z; max_duration_secs : Z }.

Section timers.
Context {P : Type} {TS : TimerSession P}.
Context (opts : runopts).

Definition start_keepalive_request (chan : Z) (p : P) : outcome P :=
  let* p := pw (fun b => buf_putbyte b SSH_MSG_CHANNEL_REQUEST) p in
  let* p := pw (fun b => buf_putint b chan) p in
  pw (fun b => buf_putstring b DROPBEAR_KEEPALIVE_STRING (zlen DROPBEAR_KEEPALIVE_STRING)) p.

Definition send_msg_keepalive (now : Z) (p : P) : outcome P :=
  let old_time_idle := ts_idle p in
  let* p :=
    match ts_ready_channel p with
    | Some chan => start_keepalive_request chan p
    | None =>
        let* p := pw (fun b => buf_putbyte b SSH_MSG_GLOBAL_REQUEST) p in
        pw (fun b => buf_putstring b DROPBEAR_KEEPALIVE_STRING (zlen DROPBEAR_KEEPALIVE_STRING)) p
    end in
  let* p := pw (fun b => buf_putbyte b 1) p in
  let* p := ses_encrypt_packet p in
  Ok (ts_set_idle old_time_idle (ts_set_keepalive_sent now p)).

Definition elapsed (now prev : Z) : Z := Z.min (now - prev) LONG_MAX.

Definition rekey_due (now : Z) (p : P) : bool :=
  negb (ts_sentkexinit p) &&
  ((KEX_REKEY_TIMEOUT <=? elapsed now (ts_lastkextime p)) || (KEX_REKEY_DATA <=? u32 (ts_datarecv p + ts_datatrans p)) || ts_needrekey p).

Definition check_keepalive (now : Z) (p : P) : outcome P :=
  if (0 <? keepalive_secs opts) && ts_authdone p then
    let* p := if keepalive_secs opts <=? elapsed now (ts_any_sent p) then send_msg_keepalive now p else Ok p in
    let* p :=
      if (keepalive_secs opts <=? elapsed now (ts_keepalive_recv p)) && (keepalive_secs opts <=? elapsed now (ts_keepalive_sent p))
      then send_msg_keepalive now p else Ok p in
    let* _ := exit_if (keepalive_secs opts * DEFAULT_KEEPALIVE_LIMIT <=? elapsed now (ts_keepalive_recv p)) "Keepalive timeout" in
    Ok p
  else Ok p.

Definition checktimeouts (now : Z) (p : P) : outcome P :=
  let* _ := exit_if (negb (ts_authdone p) && (AUTH_TIMEOUT <=? elapsed now (connect_time p))) "Timeout before auth" in
  match ts_remoteident p with
  | None => Ok p
  | Some _ =>
      let* p := if rekey_due now p then ts_send_msg_kexinit now (ts_set_needrekey false p) else Ok p in
      let* p := check_keepalive now p in
      let* _ := exit_if ((0 <? idle_timeout_secs opts) && (idle_timeout_secs opts <=? elapsed now (ts_idle p))) "Idle timeout" in
      let* _ := exit_if ((0 <? max_duration_secs opts) && (max_duration_secs opts <=? elapsed now (connect_time p))) "Max duration reached" in
      Ok p
  end.

Definition update_timeout (limit now last_event timeout : Z) : Z :=
  if (0 <? last_event) && (0 <? limit) then Z.min timeout (Z.max 0 (limit - elapsed now last_event)) else timeout.

Definition select_timeout (now : Z) (p : P) : Z :=
  let timeout := KEX_REKEY_TIMEOUT in
  let timeout := if negb (ts_sentkexinit p) then update_timeout KEX_REKEY_TIMEOUT now (ts_lastkextime p) timeout else timeout in
  let timeout := if ts_needrekey p then 0 else timeout in
  let timeout := if negb (ts_authdone p) then update_timeout AUTH_TIMEOUT now (connect_time p) timeout else timeout in
  let timeout := if ts_authdone p then update_timeout (keepalive_secs opts) now (Z.max (ts_keepalive_recv p) (ts_keepalive_sent p)) timeout else timeout in
  let timeout := update_timeout (idle_timeout_secs opts) now (ts_idle p) timeout in
  let timeout := update_timeout (max_duration_secs opts) now (connect_time p) timeout in
  Z.max timeout 0.

(** ** The identification of the peer *)

(** A pass of the loop that reads the line: [select] is interrupted or fails; or it returns,
    the timeouts are checked, and there is nothing to read, or the read is interrupted, fails,
    ends or gives a byte. *)
Inductive ident_event :=
| SelectIntr
| SelectError
| NotReady (now : Z)
| ReadIntr (now : Z)
| ReadError (now : Z)
| ReadEof (now : Z)
| ReadByte (now : Z) (b : Z).

Inductive ident_res := IdentLine (line : bytes) (rest : list ident_event) | IdentFailed | IdentWaits.

(** Reading a line of at most [count - 1] bytes behind the [buf] there is. *)
Fixpoint ident_readln (count : Z) (evs : list ident_event) (buf : bytes) (p : P) : outcome (ident_res * P) :=
  if zlen buf <? count - 1 then
    match evs with
    | [] => Ok (IdentWaits, p)
    | SelectIntr :: evs => ident_readln count evs buf p
    | SelectError :: _ => Ok (IdentFailed, p)
    | NotReady now :: evs | ReadIntr now :: evs => let* p := checktimeouts now p in ident_readln count evs buf p
    | ReadError now :: _ | ReadEof now :: _ => let* p := checktimeouts now p in Ok (IdentFailed, p)
    | ReadByte now b :: evs =>
        let* p := checktimeouts now p in
        if b =? 10 then Ok (IdentLine buf evs, p)
        else ident_readln count evs (if b =? 13 then buf else buf ++ [b]) p
    end
  else Ok (IdentLine buf evs, p).

(** The events that are left and the session, or [None] while the line is not complete. *)
Definition read_session_identification (evs : list ident_event) (p : P) : outcome (option (list ident_event) * P) :=
  let* (r, p) := ident_readln 256 evs [] p in
  match r with
  | IdentWaits => Ok (None, p)
  | IdentFailed => Exit "Exited normally"
  | IdentLine line rest =>
      let* _ := exit_if (negb ((4 <=? zlen line + 1) && bool_decide (take 4 (line ++ [0]) = str "SSH-"))) "Exited normally" in
      let p := ts_set_remoteident line p in
      let* _ := exit_if (negb (strncmp_eq line (str "SSH-2.") 6) && negb (strncmp_eq line (str "SSH-1.99-") 9)) "Incompatible remote version '%s'" in
      Ok (Some rest, p)
  end.
End timers.
