(* ===== verification/TimersSafety.v ===== *)
(** * Timeouts: nobody stays too long

    A session that does not authenticate ends five minutes after it began, and one whose peer
    has gone silent is noticed by the keepalive messages, because [select] never sleeps past
    these times; and the identification of the peer is the first line it sends. *)

From S2P Require Import Prelude Bytes CString Buffer Packet Channel Timers.

Section timers.
Context {P : Type} {TS : TimerSession P}.
Context (opts : runopts).

(** Sending does not touch the time of the last message received nor the authentication. *)
Class TimerLaws := {
  tl_recv_wp b p : ts_keepalive_recv (ses_set_writepayload b p) = ts_keepalive_recv p;
  tl_recv_enc p p' : ses_encrypt_packet p = Ok p' -> ts_keepalive_recv p' = ts_keepalive_recv p;
  tl_recv_sent v p : ts_keepalive_recv (ts_set_keepalive_sent v p) = ts_keepalive_recv p;
  tl_recv_idle v p : ts_keepalive_recv (ts_set_idle v p) = ts_keepalive_recv p;
  tl_recv_need v p : ts_keepalive_recv (ts_set_needrekey v p) = ts_keepalive_recv p;
  tl_recv_kex now p p' : ts_send_msg_kexinit now p = Ok p' -> ts_keepalive_recv p' = ts_keepalive_recv p;
  tl_done_need v p : ts_authdone (ts_set_needrekey v p) = ts_authdone p;
  tl_done_kex now p p' : ts_send_msg_kexinit now p = Ok p' -> ts_authdone p' = ts_authdone p;
  tl_idle_idle v p : ts_idle (ts_set_idle v p) = v;
}.

(** ** How long [select] sleeps *)

Lemma elapsed_lt now prev k : k <= LONG_MAX -> elapsed now prev < k -> now - prev < k.
Proof. unfold elapsed. generalize LONG_MAX. lia. Qed.

Lemma elapsed_le now prev : elapsed now prev <= now - prev.
Proof. unfold elapsed. generalize LONG_MAX. lia. Qed.

Lemma update_timeout_le limit now last t : update_timeout limit now last t <= t.
Proof. unfold update_timeout. destruct (_ && _); lia. Qed.

Lemma update_timeout_in_time limit now last t : 0 < last -> 0 < limit <= LONG_MAX -> last <= now -> update_timeout limit now last t <= Z.max 0 (last + limit - now).
Proof.
  intros Hl Hm Hn. unfold update_timeout. rewrite (proj2 (Z.ltb_lt _ _)) by done. rewrite (proj2 (Z.ltb_lt 0 limit)) by lia. cbn [andb].
  unfold elapsed. revert Hm. generalize LONG_MAX. lia.
Qed.

Lemma select_timeout_auth now p : ts_authdone p = false -> 0 < connect_time p <= now -> select_timeout opts now p <= Z.max 0 (connect_time p + AUTH_TIMEOUT - now).
Proof.
  intros Ha Hc. unfold select_timeout. rewrite Ha. cbn [negb]. set (t0 := if ts_needrekey p then _ else _).
  pose proof (update_timeout_in_time AUTH_TIMEOUT now (connect_time p) t0) as H1. set (t1 := update_timeout AUTH_TIMEOUT _ _ _) in *.
  pose proof (update_timeout_le (idle_timeout_secs opts) now (ts_idle p) t1) as H2. set (t2 := update_timeout (idle_timeout_secs opts) _ _ _) in *.
  pose proof (update_timeout_le (max_duration_secs opts) now (connect_time p) t2) as H3. unfold AUTH_TIMEOUT, LONG_MAX in *. lia.
Qed.

Lemma select_timeout_keepalive now p : ts_authdone p = true -> 0 < keepalive_secs opts <= LONG_MAX -> 0 < ts_keepalive_recv p -> ts_keepalive_recv p <= now -> ts_keepalive_sent p <= now ->
  select_timeout opts now p <= keepalive_secs opts.
Proof.
  intros Ha Hk Hr Hn Hs. unfold select_timeout. rewrite Ha. cbn [negb]. set (t0 := if ts_needrekey p then _ else _).
  pose proof (update_timeout_in_time (keepalive_secs opts) now (Z.max (ts_keepalive_recv p) (ts_keepalive_sent p)) t0) as H1. set (t1 := update_timeout (keepalive_secs opts) _ _ _) in *.
  pose proof (update_timeout_le (idle_timeout_secs opts) now (ts_idle p) t1) as H2. set (t2 := update_timeout (idle_timeout_secs opts) _ _ _) in *.
  pose proof (update_timeout_le (max_duration_secs opts) now (connect_time p) t2) as H3. lia.
Qed.

Lemma select_timeout_nonneg now p : 0 <= select_timeout opts now p.
Proof. unfold select_timeout. lia. Qed.

(** ** What the checks let through *)

Lemma checktimeouts_auth now p p' : checktimeouts opts now p = Ok p' -> ts_authdone p = false -> now - connect_time p < AUTH_TIMEOUT.
Proof.
  unfold checktimeouts. intros H Ha. apply obind_Ok in H as ([] & H & _). apply exit_if_Ok in H. rewrite Ha in H. cbn [negb andb] in H. apply Z.leb_gt in H.
  by apply elapsed_lt.
Qed.

Context {L : TimerLaws}.

Lemma keepalive_recv_kept now p p' : send_msg_keepalive now p = Ok p' -> ts_keepalive_recv p' = ts_keepalive_recv p /\ ts_idle p' = ts_idle p.
Proof.
  assert (Hpw : forall f q q', pw f q = Ok q' -> ts_keepalive_recv q' = ts_keepalive_recv q).
  { intros f q q' H. unfold pw in H. apply obind_Ok in H as (b & _ & [= <-]). apply tl_recv_wp. }
  unfold send_msg_keepalive. intros H. apply obind_Ok in H as (p1 & H1 & H). apply obind_Ok in H as (p2 & H2%Hpw & H). apply obind_Ok in H as (p3 & H3%tl_recv_enc & [= <-]).
  rewrite tl_recv_idle, tl_recv_sent, tl_idle_idle. split; [|done]. rewrite H3, H2. destruct (ts_ready_channel p).
  - unfold start_keepalive_request in H1. apply obind_Ok in H1 as (q1 & E1%Hpw & H1). apply obind_Ok in H1 as (q2 & E2%Hpw & H1%Hpw). congruence.
  - apply obind_Ok in H1 as (q1 & E1%Hpw & H1%Hpw). congruence.
Qed.

Lemma checktimeouts_recv now p p' : checktimeouts opts now p = Ok p' -> ts_remoteident p <> None -> ts_authdone p = true -> 0 < keepalive_secs opts ->
  keepalive_secs opts * DEFAULT_KEEPALIVE_LIMIT <= LONG_MAX ->
  now - ts_keepalive_recv p < keepalive_secs opts * DEFAULT_KEEPALIVE_LIMIT.
Proof.
  unfold checktimeouts. intros H Hi Ha Hk Hmax. apply obind_Ok in H as ([] & _ & H). destruct (ts_remoteident p); [|done]. apply obind_Ok in H as (p1 & H1 & H).
  assert (ts_keepalive_recv p1 = ts_keepalive_recv p /\ ts_authdone p1 = true) as [E1 A1].
  { destruct (rekey_due now p); [|by injection H1 as <-]. split; [by rewrite (tl_recv_kex _ _ _ H1), tl_recv_need|by rewrite (tl_done_kex _ _ _ H1), tl_done_need]. }
  apply obind_Ok in H as (p2 & H2 & _). unfold check_keepalive in H2. rewrite A1, (proj2 (Z.ltb_lt _ _)) in H2 by done. cbn [andb] in H2.
  apply obind_Ok in H2 as (q1 & Hq1 & H2). apply obind_Ok in H2 as (q2 & Hq2 & H2). apply obind_Ok in H2 as ([] & H2 & _). apply exit_if_Ok, Z.leb_gt in H2.
  assert (ts_keepalive_recv q2 = ts_keepalive_recv p) as E.
  { transitivity (ts_keepalive_recv q1); [destruct (_ && _); [by apply keepalive_recv_kept in Hq2 as [-> _]|by injection Hq2 as <-]|].
    rewrite <- E1. destruct (_ <=? _); [by apply keepalive_recv_kept in Hq1 as [-> _]|by injection Hq1 as <-]. }
  rewrite E in H2. by apply elapsed_lt.
Qed.

(** ** The session loop *)

(** A session from [p0] at [now0] on: [select] returns before its timeout is over, the timeouts
    are checked, and the rest of the round leaves the session [p2], for which [same] holds. *)
Inductive rounds (same : P -> P -> Prop) (now0 : Z) (p0 : P) : Z -> P -> Prop :=
| rounds_start : rounds same now0 p0 now0 p0
| rounds_next now p now' p1 p2 : rounds same now0 p0 now p -> now <= now' <= now + select_timeout opts now p ->
    checktimeouts opts now' p = Ok p1 -> same p p2 -> rounds same now0 p0 now' p2.

(** What the rest of the loop does not do: begin the session anew, or undo its authentication. *)
Definition same_session (p p' : P) : Prop := connect_time p' = connect_time p /\ (ts_authdone p = true -> ts_authdone p' = true).

(** C30: a session that is not authenticated ends five minutes after it began: it is never in
    the loop later than that, [select] wakes up by then, and the check that follows ends it. *)
Theorem unauthenticated_session_ends now0 p0 now p : 0 < connect_time p0 <= now0 -> now0 < connect_time p0 + AUTH_TIMEOUT ->
  rounds same_session now0 p0 now p -> ts_authdone p = false ->
  now < connect_time p0 + AUTH_TIMEOUT /\ now + select_timeout opts now p <= connect_time p0 + AUTH_TIMEOUT /\
  forall now', connect_time p0 + AUTH_TIMEOUT <= now' -> checktimeouts opts now' p = Exit "Timeout before auth".
Proof.
  intros Hc Hs Hr Ha. assert (connect_time p = connect_time p0 /\ now0 <= now /\ (ts_authdone p = false -> now < connect_time p0 + AUTH_TIMEOUT)) as (Ec & Hle & Hlt).
  { clear Ha. induction Hr as [|now p now' p1 p2 Hr (Ec & Hle & Hlt) Hn Ht [Ec2 Ha2]]; [done|]. split; [congruence|]. split; [lia|]. intros Ha.
    assert (ts_authdone p = false) as Hf by (destruct (ts_authdone p); [by rewrite Ha2 in Ha|done]). pose proof (checktimeouts_auth _ _ _ Ht Hf). lia. }
  specialize (Hlt Ha). split; [done|]. split.
  - pose proof (select_timeout_auth now p Ha). lia.
  - intros now' Hn. unfold checktimeouts. rewrite Ha. cbn [negb andb]. rewrite (proj2 (Z.leb_le _ _)); [done|].
    unfold elapsed, AUTH_TIMEOUT, LONG_MAX in *. lia.
Qed.

(** The peer is silent: nothing is received, and what is sent is not sent in the future. *)
Definition silent_peer (p p' : P) : Prop :=
  ts_keepalive_recv p' = ts_keepalive_recv p /\ ts_authdone p' = true /\ ts_remoteident p' <> None.

(** C31: with keepalive messages on, a session whose peer has gone silent ends: it is never in the
    loop later than three periods after the last message received, and [select] wakes up for
    the check less than a period after that. *)
Theorem dead_peer_noticed now0 p0 now p : let k := keepalive_secs opts in
  0 < k -> k * DEFAULT_KEEPALIVE_LIMIT <= LONG_MAX -> 0 < ts_keepalive_recv p0 <= now0 -> now0 < ts_keepalive_recv p0 + k * DEFAULT_KEEPALIVE_LIMIT ->
  ts_authdone p0 = true -> ts_remoteident p0 <> None -> rounds silent_peer now0 p0 now p -> ts_keepalive_sent p <= now ->
  now < ts_keepalive_recv p0 + k * DEFAULT_KEEPALIVE_LIMIT /\ now + select_timeout opts now p < ts_keepalive_recv p0 + k * (DEFAULT_KEEPALIVE_LIMIT + 1) /\
  forall now' p', ts_keepalive_recv p0 + k * DEFAULT_KEEPALIVE_LIMIT <= now' -> checktimeouts opts now' p <> Ok p'.
Proof.
  intros k Hk Hmax Hr0 Hs Ha0 Hi0 Hr Hsent.
  assert (ts_keepalive_recv p = ts_keepalive_recv p0 /\ ts_authdone p = true /\ ts_remoteident p <> None /\ now0 <= now /\ now < ts_keepalive_recv p0 + k * DEFAULT_KEEPALIVE_LIMIT) as (Er & Ha & Hi & Hle & Hlt).
  { clear Hsent. induction Hr as [|now p now' p1 p2 Hr (Er & Ha & Hi & Hle & Hlt) Hn Ht (Er2 & Ha2 & Hi2)]; [done|]. split; [congruence|]. do 2 (split; [done|]). split; [lia|].
    pose proof (checktimeouts_recv _ _ _ Ht Hi Ha Hk Hmax). rewrite Er in *. unfold k. lia. }
  split; [done|]. split.
  - assert (k <= LONG_MAX) by (unfold DEFAULT_KEEPALIVE_LIMIT in Hmax; lia). pose proof (select_timeout_keepalive now p Ha ltac:(done) ltac:(lia) ltac:(lia) Hsent). unfold k in *. lia.
  - intros now' p' Hn Ht. pose proof (checktimeouts_recv _ _ _ Ht Hi Ha Hk Hmax). unfold k in *. lia.
Qed.

(** ** The identification *)

(** The passes of the loop that give a byte, or nothing, in time. *)
Definition in_time (p : P) (e : ident_event) : Prop :=
  match e with
  | SelectIntr => True
  | NotReady now | ReadIntr now | ReadByte now _ => now - connect_time p < AUTH_TIMEOUT
  | _ => False
  end.

Definition ev_byte (e : ident_event) : option Z := match e with ReadByte _ b => Some b | _ => None end.

Lemma check_in_time now p : ts_remoteident p = None -> now - connect_time p < AUTH_TIMEOUT -> checktimeouts opts now p = Ok p.
Proof.
  intros Hi Hn. unfold checktimeouts. rewrite Hi. pose proof (elapsed_le now (connect_time p)). rewrite (proj2 (Z.leb_gt _ _)) by lia. by rewrite andb_false_r.
Qed.

Lemma ident_readln_text p evs rest buf now : ts_remoteident p = None -> Forall (in_time p) evs -> Forall (fun b => b <> 10) (omap ev_byte evs) ->
  zlen buf + zlen (List.filter (fun b => negb (b =? 13)) (omap ev_byte evs)) <= 254 -> now - connect_time p < AUTH_TIMEOUT ->
  ident_readln opts 256 (evs ++ ReadByte now 10 :: rest) buf p = Ok (IdentLine (buf ++ List.filter (fun b => negb (b =? 13)) (omap ev_byte evs)) rest, p).
Proof.
  intros Hi Hev. revert buf. induction Hev as [|e evs He Hev IH]; intros buf Hlf Hl Hn.
  - cbn [app ident_readln omap list_omap List.filter] in *. rewrite (proj2 (Z.ltb_lt _ _)) by (unfold zlen in *; cbn in *; lia). rewrite check_in_time by done. by rewrite app_nil_r.
  - pose proof (zlen_nonneg (List.filter (fun b => negb (b =? 13)) (omap ev_byte (e :: evs)))) as Hz. cbn [app ident_readln]. rewrite (proj2 (Z.ltb_lt _ _)) by lia.
    destruct e as [| |now1|now1|now1|now1|now1 b]; cbn [in_time] in He; try done; cbn [omap list_omap ev_byte] in *; rewrite ?check_in_time by done; cbn [obind]; try by apply IH.
    apply Forall_cons in Hlf as [Hb Hlf]. rewrite (proj2 (Z.eqb_neq b 10)) by done. cbn [List.filter] in *. destruct (Z.eqb_spec b 13); cbn [negb] in *; [by apply IH|].
    rewrite zlen_cons in Hl. rewrite IH; [by rewrite <- app_assoc|done| |done]. rewrite zlen_app. change (zlen [b]) with 1. lia.
Qed.

(** the session keeps the first line of the peer, without its carriage returns, as its
    identification, however the bytes come in, and reads nothing behind the end of the line. *)
Theorem identification_read p evs now rest line : ts_remoteident p = None -> Forall (in_time p) evs -> now - connect_time p < AUTH_TIMEOUT ->
  Forall (fun b => b <> 10) (omap ev_byte evs) -> List.filter (fun b => negb (b =? 13)) (omap ev_byte evs) = line -> zlen line <= 254 ->
  (exists r, line = str "SSH-2." ++ r \/ line = str "SSH-1.99-" ++ r) ->
  read_session_identification opts (evs ++ ReadByte now 10 :: rest) p = Ok (Some rest, ts_set_remoteident line p).
Proof.
  intros Hi Hev Hn Hlf Hline Hl (r & Hr). unfold read_session_identification. rewrite ident_readln_text by (done || (rewrite Hline; unfold zlen in *; cbn; lia)).
  rewrite Hline. cbn [obind app]. assert (nonul (str "SSH-2.") /\ nonul (str "SSH-1.99-")) as [N1 N2] by (split; by apply nonul_check).
  assert (4 <= zlen line + 1 /\ take 4 (line ++ [0]) = str "SSH-" /\ negb (strncmp_eq line (str "SSH-2.") 6) && negb (strncmp_eq line (str "SSH-1.99-") 9) = false) as (H1 & H2 & H3).
  { destruct Hr as [-> | ->]; (split; [rewrite zlen_app; pose proof (zlen_nonneg r); change (zlen (str _)) with 6 || change (zlen (str _)) with 9; lia|]); (split; [reflexivity|]).
    - pose proof (proj2 (strncmp_prefix (str "SSH-2." ++ r) (str "SSH-2.") N1) (ex_intro _ r eq_refl)) as E. change (length (str "SSH-2.")) with 6%nat in E. by rewrite E.
    - pose proof (proj2 (strncmp_prefix (str "SSH-1.99-" ++ r) (str "SSH-1.99-") N2) (ex_intro _ r eq_refl)) as E. change (length (str "SSH-1.99-")) with 9%nat in E.
      rewrite E. by rewrite andb_false_r. }
  rewrite (proj2 (Z.leb_le _ _)) by done. rewrite H2, bool_decide_eq_true_2 by done. cbn [andb negb exit_if obind]. by rewrite H3.
Qed.
End timers.
