(* ===== verification/TimersToy.v ===== *)
(** * Timeouts on a concrete session

    A session that records the messages sent in it, with the theorems on timeouts applied to
    it; and a case in which the keepalive message is late. *)

From S2P Require Import Prelude Bytes CString Buffer Packet Channel Timers TimersSafety.

Module ToyTimers.

Record tms := mktms { m_wp : buffer; m_log : list bytes; m_connect : Z; m_done : bool; m_ident : option bytes; m_any : Z; m_recv : Z; m_sent : Z; m_idle : Z }.

#[global] Instance toy_session : Session tms := {|
  ses_writepayload := m_wp;
  ses_set_writepayload b p := mktms b (m_log p) (m_connect p) (m_done p) (m_ident p) (m_any p) (m_recv p) (m_sent p) (m_idle p);
  ses_payload _ := None;
  ses_set_payload _ p := p;
  ses_dataallowed _ := true;
  ses_encrypt_packet p :=
    Ok (mktms (mkbuf (buf_data (m_wp p)) 0 0 (buf_size (m_wp p))) (m_log p ++ [used (m_wp p)]) (m_connect p) (m_done p) (m_ident p) (m_any p) (m_recv p) (m_sent p) (m_idle p));
|}.

#[global] Instance toy_timer_session : TimerSession tms := {|
  connect_time := m_connect;
  ts_authdone := m_done;
  ts_remoteident := m_ident;
  ts_set_remoteident l p := mktms (m_wp p) (m_log p) (m_connect p) (m_done p) (Some l) (m_any p) (m_recv p) (m_sent p) (m_idle p);
  ts_sentkexinit _ := false;
  ts_lastkextime := m_connect;
  ts_datarecv _ := 0;
  ts_datatrans _ := 0;
  ts_needrekey _ := false;
  ts_set_needrekey _ p := p;
  ts_send_msg_kexinit _ p := Ok p;
  ts_any_sent := m_any;
  ts_keepalive_recv := m_recv;
  ts_keepalive_sent := m_sent;
  ts_set_keepalive_sent v p := mktms (m_wp p) (m_log p) (m_connect p) (m_done p) (m_ident p) (m_any p) (m_recv p) v (m_idle p);
  ts_idle := m_idle;
  ts_set_idle v p := mktms (m_wp p) (m_log p) (m_connect p) (m_done p) (m_ident p) (m_any p) (m_recv p) (m_sent p) v;
  ts_ready_channel _ := Some 7;
|}.

#[global] Instance toy_timer_laws : TimerLaws.
Proof. split; try done; by intros * [= <-]. Defined.

Definition toy_blank : buffer := mkbuf (replicate 64 0) 0 0 64.
Definition toy_opts : runopts := mkopts 60 0 0.

(** A session that began at 1000, before and after its authentication. *)
Definition toy_before : tms := mktms toy_blank [] 1000 false None 1000 1000 0 1000.
Definition toy_after : tms := mktms toy_blank [] 1000 true (Some (str "SSH-2.0-client")) 1010 1050 0 1050.

Lemma unauthenticated_session_ends_witness :
  1299 < connect_time toy_before + AUTH_TIMEOUT /\ 1299 + select_timeout toy_opts 1299 toy_before <= connect_time toy_before + AUTH_TIMEOUT /\
  forall now', connect_time toy_before + AUTH_TIMEOUT <= now' -> checktimeouts toy_opts now' toy_before = Exit "Timeout before auth".
Proof.
  apply (unauthenticated_session_ends toy_opts 1000 toy_before 1299 toy_before).
  - vm_compute. split; [reflexivity|discriminate].
  - vm_compute. reflexivity.
  - apply (rounds_next _ _ _ _ 1000 toy_before 1299 toy_before toy_before).
    + apply rounds_start.
    + vm_compute. split; discriminate.
    + vm_compute. reflexivity.
    + split; [reflexivity|exact (fun h => h)].
  - reflexivity.
Defined.

Definition toy_kept : tms := match checktimeouts toy_opts 1108 toy_after with Ok p => p | _ => toy_after end.

Lemma dead_peer_noticed_witness :
  let k := keepalive_secs toy_opts in 1108 < ts_keepalive_recv toy_after + k * DEFAULT_KEEPALIVE_LIMIT /\
  1108 + select_timeout toy_opts 1108 toy_kept < ts_keepalive_recv toy_after + k * (DEFAULT_KEEPALIVE_LIMIT + 1) /\
  forall now' p', ts_keepalive_recv toy_after + k * DEFAULT_KEEPALIVE_LIMIT <= now' -> checktimeouts toy_opts now' toy_kept <> Ok p'.
Proof.
  apply (dead_peer_noticed toy_opts 1060 toy_after 1108 toy_kept).
  - reflexivity.
  - vm_compute. discriminate.
  - vm_compute. split; [reflexivity|discriminate].
  - vm_compute. reflexivity.
  - reflexivity.
  - discriminate.
  - apply (rounds_next _ _ _ _ 1060 toy_after 1108 toy_kept toy_kept).
    + apply rounds_start.
    + vm_compute. split; discriminate.
    + vm_compute. reflexivity.
    + split; [vm_compute; reflexivity|]. split; [vm_compute; reflexivity|vm_compute; discriminate].
  - vm_compute. discriminate.
Defined.

(** A keepalive message has been sent then, and does not count as activity. *)
Example toy_kept_messages : length (m_log toy_kept) = 1%nat /\ ts_idle toy_kept = ts_idle toy_after.
Proof. vm_compute. by split. Qed.

(** A keepalive is due at 1070, sixty seconds after the last message sent, but [select] may
    sleep until 1110, sixty seconds after the last one received. *)
Example keepalive_late : select_timeout toy_opts 1051 toy_after = 59 /\ 1010 + keepalive_secs toy_opts < 1051 + select_timeout toy_opts 1051 toy_after.
Proof. vm_compute. by split. Qed.

(** The line "SSH-2.0-x" with a carriage return, in two pieces. *)
Definition toy_line : list ident_event := [NotReady 1001] ++ map (ReadByte 1001) (str "SSH-2.0-x") ++ [SelectIntr; ReadByte 1002 13].

Lemma identification_read_witness : read_session_identification toy_opts (toy_line ++ ReadByte 1002 10 :: [ReadByte 1002 65]) toy_before =
  Ok (Some [ReadByte 1002 65], ts_set_remoteident (str "SSH-2.0-x") toy_before).
Proof.
  apply identification_read.
  - reflexivity.
  - cbv [toy_line app map str]. vm_compute. repeat (constructor; [exact I || reflexivity|]). constructor.
  - vm_compute. reflexivity.
  - vm_compute. repeat (constructor; [discriminate|]). constructor.
  - vm_compute. reflexivity.
  - vm_compute. discriminate.
  - exists (str "0-x"). left. reflexivity.
Defined.
End ToyTimers.
