(* ===== verification/Listener.v ===== *)
(** * Listeners (listener.c)

    The table of the sockets the server listens on for its peer, each with what accepts a
    connection and what cleans up.  A [struct Listener *] is its slot in the table.  The
    highest descriptor, kept for [select], is left out. *)

From S2P Require Import Prelude Channel.

Definition MAX_LISTENERS : Z := 20.
Definition LISTENER_EXTEND_SIZE : nat := 1.

(** [enum ListenerType]. *)
Definition LISTENER_TYPE_DEFAULT : Z := 0.
Definition LISTENER_TYPE_TCPFORWARDED : Z := 1.
Definition LISTENER_TYPE_STREAMFORWARDED : Z := 2.

Section listener.
Context {D S W : Type} {SW : Sys W}.

(** [D] is what [typedata] points to; [S] the session the acceptor works on. *)
Record Listener := mklistener {
  socks : list Z;
  lindex : nat;
  acceptor : D -> Z -> S -> outcome S;
  cleanup : option (D -> W -> W);
  ltype : Z;
  typedata : D;
}.

Definition set_typedata (d : D) (l : Listener) : Listener :=
  mklistener (socks l) (lindex l) (acceptor l) (cleanup l) (ltype l) d.

Implicit Types (ls : list (option Listener)) (w : W).

Definition listeners_initialise : list (option Listener) := [None].

(** The descriptors to wait for. *)
Definition set_listener_fds ls : list Z :=
  concat (map (fun o => match o with Some l => socks l | None => [] end) ls).

Fixpoint accept_socks (l : Listener) (fds : list Z) (readfds : Z -> bool) (s : S) : outcome S :=
  match fds with
  | [] => Ok s
  | sock :: fds =>
      let* s := if readfds sock then acceptor l (typedata l) sock s else Ok s in
      accept_socks l fds readfds s
  end.

(** The acceptors do not change the table. *)
Fixpoint handle_listeners ls (readfds : Z -> bool) (s : S) : outcome S :=
  match ls with
  | [] => Ok s
  | o :: ls =>
      let* s := match o with Some l => accept_socks l (socks l) readfds s | None => Ok s end in
      handle_listeners ls readfds s
  end.

Definition close_socks (fds : list Z) w : W := fold_left (fun w fd => sys_close fd w) fds w.

(** [None]: there are too many, and the sockets are closed. *)
Definition new_listener (fds : list Z) (type : Z) (data : D) (acc : D -> Z -> S -> outcome S)
    (clean : option (D -> W -> W)) ls w : option nat * list (option Listener) * W :=
  let i := free_slot ls in
  if bool_decide (i = length ls) && (MAX_LISTENERS <? zlen ls) then (None, ls, close_socks fds w)
  else
    let ls := if bool_decide (i = length ls) then ls ++ replicate LISTENER_EXTEND_SIZE None else ls in
    (Some i, <[i := Some (mklistener fds i acc clean type data)]> ls, w).

(** The first listener of the type whose data [match] accepts. *)
Fixpoint get_listener_from (i : nat) (type : Z) (data : D) (matches : D -> D -> outcome bool) ls : outcome (option nat) :=
  match ls with
  | [] => Ok None
  | Some l :: ls =>
      if ltype l =? type then
        let* m := matches data (typedata l) in
        if (m : bool) then Ok (Some i) else get_listener_from (Datatypes.S i) type data matches ls
      else get_listener_from (Datatypes.S i) type data matches ls
  | None :: ls => get_listener_from (Datatypes.S i) type data matches ls
  end.

Definition get_listener (type : Z) (data : D) (matches : D -> D -> outcome bool) ls : outcome (option nat) :=
  get_listener_from 0 type data matches ls.

Definition remove_listener (i : nat) ls w : outcome (list (option Listener) * W) :=
  match ls !! i with
  | Some (Some l) =>
      let w := match cleanup l with Some f => f (typedata l) w | None => w end in
      Ok (<[lindex l := None]> ls, close_socks (socks l) w)
  | _ => Undef
  end.

Fixpoint remove_listeners_from (n i : nat) ls w : outcome (list (option Listener) * W) :=
  match n with
  | O => Ok (ls, w)
  | Datatypes.S n =>
      let* (ls, w) := match ls !! i with
                      | Some (Some _) => remove_listener i ls w
                      | _ => Ok (ls, w)
                      end in
      remove_listeners_from n (Datatypes.S i) ls w
  end.

Definition remove_all_listeners ls w : outcome (list (option Listener) * W) :=
  let* (_, w) := remove_listeners_from (length ls) 0 ls w in Ok ([], w).
End listener.

Arguments Listener : clear implicits.
