(* ===== verification/Netio.v ===== *)
(** * Sockets (netio.c)

    Listening on an address ([dropbear_listen]), and the connections in progress: started by
    [connect_remote] and [connect_streamlocal], tried address by address while the main loop
    comes round ([set_connect_fds]), finished in [handle_connect_fds].  The callback of a
    connection is kept in Channel.v's [conns]; the rest of it here, in the list the session
    has.  The kernel is the class [NetSys].  The source address of a connection, its write
    queue and TCP fast open are the client's. *)

From S2P Require Import Prelude Bytes CString Buffer Packet Channel.

Definition DROPBEAR_LISTEN_BACKLOG : Z := MAX_CHANNELS.
Definition DROPBEAR_MAX_SOCKS : nat := 2.

(** [sizeof(addr.sun_path)]. *)
Definition SUN_PATH_SIZE : Z := 108.

Inductive sockaddr :=
| SaInet (addr : bytes) (port : Z)
| SaInet6 (addr : bytes) (port : Z)
| SaUnix (path : bytes).

Inductive family := AF_INET | AF_INET6 | AF_UNIX.

#[global] Instance sockaddr_eq_dec : EqDecision sockaddr.
Proof. solve_decision. Defined.

#[global] Instance family_eq_dec : EqDecision family.
Proof. solve_decision. Defined.

Definition ai_family (a : sockaddr) : family :=
  match a with SaInet _ _ => AF_INET | SaInet6 _ _ => AF_INET6 | SaUnix _ => AF_UNIX end.

Definition set_sin_port (port : Z) (a : sockaddr) : sockaddr :=
  match a with SaInet h _ => SaInet h port | SaInet6 h _ => SaInet6 h port | SaUnix p => SaUnix p end.

Inductive sockopt :=
| SO_REUSEADDR
| SO_BINDTODEVICE (interface : bytes)
| IPV6_V6ONLY
| TCP_NODELAY
| TCP_FASTOPEN (qlen : Z)
| SockPriority (prio : dropbear_prio)
| O_NONBLOCK.

(** What [errno] is told apart for; [EOther] carries [strerror(errno)]. *)
Inductive connect_errno := EINPROGRESS | EAGAIN | EOther (text : bytes).

Class NetSys (W : Type) := {
  #[global] net_sys :: Sys W;
  (** [getaddrinfo] for a host (NULL: [None]) and a port, with AI_PASSIVE or not: the text of
      the error, or addresses. *)
  sys_getaddrinfo : option bytes -> bytes -> bool -> W -> (bytes + list sockaddr) * W;
  sys_socket : family -> W -> Z * W;
  sys_setsockopt : Z -> sockopt -> W -> W;
  sys_bind : Z -> sockaddr -> W -> bool * W;
  sys_listen : Z -> Z -> W -> bool * W;
  sys_connect : Z -> sockaddr -> W -> option connect_errno * W;
  (** SO_ERROR of a socket: [None] when [getsockopt] fails, [Some None] for no error. *)
  sys_so_error : Z -> W -> option (option bytes);
  sys_getsockname : Z -> W -> option sockaddr;
  (** [getnameinfo] with numeric host and service. *)
  sys_getnameinfo : sockaddr -> option (bytes * bytes);
  sys_accept : Z -> W -> option (Z * sockaddr) * W;
  sys_unlink : bytes -> W -> W;
  sys_umask : Z -> W -> Z * W;
}.

(** A [struct dropbear_progress_connection]: [res_iter] are the addresses left to try. *)
Record progress_connection := mkprogress {
  remotehost : bytes;
  remoteport : option bytes;
  res_iter : list sockaddr;
  csock : Z;
  errstring : option bytes;
  cprio : dropbear_prio;
}.

Definition set_res_iter (l : list sockaddr) (c : progress_connection) : progress_connection :=
  mkprogress (remotehost c) (remoteport c) l (csock c) (errstring c) (cprio c).
Definition set_csock (fd : Z) (c : progress_connection) : progress_connection :=
  mkprogress (remotehost c) (remoteport c) (res_iter c) fd (errstring c) (cprio c).
Definition set_errstring (e : bytes) (c : progress_connection) : progress_connection :=
  mkprogress (remotehost c) (remoteport c) (res_iter c) (csock c) (Some e) (cprio c).

(** The connections of the session, in order, by their number in [conns]. *)
Class ConnSession (P : Type) := {
  #[global] conn_session :: Session P;
  ses_conn_pending : P -> list (nat * progress_connection);
  ses_set_conn_pending : list (nat * progress_connection) -> P -> P;
}.

(** [atoi] and [atol] of a string. *)
Definition atol (s : bytes) : Z :=
  let l := snd (span isspace (cstr s)) in
  match l with
  | 45 :: l => - decimal (fst (span isdigit l))
  | 43 :: l => decimal (fst (span isdigit l))
  | l => decimal (fst (span isdigit l))
  end.

(** [snprintf] with percent u of a number of at most 32 bits. *)
Fixpoint digits (fuel : nat) (n : Z) : bytes :=
  match fuel with
  | O => []
  | S fuel => (if n <? 10 then [] else digits fuel (n / 10)) ++ [48 + n mod 10]
  end.

Definition utoa (n : Z) : bytes := digits 10 n.

Section netio.
Context {W : Type} {NW : NetSys W}.

(** [getaddrstring] without a lookup of names: host and port. *)
Definition getaddrstring (addr : sockaddr) : outcome (bytes * bytes) :=
  match sys_getnameinfo addr with Some hp => Ok hp | None => Exit "Failed lookup: %s" end.

(** [get_sock_port]: 0 for a socket without a port. *)
Definition get_sock_port (sock : Z) (w : W) : outcome Z :=
  match sys_getsockname sock w with
  | None => Ok 0
  | Some (SaUnix _) => Ok 0
  | Some from => match sys_getnameinfo from with Some (_, strport) => Ok (atol strport) | None => Undef end
  end.

Definition listen_options (interface : option bytes) (fam : family) (sock : Z) (w : W) : W :=
  let w := sys_setsockopt sock SO_REUSEADDR w in
  let w := match interface with Some i => sys_setsockopt sock (SO_BINDTODEVICE i) w | None => w end in
  let w := if bool_decide (fam = AF_INET6) then sys_setsockopt sock IPV6_V6ONLY w else w in
  sys_setsockopt sock TCP_NODELAY w.

(** The loop over the addresses: the sockets there are, and the port the first one got. *)
Fixpoint listen_loop (res : list sockaddr) (sockcount : nat) (interface : option bytes) (socks : list Z)
    (allocated_lport : Z) (w : W) : outcome (list Z * W) :=
  match res with
  | [] => Ok (socks, w)
  | a :: res =>
      if (sockcount <=? length socks)%nat then Ok (socks, w)
      else
        let next := listen_loop res sockcount interface in
        let a := if 0 <? allocated_lport then set_sin_port allocated_lport a else a in
        let '(sock, w) := sys_socket (ai_family a) w in
        if sock <? 0 then next socks allocated_lport w
        else
          let w := listen_options interface (ai_family a) sock w in
          let '(bound, w) := sys_bind sock a w in
          if negb bound then next socks allocated_lport (sys_close sock w)
          else
            let '(ok, w) := sys_listen sock DROPBEAR_LISTEN_BACKLOG w in
            if negb ok then next socks allocated_lport (sys_close sock w)
            else
              let* port := if allocated_lport =? 0 then get_sock_port sock w else Ok allocated_lport in
              next (socks ++ [sock]) port w
  end.

(** [address]: NULL listens on localhost only, the empty string on everything. [None] is -1. *)
Definition dropbear_listen (address : option bytes) (port : bytes) (sockcount : nat) (interface : option bytes) (w : W)
    : outcome (option (list Z) * W) :=
  let passive := match address with None => false | Some _ => true end in
  let node := match address with Some a => match cstr a with [] => None | h => Some h end | None => None end in
  let '(res, w) := sys_getaddrinfo node port passive w in
  match res with
  | inl _ => Ok (None, w)
  | inr res =>
      let* (socks, w) := listen_loop res sockcount interface [] 0 w in
      Ok (match socks with [] => None | _ => Some socks end, w)
  end.

(** ** Connections in progress *)

(** The error that means the connection is under way. *)
Definition retry_errno (a : sockaddr) (e : connect_errno) : bool :=
  match ai_family a, e with AF_UNIX, EAGAIN => true | AF_UNIX, _ => false | _, EINPROGRESS => true | _, _ => false end.

Definition errno_text (e : connect_errno) : bytes :=
  match e with
  | EINPROGRESS => str "Operation now in progress"
  | EAGAIN => str "Try again"
  | EOther text => text
  end.

(** [connect_try_next] on the addresses [l]. *)
Fixpoint try_addrs (l : list sockaddr) (c : progress_connection) (w : W) : outcome (progress_connection * W) :=
  match l with
  | [] => Ok (set_res_iter [] c, w)
  | r :: l =>
      let* _ := oassert (csock c =? -1) in
      let '(sock, w) := sys_socket (ai_family r) w in
      let c := set_csock sock c in
      if sock <? 0 then try_addrs l c w
      else
        let w := sys_setsockopt sock O_NONBLOCK (sys_setsockopt sock (SockPriority (cprio c)) (sys_setsockopt sock TCP_NODELAY w)) in
        let '(e, w) := sys_connect sock r w in
        match e with
        | Some e =>
            if retry_errno r e then Ok (set_res_iter l c, w)
            else try_addrs l (set_csock (-1) (set_errstring (errno_text e) c)) (sys_close sock w)
        | None => Ok (set_res_iter l c, w)
        end
  end.

Definition connect_try_next (c : progress_connection) (w : W) : outcome (progress_connection * W) := try_addrs (res_iter c) c w.

(** The loop that sets one going; every pass takes an address at least. *)
Fixpoint connect_tries (fuel : nat) (c : progress_connection) (w : W) : outcome (progress_connection * W) :=
  match fuel with
  | O => Ok (c, w)
  | S fuel =>
      if negb (bool_decide (res_iter c = [])) && (csock c <? 0)
      then let* (c, w) := connect_try_next c w in connect_tries fuel c w
      else Ok (c, w)
  end.

Context {P : Type} {CS : ConnSession P} {CT : ChanTypes (P := P) (W := W)}.

(** A number that no connection has. *)
Definition fresh_conn (s : chses (P := P) (W := W)) : nat := map_fold (fun k _ n => Nat.max (S k) n) 0%nat (conns s).

Definition conn_at (k : nat) (s : chses (P := P) (W := W)) : option progress_connection :=
  snd <$> (snd <$> list_find (fun kc => fst kc = k) (ses_conn_pending (ses s))).

Definition with_pending (l : list (nat * progress_connection)) (s : chses (P := P) (W := W)) : chses :=
  with_ses (ses_set_conn_pending l (ses s)) s.

Definition put_conn (k : nat) (c : progress_connection) (s : chses) : chses :=
  with_pending (map (fun kc => if bool_decide (fst kc = k) then (k, c) else kc) (ses_conn_pending (ses s))) s.

(** [remove_connect]. *)
Definition remove_connect (k : nat) (s : chses) : chses :=
  with_pending (filter (fun kc => fst kc <> k) (ses_conn_pending (ses s))) s.

Definition list_append_conn (k : nat) (c : progress_connection) (cb : connect_callback) (s : chses) : chses :=
  with_conns (<[k := cb]> (conns s)) (with_pending (ses_conn_pending (ses s) ++ [(k, c)]) s).

(** The text of an address that cannot be resolved, as [snprintf] cuts it. *)
Definition resolve_error (host port gai : bytes) : bytes :=
  take (Z.to_nat (100 + zlen gai - 1)) (str "Error resolving '" ++ host ++ str "' port '" ++ port ++ str "'. " ++ gai).

Definition connect_remote (host port : bytes) (cb : connect_callback) (pr : dropbear_prio) (s : chses) : nat * chses :=
  let k := fresh_conn s in
  let '(res, w) := sys_getaddrinfo (Some (cstr host)) port false (world s) in
  let c := match res with
           | inl gai => mkprogress (cstr host) (Some port) [] (-1) (Some (resolve_error (cstr host) port gai)) pr
           | inr res => mkprogress (cstr host) (Some port) res (-1) None pr
           end in
  (k, list_append_conn k c cb (with_world w s)).

Definition connect_streamlocal (localpath : bytes) (cb : connect_callback) (pr : dropbear_prio) (s : chses) : nat * chses :=
  let k := fresh_conn s in
  let path := cstr localpath in
  let c := if SUN_PATH_SIZE <=? zlen path then mkprogress path None [] (-1) (Some (str "Stream path too long")) pr
           else mkprogress path None [SaUnix path] (-1) None pr in
  (k, list_append_conn k c cb s).

Definition remove_connect_pending (s : chses) : chses := with_conns ∅ (with_pending [] s).

(** One connection of [set_connect_fds]: the descriptor to wait for, if it goes on. *)
Definition set_connect_fd (k : nat) (s : chses) : outcome (list Z * chses) :=
  match conn_at k s with
  | None => Undef
  | Some c =>
      let* (c, w) := connect_tries (S (length (res_iter c))) c (world s) in
      let s := put_conn k c (with_world w s) in
      if 0 <=? csock c then Ok ([csock c], s)
      else
        let* s := connect_finished k (inr (default (str "unexpected failure") (errstring c))) s in
        Ok ([], remove_connect k s)
  end.

Fixpoint set_connect_fds_from (ks : list nat) (s : chses) : outcome (list Z * chses) :=
  match ks with
  | [] => Ok ([], s)
  | k :: ks =>
      let* (fds, s) := set_connect_fd k s in
      let* (more, s) := set_connect_fds_from ks s in
      Ok (fds ++ more, s)
  end.

Definition set_connect_fds (s : chses) : outcome (list Z * chses) :=
  set_connect_fds_from (map fst (ses_conn_pending (ses s))) s.

(** [handle_connect_fds] stops at the first connection that is established. *)
Fixpoint handle_connect_fds_from (ks : list nat) (writefd : Z -> bool) (s : chses) : outcome chses :=
  match ks with
  | [] => Ok s
  | k :: ks =>
      match conn_at k s with
      | None => Undef
      | Some c =>
          if (csock c <? 0) || negb (writefd (csock c)) then handle_connect_fds_from ks writefd s
          else
            let failed c' := handle_connect_fds_from ks writefd (put_conn k (set_csock (-1) c') (with_world (m_close (csock c) (world s)) s)) in
            match sys_so_error (csock c) (world s) with
            | None => failed c
            | Some (Some text) => failed (set_errstring text c)
            | Some None =>
                let* s := connect_finished k (inl (csock c)) s in
                Ok (remove_connect k s)
            end
      end
  end.

Definition handle_connect_fds (writefd : Z -> bool) (s : chses) : outcome chses :=
  handle_connect_fds_from (map fst (ses_conn_pending (ses s))) writefd s.
End netio.
