(* ===== verification/Forward.v ===== *)
(** * Forwarding (svr-forward.c, svr-tcpfwd.c, svr-streamfwd.c, tcp-accept.c)

    What the peer may have forwarded: connections the server accepts for it, on TCP ports and
    Unix sockets asked for with global requests, and connections the server makes for it, the
    channels of type direct-tcpip and direct-streamlocal@openssh.com.  Listeners are those of
    Listener.v, sockets and connections in progress those of Netio.v, channels those of
    Channel.v, what a key allows is in AuthKeys.v. *)

From S2P Require Import Prelude Bytes CString Buffer Packet SessionData Channel AuthKeys Listener Netio.

Definition MAX_HOST_LEN : Z := 254.
Definition IPPORT_RESERVED : Z := 1024.
Definition CHANNEL_ID_STREAMLOCALFORWARDED : Z := 0x53747265.
Definition SSH_OPEN_ADMINISTRATIVELY_PROHIBITED : Z := 1.

(** The types of channels besides [svrchansess]. *)
Definition svr_chan_tcpdirect : Z := 1.
Definition svr_chan_streamlocal : Z := 2.
Definition svr_chan_tcpremote : Z := 3.
Definition svr_chan_streamlocalremote : Z := 4.

Inductive fwd_kind := direct | forwarded.

#[global] Instance fwd_kind_eq_dec : EqDecision fwd_kind.
Proof. solve_decision. Defined.

(** [struct FwdListener]; a string is [None] for NULL. *)
Record FwdListener := mkfwdlistener {
  sendaddr : option bytes;
  sendport : Z;
  listenaddr : option bytes;
  listenport : Z;
  request_listenaddr : option bytes;
  interface : option bytes;
  chantype : Z;
  fwd_type : fwd_kind;
  socket_path : option bytes;
}.

Definition set_listenport (port : Z) (i : FwdListener) : FwdListener :=
  mkfwdlistener (sendaddr i) (sendport i) (listenaddr i) port (request_listenaddr i) (interface i) (chantype i) (fwd_type i) (socket_path i).

(** The options that are looked at: of [svr_opts], and [opts.listen_fwd_all]. *)
Record fwd_opts := mkfwdopts {
  noremotefwd : bool;
  nolocaltcp : bool;
  forced_cmd : option bytes;
  svr_interface : option bytes;
  listen_fwd_all : bool;
}.

Class FwdSession (P : Type) := {
  #[global] fwd_session :: ConnSession P;
  fs_pubkey_options : P -> option PubKeyOptions;
  fs_allowprivport : P -> bool;
}.

(** ** Channels to elsewhere (svr-tcpfwd.c, svr-streamfwd.c) *)

Section direct.
Context {P W : Type} {FS : FwdSession P} {NW : NetSys W}.
Context (opts : fwd_opts).

Abbreviation chs := (chses (P := P) (W := W)).

Definition pr_string : chs -> outcome (bytes * Z * chs) := pr buf_getstring.

(** [channel->conn_pending = ...], and the result of the initialisation. *)
Definition channel_connecting (i : nat) (k : nat) (s : chs) : outcome (Z * chs) :=
  let* c := chan i s in
  Ok (SSH_OPEN_IN_PROGRESS, put_chan i (with_conn_pending (Some k) c) s).

Definition newtcpdirect (i : nat) (s : chs) : outcome (Z * chs) :=
  let prohibited s := Ok (SSH_OPEN_ADMINISTRATIVELY_PROHIBITED, s) in
  if nolocaltcp opts || negb (svr_pubkey_allows_tcpfwd (fs_pubkey_options (ses s))) then prohibited s
  else
    let* (desthost, len, s) := pr_string s in
    if MAX_HOST_LEN <? len then prohibited s
    else
      let* (destport, s) := pr buf_getint s in
      let* (_, len, s) := pr_string s in
      if MAX_HOST_LEN <? len then prohibited s
      else
        let* (origport, s) := pr buf_getint s in
        if (65535 <? origport) || (65535 <? destport) then prohibited s
        else
          let* allowed := svr_pubkey_allows_local_tcpfwd (fs_pubkey_options (ses s)) desthost destport in
          if negb allowed then prohibited s
          else
            let '(k, s) := connect_remote desthost (utoa destport) (ChannelConnectDone i) DROPBEAR_PRIO_NORMAL s in
            channel_connecting i k s.

Definition has_forced_command (p : P) : bool :=
  match forced_cmd opts with Some _ => true | None => svr_pubkey_has_forced_command (fs_pubkey_options p) end.

Definition newstreamlocal (i : nat) (s : chs) : outcome (Z * chs) :=
  let prohibited s := Ok (SSH_OPEN_ADMINISTRATIVELY_PROHIBITED, s) in
  if has_forced_command (ses s) then prohibited s
  else if nolocaltcp opts || negb (svr_pubkey_allows_tcpfwd (fs_pubkey_options (ses s))) then prohibited s
  else
    let* (destsocket, len, s) := pr_string s in
    if MAX_HOST_LEN <? len then prohibited s
    else
      let '(k, s) := connect_streamlocal destsocket (ChannelConnectDone i) DROPBEAR_PRIO_NORMAL s in
      channel_connecting i k s.

(** The types of channels of the server: those here, and sessions (svr-chansession.c). *)
Definition svr_chantypes (chansess : ChanTypes (P := P) (W := W)) : ChanTypes (P := P) (W := W) := {|
  ct_names := [(svrchansess, str "session"); (svr_chan_tcpdirect, str "direct-tcpip");
               (svr_chan_streamlocal, str "direct-streamlocal@openssh.com")];
  ct_name ty :=
    if ty =? svr_chan_tcpdirect then str "direct-tcpip"
    else if ty =? svr_chan_streamlocal then str "direct-streamlocal@openssh.com"
    else if ty =? svr_chan_tcpremote then str "forwarded-tcpip"
    else if ty =? svr_chan_streamlocalremote then str "forwarded-streamlocal@openssh.com"
    else str "session";
  ct_inithandler ty :=
    if ty =? svr_chan_tcpdirect then Some newtcpdirect
    else if ty =? svr_chan_streamlocal then Some newstreamlocal
    else if ty =? svrchansess then ct_inithandler (ChanTypes := chansess) ty else None;
  ct_check_close ty := if ty =? svrchansess then ct_check_close (ChanTypes := chansess) ty else None;
  ct_reqhandler ty := if ty =? svrchansess then ct_reqhandler (ChanTypes := chansess) ty else None;
  ct_closehandler ty := if ty =? svrchansess then ct_closehandler (ChanTypes := chansess) ty else None;
  ct_cleanup ty := if ty =? svrchansess then ct_cleanup (ChanTypes := chansess) ty else None;
|}.
End direct.

(** ** Listening for the peer *)

Section remote.
Context {P W : Type} {FS : FwdSession P} {NW : NetSys W} {CT : ChanTypes (P := P) (W := W)}.
Context (recv_window : Z) (opts : fwd_opts).

Abbreviation chs := (chses (P := P) (W := W)).
Abbreviation listener := (Listener FwdListener chs W).

(** The session with its listeners. *)
Record fwses := mkfwses { fch : chs; listeners : list (option listener) }.

Definition with_fch (s : chs) (f : fwses) : fwses := mkfwses s (listeners f).
Definition with_listeners (l : list (option listener)) (f : fwses) : fwses := mkfwses (fch f) l.
Definition with_fworld (w : W) (f : fwses) : fwses := with_fch (with_world w (fch f)) f.

(** Reading the payload, and an operation of the session alone. *)
Definition fpr {A} (op : chs -> outcome (A * chs)) (f : fwses) : outcome (A * fwses) :=
  let* (a, s) := op (fch f) in Ok (a, with_fch s f).
Definition fon_ses (op : P -> outcome P) (f : fwses) : outcome fwses :=
  let* s := on_ses op (fch f) in Ok (with_fch s f).

(** The key's options. *)
Definition key_options (f : fwses) : option PubKeyOptions := fs_pubkey_options (ses (fch f)).

(** *** Accepting (tcp-accept.c) *)

Definition put_cstr (s : bytes) (p : P) : outcome P := pw (fun b => buf_putstring b (cstr s) (zlen (cstr s))) p.

(** The structure is freed with its strings. *)
Definition cleanup_tcp (tcpinfo : FwdListener) (w : W) : W := w.

Definition tcp_acceptor (tcpinfo : FwdListener) (sock : Z) (s : chs) : outcome chs :=
  let '(r, w) := sys_accept sock (world s) in
  let s := with_world w s in
  match r with
  | None => Ok s
  | Some (fd, sa) =>
      match sys_getnameinfo sa with
      | None => Ok (with_world (m_close fd (world s)) s)
      | Some (ipstring, portstring) =>
          let* (ok, s) := send_msg_channel_open_init recv_window fd (chantype tcpinfo) s in
          if (ok : bool) then
            let '(addr, port) := match fwd_type tcpinfo with
                                 | direct => (sendaddr tcpinfo, sendport tcpinfo)
                                 | forwarded => (request_listenaddr tcpinfo, listenport tcpinfo)
                                 end in
            on_ses (fun p =>
              let* p := put_cstr (default (str "localhost") addr) p in
              let* p := pw (fun b => buf_putint b port) p in
              let* p := put_cstr ipstring p in
              let* p := pw (fun b => buf_putint b (u32 (atol portstring))) p in
              ses_encrypt_packet p) s
          else Ok (with_world (sys_close fd (world s)) s)
      end
  end.

(** The listener's slot, or [None] for DROPBEAR_FAILURE. *)
Definition listen_tcpfwd (tcpinfo : FwdListener) (f : fwses) : outcome (option nat * fwses) :=
  let* (socks, w) := dropbear_listen (listenaddr tcpinfo) (utoa (listenport tcpinfo)) DROPBEAR_MAX_SOCKS (interface tcpinfo) (world (fch f)) in
  let f := with_fworld w f in
  match socks with
  | None => Ok (None, f)
  | Some socks =>
      let '(i, ls, w) := new_listener socks LISTENER_TYPE_TCPFORWARDED tcpinfo tcp_acceptor (Some cleanup_tcp)
                           (listeners f) (world (fch f)) in
      Ok (i, with_listeners ls (with_fworld w f))
  end.

(** *** TCP (svr-tcpfwd.c) *)

(** [strcmp] of two strings that may be NULL. *)
Definition strcmp_opt (a b : option bytes) : outcome bool :=
  match a, b with Some a, Some b => Ok (strcmp_eq a b) | _, _ => Undef end.

Definition matchtcp (info1 info2 : FwdListener) : outcome bool :=
  if listenport info1 =? listenport info2 then strcmp_opt (request_listenaddr info1) (request_listenaddr info2) else Ok false.

(** Closes the listener at [i]. *)
Definition fwd_remove_listener (i : nat) (f : fwses) : outcome fwses :=
  let* (ls, w) := remove_listener i (listeners f) (world (fch f)) in
  Ok (with_listeners ls (with_fworld w f)).

(** [true] is DROPBEAR_SUCCESS. *)
Definition svr_cancelremotetcp (f : fwses) : outcome (bool * fwses) :=
  let* (request_addr, addrlen, f) := fpr pr_string f in
  if MAX_HOST_LEN <? addrlen then Ok (false, f)
  else
    let* (port, f) := fpr (pr buf_getint) f in
    let tcpinfo := mkfwdlistener None 0 None port (Some request_addr) None 0 direct None in
    let* l := get_listener LISTENER_TYPE_TCPFORWARDED tcpinfo matchtcp (listeners f) in
    match l with
    | Some i => let* f := fwd_remove_listener i f in Ok (true, f)
    | None => Ok (false, f)
    end.

(** What a listener is set up with. *)
Definition remote_tcpinfo (request_addr : bytes) (port : Z) : FwdListener :=
  mkfwdlistener None 0
    (if negb (listen_fwd_all opts) || strcmp_eq request_addr (str "localhost") then None else Some request_addr)
    port (Some request_addr) (svr_interface opts) svr_chan_tcpremote forwarded None.

(** The port of the request is allowed. *)
Definition listen_port_ok (port : Z) (f : fwses) : bool :=
  (port =? 0) || ((port <=? 65535) && (fs_allowprivport (ses (fch f)) || (IPPORT_RESERVED <=? port))).

(** Up to the reply: [Some (port, listenport)], the port asked for and the one listened on,
    is success. *)
Definition remotetcp_listen (f : fwses) : outcome (option (Z * Z) * fwses) :=
  let* (request_addr, addrlen, f) := fpr pr_string f in
  if MAX_HOST_LEN <? addrlen then Ok (None, f)
  else
    let* (port, f) := fpr (pr buf_getint) f in
    if negb (listen_port_ok port f) then Ok (None, f)
    else if negb (svr_pubkey_allows_remote_tcpfwd (key_options f) request_addr port) then Ok (None, f)
    else
      let* (l, f) := listen_tcpfwd (remote_tcpinfo request_addr port) f in
      match l with
      | None => Ok (None, f)
      | Some i =>
          match listeners f !! i with
          | Some (Some l) =>
              match socks l with
              | [] => Undef
              | sock :: _ =>
                  let* listenport := get_sock_port sock (world (fch f)) in
                  let listenport := u32 listenport in
                  Ok (Some (port, listenport), with_listeners (<[i := Some (set_typedata (set_listenport listenport (typedata l)) l)]> (listeners f)) f)
              end
          | _ => Undef
          end
      end.

Definition svr_remotetcpreq (wantreply : bool) (f : fwses) : outcome (bool * fwses) :=
  let* (ret, f) := remotetcp_listen f in
  let* f :=
    if wantreply then
      fon_ses (fun p =>
        let* p :=
          match ret with
          | Some (port, listenport) =>
              let* p := pw (fun b => buf_putbyte b SSH_MSG_REQUEST_SUCCESS) p in
              if port =? 0 then pw (fun b => buf_putint b listenport) p else Ok p
          | None => pw (fun b => buf_putbyte b SSH_MSG_REQUEST_FAILURE) p
          end in
        ses_encrypt_packet p) f
    else Ok f in
  Ok (match ret with Some _ => true | None => false end, f).

(** *** Unix sockets (svr-streamfwd.c) *)

Definition matchstreamlocal (info1 info2 : FwdListener) : outcome bool :=
  match socket_path info1, socket_path info2 with
  | Some p1, Some p2 => Ok ((chantype info1 =? chantype info2) && strcmp_eq p1 p2)
  | _, _ => Ok false
  end.

Definition has_nul (s : bytes) (len : Z) : bool := negb (zlen (cstr s) =? len).

Definition svr_cancelremotestreamlocal (f : fwses) : outcome (bool * fwses) :=
  let* (socket_path, pathlen, f) := fpr pr_string f in
  if (MAX_HOST_LEN <? pathlen) || has_nul socket_path pathlen then Ok (false, f)
  else
    let tcpinfo := mkfwdlistener None 0 None 0 None None svr_chan_streamlocalremote direct (Some socket_path) in
    let* l := get_listener CHANNEL_ID_STREAMLOCALFORWARDED tcpinfo matchstreamlocal (listeners f) in
    match l with
    | Some i => let* f := fwd_remove_listener i f in Ok (true, f)
    | None => Ok (false, f)
    end.

Definition unlink_streamsocket (path : bytes) (w : W) : W := sys_unlink (cstr path) w.

Definition cleanup_streamlocal (tcpinfo : FwdListener) (w : W) : W :=
  match socket_path tcpinfo with Some path => unlink_streamsocket path w | None => w end.

Definition streamlocal_acceptor (tcpinfo : FwdListener) (sock : Z) (s : chs) : outcome chs :=
  let '(r, w) := sys_accept sock (world s) in
  let s := with_world w s in
  match r with
  | None => Ok s
  | Some (fd, _) =>
      let* (ok, s) := send_msg_channel_open_init recv_window fd (chantype tcpinfo) s in
      if (ok : bool) then
        match request_listenaddr tcpinfo with
        | None => Undef
        | Some addr =>
            on_ses (fun p =>
              let* p := put_cstr addr p in
              let* p := pw (fun b => buf_putstring b [] 0) p in
              ses_encrypt_packet p) s
        end
      else Ok (with_world (sys_close fd (world s)) s)
  end.

(** The socket bound, under the mask 0177, and listening, or [None]. *)
Definition bind_streamlocal (path : bytes) (w : W) : option Z * W :=
  let '(sock, w) := sys_socket AF_UNIX w in
  if sock <? 0 then (None, w)
  else
    let w := unlink_streamsocket path w in
    let '(old_umask, w) := sys_umask 127 w in
    let '(bound, w) := sys_bind sock (SaUnix (cstr path)) w in
    let '(_, w) := sys_umask old_umask w in
    if negb bound then (None, m_close sock w)
    else
      let '(ok, w) := sys_listen sock DROPBEAR_LISTEN_BACKLOG w in
      if negb ok then (None, m_close sock (unlink_streamsocket path w))
      else (Some sock, sys_setsockopt sock O_NONBLOCK w).

Definition listen_streamlocal (tcpinfo : FwdListener) (f : fwses) : outcome (option nat * fwses) :=
  match socket_path tcpinfo with
  | None => Ok (None, f)
  | Some path =>
      if SUN_PATH_SIZE <=? zlen (cstr path) then Ok (None, f)
      else
        let '(sock, w) := bind_streamlocal path (world (fch f)) in
        match sock with
        | None => Ok (None, with_fworld w f)
        | Some sock =>
            let '(i, ls, w) := new_listener [sock] LISTENER_TYPE_STREAMFORWARDED tcpinfo streamlocal_acceptor
                                 (Some cleanup_streamlocal) (listeners f) w in
            let w := match i with Some _ => w | None => m_close sock (unlink_streamsocket path w) end in
            Ok (i, with_listeners ls (with_fworld w f))
        end
  end.

Definition svr_remotestreamlocalreq (f : fwses) : outcome (bool * fwses) :=
  if has_forced_command opts (ses (fch f)) then Ok (false, f)
  else if noremotefwd opts || negb (svr_pubkey_allows_tcpfwd (key_options f)) then Ok (false, f)
  else
    let* (request_path, pathlen, f) := fpr pr_string f in
    if (MAX_HOST_LEN <? pathlen) || has_nul request_path pathlen then Ok (false, f)
    else
      let tcpinfo := mkfwdlistener None 0 None 0 (Some request_path) None svr_chan_streamlocalremote forwarded (Some (cstr request_path)) in
      let* (l, f) := listen_streamlocal tcpinfo f in
      Ok (match l with Some _ => true | None => false end, f).

(** *** Global requests (svr-forward.c) *)

(** The request by its name; whether the caller still has to reply. *)
Definition global_request (reqname : bytes) (wantreply : bool) (f : fwses) : outcome (bool * bool * fwses) :=
  if strcmp_eq (str "tcpip-forward") reqname then
    let* (ret, f) := svr_remotetcpreq wantreply f in Ok (ret, false, f)
  else if strcmp_eq (str "cancel-tcpip-forward") reqname then
    let* (ret, f) := svr_cancelremotetcp f in Ok (ret, wantreply, f)
  else if strcmp_eq (str "streamlocal-forward@openssh.com") reqname then
    let* (ret, f) := svr_remotestreamlocalreq f in Ok (ret, wantreply, f)
  else if strcmp_eq (str "cancel-streamlocal-forward@openssh.com") reqname then
    let* (ret, f) := svr_cancelremotestreamlocal f in Ok (ret, wantreply, f)
  else Ok (false, wantreply, f).

Definition svr_recv_msg_global_request (f : fwses) : outcome fwses :=
  let* (reqname, namelen, f) := fpr pr_string f in
  let* (wantreply, f) := fpr (pr buf_getbool) f in
  let wantreply := negb (wantreply =? 0) in
  let* (ret, wantreply, f) :=
    if noremotefwd opts || negb (svr_pubkey_allows_tcpfwd (key_options f)) then Ok (false, wantreply, f)
    else if MAX_NAME_LEN <? namelen then Ok (false, wantreply, f)
    else global_request reqname wantreply f in
  if (wantreply : bool) then fon_ses (if (ret : bool) then send_msg_request_success else send_msg_request_failure) f
  else Ok f.

(** The part of [channelio] that is here, and the end of the session. *)
Definition fwd_handle_listeners (readfds : Z -> bool) (f : fwses) : outcome fwses :=
  let* s := handle_listeners (listeners f) readfds (fch f) in Ok (with_fch s f).

Definition fwd_remove_all_listeners (f : fwses) : outcome fwses :=
  let* (ls, w) := remove_all_listeners (listeners f) (world (fch f)) in Ok (with_listeners ls (with_fworld w f)).
End remote.
