(* ===== verification/ChanSess.v ===== *)
(** * Sessions (svr-chansession.c)

    Channels of type "session": terminals, commands, and the processes that run them, with
    [spawn_command] of dbutil.c, sshpty.c, termcodes.c and the names of signals of
    common-chansession.c.  The data of a session is in SessionData.v; the file of users, the
    environment and [run_shell_command] are in Sshd4a.v, the options of keys in AuthKeys.v.

    The kernel is the class [SesSys].  [fork] is given what the child goes on to do, which is
    computed from the state at the fork; [waitpid] gives at once all children that have ended.
    Not modelled: signal handlers, the wiping of keys in the child, [ses.maxfd] and with it the
    closing of the descriptors above 2 before [execv], logging. *)

From S2P Require Import Prelude Bytes CString Buffer Packet SessionData Channel AuthKeys Netio Forward Sshd4a.

Definition MAX_TERM_LEN : Z := 200.
Definition DEFAULT_PATH : bytes := str "/sbin:/system/sbin:/system/bin:/system/xbin".
Definition DEFAULT_ROOT_PATH : bytes := str "/usr/sbin:/usr/bin:/sbin:/bin".

(** [signames], with the numbers of Linux. *)
Definition signames : list (Z * bytes) :=
  [(6, str "ABRT"); (14, str "ALRM"); (7, str "BUS"); (8, str "FPE"); (1, str "HUP"); (4, str "ILL"); (2, str "INT");
   (9, str "KILL"); (13, str "PIPE"); (3, str "QUIT"); (11, str "SEGV"); (15, str "TERM"); (5, str "TRAP");
   (10, str "USR1"); (12, str "USR2")].

(** ** Terminal modes (termcodes.c) *)

Inductive termcode_type :=
| TERMCODE_NONE | TERMCODE_CONTROL | TERMCODE_INPUT | TERMCODE_OUTPUT | TERMCODE_LOCAL | TERMCODE_CONTROLCHAR.

Definition MAX_TERMCODE : Z := 93.

(** The table for Linux, by opcode. *)
Definition termcodes : list (Z * termcode_type) :=
  let none n := replicate n (0, TERMCODE_NONE) in
  let cc x := (x, TERMCODE_CONTROLCHAR) in
  none 1%nat
  ++ map cc [0; 1; 2; 3; 4; 11; 16; 8; 9; 10] ++ none 1%nat ++ map cc [12; 14; 15] ++ none 3%nat ++ map cc [13] ++ none 11%nat
  ++ map (fun x => (x, TERMCODE_INPUT)) [4; 8; 16; 32; 64; 128; 256; 512; 1024; 2048; 4096; 8192; 16384] ++ none 7%nat
  ++ map (fun x => (x, TERMCODE_LOCAL)) [1; 2; 4; 8; 16; 32; 64; 128; 256; 32768; 512; 2048; 16384] ++ none 7%nat
  ++ map (fun x => (x, TERMCODE_OUTPUT)) [1; 2; 4; 8; 16; 32] ++ none 14%nat
  ++ map (fun x => (x, TERMCODE_CONTROL)) [32; 48; 256; 512].

Definition NCCS : nat := 19.

(** [struct termios], of which the speeds are not used. *)
Record termios := mktermios { c_iflag : Z; c_oflag : Z; c_cflag : Z; c_lflag : Z; c_cc : list Z }.

Definition set_flag (value mapcode flags : Z) : Z := if negb (value =? 0) then Z.lor flags mapcode else Z.ldiff flags mapcode.

(** One mode of the list. *)
Definition apply_mode (opcode value : Z) (t : termios) : outcome termios :=
  if MAX_TERMCODE <? opcode then Ok t
  else match termcodes !! Z.to_nat opcode with
       | None => Undef
       | Some (mapcode, ty) =>
           match ty with
           | TERMCODE_NONE => Ok t
           | TERMCODE_CONTROLCHAR =>
               let* cc := mem_write (c_cc t) mapcode [u8 value] in
               Ok (mktermios (c_iflag t) (c_oflag t) (c_cflag t) (c_lflag t) cc)
           | TERMCODE_INPUT => Ok (mktermios (set_flag value mapcode (c_iflag t)) (c_oflag t) (c_cflag t) (c_lflag t) (c_cc t))
           | TERMCODE_OUTPUT => Ok (mktermios (c_iflag t) (set_flag value mapcode (c_oflag t)) (c_cflag t) (c_lflag t) (c_cc t))
           | TERMCODE_LOCAL => Ok (mktermios (c_iflag t) (c_oflag t) (c_cflag t) (set_flag value mapcode (c_lflag t)) (c_cc t))
           | TERMCODE_CONTROL => Ok (mktermios (c_iflag t) (c_oflag t) (set_flag value mapcode (c_cflag t)) (c_lflag t) (c_cc t))
           end
       end.

(** The loop of [get_termmodes]; each turn reads at least a byte. *)
Fixpoint termmodes_loop (fuel : nat) (t : termios) (b : buffer) : outcome (termios * buffer) :=
  match fuel with
  | O => Undef
  | S fuel =>
      let* (opcode, b) := buf_getbyte b in
      if (opcode =? 0) || (159 <? opcode) then Ok (t, b)
      else
        let* (value, b) := buf_getint b in
        let* t := apply_mode opcode value t in
        termmodes_loop fuel t b
  end.

(** ** Processes *)

(** The status [waitpid] gives. *)
Definition WTERMSIG (status : Z) : Z := Z.land status 127.
Definition WIFEXITED (status : Z) : bool := WTERMSIG status =? 0.
Definition WEXITSTATUS (status : Z) : Z := Z.shiftr (Z.land status 65280) 8.
Definition WIFSIGNALED (status : Z) : bool := 2 <=? WTERMSIG (status + 1).
Definition WCOREDUMP (status : Z) : Z := Z.land status 128.

(** What [svr_chansess_checksignal] stores for a child that has ended. *)
Definition exited (pid status : Z) (ex : exitinfo) : exitinfo :=
  mkexit pid
    (if WIFEXITED status then WEXITSTATUS status else exitstatus ex)
    (if WIFSIGNALED status then WTERMSIG status else -1)
    (if WIFSIGNALED status then WCOREDUMP status else exitcore ex).

(** An [execv]: the program, its arguments, environment and directory. *)
Record image := mkimage { im_path : bytes; im_argv : list bytes; im_env : environ; im_dir : bytes }.

(** What a child does: it runs a program with the given standard descriptors and controlling
    terminal, or it goes on as the server. *)
Inductive child :=
| ChildExec (stdin stdout stderr : Z) (tty : option Z) (im : image)
| ChildServes.

Class SesSys (W : Type) := {
  #[global] ss_net :: NetSys W;
  sys_pipe : W -> option (Z * Z) * W;
  (** [fork] in the parent; the child does what is said. *)
  sys_fork : outcome child -> W -> Z * W;
  (** Whether [dup2] succeeds in a child forked now. *)
  sys_dup2 : Z -> Z -> W -> bool;
  (** All results of [waitpid] with WNOHANG: pids and statuses. *)
  sys_waitpids : W -> list (Z * Z) * W;
  sys_kill : Z -> Z -> W -> bool * W;
  (** [openpty]: the master and the slave. *)
  sys_openpty : W -> option (Z * Z) * W;
  sys_ttyname : Z -> W -> option bytes;
  (** TIOCSWINSZ: rows, columns and pixels. *)
  sys_winsize : Z -> Z * Z * Z * Z -> W -> W;
  sys_tcgetattr : Z -> W -> option termios;
  sys_tcsetattr : Z -> termios -> W -> W;
  sys_getpeername : Z -> W -> option sockaddr;
  sys_chdir : bytes -> W -> bool;
  sys_getuid : W -> Z;
  (** The home directory in the password file of the user the server runs as. *)
  sys_pw_dir : W -> option bytes;
}.

(** What sessions need of the session of the connection: the socket, the user, and the
    environment of the server. *)
Class SesSession (P : Type) := {
  #[global] ss_fwd :: FwdSession P;
  ss_sock_in : P -> Z;
  ss_pw_name : P -> bytes;
  ss_pw_dir : P -> bytes;
  ss_pw_shell : P -> bytes;
  ss_environ : P -> environ;
}.

(** ** Strings *)

Definition quote : string := String (Ascii.ascii_of_nat 34) EmptyString.

(** [basename] of POSIX. *)
Definition basename (path : bytes) : bytes :=
  let slash b := b =? 47 in
  match path with
  | [] => str "."
  | _ =>
      match snd (span slash (rev path)) with
      | [] => str "/"
      | l => rev (fst (span (fun b => negb (slash b)) l))
      end
  end.

(** [snprintf] into [len] bytes. *)
Definition snprintf (len : Z) (s : bytes) : bytes := take (Z.to_nat (len - 1)) s.

Definition expand_homedir_path_home (inpath : bytes) (homedir : option bytes) : bytes :=
  match homedir with
  | Some homedir =>
      if strncmp_eq inpath (str "~/") 2 then
        snprintf (zlen inpath - 2 + zlen homedir + 2) (homedir ++ str "/" ++ drop 2 inpath)
      else inpath
  | None => inpath
  end.

(** [addnewvar]: [putenv] of the two joined. *)
Definition addnewvar (param var : bytes) (env : environ) : environ := <[param := cstr var]> env.

Definition addoptvar (param : bytes) (var : option bytes) (env : environ) : environ :=
  match var with Some v => addnewvar param v env | None => env end.

Section sessions.
Context {P W : Type} {SS : SesSession P} {KS : SesSys W}.
(** The configuration, the options, and whether children keep the environment (-e). *)
Context (cf : sshd4a) (opts : fwd_opts) (pass_on_env : bool).

Abbreviation chs := (chses (P := P) (W := W)).

(** [getenv("HOME")], or the directory of the user. *)
Definition expand_homedir_path (inpath : bytes) (p : P) (w : W) : bytes :=
  let homedir := match ss_environ p !! str "HOME" with Some h => Some h | None => sys_pw_dir w end in
  expand_homedir_path_home inpath homedir.

(** [get_user_shell] *)
Definition get_user_shell (p : P) : bytes := match ss_pw_shell p with [] => str "/bin/sh" | sh => sh end.

(** [get_socket_address]: the local and the remote host and port. *)
Definition get_socket_address (fd : Z) (w : W) : outcome (bytes * bytes * bytes * bytes) :=
  match sys_getsockname fd w with
  | None => Exit "Failed socket address: %s"
  | Some addr =>
      let* (local_host, local_port) := getaddrstring addr in
      match sys_getpeername fd w with
      | None => Exit "Failed socket address: %s"
      | Some addr =>
          let* (remote_host, remote_port) := getaddrstring addr in
          Ok (local_host, local_port, remote_host, remote_port)
      end
  end.

(** ** The data of a session *)

(** Following [channel->typedata]. *)
Definition chansess_of (i : nat) (s : chs) : outcome ChanSess :=
  let* c := chan i s in match ctypedata c with Some cs => Ok cs | None => Undef end.

Definition put_chansess (i : nat) (cs : ChanSess) (s : chs) : outcome chs :=
  let* c := chan i s in Ok (put_chan i (with_ctypedata (Some cs) c) s).

Definition newchansess (i : nat) (s : chs) : outcome (Z * chs) :=
  let* c := chan i s in
  let* _ := oassert (match ctypedata c with None => true | Some _ => false end) in
  let cs := mkchansess None 0 None (-1) (-1) None None (mkexit (-1) 0 0 0) None None in
  Ok (0, put_chan i (with_prio DROPBEAR_PRIO_LOWDELAY (with_ctypedata (Some cs) c)) s).

Definition sesscheckclose (c : Channel) : outcome (Channel * bool) :=
  match ctypedata c with
  | None => Undef
  | Some cs =>
      let gone := negb (exitpid (ses_exit cs) =? -1) in
      Ok (if gone then with_flushing true c else c, (pid cs =? 0) || gone)
  end.

(** The entries of the session in [childpids] are given up; each has a process. *)
Definition cleanupchansess (c : Channel) (l : list ChildPid) : outcome (list ChildPid) :=
  match ctypedata c with
  | None => Ok l
  | Some _ =>
      let mine e := bool_decide (child_chansess e = Some (index c)) in
      let* _ := oassert (forallb (fun e => negb (mine e) || (0 <? child_pid e)) l) in
      Ok (forget_child (index c) l)
  end.

(** ** Exits *)

Definition send_msg_chansess_exitstatus (c : Channel) (cs : ChanSess) (p : P) : outcome P :=
  let* _ := oassert (negb (exitpid (ses_exit cs) =? -1)) in
  let* _ := oassert (exitsignal (ses_exit cs) =? -1) in
  let* p := start_send_channel_request c (str "exit-status") p in
  let* p := pw (fun b => buf_putbyte b 0) p in
  let* p := pw (fun b => buf_putint b (exitstatus (ses_exit cs))) p in
  ses_encrypt_packet p.

Definition signame_of (signal : Z) : option bytes := snd <$> (snd <$> list_find (fun x => fst x = signal) signames).

Definition send_msg_chansess_exitsignal (c : Channel) (cs : ChanSess) (p : P) : outcome P :=
  let* _ := oassert (negb (exitpid (ses_exit cs) =? -1)) in
  let* _ := oassert (0 <? exitsignal (ses_exit cs)) in
  match signame_of (exitsignal (ses_exit cs)) with
  | None => Ok p
  | Some signame =>
      let* p := start_send_channel_request c (str "exit-signal") p in
      let* p := pw (fun b => buf_putbyte b 0) p in
      let* p := pw (fun b => buf_putstring b signame (zlen signame)) p in
      let* p := pw (fun b => buf_putbyte b (exitcore (ses_exit cs))) p in
      let* p := pw (fun b => buf_putstring b [] 0) p in
      let* p := pw (fun b => buf_putstring b [] 0) p in
      ses_encrypt_packet p
  end.

Definition send_exitsignalstatus (c : Channel) (cs : ChanSess) (p : P) : outcome P :=
  if 0 <=? exitpid (ses_exit cs) then
    if 0 <? exitsignal (ses_exit cs) then send_msg_chansess_exitsignal c cs p else send_msg_chansess_exitstatus c cs p
  else Ok p.

Definition closechansess (c : Channel) (p : P) : outcome P :=
  match ctypedata c with None => Ok p | Some cs => send_exitsignalstatus c cs p end.

(** The first entry of [childpids] for a process. *)
Definition find_child (pid : Z) (l : list ChildPid) : option ChildPid := snd <$> list_find (fun e => child_pid e = pid) l.

Definition set_session_exit (e : ChildPid) (f : exitinfo -> exitinfo) (s : chs) : outcome chs :=
  match child_chansess e with
  | None => Undef
  | Some i => let* cs := chansess_of i s in put_chansess i (with_ses_exit (f (ses_exit cs)) cs) s
  end.

Fixpoint checksignal_loop (l : list (Z * Z)) (s : chs) : outcome chs :=
  match l with
  | [] => Ok s
  | (pid, status) :: l =>
      let* s := match find_child pid (childpids s) with
                | Some e => set_session_exit e (exited pid status) s
                | None => Ok (with_lastexit (exited pid status (lastexit s)) s)
                end in
      checksignal_loop l s
  end.

Definition svr_chansess_checksignal (channel_signal_pending : bool) (s : chs) : outcome chs :=
  if negb channel_signal_pending then Ok s
  else let '(l, w) := sys_waitpids (world s) in checksignal_loop l (with_world w s).

(** The first free entry, or one more. *)
Definition addchildpid (i : nat) (pid : Z) (s : chs) : chs :=
  let e := mkchild pid (Some i) in
  with_childpids (match list_find (fun e => child_pid e = -1) (childpids s) with
                  | Some (j, _) => <[j := e]> (childpids s)
                  | None => childpids s ++ [e]
                  end) s.

(** ** Running a command *)

(** What the child does once its descriptors are set up. *)
Definition execchild (cs : ChanSess) (p : P) (w : W) : outcome image :=
  let lang := ss_environ p !! str "LANG" in
  let env := if pass_on_env then ss_environ p else ∅ in
  let env := addnewvar (str "USER") (ss_pw_name p) env in
  let env := addnewvar (str "LOGNAME") (ss_pw_name p) env in
  let env := addnewvar (str "HOME") (ss_pw_dir p) env in
  let env := addnewvar (str "SHELL") (get_user_shell p) env in
  let env := addnewvar PATH (if sys_getuid w =? 0 then DEFAULT_ROOT_PATH else DEFAULT_PATH) env in
  let env := addoptvar (str "LANG") lang env in
  let env := addoptvar (str "TERM") (term cs) env in
  let env := addoptvar (str "SSH_TTY") (tty cs) env in
  let env := addoptvar (str "SSH_CONNECTION") (connection_string cs) env in
  let env := addoptvar (str "SSH_CLIENT") (client_string cs) env in
  let env := addoptvar (str "SSH_ORIGINAL_COMMAND") (original_command cs) env in
  let env := addoptvar (str "SSH_PUBKEYINFO") (fs_pubkey_options p ≫= info_env) env in
  let* dir := if sys_chdir (ss_pw_dir p) w then Ok (ss_pw_dir p)
              else if sys_chdir (str "/") w then Ok (str "/")
              else Exit (String.append "chdir(" (String.append quote (String.append "/" (String.append quote ") failed")))) in
  let usershell := get_user_shell p in
  let* run := run_shell_command cf (cstr <$> cmd cs) usershell (basename usershell) in
  match run with
  | None => Exit "Child failed"
  | Some (path, argv) => Ok (mkimage path argv (sshd4a_append_lib_to_path cf (sshd4a_set_env cf env)) dir)
  end.

(** [spawn_command]: the write, read and error descriptors and the pid. *)
Definition spawn_command (exec_fn : W -> outcome image) (w : W) : option (Z * Z * Z * Z) * W :=
  match sys_pipe w with
  | (None, w) => (None, w)
  | (Some (in_rd, in_wr), w) =>
      match sys_pipe w with
      | (None, w) => (None, w)
      | (Some (out_rd, out_wr), w) =>
          match sys_pipe w with
          | (None, w) => (None, w)
          | (Some (err_rd, err_wr), w) =>
              let run :=
                let* _ := exit_if (negb (sys_dup2 in_rd 0 w && sys_dup2 out_wr 1 w && sys_dup2 err_wr 2 w)) "Child dup2() failure" in
                let* im := exec_fn w in
                Ok (ChildExec in_rd out_wr err_wr None im) in
              let '(pid, w) := sys_fork run w in
              if pid <? 0 then (None, w)
              else
                let w := sys_close out_wr (sys_close in_rd w) in
                let w := sys_setsockopt in_wr O_NONBLOCK (sys_setsockopt out_rd O_NONBLOCK w) in
                let w := sys_setsockopt err_rd O_NONBLOCK (sys_close err_wr w) in
                (Some (in_wr, out_rd, err_rd, pid), w)
          end
      end
  end.

(** A child that had ended before it was entered in [childpids]. *)
Definition take_lastexit (s : chs) : outcome chs :=
  if exitpid (lastexit s) =? -1 then Ok s
  else match find_child (exitpid (lastexit s)) (childpids s) with
       | None => Ok s
       | Some e =>
           let le := lastexit s in
           let* s := set_session_exit e (fun _ => le) s in
           Ok (with_lastexit (mkexit (-1) (exitstatus le) (exitsignal le) (exitcore le)) s)
       end.

Definition noptycommand (i : nat) (s : chs) : outcome (bool * chs) :=
  let* cs := chansess_of i s in
  let '(r, w) := spawn_command (execchild cs (ses s)) (world s) in
  let s := with_world w s in
  match r with
  | None => Ok (false, s)
  | Some (wfd, rfd, efd, pid) =>
      let* c := chan i s in
      let c := with_bidir_fd false (with_errfd efd (with_readfd rfd (with_writefd wfd c))) in
      let s := put_chan i (with_ctypedata (Some (with_pid pid cs)) c) s in
      let* s := take_lastexit (addchildpid i pid s) in
      Ok (true, s)
  end.

Definition ptycommand (i : nat) (s : chs) : outcome (bool * chs) :=
  let* cs := chansess_of i s in
  match tty cs with
  | Some _ =>
      if master cs =? -1 then Ok (false, s)
      else
        let w := world s in
        let run :=
          if sys_dup2 (slave cs) 0 w && sys_dup2 (slave cs) 1 w && sys_dup2 (slave cs) 2 w then
            let* im := execchild cs (ses s) w in
            Ok (ChildExec (slave cs) (slave cs) (slave cs) (Some (slave cs)) im)
          else Ok ChildServes in
        let '(pid, w) := sys_fork run w in
        let s := with_world w s in
        if pid <? 0 then Ok (false, s)
        else
          let* s := put_chansess i (with_pid pid cs) s in
          let s := addchildpid i pid s in
          let s := with_world (sys_close (slave cs) (world s)) s in
          let* c := chan i s in
          let s := put_chan i (with_bidir_fd false (with_readfd (master cs) (with_writefd (master cs) c))) s in
          Ok (true, with_world (sys_setsockopt (master cs) O_NONBLOCK (world s)) s)
  | None => Ok (false, s)
  end.

Definition make_connection_string (cs : ChanSess) (p : P) (w : W) : outcome ChanSess :=
  let* (local_ip, local_port, remote_ip, remote_port) := get_socket_address (ss_sock_in p) w in
  let sp := str " " in
  let connection := snprintf (zlen local_ip + zlen remote_ip + 20) (remote_ip ++ sp ++ remote_port ++ sp ++ local_ip ++ sp ++ local_port) in
  let client := snprintf (zlen remote_ip + 20) (remote_ip ++ sp ++ remote_port ++ sp ++ local_port) in
  Ok (with_client_string (Some client) (with_connection_string (Some connection) cs)).

(** The command of the request: it is kept when it is all right. *)
Definition request_command (issubsys : bool) (cs : ChanSess) (s : chs) : outcome (bool * ChanSess * chs) :=
  let* (ok, cmdlen, cs, s) :=
    match cmd cs with
    | Some _ => Ok (true, 0, cs, s)
    | None =>
        let* (c, cmdlen, s) := pr_string s in
        if MAX_CMD_LEN <? cmdlen then Ok (false, cmdlen, with_cmd None cs, s) else Ok (true, cmdlen, with_cmd (Some c) cs, s)
    end in
  if negb ok then Ok (false, cs, s)
  else if issubsys then
    if (cmdlen =? 4) && strncmp_eq (default [] (cmd cs)) (str "sftp") 4 then
      let* sftpserver_path := sshd4a_exe_to_lib cf (str "sftp-server") in
      Ok (true, with_cmd (Some (expand_homedir_path sftpserver_path (ses s) (world s))) cs, s)
    else Ok (false, with_cmd None cs, s)
  else Ok (true, cs, s).

(** The command of the server's options or of the key is run instead. *)
Definition take_forced_command (key : option PubKeyOptions) (cs : ChanSess) : ChanSess :=
  match forced_cmd opts with
  | Some f => with_cmd (Some f) (with_original_command (Some (default [] (cmd cs))) cs)
  | None =>
      let '(c, o) := svr_pubkey_set_forced_command key (cmd cs) (original_command cs) in
      with_cmd c (with_original_command o cs)
  end.

Definition sessioncommand (iscmd issubsys : bool) (i : nat) (s : chs) : outcome (bool * chs) :=
  let* cs := chansess_of i s in
  if negb (pid cs =? 0) then Ok (false, s)
  else
    let* (ok, cs, s) := if iscmd then request_command issubsys cs s else Ok (true, cs, s) in
    if negb ok then let* s := put_chansess i cs s in Ok (false, s)
    else
      let* cs := make_connection_string (take_forced_command (fs_pubkey_options (ses s)) cs) (ses s) (world s) in
      let* s := put_chansess i cs s in
      let* (ret, s) :=
        match term cs with
        | None =>
            let* (ret, s) := noptycommand i s in
            if ret then let* c := chan i s in Ok (true, update_channel_prio (put_chan i (with_prio DROPBEAR_PRIO_NORMAL c) s))
            else Ok (false, s)
        | Some _ => ptycommand i s
        end in
      let* cs := chansess_of i s in
      let cs := with_client_string None (with_connection_string None cs) in
      let* s := put_chansess i (if ret then cs else with_cmd None cs) s in
      Ok (ret, s).

(** ** The other requests *)

(** A request for a signal; without privileges dropped for several users it would be refused. *)
Definition sessionsignal (i : nat) (s : chs) : outcome (bool * chs) :=
  let* cs := chansess_of i s in
  if pid cs =? 0 then Ok (false, s)
  else if has_forced_command opts (ses s) then Ok (false, s)
  else
    let* (signame, _, s) := pr_string s in
    match list_find (fun x => snd x = cstr signame) signames with
    | None => Ok (false, s)
    | Some (_, (sig, _)) => let '(ok, w) := sys_kill (pid cs) sig (world s) in Ok (ok, with_world w s)
    end.

Definition pty_change_window_size (ptyfd row col xpixel ypixel : Z) (w : W) : W :=
  sys_winsize ptyfd (u16 row, u16 col, u16 xpixel, u16 ypixel) w.

Definition sessionwinchange (i : nat) (s : chs) : outcome (bool * chs) :=
  let* cs := chansess_of i s in
  if master cs <? 0 then Ok (false, s)
  else
    let* (termc, s) := pr buf_getint s in
    let* (termr, s) := pr buf_getint s in
    let* (termw, s) := pr buf_getint s in
    let* (termh, s) := pr buf_getint s in
    Ok (true, with_world (pty_change_window_size (master cs) termr termc termw termh (world s)) s).

Definition get_termmodes (cs : ChanSess) (s : chs) : outcome chs :=
  match sys_tcgetattr (master cs) (world s) with
  | None => Ok s
  | Some termio =>
      let* (len, s) := pr buf_getint s in
      let* (rest, s) := pr (fun b => Ok (u32 (buf_len b - buf_pos b), b)) s in
      let* _ := exit_if (negb (len =? rest)) "Bad term mode string" in
      if len =? 0 then Ok s
      else
        let* (termio, s) := pr (termmodes_loop (S (Z.to_nat len)) termio) s in
        Ok (with_world (sys_tcsetattr (master cs) termio (world s)) s)
  end.

(** [pty_allocate] with [openpty], into a buffer of 64 bytes. *)
Definition pty_allocate (w : W) : outcome (option (Z * Z * bytes) * W) :=
  match sys_openpty w with
  | (None, w) => Ok (None, w)
  | (Some (ptyfd, ttyfd), w) =>
      match sys_ttyname ttyfd w with
      | None => Exit "ttyname fails for openpty device"
      | Some name => Ok (Some (ptyfd, ttyfd, snprintf 64 (cstr name)), w)
      end
  end.

Definition sessionpty (i : nat) (s : chs) : outcome (bool * chs) :=
  if negb (svr_pubkey_allows_pty (fs_pubkey_options (ses s))) then Ok (false, s)
  else
    let* cs := chansess_of i s in
    let* (t, termlen, s) := pr_string s in
    let cs := with_term (Some t) cs in
    let* s := put_chansess i cs s in
    if MAX_TERM_LEN <? termlen then Ok (false, s)
    else
      let* _ := exit_if (negb (master cs =? -1)) "Multiple pty requests" in
      let* (r, w) := pty_allocate (world s) in
      let s := with_world w s in
      match r with
      | None => Ok (false, s)
      | Some (m, sl, namebuf) =>
          let cs := with_tty (Some namebuf) (with_slave sl (with_master m cs)) in
          let* s := put_chansess i cs s in
          let* (_, s) := sessionwinchange i s in
          let* s := get_termmodes cs s in
          Ok (true, s)
      end.

Definition session_request (type : bytes) (i : nat) (s : chs) : outcome (bool * chs) :=
  if strcmp_eq type (str "window-change") then sessionwinchange i s
  else if strcmp_eq type (str "shell") then sessioncommand false false i s
  else if strcmp_eq type (str "pty-req") then sessionpty i s
  else if strcmp_eq type (str "exec") then sessioncommand true false i s
  else if strcmp_eq type (str "subsystem") then sessioncommand true true i s
  else if strcmp_eq type (str "signal") then sessionsignal i s
  else Ok (false, s).

Definition chansessionrequest (i : nat) (s : chs) : outcome chs :=
  let* (type, typelen, s) := pr_string s in
  let* (wantreply, s) := pr buf_getbool s in
  let* (ret, s) :=
    if MAX_NAME_LEN <? typelen then Ok (false, s)
    else
      let* c := chan i s in
      let* _ := oassert (match ctypedata c with Some _ => true | None => false end) in
      session_request type i s in
  if negb (wantreply =? 0) then
    let* c := chan i s in
    on_ses (if ret then send_msg_channel_success c else send_msg_channel_failure c) s
  else Ok s.

(** The type [svrchansess]. *)
Definition chansess_types : ChanTypes (P := P) (W := W) := {|
  ct_names := [(svrchansess, str "session")];
  ct_name _ := str "session";
  ct_inithandler _ := Some newchansess;
  ct_check_close _ := Some sesscheckclose;
  ct_reqhandler _ := Some chansessionrequest;
  ct_closehandler _ := Some closechansess;
  ct_cleanup _ := Some cleanupchansess;
|}.
End sessions.
