(* ===== verification/NetioSafety.v ===== *)
(** * Sockets: laws of the kernel, addresses listened on and connected to

    The class [NetLaws] states what the server relies on of the socket calls, with a record of
    the addresses that were bound, connected to and resolved. *)

From S2P Require Import Prelude Bytes CString Buffer Packet Channel Netio.

Definition sin_port (a : sockaddr) : Z := match a with SaInet _ p => p | SaInet6 _ p => p | SaUnix _ => 0 end.
Definition is_internet (a : sockaddr) : Prop := match a with SaUnix _ => False | _ => True end.

(** 127.0.0.1 and ::1. *)
Definition is_loopback (a : sockaddr) : Prop :=
  match a with
  | SaInet h _ => h = [127; 0; 0; 1]
  | SaInet6 h _ => h = replicate 15 0 ++ [1]
  | SaUnix _ => False
  end.

(** What has been bound, connected to and resolved: host, port and AI_PASSIVE, and the addresses. *)
Record netlog := mknetlog {
  bound : list sockaddr;
  connected : list sockaddr;
  resolved : list (option bytes * bytes * bool * list sockaddr);
}.

Definition log_bind (a : sockaddr) (l : netlog) : netlog := mknetlog (bound l ++ [a]) (connected l) (resolved l).
Definition log_connect (a : sockaddr) (l : netlog) : netlog := mknetlog (bound l) (connected l ++ [a]) (resolved l).
Definition log_resolve (q : option bytes * bytes * bool) (r : list sockaddr) (l : netlog) : netlog :=
  mknetlog (bound l) (connected l) (resolved l ++ [(q, r)]).

Definition text_short (l : bytes) : Prop := bytes_ok l /\ zlen l <= 1024.

Class NetLaws (W : Type) {NW : NetSys W} := {
  net_log : W -> netlog;
  nl_read fd n w : net_log (snd (sys_read fd n w)) = net_log w;
  nl_writev fd bs w : net_log (snd (sys_writev fd bs w)) = net_log w;
  nl_close fd w : net_log (sys_close fd w) = net_log w;
  nl_shutdown fd how w : net_log (sys_shutdown fd how w) = net_log w;
  nl_sock_priority pr w : net_log (sys_set_sock_priority pr w) = net_log w;
  nl_socket fam w : net_log (snd (sys_socket fam w)) = net_log w;
  nl_setsockopt fd o w : net_log (sys_setsockopt fd o w) = net_log w;
  nl_listen fd n w : net_log (snd (sys_listen fd n w)) = net_log w;
  nl_accept fd w : net_log (snd (sys_accept fd w)) = net_log w;
  nl_unlink p w : net_log (sys_unlink p w) = net_log w;
  nl_umask m w : net_log (snd (sys_umask m w)) = net_log w;
  nl_bind fd a w : net_log (snd (sys_bind fd a w)) = log_bind a (net_log w);
  nl_connect fd a w : net_log (snd (sys_connect fd a w)) = log_connect a (net_log w);
  nl_getaddrinfo h p b w : net_log (snd (sys_getaddrinfo h p b w)) =
    match fst (sys_getaddrinfo h p b w) with inl _ => net_log w | inr l => log_resolve (h, p, b) l (net_log w) end;
  (** The addresses have the port asked for; without a host and without AI_PASSIVE they are
      those of the loopback interface. *)
  nl_addresses h p b w l w' : sys_getaddrinfo h p b w = (inr l, w') ->
    Forall (fun a => is_internet a /\ sin_port a = atol p /\ (h = None -> b = false -> is_loopback a)) l;
  nl_gai_text h p b w e w' : sys_getaddrinfo h p b w = (inl e, w') -> text_short e /\ zlen e <= 900;
  nl_socket_fd fam w : -1 <= fst (sys_socket fam w);
  (** Binding to port 0 gives a port of the kernel's choice, none of those reserved. *)
  nl_bound fd a w w1 n ok w2 b : sys_bind fd a w = (true, w1) -> sys_listen fd n w1 = (ok, w2) -> is_internet a ->
    sys_getsockname fd w2 = Some b ->
    is_internet b /\ (sin_port a <> 0 -> sin_port b = sin_port a) /\ (sin_port a = 0 -> 1024 <= sin_port b <= 65535);
  nl_numeric a : is_internet a -> exists h s, sys_getnameinfo a = Some (h, s) /\ atol s = sin_port a;
  nl_numeric_text a h s : sys_getnameinfo a = Some (h, s) -> text_short h;
  nl_connect_text fd a w e w' : sys_connect fd a w = (Some (EOther e), w') -> text_short e;
  nl_error_text fd w e : sys_so_error fd w = Some (Some e) -> text_short e;
  nl_accept_fd fd w nfd a w' : sys_accept fd w = (Some (nfd, a), w') -> 0 <= nfd;
}.

(** ** Numbers as text *)

Lemma decimal_snoc l d : decimal (l ++ [48 + d]) = decimal l * 10 + d.
Proof. unfold decimal. rewrite fold_left_app. cbn. lia. Qed.

Lemma digits_ok fuel : forall n, 0 <= n -> Forall (fun b => 48 <= b <= 57) (digits fuel n).
Proof.
  induction fuel as [|fuel IH]; intros n Hn; cbn; [constructor|]. apply Forall_app. split.
  - destruct (n <? 10); [constructor|]. apply IH. lia.
  - constructor; [lia|constructor].
Qed.

Lemma digits_decimal fuel : forall n, 0 <= n < 10 ^ Z.of_nat fuel -> decimal (digits fuel n) = n.
Proof.
  induction fuel as [|fuel IH]; intros n Hn; [change (10 ^ Z.of_nat 0) with 1 in Hn; change (0 = n); lia|]. cbn [digits]. rewrite decimal_snoc.
  destruct (Z.ltb_spec n 10); [cbn; lia|]. rewrite IH; [lia|]. rewrite Nat2Z.inj_succ, Z.pow_succ_r in Hn by lia. lia.
Qed.

Lemma digits_head fuel n : 0 <= n -> exists b l, digits (S fuel) n = b :: l.
Proof.
  intros Hn. cbn. destruct (if n <? 10 then [] else digits fuel (n / 10)) as [|b l]; [by eexists _, _|]. cbn. by eexists _, _.
Qed.

Lemma cstr_digits fuel n : 0 <= n -> cstr (digits fuel n) = digits fuel n.
Proof.
  intros Hn. pose proof (digits_ok fuel n Hn) as H. induction H as [|x xs Hx _ IH]; [done|]. cbn. rewrite IH.
  by rewrite (proj2 (Z.eqb_neq x 0)) by lia.
Qed.

Lemma span_digits fuel n : 0 <= n -> span isdigit (digits fuel n) = (digits fuel n, []).
Proof. intros Hn. apply span_all. eapply Forall_impl; [by apply digits_ok|]. intros x Hx. cbv beta in *. unfold isdigit. lia. Qed.

Lemma atol_digits fuel n : 0 <= n < 10 ^ Z.of_nat (S fuel) -> atol (digits (S fuel) n) = n.
Proof.
  intros Hn. unfold atol. pose proof (digits_ok (S fuel) n ltac:(lia)) as Hd. pose proof (digits_decimal (S fuel) n Hn) as Hv.
  pose proof (span_digits (S fuel) n ltac:(lia)) as Hs. rewrite cstr_digits by lia.
  destruct (digits_head fuel n ltac:(lia)) as (b & l & E). rewrite E in *. pose proof (Forall_inv Hd : 48 <= b <= 57) as Hb.
  cbn [span]. unfold isspace. replace ((b =? 32) || ((9 <=? b) && (b <=? 13))) with false by lia. cbn [snd].
  assert (Hm : decimal (fst (span isdigit (b :: l))) = n) by by rewrite Hs. clear -Hm Hb.
  destruct b as [|p|p]; [done| |lia]. do 7 (destruct p as [p|p|]; try exact Hm; try lia).
Qed.

Lemma atol_utoa n : 0 <= n < 4294967296 -> atol (utoa n) = n.
Proof. intros Hn. apply atol_digits. lia. Qed.

(** ** Listening *)

Section net.
Context {W : Type} {NW : NetSys W} {NL : NetLaws W}.

Lemma net_log_m_close fd w : net_log (m_close fd w) = net_log w.
Proof. unfold m_close. destruct (fd <? 0); [done|apply nl_close]. Qed.

Lemma net_log_options i fam fd w : net_log (listen_options i fam fd w) = net_log w.
Proof.
  unfold listen_options. rewrite nl_setsockopt. destruct (bool_decide _), i; by rewrite ?nl_setsockopt.
Qed.

Definition log_binds (l : list sockaddr) (lg : netlog) : netlog := mknetlog (bound lg ++ l) (connected lg) (resolved lg).

Lemma log_binds_nil lg : log_binds [] lg = lg.
Proof. unfold log_binds. rewrite app_nil_r. by destruct lg. Qed.

Lemma log_binds_cons a l lg : log_binds l (log_bind a lg) = log_binds (a :: l) lg.
Proof. unfold log_binds, log_bind. cbn. by rewrite <- app_assoc. Qed.

(** The port of a socket listening on port [r]: that, or one of the kernel's choice. *)
Definition port_given (r p : Z) : Prop := (r <> 0 /\ p = r) \/ (r = 0 /\ 1024 <= p <= 65535).

(** An address that is bound to listen on port [r] of the addresses [res]. *)
Definition may_bind (r : Z) (res : list sockaddr) (a : sockaddr) : Prop :=
  exists a0, a0 ∈ res /\ a = set_sin_port (sin_port a) a0 /\ (sin_port a = r \/ port_given r (sin_port a)).

Lemma may_bind_cons r a0 res a : may_bind r res a -> may_bind r (a0 :: res) a.
Proof. intros (a1 & H & ?). exists a1. split; [by apply list_elem_of_further|done]. Qed.

Lemma get_sock_port_safe fd w : safe (fun _ => True) (get_sock_port fd w).
Proof.
  unfold get_sock_port. destruct (sys_getsockname fd w) as [a|]; [|done].
  destruct a as [h p|h p|p]; [| |done].
  - destruct (nl_numeric (SaInet h p) I) as (h1 & s & -> & _). done.
  - destruct (nl_numeric (SaInet6 h p) I) as (h1 & s & -> & _). done.
Qed.

Lemma get_sock_port_bound fd a w w1 n ok w2 : is_internet a -> sys_bind fd a w = (true, w1) -> sys_listen fd n w1 = (ok, w2) ->
  safe (fun p => p = 0 \/ port_given (sin_port a) p) (get_sock_port fd w2).
Proof.
  intros Ha Hb Hl. unfold get_sock_port. destruct (sys_getsockname fd w2) as [b|] eqn:E; [|by left].
  destruct (nl_bound _ _ _ _ _ _ _ _ Hb Hl Ha E) as (Hi & H1 & H2).
  destruct (nl_numeric b Hi) as (h & s & Hn & Hs). destruct b; [..|done]; rewrite Hn; cbn [safe]; rewrite Hs; right;
    unfold port_given; destruct (decide (sin_port a = 0)); auto.
Qed.

Lemma set_sin_port_id a : is_internet a -> set_sin_port (sin_port a) a = a.
Proof. by destruct a. Qed.

Lemma sin_port_set p a : is_internet a -> is_internet (set_sin_port p a) /\ sin_port (set_sin_port p a) = p /\
  set_sin_port p a = set_sin_port (sin_port (set_sin_port p a)) a.
Proof. by destruct a. Qed.

(** What the loop has done: good sockets, and addresses bound for the request. *)
Definition listened (r : Z) (res : list sockaddr) (w : W) (x : list Z * W) : Prop :=
  Forall (fun fd => 0 <= fd) (fst x) /\ exists l, net_log (snd x) = log_binds l (net_log w) /\ Forall (may_bind r res) l.

Lemma listened_next r a res w w1 x : listened r res w1 x -> net_log w1 = net_log w -> listened r (a :: res) w x.
Proof.
  intros (Hf & l & Hl & Hm) Hw. split; [done|]. exists l. rewrite <- Hw. split; [done|].
  eapply Forall_impl; [exact Hm|]. intros ?. apply may_bind_cons.
Qed.

Lemma listened_bound r a0 a res w w1 x : listened r res w1 x -> net_log w1 = log_bind a (net_log w) ->
  may_bind r (a0 :: res) a -> listened r (a0 :: res) w x.
Proof.
  intros (Hf & l & Hl & Hm) Hw Ha. split; [done|]. exists (a :: l). rewrite Hl, Hw, log_binds_cons. split; [done|].
  constructor; [done|]. eapply Forall_impl; [exact Hm|]. intros ?. apply may_bind_cons.
Qed.

Lemma listen_loop_ok n i r res : 0 <= r -> forall socks lport w,
  Forall (fun a => is_internet a /\ sin_port a = r) res -> (lport = 0 \/ port_given r lport) -> Forall (fun fd => 0 <= fd) socks ->
  safe (listened r res w) (listen_loop res n i socks lport w).
Proof.
  intros Hr. induction res as [|a res IH]; intros socks lport w Hres Hp Hs; cbn [listen_loop].
  { split; [done|]. exists []. by rewrite log_binds_nil. }
  destruct (n <=? length socks)%nat; [split; [done|exists []; by rewrite log_binds_nil]|].
  inversion_clear Hres as [|? ? [Hi Hpa] Hres']. set (a' := if 0 <? lport then _ else _).
  assert (Ha' : is_internet a' /\ (lport = 0 -> sin_port a' = r) /\ may_bind r (a :: res) a').
  { subst a'. destruct (Z.ltb_spec 0 lport).
    - destruct (sin_port_set lport a Hi) as (H1 & H2 & H3). split; [done|]. split; [lia|]. exists a. split; [apply list_elem_of_here|].
      split; [done|]. right. rewrite H2. destruct Hp as [->|]; [lia|done].
    - split; [done|]. split; [done|]. exists a. split; [apply list_elem_of_here|]. rewrite set_sin_port_id by done. auto. }
  clearbody a'. destruct Ha' as (Hi' & Hp' & Hm). destruct (sys_socket (ai_family a') w) as [sock w1] eqn:E1.
  pose proof (nl_socket (ai_family a') w) as L1. rewrite E1 in L1. cbn [snd] in L1.
  destruct (Z.ltb_spec sock 0) as [_|Hsock]; [eapply safe_mono; [by apply IH|]; intros y Hx; by eapply listened_next|].
  set (w2 := listen_options i (ai_family a') sock w1). assert (L2 : net_log w2 = net_log w) by (subst w2; by rewrite net_log_options).
  destruct (sys_bind sock a' w2) as [b w3] eqn:E3. pose proof (nl_bind sock a' w2) as L3. rewrite E3, L2 in L3. cbn [snd] in L3.
  destruct b; cbn [negb]; [|eapply safe_mono; [by apply IH|]; intros y Hx; eapply listened_bound; [exact Hx|by rewrite nl_close|done]].
  destruct (sys_listen sock DROPBEAR_LISTEN_BACKLOG w3) as [ok w4] eqn:E4.
  pose proof (nl_listen sock DROPBEAR_LISTEN_BACKLOG w3) as L4. rewrite E4, L3 in L4. cbn [snd] in L4.
  destruct ok; cbn [negb]; [|eapply safe_mono; [by apply IH|]; intros y Hx; eapply listened_bound; [exact Hx|by rewrite nl_close|done]].
  eapply (safe_bind (fun p => p = 0 \/ port_given r p)).
  { destruct (Z.eqb_spec lport 0) as [Hz|]; [|destruct Hp; [done|by right]].
    rewrite <- (Hp' Hz). by eapply get_sock_port_bound. }
  intros p _ Hpp. eapply safe_mono; [apply IH; [done|done|]|]; [apply Forall_app; by repeat constructor|].
  intros y Hx. eapply listened_bound; [exact Hx|exact L4|done].
Qed.
(** The record after a listen: what may have been bound, and nothing connected to. *)
Definition listen_log (P : sockaddr -> Prop) (lg lg' : netlog) : Prop :=
  (exists l, bound lg' = bound lg ++ l /\ Forall P l) /\ connected lg' = connected lg /\ resolved lg `prefix_of` resolved lg'.

Lemma may_bind_internet r res a : Forall (fun a => is_internet a) res -> may_bind r res a -> is_internet a.
Proof.
  intros Hres (a0 & Ha & -> & _). rewrite Forall_forall in Hres. by apply sin_port_set, Hres.
Qed.

Lemma dropbear_listen_ok address port n i w : 0 <= atol port ->
  safe (fun '(o, w') => match o with Some socks => socks <> [] /\ Forall (fun fd => 0 <= fd) socks | None => True end /\
      listen_log (fun a => is_internet a /\ (sin_port a = atol port \/ port_given (atol port) (sin_port a)) /\ (address = None -> is_loopback a))
        (net_log w) (net_log w'))
    (dropbear_listen address port n i w).
Proof.
  intros Hr. unfold dropbear_listen. set (node := match address with Some _ => _ | None => _ end). set (passive := match address with None => _ | _ => _ end).
  pose proof (nl_getaddrinfo node port passive w) as HL. destruct (sys_getaddrinfo node port passive w) as [res w1] eqn:E. cbn [fst snd] in HL.
  destruct res as [e|res].
  { split; [done|]. rewrite HL. split; [|done]. exists []. by rewrite app_nil_r. }
  pose proof (nl_addresses _ _ _ _ _ _ E) as Ha. eapply safe_bind.
  { apply (listen_loop_ok n i (atol port) res Hr); [|by left|constructor]. eapply Forall_impl; [exact Ha|]. by intros a (? & ? & _). }
  intros [socks w2] _ [Hs (l & Hl & Hm)]. cbn [safe fst snd] in *. split; [destruct socks; [done|by split]|].
  rewrite Hl, HL. split; [|split; [done|by eexists]]. exists l. split; [done|]. eapply Forall_impl; [exact Hm|].
  intros a (a0 & Hin & Heq & Hp). rewrite Forall_forall in Ha. destruct (Ha a0 Hin) as (Hi & _ & Hlo). rewrite Heq.
  destruct (sin_port_set (sin_port a) a0 Hi) as (H1 & H2 & _). rewrite H2. split; [done|]. split; [done|].
  intros ->. specialize (Hlo eq_refl eq_refl). by destruct a0.
Qed.

(** ** Connecting *)

Definition log_connects (l : list sockaddr) (lg : netlog) : netlog := mknetlog (bound lg) (connected lg ++ l) (resolved lg).

Lemma log_connects_nil lg : log_connects [] lg = lg.
Proof. unfold log_connects. rewrite app_nil_r. by destruct lg. Qed.

Lemma log_connects_cons a l lg : log_connects l (log_connect a lg) = log_connects (a :: l) lg.
Proof. unfold log_connects, log_connect. cbn. by rewrite <- app_assoc. Qed.

(** A connection that is a later state of another. *)
Definition same_conn (c c' : progress_connection) : Prop :=
  remotehost c' = remotehost c /\ remoteport c' = remoteport c /\ cprio c' = cprio c.

Definition err_short (c : progress_connection) : Prop := match errstring c with Some e => text_short e | None => True end.

(** The addresses [l] have been gone through: [a] was the first one that did not refuse and
    those behind it are kept, or all have. *)
Inductive gone_through (l : list sockaddr) (c : progress_connection) (w : W) : progress_connection -> W -> Prop :=
| gone_taken c' w' l1 a l2 tried : same_conn c c' -> (err_short c -> err_short c') -> l = l1 ++ a :: l2 -> res_iter c' = l2 -> 0 <= csock c' ->
    tried `sublist_of` l1 -> net_log w' = log_connects (tried ++ [a]) (net_log w) -> gone_through l c w c' w'
| gone_refused c' w' tried : same_conn c c' -> (err_short c -> err_short c') -> res_iter c' = [] -> csock c' = -1 ->
    tried `sublist_of` l -> net_log w' = log_connects tried (net_log w) -> gone_through l c w c' w'.

Lemma gone_skip r l c w c1 w1 c' w' : gone_through l c1 w1 c' w' -> same_conn c c1 -> (err_short c -> err_short c1) -> net_log w1 = net_log w ->
  gone_through (r :: l) c w c' w'.
Proof.
  intros [c2 w2 l1 a l2 tried (H1 & H2 & H3) He -> Hl Hs Ht Hn|c2 w2 tried (H1 & H2 & H3) He Hl Hs Ht Hn] (H4 & H5 & H6) He1 Hw.
  - apply (gone_taken _ _ _ _ _ (r :: l1) a l2 tried); try done; [split_and!; congruence|by auto|by apply sublist_cons|by rewrite Hn, Hw].
  - apply (gone_refused _ _ _ _ _ tried); try done; [split_and!; congruence|by auto|by apply sublist_cons|by rewrite Hn, Hw].
Qed.

Lemma gone_next r l c w c1 w1 c' w' : gone_through l c1 w1 c' w' -> same_conn c c1 -> (err_short c -> err_short c1) -> net_log w1 = log_connect r (net_log w) ->
  gone_through (r :: l) c w c' w'.
Proof.
  intros [c2 w2 l1 a l2 tried (H1 & H2 & H3) He -> Hl Hs Ht Hn|c2 w2 tried (H1 & H2 & H3) He Hl Hs Ht Hn] (H4 & H5 & H6) He1 Hw.
  - apply (gone_taken _ _ _ _ _ (r :: l1) a l2 (r :: tried)); try done; [split_and!; congruence|by auto|by apply sublist_skip|].
    by rewrite Hn, Hw, log_connects_cons.
  - apply (gone_refused _ _ _ _ _ (r :: tried)); try done; [split_and!; congruence|by auto|by apply sublist_skip|].
    by rewrite Hn, Hw, log_connects_cons.
Qed.

Lemma errno_short e : (forall t, e = EOther t -> text_short t) -> text_short (errno_text e).
Proof. destruct e; intros H; [by split; [apply bytes_check|]..|by apply H]. Qed.

Lemma try_addrs_ok l : forall c w, csock c = -1 -> exists c' w', try_addrs l c w = Ok (c', w') /\ gone_through l c w c' w'.
Proof.
  induction l as [|r l IH]; intros c w Hc; cbn [try_addrs].
  { eexists _, _. split; [done|]. apply (gone_refused _ _ _ _ _ []); [done..|by rewrite log_connects_nil]. }
  rewrite Hc. cbn [Z.eqb Pos.eqb oassert obind]. destruct (sys_socket (ai_family r) w) as [sock w1] eqn:E1.
  pose proof (nl_socket (ai_family r) w) as L1. pose proof (nl_socket_fd (ai_family r) w) as F1. rewrite E1 in L1, F1. cbn [fst snd] in L1, F1.
  destruct (Z.ltb_spec sock 0) as [Hneg|Hsock].
  { destruct (IH (set_csock sock c) w1) as (c' & w' & H & Hg); [cbn; lia|]. exists c', w'. split; [done|]. by eapply gone_skip. }
  set (w2 := sys_setsockopt sock O_NONBLOCK _). assert (L2 : net_log w2 = net_log w) by (subst w2; by rewrite !nl_setsockopt).
  destruct (sys_connect sock r w2) as [e w3] eqn:E3. pose proof (nl_connect sock r w2) as L3. rewrite E3, L2 in L3. cbn [snd] in L3.
  assert (Htaken : gone_through (r :: l) c w (set_res_iter l (set_csock sock c)) w3).
  { apply (gone_taken _ _ _ _ _ [] r l []); try done. }
  destruct e as [e|]; [|by eexists _, _]. destruct (retry_errno r e); [by eexists _, _|].
  destruct (IH (set_csock (-1) (set_errstring (errno_text e) (set_csock sock c))) (sys_close sock w3)) as (c' & w' & H & Hg); [done|].
  exists c', w'. split; [done|]. eapply gone_next; [exact Hg|done| |by rewrite nl_close].
  intros _. apply errno_short. intros t ->. by eapply nl_connect_text.
Qed.

(** Going through the addresses of a connection ends: with a socket that is connecting to one
    of them, those behind it kept for later, or with none left and no socket open. *)
Lemma connect_tries_ok fuel c w : (0 < fuel)%nat -> csock c = -1 ->
  exists c' w', connect_tries fuel c w = Ok (c', w') /\ gone_through (res_iter c) c w c' w'.
Proof.
  intros Hf Hc. destruct fuel as [|fuel]; [lia|]. cbn [connect_tries]. rewrite Hc. rewrite andb_true_r.
  case_bool_decide as Hr; cbn [negb].
  { eexists _, _. split; [done|]. rewrite Hr. apply (gone_refused _ _ _ _ _ []); [done..|by rewrite log_connects_nil]. }
  destruct (try_addrs_ok (res_iter c) c w Hc) as (c' & w' & Ht & Hg). unfold connect_try_next. rewrite Ht. cbn [obind].
  assert (Hstop : connect_tries fuel c' w' = Ok (c', w')).
  { destruct fuel as [|fuel]; [done|]. cbn [connect_tries]. destruct Hg as [c1 w1 l1 a l2 tried _ _ _ _ Hs|c1 w1 tried _ _ Hn _ _ _].
    - rewrite (proj2 (Z.ltb_ge _ _) Hs). by rewrite andb_false_r.
    - by rewrite Hn. }
  rewrite Hstop. by exists c', w'.
Qed.
End net.
