(* ===== verification/ChannelFrame.v ===== *)
(** * What the channels leave alone

    The handlers of Channel.v reach the session and the kernel only through their classes. A
    property of the state that survives those operations, and changes to the table of channels,
    survives every handler and the main loop. *)

From S2P Require Import Prelude Bytes CString Buffer CircBuffer Packet Channel.

Section frame.
Context {P W : Type} {SP : Session P} {SW : Sys W} {CT : ChanTypes (P := P) (W := W)}.
Context (rw : Z).
Context (RP : P -> P -> Prop) {HRP : PreOrder RP} (RW : W -> W -> Prop) {HRW : PreOrder RW}.
Context (I : chses (P := P) (W := W) -> Prop).

Implicit Types (s : chses (P := P) (W := W)) (p : P) (w : W).

Record frame_laws : Prop := {
  fl_wp b p : RP p (ses_set_writepayload b p);
  fl_pl b p : RP p (ses_set_payload b p);
  fl_encrypt p : returns (RP p) (ses_encrypt_packet p);
  fl_close_handler ty h c p : ct_closehandler ty = Some h -> returns (RP p) (h c p);
  fl_read fd n w : RW w (snd (sys_read fd n w));
  fl_writev fd bs w : RW w (snd (sys_writev fd bs w));
  fl_close fd w : RW w (sys_close fd w);
  fl_shutdown fd how w : RW w (sys_shutdown fd how w);
  fl_priority pr w : RW w (sys_set_sock_priority pr w);
  fl_ses p s : I s -> RP (ses s) p -> I (with_ses p s);
  fl_world w s : I s -> RW (world s) w -> I (with_world w s);
  fl_channels l s : I s -> I (with_channels l s);
  fl_chancount n s : I s -> I (with_chancount n s);
  fl_socket_prio x s : I s -> I (with_socket_prio x s);
  fl_childpids l s : I s -> I (with_childpids l s);
  fl_cancel k s : I s -> I (cancel_connect k s);
  fl_init ty h i s : ct_inithandler ty = Some h -> I s -> returns (fun x => I (snd x)) (h i s);
  fl_req ty h i s : ct_reqhandler ty = Some h -> I s -> returns I (h i s);
}.

Context (FL : frame_laws).

(** ** The session *)

Lemma rp_pw (f : buffer -> outcome buffer) p : returns (RP p) (pw f p).
Proof. unfold pw. destruct (f _); cbn; [apply FL|done..]. Qed.

Lemma rp_refl p : returns (RP p) (Ok p).
Proof. by cbn. Qed.

Lemma rp_bind p (m : outcome P) (k : P -> outcome P) : returns (RP p) m -> (forall q, returns (RP q) (k q)) -> returns (RP p) (obind m k).
Proof.
  intros Hm Hk. eapply returns_bind; [exact Hm|]. intros q _ Hq. eapply returns_mono; [apply Hk|]. intros r ?. by etrans.
Qed.

Ltac rp := repeat first [ apply rp_pw | apply rp_refl | apply (fl_encrypt FL) | eapply rp_bind; [|intros ?; cbv beta] ].

Lemma rp_adjust c n p : returns (RP p) (send_msg_channel_window_adjust c n p).
Proof. unfold send_msg_channel_window_adjust. rp. Qed.
Lemma rp_simple t c p : returns (RP p) (send_msg_channel_simple t c p).
Proof. unfold send_msg_channel_simple. rp. Qed.
Lemma rp_failure c p : returns (RP p) (send_msg_channel_failure c p).
Proof. unfold send_msg_channel_failure. destruct (sent_close c); [apply rp_refl|apply rp_simple]. Qed.
Lemma rp_open_failure n r t l p : returns (RP p) (send_msg_channel_open_failure n r t l p).
Proof. unfold send_msg_channel_open_failure. rp. Qed.
Lemma rp_confirmation c a b p : returns (RP p) (send_msg_channel_open_confirmation c a b p).
Proof. unfold send_msg_channel_open_confirmation. rp. Qed.
Lemma rp_request_success p : returns (RP p) (send_msg_request_success p).
Proof. unfold send_msg_request_success. rp. Qed.
Lemma rp_request_failure p : returns (RP p) (send_msg_request_failure p).
Proof. unfold send_msg_request_failure. rp. Qed.

(** ** The kernel *)

Lemma rw_m_close fd w : RW w (m_close fd w).
Proof. unfold m_close. destruct (fd <? 0); [done|apply FL]. Qed.

Lemma rw_close_chan_fd fd how c w : RW w (snd (close_chan_fd fd how c w)).
Proof.
  unfold close_chan_fd. cbn [snd]. set (w1 := if bidir_fd c then _ else _).
  assert (H1 : RW w w1) by (subst w1; destruct (bidir_fd c); [apply FL|apply rw_m_close]).
  destruct (_ && _); [|done]. etrans; [exact H1|apply rw_m_close].
Qed.

(** The state of one channel in the middle of an operation. *)
Definition kept p0 w0 {A} (x : A * P * W) : Prop := RP p0 (snd (fst x)) /\ RW w0 (snd x).

Lemma kept_start p w {A} (a : A) : kept p w (a, p, w).
Proof. by split. Qed.

Lemma kept_step p0 w0 p w {A} (m : outcome (A * P * W)) : RP p0 p -> RW w0 w -> returns (kept p w) m -> returns (kept p0 w0) m.
Proof. intros Hp Hw Hm. eapply returns_mono; [exact Hm|]. intros [[a q] v] [H1 H2]. cbn in *. split; cbn; by etrans. Qed.

Lemma kept_close c p w : returns (kept p w) (send_msg_channel_close c p w).
Proof.
  unfold send_msg_channel_close. eapply returns_bind.
  { instantiate (1 := RP p). destruct (ct_closehandler (type c)) as [h|] eqn:E; [by eapply (fl_close_handler FL)|apply rp_refl]. }
  intros p1 _ H1. eapply returns_bind; [apply rp_simple|]. intros p2 _ H2. set (c1 := with_sent_close true _).
  destruct (close_chan_fd (readfd c1) SHUT_RD c1 w) as [c2 w2] eqn:E2. destruct (close_chan_fd (errfd c2) SHUT_RDWR c2 w2) as [c3 w3] eqn:E3.
  destruct (close_chan_fd (writefd c3) SHUT_WR c3 w3) as [c4 w4] eqn:E4. split; cbn; [by etrans|].
  pose proof (rw_close_chan_fd (readfd c1) SHUT_RD c1 w) as R2. pose proof (rw_close_chan_fd (errfd c2) SHUT_RDWR c2 w2) as R3.
  pose proof (rw_close_chan_fd (writefd c3) SHUT_WR c3 w3) as R4. rewrite E2 in R2. rewrite E3 in R3. rewrite E4 in R4. cbn in *.
  etrans; [exact R2|]. by etrans.
Qed.

Lemma kept_eof c p : returns (fun x => RP p (snd x)) (send_msg_channel_eof c p).
Proof. unfold send_msg_channel_eof. eapply returns_bind; [apply rp_simple|]. by intros p1 _ ?. Qed.

Lemma kept_send_data ext c p w : returns (kept p w) (send_msg_channel_data ext c p w).
Proof.
  unfold send_msg_channel_data. eapply returns_bind; [apply returns_true|]. intros _ _ _. set (fd := if ext then _ else _).
  eapply returns_bind; [apply returns_true|]. intros _ _ _. destruct (_ =? 0); [apply kept_start|].
  eapply returns_bind; [apply rp_pw|]. intros p1 _ H1. eapply returns_bind; [apply rp_pw|]. intros p2 _ H2.
  eapply returns_bind; [instantiate (1 := RP p2); destruct ext; [apply rp_pw|apply rp_refl]|]. intros p3 _ H3.
  eapply returns_bind; [apply rp_pw|]. intros p4 _ H4. eapply returns_bind; [apply returns_true|]. intros ptr _ _.
  assert (Hp : RP p p4) by (etrans; [exact H1|]; etrans; [exact H2|]; by etrans).
  destruct (sys_read fd _ w) as [r w1] eqn:Er. pose proof (fl_read FL fd (channel_maxlen ext c (buf_size (ses_writepayload p))) w) as Hw.
  rewrite Er in Hw. cbn in Hw.
  assert (Hreset : forall (c' : Channel) w2, RW w1 w2 -> returns (kept p w) (let* q := pw reset_writepayload p4 in Ok (c', q, w2))).
  { intros c' w2 H. eapply returns_bind; [apply rp_pw|]. intros q _ Hq. split; cbn; by etrans. }
  assert (Hclose : returns (kept p w) (let '(c, w0) := close_chan_fd fd SHUT_RD c w1 in let* q := pw reset_writepayload p4 in Ok (c, q, w0))).
  { pose proof (rw_close_chan_fd fd SHUT_RD c w1) as Hc. destruct (close_chan_fd fd SHUT_RD c w1) as [c' w2]. by apply Hreset. }
  destruct r as [[|b bs]| |]; [exact Hclose| |by apply Hreset|exact Hclose].
  do 4 (eapply returns_bind; [apply rp_pw|]; intros ? _ ?). eapply returns_bind; [apply FL|]. intros p9 _ H9.
  split; cbn; [|done]. etrans; [exact Hp|]. repeat (etrans; [eassumption|]). done.
Qed.

Lemma kept_writechannel ext fd more c p w : returns (kept p w) (writechannel rw ext fd more c p w).
Proof.
  unfold writechannel. eapply (returns_bind (fun x => RW w (snd x))).
  { unfold writechannel_writev. destruct (chan_cbuf ext c) as [cbuf|]; [|done]. eapply returns_bind; [apply returns_true|]. intros circ _ _.
    destruct (_ && _); [by cbn|]. pose proof (fl_writev FL fd (circ ++ default [] more) w) as Hw.
    destruct (sys_writev fd (circ ++ default [] more) w) as [r w1]. cbn in Hw. destruct r as [n| |].
    - eapply returns_bind; [apply returns_true|]. by intros ? _ _.
    - by cbn.
    - pose proof (rw_close_chan_fd fd SHUT_WR c w1) as Hc. destruct (close_chan_fd fd SHUT_WR c w1). cbn in *. by etrans. }
  intros [[[ret n] c1] w1] _ Hw. cbn in Hw. eapply (returns_bind (fun x => RP p (snd x))).
  { unfold writechannel_window. eapply (returns_bind (fun x => RP p (snd x))).
    - destruct (_ <=? _); [|by cbn]. eapply returns_bind; [apply rp_adjust|]. by intros p1 _ ?.
    - intros [c2 p2] _ Hp. do 3 (eapply returns_bind; [apply returns_true|]; intros _ _ _). done. }
  intros [c2 p2] _ Hp. by split.
Qed.

Lemma rw_flush c w : RW w (snd (flush_fds c w)).
Proof.
  unfold flush_fds. destruct (flushing c); [|done].
  set (x := if _ && _ then close_chan_fd (readfd c) SHUT_RD c w else (c, w)). assert (Hx : RW w (snd x)).
  { subst x. destruct (_ && _); [apply rw_close_chan_fd|done]. }
  destruct x as [c1 w1]. cbn in Hx. destruct (_ && _); [|done]. etrans; [exact Hx|apply rw_close_chan_fd].
Qed.

(** ** The table *)

Lemma frame_prio s : I s -> I (update_channel_prio s).
Proof.
  intros H. unfold update_channel_prio. destruct (sock_out s <? 0); [done|]. case_bool_decide; [done|].
  apply (fl_socket_prio FL). apply (fl_world FL); [done|apply (fl_priority FL)].
Qed.

Lemma frame_put i c p w s : I s -> RP (ses s) p -> RW (world s) w -> I (put_chan i c (with_world w (with_ses p s))).
Proof. intros. apply (fl_channels FL), (fl_world FL); [by apply (fl_ses FL)|done]. Qed.

Lemma frame_chan i c s : I s -> I (put_chan i c s).
Proof. intros. by apply (fl_channels FL). Qed.

Lemma frame_remove i s : I s -> returns I (remove_channel i s).
Proof.
  intros H. unfold remove_channel. eapply returns_bind; [apply returns_true|]. intros c _ _.
  set (w := m_close (errfd c) _). assert (Hw : RW (world s) w).
  { etrans; [apply rw_m_close|]. etrans; [apply rw_m_close|]. apply rw_m_close. }
  eapply returns_bind; [apply returns_true|]. intros l _ _. cbn [returns]. apply frame_prio, (fl_chancount FL), (fl_channels FL).
  apply (fl_world FL _ _ H), (fl_childpids FL l) in Hw. destruct (conn_pending c); [by apply (fl_cancel FL)|done].
Qed.

Lemma frame_check_close i s : I s -> returns I (check_close i s).
Proof.
  intros H. unfold check_close. eapply returns_bind; [apply returns_true|]. intros c0 _ _. eapply returns_bind; [apply returns_true|]. intros [c allowed] _ _.
  pose proof (rw_flush c (world s)) as Hw. destruct (flush_fds c (world s)) as [c1 w1]. cbn in Hw. destruct (_ && _ && _).
  - eapply (returns_bind (kept (ses s) (world s))).
    + destruct (sent_close c1); [by split|]. eapply kept_step; [reflexivity|exact Hw|apply kept_close].
    + intros [[c2 p2] w2] _ [Hp2 Hw2]. cbn in *. apply frame_remove. by apply frame_put.
  - set (x := if _ || _ then close_chan_fd (writefd c1) SHUT_WR c1 w1 else (c1, w1)). assert (Hx : RW (world s) (snd x)).
    { subst x. destruct (_ || _); [|done]. etrans; [exact Hw|apply rw_close_chan_fd]. }
    destruct x as [c2 w2]. cbn in Hx. eapply (returns_bind (fun x => RP (ses s) (snd x))).
    { destruct (_ && _); [apply kept_eof|by cbn]. }
    intros [c3 p3] _ Hp. cbn in Hp. eapply (returns_bind (kept (ses s) (world s))).
    { destruct (_ && _ && _ && _ && _ && _); [|by split]. by eapply kept_step; [..|apply kept_close]. }
    intros [[c4 p4] w4] _ [Hp4 Hw4]. cbn in *. by apply frame_put.
Qed.

Lemma frame_newchannel rc ty tw tm s : I s -> returns (fun x => I (snd x)) (newchannel rw rc ty tw tm s).
Proof.
  intros H. unfold newchannel. destruct (_ && _); [done|]. eapply returns_bind; [apply returns_true|]. intros wb _ _. cbn. by apply (fl_chancount FL), (fl_channels FL).
Qed.

Lemma frame_on_ses (f : P -> outcome P) s : (forall p, returns (RP p) (f p)) -> I s -> returns I (on_ses f s).
Proof. intros Hf H. unfold on_ses. eapply returns_bind; [apply Hf|]. intros p _ ?. by apply (fl_ses FL). Qed.

Lemma frame_pr {A} (f : buffer -> outcome (A * buffer)) s : I s -> returns (fun x => I (snd x)) (pr f s).
Proof.
  intros H. unfold pr. destruct (ses_payload (ses s)); [|done]. eapply returns_bind; [apply returns_true|]. intros [a b'] _ _. cbn.
  apply (fl_ses FL); [done|apply (fl_pl FL)].
Qed.

Lemma frame_getchannel k s : I s -> returns (fun x => I (snd x)) (getchannel_msg k s).
Proof.
  intros H. unfold getchannel_msg. eapply returns_bind; [by apply frame_pr|]. intros [n s1] _ H1. destruct (_ <=? n); [done|].
  by destruct (channels s1 !! Z.to_nat n) as [[?|]|].
Qed.

(** ** The handlers *)

Ltac fr := repeat
  lazymatch goal with
  | |- returns _ (obind (writechannel _ _ _ _ _ _ _) _) => fail
  | |- returns _ (obind (match _ with Some _ => _ | None => _ end) _) => fail
  | |- returns _ (obind _ _) =>
      eapply returns_bind; [first [by apply frame_pr | by apply frame_getchannel | apply returns_true]|];
      let x := fresh "x" in intros x _ ?; cbn beta in *; osplit x; cbn [snd fst] in *
  end.

Lemma frame_eof s : I s -> returns I (recv_msg_channel_eof s).
Proof. intros H. unfold recv_msg_channel_eof. fr. by apply frame_check_close, frame_chan. Qed.

Lemma frame_recv_close s : I s -> returns I (recv_msg_channel_close s).
Proof. intros H. unfold recv_msg_channel_close. fr. by apply frame_check_close, frame_chan. Qed.

Lemma frame_request s : I s -> returns I (recv_msg_channel_request s).
Proof.
  intros H. unfold recv_msg_channel_request. unfold getchannel. fr. destruct (ct_reqhandler _) as [h|] eqn:E; [by eapply (fl_req FL)|].
  fr. destruct (negb _); [|done]. apply frame_on_ses; [apply rp_failure|done].
Qed.

Lemma frame_window s : I s -> returns I (recv_msg_channel_window_adjust s).
Proof. intros H. unfold recv_msg_channel_window_adjust, getchannel. fr. cbn. by apply frame_chan. Qed.

Lemma frame_data ext i s : I s -> returns I (common_recv_msg_channel_data rw ext i s).
Proof.
  intros H. unfold common_recv_msg_channel_data. fr. destruct (chan_cbuf ext _); [|done]. destruct (_ <? 0); [done|]. fr.
  eapply returns_bind; [apply kept_writechannel|]. intros [[[[res n] c1] p1] w1] _ [Hp Hw]. cbn in Hp, Hw.
  eapply returns_bind; [apply frame_pr; apply (fl_world FL); [by apply (fl_ses FL)|done]|]. intros [[] s9] _ H9. cbn in H9.
  destruct res; [|by apply frame_chan]. destruct (chan_cbuf ext c1); [|done]. fr. by apply frame_chan.
Qed.

Lemma frame_recv_data s : I s -> returns I (recv_msg_channel_data rw s).
Proof. intros H. unfold recv_msg_channel_data, getchannel. fr. by apply frame_data. Qed.

Lemma frame_open s : I s -> returns I (recv_msg_channel_open rw s).
Proof.
  intros H. unfold recv_msg_channel_open. fr.
  assert (Hfail : forall n e s', I s' -> returns I (on_ses (send_msg_channel_open_failure n e [] []) s')).
  { intros n e s' ?. apply frame_on_ses; [intros; apply rp_open_failure|done]. }
  destruct (_ <? _); [by apply Hfail|]. destruct (find_chantype _) as [ct|]; [|by apply Hfail].
  eapply returns_bind; [by apply frame_newchannel|]. intros [[i|] s5] _ H5; [|by apply Hfail]. cbn in H5.
  eapply (returns_bind (fun x => I (snd x))); [destruct (ct_inithandler ct) as [h|] eqn:E; [by eapply (fl_init FL)|done]|].
  intros [ret s6] _ H6. cbn in H6. destruct (ret =? _); [done|]. destruct (0 <? ret).
  - eapply returns_bind; [by apply frame_remove|]. intros s7 _ H7. by apply Hfail.
  - eapply returns_bind; [apply returns_true|]. intros c _ _. apply frame_on_ses; [intros; apply rp_confirmation|by apply frame_prio].
Qed.

Lemma frame_open_init fd ty s : I s -> returns (fun x => I (snd x)) (send_msg_channel_open_init rw fd ty s).
Proof.
  intros H. unfold send_msg_channel_open_init. eapply returns_bind; [by apply frame_newchannel|]. intros [[i|] s1] _ H1; [|done]. cbn in H1.
  eapply returns_bind; [apply returns_true|]. intros c _ _. eapply returns_bind.
  { apply frame_on_ses; [|by apply frame_chan]. intros p. rp. }
  by intros s2 _ H2.
Qed.

Lemma frame_confirmation s : I s -> returns I (recv_msg_channel_open_confirmation s).
Proof.
  intros H. unfold recv_msg_channel_open_confirmation, getchannel. fr.
  eapply (returns_bind (fun x => I (snd x))).
  { destruct (ct_inithandler _) as [h|] eqn:E; [eapply (fl_init FL); [exact E|by apply frame_chan]|by apply frame_chan]. }
  intros [ret s6] _ H6. cbn in H6. destruct (0 <? ret); [by apply frame_remove|by apply frame_prio].
Qed.

Lemma frame_open_failure s : I s -> returns I (recv_msg_channel_open_failure s).
Proof. intros H. unfold recv_msg_channel_open_failure, getchannel. fr. by apply frame_remove, frame_chan. Qed.

(** ** The main loop *)

Lemma frame_io_one rd wr sig i s : I s -> returns I (channel_io_one rw rd wr sig i s).
Proof.
  intros H. unfold channel_io_one. destruct (channels s !! i) as [[c|]|]; [|done|done].
  assert (Hsend : forall (ext b : bool) c p w, RP (ses s) p -> RW (world s) w ->
    returns (kept (ses s) (world s)) (if b then send_msg_channel_data ext c p w else Ok (c, p, w))).
  { intros ext b c0 p w Hp Hw. destruct b; [|by split]. by eapply kept_step; [..|apply kept_send_data]. }
  assert (Hwrite : forall (ext b : bool) fd c p w, RP (ses s) p -> RW (world s) w ->
    returns (kept (ses s) (world s)) (if b then let* (_, _, c, p, w) := writechannel rw ext fd None c p w in Ok (c, p, w) else Ok (c, p, w))).
  { intros ext b fd c0 p w Hp Hw. destruct b; [|by split]. eapply returns_bind; [by eapply kept_step; [..|apply kept_writechannel]|].
    intros [[[[? ?] ?] ?] ?] _ [? ?]. by split. }
  eapply returns_bind; [by apply (Hsend false)|]. intros [[c1 p1] w1] _ [Hp1 Hw1]. cbn in Hp1, Hw1.
  eapply returns_bind; [by apply (Hsend true)|]. intros [[c2 p2] w2] _ [Hp2 Hw2]. cbn in Hp2, Hw2.
  eapply returns_bind; [by apply (Hwrite false)|]. intros [[c3 p3] w3] _ [Hp3 Hw3]. cbn in Hp3, Hw3.
  eapply returns_bind; [by apply (Hwrite true)|]. intros [[c4 p4] w4] _ [Hp4 Hw4]. cbn in Hp4, Hw4.
  destruct (_ || sig); [apply frame_check_close|]; by apply frame_put.
Qed.

Lemma frame_io_from rd wr sig n : forall i s, I s -> returns I (channelio_from rw n i rd wr sig s).
Proof.
  induction n as [|n IH]; intros i s H; cbn [channelio_from]; [done|].
  eapply returns_bind; [by apply frame_io_one|]. intros s1 _ H1. by apply IH.
Qed.

Lemma frame_channelio hl rd wr sig s : (forall s, I s -> returns I (hl rd s)) -> I s -> returns I (channelio rw hl rd wr sig s).
Proof.
  intros Hl H. unfold channelio. eapply returns_bind; [by apply frame_io_from|]. intros s1 _ H1. by apply Hl.
Qed.

Lemma frame_cleanup_from n : forall i s, I s -> returns I (chancleanup_from n i s).
Proof.
  induction n as [|n IH]; intros i s H; cbn [chancleanup_from]; [done|]. eapply (returns_bind I); [|intros s1 _ H1; by apply IH].
  destruct (channels s !! i) as [[c|]|]; [by apply frame_remove|done|done].
Qed.
End frame.
