(* ===== verification/ForwardSafety.v ===== *)
(** * What may be forwarded

    Whatever the peer sends, the server binds only addresses it may listen on for that peer
    and connects only to addresses it may connect to. *)

From S2P Require Import Prelude Bytes CString Buffer CircBuffer Packet SessionData Channel ChannelLaws ChannelFlow ChannelData ChannelClose.
From S2P Require Import ChannelSafety ChannelFrame AuthKeys Listener Netio NetioSafety Forward.

(** What the forwarding keeps in the session, and what it promises to leave alone. *)
Definition fwd_view {P} {FS : FwdSession P} (p : P) : list (nat * progress_connection) * option PubKeyOptions * bool :=
  (ses_conn_pending p, fs_pubkey_options p, fs_allowprivport p).

(** Permitted destinations have a host, as [addpubkeyoptions] makes them. *)
Definition hosts_named (o : option PubKeyOptions) : Prop :=
  match o with
  | Some o => Forall (fun e => permit_host e <> None) (default [] (permit_open_destinations o))
  | None => True
  end.

Class FwdLaws (P : Type) {FS : FwdSession P} := {
  #[global] fw_laws :: SessionLaws P;
  fw_view_wp b p : fwd_view (ses_set_writepayload b p) = fwd_view p;
  fw_view_pl b p : fwd_view (ses_set_payload b p) = fwd_view p;
  fw_view_encrypt p p' : ses_encrypt_packet p = Ok p' -> fwd_view p' = fwd_view p;
  fw_view_set l p : fwd_view (ses_set_conn_pending l p) = (l, fs_pubkey_options p, fs_allowprivport p);
  fw_wp_set l p : ses_writepayload (ses_set_conn_pending l p) = ses_writepayload p;
  fw_pl_set l p : ses_payload (ses_set_conn_pending l p) = ses_payload p;
  fw_sent_set l p : sent (ses_set_conn_pending l p) = sent p;
  fw_ok_set l p : ses_ok p -> Forall (fun kc => err_short (snd kc)) l -> ses_ok (ses_set_conn_pending l p);
  fw_ok_options p : ses_ok p -> hosts_named (fs_pubkey_options p);
  fw_ok_text p : ses_ok p -> Forall (fun kc => err_short (snd kc)) (ses_conn_pending p);
}.

Lemma sublist_all {A} (Q : A -> Prop) (t l : list A) : t `sublist_of` l -> Forall Q l -> Forall Q t.
Proof. induction 1 as [|x t l _ IH|x t l _ IH]; intros Hl; [done|..]; inversion_clear Hl; [constructor|]; auto. Qed.

Lemma load32h_nonneg y0 y1 y2 y3 : 0 <= load32h y0 y1 y2 y3.
Proof.
  unfold load32h. rewrite !Z.lor_nonneg. pose proof (u32_range (Z.shiftl (Z.land y0 255) 24)). pose proof (u32_range (Z.shiftl (Z.land y1 255) 16)).
  pose proof (u32_range (Z.shiftl (Z.land y2 255) 8)). pose proof (proj2 (Z.land_nonneg y3 255) ltac:(by right)). lia.
Qed.

Lemma getint_nonneg b n b' : buf_getint b = Ok (n, b') -> 0 <= n.
Proof.
  unfold buf_getint. intros H. apply obind_Ok in H as (bs & _ & H). apply obind_Ok in H as (b1 & _ & [= <- _]).
  destruct bs as [|y0 [|y1 [|y2 [|y3 [|]]]]]; cbn; try done. apply load32h_nonneg.
Qed.

Lemma cstr_idem l : cstr (cstr l) = cstr l.
Proof. induction l as [|b l IH]; [done|]. cbn. destruct (b =? 0) eqn:E; [done|]. cbn. by rewrite E, IH. Qed.

Lemma permit_open_cstr l host port : permit_open_match l (cstr host) port = permit_open_match l host port.
Proof. induction l as [|e l IH]; [done|]. cbn. destruct (permit_host e); [|done]. unfold strcmp_eq. by rewrite cstr_idem, IH. Qed.

Lemma allows_local_cstr o host port : svr_pubkey_allows_local_tcpfwd o (cstr host) port = svr_pubkey_allows_local_tcpfwd o host port.
Proof. destruct o as [o|]; [|done]. cbn. destruct (permit_open_destinations o); [apply permit_open_cstr|done]. Qed.

(** The text of a failed resolution is cut to the room there is for it. *)
Lemma resolve_error_short host port gai : bytes_ok host -> bytes_ok port -> text_short gai /\ zlen gai <= 900 -> text_short (resolve_error host port gai).
Proof.
  intros Hh Hp [[Hg Hl] Hle]. unfold resolve_error. split.
  - apply Forall_take. repeat apply Forall_app_2; try done; by apply bytes_check.
  - unfold zlen in *. rewrite length_take. lia.
Qed.

Section permitted.
Context (opts : fwd_opts) (ko : option PubKeyOptions) (priv : bool).

Definition remote_allowed : Prop := noremotefwd opts = false /\ svr_pubkey_allows_tcpfwd ko = true.
Definition local_allowed : Prop := nolocaltcp opts = false /\ svr_pubkey_allows_tcpfwd ko = true.
Definition no_forced_command : Prop := forced_cmd opts = None /\ svr_pubkey_has_forced_command ko = false.

(** A request to listen on port [r] that is granted. *)
Definition port_permitted (r : Z) : Prop :=
  svr_pubkey_allows_remote_tcpfwd ko [] r = true /\ (r = 0 \/ (0 < r <= 65535 /\ (priv = true \/ 1024 <= r))).

(** An address the server may bind. *)
Definition may_listen (a : sockaddr) : Prop :=
  remote_allowed /\
  match a with
  | SaUnix _ => no_forced_command
  | _ => (exists r, port_permitted r /\ (sin_port a = r \/ port_given r (sin_port a)))
         /\ (listen_fwd_all opts = false -> is_loopback a)
  end.

(** An address the server may connect to: a Unix socket, or what a permitted destination was
    resolved to. *)
Definition may_connect (lg : netlog) (a : sockaddr) : Prop :=
  local_allowed /\
  match a with
  | SaUnix _ => no_forced_command
  | _ => exists host n l, 0 <= n <= 65535 /\ svr_pubkey_allows_local_tcpfwd ko host n = Ok true /\
           (Some host, utoa n, false, l) ∈ resolved lg /\ a ∈ l
  end.

Lemma may_connect_mono lg lg' a : resolved lg `prefix_of` resolved lg' -> may_connect lg a -> may_connect lg' a.
Proof.
  intros [k Hk] [Hl Ha]. split; [done|]. destruct a; [| |done]; destruct Ha as (host & n & l & ? & ? & Hin & ?);
    exists host, n, l; rewrite Hk; (split; [done|]; split; [done|]; split; [|done]); apply elem_of_app; by left.
Qed.
End permitted.

Section safety.
Context {P W : Type} {FS : FwdSession P} {FL : FwdLaws P} {NW : NetSys W} {NL : NetLaws W}.
Context (rw : Z) (opts : fwd_opts) (chansess : ChanTypes (P := P) (W := W)).

#[local] Instance types : ChanTypes (P := P) (W := W) := svr_chantypes opts chansess.

Abbreviation chs := (chses (P := P) (W := W)).
Abbreviation fws := (fwses (P := P) (W := W)).

(** Sessions on channels leave the forwarding alone. *)
Definition quiet_ses (p q : P) : Prop := fwd_view q = fwd_view p.
Definition quiet_world (w v : W) : Prop := net_log v = net_log w.

#[global] Instance quiet_ses_pre : PreOrder quiet_ses.
Proof. split; [done|]. intros p q r H1 H2. unfold quiet_ses in *. congruence. Qed.

#[global] Instance quiet_world_pre : PreOrder quiet_world.
Proof. split; [done|]. intros p q r H1 H2. unfold quiet_world in *. congruence. Qed.

Record chansess_quiet : Prop := {
  cq_close ty h c p : ct_closehandler (ChanTypes := chansess) ty = Some h -> returns (quiet_ses p) (h c p);
  cq_init ty h i s : ct_inithandler (ChanTypes := chansess) ty = Some h ->
    returns (fun x => quiet_ses (ses s) (ses (snd x)) /\ quiet_world (world s) (world (snd x)) /\ conns (snd x) = conns s) (h i s);
  cq_req ty h i s : ct_reqhandler (ChanTypes := chansess) ty = Some h ->
    returns (fun s' => quiet_ses (ses s) (ses s') /\ quiet_world (world s) (world s') /\ conns s' = conns s) (h i s);
}.

Context (CQ : chansess_quiet).

(** ** The invariant of the channels and connections *)

Context (ko : option PubKeyOptions) (priv : bool).

(** A connection in progress may only go where it is allowed. *)
Definition conn_fine (lg : netlog) (c : progress_connection) : Prop :=
  -1 <= csock c /\ Forall (may_connect opts ko lg) (res_iter c).

Record fwd_inv (s : chs) : Prop := {
  fi_options : fs_pubkey_options (ses s) = ko;
  fi_priv : fs_allowprivport (ses s) = priv;
  fi_bound : Forall (may_listen opts ko priv) (bound (net_log (world s)));
  fi_connected : Forall (may_connect opts ko (net_log (world s))) (connected (net_log (world s)));
  fi_pending : Forall (fun kc => conn_fine (net_log (world s)) (snd kc)) (ses_conn_pending (ses s));
  fi_known : Forall (fun kc => is_Some (conns s !! fst kc)) (ses_conn_pending (ses s));
  fi_keys : NoDup (map fst (ses_conn_pending (ses s)));
}.

Lemma conn_fine_mono lg lg' c : resolved lg `prefix_of` resolved lg' -> conn_fine lg c -> conn_fine lg' c.
Proof. intros Hp (H1 & H3). split; [done|]. eapply Forall_impl; [exact H3|]. intros a. by apply may_connect_mono. Qed.

Lemma fwd_inv_ses p s : fwd_inv s -> quiet_ses (ses s) p -> fwd_inv (with_ses p s).
Proof. intros [H1 H2 H3 H4 H5 H6 H7] Hq. unfold quiet_ses, fwd_view in Hq. injection Hq as Hc Ho Hp. split; cbn; congruence. Qed.

Lemma fwd_inv_world w s : fwd_inv s -> quiet_world (world s) w -> fwd_inv (with_world w s).
Proof. intros [H1 H2 H3 H4 H5 H6 H7] Hq. unfold quiet_world in Hq. split; cbn; rewrite ?Hq; done. Qed.

Lemma fwd_inv_same s s' : fwd_inv s -> ses s' = ses s -> world s' = world s -> conns s' = conns s -> fwd_inv s'.
Proof. intros [H1 H2 H3 H4 H5 H6 H7] Hs Hw Hc. split; rewrite ?Hs, ?Hw, ?Hc; done. Qed.

Lemma fwd_inv_quiet s s' : fwd_inv s -> quiet_ses (ses s) (ses s') -> quiet_world (world s) (world s') -> conns s' = conns s -> fwd_inv s'.
Proof.
  intros H Hs Hw Hc. apply (fwd_inv_same (with_world (world s') (with_ses (ses s') s))); [|done..].
  apply fwd_inv_world; [by apply fwd_inv_ses|done].
Qed.

Lemma inv_pr {A} (f : buffer -> outcome (A * buffer)) (s : chs) : fwd_inv s -> returns (fun x => fwd_inv (snd x)) (pr f s).
Proof.
  intros H. unfold pr. destruct (ses_payload (ses s)); [|done]. eapply returns_bind; [apply returns_true|]. intros [a b1] _ _.
  apply fwd_inv_ses; [done|]. apply fw_view_pl.
Qed.

Lemma inv_put_chan i c (s : chs) : fwd_inv s -> fwd_inv (put_chan i c s).
Proof. intros H. by apply (fwd_inv_same s). Qed.

(** A connection more. *)
Lemma fresh_conn_le (m : gmap nat connect_callback) k : is_Some (m !! k) -> (k < map_fold (fun k _ n => Nat.max (S k) n) 0 m)%nat.
Proof.
  revert k. apply (map_fold_weak_ind (fun (r : nat) (m : gmap nat connect_callback) => forall k, is_Some (m !! k) -> (k < r)%nat)).
  - intros k [x Hx]. by rewrite lookup_empty in Hx.
  - intros i x m1 r Hi IH k Hk. destruct (decide (k = i)) as [->|Hne]; [lia|]. rewrite lookup_insert_ne in Hk by done. specialize (IH k Hk). lia.
Qed.

Lemma fresh_conn_new (s : chs) : conns s !! fresh_conn s = None.
Proof.
  destruct (conns s !! fresh_conn s) as [cb|] eqn:E; [|done]. pose proof (fresh_conn_le (conns s) (fresh_conn s) ltac:(by exists cb)) as H.
  unfold fresh_conn in H. lia.
Qed.

Lemma inv_append c cb (s : chs) : fwd_inv s -> conn_fine (net_log (world s)) c -> fwd_inv (list_append_conn (fresh_conn s) c cb s).
Proof.
  intros [H1 H2 H3 H4 H5 H6 H7] Hc. pose proof (fresh_conn_new s) as Hnew. set (k := fresh_conn s) in *. pose proof (fw_view_set (ses_conn_pending (ses s) ++ [(k, c)]) (ses s)) as Hv. unfold fwd_view in Hv.
  injection Hv as Hv1 Hv2 Hv3. split; cbn; [congruence|congruence|done|done|rewrite Hv1..].
  - apply Forall_app. split; [done|]. by apply Forall_singleton.
  - apply Forall_app. split; [|apply Forall_singleton; cbn; by rewrite lookup_insert_eq].
    eapply Forall_impl; [exact H6|]. intros kc [x Hx]. apply lookup_insert_is_Some'. right. by exists x.
  - rewrite map_app. apply NoDup_app. split; [done|]. split; [|apply NoDup_singleton]. cbn.
    intros j Hj ->%list_elem_of_singleton. apply list_elem_of_fmap in Hj as (kc & -> & Hin). rewrite Forall_forall in H6.
    destruct (H6 _ Hin) as [x Hx]. congruence.
Qed.

Lemma inv_resolved w s q l : fwd_inv s -> net_log w = log_resolve q l (net_log (world s)) -> fwd_inv (with_world w s).
Proof.
  intros [H1 H2 H3 H4 H5 H6 H7] Hw. assert (Hp : resolved (net_log (world s)) `prefix_of` resolved (net_log w)) by (rewrite Hw; by eexists).
  split; cbn; [done|done|by rewrite Hw|..|done|done].
  - rewrite Hw at 2. cbn. eapply Forall_impl; [exact H4|]. intros a. by apply may_connect_mono.
  - eapply Forall_impl; [exact H5|]. intros kc. by apply conn_fine_mono.
Qed.

Lemma inv_connect_remote host port cb pr (s : chs) : fwd_inv s -> local_allowed opts ko -> 0 <= port <= 65535 ->
  svr_pubkey_allows_local_tcpfwd ko host port = Ok true ->
  fwd_inv (snd (connect_remote host (utoa port) cb pr s)).
Proof.
  intros H Hl Hp Ha. unfold connect_remote. pose proof (nl_getaddrinfo (Some (cstr host)) (utoa port) false (world s)) as HL.
  destruct (sys_getaddrinfo (Some (cstr host)) (utoa port) false (world s)) as [res w] eqn:E. cbn [fst snd] in *. destruct res as [e|l].
  - apply (inv_append _ _ (with_world w s)); [by apply fwd_inv_world|]. split; cbn; [done|by apply Forall_nil].
  - apply (inv_append _ _ (with_world w s)); [by eapply inv_resolved|]. split; [done|]. cbn. pose proof (nl_addresses _ _ _ _ _ _ E) as Hres.
    eapply Forall_forall. intros a Hin. rewrite Forall_forall in Hres. destruct (Hres a Hin) as (Hi & _ & _). split; [done|].
    assert (Hok : exists host n l, 0 <= n <= 65535 /\ svr_pubkey_allows_local_tcpfwd ko host n = Ok true /\
              (Some host, utoa n, false, l) ∈ resolved (net_log w) /\ a ∈ l); [|by destruct a].
    exists (cstr host), port, l. split; [done|]. split; [by rewrite allows_local_cstr|]. split; [|done]. rewrite HL. cbn.
    apply elem_of_app. right. by apply list_elem_of_singleton.
Qed.

Lemma inv_connecting i k (s : chs) : fwd_inv s -> returns (fun x => fwd_inv (snd x)) (channel_connecting i k s).
Proof.
  intros H. unfold channel_connecting. eapply returns_bind; [apply returns_true|]. intros c _ _. by apply inv_put_chan.
Qed.

Lemma inv_newtcpdirect i (s : chs) : fwd_inv s -> returns (fun x => fwd_inv (snd x)) (newtcpdirect opts i s).
Proof.
  intros H. unfold newtcpdirect. destruct (_ || _) eqn:Hal; [done|]. apply orb_false_elim in Hal as [Hn Ht%negb_false_iff]. rewrite (fi_options _ H) in Ht.
  eapply returns_bind; [by apply inv_pr|]. intros [[host len] s1] _ H1. cbn in H1. destruct (_ <? _); [done|].
  eapply returns_bind; [by apply inv_pr|]. intros [port s2] Hport H2. cbn in H2.
  eapply returns_bind; [by apply inv_pr|]. intros [[orig len2] s3] _ H3. cbn in H3. destruct (_ <? _); [done|].
  eapply returns_bind; [by apply inv_pr|]. intros [oport s4] _ H4. cbn in H4. destruct (_ || _) eqn:Hp; [done|].
  apply orb_false_elim in Hp as [_ Hp%Z.ltb_ge].
  eapply returns_bind; [apply returns_true|]. intros al Hallow _. rewrite (fi_options _ H4) in Hallow. destruct al; [|done]. cbn [negb].
  assert (Hp0 : 0 <= port).
  { unfold pr in Hport. destruct (ses_payload (ses s1)) as [b|]; [|done]. apply obind_Ok in Hport as ([n b'] & Hget & [= <- _]).
    by eapply getint_nonneg. }
  pose proof (inv_connect_remote host port (ChannelConnectDone i) DROPBEAR_PRIO_NORMAL s4 H4) as Hc.
  destruct (connect_remote _ _ _ _ s4) as [k s5]. apply inv_connecting. apply Hc; by try split.
Qed.

Lemma forced_command_ok (s : chs) : fwd_inv s -> has_forced_command opts (ses s) = false -> no_forced_command opts ko.
Proof. intros H Hf. unfold has_forced_command in Hf. rewrite (fi_options _ H) in Hf. split; destruct (forced_cmd opts); done. Qed.

Lemma inv_newstreamlocal i (s : chs) : fwd_inv s -> returns (fun x => fwd_inv (snd x)) (newstreamlocal opts i s).
Proof.
  intros H. unfold newstreamlocal. destruct (has_forced_command opts (ses s)) eqn:Hf; [done|]. apply (forced_command_ok s H) in Hf.
  destruct (_ || _) eqn:Hal; [done|]. apply orb_false_elim in Hal as [Hn Ht%negb_false_iff]. rewrite (fi_options _ H) in Ht.
  eapply returns_bind; [by apply inv_pr|]. intros [[path len] s1] _ H1. cbn in H1. destruct (_ <? _); [done|].
  unfold connect_streamlocal. apply inv_connecting, inv_append; [done|]. destruct (_ <=? _).
  - split; cbn; [done|by apply Forall_nil].
  - split; cbn; [done|]. apply Forall_singleton. by split.
Qed.

Lemma encrypt_fwd_quiet p : returns (quiet_ses p) (ses_encrypt_packet p).
Proof. apply returns_Ok. intros q. apply fw_view_encrypt. Qed.

Lemma fwd_frame : frame_laws quiet_ses quiet_world fwd_inv.
Proof.
  split.
  - intros. apply fw_view_wp.
  - intros. apply fw_view_pl.
  - apply encrypt_fwd_quiet.
  - intros ty h c p. cbn. destruct (ty =? svrchansess); [apply (cq_close CQ)|done].
  - intros. apply nl_read.
  - intros. apply nl_writev.
  - intros. apply nl_close.
  - intros. apply nl_shutdown.
  - intros. apply nl_sock_priority.
  - intros p s. apply fwd_inv_ses.
  - intros w s. apply fwd_inv_world.
  - intros l s H. by apply (fwd_inv_same s).
  - intros l s H. by apply (fwd_inv_same s).
  - intros l s H. by apply (fwd_inv_same s).
  - intros l s H. by apply (fwd_inv_same s).
  - intros k s [H1 H2 H3 H4 H5 H6 H7]. split; cbn; try done. eapply Forall_impl; [exact H6|]. intros kc [x Hx].
    apply lookup_insert_is_Some'. right. by exists x.
  - intros ty h i s Hh Hs. cbn in Hh. destruct (ty =? svr_chan_tcpdirect); [injection Hh as <-; by apply inv_newtcpdirect|].
    destruct (ty =? svr_chan_streamlocal); [injection Hh as <-; by apply inv_newstreamlocal|].
    destruct (ty =? svrchansess); [|done]. eapply returns_mono; [by eapply (cq_init CQ)|]. intros x (? & ? & ?). by apply (fwd_inv_quiet s).
  - intros ty h i s Hh Hs. cbn in Hh. destruct (ty =? svrchansess); [|done].
    eapply returns_mono; [by apply (cq_req CQ _ _ _ _ Hh)|]. intros x (? & ? & ?). by apply (fwd_inv_quiet s).
Qed.

(** ** Connections in progress *)

Lemma conn_at_In k c (s : chs) : conn_at k s = Some c -> (k, c) ∈ ses_conn_pending (ses s).
Proof.
  unfold conn_at. destruct (list_find _ _) as [[j [k' c']]|] eqn:E; [|done]. cbn. intros [= ->].
  apply list_find_Some in E as (Hl & Hk & _). cbn in Hk. subst k'. by eapply list_elem_of_lookup_2.
Qed.

Lemma inv_put_conn k c (s : chs) : fwd_inv s -> conn_fine (net_log (world s)) c -> fwd_inv (put_conn k c s).
Proof.
  intros [H1 H2 H3 H4 H5 H6 H7] Hc. unfold put_conn, with_pending. set (l := map _ _). pose proof (fw_view_set l (ses s)) as Hv. unfold fwd_view in Hv.
  injection Hv as Hv1 Hv2 Hv3. split; cbn; [congruence|congruence|done|done|rewrite Hv1..].
  - apply Forall_map. eapply Forall_impl; [exact H5|]. intros kc Hk. by case_bool_decide.
  - apply Forall_map. eapply Forall_impl; [exact H6|]. intros kc Hk. case_bool_decide as Hd; [by rewrite <- Hd|done].
  - subst l. rewrite map_map. erewrite map_ext; [exact H7|]. intros kc. by case_bool_decide.
Qed.

(** Removing a connection whose callback is gone. *)
Lemma inv_remove_connect k (s : chs) : fwd_inv s -> fwd_inv (remove_connect k (with_conns (delete k (conns s)) s)).
Proof.
  intros [H1 H2 H3 H4 H5 H6 H7]. unfold remove_connect, with_pending. cbn [ses with_conns]. set (l := filter _ _). pose proof (fw_view_set l (ses s)) as Hv. unfold fwd_view in Hv.
  injection Hv as Hv1 Hv2 Hv3. split; cbn; [congruence|congruence|done|done|rewrite Hv1..].
  - apply Forall_forall. intros kc [_ Hin]%list_elem_of_filter. rewrite Forall_forall in H5. by apply H5.
  - apply Forall_forall. intros kc [Hne Hin]%list_elem_of_filter. rewrite Forall_forall in H6. rewrite lookup_delete_ne by done. by apply H6.
  - subst l. clear -H7. induction (ses_conn_pending (ses s)) as [|kc l IH]; [done|]. cbn in H7. apply NoDup_cons in H7 as [Hn Hd].
    rewrite filter_cons. destruct (decide _) as [Hne|]; [|by apply IH]. cbn. apply NoDup_cons. split; [|by apply IH].
    intros (kc' & Heq & Hin)%list_elem_of_fmap. apply list_elem_of_filter in Hin as [_ Hin]. apply Hn. apply list_elem_of_fmap. by exists kc'.
Qed.

Lemma inv_connect_finished k r (s : chs) : fwd_inv s -> returns (fun s' => fwd_inv (remove_connect k s')) (connect_finished k r s).
Proof.
  intros H. unfold connect_finished. eapply (returns_bind fwd_inv); [|intros s1 _ H1; by apply inv_remove_connect].
  destruct (conns s !! k) as [[i|]|]; [|destruct r; [apply fwd_inv_world; [done|apply net_log_m_close]|done]|done].
  unfold channel_connect_done. eapply returns_bind; [apply returns_true|]. intros c _ _. destruct r as [sock|text].
  - apply (frame_on_ses _ _ _ fwd_frame); [apply (rp_confirmation _ _ _ fwd_frame)|by apply inv_put_chan].
  - eapply returns_bind; [apply (frame_on_ses _ _ _ fwd_frame); [apply (rp_open_failure _ _ _ fwd_frame)|done]|]. intros s1 _ H1.
    by apply (frame_remove _ _ _ fwd_frame).
Qed.

(** Going through the addresses of a connection connects only to those. *)
Lemma inv_gone (s : chs) k c c' w' : fwd_inv s -> conn_at k s = Some c ->
  gone_through (res_iter c) c (world s) c' w' -> fwd_inv (with_world w' s) /\ conn_fine (net_log w') c'.
Proof.
  intros H Hc Hg. apply conn_at_In in Hc. pose proof (fi_pending _ H) as Hp. rewrite Forall_forall in Hp. destruct (Hp _ Hc) as (_ & Hres). cbn in Hres. clear Hp.
  assert (Hlog : exists t, net_log w' = log_connects t (net_log (world s)) /\ Forall (may_connect opts ko (net_log (world s))) t /\
            conn_fine (net_log (world s)) c').
  { destruct Hg as [c' w' l1 a l2 tried _ He Hl Hr Hs Ht Hn|c' w' tried _ He Hr Hs Ht Hn].
    - exists (tried ++ [a]). split; [done|]. rewrite Hl in Hres. apply Forall_app in Hres as [Hl1 Hl2]. inversion_clear Hl2.
      split; [|split; [lia|by rewrite Hr]]. apply Forall_app. split; [by eapply sublist_all|by apply Forall_singleton].
    - exists tried. split; [done|]. split; [by eapply sublist_all|]. split; [lia|]. rewrite Hr. by apply Forall_nil. }
  destruct Hlog as (t & Hn & Ht & Hr). assert (Hp : resolved (net_log (world s)) `prefix_of` resolved (net_log w')) by by rewrite Hn.
  split; [|by eapply conn_fine_mono]. destruct H as [H1 H2 H3 H4 H5 H6 H7]. split; cbn; [done|done|by rewrite Hn|..|done|done].
  - rewrite Hn at 2. cbn. apply Forall_app. split; (eapply Forall_impl; [eassumption|]; intros a; by apply may_connect_mono).
  - eapply Forall_impl; [exact H5|]. intros kc. by apply conn_fine_mono.
Qed.

(** Where [connect_tries] leaves a connection: untouched when its socket is open. *)
Lemma tries_cases fuel c w : (0 < fuel)%nat -> -1 <= csock c -> exists c' w', connect_tries fuel c w = Ok (c', w') /\
  ((0 <= csock c /\ c' = c /\ w' = w) \/ (csock c = -1 /\ gone_through (res_iter c) c w c' w')).
Proof.
  intros Hf Hc. destruct (decide (csock c = -1)) as [E|E].
  - destruct (connect_tries_ok fuel c w Hf E) as (c' & w' & Ht & Hg). exists c', w'. split; [done|]. by right.
  - exists c, w. split; [|left; split; [lia|done]]. destruct fuel; [done|]. cbn [connect_tries].
    rewrite (proj2 (Z.ltb_ge (csock c) 0)) by lia. by rewrite andb_false_r.
Qed.

Lemma inv_tried (s : chs) k c c' w' : fwd_inv s -> conn_at k s = Some c ->
  (0 <= csock c /\ c' = c /\ w' = world s) \/ (csock c = -1 /\ gone_through (res_iter c) c (world s) c' w') ->
  fwd_inv (put_conn k c' (with_world w' s)).
Proof.
  intros H Hc [(_ & -> & ->)|[_ Hg]].
  - pose proof (conn_at_In _ _ _ Hc) as Hin. pose proof (fi_pending _ H) as Hp. rewrite Forall_forall in Hp.
    apply inv_put_conn; [by apply fwd_inv_world|]. apply (Hp _ Hin).
  - destruct (inv_gone s k c c' w' H Hc Hg). by apply inv_put_conn.
Qed.

Lemma inv_set_connect_fd k (s : chs) : fwd_inv s -> returns (fun x => fwd_inv (snd x)) (set_connect_fd k s).
Proof.
  intros H. unfold set_connect_fd. destruct (conn_at k s) as [c|] eqn:Hc; [|done].
  pose proof (fi_pending _ H) as Hp. rewrite Forall_forall in Hp. destruct (Hp _ (conn_at_In _ _ _ Hc)) as [Hs _]. cbn in Hs.
  destruct (tries_cases (S (length (res_iter c))) c (world s) ltac:(lia) Hs) as (c' & w' & -> & Ht). cbn [obind].
  apply (inv_tried s k) in Ht; [|done|done]. destruct (0 <=? csock c'); [done|].
  eapply returns_bind; [by apply inv_connect_finished|]. by intros s1 _ H1.
Qed.

Lemma inv_set_connect_fds (s : chs) : fwd_inv s -> returns (fun x => fwd_inv (snd x)) (set_connect_fds s).
Proof.
  unfold set_connect_fds. generalize (map fst (ses_conn_pending (ses s))). intros ks. revert s. induction ks as [|k ks IH]; intros s H; [done|].
  cbn [set_connect_fds_from]. eapply returns_bind; [by apply inv_set_connect_fd|]. intros [fds s1] _ H1. cbn in H1.
  eapply returns_bind; [by apply IH|]. by intros [more s2] _ H2.
Qed.

Lemma inv_close_conn k c c' (s : chs) : fwd_inv s -> conn_at k s = Some c -> res_iter c' = res_iter c ->
  fwd_inv (put_conn k (set_csock (-1) c') (with_world (m_close (csock c) (world s)) s)).
Proof.
  intros H Hc Hr. pose proof (fi_pending _ H) as Hp. rewrite Forall_forall in Hp. destruct (Hp _ (conn_at_In _ _ _ Hc)) as [Hs Hres]. cbn in Hs, Hres.
  apply inv_put_conn; [apply fwd_inv_world; [done|apply net_log_m_close]|]. split; cbn; [done|]. by rewrite net_log_m_close, Hr.
Qed.

Lemma inv_handle_connect_fds wr (s : chs) : fwd_inv s -> returns fwd_inv (handle_connect_fds wr s).
Proof.
  unfold handle_connect_fds. generalize (map fst (ses_conn_pending (ses s))). intros ks. revert s. induction ks as [|k ks IH]; intros s H; [done|].
  cbn [handle_connect_fds_from]. destruct (conn_at k s) as [c|] eqn:Hc; [|done]. destruct (_ || _); [by apply IH|].
  destruct (sys_so_error (csock c) (world s)) as [[text|]|].
  - apply IH. by eapply inv_close_conn.
  - eapply returns_bind; [by apply inv_connect_finished|]. by intros s1 _ H1.
  - apply IH. by eapply inv_close_conn.
Qed.

(** ** Listening *)

Lemma inv_bound w (s : chs) : fwd_inv s -> listen_log (may_listen opts ko priv) (net_log (world s)) (net_log w) -> fwd_inv (with_world w s).
Proof.
  intros [H1 H2 H3 H4 H5 H6 H7] ((l & Hl & Hm) & Hc & Hr). split; cbn; [done|done|..|done|done].
  - rewrite Hl. apply Forall_app. by split.
  - rewrite Hc. eapply Forall_impl; [exact H4|]. intros a. by apply may_connect_mono.
  - eapply Forall_impl; [exact H5|]. intros kc. by apply conn_fine_mono.
Qed.

Lemma quiet_close_socks fds w : quiet_world w (close_socks fds w).
Proof.
  unfold close_socks. revert w. induction fds as [|fd fds IH]; intros w; [done|]. cbn. etrans; [|apply IH]. apply nl_close.
Qed.

(** The listeners the server makes. *)
Inductive known_listener : Listener FwdListener chs W -> Prop :=
| known_tcp l addr : acceptor l = tcp_acceptor rw -> cleanup l = Some cleanup_tcp -> ltype l = LISTENER_TYPE_TCPFORWARDED ->
    request_listenaddr (typedata l) = Some addr -> chantype (typedata l) = svr_chan_tcpremote -> fwd_type (typedata l) = forwarded ->
    known_listener l
| known_stream l addr path : acceptor l = streamlocal_acceptor rw -> cleanup l = Some cleanup_streamlocal -> ltype l = LISTENER_TYPE_STREAMFORWARDED ->
    request_listenaddr (typedata l) = Some addr -> socket_path (typedata l) = Some path -> chantype (typedata l) = svr_chan_streamlocalremote ->
    known_listener l.

(** The table of listeners: every listener is at its index, with sockets; there are at most 21. *)
Record table_ok (ls : list (option (Listener FwdListener chs W))) : Prop := {
  tb_size : zlen ls <= MAX_LISTENERS + 1;
  tb_index i l : ls !! i = Some (Some l) -> lindex l = i;
  tb_socks i l : ls !! i = Some (Some l) -> socks l <> [] /\ Forall (fun fd => 0 <= fd) (socks l);
  tb_known i l : ls !! i = Some (Some l) -> known_listener l;
}.

Lemma table_put i l ls : table_ok ls -> lindex l = i -> socks l <> [] /\ Forall (fun fd => 0 <= fd) (socks l) -> known_listener l ->
  table_ok (<[i := Some l]> ls).
Proof.
  intros [H1 H2 H3 H4] Hi Hs Hk. split; [unfold zlen in *; by rewrite length_insert|..]; intros j l' [(-> & [= <-] & _)|[Hne Hj]]%list_lookup_insert_Some; eauto.
Qed.

Lemma table_clear i ls : table_ok ls -> table_ok (<[i := None]> ls).
Proof.
  intros [H1 H2 H3 H4]. split; [unfold zlen in *; by rewrite length_insert|..]; intros j l' [(-> & [=] & _)|[Hne Hj]]%list_lookup_insert_Some; eauto.
Qed.

Lemma table_extend ls : table_ok ls -> zlen ls <= MAX_LISTENERS -> table_ok (ls ++ replicate LISTENER_EXTEND_SIZE None).
Proof.
  intros [H1 H2 H3 H4] Hsz. split; [unfold zlen in *; rewrite length_app; cbn; lia|..];
    intros j l' [?|[_ Hj]]%lookup_app_Some; eauto; apply lookup_replicate in Hj as [[=] _].
Qed.

Lemma new_listener_ok fds ty d acc cl ls w : table_ok ls -> fds <> [] -> Forall (fun fd => 0 <= fd) fds ->
  (forall i, known_listener (mklistener fds i acc cl ty d)) ->
  let '(i, ls', w') := new_listener fds ty d acc cl ls w in
  table_ok ls' /\ quiet_world w w' /\
  match i with
  | Some i => w' = w /\ ls' !! i = Some (Some (mklistener fds i acc cl ty d)) /\ (forall j l, ls !! j = Some (Some l) -> j <> i) /\
              (forall j l, j <> i -> ls' !! j = Some (Some l) <-> ls !! j = Some (Some l))
  | None => ls' = ls
  end.
Proof.
  intros Ht Hne Hfd Hk. unfold new_listener. pose proof (free_slot_le ls) as Hle. set (i := free_slot ls) in *.
  destruct (bool_decide (i = length ls) && (MAX_LISTENERS <? zlen ls)) eqn:Hfull; [split; [done|]; split; [apply quiet_close_socks|done]|].
  set (l := if bool_decide (i = length ls) then _ else _).
  assert (Hl : table_ok l /\ l !! i = Some None /\ forall j l', l !! j = Some (Some l') <-> ls !! j = Some (Some l')).
  { subst l. case_bool_decide as Hd.
    - apply Z.ltb_ge in Hfull. split; [by apply table_extend|]. split; [rewrite lookup_app_r by lia; by rewrite Hd, Nat.sub_diag|].
      intros j l'. rewrite lookup_app_Some. split; [|auto]. intros [?|[_ Hr]]; [done|]. by apply lookup_replicate in Hr as [[=] _].
    - split; [done|]. split; [apply free_slot_none; subst i; lia|done]. }
  clearbody l. destruct Hl as (Htl & Hli & Hsame). split; [by apply table_put|]. split; [done|]. split; [done|].
  split; [apply list_lookup_insert_eq; by eapply lookup_lt_Some|]. split.
  - intros j l' Hj ->. apply Hsame in Hj. congruence.
  - intros j l' Hj. rewrite list_lookup_insert_ne by done. apply Hsame.
Qed.

(** ** The session with its listeners *)

Definition finv (f : fws) : Prop := fwd_inv (fch f) /\ table_ok (listeners f).

Lemma finv_ch (f : fws) s : finv f -> fwd_inv s -> finv (with_fch s f).
Proof. by intros [_ Ht] Hs. Qed.

Lemma finv_fpr {A} (op : buffer -> outcome (A * buffer)) (f : fws) : finv f -> returns (fun x => finv (snd x)) (fpr (pr op) f).
Proof. intros [H Ht]. unfold fpr. eapply returns_bind; [by apply inv_pr|]. by intros [a s] _ ?. Qed.

Lemma finv_on_ses (op : P -> outcome P) (f : fws) : (forall p, returns (quiet_ses p) (op p)) -> finv f -> returns finv (fon_ses op f).
Proof.
  intros Hop [H Ht]. unfold fon_ses. eapply returns_bind; [by apply (frame_on_ses _ _ _ fwd_frame)|]. by intros s _ ?.
Qed.

Lemma finv_remove i (f : fws) : finv f -> returns finv (fwd_remove_listener i f).
Proof.
  intros [H Ht]. unfold fwd_remove_listener, remove_listener. destruct (listeners f !! i) as [[l|]|] eqn:E; [|done|done]. cbn [obind].
  pose proof (tb_known _ Ht _ _ E) as Hk. split; [|by apply table_clear]. apply fwd_inv_world; [done|].
  etrans; [|apply quiet_close_socks].
  destruct Hk as [l addr _ -> _ _ _ _|l addr path _ -> _ _ Hp _]; [done|]. unfold cleanup_streamlocal. rewrite Hp. apply nl_unlink.
Qed.

(** Accepting. *)
Lemma inv_tcp_acceptor d sock (s : chs) : fwd_inv s -> returns fwd_inv (tcp_acceptor rw d sock s).
Proof.
  intros H. unfold tcp_acceptor. pose proof (nl_accept sock (world s)) as Hw. destruct (sys_accept sock (world s)) as [r w]. cbn in Hw.
  apply (fwd_inv_world w) in H; [|exact Hw]. destruct r as [[fd sa]|]; [|done].
  destruct (sys_getnameinfo sa) as [[ip port]|]; [|apply fwd_inv_world; [done|apply net_log_m_close]].
  eapply returns_bind; [by apply (frame_open_init _ _ _ _ fwd_frame)|]. intros [ok s1] _ H1. cbn in H1.
  destruct ok; [|apply fwd_inv_world; [done|apply nl_close]].
  set (x := match fwd_type d with direct => _ | forwarded => _ end). destruct x as [addr p].
  apply (frame_on_ses _ _ _ fwd_frame); [|done]. intros q.
  repeat (eapply (rp_bind quiet_ses); [apply (rp_pw _ _ _ fwd_frame)|intros ?; cbv beta]). apply encrypt_fwd_quiet.
Qed.

Lemma inv_stream_acceptor d sock (s : chs) : fwd_inv s -> returns fwd_inv (streamlocal_acceptor rw d sock s).
Proof.
  intros H. unfold streamlocal_acceptor. pose proof (nl_accept sock (world s)) as Hw. destruct (sys_accept sock (world s)) as [r w]. cbn in Hw.
  apply (fwd_inv_world w) in H; [|exact Hw]. destruct r as [[fd sa]|]; [|done].
  eapply returns_bind; [by apply (frame_open_init _ _ _ _ fwd_frame)|]. intros [ok s1] _ H1. cbn in H1.
  destruct ok; [|apply fwd_inv_world; [done|apply nl_close]]. destruct (request_listenaddr d); [|done].
  apply (frame_on_ses _ _ _ fwd_frame); [|done]. intros q.
  repeat (eapply (rp_bind quiet_ses); [apply (rp_pw _ _ _ fwd_frame)|intros ?; cbv beta]). apply encrypt_fwd_quiet.
Qed.

Lemma inv_accept_socks l fds rd (s : chs) : known_listener l -> fwd_inv s -> returns fwd_inv (accept_socks l fds rd s).
Proof.
  intros Hk. revert s. induction fds as [|fd fds IH]; intros s H; cbn [accept_socks]; [done|].
  eapply (returns_bind fwd_inv); [|intros s1 _ H1; by apply IH]. destruct (rd fd); [|done].
  destruct Hk as [l addr -> _ _ _ _ _|l addr path -> _ _ _ _ _]; [by apply inv_tcp_acceptor|by apply inv_stream_acceptor].
Qed.

Lemma inv_handle_listeners ls rd (s : chs) : (forall l, Some l ∈ ls -> known_listener l) -> fwd_inv s -> returns fwd_inv (handle_listeners ls rd s).
Proof.
  revert s. induction ls as [|o ls IH]; intros s Hk H; cbn [handle_listeners]; [done|].
  eapply (returns_bind fwd_inv); [|intros s1 _ H1; apply IH; [|done]; intros l Hl; apply Hk; by apply list_elem_of_further].
  destruct o as [l|]; [|done]. apply inv_accept_socks; [|done]. apply Hk, list_elem_of_here.
Qed.

Lemma table_elem ls l : table_ok ls -> Some l ∈ ls -> known_listener l.
Proof. intros Ht Hl. apply list_elem_of_lookup in Hl as [i Hi]. by eapply tb_known. Qed.

(** Listening. *)
Lemma listen_tcpfwd_ok (f : fws) d : finv f -> remote_allowed opts ko -> 0 <= listenport d < 4294967296 -> port_permitted ko priv (listenport d) ->
  (listen_fwd_all opts = false -> listenaddr d = None) ->
  (exists addr, request_listenaddr d = Some addr) -> chantype d = svr_chan_tcpremote -> fwd_type d = forwarded ->
  safe (fun '(o, f') => finv f' /\ (exists w, fch f' = with_world w (fch f)) /\ match o with
      | Some i => exists l, listeners f' !! i = Some (Some l) /\ typedata l = d /\ known_listener l /\
          (forall j l, listeners f !! j = Some (Some l) -> j <> i) /\
          (forall j l, j <> i -> listeners f' !! j = Some (Some l) <-> listeners f !! j = Some (Some l))
      | None => listeners f' = listeners f
      end) (listen_tcpfwd rw d f).
Proof.
  intros [H Ht] Hr Hport Hpp Hlo [addr Haddr] Hch Hfw. unfold listen_tcpfwd. eapply safe_bind.
  { apply dropbear_listen_ok. rewrite atol_utoa by done. lia. }
  intros [o w] _ [Ho Hlog]. rewrite atol_utoa in Hlog by done.
  assert (Hw : fwd_inv (with_world w (fch f))).
  { apply inv_bound; [done|]. destruct Hlog as ((l & Hl & Hm) & Hc). split; [|done]. exists l. split; [done|]. eapply Forall_impl; [exact Hm|].
    intros a (Hi & Hp & Hloop). split; [done|].
    assert (Hx : (exists r, port_permitted ko priv r /\ (sin_port a = r \/ port_given r (sin_port a))) /\ (listen_fwd_all opts = false -> is_loopback a)); [|by destruct a].
    split; [by eexists|]. auto. }
  destruct o as [fds|]; [|split; [by split|]; split; [by eexists|done]]. destruct Ho as [Hne Hfd].
  pose proof (new_listener_ok fds LISTENER_TYPE_TCPFORWARDED d (tcp_acceptor rw) (Some cleanup_tcp) (listeners f) w Ht Hne Hfd) as Hnew.
  cbn [listeners with_fworld with_fch fch world with_world]. destruct (new_listener _ _ _ _ _ _ _) as [[i ls] w2].
  destruct Hnew as (Htl & Hq & Hi); [intros; by eapply known_tcp|]. cbn [safe].
  split; [split; [|done]; by apply (fwd_inv_world w2 (with_world w (fch f)))|]. split; [by eexists|].
  destruct i as [i|]; [|done]. destruct Hi as (_ & Hl & Hn & Ho). eexists. split; [exact Hl|]. split; [done|]. split; [by eapply known_tcp|done].
Qed.

Lemma inv_unix_bound w (s : chs) a : fwd_inv s -> may_listen opts ko priv a -> net_log w = log_bind a (net_log (world s)) -> fwd_inv (with_world w s).
Proof.
  intros H Ha Hw. apply inv_bound; [done|]. rewrite Hw. split; [|done]. exists [a]. split; [done|]. by apply Forall_singleton.
Qed.

Lemma bind_streamlocal_ok path (s : chs) : fwd_inv s -> remote_allowed opts ko -> no_forced_command opts ko ->
  let '(o, w) := bind_streamlocal path (world s) in fwd_inv (with_world w s) /\ match o with Some fd => 0 <= fd | None => True end.
Proof.
  intros H Hr Hf. unfold bind_streamlocal. pose proof (nl_socket AF_UNIX (world s)) as L1. destruct (sys_socket AF_UNIX (world s)) as [sock w1]. cbn in L1.
  destruct (Z.ltb_spec sock 0); [split; [by apply fwd_inv_world|done]|]. unfold unlink_streamsocket.
  pose proof (nl_umask 127 (sys_unlink (cstr path) w1)) as L2. destruct (sys_umask 127 (sys_unlink (cstr path) w1)) as [m w2]. cbn in L2. rewrite nl_unlink in L2.
  pose proof (nl_bind sock (SaUnix (cstr path)) w2) as L3. destruct (sys_bind sock (SaUnix (cstr path)) w2) as [b w3]. cbn in L3.
  pose proof (nl_umask m w3) as L4. destruct (sys_umask m w3) as [m2 w4]. cbn in L4. rewrite L3, L2, L1 in L4.
  assert (Hb : forall w5, net_log w5 = net_log w4 -> fwd_inv (with_world w5 s)).
  { intros w5 E. eapply inv_unix_bound; [done| |by rewrite E, L4]. by split. }
  destruct b; cbn [negb]; [|split; [apply Hb, net_log_m_close|done]].
  pose proof (nl_listen sock DROPBEAR_LISTEN_BACKLOG w4) as L5. destruct (sys_listen sock DROPBEAR_LISTEN_BACKLOG w4) as [ok w5]. cbn in L5.
  destruct ok; cbn [negb]; split; try done; apply Hb.
  - by rewrite nl_setsockopt.
  - by rewrite net_log_m_close, nl_unlink.
Qed.

Lemma listen_streamlocal_ok (f : fws) d path : finv f -> remote_allowed opts ko -> no_forced_command opts ko -> socket_path d = Some path ->
  (exists addr, request_listenaddr d = Some addr) -> chantype d = svr_chan_streamlocalremote ->
  safe (fun '(_, f') => finv f' /\ (exists w, fch f' = with_world w (fch f)) /\
      forall j l, listeners f' !! j = Some (Some l) -> listeners f !! j = Some (Some l) \/ typedata l = d) (listen_streamlocal rw d f).
Proof.
  intros [H Ht] Hr Hf Hp [addr Haddr] Hch. unfold listen_streamlocal. rewrite Hp.
  destruct (_ <=? _); [split; [done|]; split; [exists (world (fch f)); by destruct (fch f)|auto]|].
  pose proof (bind_streamlocal_ok path (fch f) H Hr Hf) as Hb. destruct (bind_streamlocal path (world (fch f))) as [o w]. destruct Hb as [Hw Hfd].
  destruct o as [fd|]; [|split; [by split|]; split; [by eexists|auto]].
  pose proof (new_listener_ok [fd] LISTENER_TYPE_STREAMFORWARDED d (streamlocal_acceptor rw) (Some cleanup_streamlocal) (listeners f) w Ht ltac:(done) ltac:(by apply Forall_singleton)) as Hnew.
  destruct (new_listener _ _ _ _ _ _ _) as [[i ls] w2]. destruct Hnew as (Htl & Hq & Hi); [intros; by eapply known_stream|]. cbn [safe].
  split; [split; [|done]|split; [by eexists|]].
  - apply (fwd_inv_world _ (with_world w (fch f))); [done|]. cbn. destruct i; [done|]. unfold unlink_streamsocket, quiet_world. by rewrite net_log_m_close, nl_unlink.
  - intros j l Hj. cbn in Hj. destruct i as [i|]; [|subst ls; by left]. destruct Hi as (_ & Hl & _ & Ho). destruct (decide (j = i)) as [->|Hne]; [right|left; by apply Ho].
    rewrite Hl in Hj. by injection Hj as <-.
Qed.

Lemma safe_returns {A} (Q : A -> Prop) (m : outcome A) : safe Q m -> returns Q m.
Proof. by destruct m. Qed.

Lemma finv_options (f : fws) : finv f -> key_options f = ko.
Proof. intros [H _]. apply (fi_options _ H). Qed.

(** ** The requests *)

Ltac fi := repeat
  lazymatch goal with
  | |- returns _ (obind (fpr (pr _) _) _) =>
      eapply returns_bind; [by apply finv_fpr|]; let x := fresh "x" in intros x ? ?; osplit x; cbn [snd fst] in *
  | |- returns _ (obind (fpr pr_string _) _) =>
      eapply returns_bind; [by apply finv_fpr|]; let x := fresh "x" in intros x _ ?; osplit x; cbn [snd fst] in *
  | |- returns _ (if ?c then _ else _) => destruct c eqn:?; [done|]
  end.

Lemma fpr_getint_nonneg (f : fws) n f' : fpr (pr buf_getint) f = Ok (n, f') -> 0 <= n.
Proof.
  unfold fpr, pr. destruct (ses_payload (ses (fch f))) as [b|]; [|done]. intros H.
  apply obind_Ok in H as ([m s] & H & [= <- _]). apply obind_Ok in H as ([m' b'] & H & [= <- _]). by eapply getint_nonneg.
Qed.

Lemma allows_remote_host host port : svr_pubkey_allows_remote_tcpfwd ko host port = svr_pubkey_allows_remote_tcpfwd ko [] port.
Proof. done. Qed.

Lemma finv_cancel_tcp (f : fws) : finv f -> returns (fun x => finv (snd x)) (svr_cancelremotetcp f).
Proof.
  intros H. unfold svr_cancelremotetcp. fi. eapply returns_bind; [apply returns_true|]. intros [i|] _ _; [|done].
  eapply returns_bind; [by apply finv_remove|]. by intros f1 _ Hf1.
Qed.

Lemma finv_cancel_stream (f : fws) : finv f -> returns (fun x => finv (snd x)) (svr_cancelremotestreamlocal f).
Proof.
  intros H. unfold svr_cancelremotestreamlocal. fi. eapply returns_bind; [apply returns_true|]. intros [i|] _ _; [|done].
  eapply returns_bind; [by apply finv_remove|]. by intros f1 _ Hf1.
Qed.

(** The port of a request that is granted. *)
Lemma granted_port (f : fws) host port : finv f -> 0 <= port -> listen_port_ok port f = true ->
  svr_pubkey_allows_remote_tcpfwd (key_options f) host port = true -> 0 <= port < 4294967296 /\ port_permitted ko priv port.
Proof.
  intros H Hp Hok Hal. rewrite (finv_options _ H) in Hal. unfold listen_port_ok in Hok. destruct H as [H _]. rewrite (fi_priv _ H) in Hok.
  unfold IPPORT_RESERVED in Hok. split; [lia|]. split; [exact Hal|]. destruct (Z.eqb_spec port 0); [by left|]. right.
  apply andb_prop in Hok as [Hle Hok]. split; [lia|]. destruct priv; [by left|right]. cbn in Hok. lia.
Qed.

Lemma remote_tcpinfo_ok host port : let d := remote_tcpinfo opts host port in
  listenport d = port /\ (listen_fwd_all opts = false -> listenaddr d = None) /\ (exists addr, request_listenaddr d = Some addr) /\
  chantype d = svr_chan_tcpremote /\ fwd_type d = forwarded.
Proof. cbn. split; [done|]. split; [by intros ->|]. split; [by eexists|done]. Qed.

Lemma finv_remotetcp (f : fws) : finv f -> remote_allowed opts ko -> returns (fun x => finv (snd x)) (remotetcp_listen rw opts f).
Proof.
  intros H Hr. unfold remotetcp_listen. fi. apply negb_false_iff in Heqb0, Heqb1.
  destruct (granted_port _ _ _ ltac:(done) (fpr_getint_nonneg _ _ _ ltac:(done)) Heqb0 Heqb1) as [Hp Hpp].
  destruct (remote_tcpinfo_ok x2 x0) as (D1 & D2 & D3 & D4 & D5).
  eapply returns_bind; [apply safe_returns, listen_tcpfwd_ok; try done; by rewrite D1|]. intros [[i|] f1] _ (Hf1 & _ & Hi); [|done].
  destruct Hi as (l & Hl & Hd & Hk & _). rewrite Hl. destruct (socks l) as [|sock fds] eqn:Hs; [done|].
  eapply returns_bind; [apply returns_true|]. intros port _ _. destruct Hf1 as [Hf1 Ht1].
  split; [done|]. apply table_put; [done|exact (tb_index _ Ht1 _ _ Hl)|exact (tb_socks _ Ht1 _ _ Hl)|].
  destruct Hk as [l addr ? ? ? ? ? ?|l addr path ? ? Hty]; [by eapply known_tcp|].
  by eapply known_stream.
Qed.

Lemma finv_remotetcpreq wr (f : fws) : finv f -> remote_allowed opts ko -> returns (fun x => finv (snd x)) (svr_remotetcpreq rw opts wr f).
Proof.
  intros H Hr. unfold svr_remotetcpreq. eapply returns_bind; [by apply finv_remotetcp|]. intros [ret f1] _ H1. cbn in H1.
  eapply (returns_bind finv); [|by intros f2 _ H2]. destruct wr; [|done]. apply finv_on_ses; [|done]. intros p.
  eapply (rp_bind quiet_ses); [|intros q; apply encrypt_fwd_quiet].
  destruct ret as [[port lport]|]; [|apply (rp_pw _ _ _ fwd_frame)]. eapply (rp_bind quiet_ses); [apply (rp_pw _ _ _ fwd_frame)|].
  intros q. destruct (port =? 0); [apply (rp_pw _ _ _ fwd_frame)|apply rp_refl; apply _].
Qed.

Lemma finv_remotestream (f : fws) : finv f -> returns (fun x => finv (snd x)) (svr_remotestreamlocalreq rw opts f).
Proof.
  intros H. unfold svr_remotestreamlocalreq. fi. apply orb_false_elim in Heqb0 as [Hn Ht%negb_false_iff].
  apply (forced_command_ok (fch f) (proj1 H)) in Heqb. rewrite (finv_options _ H) in Ht.
  eapply returns_bind; [apply safe_returns; eapply listen_streamlocal_ok; [done|by split|done|done|by eexists|done]|]. by intros [i f1] _ (Hf1 & _).
Qed.

Lemma finv_answer (b : bool) (m : outcome (bool * fws)) : returns (fun x => finv (snd x)) m ->
  returns (fun x => finv (snd x)) (let* (ret, f) := m in Ok (ret, b, f)).
Proof. intros H. eapply returns_bind; [exact H|]. intros [ret f] _ Hf. exact Hf. Qed.

Lemma finv_request name wr (f : fws) : finv f -> remote_allowed opts ko -> returns (fun x => finv (snd x)) (global_request rw opts name wr f).
Proof.
  intros H Hr. unfold global_request.
  destruct (strcmp_eq (str "tcpip-forward") name); [apply finv_answer, finv_remotetcpreq; assumption|].
  destruct (strcmp_eq (str "cancel-tcpip-forward") name); [apply finv_answer, finv_cancel_tcp; assumption|].
  destruct (strcmp_eq (str "streamlocal-forward@openssh.com") name); [apply finv_answer, finv_remotestream; assumption|].
  destruct (strcmp_eq (str "cancel-streamlocal-forward@openssh.com") name); [apply finv_answer, finv_cancel_stream; assumption|exact H].
Qed.

Lemma finv_global (f : fws) : finv f -> returns finv (svr_recv_msg_global_request rw opts f).
Proof.
  intros H. unfold svr_recv_msg_global_request. fi.
  eapply (returns_bind (fun x => finv (snd x))).
  { destruct (_ || _) eqn:Hal; [done|]. apply orb_false_elim in Hal as [Hn Ht%negb_false_iff]. rewrite finv_options in Ht by done.
    destruct (_ <? _); [done|]. apply finv_request; [done|by split]. }
  intros [[ret wr] f1] _ Hf1. cbn in Hf1. destruct wr; [|done]. apply finv_on_ses; [|done]. intros p.
  destruct ret; [apply (rp_request_success _ _ _ fwd_frame)|apply (rp_request_failure _ _ _ fwd_frame)].
Qed.

(** ** Everything the peer and the main loop can make happen *)

Inductive fwd_event :=
| FwMsg (m : chan_msg) (pl : buffer)
| FwGlobal (pl : buffer)
| FwIO (readfds writefds : Z -> bool) (signal : bool)
| FwSetConnect
| FwHandleConnect (writefds : Z -> bool).

Definition fwd_step (e : fwd_event) (f : fws) : outcome fws :=
  match e with
  | FwMsg m pl => let* s := handle_msg rw m (with_payload pl (fch f)) in Ok (with_fch s f)
  | FwGlobal pl => svr_recv_msg_global_request rw opts (with_fch (with_payload pl (fch f)) f)
  | FwIO rd wr sig => let* s := channelio rw (handle_listeners (listeners f)) rd wr sig (fch f) in Ok (with_fch s f)
  | FwSetConnect => let* (_, s) := set_connect_fds (fch f) in Ok (with_fch s f)
  | FwHandleConnect wr => let* s := handle_connect_fds wr (fch f) in Ok (with_fch s f)
  end.

Fixpoint fwd_run (es : list fwd_event) (f : fws) : outcome fws :=
  match es with [] => Ok f | e :: es => let* f := fwd_step e f in fwd_run es f end.

Lemma inv_handle_msg m (s : chs) : fwd_inv s -> returns fwd_inv (handle_msg rw m s).
Proof.
  intros H. destruct m; cbn [handle_msg].
  - by apply (frame_open _ _ _ _ fwd_frame).
  - by apply (frame_confirmation _ _ _ fwd_frame).
  - by apply (frame_open_failure _ _ _ fwd_frame).
  - by apply (frame_recv_data _ _ _ _ fwd_frame).
  - by apply (frame_window _ _ _ fwd_frame).
  - by apply (frame_eof _ _ _ fwd_frame).
  - by apply (frame_recv_close _ _ _ fwd_frame).
  - by apply (frame_request _ _ _ fwd_frame).
Qed.

Lemma inv_payload pl (s : chs) : fwd_inv s -> fwd_inv (with_payload pl s).
Proof. intros H. apply fwd_inv_ses; [done|]. apply fw_view_pl. Qed.

Lemma finv_step e (f : fws) : finv f -> returns finv (fwd_step e f).
Proof.
  intros [H Ht]. destruct e as [m pl|pl|rd wr sig| |wr]; cbn [fwd_step].
  - eapply returns_bind; [by apply inv_handle_msg, inv_payload|]. by intros s _ Hs.
  - apply finv_global. split; [by apply inv_payload|done].
  - eapply returns_bind; [apply (frame_channelio _ _ _ _ fwd_frame); [|done]|by intros s _ Hs].
    intros s Hs. apply inv_handle_listeners; [|done]. intros l. by apply table_elem.
  - eapply returns_bind; [by apply inv_set_connect_fds|]. by intros [fds s] _ Hs.
  - eapply returns_bind; [by apply inv_handle_connect_fds|]. by intros s _ Hs.
Qed.

Lemma finv_run es : forall (f : fws), finv f -> returns finv (fwd_run es f).
Proof.
  induction es as [|e es IH]; intros f H; cbn [fwd_run]; [done|]. eapply returns_bind; [by apply finv_step|]. intros f1 _ H1. by apply IH.
Qed.

(** A session at its start: nothing listened on, no connection in progress. *)
Record fwd_start (f : fws) : Prop := {
  fst_options : key_options f = ko;
  fst_priv : fs_allowprivport (ses (fch f)) = priv;
  fst_pending : ses_conn_pending (ses (fch f)) = [];
  fst_listeners : listeners f = listeners_initialise;
  fst_log : net_log (world (fch f)) = mknetlog [] [] [];
}.

Lemma finv_start f : fwd_start f -> finv f.
Proof.
  intros [H1 H2 H3 H4 H5]. split.
  - split; rewrite ?H3, ?H5; try done; by constructor.
  - rewrite H4. split; [done|..]; intros [|[|i]] l; done.
Qed.

(** C32: the server listens only where the peer may have it listen. Whatever requests, channel
    messages and rounds of the main loop a session consists of: each address it ever binds is
    bound for a forwarding that neither the options nor the key forbid; a port is one the key
    permits, and below 1024 only for root, or chosen by the kernel after port 0 was permitted;
    unless the option to listen on all addresses is set, it is on the loopback interface; and a
    Unix socket is bound only when no command is forced. *)
Theorem listens_where_permitted es f f' : fwd_start f -> fwd_run es f = Ok f' ->
  Forall (may_listen opts ko priv) (bound (net_log (world (fch f')))).
Proof.
  intros Hf Hrun. pose proof (proj1 (returns_Ok _ _) (finv_run es f (finv_start f Hf)) f' Hrun) as [H _]. apply (fi_bound _ H).
Qed.

(** C33: the server connects only where the peer may have it connect. Whatever a session consists
    of, each address it ever connects to is what a host and port were resolved to that the key's
    permitted destinations contain (any, if it lists none), with forwarding not forbidden; or a
    Unix socket, when no command is forced. *)
Theorem connects_where_permitted es f f' : fwd_start f -> fwd_run es f = Ok f' ->
  Forall (may_connect opts ko (net_log (world (fch f')))) (connected (net_log (world (fch f')))).
Proof.
  intros Hf Hrun. pose proof (proj1 (returns_Ok _ _) (finv_run es f (finv_start f Hf)) f' Hrun) as [H _]. apply (fi_connected _ H).
Qed.
End safety.
