(* ===== verification/ForwardRequests.v ===== *)
(** * Requests to forward

    Asking for a port to be listened on and giving it up again; and giving up a Unix socket,
    which never succeeds. *)

From S2P Require Import Prelude Bytes CString Buffer CircBuffer Packet Channel ChannelLaws ChannelFlow ChannelData ChannelClose.
From S2P Require Import ChannelSafety ChannelMessages ChannelFrame AuthKeys Listener Netio NetioSafety Forward ForwardSafety.

(** ** Looking a listener up *)

Section lookup.
Context {D S W : Type} {SW : Sys W}.

Lemma get_listener_from_spec type (d : D) (matches : D -> D -> outcome bool) (m : Listener D S W -> bool) ls : forall k,
  (forall l, Some l ∈ ls -> ltype l = type -> matches d (typedata l) = Ok (m l)) ->
  get_listener_from k type d matches ls =
    Ok ((fun x => (k + fst x)%nat) <$> list_find (fun o => match o with Some l => (ltype l =? type) && m l | None => false end = true) ls).
Proof.
  induction ls as [|o ls IH]; intros k Hm; [done|]. cbn [get_listener_from].
  assert (IH' := IH (Datatypes.S k) (fun l Hl => Hm l (list_elem_of_further _ _ _ Hl))).
  assert (Hskip : forall (x : bool), x = false -> Ok ((fun x => (Datatypes.S k + fst x)%nat) <$> list_find (fun o => match o with Some l => (ltype l =? type) && m l | None => false end = true) ls) =
    Ok ((fun x => (k + fst x)%nat) <$> ((fun x => (Datatypes.S (fst x), snd x)) <$> list_find (fun o => match o with Some l => (ltype l =? type) && m l | None => false end = true) ls))).
  { intros _ _. f_equal. destruct (list_find _ ls) as [[j y]|]; [|done]. cbn. f_equal. lia. }
  destruct o as [l|]; cbn [list_find].
  - destruct (Z.eqb_spec (ltype l) type) as [Hty|Hty]; cbn [andb].
    + rewrite (Hm l (list_elem_of_here _ _) Hty). cbn [obind]. destruct (m l); cbn [decide].
      * rewrite decide_True by done. cbn. f_equal. f_equal. lia.
      * rewrite decide_False by done. rewrite IH'. by apply (Hskip false).
    + rewrite decide_False by done. rewrite IH'. by apply (Hskip false).
  - rewrite decide_False by done. rewrite IH'. by apply (Hskip false).
Qed.

(** The only listener that matches. *)
Lemma get_listener_only type (d : D) matches (m : Listener D S W -> bool) ls i l :
  (forall l, Some l ∈ ls -> ltype l = type -> matches d (typedata l) = Ok (m l)) ->
  ls !! i = Some (Some l) -> ltype l = type -> m l = true ->
  (forall j l', ls !! j = Some (Some l') -> ltype l' = type -> m l' = true -> j = i) ->
  get_listener type d matches ls = Ok (Some i).
Proof.
  intros Hm Hl Hty Hml Honly. unfold get_listener. rewrite (get_listener_from_spec _ _ _ m) by done. f_equal.
  destruct (list_find _ ls) as [[j o]|] eqn:E.
  - apply list_find_Some in E as (Hj & Ho & _). destruct o as [l'|]; [|done]. apply andb_prop in Ho as [H1%Z.eqb_eq H2]. cbn. f_equal.
    by apply (Honly j l').
  - apply list_find_None in E. rewrite Forall_forall in E. exfalso. apply (E (Some l)); [by eapply list_elem_of_lookup_2|].
    rewrite Hty, Z.eqb_refl. done.
Qed.

Lemma get_listener_none type (d : D) matches (ls : list (option (Listener D S W))) : (forall i l, ls !! i = Some (Some l) -> ltype l <> type) ->
  get_listener type d matches ls = Ok None.
Proof.
  intros Hn. unfold get_listener. rewrite (get_listener_from_spec _ _ _ (fun _ => false)).
  - f_equal. destruct (list_find _ ls) as [[j o]|] eqn:E; [|done]. apply list_find_Some in E as (_ & Ho & _). destruct o; [|done].
    by rewrite andb_false_r in Ho.
  - intros l Hl Hty. apply list_elem_of_lookup in Hl as [i Hi]. by destruct (Hn i l Hi).
Qed.
End lookup.

Section requests.
Context {P W : Type} {FS : FwdSession P} {FL : FwdLaws P} {NW : NetSys W} {NL : NetLaws W}.
Context (rw : Z) (opts : fwd_opts) (chansess : ChanTypes (P := P) (W := W)).

#[local] Instance types : ChanTypes (P := P) (W := W) := svr_chantypes opts chansess.

Abbreviation chs := (chses (P := P) (W := W)).
Abbreviation fws := (fwses (P := P) (W := W)).
Abbreviation table_ok := (table_ok rw opts chansess).
Abbreviation known_listener := (known_listener rw opts chansess).
Abbreviation global := (svr_recv_msg_global_request rw opts).

(** A request is about to be read. *)
Definition asked (bs : bytes) (f : fws) : Prop := idle (ses (fch f)) /\ reading bs (fch f).

Lemma read_from_idle (s s' : chs) : idle (ses s) -> read_from s s' -> idle (ses s').
Proof. intros Hi (pl & Hw & ->). by apply idle_payload. Qed.

Lemma fpr_takes {A} (m : buffer -> outcome (A * buffer)) bs a rest (f : fws) :
  takes m bs a -> asked (bs ++ rest) f -> exists s, fpr (pr m) f = Ok (a, with_fch s f) /\ asked rest (with_fch s f) /\ read_from (fch f) s.
Proof.
  intros Ht [Hi Hr]. destruct (pr_takes _ _ _ _ _ Ht Hr) as (s & Hs & Hr' & Hf). exists s. unfold fpr. rewrite Hs. cbn.
  split; [done|]. split; [|done]. split; [by eapply read_from_idle|done].
Qed.

Lemma read_from_view (s s' : chs) : read_from s s' -> fwd_view (ses s') = fwd_view (ses s) /\ world s' = world s /\ sent (ses s') = sent (ses s) /\ conns s' = conns s.
Proof. intros (pl & _ & ->). cbn. split; [apply fw_view_pl|]. split; [done|]. split; [apply sl_sent_pl|done]. Qed.

(** The state with requests read from it. *)
Definition read_on (f f' : fws) : Prop :=
  listeners f' = listeners f /\ world (fch f') = world (fch f) /\ sent (ses (fch f')) = sent (ses (fch f)) /\ fwd_view (ses (fch f')) = fwd_view (ses (fch f)) /\
  conns (fch f') = conns (fch f).

Lemma read_on_step (f f' : fws) s : read_on f f' -> read_from (fch f') s -> read_on f (with_fch s f').
Proof. intros (H1 & H2 & H3 & H4 & H5) Hr. apply read_from_view in Hr as (R1 & R2 & R3 & R4). unfold read_on. cbn. by rewrite R1, R2, R3, R4. Qed.

Lemma fon_ses_sends m (op : P -> outcome P) (f : fws) : idle (ses (fch f)) -> sends (ses (fch f)) m (op (ses (fch f))) ->
  safe (fun f' => exists p, f' = with_fch (with_ses p (fch f)) f /\ idle p /\ sent p = sent (ses (fch f)) ++ [m]) (fon_ses op f).
Proof.
  intros Hi Hs. unfold fon_ses, on_ses. rewrite obind_assoc. eapply safe_bind; [exact Hs|]. intros p _ (Hi' & _ & Hsent). cbn. by exists p.
Qed.

Lemma send_request_success_ok p : idle p -> sends p [SSH_MSG_REQUEST_SUCCESS] (send_msg_request_success p).
Proof. intros Hi. unfold send_msg_request_success. pwstep putbyte_end. by apply encrypt_filled. Qed.

Lemma send_request_failure_ok p : idle p -> sends p [SSH_MSG_REQUEST_FAILURE] (send_msg_request_failure p).
Proof. intros Hi. unfold send_msg_request_failure. pwstep putbyte_end. by apply encrypt_filled. Qed.

(** The name of the request and whether a reply is wanted. *)
Lemma global_header name rest (f : fws) : zlen name <= MAX_NAME_LEN -> asked (ssh_string name ++ [1] ++ rest) f ->
  exists f1, read_on f f1 /\ asked rest f1 /\
    global f = let* (ret, wantreply, f) :=
                 if noremotefwd opts || negb (svr_pubkey_allows_tcpfwd (key_options f)) then Ok (false, true, f1)
                 else global_request rw opts (name ++ [0]) true f1 in
               if (wantreply : bool) then fon_ses (if (ret : bool) then send_msg_request_success else send_msg_request_failure) f else Ok f.
Proof.
  intros Hn H. unfold global, svr_recv_msg_global_request. assert (MAX_NAME_LEN = 64) as HN by done.
  destruct (fpr_takes _ _ _ _ f (takes_string name ltac:(unfold MAX_STRING_LEN; lia)) H) as (s1 & E1 & H1 & R1).
  unfold pr_string. rewrite E1. cbn [obind].
  destruct (fpr_takes _ _ _ _ _ (takes_bool 1 ltac:(by right)) H1) as (s2 & E2 & H2 & R2). rewrite E2. cbn [obind Z.eqb negb].
  assert (Hon : read_on f (with_fch s2 (with_fch s1 f))) by (eapply read_on_step; [eapply read_on_step; [|exact R1]|exact R2]; done).
  exists (with_fch s2 (with_fch s1 f)). split; [done|]. split; [done|]. rewrite (proj2 (Z.ltb_ge MAX_NAME_LEN (zlen name))) by lia.
  assert (key_options (with_fch s2 (with_fch s1 f)) = key_options f) as ->.
  { destruct Hon as (_ & _ & _ & Hv & _). unfold key_options. unfold fwd_view in Hv. congruence. }
  done.
Qed.

(** The end of a request: nothing but the reply. *)
Definition replied (f : fws) (m : bytes) (f' : fws) : Prop :=
  listeners f' = listeners f /\ world (fch f') = world (fch f) /\ sent (ses (fch f')) = sent (ses (fch f)) ++ [m].

Lemma reply_ok (ret : bool) (f : fws) : idle (ses (fch f)) ->
  safe (fun f' => replied f [if ret then SSH_MSG_REQUEST_SUCCESS else SSH_MSG_REQUEST_FAILURE] f' /\ idle (ses (fch f')))
    (fon_ses (if ret then send_msg_request_success else send_msg_request_failure) f).
Proof.
  intros Hi. eapply safe_mono; [apply (fon_ses_sends [if ret then SSH_MSG_REQUEST_SUCCESS else SSH_MSG_REQUEST_FAILURE]); [done|]|].
  - destruct ret; [by apply send_request_success_ok|by apply send_request_failure_ok].
  - intros f' (p & -> & Hi' & Hs). by split.
Qed.

Lemma known_types i l ls : table_ok ls -> ls !! i = Some (Some l) -> ltype l <> CHANNEL_ID_STREAMLOCALFORWARDED.
Proof.
  intros Ht Hl. destruct (tb_known _ _ _ _ Ht _ _ Hl) as [l addr _ _ -> _ _ _|l addr path _ _ -> _ _ _]; done.
Qed.

Lemma cancel_stream_none path rest (f : fws) : table_ok (listeners f) -> zlen path <= MAX_STRING_LEN -> asked (ssh_string path ++ rest) f ->
  exists f', svr_cancelremotestreamlocal f = Ok (false, f') /\ read_on f f' /\ idle (ses (fch f')).
Proof.
  intros Ht Hl H. unfold svr_cancelremotestreamlocal, pr_string. destruct (fpr_takes _ _ _ _ _ (takes_string path Hl) H) as (s & E & [Hi _] & R).
  rewrite E. cbn [obind]. assert (Hon : read_on f (with_fch s f)) by by eapply read_on_step.
  destruct (_ || _); [by eexists|]. rewrite get_listener_none; [by eexists|]. intros i l Hil. cbn in Hil. by eapply known_types.
Qed.

(** C35: a forwarded Unix socket cannot be given up. Whatever listeners a session has, a request
    "cancel-streamlocal-forward@openssh.com" is answered with SSH_MSG_REQUEST_FAILURE and nothing
    is closed, even right after the request for that path succeeded: the listener is looked up
    under a type, 0x53747265, that no listener has. *)
Theorem streamlocal_never_cancelled path rest (f : fws) : table_ok (listeners f) -> zlen path <= MAX_STRING_LEN ->
  asked (ssh_string (str "cancel-streamlocal-forward@openssh.com") ++ [1] ++ ssh_string path ++ rest) f ->
  safe (replied f [SSH_MSG_REQUEST_FAILURE]) (global f).
Proof.
  intros Ht Hl H. destruct (global_header (str "cancel-streamlocal-forward@openssh.com") _ f ltac:(done) H) as (f1 & (L1 & W1 & S1 & V1 & _) & H1 & ->).
  assert (Hfail : forall f2, read_on f1 f2 -> idle (ses (fch f2)) -> safe (replied f [SSH_MSG_REQUEST_FAILURE]) (fon_ses send_msg_request_failure f2)).
  { intros f2 (L2 & W2 & S2 & V2 & _) Hi. eapply safe_mono; [by apply (reply_ok false)|]. intros f3 [(L3 & W3 & S3) _]. unfold replied. by rewrite L3, W3, S3, L2, W2, S2, L1, W1, S1. }
  destruct (_ || _); cbn [obind]; [apply Hfail; [done|apply H1]|]. unfold global_request.
  replace (strcmp_eq (str "tcpip-forward") (str "cancel-streamlocal-forward@openssh.com" ++ [0])) with false by by vm_compute.
  replace (strcmp_eq (str "cancel-tcpip-forward") (str "cancel-streamlocal-forward@openssh.com" ++ [0])) with false by by vm_compute.
  replace (strcmp_eq (str "streamlocal-forward@openssh.com") (str "cancel-streamlocal-forward@openssh.com" ++ [0])) with false by by vm_compute.
  replace (strcmp_eq (str "cancel-streamlocal-forward@openssh.com") (str "cancel-streamlocal-forward@openssh.com" ++ [0])) with true by by vm_compute.
  destruct (cancel_stream_none path rest f1) as (f2 & -> & Hon & Hi); [by rewrite L1|done|done|]. cbn [obind]. by apply Hfail.
Qed.

(** ** Ports *)

(** A listener for the address [addr] and port [port] of a request. *)
Definition listens_on (addr : bytes) (port : Z) (l : Listener FwdListener chs W) : bool :=
  (listenport (typedata l) =? port) && match request_listenaddr (typedata l) with Some a => strcmp_eq addr a | None => false end.

Lemma matchtcp_known ls l addr port i : table_ok ls -> ls !! i = Some (Some l) ->
  matchtcp (mkfwdlistener None 0 None port (Some addr) None 0 direct None) (typedata l) = Ok (listens_on addr port l).
Proof.
  intros Ht Hl. unfold matchtcp, listens_on. cbn. rewrite Z.eqb_sym.
  destruct (tb_known _ _ _ _ Ht _ _ Hl) as [l a _ _ _ -> _ _|l a path _ _ _ -> _ _]; by destruct (_ =? _).
Qed.

(** Only the listener at [i] is for [addr] and [port]. *)
Definition only_listener (addr : bytes) (port : Z) (i : nat) (ls : list (option (Listener FwdListener chs W))) : Prop :=
  forall j l, ls !! j = Some (Some l) -> ltype l = LISTENER_TYPE_TCPFORWARDED -> listens_on addr port l = true -> j = i.

Lemma cancel_tcp_ok addr port rest i l (f : fws) : table_ok (listeners f) -> zlen addr <= MAX_HOST_LEN -> is_u32 port ->
  listeners f !! i = Some (Some l) -> ltype l = LISTENER_TYPE_TCPFORWARDED -> listens_on (addr ++ [0]) port l = true ->
  only_listener (addr ++ [0]) port i (listeners f) -> asked (ssh_string addr ++ store32h port ++ rest) f ->
  exists f', svr_cancelremotetcp f = Ok (true, f') /\ listeners f' = <[i := None]> (listeners f) /\
    world (fch f') = close_socks (socks l) (world (fch f)) /\ sent (ses (fch f')) = sent (ses (fch f)) /\ idle (ses (fch f')).
Proof.
  intros Ht Hl Hp Hil Hty Hon Honly H. unfold svr_cancelremotetcp, pr_string. unfold MAX_HOST_LEN in Hl.
  destruct (fpr_takes _ _ _ _ f (takes_string addr ltac:(unfold MAX_STRING_LEN; lia)) H) as (s1 & E1 & H1 & R1).
  rewrite E1. cbn [obind]. rewrite (proj2 (Z.ltb_ge MAX_HOST_LEN (zlen addr))) by done.
  destruct (fpr_takes _ _ _ _ _ (takes_int port Hp) H1) as (s2 & E2 & [Hi2 _] & R2). rewrite E2. cbn [obind].
  assert (Hr : read_on f (with_fch s2 (with_fch s1 f))) by (eapply read_on_step; [eapply read_on_step; [|exact R1]|exact R2]; done).
  destruct Hr as (_ & W2 & S2 & _ & _). cbn [listeners with_fch].
  rewrite (get_listener_only _ _ _ (listens_on (addr ++ [0]) port) _ i l); try done.
  - cbn [obind]. unfold fwd_remove_listener, remove_listener. cbn [listeners with_fch]. rewrite Hil. cbn [obind].
    eexists. split; [done|]. cbn. rewrite (tb_index _ _ _ _ Ht _ _ Hil). split; [done|]. cbn in W2, S2. rewrite W2, S2.
    split; [|by split]. destruct (tb_known _ _ _ _ Ht _ _ Hil) as [l a _ -> _ _ _ _|l a path _ _ Hty2 _ _ _]; [done|]. by rewrite Hty in Hty2.
  - intros l' Hl' _. apply list_elem_of_lookup in Hl' as [j Hj]. by eapply matchtcp_known.
Qed.

Context (ko : option PubKeyOptions) (priv : bool).

Abbreviation finv := (finv rw opts chansess ko priv).

(** A listener more, for [addr] and [port], and none less. *)
Definition one_more (addr : bytes) (port : Z) (f f' : fws) (i : nat) (l : Listener FwdListener chs W) : Prop :=
  listeners f' !! i = Some (Some l) /\ ltype l = LISTENER_TYPE_TCPFORWARDED /\ listens_on addr port l = true /\
  (forall j l', listeners f !! j = Some (Some l') -> j <> i) /\
  (forall j l', j <> i -> listeners f' !! j = Some (Some l') <-> listeners f !! j = Some (Some l')).

(** What a request to listen comes to, but for the reply. *)
Definition listen_result (addr : bytes) (port : Z) (f : fws) (x : option (Z * Z) * fws) : Prop :=
  let f' := snd x in finv f' /\ idle (ses (fch f')) /\ sent (ses (fch f')) = sent (ses (fch f)) /\
  match fst x with
  | None => listeners f' = listeners f
  | Some (r, lport) => r = port /\ is_u32 lport /\ exists i l, one_more addr lport f f' i l
  end.

Lemma finv_read (f f' : fws) s : finv f -> read_from (fch f) s -> f' = with_fch s f -> finv f'.
Proof.
  intros [H Ht] (pl & _ & ->) ->. split; [|done]. apply fwd_inv_ses; [done|]. apply fw_view_pl.
Qed.

Lemma strcmp_eq_refl a : strcmp_eq a a = true.
Proof. unfold strcmp_eq. by apply bool_decide_eq_true. Qed.

Lemma remotetcp_listen_ok addr port rest (f : fws) : finv f -> remote_allowed opts ko -> zlen addr <= MAX_STRING_LEN -> is_u32 port ->
  asked (ssh_string addr ++ store32h port ++ rest) f -> safe (listen_result (addr ++ [0]) port f) (remotetcp_listen rw opts f).
Proof.
  intros Hf Hr Hl Hp H. unfold remotetcp_listen, pr_string.
  destruct (fpr_takes _ _ _ _ f (takes_string addr Hl) H) as (s1 & E1 & H1 & R1). rewrite E1. cbn [obind].
  pose proof (finv_read f _ s1 Hf R1 eq_refl) as Hf1. pose proof (read_from_view _ _ R1) as (_ & _ & S1 & _).
  destruct (_ <? _); [cbn; split; [done|]; split; [apply H1|done]|].
  destruct (fpr_takes _ _ _ _ _ (takes_int port Hp) H1) as (s2 & E2 & [Hi2 _] & R2). rewrite E2. cbn [obind].
  set (f2 := with_fch s2 (with_fch s1 f)) in *. pose proof (finv_read _ f2 s2 Hf1 R2 eq_refl) as Hf2. pose proof (read_from_view _ _ R2) as (_ & _ & S2 & _).
  assert (Hs2 : sent (ses (fch f2)) = sent (ses (fch f))) by (cbn in *; congruence).
  destruct (listen_port_ok port f2) eqn:Hok; cbn [negb]; [|done].
  destruct (svr_pubkey_allows_remote_tcpfwd (key_options f2) (addr ++ [0]) port) eqn:Hal; cbn [negb]; [|done].
  destruct (granted_port rw opts chansess ko priv f2 (addr ++ [0]) port Hf2 ltac:(unfold is_u32 in *; lia) Hok Hal) as [_ Hpp].
  destruct (remote_tcpinfo_ok opts (addr ++ [0]) port) as (D1 & D2 & D3 & D4 & D5).
  eapply safe_bind; [apply (listen_tcpfwd_ok rw opts chansess ko priv f2 (remote_tcpinfo opts (addr ++ [0]) port)); try done|].
  intros [o f3] _ (Hf3 & (w & Hw) & Ho). assert (Hk : idle (ses (fch f3)) /\ sent (ses (fch f3)) = sent (ses (fch f))) by (rewrite Hw; cbn; by split).
  destruct o as [i|]; [|cbn; destruct Hk; by split]. destruct Ho as (l & Hli & Hd & Hkl & Hnew & Hold). rewrite Hli.
  destruct Hf3 as [Hf3 Ht3]. pose proof (tb_socks _ _ _ _ Ht3 _ _ Hli) as [Hne Hfd]. destruct (socks l) as [|sock fds] eqn:Hs; [done|].
  eapply safe_bind; [apply get_sock_port_safe|]. intros lport _ _. cbn [safe listen_result fst snd]. set (l' := set_typedata _ l).
  assert (Htcp : ltype l = LISTENER_TYPE_TCPFORWARDED).
  { destruct Hkl as [l addr' _ _ Hty _ _ _|l addr' path _ _ _ _ Hsp _]; [done|]. by rewrite Hd in Hsp. }
  split.
  { split; [done|]. apply table_put; [done|exact (tb_index _ _ _ _ Ht3 _ _ Hli)|cbn; rewrite Hs; by split|].
    destruct Hkl as [l addr' Ha Hc _ Hq Hch Hfw|l addr' path _ _ Hty _ _ _]; [by eapply known_tcp|by rewrite Htcp in Hty]. }
  split; [apply Hk|]. split; [apply Hk|]. split; [done|]. split; [apply u32_range|]. exists i, l'.
  split; [apply list_lookup_insert_eq; by eapply lookup_lt_Some|]. split; [done|]. split.
  { unfold listens_on. cbn. rewrite Hd, Z.eqb_refl. cbn. apply strcmp_eq_refl. }
  split; [done|]. intros j l0 Hj. cbn. rewrite list_lookup_insert_ne by done. by apply Hold.
Qed.

(** The reply to a request to listen; the port is told only when the peer left it open. *)
Definition listen_reply (ret : option (Z * Z)) : bytes :=
  match ret with
  | Some (port, lport) => SSH_MSG_REQUEST_SUCCESS :: if port =? 0 then store32h lport else []
  | None => [SSH_MSG_REQUEST_FAILURE]
  end.

Lemma listen_reply_sends ret p : idle p ->
  sends p (listen_reply ret)
    (let* p := match ret with
               | Some (port, listenport) =>
                   let* p := pw (fun b => buf_putbyte b SSH_MSG_REQUEST_SUCCESS) p in
                   if port =? 0 then pw (fun b => buf_putint b listenport) p else Ok p
               | None => pw (fun b => buf_putbyte b SSH_MSG_REQUEST_FAILURE) p
               end in
     ses_encrypt_packet p).
Proof.
  intros Hi. destruct ret as [[port lport]|]; cbn [listen_reply].
  - destruct (port =? 0).
    + pwstep putbyte_end. pwstep putint_end. by apply encrypt_filled.
    + pwstep putbyte_end. by apply encrypt_filled.
  - pwstep putbyte_end. by apply encrypt_filled.
Qed.

Lemma global_listen addr port (f : fws) : finv f -> remote_allowed opts ko -> zlen addr <= MAX_STRING_LEN -> is_u32 port ->
  asked (ssh_string (str "tcpip-forward") ++ [1] ++ ssh_string addr ++ store32h port) f ->
  safe (fun f' => exists ret, idle (ses (fch f')) /\ sent (ses (fch f')) = sent (ses (fch f)) ++ [listen_reply ret] /\ table_ok (listeners f') /\
      match ret with
      | None => listeners f' = listeners f
      | Some (r, lport) => r = port /\ is_u32 lport /\ exists i l, one_more (addr ++ [0]) lport f f' i l
      end) (global f).
Proof.
  intros Hf Hr Hl Hp H. destruct (global_header (str "tcpip-forward") _ f ltac:(done) H) as (f1 & Hon & H1 & ->).
  pose proof (finv_options rw opts chansess ko priv f Hf) as Hko. rewrite Hko. destruct Hr as [Hn Ht]. rewrite Hn, Ht. cbn [negb orb].
  unfold global_request. replace (strcmp_eq (str "tcpip-forward") (str "tcpip-forward" ++ [0])) with true by by vm_compute.
  assert (Hf1 : finv f1).
  { destruct Hf as [Hi Htb], Hon as (L1 & W1 & S1 & V1 & C1). split; [|by rewrite L1]. apply (fwd_inv_quiet opts ko priv (fch f)); try done.
    unfold quiet_world. by rewrite W1. }
  destruct Hon as (L1 & _ & S1 & _). rewrite <- (app_nil_r (store32h port)) in H1. unfold svr_remotetcpreq. rewrite !obind_assoc. eapply safe_bind.
  { by apply (remotetcp_listen_ok addr port [] f1). }
  intros [ret f2] _ (Hf2 & Hi2 & S2 & Hret). cbn [fst snd] in *. cbn [obind]. rewrite !obind_assoc.
  eapply safe_bind; [by apply (fon_ses_sends (listen_reply ret)); [|apply listen_reply_sends]|].
  intros f3 _ (p3 & -> & Hi3 & S3). cbn [obind safe]. exists ret.
  split; [done|]. split; [cbn; congruence|]. split; [apply Hf2|]. destruct ret as [[r lport]|]; [|cbn; congruence].
  destruct Hret as (-> & Hlp & i & l & M1 & M2 & M3 & M4 & M5). split; [done|]. split; [done|]. exists i, l. unfold one_more.
  split; [done|]. split; [done|]. split; [done|]. rewrite <- L1. by split.
Qed.

Context (CQ : chansess_quiet chansess).

Lemma safe_and {A} (Q R : A -> Prop) (m : outcome A) : safe Q m -> returns R m -> safe (fun a => Q a /\ R a) m.
Proof. by destruct m. Qed.

Definition same_listeners (f f' : fws) : Prop := forall j l, listeners f' !! j = Some (Some l) <-> listeners f !! j = Some (Some l).

(** What follows the granting of a request for [addr] and [port]: the peer gives it up again. *)
Definition given_up (addr : bytes) (port : Z) (l : Listener FwdListener chs W) (f f1 : fws) : Prop :=
  forall pl, wf pl -> unread pl = ssh_string (str "cancel-tcpip-forward") ++ [1] ++ ssh_string addr ++ store32h port ->
  (forall j l', listeners f !! j = Some (Some l') -> ltype l' = LISTENER_TYPE_TCPFORWARDED -> listens_on (addr ++ [0]) port l' = false) ->
  safe (fun f2 => same_listeners f f2 /\ sent (ses (fch f2)) = sent (ses (fch f1)) ++ [[SSH_MSG_REQUEST_SUCCESS]] /\
          world (fch f2) = close_socks (socks l) (world (fch f1)))
    (global (with_fch (with_payload pl (fch f1)) f1)).

Lemma cancel_granted addr port i l (f f1 : fws) : finv f1 -> idle (ses (fch f1)) -> remote_allowed opts ko -> zlen addr <= MAX_HOST_LEN -> is_u32 port ->
  one_more (addr ++ [0]) port f f1 i l -> given_up addr port l f f1.
Proof.
  intros Hf Hi [Hn Hal] Hl Hp (M1 & M2 & M3 & M4 & M5) pl Hw Hu Hno. set (f' := with_fch (with_payload pl (fch f1)) f1).
  assert (Hask : asked (ssh_string (str "cancel-tcpip-forward") ++ [1] ++ ssh_string addr ++ store32h port ++ []) f').
  { split; [by apply idle_payload|]. exists pl. cbn. rewrite sl_pl_pl. split; [done|]. split; [done|]. by rewrite app_nil_r. }
  destruct (global_header (str "cancel-tcpip-forward") _ f' ltac:(done) Hask) as (f2 & (L2 & W2 & S2 & _) & H2 & ->).
  assert (key_options f' = ko) as Hko.
  { rewrite <- (finv_options rw opts chansess ko priv f1 Hf). unfold key_options. cbn. pose proof (fw_view_pl pl (ses (fch f1))) as Hv. unfold fwd_view in Hv. congruence. }
  rewrite Hko, Hn, Hal. cbn [negb orb]. unfold global_request.
  replace (strcmp_eq (str "tcpip-forward") (str "cancel-tcpip-forward" ++ [0])) with false by by vm_compute.
  replace (strcmp_eq (str "cancel-tcpip-forward") (str "cancel-tcpip-forward" ++ [0])) with true by by vm_compute.
  destruct (cancel_tcp_ok addr port [] i l f2) as (f3 & -> & L3 & W3 & S3 & Hi3); try done.
  { rewrite L2. apply Hf. }
  { by rewrite L2. }
  { intros j l' Hj Hty Hon. rewrite L2 in Hj. destruct (decide (j = i)) as [|Hne]; [done|]. apply M5 in Hj; [|done]. by rewrite (Hno j l' Hj Hty) in Hon. }
  cbn [obind]. eapply safe_mono; [by apply (reply_ok true)|]. intros f4 [(L4 & W4 & S4) _].
  assert (sent (ses (fch f')) = sent (ses (fch f1))) as S5 by apply sl_sent_pl.
  split; [|split; [congruence|rewrite W4, W3, W2; done]]. intros j l'. rewrite L4, L3, L2. cbn. destruct (decide (j = i)) as [->|Hne].
  - rewrite list_lookup_insert_eq by (by eapply lookup_lt_Some). split; [done|]. intros Hj. by destruct (M4 _ _ Hj).
  - rewrite list_lookup_insert_ne by done. by apply M5.
Qed.

(** What a request to listen comes to: refused, or granted with a listener more that can be
    given up. *)
Definition listen_outcome (addr : bytes) (port : Z) (f f1 : fws) : Prop :=
  (listeners f1 = listeners f /\ sent (ses (fch f1)) = sent (ses (fch f)) ++ [[SSH_MSG_REQUEST_FAILURE]]) \/
  (exists p i l, one_more (addr ++ [0]) p f f1 i l /\
     sent (ses (fch f1)) = sent (ses (fch f)) ++ [SSH_MSG_REQUEST_SUCCESS :: if port =? 0 then store32h p else []] /\
     given_up addr p l f f1).

(** C34: what is asked to be forwarded can be given up again. A request to listen on an address
    and port is either refused, the listeners as they were, or granted with one listener more;
    the reply names the port exactly when it was left open. A request to give up that address
    and port, if no earlier listener has them, is then granted too, closes the sockets of that
    listener and no others, and leaves the listeners of before the first request. *)
Theorem forward_then_cancel addr port (f : fws) : finv f -> remote_allowed opts ko -> zlen addr <= MAX_HOST_LEN -> is_u32 port ->
  asked (ssh_string (str "tcpip-forward") ++ [1] ++ ssh_string addr ++ store32h port) f ->
  safe (listen_outcome addr port f) (global f).
Proof.
  intros Hf Hr Hl Hp H. eapply safe_mono.
  { apply safe_and; [apply (global_listen addr port f Hf Hr ltac:(unfold MAX_HOST_LEN, MAX_STRING_LEN in *; lia) Hp H)|].
    by apply (finv_global rw opts chansess CQ ko priv). }
  intros f1 [(ret & Hi & Hs & _ & Hret) Hf1]. destruct ret as [[r p]|]; [right|by left].
  destruct Hret as (-> & Hp1 & i & l & Hm). exists p, i, l. split; [done|]. split; [done|]. by eapply cancel_granted.
Qed.
End requests.
