(* ===== verification/ForwardChannels.v ===== *)
(** * Forwarding is safe

    The types of channels that are forwarded keep the promises the channels ask of their types,
    and so do the acceptors of the listeners: the safety of the channels is that of a server
    that forwards. *)

From S2P Require Import Prelude Bytes CString Buffer CircBuffer Packet SessionData Channel ChannelLaws ChannelFlow ChannelData ChannelClose.
From S2P Require Import ChannelSafety ChannelMessages ChannelFrame AuthKeys Listener Netio NetioSafety Forward ForwardSafety ForwardRequests.

Lemma cstr_zlen l : zlen (cstr l) <= zlen l.
Proof. induction l as [|b l IH]; [done|]. cbn. destruct (b =? 0); rewrite ?zlen_cons, ?zlen_nil; pose proof (zlen_nonneg l); lia. Qed.

Lemma utoa_bytes n : 0 <= n -> bytes_ok (utoa n).
Proof. intros Hn. eapply Forall_impl; [by apply digits_ok|]. unfold is_byte. cbn. lia. Qed.

Section channels.
Context {P W : Type} {FS : FwdSession P} {FL : FwdLaws P} {NW : NetSys W} {NL : NetLaws W} {SW : SysLaws W}.
Context (rw : Z) (Hrw : 0 < rw <= MAX_RECV_WINDOW) (opts : fwd_opts) (chansess : ChanTypes (P := P) (W := W)).

#[local] Instance types : ChanTypes (P := P) (W := W) := svr_chantypes opts chansess.

Abbreviation chs := (chses (P := P) (W := W)).
Abbreviation fws := (fwses (P := P) (W := W)).
Abbreviation st_ok := (st_ok rw).
Abbreviation ready := (ready rw).
Abbreviation table_ok := (table_ok rw opts chansess).

(** What the channels ask of the type of sessions. *)
Record chansess_laws : Prop := {
  cs_close h c p : ct_closehandler (ChanTypes := chansess) svrchansess = Some h -> type c = svrchansess -> typed c -> idle p ->
    safe (fun p' => exists l, talked p l p') (h c p);
  cs_check f c : ct_check_close (ChanTypes := chansess) svrchansess = Some f -> type c = svrchansess -> typed c -> exists b a, f c = Ok (with_flushing b c, a);
  cs_cleanup c l : type c = svrchansess -> typed c -> (forall e, e ∈ l -> child_chansess e = Some (index c) -> 0 < child_pid e) ->
    exists f, ct_cleanup (ChanTypes := chansess) svrchansess = Some f /\ f c l = Ok (forget_child (index c) l);
  cs_init h i c (s : chs) : ct_inithandler (ChanTypes := chansess) svrchansess = Some h -> st_ok_but rw (Some i) s ->
    (exists pl, ses_payload (ses s) = Some pl /\ wf pl) -> channels s !! i = Some (Some c) -> type c = svrchansess -> ctypedata c = None ->
    conn_pending c = None -> errfd c = FD_CLOSED -> await_open c = false ->
    safe (fun '(ret, s') => ready s' /\ has_chan i s' /\ ret < 4294967296) (h i s);
  cs_inits : ct_inithandler (ChanTypes := chansess) svrchansess <> None;
  cs_req h i c (s : chs) : channels s !! i = Some (Some c) -> type c = svrchansess -> ct_reqhandler (ChanTypes := chansess) svrchansess = Some h ->
    ready s -> req_ok c -> safe st_ok (h i s);
}.

Context (CL : chansess_laws).

Lemma ready_string (s : chs) : ready s -> safe (fun '(t, n, s') => (bytes_ok t /\ zlen t = n + 1) /\ ready s' /\ channels s' = channels s) (pr_string s).
Proof.
  intros Hr. eapply safe_mono; [apply (pr_ready rw (fun tn => bytes_ok (fst tn) /\ zlen (fst tn) = snd tn + 1)); [done|]|].
  - intros b Hb. eapply safe_mono; [apply safe_split; split; [by apply buf_getstring_post|apply noassert_getstring]|].
    intros [[t n] b'] (? & ? & ? & ?). by split.
  - intros [[t n] s'] (H1 & H2 & H3 & _). by split.
Qed.

Lemma ready_ses_ok (s : chs) : ready s -> ses_ok (ses s).
Proof. intros [Hok _]. apply (so_idle _ _ Hok). Qed.

Lemma permit_open_safe l host port : Forall (fun e => permit_host e <> None) l -> safe (fun _ => True) (permit_open_match l host port).
Proof. induction 1 as [|e l He _ IH]; [done|]. cbn. destruct (permit_host e); [|done]. by destruct (_ && _). Qed.

Lemma allows_local_safe o host port : hosts_named o -> safe (fun _ => True) (svr_pubkey_allows_local_tcpfwd o host port).
Proof.
  destruct o as [o|]; [|done]. cbn. intros Ho. destruct (permit_open_destinations o) as [l|]; [|done]. by apply permit_open_safe.
Qed.

(** ** Starting a connection *)

Lemma idle_set_conns l p : idle p -> Forall (fun kc => err_short (snd kc)) l -> idle (ses_set_conn_pending l p).
Proof. intros [Hok Hb] Hl. split; [by apply fw_ok_set|]. by rewrite fw_wp_set. Qed.

Lemma payload_set_conns l p : payload_ok p -> payload_ok (ses_set_conn_pending l p).
Proof. unfold payload_ok. by rewrite fw_pl_set. Qed.

Lemma start_connecting i c (s : chs) w conn : ready s -> channels s !! i = Some (Some c) ->
  conn_pending c = None -> errfd c = FD_CLOSED -> await_open c = false -> type c <> svrchansess -> err_short conn ->
  safe (fun '(ret, s') => ready s' /\ has_chan i s' /\ ret < 4294967296)
    (channel_connecting i (fresh_conn s) (list_append_conn (fresh_conn s) conn (ChannelConnectDone i) (with_world w s))).
Proof.
  intros [Hok (pl & Hpl & Hw)] Hc Hcp He Ha Hns Herr. unfold channel_connecting. set (s1 := list_append_conn _ _ _ _).
  rewrite (chan_at i c s1) by done. cbn [obind safe].
  set (p := ses_set_conn_pending (ses_conn_pending (ses s) ++ [(fresh_conn s, conn)]) (ses s)).
  assert (Hst : st_ok (with_ses p (with_world w s))).
  { apply st_ses; [by destruct Hok; split| |by apply payload_set_conns, Hok]. apply idle_set_conns; [apply Hok|].
    apply Forall_app. split; [apply fw_ok_text, (so_idle _ _ Hok)|by apply Forall_singleton]. }
  assert (Heq : put_chan i (with_conn_pending (Some (fresh_conn s)) c) s1 =
    with_conns (<[fresh_conn s := ChannelConnectDone i]> (conns s)) (put_chan i (with_conn_pending (Some (fresh_conn s)) c) (with_ses p (with_world w s)))) by done.
  rewrite Heq. split; [|split; [|done]].
  - split; [apply (st_connect rw i (fresh_conn s) c (with_ses p (with_world w s))); try done; apply (fresh_conn_new s)|].
    exists pl. split; [|done]. cbn. subst p. by rewrite fw_pl_set.
  - eexists. cbn. apply list_lookup_insert_eq. by eapply lookup_lt_Some.
Qed.

Lemma prohibited_ok i c (s s0 : chs) : ready s -> channels s = channels s0 -> channels s0 !! i = Some (Some c) ->
  safe (fun '(ret, s') => ready s' /\ has_chan i s' /\ ret < 4294967296) (Ok (SSH_OPEN_ADMINISTRATIVELY_PROHIBITED, s)).
Proof. intros Hr Hch Hc. split; [done|]. split; [exists c; by rewrite Hch|done]. Qed.

Lemma newtcpdirect_ok i c (s : chs) : ready s -> channels s !! i = Some (Some c) ->
  conn_pending c = None -> errfd c = FD_CLOSED -> await_open c = false -> type c <> svrchansess ->
  safe (fun '(ret, s') => ready s' /\ has_chan i s' /\ ret < 4294967296) (newtcpdirect opts i s).
Proof.
  intros Hr Hc Hcp He Ha Hns. unfold newtcpdirect. destruct (_ || _); [by eapply prohibited_ok|].
  eapply safe_bind; [by apply ready_string|]. intros [[host len] s1] _ ((Hh & Hlen) & Hr1 & C1). destruct (Z.ltb_spec MAX_HOST_LEN len); [by eapply prohibited_ok|].
  eapply safe_bind; [by apply getint_ready|]. intros [port s2] _ (Hport & Hr2 & C2 & _). rewrite C1 in C2.
  eapply safe_bind; [by apply ready_string|]. intros [[orig len2] s3] _ (_ & Hr3 & C3). rewrite C2 in C3. destruct (_ <? _); [by eapply prohibited_ok|].
  eapply safe_bind; [by apply getint_ready|]. intros [oport s4] _ (_ & Hr4 & C4 & _). rewrite C3 in C4. destruct (_ || _); [by eapply prohibited_ok|].
  eapply safe_bind; [apply allows_local_safe, fw_ok_options, ready_ses_ok; exact Hr4|]. intros al _ _. destruct al; cbn [negb]; [|by eapply prohibited_ok].
  unfold connect_remote. destruct (sys_getaddrinfo _ _ _ _) as [res w] eqn:E. apply (start_connecting i c s4); try done; [by rewrite C4|].
  destruct res as [gai|l]; [|done]. cbn. apply resolve_error_short; [by apply cstr_bytes|apply utoa_bytes; unfold is_u32 in *; lia|by eapply nl_gai_text].
Qed.

Lemma newstreamlocal_ok i c (s : chs) : ready s -> channels s !! i = Some (Some c) ->
  conn_pending c = None -> errfd c = FD_CLOSED -> await_open c = false -> type c <> svrchansess ->
  safe (fun '(ret, s') => ready s' /\ has_chan i s' /\ ret < 4294967296) (newstreamlocal opts i s).
Proof.
  intros Hr Hc Hcp He Ha Hns. unfold newstreamlocal. destruct (has_forced_command _ _); [by eapply prohibited_ok|]. destruct (_ || _); [by eapply prohibited_ok|].
  eapply safe_bind; [by apply ready_string|]. intros [[host len] s1] _ (_ & Hr1 & C1). destruct (_ <? _); [by eapply prohibited_ok|].
  unfold connect_streamlocal. rewrite <- C1 in Hc. pose proof (start_connecting i c s1 (world s1)) as H.
  replace (with_world (world s1) s1) with s1 in H by by destruct s1. apply H; try done. destruct (_ <=? _); [|done]. split; [by apply bytes_check|done].
Qed.

Lemma fwd_type_laws : type_laws rw.
Proof.
  split.
  - split.
    + intros c h p. cbn. destruct (Z.eqb_spec (type c) svrchansess) as [E|]; [rewrite E|done]. intros. by apply (cs_close CL).
    + intros c f. cbn. destruct (Z.eqb_spec (type c) svrchansess) as [E|]; [rewrite E|done]. intros. by apply (cs_check CL).
    + intros c l Ht Hl. cbn. destruct (Z.eqb_spec (type c) svrchansess) as [E|]; [rewrite E|done].
      by destruct (cs_cleanup CL c l E Ht Hl) as (f & -> & ->).
  - intros ty h i c s. cbn. destruct (Z.eqb_spec ty svr_chan_tcpdirect) as [->|].
    { intros [= <-] ? ? ? Hty. assert (type c <> svrchansess) by by rewrite Hty. intros. apply (newtcpdirect_ok _ c); try done. split; [|done].
      by apply (st_made rw i c); [..|apply typed_other]. }
    destruct (Z.eqb_spec ty svr_chan_streamlocal) as [->|].
    { intros [= <-] ? ? ? Hty. assert (type c <> svrchansess) by by rewrite Hty. intros. apply (newstreamlocal_ok _ c); try done. split; [|done].
      by apply (st_made rw i c); [..|apply typed_other]. }
    destruct (Z.eqb_spec ty svrchansess) as [->|]; [|done]. intros. by apply (cs_init CL h i c); auto.
  - intros ty nm Hin. cbn. repeat (apply elem_of_cons in Hin as [[= -> ->]|Hin]); [|done..|by apply elem_of_nil in Hin]. intros Hn. by destruct (cs_inits CL).
  - intros i h c s Hc. cbn. destruct (Z.eqb_spec (type c) svrchansess) as [E|]; [rewrite E|done]. intros. by apply (cs_req CL h i c).
  - intros ty. cbn. destruct (ty =? svr_chan_tcpdirect); [by split; [apply bytes_check|]|]. destruct (ty =? svr_chan_streamlocal); [by split; [apply bytes_check|]|].
    destruct (ty =? svr_chan_tcpremote); [by split; [apply bytes_check|]|]. destruct (ty =? svr_chan_streamlocalremote); by split; [apply bytes_check|].
Qed.

(** ** Accepting *)

Lemma st_world w (s : chs) : st_ok s -> st_ok (with_world w s).
Proof. intros []. by split. Qed.

Definition listener_text (l : Listener FwdListener chs W) : Prop :=
  match request_listenaddr (typedata l) with Some a => bytes_ok a /\ zlen a <= 300 | None => False end.

Lemma put_cstr_ok (p0 p : P) bs x : filled p0 bs p -> bytes_ok x -> zlen x <= 1024 -> zlen bs <= 8000 ->
  exists p', put_cstr x p = Ok p' /\ filled p0 (bs ++ ssh_string (cstr x)) p'.
Proof.
  intros Hf Hx Hl Hb. unfold put_cstr. pose proof (cstr_zlen x). pose proof (cstr_bytes x Hx). pwstep putstring_end. by eexists.
Qed.

Lemma tcp_acceptor_safe d sock (s : chs) : st_ok s -> (match request_listenaddr d with Some a => bytes_ok a /\ zlen a <= 300 | None => False end) ->
  fwd_type d = forwarded -> chantype d <> svrchansess -> safe st_ok (tcp_acceptor rw d sock s).
Proof.
  intros Hok Hd Hf Hns. unfold tcp_acceptor. destruct (sys_accept sock (world s)) as [r w]. apply (st_world w) in Hok.
  destruct r as [[fd sa]|]; [|done]. destruct (sys_getnameinfo sa) as [[ip port]|] eqn:Hn; [|by apply st_world].
  eapply safe_bind; [by apply (open_init_ok rw Hrw fwd_type_laws)|]. intros [ok s1] _ Ho. destruct ok; [|subst s1; by apply st_world].
  rewrite Hf. destruct (request_listenaddr d) as [addr|]; [|done]. destruct Hd as [Hb Hl]. apply nl_numeric_text in Hn as [Hip Hipl].
  change (default (str "localhost") (Some addr)) with addr.
  eapply (opening_sent _ _ _ (ssh_string (cstr addr) ++ store32h (listenport d) ++ ssh_string (cstr ip) ++ store32h (u32 (atol port)))); [exact Ho|].
  intros p0 bs p Hfill Hbs. cbv beta. destruct (put_cstr_ok p0 p bs addr Hfill Hb) as (p1 & -> & H1); [lia|lia|]. cbn [obind].
  pose proof (cstr_zlen addr). pose proof (cstr_zlen ip). pwstep putint_end.
  match goal with H : filled p0 _ ?q |- context [put_cstr ip ?q] => destruct (put_cstr_ok p0 q _ ip H Hip) as (p3 & -> & H3) end.
  { lia. } { room. }
  cbn [obind]. pwstep putint_end. eexists. split; [done|]. by rewrite <- !app_assoc in *.
Qed.

Lemma stream_acceptor_safe d sock (s : chs) : st_ok s -> (match request_listenaddr d with Some a => bytes_ok a /\ zlen a <= 300 | None => False end) ->
  chantype d <> svrchansess -> safe st_ok (streamlocal_acceptor rw d sock s).
Proof.
  intros Hok Hd Hns. unfold streamlocal_acceptor. destruct (sys_accept sock (world s)) as [r w]. apply (st_world w) in Hok.
  destruct r as [[fd sa]|]; [|done].
  eapply safe_bind; [by apply (open_init_ok rw Hrw fwd_type_laws)|]. intros [ok s1] _ Ho. destruct ok; [|subst s1; by apply st_world].
  destruct (request_listenaddr d) as [addr|]; [|done]. destruct Hd as [Hb Hl].
  eapply (opening_sent _ _ _ (ssh_string (cstr addr) ++ ssh_string [])); [exact Ho|].
  intros p0 bs p Hfill Hbs. cbv beta. destruct (put_cstr_ok p0 p bs addr Hfill Hb) as (p1 & -> & H1); [lia|lia|]. cbn [obind].
  pose proof (cstr_zlen addr). assert (Hnil : bytes_ok []) by constructor. pwstep putstring_end. eexists. split; [done|]. by rewrite <- !app_assoc in *.
Qed.

Lemma accept_socks_safe l fds rd (s : chs) : known_listener rw opts chansess l -> listener_text l -> st_ok s -> safe st_ok (accept_socks l fds rd s).
Proof.
  intros Hk Ht. revert s. induction fds as [|fd fds IH]; intros s Hok; cbn [accept_socks]; [done|].
  eapply (safe_bind st_ok); [|intros s1 _ H1; by apply IH]. destruct (rd fd); [|done].
  destruct Hk as [l addr -> _ _ _ Hct Hf|l addr path -> _ _ _ _ Hct]; [apply tcp_acceptor_safe|apply stream_acceptor_safe]; (done || by rewrite Hct).
Qed.

Lemma handle_listeners_safe ls rd (s : chs) : (forall l, Some l ∈ ls -> known_listener rw opts chansess l /\ listener_text l) -> st_ok s ->
  safe st_ok (handle_listeners ls rd s).
Proof.
  revert s. induction ls as [|o ls IH]; intros s Hk Hok; cbn [handle_listeners]; [done|].
  eapply (safe_bind st_ok); [|intros s1 _ H1; apply IH; [|done]; intros l Hl; apply Hk; by apply list_elem_of_further].
  destruct o as [l|]; [|done]. destruct (Hk l (list_elem_of_here _ _)). by apply accept_socks_safe.
Qed.

(** ** Connections in progress *)

Context (CQ : chansess_quiet chansess) (ko : option PubKeyOptions) (priv : bool).

Abbreviation fwd_inv := (fwd_inv opts ko priv).

(** Connections do not vanish while the channels work. *)
Definition has_keys (K : list nat) (s : chs) : Prop := K ⊆ map fst (ses_conn_pending (ses s)).

Lemma quiet_pending (p q : P) : quiet_ses p q -> ses_conn_pending q = ses_conn_pending p.
Proof. intros H. unfold quiet_ses, fwd_view in H. congruence. Qed.

Lemma keys_append K k c cb (s : chs) : has_keys K s -> has_keys K (list_append_conn k c cb s).
Proof.
  intros H. unfold has_keys. cbn. pose proof (fw_view_set (ses_conn_pending (ses s) ++ [(k, c)]) (ses s)) as Hv. unfold fwd_view in Hv.
  injection Hv as -> _ _. rewrite map_app. set_solver.
Qed.

Lemma keys_quiet K (s s' : chs) : has_keys K s -> quiet_ses (ses s) (ses s') -> has_keys K s'.
Proof. intros H Hq. unfold has_keys. by rewrite (quiet_pending _ _ Hq). Qed.

Lemma keys_pr K {A} (f : buffer -> outcome (A * buffer)) (s : chs) : has_keys K s -> returns (fun x => has_keys K (snd x)) (pr f s).
Proof.
  intros H. unfold pr. destruct (ses_payload (ses s)); [|done]. eapply returns_bind; [apply returns_true|]. intros [a b1] _ _.
  eapply keys_quiet; [exact H|]. apply fw_view_pl.
Qed.

Ltac kp := repeat
  lazymatch goal with
  | |- returns _ (obind (pr _ _) _) => eapply returns_bind; [by apply keys_pr|]; let x := fresh "x" in intros x _ ?; osplit x; cbn [snd fst] in *
  | |- returns _ (if ?c then _ else _) => destruct c; [done|]
  end.

Lemma keys_connecting K i k (s : chs) : has_keys K s -> returns (fun x => has_keys K (snd x)) (channel_connecting i k s).
Proof. intros H. unfold channel_connecting. eapply returns_bind; [apply returns_true|]. by intros c _ _. Qed.

Lemma keys_newtcpdirect K i (s : chs) : has_keys K s -> returns (fun x => has_keys K (snd x)) (newtcpdirect opts i s).
Proof.
  intros H. unfold newtcpdirect, pr_string. kp. eapply returns_bind; [apply returns_true|]. intros al _ _. destruct al; [|done]. cbn [negb].
  unfold connect_remote. destruct (sys_getaddrinfo _ _ _ _) as [res w]. apply keys_connecting, keys_append. exact H3.
Qed.

Lemma keys_newstreamlocal K i (s : chs) : has_keys K s -> returns (fun x => has_keys K (snd x)) (newstreamlocal opts i s).
Proof. intros H. unfold newstreamlocal, pr_string. kp. unfold connect_streamlocal. by apply keys_connecting, keys_append. Qed.

Lemma keys_frame K : frame_laws quiet_ses quiet_world (has_keys K).
Proof.
  pose proof (fwd_frame opts chansess CQ ko priv) as F. split;
    [apply (fl_wp _ _ _ F)|apply (fl_pl _ _ _ F)|apply (fl_encrypt _ _ _ F)|apply (fl_close_handler _ _ _ F)|apply (fl_read _ _ _ F)
    |apply (fl_writev _ _ _ F)|apply (fl_close _ _ _ F)|apply (fl_shutdown _ _ _ F)|apply (fl_priority _ _ _ F)|..]; try (intros; done).
  - intros p s Hs Hq. by eapply keys_quiet.
  - intros ty h i s Hh Hs. cbn in Hh. destruct (ty =? svr_chan_tcpdirect); [injection Hh as <-; by apply keys_newtcpdirect|].
    destruct (ty =? svr_chan_streamlocal); [injection Hh as <-; by apply keys_newstreamlocal|].
    destruct (ty =? svrchansess); [|done]. eapply returns_mono; [by eapply (cq_init _ CQ)|]. intros x (? & _). by eapply keys_quiet.
  - intros ty h i s Hh Hs. cbn in Hh. destruct (ty =? svrchansess); [|done].
    eapply returns_mono; [by apply (cq_req _ CQ _ _ _ _ Hh)|]. intros x (? & _). by eapply keys_quiet.
Qed.

Lemma keys_connect_finished K k r (s : chs) : has_keys K s -> returns (has_keys K) (connect_finished k r s).
Proof.
  intros H. unfold connect_finished. eapply (returns_bind (has_keys K)); [|by intros s1 _ H1].
  destruct (conns s !! k) as [[i|]|]; [|by destruct r|done].
  unfold channel_connect_done. eapply returns_bind; [apply returns_true|]. intros c _ _. destruct r as [sock|text].
  - apply (frame_on_ses _ _ _ (keys_frame K)); [apply (rp_confirmation _ _ _ (keys_frame K))|done].
  - eapply returns_bind; [apply (frame_on_ses _ _ _ (keys_frame K)); [apply (rp_open_failure _ _ _ (keys_frame K))|done]|]. intros s1 _ H1.
    by apply (frame_remove _ _ _ (keys_frame K)).
Qed.

Lemma keys_put_conn K k c (s : chs) : has_keys K s -> has_keys K (put_conn k c s).
Proof.
  intros H. unfold has_keys, put_conn, with_pending. cbn.
  set (l := map (fun kc => if bool_decide (fst kc = k) then (k, c) else kc) _). pose proof (fw_view_set l (ses s)) as Hv. unfold fwd_view in Hv.
  injection Hv as -> _ _. subst l. rewrite map_map. erewrite map_ext; [exact H|]. intros kc. by case_bool_decide.
Qed.

Lemma keys_remove K k (s : chs) : k ∉ K -> has_keys K s -> has_keys K (remove_connect k s).
Proof.
  intros Hk H. unfold has_keys, remove_connect, with_pending. cbn. set (l := filter _ _). pose proof (fw_view_set l (ses s)) as Hv. unfold fwd_view in Hv.
  injection Hv as -> _ _. subst l. intros j Hj. pose proof (H j Hj) as ([j' c] & -> & Hin)%list_elem_of_fmap. apply list_elem_of_fmap.
  exists (j', c). split; [done|]. apply list_elem_of_filter. split; [|done]. cbn. by intros ->.
Qed.

Lemma conn_at_some k (s : chs) : has_keys [k] s -> exists c, conn_at k s = Some c.
Proof.
  intros H. unfold conn_at. destruct (list_find _ _) as [[j kc]|] eqn:E; [by eexists|].
  apply list_find_None in E. rewrite Forall_forall in E. pose proof (H k (list_elem_of_here _ _)) as (kc & -> & Hin)%list_elem_of_fmap.
  by destruct (E kc Hin).
Qed.

Lemma st_pending l (s : chs) : st_ok s -> Forall (fun kc => err_short (snd kc)) l -> st_ok (with_pending l s).
Proof. intros Hok Hl. apply st_ses; [done|apply idle_set_conns; [apply Hok|done]|apply payload_set_conns, Hok]. Qed.

Lemma st_put_conn k c (s : chs) : st_ok s -> err_short c -> st_ok (put_conn k c s).
Proof.
  intros Hok Hc. apply st_pending; [done|]. apply Forall_map. eapply Forall_impl; [apply fw_ok_text, (so_idle _ _ Hok)|].
  intros kc Hk. by case_bool_decide.
Qed.

Lemma st_remove_connect k (s : chs) : st_ok s -> st_ok (remove_connect k s).
Proof.
  intros Hok. apply st_pending; [done|]. apply Forall_forall. intros kc [_ Hin]%list_elem_of_filter.
  pose proof (fw_ok_text _ (proj1 (so_idle _ _ Hok))) as H. rewrite Forall_forall in H. by apply H.
Qed.

Lemma conn_err k c (s : chs) : st_ok s -> conn_at k s = Some c -> err_short c.
Proof.
  intros Hok Hc. apply conn_at_In in Hc. pose proof (fw_ok_text _ (proj1 (so_idle _ _ Hok))) as H. rewrite Forall_forall in H. by apply (H _ Hc).
Qed.

Lemma set_connect_fd_safe k K (s : chs) : st_ok s -> fwd_inv s -> has_keys (k :: K) s -> k ∉ K ->
  safe (fun x => st_ok (snd x) /\ has_keys K (snd x)) (set_connect_fd k s).
Proof.
  intros Hok H HK Hk. unfold set_connect_fd. destruct (conn_at_some k s) as [c Hc]; [unfold has_keys in *; set_solver|]. rewrite Hc.
  pose proof (fi_pending _ _ _ _ H) as Hp. rewrite Forall_forall in Hp. destruct (Hp _ (conn_at_In _ _ _ Hc)) as [Hs _]. cbn in Hs.
  pose proof (fi_known _ _ _ _ H) as Hkn. rewrite Forall_forall in Hkn. pose proof (Hkn _ (conn_at_In _ _ _ Hc)) as Hsome. cbn in Hsome.
  destruct (tries_cases (S (length (res_iter c))) c (world s) ltac:(lia) Hs) as (c' & w' & -> & Ht). cbn [obind].
  assert (Herr : err_short c').
  { pose proof (conn_err k c s Hok Hc) as He. destruct Ht as [(_ & -> & _)|[_ Hg]]; [done|]. destruct Hg as [? ? ? ? ? ? _ Hg _ _ _ _ _|? ? ? _ Hg _ _ _ _]; by apply Hg. }
  assert (Hok1 : st_ok (put_conn k c' (with_world w' s))) by (apply st_put_conn; [by apply st_world|done]).
  assert (HK1 : has_keys K (put_conn k c' (with_world w' s))) by (apply keys_put_conn; unfold has_keys in *; cbn; set_solver).
  destruct (0 <=? csock c'); [by split|]. set (text := default _ _). set (s1 := put_conn k c' _) in *.
  eapply safe_bind.
  { apply safe_and; [apply (connect_finished_ok rw fwd_type_laws k (inr text) s1); [done|done|]|apply (keys_connect_finished K k (inr text) s1 HK1)].
    subst text. unfold err_short in Herr. destruct (errstring c') as [e|]; cbn; [destruct Herr; by split; [|lia]|by split; [apply bytes_check|]]. }
  intros s2 _ [Hok2 HK2]. cbn. split; [by apply st_remove_connect|by apply keys_remove].
Qed.

Lemma set_connect_fds_safe (s : chs) : st_ok s -> fwd_inv s -> safe (fun x => st_ok (snd x)) (set_connect_fds s).
Proof.
  intros Hok H. unfold set_connect_fds. assert (HK : has_keys (map fst (ses_conn_pending (ses s))) s) by (by intros ?).
  pose proof (fi_keys _ _ _ _ H) as Hnd. revert HK Hnd. generalize (map fst (ses_conn_pending (ses s))). intros ks. revert s Hok H.
  induction ks as [|k ks IH]; intros s Hok H HK Hnd; [done|]. apply NoDup_cons in Hnd as [Hk Hnd]. cbn [set_connect_fds_from].
  eapply safe_bind.
  { apply safe_and; [by apply (set_connect_fd_safe k ks)|by apply (inv_set_connect_fd opts chansess CQ ko priv)]. }
  intros [fds s1] _ [[Hok1 HK1] H1]. cbn in *. eapply safe_bind; [by apply IH|]. by intros [more s2] _ ?.
Qed.

(** A connection may only be completed while nothing has been closed on its channel. *)
Definition pending_open (s : chs) : Prop := forall i c, channels s !! i = Some (Some c) -> conn_pending c <> None ->
  sent_eof c = false /\ sent_close c = false.

Lemma handle_connect_fds_safe wr (s : chs) : st_ok s -> fwd_inv s -> pending_open s -> safe st_ok (handle_connect_fds wr s).
Proof.
  intros Hok H Hopen. unfold handle_connect_fds. assert (HK : has_keys (map fst (ses_conn_pending (ses s))) s) by (by intros ?).
  revert HK. generalize (map fst (ses_conn_pending (ses s))). intros ks. revert s Hok H Hopen.
  induction ks as [|k ks IH]; intros s Hok H Hopen HK; [done|]. cbn [handle_connect_fds_from].
  destruct (conn_at_some k s) as [c Hc]; [unfold has_keys in *; set_solver|]. rewrite Hc.
  assert (HK' : has_keys ks s) by (unfold has_keys in *; set_solver). destruct (_ || _) eqn:Hfd; [by apply IH|].
  apply orb_false_elim in Hfd as [Hfd%Z.ltb_ge _].
  assert (Hfail : forall c', res_iter c' = res_iter c -> err_short c' -> safe st_ok
    (handle_connect_fds_from ks wr (put_conn k (set_csock (-1) c') (with_world (m_close (csock c) (world s)) s)))).
  { intros c' Hr He. apply IH; [apply st_put_conn; [by apply st_world|done]|by eapply inv_close_conn|done|by apply keys_put_conn]. }
  pose proof (conn_err k c s Hok Hc) as He. destruct (sys_so_error (csock c) (world s)) as [[text|]|] eqn:Herr.
  - apply Hfail; [done|]. by eapply nl_error_text.
  - pose proof (fi_known _ _ _ _ H) as Hkn. rewrite Forall_forall in Hkn. pose proof (Hkn _ (conn_at_In _ _ _ Hc)) as Hsome.
    eapply safe_bind; [apply (connect_finished_ok rw fwd_type_laws k (inl (csock c)) s); [done|done|]|].
    + split; [done|]. intros i d Hk Hd. apply (so_conns _ _ Hok) in Hk as (d' & Hd' & Hp). rewrite Hd in Hd'. injection Hd' as <-.
      apply (Hopen i d Hd). congruence.
    + intros s2 _ Hok2. by apply st_remove_connect.
  - by apply Hfail.
Qed.

(** ** Requests *)

Abbreviation finv := (finv rw opts chansess ko priv).

Definition texts (ls : list (option (Listener FwdListener chs W))) : Prop := forall j l, ls !! j = Some (Some l) -> listener_text l.

Definition sound (f : fws) : Prop := ready (fch f) /\ texts (listeners f) /\ finv f.

Lemma sound_string (f : fws) : sound f -> safe (fun '(t, n, f') => (bytes_ok t /\ zlen t = n + 1) /\ sound f' /\ listeners f' = listeners f) (fpr pr_string f).
Proof.
  intros (Hr & Ht & Hf). eapply (safe_mono (fun x => _ /\ finv (snd x))).
  - apply safe_and; [|by apply finv_fpr]. unfold fpr. eapply safe_bind; [by apply ready_string|].
    intros [[t n] s'] _ (Hb & Hr' & _). cbn [safe]. instantiate (1 := fun '(t, n, f') => (bytes_ok t /\ zlen t = n + 1) /\ ready (fch f') /\ listeners f' = listeners f).
    by split.
  - intros [[t n] f'] [(H1 & H2 & H3) H4]. split; [done|]. split; [|done]. split; [done|]. split; [by rewrite H3|done].
Qed.

Lemma sound_pr {A} (Q : A -> Prop) (op : buffer -> outcome (A * buffer)) (f : fws) :
  (forall b, wf b -> safe (fun '(a, b') => Q a /\ wf b') (op b)) -> sound f ->
  safe (fun '(a, f') => Q a /\ sound f' /\ listeners f' = listeners f) (fpr (pr op) f).
Proof.
  intros Hop (Hr & Ht & Hf). eapply (safe_mono (fun x => _ /\ finv (snd x))).
  - apply safe_and; [|by apply finv_fpr]. unfold fpr. eapply safe_bind; [by apply (pr_ready rw Q)|].
    intros [a s'] _ (Hb & Hr' & _). cbn [safe]. instantiate (1 := fun '(a, f') => Q a /\ ready (fch f') /\ listeners f' = listeners f). by split.
  - intros [a f'] [(H1 & H2 & H3) H4]. split; [done|]. split; [|done]. split; [done|]. split; [by rewrite H3|done].
Qed.

Lemma ready_world w (s : chs) : ready s -> ready (with_world w s).
Proof. intros [H Hp]. split; [by apply st_world|done]. Qed.

Lemma sound_reply m (op : P -> outcome P) (f : fws) : sound f -> (forall p, idle p -> sends p m (op p)) -> (forall p, returns (quiet_ses p) (op p)) ->
  safe sound (fon_ses op f).
Proof.
  intros (Hr & Ht & Hf) Hop Hq. eapply safe_mono; [apply safe_and; [|apply (finv_on_ses rw opts chansess CQ ko priv op f Hq Hf)]|].
  - unfold fon_ses. eapply safe_bind.
    + apply (on_ses_ok rw); [apply Hr|]. eapply safe_mono; [apply Hop, (so_idle _ _ (proj1 Hr))|]. intros p' ?. by eexists.
    + intros s' _ (Hok & _ & Hp). cbn [safe]. instantiate (1 := fun f' => ready (fch f') /\ listeners f' = listeners f). split; [|done].
      split; [done|]. cbn. rewrite Hp. apply Hr.
  - intros f' [[H1 H2] H3]. split; [done|]. split; [by rewrite H2|done].
Qed.

Lemma sound_remove i l (f : fws) : sound f -> listeners f !! i = Some (Some l) -> safe sound (fwd_remove_listener i f).
Proof.
  intros (Hr & Ht & Hf) Hi. eapply safe_mono; [apply safe_and; [|apply (finv_remove rw opts chansess ko priv i f Hf)]|].
  - unfold fwd_remove_listener, remove_listener. rewrite Hi. cbn [obind safe]. instantiate (1 := fun f' => ready (fch f') /\ texts (listeners f')).
    split; [by apply ready_world|]. intros j l' Hj. cbn in Hj. apply list_lookup_insert_Some in Hj as [(_ & [=] & _)|[_ Hj]]. by eapply Ht.
  - intros f' [[H1 H2] H3]. by split.
Qed.

(** Looking up gives a listener that is there. *)
Lemma get_listener_safe type d matches m (ls : list (option (Listener FwdListener chs W))) :
  (forall l, Some l ∈ ls -> ltype l = type -> matches d (typedata l) = Ok (m l)) ->
  safe (fun o => match o with Some i => exists l, ls !! i = Some (Some l) | None => True end) (get_listener type d matches ls).
Proof.
  intros Hm. unfold get_listener. rewrite (get_listener_from_spec _ _ _ m) by done. cbn [safe].
  destruct (list_find _ ls) as [[j o]|] eqn:E; [|done]. cbn. apply list_find_Some in E as (Hj & Ho & _). destruct o as [l|]; [|done]. by exists l.
Qed.

Lemma getint_safe b : wf b -> safe (fun '(n, b') => is_u32 n /\ wf b') (buf_getint b).
Proof. apply safe_getint. Qed.

(** [finv] holds of what an operation on a sound state returns, besides its being safe. *)
Lemma sound_answer {A} (m : outcome (A * fws)) : safe (fun x => ready (fch (snd x)) /\ texts (listeners (snd x))) m ->
  returns (fun x => finv (snd x)) m -> safe (fun x => sound (snd x)) m.
Proof.
  intros H1 H2. eapply safe_mono; [apply safe_and; [exact H1|exact H2]|]. intros [a f'] [[H3 H4] H5]. by split.
Qed.

Lemma cancel_tcp_sound (f : fws) : sound f -> safe (fun x => sound (snd x)) (svr_cancelremotetcp f).
Proof.
  intros Hs. unfold svr_cancelremotetcp. eapply safe_bind; [by apply sound_string|]. intros [[addr n] f1] _ (_ & Hs1 & _).
  destruct (_ <? _); [done|]. eapply safe_bind; [by apply (sound_pr is_u32); [apply getint_safe|]|]. intros [port f2] _ (_ & Hs2 & _).
  eapply safe_bind; [apply (get_listener_safe _ _ _ (listens_on addr port))|].
  - intros l Hl _. apply list_elem_of_lookup in Hl as [j Hj]. eapply (matchtcp_known rw opts chansess); [apply (proj2 (proj2 (proj2 Hs2)))|exact Hj].
  - intros [i|] _ Hi; [|done]. destruct Hi as [l Hi]. eapply safe_bind; [by eapply sound_remove|]. by intros f3 _ ?.
Qed.

Lemma cancel_stream_sound (f : fws) : sound f -> safe (fun x => sound (snd x)) (svr_cancelremotestreamlocal f).
Proof.
  intros Hs. unfold svr_cancelremotestreamlocal. eapply safe_bind; [by apply sound_string|]. intros [[addr n] f1] _ (_ & Hs1 & _).
  destruct (_ || _); [done|]. rewrite get_listener_none; [done|]. intros i l Hl. eapply (known_types rw opts chansess); [apply (proj2 (proj2 (proj2 Hs1)))|exact Hl].
Qed.

Lemma remotetcp_sound (f : fws) : sound f -> remote_allowed opts ko -> safe (fun x => sound (snd x)) (remotetcp_listen rw opts f).
Proof.
  intros Hs Hr. apply sound_answer; [|by apply (finv_remotetcp rw opts chansess ko priv f); [apply Hs|]].
  unfold remotetcp_listen. eapply safe_bind; [by apply sound_string|]. intros [[addr n] f1] _ ((Hb & Hn) & Hs1 & _).
  assert (Hkeep : forall f2, sound f2 -> safe (fun x : option (Z * Z) * fws => ready (fch (snd x)) /\ texts (listeners (snd x))) (Ok (None, f2))) by by intros f2 (? & ? & _).
  destruct (Z.ltb_spec MAX_HOST_LEN n) as [|Hlen]; [by apply Hkeep|].
  eapply safe_bind; [by apply (sound_pr is_u32); [apply getint_safe|]|]. intros [port f2] _ (Hp & Hs2 & _).
  destruct (listen_port_ok port f2) eqn:Hok; cbn [negb]; [|by apply Hkeep].
  destruct (svr_pubkey_allows_remote_tcpfwd (key_options f2) addr port) eqn:Hal; cbn [negb]; [|by apply Hkeep].
  pose proof Hs2 as (Hr2 & Ht2 & Hf2). destruct (granted_port rw opts chansess ko priv f2 addr port Hf2 ltac:(unfold is_u32 in *; lia) Hok Hal) as [_ Hpp].
  destruct (remote_tcpinfo_ok opts addr port) as (D1 & D2 & D3 & D4 & D5).
  eapply safe_bind; [by apply (listen_tcpfwd_ok rw opts chansess ko priv f2 (remote_tcpinfo opts addr port))|].
  intros [o f3] _ (Hf3 & (w & Hw) & Ho). assert (Hr3 : ready (fch f3)) by (rewrite Hw; by apply ready_world).
  destruct o as [i|]; [|cbn; split; [done|by rewrite Ho]]. destruct Ho as (l & Hli & Hd & Hkl & Hnew & Hold). rewrite Hli.
  destruct Hf3 as [_ Ht3]. pose proof (tb_socks _ _ _ _ Ht3 _ _ Hli) as [Hne _]. destruct (socks l) as [|sock fds]; [done|].
  eapply safe_bind; [apply get_sock_port_safe|]. intros lport _ _. cbn [safe snd]. split; [done|]. intros j l' Hj. cbn in Hj.
  apply list_lookup_insert_Some in Hj as [(-> & [= <-] & _)|[Hnj Hj]]; [|apply Hold in Hj; [by eapply Ht2|done]].
  unfold listener_text. cbn. rewrite Hd. cbn. split; [done|]. rewrite Hn. unfold MAX_HOST_LEN in Hlen. lia.
Qed.

Lemma remotetcpreq_sound wr (f : fws) : sound f -> remote_allowed opts ko -> safe (fun x => sound (snd x)) (svr_remotetcpreq rw opts wr f).
Proof.
  intros Hs Hr. unfold svr_remotetcpreq. eapply safe_bind; [by apply remotetcp_sound|]. intros [ret f1] _ Hs1. cbn in Hs1.
  eapply (safe_bind sound); [|by intros f2 _ ?]. destruct wr; [|done].
  apply (sound_reply (listen_reply ret)); [done|intros; by apply listen_reply_sends|]. intros p. destruct Hs1 as (_ & _ & Hf1).
  pose proof (fwd_frame opts chansess CQ ko priv) as F. eapply (rp_bind quiet_ses); [|intros q; apply encrypt_fwd_quiet].
  destruct ret as [[port lport]|]; [|apply (rp_pw _ _ _ F)]. eapply (rp_bind quiet_ses); [apply (rp_pw _ _ _ F)|].
  intros q. destruct (port =? 0); [apply (rp_pw _ _ _ F)|apply rp_refl; apply _].
Qed.

Lemma remotestream_sound (f : fws) : sound f -> safe (fun x => sound (snd x)) (svr_remotestreamlocalreq rw opts f).
Proof.
  intros Hs. apply sound_answer; [|by apply (finv_remotestream rw opts chansess ko priv f), Hs].
  assert (Hkeep : forall f2, sound f2 -> safe (fun x : bool * fws => ready (fch (snd x)) /\ texts (listeners (snd x))) (Ok (false, f2))) by by intros f2 (? & ? & _).
  unfold svr_remotestreamlocalreq. destruct (has_forced_command _ _) eqn:Hfc; [by apply Hkeep|]. destruct (_ || _) eqn:Hal; [by apply Hkeep|].
  apply orb_false_elim in Hal as [Hn Ht%negb_false_iff]. pose proof (proj2 (proj2 Hs)) as Hf.
  apply (forced_command_ok opts ko priv (fch f) (proj1 Hf)) in Hfc. rewrite (finv_options rw opts chansess ko priv f Hf) in Ht.
  eapply safe_bind; [by apply sound_string|]. intros [[path n] f1] _ ((Hb & Hlen) & Hs1 & _).
  destruct (_ || _) eqn:Hl; [by apply Hkeep|]. apply orb_false_elim in Hl as [Hl%Z.ltb_ge _]. pose proof Hs1 as (Hr1 & Ht1 & Hf1).
  eapply safe_bind; [eapply (listen_streamlocal_ok rw opts chansess ko priv f1); [done|by split|done|done|by eexists|done]|].
  intros [o f2] _ (_ & (w & Hw) & Hls). cbn [safe snd]. split; [rewrite Hw; by apply ready_world|]. intros j l Hj.
  destruct (Hls j l Hj) as [H|Hd]; [by eapply Ht1|]. unfold listener_text. rewrite Hd. cbn. split; [done|]. unfold MAX_HOST_LEN in Hl. lia.
Qed.

Lemma request_answer (b : bool) (m : outcome (bool * fws)) : safe (fun x => sound (snd x)) m ->
  safe (fun x => sound (snd x)) (let* (ret, f) := m in Ok (ret, b, f)).
Proof. intros H. eapply safe_bind; [exact H|]. intros [ret f] _ Hf. exact Hf. Qed.

Lemma request_sound name wr (f : fws) : sound f -> remote_allowed opts ko -> safe (fun x => sound (snd x)) (global_request rw opts name wr f).
Proof.
  intros H Hr. unfold global_request.
  destruct (strcmp_eq (str "tcpip-forward") name); [apply request_answer, remotetcpreq_sound; assumption|].
  destruct (strcmp_eq (str "cancel-tcpip-forward") name); [apply request_answer, cancel_tcp_sound; assumption|].
  destruct (strcmp_eq (str "streamlocal-forward@openssh.com") name); [apply request_answer, remotestream_sound; assumption|].
  destruct (strcmp_eq (str "cancel-streamlocal-forward@openssh.com") name); [apply request_answer, cancel_stream_sound; assumption|exact H].
Qed.

Lemma getbool_safe b : wf b -> safe (fun '(n, b') => True /\ wf b') (buf_getbool b).
Proof.
  intros Hb. eapply safe_mono; [apply safe_split; split; [by apply buf_getbool_post|]|by intros [? ?] [? ?]].
  unfold buf_getbool, buf_getbyte. noassert_tac.
Qed.

Lemma global_sound (f : fws) : sound f -> safe sound (svr_recv_msg_global_request rw opts f).
Proof.
  intros Hs. unfold svr_recv_msg_global_request. eapply safe_bind; [by apply sound_string|]. intros [[name n] f1] _ (_ & Hs1 & _).
  eapply safe_bind; [by apply (sound_pr (fun _ => True)); [apply getbool_safe|]|]. intros [wr f2] _ (_ & Hs2 & _).
  eapply (safe_bind (fun x => sound (snd x))).
  { destruct (_ || _) eqn:Hal; [done|]. apply orb_false_elim in Hal as [Hn Ht%negb_false_iff].
    rewrite (finv_options rw opts chansess ko priv f2 (proj2 (proj2 Hs2))) in Ht. destruct (_ <? _); [done|]. apply request_sound; [done|by split]. }
  intros [[ret wr2] f3] _ Hs3. cbn in Hs3. destruct wr2; [|done]. pose proof (fwd_frame opts chansess CQ ko priv) as F. destruct ret.
  - apply (sound_reply [SSH_MSG_REQUEST_SUCCESS]); [done|intros; by apply send_request_success_ok|apply (rp_request_success _ _ _ F)].
  - apply (sound_reply [SSH_MSG_REQUEST_FAILURE]); [done|intros; by apply send_request_failure_ok|apply (rp_request_failure _ _ _ F)].
Qed.

(** ** A session that forwards *)

Definition steady (f : fws) : Prop := st_ok (fch f) /\ texts (listeners f) /\ finv f.

Lemma steady_payload pl (f : fws) : wf pl -> steady f -> sound (with_fch (with_payload pl (fch f)) f).
Proof.
  intros Hw (Hok & Ht & [Hf Htb]). split; [|split; [done|split; [by apply inv_payload|done]]]. split.
  - apply st_ses; [done|apply idle_payload; [apply Hok|done]|]. unfold payload_ok. by rewrite sl_pl_pl.
  - exists pl. split; [apply sl_pl_pl|done].
Qed.

(** What the events of a session have to be: payloads as the packet layer hands them over, no
    connection completed for a channel that EOF or CLOSE has been sent on, no request for a
    session without a process that EOF has been sent on. *)
Definition fwd_event_timely (e : fwd_event) (f : fws) : Prop :=
  match e with
  | FwMsg m pl => wf pl /\ (m = MsgRequest -> request_ok (with_payload pl (fch f)))
  | FwGlobal pl => wf pl
  | FwIO _ _ _ => True
  | FwSetConnect => True
  | FwHandleConnect _ => pending_open (fch f)
  end.

(** No data beyond the window. *)
Definition fwd_event_in_window (e : fwd_event) (f : fws) : Prop :=
  match e with FwMsg MsgData pl => data_ok (with_payload pl (fch f)) | _ => True end.

Definition fwd_event_ok (e : fwd_event) (f : fws) : Prop := fwd_event_timely e f /\ fwd_event_in_window e f.

Abbreviation fwd_step := (fwd_step rw opts chansess).
Abbreviation fwd_run := (fwd_run rw opts chansess).

Fixpoint fwd_events_ok (es : list fwd_event) (f : fws) : Prop :=
  match es with [] => True | e :: es => fwd_event_ok e f /\ forall f', fwd_step e f = Ok f' -> fwd_events_ok es f' end.

(** A step that leaves the listeners. *)
Lemma steady_step (f : fws) (m : outcome chs) : texts (listeners f) -> safe st_ok m -> returns finv (let* s := m in Ok (with_fch s f)) ->
  safe steady (let* s := m in Ok (with_fch s f)).
Proof. intros Ht. destruct m as [s|e|]; cbn; [|done..]. intros Hs Hf. by split; [|split]. Qed.

Lemma step_safe e (f : fws) : steady f -> fwd_event_ok e f -> safe steady (fwd_step e f).
Proof.
  intros Hst [He Hwin]. pose proof Hst as (Hok & Ht & Hf). pose proof (finv_step rw opts chansess CQ ko priv e f Hf) as Hstep.
  destruct e as [m pl|pl|rd wr sig| |wr]; cbn [ForwardSafety.fwd_step fwd_event_timely fwd_event_in_window] in *.
  - apply steady_step; [done| |done]. by apply (run_event_ok rw Hrw fwd_type_laws (fun _ s => Ok s) (EvMsg m pl)).
  - eapply safe_mono; [by apply global_sound, steady_payload|]. intros f' ([Hr _] & Ht' & Hf'). by split; [|split].
  - apply steady_step; [done| |done]. apply (run_event_ok rw Hrw fwd_type_laws (handle_listeners (listeners f)) (EvIO rd wr sig)); [|done|by split].
    intros rd' s Hs. apply handle_listeners_safe; [|done]. intros l Hl. apply list_elem_of_lookup in Hl as [j Hj].
    split; [eapply (tb_known rw opts chansess); [apply Hf|exact Hj]|by eapply Ht].
  - pose proof (set_connect_fds_safe (fch f) Hok (proj1 Hf)) as Hs. destruct (set_connect_fds (fch f)) as [[fds s]|x|]; [|done..]. by split; [|split].
  - apply steady_step; [done| |done]. by apply handle_connect_fds_safe; [|apply Hf|].
Qed.

(** Without the window, an assertion may fail, but nothing else is lost. *)
Lemma step_any e (f : fws) : steady f -> fwd_event_timely e f -> opost steady (fwd_step e f).
Proof.
  intros Hst He. pose proof (step_safe e f Hst) as H.
  assert (Hwin : (forall m, fwd_step e f <> Exit m) -> fwd_event_ok e f).
  { intros Hne. split; [done|]. destruct e as [[] pl|pl|rd wr sig| |wr]; try done. apply (data_kept rw). intros m Hm. apply (Hne m). cbn. by rewrite Hm. }
  destruct (fwd_step e f) as [f'|m|]; [|done|]; by apply H, Hwin.
Qed.

Lemma run_safe es : forall (f : fws), steady f -> fwd_events_ok es f -> safe steady (fwd_run es f).
Proof.
  induction es as [|e es IH]; intros f Hst Hes; cbn [ForwardSafety.fwd_run]; [done|]. destruct Hes as [He Hes].
  eapply safe_bind; [by apply step_safe|]. intros f' Hrun Hf'. auto.
Qed.

(** a session that forwards is safe. From its start, whatever channel messages, global
    requests, rounds of the main loop and ends of connections it consists of, under the
    conditions of [fwd_event_ok]: no undefined
    behaviour occurs (no dangling channel, connection or listener, no NULL string, no access
    outside a buffer), an exit is one with a message the code gives, and the channels, the
    connections in progress and the table of listeners keep their invariants. *)
Theorem forwarding_safe es (p : P) (w : W) (pr : dropbear_prio) (so : Z) :
  let f := mkfwses (chaninitialise p w pr so) listeners_initialise in
  idle p -> payload_ok p -> fwd_start ko priv f -> fwd_events_ok es f -> safe steady (fwd_run es f).
Proof.
  intros f Hi Hp Hstart Hes. apply run_safe; [|done]. split; [by apply chaninitialise_ok|]. split; [intros [|[|i]] l; done|].
  by apply (finv_start rw opts chansess ko priv).
Qed.
End channels.
