(* ===== verification/ForwardFrame.v ===== *)
(** * What forwarding leaves alone

    A property of the session and the kernel that their operations keep, sockets included, is
    kept by everything a session that forwards can be made to do, as long as the handlers of
    sessions on channels keep it. *)

From S2P Require Import Prelude Bytes CString Buffer Packet SessionData Channel ChannelSafety ChannelFrame AuthKeys Listener Netio Forward ForwardSafety.

Section frame.
Context {P W : Type} {FS : FwdSession P} {NW : NetSys W}.
Context (rw : Z) (opts : fwd_opts) (chansess : ChanTypes (P := P) (W := W)).
Context (RP : P -> P -> Prop) {HRP : PreOrder RP} (RW : W -> W -> Prop) {HRW : PreOrder RW} (K : P -> W -> Prop).

#[local] Instance frame_types : ChanTypes (P := P) (W := W) := svr_chantypes opts chansess.

Abbreviation chs := (chses (P := P) (W := W)).
Abbreviation fws := (fwses (P := P) (W := W)).

Definition kept_state (s : chs) : Prop := K (ses s) (world s).

Record net_frame : Prop := {
  nf_ses p q w : K p w -> RP p q -> K q w;
  nf_world p w v : K p w -> RW w v -> K p v;
  nf_wp b p : RP p (ses_set_writepayload b p);
  nf_pl b p : RP p (ses_set_payload b p);
  nf_conns l p : RP p (ses_set_conn_pending l p);
  nf_encrypt p : returns (RP p) (ses_encrypt_packet p);
  nf_read fd n w : RW w (snd (sys_read fd n w));
  nf_writev fd bs w : RW w (snd (sys_writev fd bs w));
  nf_close fd w : RW w (sys_close fd w);
  nf_shutdown fd how w : RW w (sys_shutdown fd how w);
  nf_priority pr w : RW w (sys_set_sock_priority pr w);
  nf_getaddrinfo h p b w : RW w (snd (sys_getaddrinfo h p b w));
  nf_socket fam w : RW w (snd (sys_socket fam w));
  nf_setsockopt fd o w : RW w (sys_setsockopt fd o w);
  nf_bind fd a w : RW w (snd (sys_bind fd a w));
  nf_listen fd n w : RW w (snd (sys_listen fd n w));
  nf_connect fd a w : RW w (snd (sys_connect fd a w));
  nf_accept fd w : RW w (snd (sys_accept fd w));
  nf_unlink path w : RW w (sys_unlink path w);
  nf_umask m w : RW w (snd (sys_umask m w));
  nf_close_handler ty h c p : ct_closehandler (ChanTypes := chansess) ty = Some h -> returns (RP p) (h c p);
  nf_init ty h i s : ct_inithandler (ChanTypes := chansess) ty = Some h -> kept_state s -> returns (fun x => kept_state (snd x)) (h i s);
  nf_req ty h i s : ct_reqhandler (ChanTypes := chansess) ty = Some h -> kept_state s -> returns kept_state (h i s);
}.

Context (NF : net_frame).

(** ** Sockets *)

Lemma nf_m_close fd w : RW w (m_close fd w).
Proof. unfold m_close. destruct (fd <? 0); [done|apply NF]. Qed.

Lemma nf_listen_options i fam sock w : RW w (listen_options i fam sock w).
Proof.
  unfold listen_options. set (w1 := sys_setsockopt sock SO_REUSEADDR w). set (w2 := match i with Some _ => _ | None => w1 end).
  assert (H1 : RW w w1) by apply NF. assert (H2 : RW w1 w2) by (subst w2; destruct i; [apply NF|reflexivity]).
  etrans; [exact H1|]. etrans; [exact H2|]. destruct (bool_decide _); [etrans; [apply (nf_setsockopt NF sock IPV6_V6ONLY)|]|]; apply NF.
Qed.

Lemma nf_listen_loop res count i : forall socks port w, returns (fun x => RW w (snd x)) (listen_loop res count i socks port w).
Proof.
  induction res as [|a res IH]; intros socks port w; cbn [listen_loop]; [by cbn|]. destruct (_ <=? _)%nat; [by cbn|].
  set (a' := if 0 <? port then set_sin_port port a else a). pose proof (nf_socket NF (ai_family a') w) as H1. destruct (sys_socket (ai_family a') w) as [sock w1]. cbn in H1.
  assert (Hnext : forall v socks port, RW w v -> returns (fun x => RW w (snd x)) (listen_loop res count i socks port v)).
  { intros v ss pp Hv. eapply returns_mono; [apply IH|]. intros x Hx. by etrans. }
  destruct (sock <? 0); [by apply Hnext|]. set (w2 := listen_options i (ai_family a') sock w1).
  assert (H2 : RW w w2) by (etrans; [exact H1|apply nf_listen_options]). pose proof (nf_bind NF sock a' w2) as H3.
  destruct (sys_bind sock a' w2) as [b w3]. cbn in H3. assert (H4 : RW w w3) by by etrans.
  destruct b; cbn [negb]; [|apply Hnext; etrans; [exact H4|apply NF]]. pose proof (nf_listen NF sock DROPBEAR_LISTEN_BACKLOG w3) as H5.
  destruct (sys_listen sock DROPBEAR_LISTEN_BACKLOG w3) as [ok w4]. cbn in H5. assert (H6 : RW w w4) by by etrans.
  destruct ok; cbn [negb]; [|apply Hnext; etrans; [exact H6|apply NF]]. eapply returns_bind; [apply returns_true|]. intros p _ _. by apply Hnext.
Qed.

Lemma nf_dropbear_listen addr port count i w : returns (fun x => RW w (snd x)) (dropbear_listen addr port count i w).
Proof.
  unfold dropbear_listen. set (node := match addr with Some a => _ | None => None end). set (b := match addr with None => false | Some _ => true end).
  pose proof (nf_getaddrinfo NF node port b w) as H1. destruct (sys_getaddrinfo node port b w) as [[e|res] w1]; [done|]. cbn in H1.
  eapply returns_bind; [apply nf_listen_loop|]. intros [socks w2] _ H2. cbn in *. by etrans.
Qed.

Lemma nf_try_addrs l : forall c w, returns (fun x => RW w (snd x)) (try_addrs l c w).
Proof.
  induction l as [|r l IH]; intros c w; cbn [try_addrs]; [by cbn|]. eapply returns_bind; [apply returns_true|]. intros _ _ _.
  assert (Hnext : forall c v, RW w v -> returns (fun x => RW w (snd x)) (try_addrs l c v)).
  { intros c' v Hv. eapply returns_mono; [apply IH|]. intros x Hx. by etrans. }
  pose proof (nf_socket NF (ai_family r) w) as H1. destruct (sys_socket (ai_family r) w) as [sock w1]. cbn in H1. destruct (sock <? 0); [by apply Hnext|].
  set (w2 := sys_setsockopt sock O_NONBLOCK _). assert (H2 : RW w w2) by (etrans; [exact H1|]; etrans; [apply (nf_setsockopt NF sock TCP_NODELAY)|];
    etrans; [apply (nf_setsockopt NF sock (SockPriority (cprio (set_csock sock c))))|]; apply NF).
  pose proof (nf_connect NF sock r w2) as H3. destruct (sys_connect sock r w2) as [[e|] w3]; cbn in H3; [|cbn; by etrans].
  destruct (retry_errno r e); [cbn; by etrans|]. apply Hnext. etrans; [exact H2|]. etrans; [exact H3|apply NF].
Qed.

Lemma nf_connect_tries fuel : forall c w, returns (fun x => RW w (snd x)) (connect_tries fuel c w).
Proof.
  induction fuel as [|fuel IH]; intros c w; cbn [connect_tries]; [by cbn|]. destruct (_ && _); [|by cbn]. eapply returns_bind; [apply nf_try_addrs|].
  intros [c1 w1] _ H1. cbn in H1. eapply returns_mono; [apply IH|]. intros x Hx. by etrans.
Qed.

(** ** Channels *)

Lemma kept_ses (s : chs) p : kept_state s -> RP (ses s) p -> kept_state (with_ses p s).
Proof. apply (nf_ses NF). Qed.

Lemma kept_world (s : chs) w : kept_state s -> RW (world s) w -> kept_state (with_world w s).
Proof. apply (nf_world NF). Qed.

Lemma kept_connecting i k (s : chs) : kept_state s -> returns (fun x => kept_state (snd x)) (channel_connecting i k s).
Proof. intros H. unfold channel_connecting. eapply returns_bind; [apply returns_true|]. by intros c _ _. Qed.

Lemma kept_append k c cb (s : chs) : kept_state s -> kept_state (list_append_conn k c cb s).
Proof. intros H. apply (nf_ses NF _ _ _ H), NF. Qed.

Lemma kept_pr {A} (f : buffer -> outcome (A * buffer)) (s : chs) : kept_state s -> returns (fun x => kept_state (snd x)) (pr f s).
Proof.
  intros H. unfold pr. destruct (ses_payload (ses s)); [|done]. eapply returns_bind; [apply returns_true|]. intros [a b'] _ _.
  apply kept_ses; [done|apply NF].
Qed.

Ltac kp := repeat
  lazymatch goal with
  | |- returns _ (obind _ _) =>
      eapply returns_bind; [first [by apply kept_pr | apply returns_true]|]; let x := fresh "x" in intros x _ ?; cbn beta in *; osplit x; cbn [snd fst] in *
  | |- returns _ (if ?c then _ else _) => destruct c; [done|]
  end.

Lemma kept_newtcpdirect i (s : chs) : kept_state s -> returns (fun x => kept_state (snd x)) (newtcpdirect opts i s).
Proof.
  intros H. unfold newtcpdirect, pr_string. kp. unfold connect_remote.
  match goal with |- context [sys_getaddrinfo ?h ?p ?b ?w] => pose proof (nf_getaddrinfo NF h p b w) as Hw; destruct (sys_getaddrinfo h p b w) as [res w1] end.
  cbn in Hw. apply kept_connecting, kept_append. by apply kept_world.
Qed.

Lemma kept_newstreamlocal i (s : chs) : kept_state s -> returns (fun x => kept_state (snd x)) (newstreamlocal opts i s).
Proof. intros H. unfold newstreamlocal, pr_string. kp. unfold connect_streamlocal. by apply kept_connecting, kept_append. Qed.

Lemma forward_frame : frame_laws RP RW kept_state.
Proof.
  split; try apply NF; try done.
  - intros ty h c p. cbn. destruct (ty =? svrchansess); [apply NF|done].
  - intros p s. apply kept_ses.
  - intros w s. apply kept_world.
  - intros ty h i s Hh Hs. cbn in Hh. destruct (ty =? svr_chan_tcpdirect); [injection Hh as <-; by apply kept_newtcpdirect|].
    destruct (ty =? svr_chan_streamlocal); [injection Hh as <-; by apply kept_newstreamlocal|]. destruct (ty =? svrchansess); [|done]. by eapply (nf_init NF).
  - intros ty h i s Hh Hs. cbn in Hh. destruct (ty =? svrchansess); [|done]. by eapply (nf_req NF).
Qed.

(** ** Connections in progress *)

Lemma kept_on_ses (op : P -> outcome P) (s : chs) : (forall p, returns (RP p) (op p)) -> kept_state s -> returns kept_state (on_ses op s).
Proof. apply (frame_on_ses _ _ _ forward_frame). Qed.

Lemma kept_connect_finished k r (s : chs) : kept_state s -> returns kept_state (connect_finished k r s).
Proof.
  intros H. unfold connect_finished. eapply (returns_bind kept_state); [|by intros s1 _ H1].
  destruct (conns s !! k) as [[i|]|]; [|destruct r; [apply kept_world; [done|apply nf_m_close]|done]|done].
  unfold channel_connect_done. eapply returns_bind; [apply returns_true|]. intros c _ _. destruct r as [sock|text].
  - apply kept_on_ses; [apply (rp_confirmation _ _ _ forward_frame)|exact H].
  - eapply returns_bind; [apply kept_on_ses; [apply (rp_open_failure _ _ _ forward_frame)|done]|]. intros s1 _ H1.
    by apply (frame_remove _ _ _ forward_frame).
Qed.

Lemma kept_pending l (s : chs) : kept_state s -> kept_state (with_pending l s).
Proof. intros H. apply kept_ses; [done|apply NF]. Qed.

Lemma kept_set_connect_fd k (s : chs) : kept_state s -> returns (fun x => kept_state (snd x)) (set_connect_fd k s).
Proof.
  intros H. unfold set_connect_fd. destruct (conn_at k s) as [c|]; [|done]. eapply returns_bind; [apply nf_connect_tries|]. intros [c1 w1] _ H1. cbn in H1.
  assert (Hs : kept_state (put_conn k c1 (with_world w1 s))) by by apply kept_pending, kept_world. destruct (0 <=? csock c1); [done|].
  eapply returns_bind; [by apply kept_connect_finished|]. intros s2 _ H2. by apply kept_pending.
Qed.

Lemma kept_set_connect_fds (s : chs) : kept_state s -> returns (fun x => kept_state (snd x)) (set_connect_fds s).
Proof.
  unfold set_connect_fds. generalize (map fst (ses_conn_pending (ses s))). intros ks. revert s.
  induction ks as [|k ks IH]; intros s H; cbn [set_connect_fds_from]; [done|]. eapply returns_bind; [by apply kept_set_connect_fd|]. intros [fds s1] _ H1.
  eapply returns_bind; [by apply IH|]. by intros [more s2] _ H2.
Qed.

Lemma kept_handle_connect_fds wr (s : chs) : kept_state s -> returns kept_state (handle_connect_fds wr s).
Proof.
  unfold handle_connect_fds. generalize (map fst (ses_conn_pending (ses s))). intros ks. revert s.
  induction ks as [|k ks IH]; intros s H; cbn [handle_connect_fds_from]; [done|]. destruct (conn_at k s) as [c|]; [|done].
  destruct (_ || _); [by apply IH|]. assert (Hw : kept_state (with_world (m_close (csock c) (world s)) s)) by (apply kept_world; [done|apply nf_m_close]).
  destruct (sys_so_error _ _) as [[text|]|]; [by apply IH, kept_pending| |by apply IH, kept_pending].
  eapply returns_bind; [by apply kept_connect_finished|]. intros s2 _ H2. by apply kept_pending.
Qed.

(** ** Listeners *)

(** What its acceptor and its cleanup do, whatever data they are given. *)
Definition quiet_listener (l : Listener FwdListener chs W) : Prop :=
  (forall d sock s, kept_state s -> returns kept_state (acceptor l d sock s)) /\
  (forall d w, RW w (match cleanup l with Some f => f d w | None => w end)).

Definition kept_all (f : fws) : Prop := kept_state (fch f) /\ forall i l, listeners f !! i = Some (Some l) -> quiet_listener l.

Lemma kept_tcp_acceptor d sock (s : chs) : kept_state s -> returns kept_state (tcp_acceptor rw d sock s).
Proof.
  intros H. unfold tcp_acceptor. pose proof (nf_accept NF sock (world s)) as Hw. destruct (sys_accept sock (world s)) as [r w]. cbn in Hw.
  apply (kept_world _ w) in H; [|exact Hw]. destruct r as [[fd sa]|]; [|done].
  destruct (sys_getnameinfo sa) as [[ip port]|]; [|apply kept_world; [done|apply nf_m_close]].
  eapply returns_bind; [by apply (frame_open_init _ _ _ _ forward_frame)|]. intros [ok s1] _ H1. cbn in H1.
  destruct ok; [|apply kept_world; [done|apply NF]]. set (x := match fwd_type d with direct => _ | forwarded => _ end). destruct x as [addr p].
  apply kept_on_ses; [|done]. intros q. repeat (eapply (rp_bind RP); [apply (rp_pw _ _ _ forward_frame)|intros ?; cbv beta]). apply NF.
Qed.

Lemma kept_stream_acceptor d sock (s : chs) : kept_state s -> returns kept_state (streamlocal_acceptor rw d sock s).
Proof.
  intros H. unfold streamlocal_acceptor. pose proof (nf_accept NF sock (world s)) as Hw. destruct (sys_accept sock (world s)) as [r w]. cbn in Hw.
  apply (kept_world _ w) in H; [|exact Hw]. destruct r as [[fd sa]|]; [|done].
  eapply returns_bind; [by apply (frame_open_init _ _ _ _ forward_frame)|]. intros [ok s1] _ H1. cbn in H1.
  destruct ok; [|apply kept_world; [done|apply NF]]. destruct (request_listenaddr d); [|done].
  apply kept_on_ses; [|done]. intros q. repeat (eapply (rp_bind RP); [apply (rp_pw _ _ _ forward_frame)|intros ?; cbv beta]). apply NF.
Qed.

Lemma kept_handle_listeners ls rd (s : chs) : (forall l, Some l ∈ ls -> quiet_listener l) -> kept_state s -> returns kept_state (handle_listeners ls rd s).
Proof.
  revert s. induction ls as [|o ls IH]; intros s Hk H; cbn [handle_listeners]; [done|].
  eapply (returns_bind kept_state); [|intros s1 _ H1; apply IH; [|done]; intros l Hl; apply Hk; by apply list_elem_of_further].
  destruct o as [l|]; [|done]. destruct (Hk l (list_elem_of_here _ _)) as [Ha _]. generalize (socks l). intros fds. revert s H.
  induction fds as [|fd fds IHf]; intros s H; cbn [accept_socks]; [done|]. eapply (returns_bind kept_state); [|intros s1 _ H1; by apply IHf].
  destruct (rd fd); [by apply Ha|done].
Qed.

Lemma nf_close_socks fds w : RW w (close_socks fds w).
Proof.
  revert w. unfold close_socks. induction fds as [|fd fds IH]; intros w; cbn [fold_left]; [done|]. etrans; [apply (nf_close NF fd)|apply IH].
Qed.

Lemma kept_fpr {A} (op : chs -> outcome (A * chs)) (f : fws) : returns (fun x => kept_state (snd x)) (op (fch f)) -> kept_all f ->
  returns (fun x => kept_all (snd x)) (fpr op f).
Proof. intros Hop [H Hl]. unfold fpr. eapply returns_bind; [exact Hop|]. by intros [a s] _ ?. Qed.

Lemma kept_string (f : fws) : kept_all f -> returns (fun x => kept_all (snd x)) (fpr pr_string f).
Proof. intros H. apply kept_fpr; [apply kept_pr, H|done]. Qed.

Lemma kept_fpr_pr {A} (op : buffer -> outcome (A * buffer)) (f : fws) : kept_all f -> returns (fun x => kept_all (snd x)) (fpr (pr op) f).
Proof. intros H. apply kept_fpr; [apply kept_pr, H|done]. Qed.

Lemma kept_fon_ses (op : P -> outcome P) (f : fws) : (forall p, returns (RP p) (op p)) -> kept_all f -> returns kept_all (fon_ses op f).
Proof. intros Hop [H Hl]. unfold fon_ses. eapply returns_bind; [by apply kept_on_ses|]. by intros s _ ?. Qed.

Lemma kept_remove_listener i (f : fws) : kept_all f -> returns kept_all (fwd_remove_listener i f).
Proof.
  intros [H Hl]. unfold fwd_remove_listener, remove_listener. destruct (listeners f !! i) as [[l|]|] eqn:E; [|done|done]. cbn [obind]. split.
  - apply kept_world; [done|]. etrans; [apply (proj2 (Hl _ _ E) (typedata l))|apply nf_close_socks].
  - intros j l' Hj. cbn in Hj. apply list_lookup_insert_Some in Hj as [(_ & [=] & _)|[_ Hj]]. by eapply Hl.
Qed.

Lemma new_listener_quiet fds ty d acc cl (ls : list (option (Listener FwdListener chs W))) w i ls' w' :
  new_listener fds ty d acc cl ls w = (i, ls', w') -> (forall j l, ls !! j = Some (Some l) -> quiet_listener l) -> quiet_listener (mklistener fds 0 acc cl ty d) ->
  RW w w' /\ forall j l, ls' !! j = Some (Some l) -> quiet_listener l.
Proof.
  unfold new_listener. intros H Hls Hnew. destruct (_ && _); [injection H as _ <- <-; split; [apply nf_close_socks|done]|].
  injection H as _ <- <-. split; [done|]. intros j l Hj. apply list_lookup_insert_Some in Hj as [(_ & [= <-] & _)|[_ Hj]]; [exact Hnew|].
  destruct (bool_decide _); [|by eapply Hls]. apply lookup_app_Some in Hj as [Hj|[_ Hj]]; [by eapply Hls|]. by destruct (j - length ls)%nat.
Qed.

Lemma kept_listen_tcpfwd d (f : fws) : kept_all f -> returns (fun x => kept_all (snd x)) (listen_tcpfwd rw d f).
Proof.
  intros [H Hl]. unfold listen_tcpfwd. eapply returns_bind; [apply nf_dropbear_listen|]. intros [socks w] _ Hw. cbn in Hw.
  destruct socks as [socks|]; [|split; [by apply kept_world|exact Hl]].
  destruct (new_listener _ _ _ _ _ _ _) as [[i ls] w'] eqn:E. apply new_listener_quiet in E as [Hw' Hls]; [|exact Hl|].
  - split; [|exact Hls]. apply kept_world; [by apply kept_world|exact Hw'].
  - split; [intros; by apply kept_tcp_acceptor|intros d' w0; cbn; reflexivity].
Qed.

Lemma nf_bind_streamlocal path w : RW w (snd (bind_streamlocal path w)).
Proof.
  unfold bind_streamlocal, unlink_streamsocket. pose proof (nf_socket NF AF_UNIX w) as H1. destruct (sys_socket AF_UNIX w) as [sock w1]. cbn in H1. destruct (sock <? 0); [done|].
  pose proof (nf_unlink NF (cstr path) w1) as H2. set (w2 := sys_unlink (cstr path) w1) in *.
  pose proof (nf_umask NF 127 w2) as H3. destruct (sys_umask 127 w2) as [m w3]. cbn in H3.
  pose proof (nf_bind NF sock (SaUnix (cstr path)) w3) as H4. destruct (sys_bind sock (SaUnix (cstr path)) w3) as [b w4]. cbn in H4.
  pose proof (nf_umask NF m w4) as H5. destruct (sys_umask m w4) as [m2 w5]. cbn in H5.
  assert (H6 : RW w w5) by (etrans; [exact H1|]; etrans; [exact H2|]; etrans; [exact H3|]; by etrans).
  destruct b; cbn [negb snd]; [|etrans; [exact H6|apply nf_m_close]].
  pose proof (nf_listen NF sock DROPBEAR_LISTEN_BACKLOG w5) as H7. destruct (sys_listen sock DROPBEAR_LISTEN_BACKLOG w5) as [ok w6]. cbn in H7.
  assert (H8 : RW w w6) by by etrans. destruct ok; cbn [negb snd]; [etrans; [exact H8|apply NF]|].
  etrans; [exact H8|]. etrans; [apply (nf_unlink NF (cstr path))|apply nf_m_close].
Qed.

Lemma kept_listen_streamlocal d (f : fws) : kept_all f -> returns (fun x => kept_all (snd x)) (listen_streamlocal rw d f).
Proof.
  intros [H Hl]. unfold listen_streamlocal. destruct (socket_path d) as [path|]; [|done]. destruct (_ <=? _); [done|].
  pose proof (nf_bind_streamlocal path (world (fch f))) as Hw. destruct (bind_streamlocal path (world (fch f))) as [o w]. cbn in Hw.
  destruct o as [fd|]; [|split; [by apply kept_world|exact Hl]].
  destruct (new_listener _ _ _ _ _ _ _) as [[i ls] w'] eqn:E. apply new_listener_quiet in E as [Hw' Hls]; [|exact Hl|].
  - split; [|exact Hls]. apply kept_world; [done|]. etrans; [exact Hw|]. destruct i; [done|]. etrans; [exact Hw'|].
    etrans; [apply (nf_unlink NF (cstr path))|apply nf_m_close].
  - split; [intros; by apply kept_stream_acceptor|]. intros d' w0. cbn. unfold cleanup_streamlocal, unlink_streamsocket. destruct (socket_path d'); [apply NF|reflexivity].
Qed.

(** ** Requests *)

Ltac kf := repeat
  lazymatch goal with
  | |- returns _ (obind (fpr _ _) _) =>
      eapply returns_bind; [first [by apply kept_fpr_pr | by apply kept_string]|]; let x := fresh "x" in intros x _ ?; cbn beta in *; osplit x; cbn [snd fst] in *
  | |- returns _ (if ?c then _ else _) => destruct c; [done|]
  end.

Lemma kept_cancel_tcp (f : fws) : kept_all f -> returns (fun x => kept_all (snd x)) (svr_cancelremotetcp f).
Proof.
  intros H. unfold svr_cancelremotetcp. kf. eapply returns_bind; [apply returns_true|]. intros [i|] _ _; [|done].
  eapply returns_bind; [by apply kept_remove_listener|]. by intros f1 _ Hf1.
Qed.

Lemma kept_cancel_stream (f : fws) : kept_all f -> returns (fun x => kept_all (snd x)) (svr_cancelremotestreamlocal f).
Proof.
  intros H. unfold svr_cancelremotestreamlocal. kf. eapply returns_bind; [apply returns_true|]. intros [i|] _ _; [|done].
  eapply returns_bind; [by apply kept_remove_listener|]. by intros f1 _ Hf1.
Qed.

Lemma kept_remotetcp (f : fws) : kept_all f -> returns (fun x => kept_all (snd x)) (remotetcp_listen rw opts f).
Proof.
  intros H. unfold remotetcp_listen. kf. eapply returns_bind; [by apply kept_listen_tcpfwd|]. intros [[i|] f1] _ Hf1; [|done]. cbn in Hf1.
  destruct (listeners f1 !! i) as [[l|]|] eqn:E; [|done|done]. destruct (socks l); [done|]. eapply returns_bind; [apply returns_true|]. intros lport _ _.
  destruct Hf1 as [Hs Hl]. split; [exact Hs|]. intros j l' Hj. cbn in Hj.
  apply list_lookup_insert_Some in Hj as [(_ & [= <-] & _)|[_ Hj]]; [exact (Hl _ _ E)|by eapply Hl].
Qed.

Lemma kept_remotetcpreq wr (f : fws) : kept_all f -> returns (fun x => kept_all (snd x)) (svr_remotetcpreq rw opts wr f).
Proof.
  intros H. unfold svr_remotetcpreq. eapply returns_bind; [by apply kept_remotetcp|]. intros [ret f1] _ H1. cbn in H1.
  eapply (returns_bind kept_all); [|by intros f2 _ H2]. destruct wr; [|done]. apply kept_fon_ses; [|done]. intros p.
  eapply (rp_bind RP); [|intros q; apply NF]. destruct ret as [[port lport]|]; [|apply (rp_pw _ _ _ forward_frame)].
  eapply (rp_bind RP); [apply (rp_pw _ _ _ forward_frame)|]. intros q. destruct (port =? 0); [apply (rp_pw _ _ _ forward_frame)|apply rp_refl; apply _].
Qed.

Lemma kept_remotestream (f : fws) : kept_all f -> returns (fun x => kept_all (snd x)) (svr_remotestreamlocalreq rw opts f).
Proof.
  intros H. unfold svr_remotestreamlocalreq. kf. eapply returns_bind; [by apply kept_listen_streamlocal|]. by intros [i f1] _ Hf1.
Qed.

Lemma kept_answer (b : bool) (m : outcome (bool * fws)) : returns (fun x => kept_all (snd x)) m ->
  returns (fun x => kept_all (snd x)) (let* (ret, f) := m in Ok (ret, b, f)).
Proof. intros H. eapply returns_bind; [exact H|]. by intros [ret f] _ Hf. Qed.

Lemma kept_global (f : fws) : kept_all f -> returns kept_all (svr_recv_msg_global_request rw opts f).
Proof.
  intros H. unfold svr_recv_msg_global_request. kf. eapply (returns_bind (fun x => kept_all (snd x))).
  { destruct (_ || _); [assumption|]. destruct (_ <? _); [assumption|]. unfold global_request.
    destruct (strcmp_eq (str "tcpip-forward") _); [apply kept_answer, kept_remotetcpreq; assumption|].
    destruct (strcmp_eq (str "cancel-tcpip-forward") _); [apply kept_answer, kept_cancel_tcp; assumption|].
    destruct (strcmp_eq (str "streamlocal-forward@openssh.com") _); [apply kept_answer, kept_remotestream; assumption|].
    destruct (strcmp_eq (str "cancel-streamlocal-forward@openssh.com") _); [apply kept_answer, kept_cancel_stream; assumption|assumption]. }
  intros [[ret wr] f1] _ Hf1. cbn in Hf1. destruct wr; [|exact Hf1]. apply kept_fon_ses; [|exact Hf1]. intros p.
  destruct ret; [apply (rp_request_success _ _ _ forward_frame)|apply (rp_request_failure _ _ _ forward_frame)].
Qed.

(** ** Everything that can happen *)

Lemma kept_handle_msg m (s : chs) : kept_state s -> returns kept_state (handle_msg rw m s).
Proof.
  intros H. destruct m; cbn [handle_msg].
  - by apply (frame_open _ _ _ _ forward_frame).
  - by apply (frame_confirmation _ _ _ forward_frame).
  - by apply (frame_open_failure _ _ _ forward_frame).
  - by apply (frame_recv_data _ _ _ _ forward_frame).
  - by apply (frame_window _ _ _ forward_frame).
  - by apply (frame_eof _ _ _ forward_frame).
  - by apply (frame_recv_close _ _ _ forward_frame).
  - by apply (frame_request _ _ _ forward_frame).
Qed.

Lemma fwd_kept_step e (f : fws) : kept_all f -> returns kept_all (fwd_step rw opts chansess e f).
Proof.
  intros Hf. pose proof Hf as [H Hl]. assert (Hpl : forall pl, kept_state (with_payload pl (fch f))) by (intros; apply kept_ses; [done|apply NF]).
  destruct e as [m pl|pl|rd wr sig| |wr]; cbn [fwd_step].
  - eapply returns_bind; [apply kept_handle_msg, Hpl|]. by intros s _ Hs.
  - apply kept_global. split; [apply Hpl|exact Hl].
  - eapply returns_bind; [apply (frame_channelio _ _ _ _ forward_frame); [|done]|by intros s _ Hs].
    intros s Hs. apply kept_handle_listeners; [|done]. intros l [i Hi]%list_elem_of_lookup. by eapply Hl.
  - eapply returns_bind; [by apply kept_set_connect_fds|]. by intros [fds s] _ Hs.
  - eapply returns_bind; [by apply kept_handle_connect_fds|]. by intros s _ Hs.
Qed.
End frame.
