(* ===== verification/ChanSessFrame.v ===== *)
(** * What sessions leave alone

    The handlers of sessions reach the session of the connection and the kernel through their
    classes; apart from that they change the channels and the table of processes.  An
    invariant that survives those operations, and the forking of children of a kind, survives
    the handlers and the reaping of children. *)

From S2P Require Import Prelude Bytes CString Buffer Packet SessionData Channel AuthKeys Netio Forward Sshd4a ChanSess.

Section frame.
Context {P W : Type} {SS : SesSession P} {KS : SesSys W}.
Context (cf : sshd4a) (opts : fwd_opts) (pass_on_env : bool).
Context (RP : P -> P -> Prop) {HRP : PreOrder RP} (RW : W -> W -> Prop) {HRW : PreOrder RW}.
Context (J : chses (P := P) (W := W) -> Prop) (good : outcome child -> Prop).

Implicit Types (s : chses (P := P) (W := W)) (p : P) (w : W).

Record ses_frame : Prop := {
  sf_wp b p : RP p (ses_set_writepayload b p);
  sf_pl b p : RP p (ses_set_payload b p);
  sf_encrypt p : returns (RP p) (ses_encrypt_packet p);
  sf_close fd w : RW w (sys_close fd w);
  sf_setsockopt fd o w : RW w (sys_setsockopt fd o w);
  sf_priority pr w : RW w (sys_set_sock_priority pr w);
  sf_pipe w : RW w (snd (sys_pipe w));
  sf_waitpids w : RW w (snd (sys_waitpids w));
  sf_kill pid sig w : RW w (snd (sys_kill pid sig w));
  sf_openpty w : RW w (snd (sys_openpty w));
  sf_winsize fd x w : RW w (sys_winsize fd x w);
  sf_tcsetattr fd t w : RW w (sys_tcsetattr fd t w);
  sf_ses p s : J s -> RP (ses s) p -> J (with_ses p s);
  sf_world w s : J s -> RW (world s) w -> J (with_world w s);
  sf_table s s' : J s -> ses s' = ses s -> world s' = world s -> conns s' = conns s -> J s';
  sf_fork ch w s : J (with_world w s) -> good ch -> J (with_world (snd (sys_fork ch w)) s);
}.

Context (SF : ses_frame).

(** The commands children run in the states of [J]. *)
Definition good_exec (cs : ChanSess) (p : P) : Prop := forall (f : image -> child) (ok : bool) w,
  (f = (fun im => ChildExec (slave cs) (slave cs) (slave cs) (Some (slave cs)) im) \/ exists a b c, f = ChildExec a b c None) ->
  good (let* im := execchild cf pass_on_env cs p w in Ok (f im)).

Context (Hserves : good (Ok ChildServes)) (Hdup : good (Exit "Child dup2() failure")).
Context (Hexec : forall cs cs' s, J s ->
  make_connection_string (take_forced_command opts (fs_pubkey_options (ses s)) cs) (ses s) (world s) = Ok cs' -> good_exec cs' (ses s)).

Definition keeps {A} (m : outcome (A * chses (P := P) (W := W))) : Prop := returns (fun x => J (snd x)) m.

Lemma rps_pw (f : buffer -> outcome buffer) p : returns (RP p) (pw f p).
Proof. unfold pw. destruct (f _); cbn; [apply SF|done..]. Qed.

Lemma rps_bind p (m : outcome P) (k : P -> outcome P) : returns (RP p) m -> (forall q, returns (RP q) (k q)) -> returns (RP p) (obind m k).
Proof.
  intros Hm Hk. eapply returns_bind; [exact Hm|]. intros q _ Hq. eapply returns_mono; [apply Hk|]. intros r ?. by etrans.
Qed.

Ltac rps := repeat first [ apply rps_pw | apply (sf_encrypt SF) | done | eapply rps_bind; [|intros ?; cbv beta] ].

Lemma keep_pr {A} (f : buffer -> outcome (A * buffer)) s : J s -> keeps (pr f s).
Proof.
  intros H. unfold keeps, pr. destruct (ses_payload (ses s)); [|done]. eapply returns_bind; [apply returns_true|]. intros [a b'] _ _. cbn.
  apply SF; [done|apply SF].
Qed.

Lemma keep_put i c s : J s -> J (put_chan i c s).
Proof. intros H. by apply (sf_table SF s). Qed.

Lemma keep_chansess i cs s : J s -> returns J (put_chansess i cs s).
Proof. intros H. unfold put_chansess. eapply returns_bind; [apply returns_true|]. intros c _ _. by apply keep_put. Qed.

Lemma keep_prio s : J s -> J (update_channel_prio s).
Proof.
  intros H. unfold update_channel_prio. destruct (_ <? _); [done|]. destruct (bool_decide _); [done|].
  apply (sf_table SF (with_world (sys_set_sock_priority (if existsb (fun o => match o with Some c => bool_decide (prio c = DROPBEAR_PRIO_LOWDELAY) | None => false end) (channels s)
    || negb (existsb (fun o => match o with Some _ => true | None => false end) (channels s)) then DROPBEAR_PRIO_LOWDELAY else DROPBEAR_PRIO_NORMAL) (world s)) s)); [|done..].
  apply SF; [done|apply SF].
Qed.

(** ** Exits *)

Lemma keep_closechansess c p : returns (RP p) (closechansess c p).
Proof.
  unfold closechansess, send_exitsignalstatus, send_msg_chansess_exitsignal, send_msg_chansess_exitstatus, start_send_channel_request.
  destruct (ctypedata c) as [cs|]; [|by cbn]. destruct (_ <=? _); [|by cbn]. destruct (0 <? exitsignal _).
  - do 2 (eapply returns_bind; [apply returns_true|]; intros _ _ _). destruct (signame_of _); [|by cbn]. rps.
  - do 2 (eapply returns_bind; [apply returns_true|]; intros _ _ _). rps.
Qed.

Lemma keep_set_exit e f s : J s -> returns J (set_session_exit e f s).
Proof.
  intros H. unfold set_session_exit. destruct (child_chansess e); [|done]. eapply returns_bind; [apply returns_true|]. intros cs _ _. by apply keep_chansess.
Qed.

Lemma keep_checksignal_loop l : forall s, J s -> returns J (checksignal_loop l s).
Proof.
  induction l as [|[pid status] l IH]; intros s H; [done|]. cbn [checksignal_loop]. eapply (returns_bind J); [|intros s1 _ H1; by apply IH].
  destruct (find_child _ _); [by apply keep_set_exit|]. cbn. by apply (sf_table SF s).
Qed.

Lemma keep_checksignal sig s : J s -> returns J (svr_chansess_checksignal sig s).
Proof.
  intros H. unfold svr_chansess_checksignal. destruct (negb sig); [done|]. pose proof (sf_waitpids SF (world s)) as Hw.
  destruct (sys_waitpids (world s)) as [l w]. apply keep_checksignal_loop. by apply SF.
Qed.

(** ** Commands *)

Lemma keep_spawn cs s : J s -> good_exec cs (ses s) -> J (with_world (snd (spawn_command (execchild cf pass_on_env cs (ses s)) (world s))) s).
Proof.
  intros H Hg. unfold spawn_command. pose proof (sf_pipe SF (world s)) as H1. destruct (sys_pipe (world s)) as [[[a1 b1]|] w1]; [|by apply SF].
  assert (J1 : J (with_world w1 s)) by by apply SF. pose proof (sf_pipe SF w1) as H2. destruct (sys_pipe w1) as [[[a2 b2]|] w2].
  2: { apply (sf_world SF w2 (with_world w1 s)); done. }
  assert (J2 : J (with_world w2 s)) by by apply (sf_world SF w2 (with_world w1 s)). pose proof (sf_pipe SF w2) as H3. destruct (sys_pipe w2) as [[[a3 b3]|] w3].
  2: { apply (sf_world SF w3 (with_world w2 s)); done. }
  assert (J3 : J (with_world w3 s)) by by apply (sf_world SF w3 (with_world w2 s)). match goal with |- context [sys_fork ?r w3] => set (run := r) end.
  assert (Hrun : good run). { subst run. destruct (_ && _); cbn; [|done]. apply Hg; [done|]. right. by eexists _, _, _. }
  pose proof (sf_fork SF run w3 s J3 Hrun) as J4. destruct (sys_fork run w3) as [pid w4]. cbn in J4. destruct (pid <? 0); [done|]. cbn [snd].
  apply (sf_world SF _ (with_world w4 s)); [done|]. cbn. repeat (etrans; [|apply SF]). done.
Qed.

Lemma keep_lastexit s : J s -> returns J (take_lastexit s).
Proof.
  intros H. unfold take_lastexit. destruct (_ =? _); [done|]. destruct (find_child _ _); [|done].
  eapply returns_bind; [by apply keep_set_exit|]. intros s1 _ H1. by apply (sf_table SF s1).
Qed.

Lemma keep_nopty i s : J s -> (forall cs, chansess_of i s = Ok cs -> good_exec cs (ses s)) -> keeps (noptycommand cf pass_on_env i s).
Proof.
  intros H Hg. unfold noptycommand. eapply (returns_bind (fun cs => chansess_of i s = Ok cs)); [by destruct (chansess_of i s)|]. intros cs _ Hcs.
  pose proof (keep_spawn cs s H (Hg _ Hcs)) as Hs. destruct (spawn_command _ _) as [[[[[wfd rfd] efd] pid]|] w]; [|done].
  eapply returns_bind; [apply returns_true|]. intros c _ _. eapply returns_bind; [|intros s1 _ H1; exact H1].
  apply keep_lastexit. apply (sf_table SF (with_world w s)); done.
Qed.

Lemma keep_pty i s : J s -> (forall cs, chansess_of i s = Ok cs -> good_exec cs (ses s)) -> keeps (ptycommand cf pass_on_env i s).
Proof.
  intros H Hg. unfold ptycommand. eapply (returns_bind (fun cs => chansess_of i s = Ok cs)); [by destruct (chansess_of i s)|]. intros cs _ Hcs.
  destruct (tty cs); [|done]. destruct (_ =? _); [done|]. match goal with |- context [sys_fork ?r (world s)] => set (run := r) end.
  assert (Hrun : good run). { subst run. destruct (_ && _); [|done]. apply (Hg _ Hcs); [done|]. by left. }
  pose proof (sf_fork SF run (world s) s ltac:(by destruct s) Hrun) as J1. destruct (sys_fork run (world s)) as [pid w]. cbn in J1.
  destruct (pid <? 0); [done|]. eapply returns_bind; [by apply keep_chansess|]. intros s1 _ H1.
  eapply returns_bind; [apply returns_true|]. intros c _ _. cbn. set (s2 := addchildpid i pid s1).
  assert (J2 : J s2) by by apply (sf_table SF s1). apply (sf_world SF _ (put_chan i (with_bidir_fd false (with_readfd (master cs) (with_writefd (master cs) c)))
    (with_world (sys_close (slave cs) (world s2)) s2))); [|apply SF]. apply keep_put. apply SF; [done|apply SF].
Qed.

Lemma keep_string s : J s -> keeps (pr_string s).
Proof. apply keep_pr. Qed.

Lemma keep_request_command issubsys cs s : J s -> keeps (request_command cf issubsys cs s).
Proof.
  intros H. unfold keeps, request_command. eapply (returns_bind (fun x => J (snd x))).
  { destruct (cmd cs); [done|]. eapply returns_bind; [by apply keep_string|]. intros [[c n] s1] _ H1. by destruct (_ <? _). }
  intros [[[ok n] cs1] s1] _ H1. cbn in H1. destruct (negb ok); [done|]. destruct issubsys; [|done]. destruct (_ && _); [|done].
  eapply returns_bind; [apply returns_true|]. by intros path _ _.
Qed.

Lemma chansess_put i cs s s1 : put_chansess i cs s = Ok s1 -> forall cs', chansess_of i s1 = Ok cs' -> cs' = cs.
Proof.
  unfold put_chansess, chansess_of, chan. destruct (channels s !! i) as [[c|]|] eqn:E; cbn; [|done..]. intros [= <-] cs'.
  cbn. rewrite list_lookup_insert_eq by (by eapply lookup_lt_Some). cbn. by intros [= <-].
Qed.

Lemma put_chansess_ses i cs s s1 : put_chansess i cs s = Ok s1 -> ses s1 = ses s /\ world s1 = world s.
Proof. unfold put_chansess. destruct (chan i s); cbn; [|done..]. by intros [= <-]. Qed.

Lemma keep_sessioncommand iscmd issubsys i s : J s -> keeps (sessioncommand cf opts pass_on_env iscmd issubsys i s).
Proof.
  intros H. unfold keeps, sessioncommand. eapply returns_bind; [apply returns_true|]. intros cs _ _. destruct (negb _); [done|].
  eapply (returns_bind (fun x => J (snd x))); [destruct iscmd; [by apply keep_request_command|done]|]. intros [[ok cs1] s1] _ H1. cbn in H1.
  destruct (negb ok); [eapply returns_bind; [by apply keep_chansess|by intros s2 _ ?]|].
  eapply (returns_bind (fun cs' => good_exec cs' (ses s1))); [apply returns_Ok; intros cs' Hcs'; by eapply Hexec|]. intros cs2 _ Hg.
  eapply (returns_bind (fun s2 => J s2 /\ forall cs', chansess_of i s2 = Ok cs' -> good_exec cs' (ses s2))).
  { apply returns_Ok. intros s2 Hs2. split; [by eapply (proj1 (returns_Ok _ _) (keep_chansess i cs2 s1 H1))|].
    intros cs' Hcs'. rewrite (chansess_put _ _ _ _ Hs2 _ Hcs'). by rewrite (proj1 (put_chansess_ses _ _ _ _ Hs2)). }
  intros s2 _ [H2 Hg2]. eapply (returns_bind (fun x => J (snd x))).
  { destruct (term cs2); [by apply keep_pty|]. eapply returns_bind; [by apply keep_nopty|]. intros [ret s3] _ H3. cbn in H3. destruct ret; [|done].
    eapply returns_bind; [apply returns_true|]. intros c _ _. cbn. by apply keep_prio, keep_put. }
  intros [ret s3] _ H3. cbn in H3. eapply returns_bind; [apply returns_true|]. intros cs3 _ _.
  eapply returns_bind; [by apply keep_chansess|]. by intros s4 _ ?.
Qed.

(** ** The other requests *)

Lemma keep_signal i s : J s -> keeps (sessionsignal opts i s).
Proof.
  intros H. unfold keeps, sessionsignal. eapply returns_bind; [apply returns_true|]. intros cs _ _. destruct (_ =? _); [done|].
  destruct (has_forced_command _ _); [done|]. eapply returns_bind; [by apply keep_string|]. intros [[t n] s1] _ H1. cbn in H1.
  destruct (list_find _ _) as [[j [sig nm]]|]; [|done]. pose proof (sf_kill SF (pid cs) sig (world s1)) as Hw.
  destruct (sys_kill _ _ _) as [ok w]. cbn. by apply SF.
Qed.

Lemma keep_winchange i s : J s -> keeps (sessionwinchange i s).
Proof.
  intros H. unfold keeps, sessionwinchange. eapply returns_bind; [apply returns_true|]. intros cs _ _. destruct (_ <? _); [done|].
  do 4 (eapply returns_bind; [by apply keep_pr|]; intros [? ?] _ ?). cbn in *. apply SF; [done|apply SF].
Qed.

Lemma keep_termmodes cs s : J s -> returns J (get_termmodes cs s).
Proof.
  intros H. unfold get_termmodes. destruct (sys_tcgetattr _ _) as [t0|]; [|done]. do 2 (eapply returns_bind; [by apply keep_pr|]; intros [? ?] _ ?).
  eapply returns_bind; [apply returns_true|]. intros _ _ _. destruct (_ =? 0); [done|]. eapply returns_bind; [by apply keep_pr|]. intros [t1 s1] _ H4.
  cbn. apply SF; [done|apply SF].
Qed.

Lemma keep_sessionpty i s : J s -> keeps (sessionpty i s).
Proof.
  intros H. unfold keeps, sessionpty. destruct (negb _); [done|]. eapply returns_bind; [apply returns_true|]. intros cs _ _.
  eapply returns_bind; [by apply keep_string|]. intros [[t n] s1] _ H1. cbn in H1. eapply returns_bind; [by apply keep_chansess|]. intros s2 _ H2.
  destruct (_ <? _); [done|]. eapply returns_bind; [apply returns_true|]. intros _ _ _.
  eapply (returns_bind (fun x => J (with_world (snd x) s2))).
  { unfold pty_allocate. pose proof (sf_openpty SF (world s2)) as Hw. destruct (sys_openpty (world s2)) as [[[m sl]|] w]; cbn in Hw; [|by apply SF].
    destruct (sys_ttyname _ _); [|done]. by apply SF. }
  intros [r w] _ H3. cbn in H3. destruct r as [[[m sl] nm]|]; [|done]. eapply returns_bind; [by apply keep_chansess|]. intros s4 _ H4.
  eapply returns_bind; [by apply keep_winchange|]. intros [b s5] _ H5. eapply returns_bind; [by apply keep_termmodes|]. by intros s6 _ H6.
Qed.

Lemma keep_on_ses (op : P -> outcome P) s : J s -> (forall p, returns (RP p) (op p)) -> returns J (on_ses op s).
Proof. intros H Hop. unfold on_ses. eapply returns_bind; [apply Hop|]. intros p _ Hp. by apply SF. Qed.

Lemma keep_request i s : J s -> returns J (chansessionrequest cf opts pass_on_env i s).
Proof.
  intros H. unfold chansessionrequest. eapply returns_bind; [by apply keep_string|]. intros [[type n] s1] _ H1. cbn in H1.
  eapply returns_bind; [by apply keep_pr|]. intros [wr s2] _ H2. eapply (returns_bind (fun x => J (snd x))).
  { destruct (_ <? _); [done|]. do 2 (eapply returns_bind; [apply returns_true|]; intros ? _ _). unfold session_request.
    destruct (strcmp_eq _ _); [by apply keep_winchange|]. destruct (strcmp_eq _ _); [by apply keep_sessioncommand|].
    destruct (strcmp_eq _ _); [by apply keep_sessionpty|]. destruct (strcmp_eq _ _); [by apply keep_sessioncommand|].
    destruct (strcmp_eq _ _); [by apply keep_sessioncommand|]. destruct (strcmp_eq _ _); [by apply keep_signal|done]. }
  intros [ret s3] _ H3. cbn in H3. destruct (negb _); [|done]. eapply returns_bind; [apply returns_true|]. intros c _ _.
  apply keep_on_ses; [done|]. intros p. destruct ret; unfold send_msg_channel_success, send_msg_channel_failure, send_msg_channel_simple;
    (destruct (sent_close c); [by cbn|]); rps.
Qed.

Lemma keep_newchansess i s : J s -> keeps (newchansess i s).
Proof.
  intros H. unfold keeps, newchansess. do 2 (eapply returns_bind; [apply returns_true|]; intros ? _ _). by apply keep_put.
Qed.
End frame.
