(* ===== verification/ChanSessSafety.v ===== *)
(** * Safety of sessions

    The handlers of sessions keep the contracts of the channels and of forwarding: they keep
    the invariant of the table of channels with that of the processes, follow no NULL or
    dangling pointer, and leave the forwarding alone.  [SesSysLaws] states what they rely on of
    the kernel, with a record of the children forked. *)

From S2P Require Import Prelude Bytes CString Buffer CircBuffer Packet SessionData Channel ChannelLaws ChannelFlow ChannelData ChannelClose.
From S2P Require Import ChannelSafety AuthKeys Netio NetioSafety Forward ForwardSafety ForwardChannels Sshd4a ChanSess ChanSessFrame.

(** ** The kernel *)

Class SesSysLaws (W : Type) {KS : SesSys W} := {
  #[global] ks_net :: NetLaws W;
  forked : W -> list (outcome child);
  kf_read fd n w : forked (snd (sys_read fd n w)) = forked w;
  kf_writev fd bs w : forked (snd (sys_writev fd bs w)) = forked w;
  kf_close fd w : forked (sys_close fd w) = forked w;
  kf_shutdown fd how w : forked (sys_shutdown fd how w) = forked w;
  kf_sock_priority pr w : forked (sys_set_sock_priority pr w) = forked w;
  kf_socket fam w : forked (snd (sys_socket fam w)) = forked w;
  kf_setsockopt fd o w : forked (sys_setsockopt fd o w) = forked w;
  kf_bind fd a w : forked (snd (sys_bind fd a w)) = forked w;
  kf_listen fd n w : forked (snd (sys_listen fd n w)) = forked w;
  kf_accept fd w : forked (snd (sys_accept fd w)) = forked w;
  kf_connect fd a w : forked (snd (sys_connect fd a w)) = forked w;
  kf_getaddrinfo h p b w : forked (snd (sys_getaddrinfo h p b w)) = forked w;
  kf_unlink p w : forked (sys_unlink p w) = forked w;
  kf_umask m w : forked (snd (sys_umask m w)) = forked w;
  kf_pipe w : forked (snd (sys_pipe w)) = forked w;
  kf_waitpids w : forked (snd (sys_waitpids w)) = forked w;
  kf_kill pid sig w : forked (snd (sys_kill pid sig w)) = forked w;
  kf_openpty w : forked (snd (sys_openpty w)) = forked w;
  kf_winsize fd x w : forked (sys_winsize fd x w) = forked w;
  kf_tcsetattr fd t w : forked (sys_tcsetattr fd t w) = forked w;
  (** A failed [fork] makes no child. *)
  kf_fork c w : forked (snd (sys_fork c w)) = forked w ++ (if fst (sys_fork c w) <? 0 then [] else [c]);
  kn_pipe w : net_log (snd (sys_pipe w)) = net_log w;
  kn_waitpids w : net_log (snd (sys_waitpids w)) = net_log w;
  kn_kill pid sig w : net_log (snd (sys_kill pid sig w)) = net_log w;
  kn_openpty w : net_log (snd (sys_openpty w)) = net_log w;
  kn_winsize fd x w : net_log (sys_winsize fd x w) = net_log w;
  kn_tcsetattr fd t w : net_log (sys_tcsetattr fd t w) = net_log w;
  kn_fork c w : net_log (snd (sys_fork c w)) = net_log w;
  ks_fork_pid c w : fst (sys_fork c w) <> 0;
  ks_waitpids w : Forall (fun x => 0 < fst x) (fst (sys_waitpids w));
  ks_tcgetattr fd w t : sys_tcgetattr fd w = Some t -> length (c_cc t) = NCCS;
}.

(** ** The table of processes *)

(** A session with new data and the same process. *)
Lemma procs_data h l ps e i c c' cs cs' : procs_ok h l ps e -> l !! i = Some (Some c) -> type c' = type c ->
  ctypedata c = Some cs -> ctypedata c' = Some cs' -> pid cs' = pid cs -> typed c' -> procs_ok h (<[i := Some c']> l) ps e.
Proof.
  intros [H1 H2 H3 H4] Hc Ht Hd Hd' Hpid Hty. apply lookup_lt_Some in Hc as Hlt. split; [..|done].
  - intros j d. rewrite list_lookup_insert_Some. intros [(_ & [= <-] & _)|[_ Hj]] Hh; [done|by eapply H1].
  - intros p Hp. destruct (H2 p Hp) as [->|(j & d & ds & -> & Hpos & Hj & Hdt & Hds)]; [by left|]. right. destruct (decide (i = j)) as [->|].
    + exists j, c', cs'. rewrite list_lookup_insert_eq by done. rewrite Hc in Hj. injection Hj as <-. split_and!; congruence.
    + exists j, d, ds. by rewrite list_lookup_insert_ne.
  - intros j d ds. rewrite list_lookup_insert_Some. intros [(-> & [= <-] & _)|[_ Hj]]; [|by apply H3].
    rewrite Ht, Hd'. intros Hst [= <-] Hp. rewrite Hpid in *. by apply (H3 _ c).
Qed.

(** A session that has just got its data. *)
Lemma procs_init l ps e i c c' cs' : procs_ok (Some i) l ps e -> l !! i = Some (Some c) -> ctypedata c = None ->
  ctypedata c' = Some cs' -> pid cs' = 0 -> typed c' -> procs_ok None (<[i := Some c']> l) ps e.
Proof.
  intros [H1 H2 H3 H4] Hc Hd Hd' Hpid Hty. apply lookup_lt_Some in Hc as Hlt. split; [..|done].
  - intros j d. rewrite list_lookup_insert_Some. intros [(_ & [= <-] & _)|[Hne Hj]] _; [done|]. apply (H1 j); [done|congruence].
  - intros p Hp. destruct (H2 p Hp) as [->|(j & d & ds & -> & Hpos & Hj & Hdt & Hds)]; [by left|]. right. exists j, d, ds.
    rewrite list_lookup_insert_ne; [done|]. intros ->. congruence.
  - intros j d ds. rewrite list_lookup_insert_Some. intros [(_ & [= <-] & _)|[_ Hj]]; [|by apply H3]. rewrite Hd'. intros _ [= <-]. lia.
Qed.

(** The entries after a process has been added. *)
Definition added (e : ChildPid) (l : list ChildPid) : list ChildPid :=
  match list_find (fun e => child_pid e = -1) l with Some (j, _) => <[j := e]> l | None => l ++ [e] end.

Lemma added_elem e l x : x ∈ added e l -> x = e \/ x ∈ l.
Proof.
  unfold added. destruct (list_find _ l) as [[j y]|] eqn:E.
  - intros [k Hk]%list_elem_of_lookup. apply list_lookup_insert_Some in Hk as [(_ & -> & _)|[_ Hk]]; [by left|right]. by eapply list_elem_of_lookup_2.
  - rewrite elem_of_app, list_elem_of_singleton. tauto.
Qed.

Lemma added_new e l : e ∈ added e l.
Proof.
  unfold added. destruct (list_find _ l) as [[j y]|] eqn:E; [|apply elem_of_app; right; by apply list_elem_of_singleton].
  apply list_find_Some in E as (Hj & _). eapply list_elem_of_lookup_2, list_lookup_insert_eq. by eapply lookup_lt_Some.
Qed.

Lemma added_kept e l x : x ∈ l -> child_pid x <> -1 -> x ∈ added e l.
Proof.
  intros Hx Hp. unfold added. destruct (list_find _ l) as [[j y]|] eqn:E; [|apply elem_of_app; by left].
  apply list_find_Some in E as (Hj & Hy & _). apply list_elem_of_lookup in Hx as [k Hk]. apply list_elem_of_lookup. exists k.
  rewrite list_lookup_insert_ne; [done|]. intros ->. congruence.
Qed.

Lemma addchildpid_added {P W} {SP : Session P} i n (s : chses (P := P) (W := W)) : addchildpid i n s = with_childpids (added (mkchild n (Some i)) (childpids s)) s.
Proof. done. Qed.

(** A session gets its process. *)
Lemma procs_start l ps e i c c' cs cs' : procs_ok None l ps e -> l !! i = Some (Some c) -> type c = svrchansess -> type c' = type c ->
  ctypedata c = Some cs -> pid cs = 0 -> ctypedata c' = Some cs' -> 0 < pid cs' -> typed c' ->
  procs_ok None (<[i := Some c']> l) (added (mkchild (pid cs') (Some i)) ps) e.
Proof.
  intros [H1 H2 H3 H4] Hc Hs Ht Hd H0 Hd' Hpid Hty. apply lookup_lt_Some in Hc as Hlt. split; [..|done].
  - intros j d. rewrite list_lookup_insert_Some. intros [(_ & [= <-] & _)|[Hne Hj]] Hh; [done|by eapply H1].
  - intros p [->|Hp]%added_elem.
    + right. exists i, c', cs'. rewrite list_lookup_insert_eq by done. split_and!; congruence.
    + destruct (H2 p Hp) as [->|(j & d & ds & -> & Hpos & Hj & Hdt & Hds)]; [by left|]. right. exists j, d, ds.
      rewrite list_lookup_insert_ne; [done|]. intros ->. rewrite Hc in Hj. injection Hj as <-. rewrite Hd in Hds. injection Hds as <-. lia.
  - intros j d ds. rewrite list_lookup_insert_Some. intros [(-> & [= <-] & _)|[Hne Hj]].
    + rewrite Hd'. intros _ [= <-] _. apply added_new.
    + intros Hdt Hds Hp. pose proof (H3 _ _ _ Hj Hdt Hds Hp) as Hin. apply added_kept; [done|]. cbn.
      destruct (H2 _ Hin) as [[=]|(k & d' & ds' & [= Hp' <-] & Hpos & _)]; lia.
Qed.

(** ** Terminal modes *)

Definition termcode_fits (x : Z * termcode_type) : bool :=
  match snd x with TERMCODE_CONTROLCHAR => (0 <=? fst x) && (fst x <? Z.of_nat NCCS) | _ => true end.

Lemma termcodes_fit : forallb termcode_fits termcodes = true.
Proof. vm_compute. reflexivity. Qed.

(** Every opcode has an entry, whose character is in [c_cc]. *)
Lemma apply_mode_ok opcode value t : 0 <= opcode -> length (c_cc t) = NCCS -> exists t', apply_mode opcode value t = Ok t' /\ length (c_cc t') = NCCS.
Proof.
  intros Ho Hl. unfold apply_mode. destruct (Z.ltb_spec MAX_TERMCODE opcode) as [|Hm]; [by eexists|].
  destruct (lookup_lt_is_Some_2 termcodes (Z.to_nat opcode)) as [[m ty] Hx]; [unfold MAX_TERMCODE in Hm; change (length termcodes) with 94%nat; lia|].
  rewrite Hx. pose proof (proj1 (forallb_forall _ _) termcodes_fit _ (proj1 (list_elem_of_In _ _) (list_elem_of_lookup_2 _ _ _ Hx))) as Hfit.
  destruct ty; try by eexists. unfold termcode_fits in Hfit. cbn in Hfit. apply andb_prop in Hfit as [H1%Z.leb_le H2%Z.ltb_lt].
  rewrite mem_write_in by (unfold zlen; rewrite ?Hl; cbn; unfold NCCS in *; lia). cbn. eexists. split; [done|]. cbn.
  assert (Hz : zlen (blit (c_cc t) m [u8 value]) = zlen (c_cc t)) by (apply zlen_blit; [done|unfold zlen; rewrite Hl; cbn; unfold NCCS in *; lia]).
  unfold zlen in Hz. lia.
Qed.

Lemma getint_moves b n b' : wf b -> buf_getint b = Ok (n, b') -> buf_len b' = buf_len b /\ buf_pos b' = buf_pos b + 4.
Proof.
  intros Hw H. unfold buf_getint in H. apply obind_Ok in H as (bs & _ & H). apply obind_Ok in H as (b1 & Hi & [= _ <-]).
  rewrite buf_incrpos_eq in Hi by done. destruct (_ <? _); [done|]. by injection Hi as <-.
Qed.

Lemma termmodes_safe fuel : forall t b, wf b -> buf_len b - buf_pos b < Z.of_nat fuel -> length (c_cc t) = NCCS ->
  safe (fun '(t', b') => True /\ wf b') (termmodes_loop fuel t b).
Proof.
  induction fuel as [|fuel IH]; intros t b Hw Hf Hl; [destruct Hw; lia|]. cbn [termmodes_loop].
  pose proof (buf_getbyte_post b Hw) as Hpost. rewrite buf_getbyte_eq in * by done. destruct (Z.leb_spec (buf_len b) (buf_pos b)) as [|Hlt]; [done|].
  destruct (buf_data b !! Z.to_nat (buf_pos b)) as [op|]; [|done]. destruct Hpost as [Hop Hw1]. cbn [obind]. destruct (_ || _) eqn:Hstop; [done|].
  pose proof (safe_getint _ Hw1) as Hint. destruct (buf_getint (advance b 1)) as [[v b2]|e|] eqn:E; [|done|destruct Hint]. destruct Hint as [_ Hw2].
  destruct (getint_moves _ _ _ Hw1 E) as [Hlen Hpos]. cbn [obind]. destruct (apply_mode_ok op v t) as (t' & -> & Hl'); [apply Hop|done|]. cbn [obind].
  apply IH; [done| |done]. rewrite Hlen, Hpos. cbn. lia.
Qed.

Section safety.
Context {P W : Type} {SS : SesSession P} {FL : FwdLaws P} {KS : SesSys W} {KL : SesSysLaws W} {SL : SysLaws W}.
Context (rw : Z) (cf : sshd4a) (opts : fwd_opts) (pass_on_env : bool).

Abbreviation chs := (chses (P := P) (W := W)).
Abbreviation st_ok_but := (st_ok_but rw).
Abbreviation st_ok := (st_ok rw).
Abbreviation ready := (ready rw).
Abbreviation has_chan := (has_chan (P := P) (W := W)).

#[local] Instance session_types : ChanTypes (P := P) (W := W) := chansess_types cf opts pass_on_env.

(** ** Forwarding is left alone *)

Lemma view_quiet (p q : P) : fwd_view q = fwd_view p -> quiet_ses p q.
Proof. done. Qed.

Definition quiet_from (o : option chs) (s : chs) : Prop :=
  forall s0, o = Some s0 -> quiet_ses (ses s0) (ses s) /\ quiet_world (world s0) (world s) /\ conns s = conns s0.

Lemma session_frame (o : option chs) : ses_frame quiet_ses quiet_world (quiet_from o) (fun _ => True).
Proof.
  split; unfold quiet_from, quiet_ses, quiet_world.
  - apply fw_view_wp.
  - apply fw_view_pl.
  - intros p. apply returns_Ok. apply fw_view_encrypt.
  - apply nl_close.
  - apply nl_setsockopt.
  - apply nl_sock_priority.
  - apply kn_pipe.
  - apply kn_waitpids.
  - apply kn_kill.
  - apply kn_openpty.
  - apply kn_winsize.
  - apply kn_tcsetattr.
  - intros p s H Hp s0 Hs. destruct (H s0 Hs) as (H1 & H2 & H3). cbn. split; [congruence|done].
  - intros w s H Hw s0 Hs. destruct (H s0 Hs) as (H1 & H2 & H3). cbn. split; [done|]. split; [congruence|done].
  - intros s s' H -> -> ->. done.
  - intros c w s H _ s0 Hs. destruct (H s0 Hs) as (H1 & H2 & H3). cbn in *. rewrite kn_fork. done.
Qed.

Lemma chansess_leaves_forwarding : chansess_quiet (chansess_types cf opts pass_on_env).
Proof.
  split.
  - intros ty h c p [= <-]. apply (keep_closechansess quiet_ses quiet_world _ _ (session_frame None)).
  - intros ty h i s [= <-]. eapply returns_mono; [by apply (keep_newchansess _ _ _ _ (session_frame (Some s))); intros ? [= ->]|]. intros x H. by apply (H s).
  - intros ty h i s [= <-]. eapply returns_mono; [by apply (keep_request cf opts pass_on_env _ _ _ _ (session_frame (Some s))); [..|intros ? [= ->]]|]. intros x H. by apply (H s).
Qed.
(** ** The data of a session *)

Definition at_session (i : nat) (c : Channel) (cs : ChanSess) (s : chs) : Prop :=
  channels s !! i = Some (Some c) /\ type c = svrchansess /\ ctypedata c = Some cs.

(** A session still there. *)
Definition stays (i : nat) (s : chs) : Prop := ready s /\ exists c cs, at_session i c cs s.

Lemma at_session_of i c cs (s : chs) : at_session i c cs s -> chansess_of i s = Ok cs /\ chan i s = Ok c.
Proof. intros (Hc & _ & Hd). unfold chansess_of. rewrite (chan_at _ _ _ Hc). cbn. by rewrite Hd. Qed.

Lemma at_session_typed i c cs (s : chs) : st_ok s -> at_session i c cs s -> conn_pending c = None /\ await_open c = false /\ exit_ok (ses_exit cs).
Proof.
  intros Hok (Hc & Ht & Hd). destruct (st_typed rw _ _ _ Hok Hc Ht) as (? & ? & cs' & Hd' & ?). rewrite Hd in Hd'. by injection Hd' as <-.
Qed.

Lemma at_session_chans i c cs (s s' : chs) : at_session i c cs s -> channels s' = channels s -> at_session i c cs s'.
Proof. unfold at_session. by intros H ->. Qed.

Lemma data_chan_ok i c o : chan_ok rw i c -> chan_ok rw i (with_ctypedata o c).
Proof. intros []. by split. Qed.

Lemma ready_ses (s s' : chs) : ready s -> st_ok s' -> ses s' = ses s -> ready s'.
Proof. intros [_ Hp] Hok Hs. split; [done|]. by rewrite Hs. Qed.

Lemma put_chansess_ok i c cs cs' (s : chs) : st_ok s -> at_session i c cs s -> pid cs' = pid cs -> exit_ok (ses_exit cs') ->
  exists s', put_chansess i cs' s = Ok s' /\ st_ok s' /\ at_session i (with_ctypedata (Some cs') c) cs' s' /\ ses s' = ses s /\ world s' = world s /\
    childpids s' = childpids s /\ lastexit s' = lastexit s /\ channels s' = <[i := Some (with_ctypedata (Some cs') c)]> (channels s).
Proof.
  intros Hok Hat Hpid He. pose proof (at_session_typed _ _ _ _ Hok Hat) as (Hcp & Haw & _). pose proof Hat as (Hc & Ht & Hd).
  destruct (at_session_of _ _ _ _ Hat) as [_ Hch]. unfold put_chansess. rewrite Hch. cbn [obind]. eexists. split; [done|].
  apply lookup_lt_Some in Hc as Hlt. set (c' := with_ctypedata (Some cs') c).
  assert (Hty : typed c') by (intros _; split; [done|]; split; [done|]; by exists cs').
  pose proof (procs_data None _ _ _ i c c' cs cs' (so_procs rw _ Hok) Hc eq_refl Hd eq_refl Hpid Hty) as Hp.
  pose proof (st_replace rw None None i c c' s (ses s) (world s) _ _ Hok Hc (data_chan_ok _ _ _ (so_chans rw _ Hok _ _ Hc)) eq_refl Hp (so_idle rw _ Hok) (so_payload rw _ Hok)) as Hst.
  split; [by destruct s|]. split; [|done]. split; [|done]. cbn. by apply list_lookup_insert_eq.
Qed.

Lemma stays_put i cs' c cs (s : chs) : ready s -> at_session i c cs s -> pid cs' = pid cs -> exit_ok (ses_exit cs') ->
  safe (stays i) (put_chansess i cs' s).
Proof.
  intros Hr Hat Hp He. destruct (put_chansess_ok i c cs cs' s (proj1 Hr) Hat Hp He) as (s' & -> & Hr' & Hat' & Hs & _). split; [by eapply ready_ses|]. by eexists _, _.
Qed.

Lemma session_string i c cs (s : chs) : ready s -> at_session i c cs s ->
  safe (fun '(t, n, s') => zlen t = n + 1 /\ ready s' /\ at_session i c cs s') (pr_string s).
Proof.
  intros Hr Hat. eapply safe_mono; [by apply (ready_string rw)|]. intros [[t n] s'] ([_ Hn] & Hr' & Hch). split; [done|]. split; [done|].
  by eapply at_session_chans.
Qed.

Lemma session_int i c cs (s : chs) : ready s -> at_session i c cs s ->
  safe (fun '(n, s') => is_u32 n /\ ready s' /\ at_session i c cs s') (pr buf_getint s).
Proof.
  intros Hr Hat. eapply safe_mono; [by apply (getint_ready rw)|]. intros [n s'] (Hn & Hr' & Hch & _). split; [done|]. split; [done|].
  by eapply at_session_chans.
Qed.

Lemma world_ready w (s : chs) : ready s -> ready (with_world w s).
Proof. intros [H Hp]. split; [by apply (st_world rw)|done]. Qed.

(** ** Starting and closing *)

Lemma newchansess_safe i c (s : chs) : st_ok_but (Some i) s -> (exists pl, ses_payload (ses s) = Some pl /\ wf pl) ->
  channels s !! i = Some (Some c) -> ctypedata c = None -> conn_pending c = None -> await_open c = false ->
  safe (fun '(ret, s') => ready s' /\ has_chan i s' /\ ret < 4294967296) (newchansess i s).
Proof.
  intros Hok Hpl Hc Hd Hcp Haw. unfold newchansess. rewrite (chan_at _ _ _ Hc). cbn [obind]. rewrite Hd. cbn. set (c' := with_prio _ _).
  assert (Hty : typed c') by (intros _; split; [done|]; split; [done|]; eexists; split; [done|]; split; cbn; [done|unfold is_byte; lia]).
  pose proof (procs_init _ _ _ i c c' _ (so_procs rw _ Hok) Hc Hd eq_refl eq_refl Hty) as Hp. apply lookup_lt_Some in Hc as Hlt.
  assert (Hc' : chan_ok rw i c') by (pose proof (so_chans rw _ Hok _ _ Hc) as []; by split).
  pose proof (st_replace rw (Some i) None i c c' s (ses s) (world s) _ _ Hok Hc Hc' eq_refl Hp (so_idle rw _ Hok) (so_payload rw _ Hok)) as Hst.
  split; [split; [by destruct s|done]|]. split; [|done]. exists c'. cbn. by apply list_lookup_insert_eq.
Qed.

Lemma sesscheckclose_safe c : type c = svrchansess -> typed c -> exists b a, sesscheckclose c = Ok (with_flushing b c, a).
Proof.
  intros Ht Hty. destruct (Hty Ht) as (_ & _ & cs & Hd & _). unfold sesscheckclose. rewrite Hd. destruct (negb _).
  - by eexists true, _.
  - exists (flushing c). eexists. by destruct c.
Qed.

Lemma cleanupchansess_safe c l : type c = svrchansess -> typed c -> (forall e, e ∈ l -> child_chansess e = Some (index c) -> 0 < child_pid e) ->
  cleanupchansess c l = Ok (forget_child (index c) l).
Proof.
  intros Ht Hty Hl. destruct (Hty Ht) as (_ & _ & cs & Hd & _). unfold cleanupchansess. rewrite Hd.
  assert (Hall : forallb (fun e => negb (bool_decide (child_chansess e = Some (index c))) || (0 <? child_pid e)) l = true).
  { apply forallb_forall. intros e He%list_elem_of_In. specialize (Hl e He). destruct (bool_decide_reflect (child_chansess e = Some (index c))); cbn; [|done].
    apply Z.ltb_lt. auto. }
  by rewrite Hall.
Qed.

(** The name of a signal fits in a message. *)
Lemma signame_text n nm : signame_of n = Some nm -> bytes_ok nm /\ zlen nm <= 4.
Proof.
  unfold signame_of. destruct (list_find _ signames) as [[j [sig x]]|] eqn:E; [|done]. intros [= <-]. apply list_find_Some in E as (Hj & _).
  assert (Hall : Forall (fun x => bytes_ok (snd x) /\ zlen (snd x) <= 4) signames) by (repeat constructor; try done; by apply bytes_check).
  by apply (Forall_lookup_1 _ _ _ _ Hall Hj).
Qed.
(** The message about the end of the process, if it has ended. *)
Definition exit_msgs (c : Channel) (e : exitinfo) : list bytes :=
  let request name rest := SSH_MSG_CHANNEL_REQUEST :: store32h (remotechan c) ++ ssh_string (str name) ++ 0 :: rest in
  if 0 <=? exitpid e then
    if 0 <? exitsignal e then
      match signame_of (exitsignal e) with
      | Some nm => [request "exit-signal" (ssh_string nm ++ exitcore e :: ssh_string [] ++ ssh_string [])]
      | None => []
      end
    else [request "exit-status" (store32h (exitstatus e))]
  else [].

(** A whole message once its writes are known, up to association. *)
Lemma encrypt_request (p0 p : P) m m' : idle p0 -> filled p0 m' p -> m' = m -> m <> [] -> safe (talked p0 [m]) (ses_encrypt_packet p).
Proof. intros Hi Hf -> Hm. by apply encrypt_filled. Qed.

Lemma exitstatus_sends c cs (p : P) : exit_ok (ses_exit cs) -> exitpid (ses_exit cs) <> -1 -> exitsignal (ses_exit cs) <= 0 -> idle p ->
  safe (talked p [SSH_MSG_CHANNEL_REQUEST :: store32h (remotechan c) ++ ssh_string (str "exit-status") ++ 0 :: store32h (exitstatus (ses_exit cs))])
    (send_msg_chansess_exitstatus c cs p).
Proof.
  intros [Hs _] Hp Hz Hi. unfold send_msg_chansess_exitstatus, start_send_channel_request. specialize (Hs Hp).
  rewrite (proj2 (Z.eqb_neq _ _) Hp). assert (exitsignal (ses_exit cs) =? -1 = true) as -> by (apply Z.eqb_eq; lia). cbn [negb oassert obind].
  assert (Hb : bytes_ok (str "exit-status")) by by apply bytes_check. assert (Hl : zlen (str "exit-status") = 11) by done.
  rewrite !obind_assoc. pwstep putbyte_end. rewrite !obind_assoc. pwstep putint_end. pwstep putstring_end.
  pwstep putbyte_end. pwstep putint_end. eapply encrypt_request; [done|eassumption| |done]. cbn. by rewrite <- !app_assoc.
Qed.
Lemma exitsignal_sends c cs (p : P) nm : exit_ok (ses_exit cs) -> exitpid (ses_exit cs) <> -1 -> 0 < exitsignal (ses_exit cs) ->
  signame_of (exitsignal (ses_exit cs)) = Some nm -> idle p ->
  safe (talked p [SSH_MSG_CHANNEL_REQUEST :: store32h (remotechan c) ++ ssh_string (str "exit-signal") ++
      0 :: ssh_string nm ++ exitcore (ses_exit cs) :: ssh_string [] ++ ssh_string []])
    (send_msg_chansess_exitsignal c cs p).
Proof.
  intros [_ Hcore] Hp Hz Hnm Hi. unfold send_msg_chansess_exitsignal, start_send_channel_request.
  rewrite (proj2 (Z.eqb_neq _ _) Hp), (proj2 (Z.ltb_lt _ _) Hz), Hnm. cbn [negb oassert obind].
  assert (Hb : bytes_ok (str "exit-signal")) by by apply bytes_check. assert (Hl : zlen (str "exit-signal") = 11) by done.
  destruct (signame_text _ _ Hnm) as [Hnb Hnl]. rewrite !obind_assoc. pwstep putbyte_end. rewrite !obind_assoc. pwstep putint_end. pwstep putstring_end.
  pwstep putbyte_end. pwstep putstring_end. pwstep putbyte_end.
  assert (Hnil : bytes_ok []) by constructor. change 0 with (zlen (@nil Z)) at 1 2. pwstep putstring_end. pwstep putstring_end.
  eapply encrypt_request; [done|eassumption| |done]. cbn [app]. f_equal. rewrite <- !app_assoc. cbn [app]. by rewrite <- ?app_assoc.
Qed.

Lemma closechansess_sends c cs (p : P) : ctypedata c = Some cs -> exit_ok (ses_exit cs) -> idle p ->
  safe (talked p (exit_msgs c (ses_exit cs))) (closechansess c p).
Proof.
  intros Hd He Hi. unfold closechansess, exit_msgs, send_exitsignalstatus. rewrite Hd. destruct (Z.leb_spec 0 (exitpid (ses_exit cs))) as [Hp|_]; [|by apply talked_refl].
  destruct (Z.ltb_spec 0 (exitsignal (ses_exit cs))) as [Hz|Hz]; [|apply exitstatus_sends; [done|lia|done|done]].
  destruct (signame_of (exitsignal (ses_exit cs))) as [nm|] eqn:E; [apply exitsignal_sends; [done|lia|done|done|done]|].
  unfold send_msg_chansess_exitsignal. rewrite (proj2 (Z.eqb_neq (exitpid _) _)) by lia. rewrite (proj2 (Z.ltb_lt _ _) Hz), E. by apply talked_refl.
Qed.

(** ** Children that end *)

Lemma exited_ok n status e : exit_ok e -> exit_ok (exited n status e).
Proof.
  intros [H1 H2]. unfold exited. split; cbn; unfold WIFSIGNALED, WTERMSIG.
  - intros _. destruct (Z.leb_spec 2 (Z.land (status + 1) 127)) as [H|H]; [right|by left].
    change 127 with (Z.ones 7) in *. rewrite !Z.land_ones in * by lia. change (2 ^ 7) with 128 in *. lia.
  - destruct (_ <=? _); [|done]. unfold WCOREDUMP, is_byte. assert (Z.land status 128 = Z.land (Z.land status (Z.ones 8)) 128) as ->.
    { by rewrite <- Z.land_assoc. }
    assert (H0 : 0 <= Z.land (Z.land status (Z.ones 8)) 128) by (apply Z.land_nonneg; right; lia). split; [done|].
    destruct (Z.eq_dec (Z.land (Z.land status (Z.ones 8)) 128) 0) as [->|Hne]; [lia|]. apply Z.log2_lt_cancel. change (Z.log2 256) with 8.
    eapply Z.le_lt_trans; [apply Z.log2_land; [rewrite Z.land_ones by lia; change (2 ^ 8) with 256; lia|done]|]. change (Z.log2 128) with 7. lia.
Qed.

Lemma find_child_some n l e : find_child n l = Some e -> e ∈ l /\ child_pid e = n.
Proof.
  unfold find_child. destruct (list_find _ l) as [[j x]|] eqn:E; [|done]. intros [= <-]. apply list_find_Some in E as (Hj & Hn & _).
  split; [by eapply list_elem_of_lookup_2|done].
Qed.

(** An entry with a process is that of a session. *)
Lemma child_session e (s : chs) : st_ok s -> e ∈ childpids s -> child_pid e <> -1 ->
  exists i c cs, child_chansess e = Some i /\ at_session i c cs s /\ pid cs = child_pid e.
Proof.
  intros Hok He Hn. destruct (pk_children _ _ _ _ (so_procs rw _ Hok) e He) as [->|(i & c & cs & -> & _ & Hc & Ht & Hd)]; [done|].
  by exists i, c, cs.
Qed.

(** The sessions there are after an operation on one of them. *)
Definition same_sessions (s s' : chs) : Prop := forall i c cs, at_session i c cs s -> exists c' cs', at_session i c' cs' s' /\ pid cs' = pid cs.

Lemma set_exit_ok e f (s : chs) : st_ok s -> e ∈ childpids s -> child_pid e <> -1 -> (forall x, exit_ok x -> exit_ok (f x)) ->
  exists s', set_session_exit e f s = Ok s' /\ st_ok s' /\ ses s' = ses s /\ world s' = world s /\ childpids s' = childpids s /\ lastexit s' = lastexit s /\
    same_sessions s s'.
Proof.
  intros Hr He Hn Hf. destruct (child_session e s Hr He Hn) as (i & c & cs & Hi & Hat & Hpid). unfold set_session_exit. rewrite Hi.
  destruct (at_session_of _ _ _ _ Hat) as [-> _]. cbn [obind]. destruct (at_session_typed _ _ _ _ Hr Hat) as (_ & _ & Hx).
  destruct (put_chansess_ok i c cs (with_ses_exit (f (ses_exit cs)) cs) s Hr Hat eq_refl (Hf _ Hx)) as (s' & -> & Hr' & Hat' & H1 & H2 & H3 & H4 & H5).
  eexists. split; [done|]. split_and!; try done. intros j d ds (Hd1 & Hd2 & Hd3). destruct (decide (i = j)) as [->|Hne].
  - eexists _, _. split; [exact Hat'|]. destruct Hat as (Hc & _ & Hcd). rewrite Hc in Hd1. injection Hd1 as <-. rewrite Hcd in Hd3. by injection Hd3 as <-.
  - exists d, ds. split; [|done]. split; [|done]. rewrite H5. by rewrite list_lookup_insert_ne.
Qed.

Lemma lastexit_ok e (s : chs) : st_ok s -> exit_ok e -> st_ok (with_lastexit e s).
Proof. intros [] He. split; try done. destruct so_procs. by split. Qed.

Lemma same_sessions_refl (s : chs) : same_sessions s s.
Proof. intros i c cs H. by exists c, cs. Qed.

Lemma checksignal_loop_ok l : forall s : chs, st_ok s -> Forall (fun x => 0 < fst x) l ->
  exists s', checksignal_loop l s = Ok s' /\ st_ok s' /\ ses s' = ses s.
Proof.
  induction l as [|[n status] l IH]; intros s Hok Hl; [by exists s|]. apply Forall_cons in Hl as [Hn Hl]. cbn [checksignal_loop fst] in *.
  destruct (find_child n (childpids s)) as [e|] eqn:E.
  - apply find_child_some in E as [He Hen]. destruct (set_exit_ok e (exited n status) s Hok He ltac:(lia) (exited_ok n status)) as (s1 & -> & Hok1 & Hs1 & _).
    cbn [obind]. destruct (IH s1 Hok1 Hl) as (s2 & -> & Hok2 & Hs2). eexists. split; [done|]. split; [done|congruence].
  - cbn [obind]. destruct (IH (with_lastexit (exited n status (lastexit s)) s)) as (s2 & -> & Hok2 & Hs2); [|done|by exists s2].
    apply lastexit_ok; [done|]. apply exited_ok, (so_procs rw _ Hok).
Qed.

Lemma checksignal_ok sig (s : chs) : st_ok s -> exists s', svr_chansess_checksignal sig s = Ok s' /\ st_ok s' /\ ses s' = ses s.
Proof.
  intros Hok. unfold svr_chansess_checksignal. destruct (negb sig); [by exists s|]. pose proof (ks_waitpids (world s)) as Hl.
  destruct (sys_waitpids (world s)) as [l w]. destruct (checksignal_loop_ok l (with_world w s)) as (s' & -> & Hok' & Hs'); [by apply (st_world rw)|done|by exists s'].
Qed.

(** ** Commands *)

Lemma take_lastexit_ok (s : chs) : st_ok s -> exists s', take_lastexit s = Ok s' /\ st_ok s' /\ ses s' = ses s /\ same_sessions s s'.
Proof.
  intros Hok. unfold take_lastexit. pose proof (same_sessions_refl s). destruct (Z.eqb_spec (exitpid (lastexit s)) (-1)) as [|Hn]; [by exists s|].
  destruct (find_child _ _) as [e|] eqn:E; [|by exists s]. apply find_child_some in E as [He Hen]. pose proof (pk_lastexit _ _ _ _ (so_procs rw _ Hok)) as Hx.
  destruct (set_exit_ok e (fun _ => lastexit s) s Hok He ltac:(congruence)) as (s1 & -> & Hok1 & Hs1 & _ & _ & _ & Hsame); [done|].
  cbn [obind]. eexists. split; [done|]. split; [|by split]. apply lastexit_ok; [done|]. destruct Hx. by split.
Qed.

(** The channel of a session with its process: the descriptors may be anything. *)
Lemma started_ok i c cs (s : chs) n wfd rfd efd bi w : ready s -> at_session i c cs s -> pid cs = 0 -> sent_eof c = false -> 0 < n -> (bi = true -> efd = FD_CLOSED) ->
  let c' := with_bidir_fd bi (with_errfd efd (with_readfd rfd (with_writefd wfd (with_ctypedata (Some (with_pid n cs)) c)))) in
  let s' := addchildpid i n (put_chan i c' (with_world w s)) in
  ready s' /\ at_session i c' (with_pid n cs) s'.
Proof.
  intros [Hok Hpl] Hat H0 Heof Hn Hbi c' s'. pose proof (at_session_typed _ _ _ _ Hok Hat) as (Hcp & Haw & Hx). destruct Hat as (Hc & Ht & Hd).
  assert (Hty : typed c') by (intros _; split; [done|]; split; [done|]; by eexists).
  assert (Hc' : chan_ok rw i c').
  { pose proof (so_chans rw _ Hok _ _ Hc) as Hck. assert (Hcl : sent_close c = false).
    { destruct (sent_close c) eqn:E; [|done]. destruct (co_sent_close _ _ _ Hck E). congruence. }
    destruct Hck. split; cbn; try done; congruence. }
  pose proof (procs_start _ _ _ i c c' cs (with_pid n cs) (so_procs rw _ Hok) Hc Ht eq_refl Hd H0 eq_refl Hn Hty) as Hp.
  pose proof (st_replace rw None None i c c' s (ses s) w _ _ Hok Hc Hc' eq_refl Hp (so_idle rw _ Hok) (so_payload rw _ Hok)) as Hst.
  split; [split; [by destruct s|done]|]. split; [|done]. cbn. apply list_lookup_insert_eq. by eapply lookup_lt_Some.
Qed.

Lemma spawn_pid exec (w w' : W) x n : spawn_command exec w = (Some (x, n), w') -> 0 < n.
Proof.
  unfold spawn_command. destruct (sys_pipe w) as [[[a1 b1]|] w1]; [|done]. destruct (sys_pipe w1) as [[[a2 b2]|] w2]; [|done].
  destruct (sys_pipe w2) as [[[a3 b3]|] w3]; [|done]. match goal with |- context [sys_fork ?c w3] => pose proof (ks_fork_pid c w3) as Hn; destruct (sys_fork c w3) as [m w4] end.
  cbn in Hn. destruct (Z.ltb_spec m 0); [done|]. intros [= _ <- _]. lia.
Qed.

Lemma nopty_safe i c cs (s : chs) : ready s -> at_session i c cs s -> pid cs = 0 -> sent_eof c = false ->
  safe (fun x => stays i (snd x)) (noptycommand cf pass_on_env i s).
Proof.
  intros Hr Hat H0 Heof. unfold noptycommand. destruct (at_session_of _ _ _ _ Hat) as [-> Hch]. cbn [obind].
  destruct (spawn_command _ _) as [[[[[wfd rfd] efd] n]|] w] eqn:E; [|split; [by apply world_ready|by exists c, cs]].
  apply spawn_pid in E. change (chan i (with_world w s)) with (chan i s). rewrite Hch. cbn [obind].
  destruct (started_ok i c cs s n wfd rfd efd false w Hr Hat H0 Heof E ltac:(done)) as [Hr1 Hat1].
  match type of Hr1 with ready ?x => set (s1 := x) in * end. destruct (take_lastexit_ok s1 (proj1 Hr1)) as (s2 & Htl & Hok2 & Hs2 & Hsame).
  destruct (Hsame _ _ _ Hat1) as (c2 & cs2 & Hat2 & _). match goal with |- context [take_lastexit ?x] => change x with s1 end. rewrite Htl.
  cbn. split; [by eapply ready_ses|by exists c2, cs2].
Qed.

Lemma pty_safe i c cs (s : chs) : ready s -> at_session i c cs s -> pid cs = 0 -> sent_eof c = false ->
  safe (fun x => stays i (snd x)) (ptycommand cf pass_on_env i s).
Proof.
  intros Hr Hat H0 Heof. unfold ptycommand. destruct (at_session_of _ _ _ _ Hat) as [-> Hch]. cbn [obind].
  assert (Hst : stays i s) by (split; [done|by exists c, cs]). destruct (tty cs); [|done]. destruct (_ =? _); [done|].
  match goal with |- context [sys_fork ?r (world s)] => pose proof (ks_fork_pid r (world s)) as Hn; destruct (sys_fork r (world s)) as [n w] end. cbn in Hn.
  destruct (Z.ltb_spec n 0); [split; [by apply world_ready|by exists c, cs]|]. unfold put_chansess. change (chan i (with_world w s)) with (chan i s). rewrite Hch.
  cbn [obind]. assert (Hlt : (i < length (channels s))%nat) by (destruct Hat as (Hc & _); by eapply lookup_lt_Some).
  destruct (started_ok i c cs s n (master cs) (master cs) (errfd c) false w Hr Hat H0 Heof ltac:(lia) ltac:(done)) as [Hr1 Hat1].
  match type of Hr1 with ready ?x => set (s1 := x) in * end. set (c1 := with_ctypedata _ c). set (s2 := with_world (sys_close _ _) _).
  assert (Hc2 : channels s2 !! i = Some (Some c1)) by (subst s2; cbn; by apply list_lookup_insert_eq). rewrite (chan_at _ _ _ Hc2). cbn [obind safe snd].
  set (s3 := with_world _ _). assert (Hs3 : s3 = with_world (world s3) s1).
  { subst s3 s1 s2. unfold put_chan, addchildpid, with_world, with_channels, with_childpids. cbn. f_equal. by rewrite list_insert_insert_eq. }
  rewrite Hs3. split; [by apply world_ready|]. eexists _, _. exact Hat1.
Qed.

Lemma request_command_safe issubsys i c cs (s : chs) : ready s -> at_session i c cs s ->
  safe (fun '(ok, cs', s') => ready s' /\ at_session i c cs s' /\ pid cs' = pid cs /\ ses_exit cs' = ses_exit cs) (request_command cf issubsys cs s).
Proof.
  intros Hr Hat. unfold request_command. eapply (safe_bind (fun '(ok, n, cs', s') => ready s' /\ at_session i c cs s' /\ pid cs' = pid cs /\ ses_exit cs' = ses_exit cs)).
  { destruct (cmd cs); [done|]. eapply safe_bind; [by eapply session_string|]. intros [[t n] s1] _ (_ & Hr1 & Hat1). destruct (_ <? _); done. }
  intros [[[ok n] cs1] s1] _ (Hr1 & Hat1 & Hp & He). destruct (negb ok); [done|]. destruct issubsys; [|done]. destruct (_ && _); [|done].
  eapply (safe_bind (fun _ => True)); [|by intros path _ _]. destruct (exe_to_lib_fits cf (str "sftp-server")) as (out & -> & _); [|done].
  apply nonul_check. vm_compute. reflexivity.
Qed.

Lemma connection_string_safe cs (p : P) (w : W) :
  safe (fun cs' => pid cs' = pid cs /\ ses_exit cs' = ses_exit cs /\ term cs' = term cs) (make_connection_string cs p w).
Proof.
  unfold make_connection_string, get_socket_address, getaddrstring. destruct (sys_getsockname _ _); [|done]. destruct (sys_getnameinfo _) as [[a b]|]; [|done].
  cbn [obind]. destruct (sys_getpeername _ _); [|done]. destruct (sys_getnameinfo _) as [[d e]|]; done.
Qed.

Lemma forced_command_same key cs : pid (take_forced_command opts key cs) = pid cs /\ ses_exit (take_forced_command opts key cs) = ses_exit cs.
Proof. unfold take_forced_command. destruct (forced_cmd opts); [done|]. by destruct (svr_pubkey_set_forced_command _ _ _). Qed.

Lemma stays_set i f (s : chs) : stays i s -> (forall cs, pid (f cs) = pid cs /\ ses_exit (f cs) = ses_exit cs) ->
  safe (stays i) (let* cs := chansess_of i s in put_chansess i (f cs) s).
Proof.
  intros [Hr (c & cs & Hat)] Hf. destruct (at_session_of _ _ _ _ Hat) as [-> _]. cbn [obind]. destruct (Hf cs) as [H1 H2].
  eapply stays_put; [done|exact Hat|done|]. rewrite H2. by eapply at_session_typed; [apply Hr|].
Qed.

Lemma sessioncommand_safe iscmd issubsys i c cs (s : chs) : ready s -> at_session i c cs s -> (pid cs = 0 -> sent_eof c = false) ->
  safe (fun x => stays i (snd x)) (sessioncommand cf opts pass_on_env iscmd issubsys i s).
Proof.
  intros Hr Hat Heof. unfold sessioncommand. destruct (at_session_of _ _ _ _ Hat) as [-> _]. cbn [obind].
  destruct (Z.eqb_spec (pid cs) 0) as [H0|]; cbn [negb]; [|split; [done|by exists c, cs]]. specialize (Heof H0).
  pose proof (at_session_typed _ _ _ _ (proj1 Hr) Hat) as (_ & _ & Hx).
  eapply (safe_bind (fun '(ok, cs', s') => ready s' /\ at_session i c cs s' /\ pid cs' = pid cs /\ ses_exit cs' = ses_exit cs)).
  { destruct iscmd; [by apply request_command_safe|done]. }
  intros [[ok cs1] s1] _ (Hr1 & Hat1 & Hp1 & He1). destruct (negb ok).
  { eapply safe_bind; [eapply stays_put; [done|exact Hat1|done|by rewrite He1]|by intros s2 _ ?]. }
  destruct (forced_command_same (fs_pubkey_options (ses s1)) cs1) as [Hpf Hef].
  eapply safe_bind; [apply connection_string_safe|]. intros cs2 _ (Hp2 & He2 & _).
  destruct (put_chansess_ok i c cs cs2 s1 (proj1 Hr1) Hat1 ltac:(congruence) ltac:(congruence)) as (s2 & -> & Hok2 & Hat2 & Hs2 & _). cbn [obind].
  assert (Hr2 : ready s2) by by eapply ready_ses. eapply (safe_bind (fun x => stays i (snd x))).
  { destruct (term cs2); [eapply pty_safe; [done|exact Hat2|congruence|done]|].
    eapply safe_bind; [eapply nopty_safe; [done|exact Hat2|congruence|done]|]. intros [ret s3] _ Hst3. cbn in Hst3. destruct ret; [|done].
    destruct Hst3 as [Hr3 (c3 & cs3 & Hat3)]. destruct (at_session_of _ _ _ _ Hat3) as [_ ->]. cbn [obind safe snd].
    set (s4 := put_chan i (with_prio _ c3) s3). assert (Hat4 : at_session i (with_prio DROPBEAR_PRIO_NORMAL c3) cs3 s4).
    { destruct Hat3 as (Hc3 & ? & ?). split; [|done]. cbn. apply list_lookup_insert_eq. by eapply lookup_lt_Some. }
    assert (Hok4 : st_ok s4).
    { destruct Hat3 as (Hc3 & ? & ?). eapply (st_put_chan rw); [apply Hr3|exact Hc3| |done|by split].
      pose proof (so_chans rw _ (proj1 Hr3) _ _ Hc3) as []. by split. }
    pose proof (prio_ses s4) as [Hses Hchs]. split; [|exists (with_prio DROPBEAR_PRIO_NORMAL c3), cs3; by eapply at_session_chans].
    eapply ready_ses; [exact Hr3|by apply (st_prio rw)|by rewrite Hses]. }
  intros [ret s3] _ Hst3. cbn in Hst3. pose proof (stays_set i (fun cs => if ret then with_client_string None (with_connection_string None cs)
    else with_cmd None (with_client_string None (with_connection_string None cs))) s3 Hst3 ltac:(by destruct ret)) as Hfin.
  destruct (chansess_of i s3) as [cs3| |]; [|done..]. cbn [obind] in *. eapply safe_bind; [exact Hfin|]. by intros s4 _ ?.
Qed.

(** ** The other requests *)

Lemma winchange_safe i c cs (s : chs) : ready s -> at_session i c cs s -> safe (fun x => ready (snd x) /\ at_session i c cs (snd x)) (sessionwinchange i s).
Proof.
  intros Hr Hat. unfold sessionwinchange. destruct (at_session_of _ _ _ _ Hat) as [-> _]. cbn [obind]. destruct (_ <? _); [done|].
  eapply safe_bind; [by eapply session_int|]. intros [n1 s1] _ (_ & Hr1 & Hat1). eapply safe_bind; [by eapply session_int|]. intros [n2 s2] _ (_ & Hr2 & Hat2).
  eapply safe_bind; [by eapply session_int|]. intros [n3 s3] _ (_ & Hr3 & Hat3). eapply safe_bind; [by eapply session_int|]. intros [n4 s4] _ (_ & Hr4 & Hat4).
  split; [by apply world_ready|exact Hat4].
Qed.

Lemma signal_safe i c cs (s : chs) : ready s -> at_session i c cs s -> safe (fun x => stays i (snd x)) (sessionsignal opts i s).
Proof.
  intros Hr Hat. unfold sessionsignal. destruct (at_session_of _ _ _ _ Hat) as [-> _]. cbn [obind]. assert (Hst : stays i s) by (split; [done|by exists c, cs]).
  destruct (_ =? _); [done|]. destruct (has_forced_command _ _); [done|]. eapply safe_bind; [by eapply session_string|]. intros [[t n] s1] _ (_ & Hr1 & Hat1).
  destruct (list_find _ _) as [[j [sig nm]]|]; [|split; [done|by exists c, cs]]. destruct (sys_kill _ _ _) as [ok w]. split; [by apply world_ready|by exists c, cs].
Qed.

Lemma termmodes_ready i c cs (s : chs) : ready s -> at_session i c cs s -> safe (fun s' => ready s' /\ at_session i c cs s') (get_termmodes cs s).
Proof.
  intros Hr Hat. unfold get_termmodes. destruct (sys_tcgetattr _ _) as [t|] eqn:Ht; [|done]. apply ks_tcgetattr in Ht.
  eapply safe_bind; [by eapply session_int|]. intros [len s1] _ (Hlen & Hr1 & Hat1).
  destruct Hr1 as [Hok1 (pl & Hpl & Hw)] eqn:Er. clear Er. unfold pr at 1. rewrite Hpl. cbn [obind].
  destruct (Z.eqb_spec len (u32 (buf_len pl - buf_pos pl))) as [Hl|]; cbn [negb exit_if obind]; [|done].
  assert (Hr2 : ready (with_ses (ses_set_payload pl (ses s1)) s1)).
  { split; [|exists pl; split; [apply sl_pl_pl|done]]. apply st_ses; [done|apply idle_payload; [apply Hok1|done]|]. unfold payload_ok. by rewrite sl_pl_pl. }
  destruct (_ =? 0); [done|]. assert (Hpl2 : ses_payload (ses (with_ses (ses_set_payload pl (ses s1)) s1)) = Some pl) by apply sl_pl_pl.
  set (s2 := with_ses _ s1) in *. unfold pr. rewrite Hpl2.
  assert (Hrest : buf_len pl - buf_pos pl < Z.of_nat (S (Z.to_nat len))).
  { destruct Hw. unfold BUF_MAX_SIZE in *. rewrite u32_small in Hl by lia. lia. }
  pose proof (termmodes_safe _ t pl Hw Hrest Ht) as Hs. destruct (termmodes_loop _ t pl) as [[t' b']|e|]; [|done..]. destruct Hs as [_ Hw'].
  cbn [obind safe]. split; [|exact Hat1]. apply world_ready. split; [|exists b'; split; [apply sl_pl_pl|done]].
  apply st_ses; [apply Hr2|apply idle_payload; [apply Hr2|done]|]. unfold payload_ok. by rewrite sl_pl_pl.
Qed.

Lemma sessionpty_safe i c cs (s : chs) : ready s -> at_session i c cs s -> safe (fun x => stays i (snd x)) (sessionpty i s).
Proof.
  intros Hr Hat. unfold sessionpty. assert (Hst : stays i s) by (split; [done|by exists c, cs]). destruct (negb _); [done|].
  destruct (at_session_of _ _ _ _ Hat) as [-> _]. cbn [obind]. eapply safe_bind; [by eapply session_string|]. intros [[t n] s1] _ (_ & Hr1 & Hat1).
  pose proof (at_session_typed _ _ _ _ (proj1 Hr1) Hat1) as (_ & _ & Hx).
  destruct (put_chansess_ok i c cs (with_term (Some t) cs) s1 (proj1 Hr1) Hat1 eq_refl Hx) as (s2 & -> & Hok2 & Hat2 & Hs2 & _). cbn [obind].
  assert (Hr2 : ready s2) by by eapply ready_ses. destruct (_ <? _); [split; [done|by eexists _, _]|]. eapply safe_bind; [by apply safe_exit_if|]. intros _ _ _.
  eapply (safe_bind (fun _ => True)); [unfold pty_allocate; destruct (sys_openpty _) as [[[m sl]|] w]; [|done]; by destruct (sys_ttyname _ _)|].
  intros [r w] _ _. assert (Hr3 : ready (with_world w s2)) by by apply world_ready. destruct r as [[[m sl] nm]|]; [|split; [done|by eexists _, _]].
  match goal with |- context [put_chansess i ?x _] => set (cs3 := x) end.
  destruct (put_chansess_ok i _ _ cs3 (with_world w s2) (proj1 Hr3) Hat2 eq_refl Hx) as (s3 & -> & Hok3 & Hat3 & Hs3 & _). cbn [obind].
  assert (Hr4 : ready s3) by (eapply ready_ses; [exact Hr3|done|done]). eapply safe_bind; [by eapply winchange_safe|]. intros [b s4] _ [Hr5 Hat5]. cbn in Hr5, Hat5.
  eapply safe_bind; [by eapply termmodes_ready|]. intros s5 _ [Hr6 Hat6]. split; [done|by eexists _, _].
Qed.

Lemma send_success_ok c (p : P) : idle p -> safe (fun p' => exists l, talked p l p') (send_msg_channel_success c p).
Proof.
  intros Hi. unfold send_msg_channel_success. destruct (sent_close c); [exists []; by apply talked_refl|].
  eapply safe_mono; [by apply send_simple_ok|]. intros p' ?. by eexists.
Qed.

Lemma request_safe i c (s : chs) : channels s !! i = Some (Some c) -> type c = svrchansess -> ready s -> req_ok c ->
  safe st_ok (chansessionrequest cf opts pass_on_env i s).
Proof.
  intros Hc Ht Hr Hreq. destruct (st_typed rw _ _ _ (proj1 Hr) Hc Ht) as (_ & _ & cs & Hd & _). assert (Hat : at_session i c cs s) by done.
  unfold chansessionrequest. eapply safe_bind; [by eapply session_string|]. intros [[ty n] s1] _ (_ & Hr1 & Hat1).
  eapply safe_bind; [apply (pr_ready rw (fun _ => True)); [exact Hr1|apply getbool_safe]|]. intros [wr s2] _ (_ & Hr2 & Hch & _).
  assert (Hat2 : at_session i c cs s2) by by eapply at_session_chans. assert (Hst : stays i s2) by (split; [done|by exists c, cs]).
  assert (Heof : pid cs = 0 -> sent_eof c = false) by by apply Hreq.
  eapply (safe_bind (fun x => stays i (snd x))).
  { destruct (_ <? _); [done|]. destruct (at_session_of _ _ _ _ Hat2) as [_ ->]. cbn [obind]. rewrite Hd. cbn [oassert obind]. unfold session_request.
    destruct (strcmp_eq _ _); [eapply safe_mono; [by eapply winchange_safe|]; intros x [H1 H2]; split; [done|by exists c, cs]|].
    destruct (strcmp_eq _ _); [by eapply sessioncommand_safe|]. destruct (strcmp_eq _ _); [by eapply sessionpty_safe|].
    destruct (strcmp_eq _ _); [by eapply sessioncommand_safe|]. destruct (strcmp_eq _ _); [by eapply sessioncommand_safe|].
    destruct (strcmp_eq _ _); [by eapply signal_safe|done]. }
  intros [ret s3] _ [[Hok3 Hp3] (c3 & cs3 & Hat3)]. cbn [snd] in *. destruct (negb _); [|done]. destruct (at_session_of _ _ _ _ Hat3) as [_ ->]. cbn [obind].
  eapply safe_mono; [apply (on_ses_ok rw); [done|]|by intros ? []]. destruct ret; [apply send_success_ok|apply send_failure_ok]; apply Hok3.
Qed.

(** The contract with the channels and the forwarding. *)
Lemma chansess_keeps_laws : chansess_laws rw (chansess_types cf opts pass_on_env).
Proof.
  split.
  - intros h c p [= <-] Ht Hty Hi. destruct (Hty Ht) as (_ & _ & cs & Hd & He). eapply safe_mono; [by apply (closechansess_sends c cs)|]. intros p' ?. by eexists.
  - intros f c [= <-] Ht Hty. by apply sesscheckclose_safe.
  - intros c l Ht Hty Hl. eexists. split; [done|]. by apply cleanupchansess_safe.
  - intros h i c s [= <-] Hok Hpl Hc Ht Hd Hcp He Ha. by apply (newchansess_safe i c).
  - done.
  - intros h i c s Hc Ht [= <-] Hr Hreq. by apply (request_safe i c).
Qed.
End safety.
