(* ===== verification/ChanSessRun.v ===== *)
(** * The server's channels at work

    The channels with all their types: sessions, connections made and accepted for the peer.
    [srv_event] adds the reaping of children to the events of ForwardSafety.v.  The theorems are
    about all runs: safety, what children the server makes, and what it says about their end. *)

From S2P Require Import Prelude Bytes CString Buffer CircBuffer Packet SessionData Channel ChannelLaws ChannelFlow ChannelData ChannelClose.
From S2P Require Import ChannelSafety ChannelFrame AuthKeys Listener Netio NetioSafety Forward ForwardSafety ForwardChannels ForwardFrame.
From S2P Require Import Sshd4a ChanSess ChanSessFrame ChanSessSafety.

(** ** The user *)

Definition ss_view {P} {SS : SesSession P} (p : P) : Z * bytes * bytes * bytes * environ :=
  (ss_sock_in p, ss_pw_name p, ss_pw_dir p, ss_pw_shell p, ss_environ p).

Class SesLaws (P : Type) {SS : SesSession P} := {
  #[global] sl_fwd :: FwdLaws P;
  ss_view_wp b p : ss_view (ses_set_writepayload b p) = ss_view p;
  ss_view_pl b p : ss_view (ses_set_payload b p) = ss_view p;
  ss_view_conns l p : ss_view (ses_set_conn_pending l p) = ss_view p;
  ss_view_encrypt p p' : ses_encrypt_packet p = Ok p' -> ss_view p' = ss_view p;
}.

Section run.
Context {P W : Type} {SS : SesSession P} {FL : SesLaws P} {KS : SesSys W} {KL : SesSysLaws W} {SL : SysLaws W}.
Context (rw : Z) (Hrw : 0 < rw <= MAX_RECV_WINDOW) (cf : sshd4a) (opts : fwd_opts) (pass_on_env : bool).

Abbreviation chs := (chses (P := P) (W := W)).
Abbreviation fws := (fwses (P := P) (W := W)).
Abbreviation sessions := (chansess_types cf opts pass_on_env).

Inductive srv_event :=
| SvForward (e : fwd_event)
| SvSignal (channel_signal_pending : bool).

Definition srv_step (e : srv_event) (f : fws) : outcome fws :=
  match e with
  | SvForward e => fwd_step rw opts sessions e f
  | SvSignal pending => let* s := svr_chansess_checksignal pending (fch f) in Ok (with_fch s f)
  end.

Fixpoint srv_run (es : list srv_event) (f : fws) : outcome fws :=
  match es with [] => Ok f | e :: es => let* f := srv_step e f in srv_run es f end.

Definition srv_event_timely (e : srv_event) (f : fws) : Prop :=
  match e with SvForward e => fwd_event_timely e f | SvSignal _ => True end.

Definition srv_event_ok (e : srv_event) (f : fws) : Prop :=
  match e with SvForward e => fwd_event_ok e f | SvSignal _ => True end.

Fixpoint srv_events_timely (es : list srv_event) (f : fws) : Prop :=
  match es with [] => True | e :: es => srv_event_timely e f /\ forall f', srv_step e f = Ok f' -> srv_events_timely es f' end.

Fixpoint srv_events_ok (es : list srv_event) (f : fws) : Prop :=
  match es with [] => True | e :: es => srv_event_ok e f /\ forall f', srv_step e f = Ok f' -> srv_events_ok es f' end.

Lemma srv_events_in_time es : forall (f : fws), srv_events_ok es f -> srv_events_timely es f.
Proof.
  induction es as [|e es IH]; intros f H; [done|]. destruct H as [H1 H2]. split; [|intros f' Hf'; by apply IH, H2].
  destruct e as [e|]; [|done]. by destruct H1.
Qed.

(** ** Safety *)

Section safety.
Context (ko : option PubKeyOptions) (priv : bool).

Abbreviation steady := (steady rw opts sessions ko priv).

Lemma srv_step_safe e (f : fws) : steady f -> srv_event_ok e f -> safe steady (srv_step e f).
Proof.
  intros Hst He. pose proof (chansess_leaves_forwarding cf opts pass_on_env) as CQ. pose proof (chansess_keeps_laws rw cf opts pass_on_env) as CL.
  destruct e as [e|pending]; [by apply (step_safe rw Hrw opts sessions CL CQ)|]. pose proof Hst as (Hok & Ht & [Hf Htb]). cbn [srv_step].
  destruct (checksignal_ok rw pending (fch f) Hok) as (s' & E & Hok' & Hs'). rewrite E. split; [done|]. split; [done|]. split; [|done].
  pose proof (keep_checksignal _ _ _ _ (session_frame (Some (fch f))) pending (fch f) ltac:(by intros ? [= ->])) as Hq. rewrite E in Hq.
  destruct (Hq (fch f) eq_refl) as (Q1 & Q2 & Q3). by apply (fwd_inv_quiet opts ko priv (fch f)).
Qed.

Lemma srv_run_safe es : forall (f : fws), steady f -> srv_events_ok es f -> safe steady (srv_run es f).
Proof.
  induction es as [|e es IH]; intros f Hst Hes; cbn [srv_run]; [done|]. destruct Hes as [He Hes].
  eapply safe_bind; [by apply srv_step_safe|]. intros f' Hrun Hf'. auto.
Qed.

(** Without the window, an assertion may fail, but nothing else is lost. *)
Lemma srv_step_any e (f : fws) : steady f -> srv_event_timely e f -> opost steady (srv_step e f).
Proof.
  intros Hst He. pose proof (chansess_leaves_forwarding cf opts pass_on_env) as CQ. pose proof (chansess_keeps_laws rw cf opts pass_on_env) as CL.
  destruct e as [e|pending]; [by apply (step_any rw Hrw opts sessions CL CQ)|].
  pose proof (srv_step_safe (SvSignal pending) f Hst I) as H. by destruct (srv_step _ f).
Qed.

Lemma srv_run_any es : forall (f : fws), steady f -> srv_events_timely es f -> opost steady (srv_run es f).
Proof.
  induction es as [|e es IH]; intros f Hst Hes; cbn [srv_run]; [done|]. destruct Hes as [He Hes].
  eapply opost_bind; [by apply srv_step_any|]. intros f' Hrun Hf'. auto.
Qed.

Lemma srv_start_steady (p : P) (w : W) (pr : dropbear_prio) (so : Z) :
  idle p -> payload_ok p -> fwd_start ko priv (mkfwses (chaninitialise p w pr so) listeners_initialise) ->
  steady (mkfwses (chaninitialise p w pr so) listeners_initialise).
Proof.
  intros Hi Hp Hstart. split; [by apply chaninitialise_ok|]. split; [intros [|[|i]] l; done|]. by apply (finv_start rw opts sessions ko priv).
Qed.
End safety.



(** ** Children *)

Section children.
Context (ko : option PubKeyOptions) (shell : bytes) (dir : bytes).

(** The command that is forced. *)
Definition the_forced_command : option bytes := match forced_cmd opts with Some c => Some c | None => ko ≫= forced_command end.

(** A program the server may run for the user. *)
Record may_run (im : image) : Prop := {
  mr_path : im_path im = shell;
  mr_dir : im_dir im = dir \/ im_dir im = str "/";
  mr_argv : match the_forced_command with
    | Some c => exists out, library_command (lib_path cf) (cstr c) out /\ im_argv im = [basename shell; str "-c"; out]
    | None => (exists c out, library_command (lib_path cf) c out /\ im_argv im = [basename shell; str "-c"; out]) \/
              (enable_service_shell_access cf = true /\ im_argv im = [str "-" ++ basename shell])
    end;
}.

(** What a child may do: run such a program, or, when its descriptors cannot be set up or the
    program cannot be run, go on as the server or exit. *)
Definition may_fork (c : outcome child) : Prop :=
  match c with Ok (ChildExec _ _ _ _ im) => may_run im | Ok ChildServes => True | Exit _ => True | Undef => False end.

Lemma forced_cmd_kept cs cs' (p : P) (w : W) :
  make_connection_string (take_forced_command opts ko cs) p w = Ok cs' -> forall c, the_forced_command = Some c -> cmd cs' = Some c.
Proof.
  intros H c Hc. assert (Hcmd : cmd cs' = cmd (take_forced_command opts ko cs)).
  { unfold make_connection_string in H. apply obind_Ok in H as ([[[a b] d] e] & _ & [= <-]). done. }
  rewrite Hcmd. clear H Hcmd. unfold the_forced_command in Hc. unfold take_forced_command.
  destruct (forced_cmd opts) as [x|]; [exact Hc|]. destruct ko as [o|]; [|done]. cbn in Hc. unfold svr_pubkey_set_forced_command. by rewrite Hc.
Qed.

Lemma exec_may_run cs (p : P) (w : W) : (forall c, the_forced_command = Some c -> cmd cs = Some c) -> get_user_shell p = shell -> ss_pw_dir p = dir ->
  match execchild cf pass_on_env cs p w with Ok im => may_run im | Exit _ => True | Undef => False end.
Proof.
  intros Hf Hs Hd. unfold execchild. rewrite Hs, Hd.
  set (d := if sys_chdir dir w then _ else _). assert (Hdir : match d with Ok x => x = dir \/ x = str "/" | Exit _ => True | Undef => False end).
  { subst d. destruct (sys_chdir dir w); [by left|]. destruct (sys_chdir (str "/") w); [by right|done]. }
  destruct d as [x| |]; [|done|done]. cbn [obind]. unfold run_shell_command. destruct (cmd cs) as [c|] eqn:Ec; cbn [fmap option_fmap option_map].
  - destruct (exe_to_lib_fits cf (cstr c) (cstr_nonul c)) as (out & -> & Hout). cbn [obind]. split; [done|done|]. cbn.
    destruct the_forced_command as [c'|]; [|left; by exists (cstr c), out]. specialize (Hf c' eq_refl). injection Hf as <-. by exists out.
  - destruct the_forced_command as [c'|] eqn:Ef; [by specialize (Hf c' eq_refl)|]. destruct (enable_service_shell_access cf) eqn:Eacc; [|done].
    split; [done|done|]. rewrite Ef. by right.
Qed.

(** What is kept: the key and the user, and what the children may do. *)
Definition children_ok (p : P) (w : W) : Prop :=
  fs_pubkey_options p = ko /\ get_user_shell p = shell /\ ss_pw_dir p = dir /\ Forall may_fork (forked w).

Definition same_user (p q : P) : Prop := fs_pubkey_options q = fs_pubkey_options p /\ ss_view q = ss_view p.
Definition same_children (w v : W) : Prop := forked v = forked w.

#[global] Instance same_user_pre : PreOrder same_user.
Proof. split; [done|]. intros p q r [] []. split; congruence. Qed.

#[global] Instance same_children_pre : PreOrder same_children.
Proof. split; [done|]. intros p q r H1 H2. unfold same_children in *. congruence. Qed.

Lemma view_options (p q : P) : fwd_view q = fwd_view p -> fs_pubkey_options q = fs_pubkey_options p.
Proof. unfold fwd_view. congruence. Qed.

Lemma user_encrypt p : returns (same_user p) (ses_encrypt_packet p).
Proof. apply returns_Ok. intros q Hq. split; [by apply view_options, fw_view_encrypt|by apply ss_view_encrypt]. Qed.

Lemma children_user p q w : children_ok p w -> same_user p q -> children_ok q w.
Proof.
  intros (H1 & H2 & H3 & H4) [Ho Hv]. unfold ss_view in Hv. injection Hv as _ _ Hd Hs _. split; [congruence|]. split; [|split; [congruence|done]].
  unfold get_user_shell in *. by rewrite Hs.
Qed.

Lemma children_world p w v : children_ok p w -> same_children w v -> children_ok p v.
Proof. intros (H1 & H2 & H3 & H4) Hv. split_and!; try done. by rewrite Hv. Qed.

Lemma user_wp b p : same_user p (ses_set_writepayload b p).
Proof. split; [apply view_options, fw_view_wp|apply ss_view_wp]. Qed.

Lemma user_pl b p : same_user p (ses_set_payload b p).
Proof. split; [apply view_options, fw_view_pl|apply ss_view_pl]. Qed.

Lemma user_conns l p : same_user p (ses_set_conn_pending l p).
Proof. split; [|apply ss_view_conns]. pose proof (fw_view_set l p) as H. unfold fwd_view in H. congruence. Qed.

(** The handlers of sessions. *)
Lemma children_frame : ses_frame same_user same_children (kept_state children_ok) may_fork.
Proof.
  split; try apply kf_close; try apply kf_setsockopt; try apply kf_sock_priority; try apply kf_pipe; try apply kf_waitpids; try apply kf_kill;
    try apply kf_openpty; try apply kf_winsize; try apply kf_tcsetattr; try apply user_wp; try apply user_pl; try apply user_encrypt.
  - intros p s H Hp. by eapply children_user.
  - intros w s H Hw. by eapply children_world.
  - intros s s' H Hs Hw _. unfold kept_state. by rewrite Hs, Hw.
  - intros c w s (H1 & H2 & H3 & H4) Hc. split_and!; try done. cbn. rewrite kf_fork. apply Forall_app. split; [done|].
    destruct (_ <? 0); [constructor|by constructor].
Qed.

Lemma children_exec cs cs' (s : chs) : kept_state children_ok s ->
  make_connection_string (take_forced_command opts (fs_pubkey_options (ses s)) cs) (ses s) (world s) = Ok cs' -> good_exec cf pass_on_env may_fork cs' (ses s).
Proof.
  intros (H1 & H2 & H3 & _) H f ok w Hf. rewrite H1 in H. pose proof (exec_may_run cs' (ses s) w (forced_cmd_kept _ _ _ _ H) H2 H3) as Hx.
  destruct (execchild cf pass_on_env cs' (ses s) w) as [im| |]; [|done|done]. cbn. by destruct Hf as [->|(a & b & d & ->)].
Qed.

Lemma children_net_frame : net_frame sessions same_user same_children children_ok.
Proof.
  split; try apply kf_close; try apply kf_setsockopt; try apply kf_sock_priority; try apply kf_read; try apply kf_writev; try apply kf_shutdown;
    try apply kf_getaddrinfo; try apply kf_socket; try apply kf_bind; try apply kf_listen; try apply kf_connect; try apply kf_accept;
    try apply kf_unlink; try apply kf_umask; try apply user_wp; try apply user_pl; try apply user_conns; try apply user_encrypt;
    try apply children_user; try apply children_world.
  - intros ty h c p [= <-]. apply (keep_closechansess _ _ _ _ children_frame).
  - intros ty h i s [= <-] H. by apply (keep_newchansess _ _ _ _ children_frame).
  - intros ty h i s [= <-] H. apply (keep_request cf opts pass_on_env _ _ _ _ children_frame); [done|done|apply children_exec|done].
Qed.

Lemma children_step e (f : fws) : kept_all same_children children_ok f -> returns (kept_all same_children children_ok) (srv_step e f).
Proof.
  intros H. destruct e as [e|pending]; [by apply (fwd_kept_step rw opts sessions same_user same_children children_ok children_net_frame)|].
  destruct H as [H Hl]. cbn [srv_step]. eapply returns_bind; [by apply (keep_checksignal _ _ _ _ children_frame)|]. by intros s _ Hs.
Qed.

Lemma children_run es : forall (f : fws), kept_all same_children children_ok f -> returns (kept_all same_children children_ok) (srv_run es f).
Proof.
  induction es as [|e es IH]; intros f H; cbn [srv_run]; [done|]. eapply returns_bind; [by apply children_step|]. intros f1 _ H1. by apply IH.
Qed.
End children.

(** C6: children run what they may. Whatever a session consists of, every process the server
    makes for it runs the user's shell in the user's directory (or the root directory), and
    never as anything but "-c" with a command while the service does not allow shells; when the
    options or the key force a command, the shell is given that command and no other. A command
    is changed only by putting the library file of a program the server brings along in place
    of its name. (A child whose descriptors cannot be set up on a terminal goes on as the
    server.) *)
Theorem children_run_permitted (ko : option PubKeyOptions) (p : P) (w : W) (pr : dropbear_prio) (so : Z) es f' :
  fs_pubkey_options p = ko -> forked w = [] ->
  srv_run es (mkfwses (chaninitialise p w pr so) listeners_initialise) = Ok f' ->
  Forall (may_fork ko (get_user_shell p) (ss_pw_dir p)) (forked (world (fch f'))).
Proof.
  intros Hk Hw Hrun. set (f := mkfwses _ _) in Hrun.
  assert (Hf : kept_all same_children (children_ok ko (get_user_shell p) (ss_pw_dir p)) f).
  { split; [|intros [|[|i]] l; done]. split_and!; try done. subst f. cbn. rewrite Hw. constructor. }
  pose proof (proj1 (returns_Ok _ _) (children_run ko (get_user_shell p) (ss_pw_dir p) es f Hf) f' Hrun) as [(_ & _ & _ & H) _]. exact H.
Qed.
End run.
