(* ===== verification/ChanSessExits.v ===== *)
(** * Terminals and the ends of processes

    What the modes of a terminal request set, where the exits of processes are stored, and what a
    channel says about the exit before it is closed. *)

From S2P Require Import Prelude Bytes CString Buffer CircBuffer Packet SessionData Channel ChannelLaws ChannelFlow ChannelData ChannelClose.
From S2P Require Import ChannelSafety AuthKeys Listener Netio NetioSafety Forward ForwardSafety ForwardRequests ForwardChannels ChannelMessages ChannelErrors.
From S2P Require Import Sshd4a ChanSess ChanSessFrame ChanSessSafety ChanSessRun.

(** ** Terminal modes *)

Definition enc_modes (ms : list (Z * Z)) : bytes := concat (map (fun m => fst m :: store32h (snd m)) ms).

(** The value of the last mode of the list whose opcode satisfies [sel]. *)
Fixpoint last_mode (sel : Z -> bool) (ms : list (Z * Z)) : option Z :=
  match ms with
  | [] => None
  | (o, v) :: ms => match last_mode sel ms with Some w => Some w | None => if sel o then Some v else None end
  end.

#[global] Instance termcode_type_eq_dec : EqDecision termcode_type.
Proof. solve_decision. Defined.

Definition entry_of (o : Z) : option (Z * termcode_type) := if MAX_TERMCODE <? o then None else termcodes !! Z.to_nat o.

(** The opcode is for bit [k] of the flags of type [ty]; for the character [j]. *)
Definition for_flag (ty : termcode_type) (k : Z) (o : Z) : bool :=
  match entry_of o with Some (m, ty') => bool_decide (ty' = ty) && Z.testbit m k | None => false end.
Definition for_char (j : Z) (o : Z) : bool :=
  match entry_of o with Some (m, ty') => bool_decide (ty' = TERMCODE_CONTROLCHAR) && (m =? j) | None => false end.

Definition flags_set (ty : termcode_type) (ms : list (Z * Z)) (old new : Z) : Prop :=
  forall k, 0 <= k -> Z.testbit new k = match last_mode (for_flag ty k) ms with Some v => negb (v =? 0) | None => Z.testbit old k end.

(** The terminal has exactly the modes of the list, later ones over earlier ones. *)
Record modes_set (ms : list (Z * Z)) (t t' : termios) : Prop := {
  ms_input : flags_set TERMCODE_INPUT ms (c_iflag t) (c_iflag t');
  ms_output : flags_set TERMCODE_OUTPUT ms (c_oflag t) (c_oflag t');
  ms_control : flags_set TERMCODE_CONTROL ms (c_cflag t) (c_cflag t');
  ms_local : flags_set TERMCODE_LOCAL ms (c_lflag t) (c_lflag t');
  ms_chars (j : nat) : (j < NCCS)%nat -> c_cc t' !! j = match last_mode (for_char (Z.of_nat j)) ms with Some v => Some (u8 v) | None => c_cc t !! j end;
  ms_size : length (c_cc t') = NCCS;
}.

Lemma flags_cons ty o v ms old mid new : flags_set ty [(o, v)] old mid -> flags_set ty ms mid new -> flags_set ty ((o, v) :: ms) old new.
Proof.
  intros H1 H2 k Hk. rewrite (H2 k Hk). cbn. destruct (last_mode (for_flag ty k) ms); [done|]. rewrite (H1 k Hk). cbn. by destruct (for_flag ty k o).
Qed.

Lemma modes_cons o v ms t t1 t' : modes_set [(o, v)] t t1 -> modes_set ms t1 t' -> modes_set ((o, v) :: ms) t t'.
Proof.
  intros [I1 O1 C1 L1 X1 S1] [I2 O2 C2 L2 X2 S2]. split; [by eapply flags_cons..| |done]. intros j Hj. rewrite (X2 j Hj). cbn.
  destruct (last_mode (for_char (Z.of_nat j)) ms); [done|]. rewrite (X1 j Hj). cbn. by destruct (for_char (Z.of_nat j) o).
Qed.

Lemma flags_same ty o v x : (forall k, for_flag ty k o = false) -> flags_set ty [(o, v)] x x.
Proof. intros H k _. cbn. by rewrite H. Qed.

Lemma flags_one ty o v m x : entry_of o = Some (m, ty) -> flags_set ty [(o, v)] x (set_flag v m x).
Proof.
  intros He k Hk. cbn. unfold for_flag, set_flag. rewrite He, bool_decide_eq_true_2 by done. cbn [andb].
  destruct (v =? 0) eqn:Ev; cbn [negb]; rewrite ?Z.ldiff_spec, ?Z.lor_spec; destruct (Z.testbit m k), (Z.testbit x k); cbn; rewrite ?Ev; done.
Qed.

Lemma for_flag_other ty ty' k o m : entry_of o = Some (m, ty') -> ty' <> ty -> for_flag ty k o = false.
Proof. intros He Hne. unfold for_flag. by rewrite He, bool_decide_eq_false_2. Qed.

Lemma for_char_other ty' j o m : entry_of o = Some (m, ty') -> ty' <> TERMCODE_CONTROLCHAR -> for_char j o = false.
Proof. intros He Hne. unfold for_char. by rewrite He, bool_decide_eq_false_2. Qed.

(** One mode. *)
Lemma apply_mode_sets o v t : 0 <= o -> length (c_cc t) = NCCS -> exists t', apply_mode o v t = Ok t' /\ modes_set [(o, v)] t t'.
Proof.
  intros Ho Hl. destruct (apply_mode_ok o v t Ho Hl) as (t' & E & Hl'). exists t'. split; [done|]. unfold apply_mode in E.
  destruct (entry_of o) as [[m ty]|] eqn:He; unfold entry_of in He; destruct (MAX_TERMCODE <? o) eqn:Hm; try done.
  2: { injection E as <-. assert (Hn : entry_of o = None) by (unfold entry_of; by rewrite Hm).
       split; [apply flags_same; intros; unfold for_flag; by rewrite Hn..| |done]. intros j _. cbn. unfold for_char. by rewrite Hn. }
  2: { by rewrite He in E. }
  rewrite He in E. assert (Hen : entry_of o = Some (m, ty)) by (unfold entry_of; by rewrite Hm).
  assert (Hflag : forall ty2, ty <> ty2 -> forall x, flags_set ty2 [(o, v)] x x) by (intros ty2 Hne x; apply flags_same; intros k; by eapply for_flag_other).
  destruct ty; try (injection E as <-; split; cbn; try (by apply Hflag); try (by apply flags_one); try done;
    intros j _; by erewrite for_char_other).
  apply obind_Ok in E as (cc & Hcc & [= <-]). split; cbn; try (by apply Hflag); [|done]. intros j Hj. unfold for_char. rewrite Hen, bool_decide_eq_true_2 by done.
  cbn [andb]. apply mem_write_Ok in Hcc as (Hm0 & Hm1 & ->). unfold zlen in Hm1. cbn in Hm1.
  assert (blit (c_cc t) m [u8 v] = <[Z.to_nat m := u8 v]> (c_cc t)) as ->.
  { rewrite insert_take_drop by lia. unfold blit. cbn [length]. by rewrite Nat.add_1_r. }
  destruct (Z.eqb_spec m (Z.of_nat j)) as [->|Hne]; [rewrite Nat2Z.id; apply list_lookup_insert_eq; lia|]. apply list_lookup_insert_ne. lia.
Qed.

Lemma modes_none t : length (c_cc t) = NCCS -> modes_set [] t t.
Proof. intros Hl. split; try done; by intros k _. Qed.

Definition mode_ok (m : Z * Z) : Prop := 1 <= fst m <= 159 /\ is_u32 (snd m).

(** The loop reads the modes up to an opcode that ends them. *)
Lemma termmodes_loop_sets ms : forall fuel t b stop rest, Forall mode_ok ms -> stop = 0 \/ 160 <= stop -> (length ms < fuel)%nat -> length (c_cc t) = NCCS ->
  wf b -> unread b = enc_modes ms ++ stop :: rest -> exists t' b', termmodes_loop fuel t b = Ok (t', b') /\ wf b' /\ modes_set ms t t'.
Proof.
  induction ms as [|[o v] ms IH]; intros fuel t b stop rest Hms Hstop Hfuel Hl Hw Hu; (destruct fuel as [|fuel]; [cbn in Hfuel; lia|]); cbn [termmodes_loop].
  - destruct (takes_byte stop b rest Hw Hu) as (-> & _ & Hw'). cbn [obind]. assert ((stop =? 0) || (159 <? stop) = true) as -> by lia.
    eexists _, _. split; [done|]. split; [done|by apply modes_none].
  - apply Forall_cons in Hms as [[Ho Hv] Hms]. cbn in Ho, Hv. unfold enc_modes in Hu. cbn [map concat fst snd] in Hu. rewrite <- app_assoc in Hu.
    destruct (takes_byte o b _ Hw Hu) as (-> & Hu1 & Hw1). cbn [obind]. assert ((o =? 0) || (159 <? o) = false) as -> by lia.
    destruct (takes_int v Hv _ _ Hw1 Hu1) as (-> & Hu2 & Hw2). cbn [obind]. destruct (apply_mode_sets o v t ltac:(lia) Hl) as (t1 & -> & H1). cbn [obind].
    destruct (IH fuel t1 _ stop rest Hms Hstop ltac:(cbn in Hfuel; lia) (ms_size _ _ _ H1) Hw2 Hu2) as (t' & b' & -> & Hw' & H').
    eexists _, _. split; [done|]. split; [done|]. by eapply modes_cons.
Qed.

Lemma enc_modes_len ms : (length ms <= length (enc_modes ms))%nat.
Proof. unfold enc_modes. induction ms as [|m ms IH]; cbn; [lia|]. rewrite length_app. lia. Qed.

Section exits.
Context {P W : Type} {SS : SesSession P} {FL : SesLaws P} {KS : SesSys W} {KL : SesSysLaws W} {SL : SysLaws W}.
Context (rw : Z) (Hrw : 0 < rw <= MAX_RECV_WINDOW) (cf : sshd4a) (opts : fwd_opts) (pass_on_env : bool).

Abbreviation chs := (chses (P := P) (W := W)).
Abbreviation st_ok := (st_ok rw).

#[local] Instance server_types : ChanTypes (P := P) (W := W) := svr_chantypes opts (chansess_types cf opts pass_on_env).

(** C38: the terminal gets the modes asked for. When the rest of a request for a terminal is a
    string of modes with opcodes from 1 to 159, each with its value, ended by TTY_OP_END or an
    opcode from 160 on (and anything after that), and the terminal's attributes can be read, they
    are set once, to those read with exactly the modes of the string changed: every flag of the
    four kinds whose opcode occurs is set or cleared by its last value, every special character is
    the low byte of its last value, opcodes without a meaning are skipped, and all else is as it
    was. *)
Theorem termmodes_set (cs : ChanSess) (ms : list (Z * Z)) (stop : Z) (rest : bytes) (t : termios) (s : chs) :
  Forall mode_ok ms -> stop = 0 \/ 160 <= stop -> zlen (enc_modes ms ++ stop :: rest) < 4294967296 ->
  reading (ssh_string (enc_modes ms ++ stop :: rest)) s -> sys_tcgetattr (master cs) (world s) = Some t ->
  exists t' s', get_termmodes cs s = Ok s' /\ modes_set ms t t' /\ world s' = sys_tcsetattr (master cs) t' (world s).
Proof.
  intros Hms Hstop Hlen Hr Ht. pose proof (ks_tcgetattr _ _ _ Ht) as Hcc. unfold get_termmodes. rewrite Ht. set (body := enc_modes ms ++ stop :: rest) in *.
  pose proof (zlen_nonneg body). destruct (pr_takes _ _ _ _ s (takes_int (zlen body) ltac:(unfold is_u32; lia)) Hr) as (s1 & -> & Hr1 & Hf1). cbn [obind].
  destruct Hr1 as (pl & Hpl & Hw & Hu). assert (Hw1 : world s1 = world s) by (destruct Hf1 as (x & _ & ->); done).
  unfold pr at 1. rewrite Hpl. cbn [obind]. assert (Hrest : u32 (buf_len pl - buf_pos pl) = zlen body).
  { rewrite <- unread_zlen, Hu by done. by apply u32_small. }
  rewrite Hrest, Z.eqb_refl. cbn [negb exit_if obind]. assert (Hpos : 0 < zlen body) by (subst body; rewrite zlen_app, zlen_cons; pose proof (zlen_nonneg (enc_modes ms)); pose proof (zlen_nonneg rest); lia).
  rewrite (proj2 (Z.eqb_neq _ _)) by lia. unfold pr. cbn [ses with_ses]. rewrite sl_pl_pl.
  destruct (termmodes_loop_sets ms (S (Z.to_nat (zlen body))) t pl stop rest Hms Hstop) as (t' & b' & -> & _ & Hset); [|done..|].
  { pose proof (enc_modes_len ms). subst body. unfold zlen. rewrite length_app. lia. }
  cbn [obind]. exists t'. eexists. split; [done|]. split; [done|]. cbn. by rewrite Hw1.
Qed.
(** ** Exits *)

(** How a process ended, by its status: the low seven bits are 0 for a normal end, whose status
    is the next byte, and otherwise the signal; bit 7 is for a core. (127 is for a process that
    has only been stopped.) *)
Definition exit_of (n status : Z) (e : exitinfo) : exitinfo :=
  let signal := status mod 128 in
  if signal =? 0 then mkexit n (status / 256 mod 256) (-1) (exitcore e)
  else if signal =? 127 then mkexit n (exitstatus e) (-1) (exitcore e)
  else mkexit n (exitstatus e) signal (if Z.testbit status 7 then 128 else 0).

Lemma core_bit status : Z.land status 128 = if Z.testbit status 7 then 128 else 0.
Proof.
  apply Z.bits_inj'. intros k Hk. rewrite Z.land_spec. change 128 with (2 ^ 7). rewrite Z.pow2_bits_eqb by lia. destruct (Z.eqb_spec 7 k) as [<-|Hne].
  - rewrite andb_true_r. by destruct (Z.testbit status 7).
  - rewrite andb_false_r. destruct (Z.testbit status 7); [|by rewrite Z.bits_0]. rewrite Z.pow2_bits_eqb by lia. symmetry. by apply Z.eqb_neq.
Qed.

Lemma exited_exit_of n status e : exited n status e = exit_of n status e.
Proof.
  unfold exited, exit_of, WIFEXITED, WEXITSTATUS, WIFSIGNALED, WTERMSIG, WCOREDUMP. rewrite core_bit.
  assert (Hlow : forall x, Z.land x 127 = x mod 128) by (intros x; exact (Z.land_ones x 7 ltac:(lia))).
  assert (Hnext : Z.shiftr (Z.land status 65280) 8 = status / 256 mod 256).
  { rewrite Z.shiftr_land, Z.shiftr_div_pow2 by lia. exact (Z.land_ones (status / 2 ^ 8) 8 ltac:(lia)). }
  rewrite !Hlow, Hnext.
  assert (Hs : (status + 1) mod 128 = if status mod 128 =? 127 then 0 else status mod 128 + 1).
  { destruct (Z.eqb_spec (status mod 128) 127) as [E|E]; pose proof (Z.mod_pos_bound status 128 ltac:(lia)); pose proof (Z.div_mod status 128 ltac:(lia)).
    - symmetry. apply (Z.mod_unique _ _ (status / 128 + 1)); lia.
    - symmetry. apply (Z.mod_unique _ _ (status / 128)); lia. }
  rewrite Hs. pose proof (Z.mod_pos_bound status 128 ltac:(lia)).
  destruct (Z.eqb_spec (status mod 128) 0) as [E|E]; [by rewrite E|]. destruct (Z.eqb_spec (status mod 128) 127) as [E'|E']; [done|].
  by rewrite (proj2 (Z.leb_le 2 (status mod 128 + 1))) by lia.
Qed.

(** What is known of the end of process [n] after the children [l] have been reaped. *)
Definition exit_after (n : Z) (l : list (Z * Z)) (e : exitinfo) : exitinfo :=
  fold_left (fun e x => if fst x =? n then exit_of n (snd x) e else e) l e.

Definition record_exit (l : list (Z * Z)) (cs : ChanSess) : ChanSess := with_ses_exit (exit_after (pid cs) l (ses_exit cs)) cs.

(** No two sessions have the same process. *)
Definition distinct_pids (s : chs) : Prop :=
  forall i j c d cs ds, at_session i c cs s -> at_session j d ds s -> pid cs <> 0 -> pid cs = pid ds -> i = j.

Lemma at_session_fun i c d cs ds (s : chs) : at_session i c cs s -> at_session i d ds s -> c = d /\ cs = ds.
Proof. intros (H1 & _ & H2) (H3 & _ & H4). rewrite H1 in H3. injection H3 as ->. rewrite H2 in H4. by injection H4. Qed.

Lemma record_other n status cs : pid cs <> n -> record_exit [(n, status)] cs = cs.
Proof. intros Hn. unfold record_exit. cbn. rewrite (proj2 (Z.eqb_neq n (pid cs))) by congruence. by destruct cs. Qed.

(** One child. *)
Lemma record_one n status (s : chs) : st_ok s -> distinct_pids s -> 0 < n ->
  exists s1, match find_child n (childpids s) with Some e => set_session_exit e (exited n status) s | None => Ok (with_lastexit (exited n status (lastexit s)) s) end = Ok s1 /\
    st_ok s1 /\ distinct_pids s1 /\ forall i c cs, at_session i c cs s -> pid cs <> 0 ->
      exists c1, at_session i c1 (record_exit [(n, status)] cs) s1 /\ forall o, with_ctypedata o c1 = with_ctypedata o c.
Proof.
  intros Hok Hd Hn. destruct (find_child n (childpids s)) as [e|] eqn:E.
  - apply find_child_some in E as [He Hen]. destruct (child_session rw e s Hok He ltac:(lia)) as (j & d & ds & Hj & Hat & Hpid). rewrite Hen in Hpid.
    unfold set_session_exit. rewrite Hj. destruct (at_session_of _ _ _ _ Hat) as [-> _]. cbn [obind]. set (ds' := with_ses_exit _ ds).
    pose proof (at_session_typed rw _ _ _ _ Hok Hat) as (_ & _ & Hx).
    destruct (put_chansess_ok rw j d ds ds' s Hok Hat eq_refl (exited_ok n status _ Hx)) as (s1 & -> & Hok1 & Hat1 & _ & _ & _ & _ & Hch).
    assert (Hne : forall i c cs, i <> j -> at_session i c cs s1 <-> at_session i c cs s) by (intros i c cs Hij; unfold at_session; by rewrite Hch, list_lookup_insert_ne).
    exists s1. split; [done|]. split; [done|]. split.
    + assert (Hback : forall i c cs, at_session i c cs s1 -> exists c0 cs0, at_session i c0 cs0 s /\ pid cs0 = pid cs).
      { intros i c cs Hi. destruct (decide (i = j)) as [->|Hij]; [|exists c, cs; split; [by apply Hne|done]].
        destruct (at_session_fun _ _ _ _ _ _ Hi Hat1) as [_ ->]. by exists d, ds. }
      intros i k c c2 cs cs2 Hi Hk Hp Heq. destruct (Hback _ _ _ Hi) as (c0 & cs0 & H0 & P0). destruct (Hback _ _ _ Hk) as (c3 & cs3 & H3 & P3).
      apply (Hd i k c0 c3 cs0 cs3 H0 H3); congruence.
    + intros i c cs Hi Hp. destruct (decide (i = j)) as [->|Hij].
      * destruct (at_session_fun _ _ _ _ _ _ Hi Hat) as [-> ->]. exists (with_ctypedata (Some ds') d). split; [|by intros o].
        assert (record_exit [(n, status)] ds = ds') as ->; [|exact Hat1]. unfold record_exit, ds'. cbn. by rewrite Hpid, Z.eqb_refl, exited_exit_of.
      * rewrite record_other; [exists c; split; [by apply Hne|done]|]. intros Hpn. apply Hij. apply (Hd i j c d cs ds Hi Hat Hp). congruence.
  - eexists. split; [done|]. pose proof (pk_lastexit _ _ _ _ (so_procs rw _ Hok)) as Hx. split; [by apply lastexit_ok; [|apply exited_ok]|].
    split; [exact Hd|]. intros i c cs Hi Hp. exists c. split; [|done]. rewrite record_other; [exact Hi|]. intros Hpn.
    destruct Hi as (Hc & Ht & Hcd). pose proof (pk_running _ _ _ _ (so_procs rw _ Hok) _ _ _ Hc Ht Hcd Hp) as Hin.
    unfold find_child in E. destruct (list_find _ (childpids s)) as [[? ?]|] eqn:Ef; [done|]. apply list_find_None in Ef. rewrite Forall_forall in Ef.
    by apply (Ef _ Hin).
Qed.

(** The state of a session after the loop, the other sessions having changed alike. *)
Lemma loop_records l : forall s : chs, st_ok s -> distinct_pids s -> Forall (fun x => 0 < fst x) l ->
  exists s', checksignal_loop l s = Ok s' /\ st_ok s' /\
    forall i c cs, at_session i c cs s -> pid cs <> 0 -> at_session i (with_ctypedata (Some (record_exit l cs)) c) (record_exit l cs) s'.
Proof.
  induction l as [|[n status] l IH]; intros s Hok Hd Hl.
  { exists s. split; [done|]. split; [done|]. intros i c cs Hat _. destruct Hat as (H1 & H2 & H3). assert (Hr : record_exit [] cs = cs) by by destruct cs.
    rewrite Hr. split; [|done]. rewrite H1. do 2 f_equal. destruct c; cbn in *. by rewrite H3. }
  apply Forall_cons in Hl as [Hn Hl]. cbn [checksignal_loop fst snd] in *.
  destruct (record_one n status s Hok Hd Hn) as (s1 & -> & Hok1 & Hd1 & Hs1). cbn [obind]. destruct (IH s1 Hok1 Hd1 Hl) as (s2 & -> & Hok2 & Hs2).
  exists s2. split; [done|]. split; [done|]. intros i c cs Hat Hp. destruct (Hs1 i c cs Hat Hp) as (c1 & Hat1 & Hc1).
  pose proof (Hs2 i c1 _ Hat1 Hp) as H. by rewrite Hc1 in H.
Qed.
(** C37: exits are stored where they belong. When children have ended, every session whose process
    is among them knows how it ended: by the exit status of a normal end, or by
    its signal and whether there is a core, as of its last status; for the other sessions with a
    process nothing changes, provided no two sessions have the same process; and the invariant
    of the channels is kept. *)
Theorem exits_recorded (s : chs) (l : list (Z * Z)) (w : W) :
  st_ok s -> distinct_pids s -> sys_waitpids (world s) = (l, w) ->
  exists s', svr_chansess_checksignal true s = Ok s' /\ st_ok s' /\
    forall i c cs, at_session i c cs s -> pid cs <> 0 -> at_session i (with_ctypedata (Some (record_exit l cs)) c) (record_exit l cs) s'.
Proof.
  intros Hok Hd Hw. unfold svr_chansess_checksignal. cbn [negb]. pose proof (ks_waitpids (world s)) as Hl. rewrite Hw in *. cbn [fst] in Hl.
  apply (loop_records l (with_world w s)); [by apply (st_world rw)|exact Hd|done].
Qed.

(** ** Closing *)

Lemma said_exit c cs l : type c = svrchansess -> ctypedata c = Some cs -> exit_ok (ses_exit cs) -> close_said c l -> l = exit_msgs c (ses_exit cs).
Proof.
  intros Ht Hd He (c1 & p1 & p2 & Hk & Hr & Hi & Hh & Hs). destruct Hk as [K1 K2 _].
  assert (Hd1 : ctypedata c1 = Some cs) by congruence. rewrite K1, Ht in Hh. cbn in Hh.
  pose proof (closechansess_sends c1 cs p1 Hd1 He Hi) as H. rewrite Hh in H. destruct H as (_ & _ & H). rewrite Hs in H. apply app_inv_head in H.
  rewrite H. unfold exit_msgs. by rewrite Hr.
Qed.

(** What a channel says before its CLOSE: a session how its process ended. *)
Definition last_words (c : Channel) : list bytes :=
  if type c =? svrchansess then match ctypedata c with Some cs => exit_msgs c (ses_exit cs) | None => [] end else [].

Lemma close_says c l : typed c -> close_said c l -> l = last_words c.
Proof.
  intros Hty Hs. unfold last_words. destruct (Z.eqb_spec (type c) svrchansess) as [Ht|Ht].
  - destruct (Hty Ht) as (_ & _ & cs & Hd & Hx). rewrite Hd. by apply said_exit.
  - destruct Hs as (c1 & p1 & p2 & [K1 _ _] & _ & _ & Hh & Hs). rewrite K1 in Hh. cbn in Hh. apply Z.eqb_neq in Ht. rewrite Ht in Hh.
    injection Hh as <-. rewrite <- (app_nil_r (sent p1)) in Hs at 1. by apply app_inv_head in Hs.
Qed.

(** C20: a channel says EOF and CLOSE at most once, in this order. Whatever EOF and CLOSE messages
    arrive and however often the channel is looked at, in any order, all that [check_close] sends
    over the life of the channel is at most one EOF and after it at most one CLOSE, which for a
    session follows at once on the message about the end of its process and for other channels on
    nothing; there is no EOF when an EOF or CLOSE had been sent, and no CLOSE when one had been;
    the channel remembers what was sent, it is removed only after both sides have sent CLOSE, no
    assertion fails and the rest of the table is untouched. *)
Theorem close_messages_once i c (s : chs) (os : list close_op) : st_ok s -> channels s !! i = Some (Some c) ->
  safe (fun s' => st_ok s' /\ exists eof close : bool,
      sent (ses s') = sent (ses s) ++ (if eof then [eof_msg c] else []) ++ (if close then last_words c ++ [close_msg c] else []) /\
      (eof = true -> sent_eof c = false /\ sent_close c = false) /\ (close = true -> sent_close c = false) /\
      (forall j, j <> i -> channels s' !! j = channels s !! j) /\
      match channels s' !! i with
      | Some (Some c') => type c' = type c /\ remotechan c' = remotechan c /\
          sent_eof c' = (sent_eof c || eof || close) /\ sent_close c' = (sent_close c || close)
      | _ => (recv_close c = true \/ In GotClose os) /\ sent_close c || close = true
      end)
    (run_close_ops i os s).
Proof.
  intros Hok Hc. pose proof (tl_close rw (fwd_type_laws rw opts _ (chansess_keeps_laws rw cf opts pass_on_env))) as Hlaw.
  eapply safe_mono; [by apply (close_run rw i s c os)|]. intros s' (Hok' & eof & close & x & Hs & He & Hcl & Hoth & Hend).
  split; [done|]. exists eof, close. split.
  { rewrite Hs. unfold closing_msgs. destruct close; [|done]. destruct (Hcl eq_refl) as [_ Hx]. by rewrite (close_says c x (st_typed _ _ _ _ Hok Hc) Hx). }
  split; [|split; [by intros [? _]%Hcl|split; [done|]]].
  - intros H. split; [by apply He|]. specialize (He H). destruct (sent_close c) eqn:E; [|done].
    destruct (co_sent_close _ _ _ (so_chans _ _ Hok _ _ Hc) E). congruence.
  - destruct (channels s' !! i) as [[c'|]|]; [|done..]. destruct Hend as (? & [? _ _] & ? & ?). by split_and!.
Qed.

(** C36: a session tells how its process ended before it closes. Whenever [check_close] sends the
    CLOSE of a session, none has been sent, the session has no process or its process has ended,
    and the message just before the CLOSE is the exit: "exit-status" with the status of a normal
    end, "exit-signal" with the name of the signal and the core flag when a signal with a name
    ended it, none when there is no process. *)
Theorem close_reports_exit i c cs (s : chs) : st_ok s -> at_session i c cs s ->
  safe (fun s' => st_ok s' /\ exists eof close : bool,
      sent (ses s') = sent (ses s) ++ (if eof then [eof_msg c] else []) ++ (if close then exit_msgs c (ses_exit cs) ++ [close_msg c] else []) /\
      (eof = true -> sent_eof c = false) /\
      (close = true -> sent_close c = false /\ (pid cs = 0 \/ exitpid (ses_exit cs) <> -1)))
    (check_close i s).
Proof.
  intros Hok Hat. pose proof (at_session_typed rw _ _ _ _ Hok Hat) as (_ & _ & Hx). destruct Hat as (Hc & Ht & Hd).
  pose proof (tl_close rw (fwd_type_laws rw opts _ (chansess_keeps_laws rw cf opts pass_on_env))) as Hlaw.
  eapply safe_mono; [by apply (check_close_ok rw i c s Hlaw Hok Hc)|].
  intros s' (Hok' & eof & close & l & Hs & _ & He & Hcl & _). split; [done|]. exists eof, close.
  destruct close; [|by split_and!]. destruct (Hcl eq_refl) as (Hsc & Hsaid & Hmay).
  rewrite (said_exit c cs l Ht Hd Hx Hsaid) in Hs. split; [done|]. split; [done|]. intros _. split; [done|].
  destruct Hmay as [b Hb]. rewrite Ht in Hb. cbn in Hb. rewrite Hsc in Hb. unfold sesscheckclose in Hb. rewrite Hd in Hb. injection Hb as _ Hb.
  apply orb_prop in Hb as [Hb|Hb]; [left; lia|right]. intros Heq. by rewrite Heq in Hb.
Qed.
End exits.
