(* ===== verification/ChanSessErrors.v ===== *)
(** * A command that is asked for after EOF

    The peer ends its side of a session before it asks for a command: [check_close] has sent
    EOF and CLOSE by then, but nothing keeps the request from starting the command. *)

From S2P Require Import Prelude Bytes CString Buffer CircBuffer Packet SessionData Channel ChannelLaws ChannelFlow ChannelData ChannelClose.
From S2P Require Import ChannelSafety AuthKeys Listener Netio NetioSafety Forward ForwardSafety ForwardRequests ForwardChannels ChannelMessages ChannelErrors.
From S2P Require Import Sshd4a ChanSess ChanSessFrame ChanSessSafety ChanSessRun.

Section errors.
Context {P W : Type} {SS : SesSession P} {FL : SesLaws P} {KS : SesSys W} {KL : SesSysLaws W} {SL : SysLaws W}.
Context (rw : Z) (Hrw : 0 < rw <= MAX_RECV_WINDOW) (cf : sshd4a) (opts : fwd_opts) (pass_on_env : bool).

Abbreviation chs := (chses (P := P) (W := W)).
Abbreviation st_ok := (st_ok rw).

#[local] Instance server_types : ChanTypes (P := P) (W := W) := svr_chantypes opts (chansess_types cf opts pass_on_env).

(** The kernel can tell the addresses of the connection and can make three pipes and a process,
    whatever the process runs. *)
Record can_start (s : chs) : Prop := {
  cst_address : exists a, get_socket_address (ss_sock_in (ses s)) (world s) = Ok a;
  cst_spawn run : exists wfd rfd efd n w, spawn_command run (world s) = (Some (wfd, rfd, efd, n), w) /\ 0 <= rfd;
}.

(** A session that has not been asked for a terminal or a command. *)
Record unasked (cs : ChanSess) : Prop := {
  ua_pid : pid cs = 0;
  ua_term : term cs = None;
  ua_cmd : cmd cs = None;
}.

(** The session of channel [i] goes on in [s'], the rest of its channel unchanged. *)
Definition session_kept (i : nat) (s s' : chs) : Prop :=
  ses s' = ses s /\ world s' = world s /\
  forall c cs, at_session i c cs s -> exists cs', at_session i (with_ctypedata (Some cs') c) cs' s' /\ pid cs' = pid cs.

Lemma session_kept_refl i (s : chs) : session_kept i s s.
Proof.
  split; [done|]. split; [done|]. intros c cs (Hc & Ht & Hd). exists cs. assert (with_ctypedata (Some cs) c = c) as -> by (destruct c; cbn in *; by subst).
  by repeat split.
Qed.

(** ** The process *)

(** A successful [spawn_command] makes one child. *)
Lemma spawn_forks run (w w' : W) x : spawn_command run w = (Some x, w') -> exists child, forked w' = forked w ++ [child].
Proof.
  unfold spawn_command. pose proof (kf_pipe w) as F1. destruct (sys_pipe w) as [[[a1 b1]|] w1]; [|done].
  pose proof (kf_pipe w1) as F2. destruct (sys_pipe w1) as [[[a2 b2]|] w2]; [|done].
  pose proof (kf_pipe w2) as F3. destruct (sys_pipe w2) as [[[a3 b3]|] w3]; [|done]. cbn [snd] in *.
  match goal with |- context [sys_fork ?c w3] => pose proof (kf_fork c w3) as F4; destruct (sys_fork c w3) as [n w4]; exists c end. cbn [fst snd] in F4.
  destruct (n <? 0); [done|]. apply (f_equal snd) in H. cbn in H. subst w'. by rewrite !kf_setsockopt, !kf_close, !kf_setsockopt, !kf_close, F4, F3, F2, F1.
Qed.

Lemma set_exit_kept i e f (s : chs) : child_ok (channels s) e -> child_pid e <> -1 -> exists s', set_session_exit e f s = Ok s' /\ session_kept i s s'.
Proof.
  intros [->|(j & d & ds & -> & _ & Hj & Ht & Hd)] He; [done|]. unfold set_session_exit. cbn [child_chansess].
  assert (Hat : at_session j d ds s) by done. destruct (at_session_of _ _ _ _ Hat) as [-> Hch]. cbn [obind]. unfold put_chansess. rewrite Hch. cbn [obind].
  eexists. split; [done|]. split; [done|]. split; [done|]. intros c cs (Hc & Hct & Hcd). cbn. apply lookup_lt_Some in Hc as Hlt.
  destruct (decide (i = j)) as [->|Hne].
  - rewrite Hc in Hj. injection Hj as ->. rewrite Hcd in Hd. injection Hd as ->. eexists. split; [|shelve]. split; [by apply list_lookup_insert_eq|done].
    Unshelve. done.
  - exists cs. split; [|done]. split; [|done]. cbn. rewrite list_lookup_insert_ne, Hc by done. do 2 f_equal. destruct c; cbn in *; by subst.
Qed.

Lemma take_lastexit_kept i (s : chs) : procs_ok None (channels s) (childpids s) (lastexit s) -> exists s', take_lastexit s = Ok s' /\ session_kept i s s'.
Proof.
  intros Hp. unfold take_lastexit. pose proof (session_kept_refl i s). destruct (Z.eqb_spec (exitpid (lastexit s)) (-1)) as [|Hn]; [by exists s|].
  destruct (find_child _ _) as [e|] eqn:E; [|by exists s]. apply find_child_some in E as [He Hen].
  destruct (set_exit_kept i e (fun _ => lastexit s) s (pk_children _ _ _ _ Hp _ He) ltac:(congruence)) as (s1 & -> & Hk).
  cbn [obind]. by eexists.
Qed.

(** [noptycommand] of a session without a process, on any channel. *)
Lemma nopty_starts i c cs (s : chs) : procs_ok None (channels s) (childpids s) (lastexit s) -> typed c -> at_session i c cs s -> pid cs = 0 ->
  (forall run, exists wfd rfd efd n w, spawn_command run (world s) = (Some (wfd, rfd, efd, n), w) /\ 0 <= rfd) ->
  exists s' c' cs', noptycommand cf pass_on_env i s = Ok (true, s') /\ ses s' = ses s /\ at_session i c' cs' s' /\
    sent_close c' = sent_close c /\ 0 <= readfd c' /\ 0 < pid cs' /\ exists child, forked (world s') = forked (world s) ++ [child].
Proof.
  intros Hp Hty Hat H0 Hspawn. unfold noptycommand. destruct (at_session_of _ _ _ _ Hat) as [-> Hch]. cbn [obind].
  destruct (Hspawn (execchild cf pass_on_env cs (ses s))) as (wfd & rfd & efd & n & w & E & Hrfd). rewrite E.
  apply spawn_forks in E as Hfork. apply spawn_pid in E as Hn. change (chan i (with_world w s)) with (chan i s). rewrite Hch. cbn [obind].
  destruct Hat as (Hc & Ht & Hd). apply lookup_lt_Some in Hc as Hlt.
  set (c1 := with_ctypedata (Some (with_pid n cs)) _). set (s1 := addchildpid i n _).
  assert (Hty1 : typed c1) by (intros Hs; destruct (Hty Hs) as (? & ? & cs0 & Hd0 & ?); split; [done|]; split; [done|]; exists (with_pid n cs); split; [done|]; by simplify_eq).
  pose proof (procs_start _ _ _ i c c1 cs (with_pid n cs) Hp Hc Ht eq_refl Hd H0 eq_refl Hn Hty1) as Hp1.
  destruct (take_lastexit_kept i s1 Hp1) as (s2 & -> & Hses & Hw & Hk). cbn [obind].
  destruct (Hk c1 (with_pid n cs)) as (cs2 & Hat2 & Hpid); [split; [subst s1; cbn; by apply list_lookup_insert_eq|done]|].
  eexists s2, _, cs2. split; [done|]. split; [done|]. split; [exact Hat2|]. split; [done|]. split; [done|]. rewrite Hpid, Hw. by split.
Qed.

(** ** The request *)

(** A session in a consistent table, whether or not its channel is closed. *)
Definition in_table (i : nat) (c : Channel) (cs : ChanSess) (s : chs) : Prop :=
  procs_ok None (channels s) (childpids s) (lastexit s) /\ at_session i c cs s.

Lemma in_table_typed i c cs s : in_table i c cs s -> typed c.
Proof. intros [Hp (Hc & _)]. by apply (pk_typed _ _ _ _ Hp i). Qed.

Lemma in_table_read i c cs (s s' : chs) : in_table i c cs s -> read_from s s' -> in_table i c cs s'.
Proof. intros H (pl & _ & ->). exact H. Qed.

Lemma in_table_put i c cs cs' (s : chs) : in_table i c cs s -> pid cs' = pid cs -> ses_exit cs' = ses_exit cs ->
  exists s', put_chansess i cs' s = Ok s' /\ in_table i (with_ctypedata (Some cs') c) cs' s' /\ ses s' = ses s /\ world s' = world s.
Proof.
  intros Hin Hpid Hx. pose proof (in_table_typed _ _ _ _ Hin) as Hty. destruct Hin as [Hp Hat]. destruct (at_session_of _ _ _ _ Hat) as [_ Hch].
  unfold put_chansess. rewrite Hch. cbn [obind]. eexists. split; [done|]. destruct Hat as (Hc & Ht & Hd). split; [|done]. split.
  - apply (procs_data None _ _ _ i c (with_ctypedata (Some cs') c) cs cs' Hp Hc eq_refl Hd eq_refl Hpid). intros Hs. destruct (Hty Hs) as (? & ? & cs0 & Hd0 & ?).
    split; [done|]. split; [done|]. exists cs'. split; [done|]. rewrite Hx. by simplify_eq.
  - split; [|done]. cbn. apply list_lookup_insert_eq. by eapply lookup_lt_Some.
Qed.

Lemma read_view (s s' : chs) : read_from s s' -> ss_sock_in (ses s') = ss_sock_in (ses s).
Proof. intros (pl & _ & ->). cbn. pose proof (ss_view_pl pl (ses s)) as H. unfold ss_view in H. congruence. Qed.

Lemma read_can_start (s s' : chs) : can_start s -> read_from s s' -> can_start s'.
Proof. intros [Ha Hs] Hf. pose proof (read_view _ _ Hf) as Hv. destruct (read_from_same _ _ Hf) as (_ & _ & Hw & _). split; rewrite ?Hv, Hw; done. Qed.

(** The command of the request, if there is to be one. *)
Lemma request_command_reads iscmd cs command rest (s : chs) : cmd cs = None -> zlen command <= MAX_CMD_LEN ->
  (iscmd = true -> reading (ssh_string command ++ rest) s) ->
  exists cs' s', (if iscmd : bool then request_command cf false cs s else Ok (true, cs, s)) = Ok (true, cs', s') /\
    pid cs' = pid cs /\ ses_exit cs' = ses_exit cs /\ term cs' = term cs /\ (s' = s \/ read_from s s').
Proof.
  intros Hcmd Hlen Hr. destruct iscmd; [|exists cs, s; split_and!; auto]. unfold request_command, pr_string. rewrite Hcmd.
  assert (Hstr : zlen command <= MAX_STRING_LEN) by (unfold MAX_STRING_LEN; lia).
  destruct (pr_takes _ _ _ rest s (takes_string command Hstr) (Hr eq_refl)) as (s1 & -> & _ & Hf). cbn [obind].
  rewrite (proj2 (Z.ltb_ge _ _)) by lia. cbn [obind negb]. eexists _, s1. split; [done|]. split_and!; try done. by right.
Qed.

Lemma forced_command_term key cs : term (take_forced_command opts key cs) = term cs.
Proof. unfold take_forced_command. destruct (forced_cmd opts); [done|]. by destruct (svr_pubkey_set_forced_command _ _ _). Qed.

Lemma connection_string_made cs (s : chs) : can_start s -> exists cs', make_connection_string cs (ses s) (world s) = Ok cs' /\
  pid cs' = pid cs /\ ses_exit cs' = ses_exit cs /\ term cs' = term cs.
Proof. intros [([[[a b] d] e] & Ha) _]. unfold make_connection_string. rewrite Ha. cbn [obind]. by eexists. Qed.

Lemma prio_forked (s : chs) : forked (world (update_channel_prio s)) = forked (world s).
Proof. unfold update_channel_prio. destruct (_ <? _); [done|]. destruct (bool_decide _); [done|]. cbn. apply kf_sock_priority. Qed.

(** A request for a command or a shell starts it, even on a closed channel. *)
Lemma sessioncommand_starts iscmd i c cs command rest (s : chs) : in_table i c cs s -> unasked cs -> can_start s -> zlen command <= MAX_CMD_LEN ->
  (iscmd = true -> reading (ssh_string command ++ rest) s) ->
  exists s' c' cs', sessioncommand cf opts pass_on_env iscmd false i s = Ok (true, s') /\ sent (ses s') = sent (ses s) /\ at_session i c' cs' s' /\
    sent_close c' = sent_close c /\ 0 <= readfd c' /\ 0 < pid cs' /\ exists child, forked (world s') = forked (world s) ++ [child].
Proof.
  intros Hin [H0 Hterm Hcmd] Hcan Hlen Hr. unfold sessioncommand. destruct (at_session_of _ _ _ _ (proj2 Hin)) as [-> _]. cbn [obind]. rewrite H0.
  destruct (request_command_reads iscmd cs command rest s Hcmd Hlen Hr) as (cs1 & s1 & -> & Hp1 & Hx1 & Ht1 & Hf). cbn [obind negb Z.eqb].
  assert (H1 : in_table i c cs s1 /\ can_start s1 /\ sent (ses s1) = sent (ses s) /\ world s1 = world s).
  { destruct Hf as [->|Hf]; [done|]. destruct (read_from_same _ _ Hf) as (_ & ? & ? & _). split; [by eapply in_table_read|]. split; [by eapply read_can_start|done]. }
  destruct H1 as (Hin1 & Hcan1 & Hs1 & Hw1). destruct (forced_command_same opts (fs_pubkey_options (ses s1)) cs1) as [Hpf Hxf].
  pose proof (forced_command_term (fs_pubkey_options (ses s1)) cs1) as Htf.
  destruct (connection_string_made (take_forced_command opts (fs_pubkey_options (ses s1)) cs1) s1 Hcan1) as (cs2 & -> & Hp2 & Hx2 & Ht2). cbn [obind].
  destruct (in_table_put i c cs cs2 s1 Hin1 ltac:(congruence) ltac:(congruence)) as (s2 & -> & Hin2 & Hs2 & Hw2). cbn [obind].
  assert (Htm : term cs2 = None) by congruence. rewrite Htm.
  destruct (nopty_starts i _ cs2 s2 (proj1 Hin2) (in_table_typed _ _ _ _ Hin2) (proj2 Hin2) ltac:(congruence)) as (s3 & c3 & cs3 & -> & Hs3 & Hat3 & Hsc3 & Hfd3 & Hpid3 & child & Hk3);
    [rewrite Hw2; apply Hcan1|]. cbn [obind]. destruct (at_session_of _ _ _ _ Hat3) as [_ ->]. cbn [obind].
  set (s4 := put_chan i (with_prio _ c3) s3). destruct (prio_ses s4) as [Hs4 Hc4].
  assert (Hat4 : at_session i (with_prio DROPBEAR_PRIO_NORMAL c3) cs3 (update_channel_prio s4)).
  { eapply at_session_chans; [|exact Hc4]. destruct Hat3 as (Hc3 & ? & ?). split; [|done]. cbn. apply list_lookup_insert_eq. by eapply lookup_lt_Some. }
  destruct (at_session_of _ _ _ _ Hat4) as [-> Hch4]. cbn [obind]. unfold put_chansess. rewrite Hch4. cbn [obind].
  eexists _, _, _. split; [done|]. split; [cbn; rewrite Hs4; cbn; congruence|]. split.
  { destruct Hat4 as (Hc & Ht & _). split; [cbn; apply list_lookup_insert_eq; by eapply lookup_lt_Some|]. split; [exact Ht|done]. }
  split; [done|]. split; [done|]. split; [done|]. exists child. cbn [world put_chan with_channels]. rewrite prio_forked. cbn. congruence.
Qed.

(** A request of name [name] for a shell or for a command. *)
Definition asks_command (name body : bytes) : Prop :=
  name = str "shell" \/ name = str "exec" /\ exists command rest, body = ssh_string command ++ rest /\ zlen command <= MAX_CMD_LEN.

Lemma request_starts i c cs name body (s : chs) : in_table i c cs s -> unasked cs -> can_start s -> asks_command name body -> reading body s ->
  exists s' c' cs', session_request cf opts pass_on_env (name ++ [0]) i s = Ok (true, s') /\ sent (ses s') = sent (ses s) /\ at_session i c' cs' s' /\
    sent_close c' = sent_close c /\ 0 <= readfd c' /\ 0 < pid cs' /\ exists child, forked (world s') = forked (world s) ++ [child].
Proof.
  intros Hin Hun Hcan Hask Hr. unfold session_request. destruct Hask as [->|(-> & command & rest & -> & Hlen)].
  - change (strcmp_eq (str "shell" ++ [0]) (str "window-change")) with false. change (strcmp_eq (str "shell" ++ [0]) (str "shell")) with true.
    by apply (sessioncommand_starts false i c cs [] []).
  - change (strcmp_eq (str "exec" ++ [0]) (str "window-change")) with false. change (strcmp_eq (str "exec" ++ [0]) (str "shell")) with false.
    change (strcmp_eq (str "exec" ++ [0]) (str "pty-req")) with false. change (strcmp_eq (str "exec" ++ [0]) (str "exec")) with true.
    by apply (sessioncommand_starts true i c cs command rest).
Qed.

(** The whole request, on a channel whose CLOSE has been sent: no reply is sent. *)
Lemma closed_request_starts i c cs name wantreply body (s : chs) : in_table i c cs s -> sent_close c = true -> unasked cs -> can_start s ->
  zlen (channels s) < 4294967296 -> asks_command name body -> wantreply = 0 \/ wantreply = 1 ->
  reading (store32h (Z.of_nat i) ++ ssh_string name ++ [wantreply] ++ body) s ->
  exists s' c' cs', recv_msg_channel_request s = Ok s' /\ sent (ses s') = sent (ses s) /\ at_session i c' cs' s' /\
    sent_close c' = true /\ 0 <= readfd c' /\ 0 < pid cs' /\ exists child, forked (world s') = forked (world s) ++ [child].
Proof.
  intros Hin Hsc Hun Hcan Hz Hask Hwr Hr. unfold recv_msg_channel_request.
  assert (Hnl : zlen name <= 5) by (by destruct Hask as [->|[-> _]]).
  destruct (getchannel_takes None i c _ s (proj1 (proj2 Hin)) Hz Hr) as (s1 & Hg & Hr1 & F1). unfold getchannel. rewrite Hg. cbn [obind].
  pose proof (in_table_read _ _ _ _ _ Hin F1) as Hin1. destruct (at_session_of _ _ _ _ (proj2 Hin1)) as [_ ->]. cbn [obind].
  destruct Hin as [_ (Hc & Ht & Hd)]. rewrite Ht. cbn [ct_reqhandler server_types svr_chantypes Z.eqb svrchansess Pos.eqb chansess_types].
  unfold chansessionrequest, pr_string. destruct (pr_takes _ _ _ _ s1 (takes_string name ltac:(unfold MAX_STRING_LEN, MAX_CMD_LEN; lia)) Hr1) as (s2 & -> & Hr2 & F2).
  cbn [obind]. destruct (pr_takes _ _ _ _ s2 (takes_bool wantreply Hwr) Hr2) as (s3 & -> & Hr3 & F3). cbn [obind].
  rewrite (proj2 (Z.ltb_ge _ _)) by (unfold MAX_NAME_LEN; lia). pose proof (in_table_read _ _ _ _ _ (in_table_read _ _ _ _ _ Hin1 F2) F3) as Hin3.
  destruct (at_session_of _ _ _ _ (proj2 Hin3)) as [_ ->]. cbn [obind]. rewrite Hd. cbn [oassert obind].
  assert (Hcan3 : can_start s3) by (do 3 (eapply read_can_start; [|eassumption]); done).
  destruct (request_starts i c cs name body s3 Hin3 Hun Hcan3 Hask Hr3) as (s4 & c4 & cs4 & -> & Hs4 & Hat4 & Hsc4 & Hfd4 & Hp4 & child & Hk4). cbn [obind].
  destruct (read_from_same _ _ F1) as (_ & S1 & W1 & _). destruct (read_from_same _ _ F2) as (_ & S2 & W2 & _). destruct (read_from_same _ _ F3) as (_ & S3 & W3 & _).
  destruct (at_session_of _ _ _ _ Hat4) as [_ ->]. cbn [obind]. unfold send_msg_channel_success. rewrite Hsc4, Hsc. unfold on_ses. cbn [obind].
  exists s4, c4, cs4. split; [by destruct (negb _), s4|]. split; [congruence|]. split; [done|]. split; [congruence|]. split; [done|]. split; [done|].
  exists child. congruence.
Qed.

(** C40: a command after EOF ends the connection. When the peer ends its side of a session before
    it has asked for a terminal or a command, EOF and CLOSE are sent. When the peer then asks for
    a shell or a command, and the kernel can tell the addresses of the connection and make the
    pipes and the process, the request is
    nevertheless followed: a process is started and belongs to the session, though nothing more
    is sent (no success, no failure), as the channel is closed; and the first time its output can
    be read, an assertion fails and the whole connection ends. *)
Theorem command_after_eof i c cs rest name wantreply body pl (s s1 : chs) :
  st_ok s -> at_session i c cs s -> unopened c -> unasked cs -> reading (store32h (Z.of_nat i) ++ rest) s ->
  recv_msg_channel_eof s = Ok s1 -> can_start (with_payload pl s1) -> asks_command name body -> wantreply = 0 \/ wantreply = 1 ->
  reading (store32h (Z.of_nat i) ++ ssh_string name ++ [wantreply] ++ body) (with_payload pl s1) ->
  sent (ses s1) = sent (ses s) ++ [eof_msg c; close_msg c] /\
  exists s2 c2 cs2, recv_msg_channel_request (with_payload pl s1) = Ok s2 /\ sent (ses s2) = sent (ses s1) /\
    at_session i c2 cs2 s2 /\ 0 < pid cs2 /\ (exists child, forked (world s2) = forked (world s1) ++ [child]) /\
    0 <= readfd c2 /\ forall readfds writefds sig, readfds (readfd c2) = true -> channel_io_one rw readfds writefds sig i s2 = Exit assert_msg.
Proof.
  intros Hok Hat Hun Hcs Hr H1 Hcan Hask Hwr Hr2. pose proof Hat as (Hc & Ht & Hd). pose proof (so_size rw _ Hok) as Hsz. apply lookup_lt_Some in Hc as Hlt.
  unfold recv_msg_channel_eof in H1.
  destruct (getchannel_takes (Some "EOF"%string) i c rest s Hc) as (s0 & Hg & _ & Hf); [unfold MAX_CHANNELS, CHAN_EXTEND_SIZE in *; lia|done|].
  rewrite Hg in H1. cbn [obind] in H1. destruct (read_from_same _ _ Hf) as (Hch & Hsent & _). assert (Hc0 : channels s0 !! i = Some (Some c)) by congruence.
  rewrite (chan_at _ _ _ Hc0) in H1. cbn [obind] in H1. pose proof (read_from_st rw _ _ Hok Hf) as Hok0. pose proof (so_chans rw _ Hok _ _ Hc) as Hck.
  assert (Hoke : st_ok (put_chan i (with_recv_eof true c) s0)) by (eapply (st_put_chan rw); [done|done|destruct Hck; by split|done|by split]).
  apply (check_close_unopened rw i c) in H1 as (p1 & T1 & ->); [|done|done|cbn; rewrite list_lookup_insert_eq by congruence; done].
  split; [cbn; destruct T1 as (_ & _ & T1); rewrite T1; cbn; by rewrite Hsent|].
  match goal with |- context [with_payload pl ?x] => set (s1 := x) in * end.
  assert (Hin : in_table i (closed_early c) cs (with_payload pl s1)).
  { assert (Hlt0 : (i < length (channels s0))%nat) by congruence. split; [|split; [|done]].
    - subst s1. cbn. rewrite list_insert_insert_eq. eapply procs_put; [apply (so_procs rw _ Hok0)|exact Hc0|by split].
    - subst s1. cbn. apply list_lookup_insert_eq. by rewrite length_insert. }
  destruct (closed_request_starts i (closed_early c) cs name wantreply body (with_payload pl s1) Hin eq_refl Hcs Hcan) as
    (s2 & c2 & cs2 & Hreq & Hs2 & Hat2 & Hsc2 & Hfd2 & Hp2 & Hk2); [|done|done|done|].
  { subst s1. unfold zlen. cbn. rewrite !length_insert, Hch. unfold zlen, MAX_CHANNELS, CHAN_EXTEND_SIZE in *. lia. }
  exists s2, c2, cs2. split; [done|]. split; [rewrite Hs2; cbn; apply sl_sent_pl|]. split; [done|]. split; [done|]. split; [done|]. split; [done|].
  intros rd wr sig Hrd. destruct Hat2 as (Hc2 & _ & _). unfold channel_io_one. rewrite Hc2, (proj2 (Z.leb_le _ _) Hfd2), Hrd. cbn [andb].
  unfold send_msg_channel_data. by rewrite Hsc2.
Qed.
End errors.
