(* ===== verification/ChanOpen.v ===== *)
(** * Opening the channels of the server

    The types of channels a peer may open are sessions, connections to a host and port and
    connections to a Unix socket.  The theorem says what each request gets, from the message to
    the answer and the new channel. *)

From S2P Require Import Prelude Bytes CString Buffer CircBuffer Packet SessionData Channel ChannelLaws ChannelFlow ChannelData ChannelClose.
From S2P Require Import ChannelSafety ChannelMessages AuthKeys Listener Netio NetioSafety Forward ForwardSafety ForwardRequests ForwardChannels.
From S2P Require Import Sshd4a ChanSess ChanSessFrame ChanSessSafety ChanSessRun ChanSessErrors.

(** ** Requests *)

Inductive open_request :=
| OpenSession
| OpenTcp (host : bytes) (port : Z) (orig : bytes) (origport : Z)
| OpenStream (path : bytes)
| OpenOther (name : bytes).

Definition open_name (r : open_request) : bytes :=
  match r with
  | OpenSession => str "session"
  | OpenTcp _ _ _ _ => str "direct-tcpip"
  | OpenStream _ => str "direct-streamlocal@openssh.com"
  | OpenOther name => name
  end.

Definition open_type (r : open_request) : Z :=
  match r with OpenTcp _ _ _ _ => svr_chan_tcpdirect | OpenStream _ => svr_chan_streamlocal | _ => svrchansess end.

(** The data of the type in the message. *)
Definition open_data (r : open_request) : bytes :=
  match r with
  | OpenTcp host port orig origport => ssh_string host ++ store32h port ++ ssh_string orig ++ store32h origport
  | OpenStream path => ssh_string path
  | _ => []
  end.

Definition open_fits (r : open_request) : Prop :=
  match r with
  | OpenTcp host port orig origport => zlen host <= MAX_STRING_LEN /\ is_u32 port /\ zlen orig <= MAX_STRING_LEN /\ is_u32 origport
  | OpenStream path => zlen path <= MAX_STRING_LEN
  | OpenSession => True
  | OpenOther name => zlen name <= MAX_STRING_LEN /\ Forall (fun b => b <> 0) name /\
      name <> str "session" /\ name <> str "direct-tcpip" /\ name <> str "direct-streamlocal@openssh.com"
  end.

(** What the channel connects to: a host and port, or a path. *)
Definition open_dest (r : open_request) : bytes * option bytes :=
  match r with
  | OpenTcp host port _ _ => (cstr (host ++ [0]), Some (utoa port))
  | OpenStream path => (cstr (path ++ [0]), None)
  | _ => ([], None)
  end.

Section open.
Context {P W : Type} {SS : SesSession P} {FL : SesLaws P} {KS : SesSys W} {KL : SesSysLaws W} {SL : SysLaws W}.
Context (rw : Z) (Hrw : 0 < rw <= MAX_RECV_WINDOW) (cf : sshd4a) (opts : fwd_opts) (pass_on_env : bool).

Abbreviation chs := (chses (P := P) (W := W)).
Abbreviation st_ok := (st_ok rw).

#[local] Instance server_types : ChanTypes (P := P) (W := W) := svr_chantypes opts (chansess_types cf opts pass_on_env).

(** Whether the options and the key of the user let the channel open. *)
Definition permitted (key : option PubKeyOptions) (r : open_request) : outcome bool :=
  let tcp := negb (nolocaltcp opts) && svr_pubkey_allows_tcpfwd key in
  match r with
  | OpenTcp host port orig origport =>
      if tcp && (zlen host <=? MAX_HOST_LEN) && (zlen orig <=? MAX_HOST_LEN) && (origport <=? 65535) && (port <=? 65535)
      then svr_pubkey_allows_local_tcpfwd key (host ++ [0]) port else Ok false
  | OpenStream path =>
      let forced := match forced_cmd opts with Some _ => true | None => svr_pubkey_has_forced_command key end in
      Ok (negb forced && tcp && (zlen path <=? MAX_HOST_LEN))
  | OpenSession => Ok true
  | OpenOther _ => Ok false
  end.

(** Channel [c] of [s] waits in [s'] for a new connection to [dest]. *)
Definition connecting (i : nat) (c : Channel) (dest : bytes * option bytes) (s s' : chs) : Prop :=
  exists k conn, channels s' = <[i := Some (with_conn_pending (Some k) c)]> (channels s) /\ conns s' !! k = Some (ChannelConnectDone i) /\
    (k, conn) ∈ ses_conn_pending (ses s') /\ remotehost conn = fst dest /\ remoteport conn = snd dest /\ sent (ses s') = sent (ses s).

Lemma reads_view (s s' : chs) : rtc read_from s s' -> fwd_view (ses s') = fwd_view (ses s).
Proof. induction 1 as [|s1 s2 s3 (pl & _ & ->) _ IH]; [done|]. rewrite IH. cbn. apply fw_view_pl. Qed.

Lemma reads_key (s s' : chs) : rtc read_from s s' -> fs_pubkey_options (ses s') = fs_pubkey_options (ses s).
Proof. intros H. apply reads_view in H. unfold fwd_view in H. congruence. Qed.

Lemma permit_open_total l host port : Forall (fun e => permit_host e <> None) l -> exists b, permit_open_match l host port = Ok b.
Proof.
  induction 1 as [|e l He _ IH]; [by eexists|]. cbn. destruct (permit_host e); [|done]. destruct (_ && _); [by eexists|done].
Qed.

Lemma permitted_total key r : hosts_named key -> exists b, permitted key r = Ok b.
Proof.
  intros Hk. destruct r; cbn; try by eexists. case_match; [|by eexists]. destruct key as [o|]; [|by eexists]. cbn in *.
  destruct (permit_open_destinations o); [by apply permit_open_total|by eexists].
Qed.

(** [channel_connecting] on a connection that has just been appended. *)
Lemma appended_connecting i c (s0 s : chs) conn w dest : channels s0 !! i = Some (Some c) -> rtc read_from s0 s ->
  remotehost conn = fst dest -> remoteport conn = snd dest ->
  exists s', channel_connecting i (fresh_conn s) (list_append_conn (fresh_conn s) conn (ChannelConnectDone i) (with_world w s)) = Ok (SSH_OPEN_IN_PROGRESS, s') /\
    connecting i c dest s0 s'.
Proof.
  intros Hc Hf Hh Hp. destruct (reads_same _ _ Hf) as (Hch & Hs & _). unfold channel_connecting. set (s1 := list_append_conn _ _ _ _).
  rewrite (chan_at i c s1) by (subst s1; cbn; congruence). cbn [obind]. eexists. split; [done|]. exists (fresh_conn s), conn.
  subst s1. cbn [channels put_chan with_channels list_append_conn with_conns with_pending with_ses with_world conns ses]. rewrite Hch. split; [done|].
  split; [apply lookup_insert_eq|]. pose proof (fw_view_set (ses_conn_pending (ses s) ++ [(fresh_conn s, conn)]) (ses s)) as Hv. unfold fwd_view in Hv.
  injection Hv as -> _. split; [set_solver|]. split; [done|]. split; [done|]. by rewrite fw_sent_set.
Qed.

(** ** Initialisation by the types *)

(** A direct channel: refused, or waiting for its connection. *)
Definition direct_init (i : nat) (c : Channel) (r : open_request) (s : chs) (init : outcome (Z * chs)) : Prop :=
  exists allowed, permitted (fs_pubkey_options (ses s)) r = Ok allowed /\
    if allowed : bool then exists s', init = Ok (SSH_OPEN_IN_PROGRESS, s') /\ connecting i c (open_dest r) s s'
    else exists s', init = Ok (SSH_OPEN_ADMINISTRATIVELY_PROHIBITED, s') /\ rtc read_from s s'.

Lemma tcp_init i c host port orig origport rest (s : chs) : hosts_named (fs_pubkey_options (ses s)) -> channels s !! i = Some (Some c) ->
  open_fits (OpenTcp host port orig origport) -> reading (open_data (OpenTcp host port orig origport) ++ rest) s ->
  direct_init i c (OpenTcp host port orig origport) s (newtcpdirect opts i s).
Proof.
  intros Hk Hc (Hh & Hp & Ho & Hop) Hr. cbn [open_data] in Hr. rewrite <- !app_assoc in Hr. destruct (permitted_total _ (OpenTcp host port orig origport) Hk) as [b Hb].
  exists b. split; [done|]. unfold newtcpdirect, pr_string. cbn [permitted] in Hb. unfold MAX_HOST_LEN in *.
  assert (Hneg : forall x y, negb x && y = negb (x || negb y)) by by intros [] [].
  rewrite Hneg in Hb. clear Hneg. destruct (nolocaltcp opts || _) eqn:Et; cbn [negb andb] in Hb.
  { injection Hb as <-. exists s. split; [done|apply rtc_refl]. }
  destruct (pr_takes _ _ _ _ s (takes_string host Hh) Hr) as (s1 & -> & Hr1 & F1). cbn [obind]. rewrite Z.ltb_antisym.
  destruct (zlen host <=? 254); cbn [negb andb] in *; [|injection Hb as <-; exists s1; split; [done|by apply rtc_once]].
  destruct (pr_takes _ _ _ _ s1 (takes_int port Hp) Hr1) as (s2 & -> & Hr2 & F2). cbn [obind].
  destruct (pr_takes _ _ _ _ s2 (takes_string orig Ho) Hr2) as (s3 & -> & Hr3 & F3). cbn [obind]. rewrite Z.ltb_antisym.
  assert (F : rtc read_from s s3) by (do 3 (eapply rtc_l; [eassumption|]); apply rtc_refl).
  destruct (zlen orig <=? 254); cbn [negb andb] in *; [|injection Hb as <-; by exists s3].
  destruct (pr_takes _ _ _ _ s3 (takes_int origport Hop) Hr3) as (s4 & -> & Hr4 & F4). cbn [obind]. apply (rtc_r _ _ _ F) in F4 as F5.
  assert ((65535 <? origport) || (65535 <? port) = negb ((origport <=? 65535) && (port <=? 65535))) as -> by lia.
  destruct ((origport <=? 65535) && (port <=? 65535)); cbn [negb] in *; [|injection Hb as <-; by exists s4].
  rewrite (reads_key _ _ F5), Hb. cbn [obind]. destruct b; cbn [negb]; [|by exists s4]. unfold connect_remote.
  destruct (sys_getaddrinfo _ _ _ _) as [res w]. apply appended_connecting; [done|done|by destruct res|by destruct res].
Qed.

Lemma stream_init i c path rest (s : chs) : channels s !! i = Some (Some c) -> open_fits (OpenStream path) -> reading (open_data (OpenStream path) ++ rest) s ->
  direct_init i c (OpenStream path) s (newstreamlocal opts i s).
Proof.
  intros Hc Hp Hr. eexists. split; [reflexivity|]. unfold newstreamlocal, has_forced_command, pr_string.
  destruct (match forced_cmd opts with Some _ => _ | None => _ end); cbn [negb andb]; [exists s; split; [done|apply rtc_refl]|].
  assert (Hneg : forall x y, negb x && y = negb (x || negb y)) by by intros [] [].
  rewrite Hneg. destruct (nolocaltcp opts || _); cbn [negb andb]; [exists s; split; [done|apply rtc_refl]|].
  destruct (pr_takes _ _ _ _ s (takes_string path Hp) Hr) as (s1 & -> & _ & F). cbn [obind]. rewrite Z.ltb_antisym. apply rtc_once in F.
  destruct (zlen path <=? MAX_HOST_LEN); cbn [negb]; [|by exists s1]. unfold connect_streamlocal.
  match goal with |- context [list_append_conn _ ?x _ s1] => set (conn := x) end.
  pose proof (appended_connecting i c s s1 conn (world s1) (cstr (path ++ [0]), None) Hc F) as H. replace (with_world (world s1) s1) with s1 in H by by destruct s1.
  apply H; subst conn; by destruct (_ <=? _).
Qed.

(** ** The request *)

(** What a request to open a channel leaves: the answer, and the table of channels. *)
Definition opened (r : open_request) (rc win mx : Z) (s s' : chs) : Prop :=
  let i := free_slot (channels s) in
  let fails reason := sent (ses s') = sent (ses s) ++ [open_failure_msg rc reason] in
  match r with
  | OpenOther _ => channels s' = channels s /\ fails SSH_OPEN_UNKNOWN_CHANNEL_TYPE
  | _ =>
      if is_full s then channels s' = channels s /\ fails SSH_OPEN_RESOURCE_SHORTAGE
      else
        (forall j d, j <> i -> channels s' !! j = Some (Some d) <-> channels s !! j = Some (Some d)) /\
        exists allowed, permitted (fs_pubkey_options (ses s)) r = Ok allowed /\
        if allowed : bool then
          exists c, channels s' !! i = Some (Some c) /\ new_chan rw i (open_type r) rc win mx c /\
          match r with
          | OpenSession => (exists cs, ctypedata c = Some cs /\ unasked cs) /\ conn_pending c = None /\
              sent (ses s') = sent (ses s) ++ [open_confirmation_msg rw rc i]
          | _ => (exists k conn, conn_pending c = Some k /\ conns s' !! k = Some (ChannelConnectDone i) /\ (k, conn) ∈ ses_conn_pending (ses s') /\
                remotehost conn = fst (open_dest r) /\ remoteport conn = snd (open_dest r)) /\ sent (ses s') = sent (ses s)
          end
        else channels s' !! i = Some None /\ fails SSH_OPEN_ADMINISTRATIVELY_PROHIBITED
  end.

Lemma named r : open_fits r ->
  Forall (fun b => b <> 0) (open_name r) /\ zlen (open_name r) <= MAX_STRING_LEN /\
  exists k, (if MAX_NAME_LEN <? zlen (open_name r) then None else list_find (fun tn => open_name r = snd tn) (ct_names (P := P) (W := W))) =
    match r with OpenOther _ => None | _ => Some (k, (open_type r, open_name r)) end.
Proof.
  destruct r as [| | |name]; cbn [open_fits].
  1-3: intros _; split; [cbn; repeat constructor; discriminate|]; split; [vm_compute; discriminate|].
  1: by exists 0%nat. 1: by exists 1%nat. 1: by exists 2%nat.
  intros (Hl & Hn & H1 & H2 & H3). cbn [open_name]. split; [done|]. split; [done|]. exists 0%nat. destruct (_ <? _); [done|].
  apply list_find_None. repeat constructor; done.
Qed.

Lemma fails_with rc reason (s : chs) : st_ok s ->
  safe (fun s' => channels s' = channels s /\ sent (ses s') = sent (ses s) ++ [open_failure_msg rc reason])
    (on_ses (send_msg_channel_open_failure rc reason [] []) s).
Proof.
  intros Hok. unfold on_ses. eapply safe_bind; [apply send_open_failure_ok; [apply Hok|apply text_nil|apply text_nil]|].
  intros p' _ (_ & _ & Hs). cbn. by split.
Qed.

(** The answer to a direct channel. *)
Lemma direct_answer i c r rc win mx (s5 s : chs) init : st_ok_but rw (Some i) s5 -> channels s5 !! i = Some (Some c) -> open_type r <> svrchansess ->
  new_chan rw i (open_type r) rc win mx c -> direct_init i c r s5 init ->
  fs_pubkey_options (ses s5) = fs_pubkey_options (ses s) -> sent (ses s5) = sent (ses s) -> i = free_slot (channels s) -> is_full s = false ->
  match r with OpenTcp _ _ _ _ | OpenStream _ => True | _ => False end ->
  (forall j d, j <> i -> channels s5 !! j = Some (Some d) <-> channels s !! j = Some (Some d)) ->
  safe (opened r rc win mx s) (open_answer rc i init).
Proof.
  intros Hok Hc Hty Hnew (allowed & Hal & Hinit) Hkey Hsent Hi Hfull Hr Hoth. apply lookup_lt_Some in Hc as Hlt.
  assert (Hopen : forall s', (forall j d, j <> i -> channels s' !! j = Some (Some d) <-> channels s !! j = Some (Some d)) /\
      (if allowed then exists c, channels s' !! i = Some (Some c) /\ new_chan rw i (open_type r) rc win mx c /\
         (exists k conn, conn_pending c = Some k /\ conns s' !! k = Some (ChannelConnectDone i) /\ (k, conn) ∈ ses_conn_pending (ses s') /\
            remotehost conn = fst (open_dest r) /\ remoteport conn = snd (open_dest r)) /\ sent (ses s') = sent (ses s)
       else channels s' !! i = Some None /\ sent (ses s') = sent (ses s) ++ [open_failure_msg rc SSH_OPEN_ADMINISTRATIVELY_PROHIBITED]) -> opened r rc win mx s s').
  { intros s' [H1 H2]. unfold opened. rewrite <- Hi, <- Hkey, Hfull. destruct r; try done; (split; [exact H1|exists allowed; split; [exact Hal|exact H2]]). }
  destruct allowed.
  - destruct Hinit as (s6 & -> & k & conn & Hch & Hk & Hin & Hh & Hp & Hs). change (open_answer rc i (Ok (SSH_OPEN_IN_PROGRESS, s6))) with (Ok s6).
    apply Hopen. rewrite Hch. split; [intros j d Hj; rewrite list_lookup_insert_ne by done; by apply Hoth|].
    eexists. split; [by apply list_lookup_insert_eq|]. split; [exact Hnew|]. split; [by exists k, conn|congruence].
  - destruct Hinit as (s6 & -> & F). destruct (reads_same _ _ F) as (Hch & Hs & _). cbn [open_answer obind].
    change (SSH_OPEN_ADMINISTRATIVELY_PROHIBITED =? SSH_OPEN_IN_PROGRESS) with false. change (0 <? SSH_OPEN_ADMINISTRATIVELY_PROHIBITED) with true. cbv iota.
    assert (Hok6 : st_ok s6).
    { eapply reads_st; [exact F|]. eapply st_made; [exact Hok|exact Hc|]. apply typed_other. destruct Hnew as (-> & _). done. }
    assert (Hlaw : close_law (P := P) (W := W)) by exact (tl_close rw (fwd_type_laws rw opts _ (chansess_keeps_laws rw cf opts pass_on_env))).
    destruct (remove_channel_ok rw i c s6 Hlaw Hok6) as (s7 & -> & Hok7 & Hs7 & Hch7); [congruence|]. cbn [obind].
    eapply safe_mono; [by apply fails_with|]. intros s8 [Hch8 Hs8]. apply Hopen. rewrite Hch8, Hch7, Hch. split; [|split].
    + intros j d Hj. rewrite list_lookup_insert_ne by done. by apply Hoth.
    + by apply list_lookup_insert_eq.
    + rewrite Hs8, Hs7. congruence.
Qed.

(** The answer to a session. *)
Lemma session_answer i c rc win mx (s5 s : chs) : st_ok_but rw (Some i) s5 -> channels s5 !! i = Some (Some c) -> fresh rw i c ->
  new_chan rw i svrchansess rc win mx c -> sent (ses s5) = sent (ses s) -> i = free_slot (channels s) -> is_full s = false ->
  (forall j d, j <> i -> channels s5 !! j = Some (Some d) <-> channels s !! j = Some (Some d)) ->
  safe (opened OpenSession rc win mx s) (open_answer rc i (newchansess i s5)).
Proof.
  intros Hok Hc Hf Hnew Hsent Hi Hfull Hoth. apply lookup_lt_Some in Hc as Hlt. unfold newchansess. rewrite (chan_at _ _ _ Hc). cbn [obind].
  rewrite (fr_data _ _ _ Hf). cbn [oassert obind open_answer]. change (0 =? SSH_OPEN_IN_PROGRESS) with false. change (0 <? 0) with false. cbv iota.
  match goal with |- context [update_channel_prio ?x] => set (s6 := x) end. destruct (prio_ses s6) as [Hs6 Hc6].
  match type of s6 with _ => match eval unfold s6 in s6 with put_chan _ ?d _ => set (c6 := d) in * end end.
  assert (Hl6 : channels s6 !! i = Some (Some c6)) by (subst s6; cbn; by apply list_lookup_insert_eq).
  rewrite (chan_at i c6) by by rewrite Hc6. cbn [obind]. unfold on_ses. rewrite Hs6.
  eapply safe_bind; [apply send_confirmation_ok; apply (so_idle _ _ Hok)|]. intros p' _ (_ & _ & Hp'). cbn [safe].
  unfold opened. rewrite <- Hi, Hfull. cbn [channels ses with_ses]. rewrite Hc6. split.
  { intros j d Hj. subst s6. cbn. rewrite list_lookup_insert_ne by done. by apply Hoth. }
  exists true. split; [done|]. exists c6. split; [done|]. split; [exact Hnew|]. split; [eexists; split; [subst c6; cbn; done|by split]|].
  split; [apply (fr_pending _ _ _ Hf)|]. rewrite Hp'. subst s6. cbn [ses put_chan with_channels]. rewrite Hsent. unfold open_confirmation_msg.
  destruct Hnew as (_ & Hrc & _ & _ & Hrwin & Hmax & Hidx). subst c6. cbn. by rewrite Hrc, Hrwin, Hmax, Hidx.
Qed.

(** C21: what a request to open a channel gets. A well-formed request is answered by exactly one
    message, or the answer is left to a connection that is started: "unknown channel type" when
    the name is none of the three of the server; "resource shortage" when the table is full; for
    "session" the confirmation with the peer's number, the number of the channel and the window,
    and the session has no terminal and no process; for a direct channel to a host and port or to
    a Unix socket, "administratively prohibited" and no channel when the options, the key or the
    size of the data forbid it (exactly as [permitted] says), and else no message yet, the channel
    waiting for a new connection to just that host and port or path. The new channel has the
    lowest free number and the values of the request, the packet size cut to what the server
    sends; no other channel changes, and the invariant holds again. *)
Theorem channel_open_reply (r : open_request) rc win mx rest (s : chs) :
  st_ok s -> open_fits r -> is_u32 rc -> is_u32 win -> is_u32 mx ->
  reading (ssh_string (open_name r) ++ store32h rc ++ store32h win ++ store32h mx ++ open_data r ++ rest) s ->
  safe (fun s' => opened r rc win mx s s' /\ st_ok s') (recv_msg_channel_open rw s).
Proof.
  intros Hok Hfits Hrc Hwin Hmx Hr. apply safe_and.
  2: { apply safe_returns, (recv_open_ok rw Hrw). { apply (fwd_type_laws rw opts _ (chansess_keeps_laws rw cf opts pass_on_env)). }
       split; [done|]. destruct Hr as (pl & ? & ? & _). by exists pl. }
  destruct (named r Hfits) as (Hnz & Hlen & k & Hfind).
  destruct (open_request_read rw s (open_name r) rc win mx (open_data r ++ rest) Hrw Hok Hnz Hlen Hrc Hwin Hmx Hr) as (s4 & F & Hok4 & Hr4 & Hcase).
  rewrite Hfind in Hcase. clear Hfind. destruct (reads_same _ _ F) as (E4 & S4 & _). pose proof (reads_key _ _ F) as K4.
  assert (Hfail : forall reason, safe (fun s' => channels s' = channels s /\ sent (ses s') = sent (ses s) ++ [open_failure_msg rc reason])
      (on_ses (send_msg_channel_open_failure rc reason [] []) s4)).
  { intros reason. rewrite <- E4, <- S4. by apply fails_with. }
  assert (Hkey : hosts_named (fs_pubkey_options (ses s))) by apply fw_ok_options, (so_idle _ _ Hok).
  destruct r as [|host port orig origport|path|name]; [..|rewrite Hcase; apply Hfail].
  all: destruct (is_full s) eqn:Efull; [rewrite Hcase; eapply safe_mono; [apply Hfail|]; intros s' H; unfold opened; by rewrite Efull|].
  all: destruct Hcase as (c & s5 & Hok5 & Hs5 & Hc & Hf & Hnew & Hoth & ->).
  - cbn. apply (session_answer _ c); try done. congruence.
  - cbn [open_type]. change (ct_inithandler svr_chan_tcpdirect) with (Some (newtcpdirect (P := P) (W := W) opts)). cbv iota.
    apply (direct_answer _ c _ _ _ _ s5); try done; [|congruence..]. eapply tcp_init; [congruence|done|done|]. unfold reading in *. by rewrite Hs5.
  - cbn [open_type]. change (ct_inithandler svr_chan_streamlocal) with (Some (newstreamlocal (P := P) (W := W) opts)). cbv iota.
    apply (direct_answer _ c _ _ _ _ s5); try done; [|congruence..]. eapply stream_init; [done|done|]. unfold reading in *. by rewrite Hs5.
Qed.
End open.
