(* ===== verification/ForwardToy.v ===== *)
(** * Forwarding at work on a concrete session

    A kernel that gives out sockets and refuses the first address of every host, with processes
    and terminals; a session with a key that may open one destination only, whose channels may
    be sessions; and the theorems on forwarding applied to runs. *)

From S2P Require Import Prelude Bytes CString Buffer CircBuffer Packet SessionData Channel ChannelLaws ChannelFlow ChannelData ChannelClose ChannelSafety.
From S2P Require Import ChannelMessages ChannelToy AuthKeys Listener Netio NetioSafety Forward ForwardSafety ForwardRequests ForwardChannels.
From S2P Require Import Sshd4a ChanSess ChanSessSafety ChanSessRun.

Module ToyFwd.
Import ToyChan.

(** ** The kernel *)

(** The children made, the exits to come, the terminals set, and the connections served. *)
Record procs := mkprocs { p_forked : list (outcome child); p_exits : list (Z * Z); p_ttys : list (Z * termios); p_served : list (Z * Z) }.

Record nworld := mknworld { n_files : tworld; n_log : netlog; n_next : nat; n_names : list (Z * sockaddr); n_closed : list Z; n_procs : procs }.

Definition set_files (f : tworld) (w : nworld) : nworld := mknworld f (n_log w) (n_next w) (n_names w) (n_closed w) (n_procs w).
Definition set_log (l : netlog) (w : nworld) : nworld := mknworld (n_files w) l (n_next w) (n_names w) (n_closed w) (n_procs w).
Definition set_procs (p : procs) (w : nworld) : nworld := mknworld (n_files w) (n_log w) (n_next w) (n_names w) (n_closed w) p.

#[global] Instance fwd_sys : Sys nworld := {|
  sys_read fd n w := let '(r, f) := sys_read fd n (n_files w) in (r, set_files f w);
  sys_writev fd bs w := let '(r, f) := sys_writev fd bs (n_files w) in (r, set_files f w);
  sys_close fd w := mknworld (n_files w) (n_log w) (n_next w) (n_names w) (n_closed w ++ [fd]) (n_procs w);
  sys_shutdown _ _ w := w;
  sys_read_pending _ _ := false;
  sys_set_sock_priority _ w := w;
|}.

#[global] Instance fwd_sys_laws : SysLaws nworld.
Proof.
  refine {| fd_out fd w := fd_out fd (n_files w) |}.
  - intros fd n w bs w' Hn H. cbn [sys_read fwd_sys] in H. destruct (sys_read fd n (n_files w)) as [r f] eqn:E.
    injection H as -> <-. by eapply wl_read.
  - intros fd bs w n w' H. cbn [sys_writev fwd_sys] in H. destruct (sys_writev fd bs (n_files w)) as [r f] eqn:E.
    injection H as -> <-. by apply (wl_writev _ _ _ _ _ E).
  - intros fd bs w r w' H Hr. cbn [sys_writev fwd_sys] in H. destruct (sys_writev fd bs (n_files w)) as [r' f] eqn:E.
    injection H as <- <-. by apply (wl_writev_none _ _ _ _ _ E).
Defined.

Definition new_fd (w : nworld) : Z * nworld :=
  (Z.of_nat (n_next w), mknworld (n_files w) (n_log w) (S (n_next w)) (n_names w) (n_closed w) (n_procs w)).

(** A number as text, of any size. *)
Definition port_text (p : Z) : bytes := if p <? 0 then 45 :: digits (S (Z.to_nat (Z.log2 (- p)))) (- p) else digits (S (Z.to_nat (Z.log2 p))) p.

Definition unknown_host : bytes := str "Name or service not known".

Definition addresses (host : option bytes) (passive : bool) (port : Z) : bytes + list sockaddr :=
  match host, passive with
  | None, false => inr [SaInet [127; 0; 0; 1] port; SaInet6 (replicate 15 0 ++ [1]) port]
  | None, true => inr [SaInet [0; 0; 0; 0] port]
  | Some h, _ => if strcmp_eq h (str "nowhere") then inl unknown_host else inr [SaInet [10; 0; 0; 1] port; SaInet [10; 0; 0; 2] port]
  end.

#[global] Instance fwd_net : NetSys nworld := {|
  sys_getaddrinfo h p b w :=
    match addresses h b (atol p) with
    | inl e => (inl e, w)
    | inr l => (inr l, set_log (log_resolve (h, p, b) l (n_log w)) w)
    end;
  sys_socket _ w := new_fd w;
  sys_setsockopt _ _ w := w;
  sys_bind fd a w :=
    (true, mknworld (n_files w) (log_bind a (n_log w)) (n_next w)
             ((fd, if sin_port a =? 0 then set_sin_port 40000 a else a) :: n_names w) (n_closed w) (n_procs w));
  sys_listen _ _ w := (true, w);
  sys_connect fd a w :=
    (match a with SaInet [10; 0; 0; 1] _ => Some (EOther (str "Connection refused")) | _ => Some EINPROGRESS end, set_log (log_connect a (n_log w)) w);
  sys_so_error _ _ := Some None;
  sys_getsockname fd w := snd <$> list_find (fun x => fst x = fd) (n_names w) ≫= fun x => Some (snd x);
  sys_getnameinfo a := Some (str "10.0.0.9", port_text (sin_port a));
  sys_accept _ w := let '(fd, w) := new_fd w in (Some (fd, SaInet [10; 0; 0; 9] 5555), w);
  sys_unlink _ w := w;
  sys_umask m w := (18, w);
|}.

Lemma port_text_ok p : atol (port_text p) = p.
Proof.
  assert (Hb : forall n, 0 <= n -> n < 10 ^ Z.of_nat (S (Z.to_nat (Z.log2 n)))).
  { intros n Hn. pose proof (Z.log2_nonneg n). replace (Z.of_nat (S (Z.to_nat (Z.log2 n)))) with (Z.succ (Z.log2 n)) by lia.
    destruct (decide (n = 0)) as [->|]; [done|]. pose proof (Z.log2_spec n ltac:(lia)) as [_ H2].
    pose proof (Z.pow_le_mono_l 2 10 (Z.succ (Z.log2 n)) ltac:(lia)). lia. }
  unfold port_text. destruct (Z.ltb_spec p 0) as [Hp|Hp]; [|by apply atol_digits; split; [|apply Hb]].
  set (fuel := S _). unfold atol. change (cstr (45 :: digits fuel (- p))) with (45 :: cstr (digits fuel (- p))).
  rewrite cstr_digits by lia. change (snd (span isspace (45 :: digits fuel (- p)))) with (45 :: digits fuel (- p)). cbv iota. rewrite span_digits by lia. cbn [fst]. rewrite digits_decimal; [lia|]. split; [lia|]. subst fuel. apply Hb. lia.
Qed.

#[global] Instance fwd_net_laws : NetLaws nworld.
Proof.
  refine {| net_log := n_log |}; try done.
  - intros fd n w. cbn [net_sys fwd_net sys_read fwd_sys]. by destruct (sys_read fd n (n_files w)).
  - intros fd bs w. cbn [net_sys fwd_net sys_writev fwd_sys]. by destruct (sys_writev fd bs (n_files w)).
  - intros h p b w. cbn. by destruct (addresses h b (atol p)).
  - intros h p b w l w' H. cbn in H. unfold addresses in H. destruct h as [h|].
    + destruct (strcmp_eq h (str "nowhere")); [done|]. injection H as <- <-. repeat constructor; done.
    + destruct b; injection H as <- <-; repeat constructor; done.
  - intros h p b w e w' H. cbn in H. unfold addresses in H. destruct h as [h|]; [|by destruct b].
    destruct (strcmp_eq h (str "nowhere")); [|done]. injection H as <- <-. split; [split; [by apply bytes_check|done]|done].
  - intros fam w. cbn. lia.
  - intros fd a w w1 n ok w2 b H1 H2 Ha Hn. cbn in H1, H2. injection H1 as <-. injection H2 as <- <-. cbn in Hn.
    rewrite decide_True in Hn by done. injection Hn as <-. destruct (Z.eqb_spec (sin_port a) 0) as [E|E]; destruct a; try done; cbn in *; lia.
  - intros a Ha. eexists _, _. split; [done|]. apply port_text_ok.
  - intros a h s [= <- <-]. split; [by apply bytes_check|done].
  - intros fd a w e w' H. cbn in H. injection H as H <-.
    assert (e = str "Connection refused") as ->; [|split; [by apply bytes_check|done]].
    by repeat (match type of H with context [match ?x with _ => _ end] => destruct x end; try (injection H as <-)).
  - intros fd w nfd a w' H. cbn in H. injection H as <- _ _. lia.
Defined.

(** Every process gets a new number; a signal ends it. *)
#[global] Instance toy_ses_sys : SesSys nworld := {|
  sys_pipe w := let '(a, w) := new_fd w in let '(b, w) := new_fd w in (Some (a, b), w);
  sys_fork c w := (1000 + zlen (p_forked (n_procs w)), set_procs (mkprocs (p_forked (n_procs w) ++ [c]) (p_exits (n_procs w)) (p_ttys (n_procs w)) (p_served (n_procs w))) w);
  sys_dup2 _ _ _ := true;
  sys_waitpids w := (filter (fun x => 0 < fst x) (p_exits (n_procs w)), set_procs (mkprocs (p_forked (n_procs w)) [] (p_ttys (n_procs w)) (p_served (n_procs w))) w);
  sys_kill pid sig w := (true, set_procs (mkprocs (p_forked (n_procs w)) (p_exits (n_procs w) ++ [(pid, sig)]) (p_ttys (n_procs w)) (p_served (n_procs w))) w);
  sys_openpty w := let '(a, w) := new_fd w in let '(b, w) := new_fd w in (Some (a, b), w);
  sys_ttyname _ _ := Some (str "/dev/pts/0");
  sys_winsize _ _ w := w;
  sys_tcgetattr _ _ := Some (mktermios 0 5 191 35387 (replicate NCCS 0));
  sys_tcsetattr fd t w := set_procs (mkprocs (p_forked (n_procs w)) (p_exits (n_procs w)) (p_ttys (n_procs w) ++ [(fd, t)]) (p_served (n_procs w))) w;
  sys_getpeername _ _ := Some (SaInet [10; 0; 0; 9] 5555);
  sys_chdir _ _ := true;
  sys_getuid _ := 10000;
  sys_pw_dir _ := Some (str "/data");
|}.

#[global] Instance toy_ses_sys_laws : SesSysLaws nworld.
Proof.
  refine {| ks_net := fwd_net_laws; forked w := p_forked (n_procs w) |}; try done.
  - intros fd n w. cbn [net_sys fwd_net sys_read fwd_sys ss_net toy_ses_sys]. by destruct (sys_read fd n (n_files w)).
  - intros fd bs w. cbn [net_sys fwd_net sys_writev fwd_sys ss_net toy_ses_sys]. by destruct (sys_writev fd bs (n_files w)).
  - intros h p b w. cbn. by destruct (addresses h b (atol p)).
  - intros c w. cbn. pose proof (zlen_nonneg (p_forked (n_procs w))). by rewrite (proj2 (Z.ltb_ge _ _)) by lia.
  - intros c w. cbn. pose proof (zlen_nonneg (p_forked (n_procs w))). lia.
  - intros w. cbn. apply Forall_forall. intros x Hx. by apply list_elem_of_filter in Hx as [? _].
  - intros fd w t [= <-]. done.
Defined.

(** ** The session *)

Record fses := mkfses { f_base : tses; f_conns : list (nat * progress_connection); f_key : option PubKeyOptions; f_root : bool }.

Definition set_base (b : tses) (p : fses) : fses := mkfses b (f_conns p) (f_key p) (f_root p).

#[global] Instance fses_session : Session fses := {|
  ses_writepayload p := ses_writepayload (f_base p);
  ses_set_writepayload b p := set_base (ses_set_writepayload b (f_base p)) p;
  ses_payload p := ses_payload (f_base p);
  ses_set_payload b p := set_base (ses_set_payload b (f_base p)) p;
  ses_dataallowed _ := true;
  ses_encrypt_packet p := let* b := ses_encrypt_packet (f_base p) in Ok (set_base b p);
|}.

#[global] Instance fses_laws : SessionLaws fses.
Proof.
  refine {| ses_ok p := Forall (fun kc => err_short (snd kc)) (f_conns p) /\ hosts_named (f_key p); sent p := sent (f_base p) |}; try done.
  intros p m q H Hv Hm. pose proof (sl_encrypt (f_base p) m q I Hv Hm) as He. cbn [ses_encrypt_packet fses_session].
  eapply safe_bind; [exact He|]. intros b _ (_ & Hb & Hpl & Hs). done.
Defined.

#[global] Instance fses_conns : ConnSession fses := {|
  ses_conn_pending := f_conns;
  ses_set_conn_pending l p := mkfses (f_base p) l (f_key p) (f_root p);
|}.

#[global] Instance fses_fwd : FwdSession fses := {| fs_pubkey_options := f_key; fs_allowprivport := f_root |}.

#[global] Instance fses_fwd_laws : FwdLaws fses.
Proof.
  refine {| fw_laws := fses_laws |}; try done.
  - intros p p' H. cbn [ses_encrypt_packet conn_session fwd_session fses_fwd fses_conns fses_session] in H. apply obind_Ok in H as (b & _ & [= <-]). done.
  - intros l p [_ H] Hl. by split.
  - by intros p [_ H].
  - by intros p [H _].
Defined.

#[global] Instance fses_ses : SesSession fses := {|
  ss_sock_in _ := 3;
  ss_pw_name _ := str "shell";
  ss_pw_dir _ := str "/data/home";
  ss_pw_shell _ := str "/system/bin/sh";
  ss_environ _ := ∅;
|}.

#[global] Instance fses_ses_laws : SesLaws fses.
Proof. by refine {| sl_fwd := fses_fwd_laws |}. Defined.

Definition toy_cf : sshd4a := {|
  sshd4a_shell_exe := str "/system/bin/sh";
  sshd4a_home_path := str "/data/home";
  lib_path := str "/lib";
  conf_path := str "/conf";
  env_var_list := None;
  enable_service_shell_access := true;
  enable_public_key_auth := true;
  enable_single_use_passwords := false;
  authorized_users_file := None;
  authorized_keys_file := None;
|}.

Definition toy_opts : fwd_opts := mkfwdopts false false None None false.

Abbreviation toy_sessions := (chansess_types (P := fses) (W := nworld) toy_cf toy_opts false).

Lemma toy_sessions_quiet : chansess_quiet toy_sessions.
Proof. exact (chansess_leaves_forwarding toy_cf toy_opts false). Qed.

Lemma toy_sessions_laws : chansess_laws toy_rw toy_sessions.
Proof. exact (chansess_keeps_laws toy_rw toy_cf toy_opts false). Qed.

(** ** A run *)

Definition toy_key : option PubKeyOptions := Some (add_permit_open (mkpermit (Some (str "web")) 80) no_options).
Definition toy_net : nworld :=
  mknworld (mktworld [] [] 100) (mknetlog [] [] []) 4 [(3, SaInet [10; 0; 0; 8] 2222)] [] (mkprocs [] [(1000, 768)] [] []).
Definition toy_ses : fses := mkfses toy_start [] toy_key false.

Abbreviation toyfws := (fwses (P := fses) (W := nworld)).

Definition toy_fwd : toyfws := mkfwses (chaninitialise toy_ses toy_net DROPBEAR_PRIO_NORMAL 3) listeners_initialise.

Definition global_req (name : bytes) (rest : bytes) : fwd_event := FwGlobal (payload_of (ssh_string name ++ [1] ++ rest)).

Definition open_tcp (chan : Z) (host : bytes) (port : Z) : fwd_event :=
  FwMsg MsgOpen (payload_of (ssh_string (str "direct-tcpip") ++ store32h chan ++ store32h 100 ++ store32h 50 ++
    ssh_string host ++ store32h port ++ ssh_string (str "1.2.3.4") ++ store32h 1000)).

(** A port is listened on and connected to; two connections are asked for, of which one is
    permitted, made at the second address, and given data; the port is given up. *)
Definition toy_fwd_events : list fwd_event :=
  [global_req (str "tcpip-forward") (ssh_string (str "localhost") ++ store32h 0);
   FwIO (fun fd => fd =? 4) (fun _ => false) false;
   open_tcp 7 (str "web") 80;
   open_tcp 8 (str "db") 22;
   FwSetConnect;
   FwHandleConnect (fun _ => true);
   FwMsg MsgData (payload_of (store32h 1 ++ ssh_string [1; 2; 3]));
   global_req (str "tcpip-forward") (ssh_string (str "") ++ store32h 80);
   global_req (str "cancel-tcpip-forward") (ssh_string (str "localhost") ++ store32h 40000)].

#[local] Instance toy_fwd_types : ChanTypes (P := fses) (W := nworld) := svr_chantypes toy_opts toy_sessions.

Definition toy_fwd_run : outcome toyfws := fwd_run toy_rw toy_opts toy_sessions toy_fwd_events toy_fwd.

Definition toy_fwd_end : toyfws := match toy_fwd_run with Ok f => f | _ => toy_fwd end.

Lemma toy_fwd_ends : fwd_run toy_rw toy_opts toy_sessions toy_fwd_events toy_fwd = Ok toy_fwd_end.
Proof. vm_compute. reflexivity. Qed.

(** What was bound, connected to, sent and closed. *)
Example toy_fwd_result :
  (bound (n_log (world (fch toy_fwd_end))), connected (n_log (world (fch toy_fwd_end))), map (take 9) (sent (ses (fch toy_fwd_end))),
   n_closed (world (fch toy_fwd_end)), map (option_map (fun _ => tt)) (listeners toy_fwd_end)) =
  ([SaInet [127; 0; 0; 1] 0; SaInet6 (replicate 15 0 ++ [1]) 40000],
   [SaInet [10; 0; 0; 1] 80; SaInet [10; 0; 0; 2] 80],
   [[81; 0; 0; 156; 64]; [90; 0; 0; 0; 15; 102; 111; 114; 119]; [92; 0; 0; 0; 8; 0; 0; 0; 1]; [91; 0; 0; 0; 7; 0; 0; 0; 1]; [82]; [81]],
   [7; 4; 5], [None]).
Proof. vm_compute. reflexivity. Qed.

Lemma toy_fwd_start : fwd_start toy_key false toy_fwd.
Proof. by split. Qed.

Lemma listens_where_permitted_witness : Forall (may_listen toy_opts toy_key false) (bound (net_log (world (fch toy_fwd_end)))).
Proof.
  apply (listens_where_permitted toy_rw toy_opts toy_sessions toy_sessions_quiet toy_key false toy_fwd_events toy_fwd toy_fwd_end).
  - exact toy_fwd_start.
  - exact toy_fwd_ends.
Defined.

Lemma connects_where_permitted_witness :
  Forall (may_connect toy_opts toy_key (net_log (world (fch toy_fwd_end)))) (connected (net_log (world (fch toy_fwd_end)))).
Proof.
  apply (connects_where_permitted toy_rw toy_opts toy_sessions toy_sessions_quiet toy_key false toy_fwd_events toy_fwd toy_fwd_end).
  - exact toy_fwd_start.
  - exact toy_fwd_ends.
Defined.

(** ** Safety *)

Lemma toy_ses_idle : idle toy_ses.
Proof. split; [split; [constructor|by apply Forall_singleton]|exact (proj2 toy_start_idle)]. Qed.

Definition pending_openb (s : chses (P := fses) (W := nworld)) : bool :=
  forallb (fun o => match o with
                    | Some c => match conn_pending c with Some _ => negb (sent_eof c) && negb (sent_close c) | None => true end
                    | None => true
                    end) (channels s).

Lemma pending_openb_ok s : pending_openb s = true -> pending_open s.
Proof.
  intros H i c Hc Hp. unfold pending_openb in H. rewrite forallb_forall in H.
  pose proof (H (Some c) (proj1 (list_elem_of_In _ _) (list_elem_of_lookup_2 _ _ _ Hc))) as Hx. cbn in Hx.
  destruct (conn_pending c); [|done]. by destruct (sent_eof c), (sent_close c).
Qed.

Definition fwd_event_okb (e : fwd_event) (f : toyfws) : bool :=
  match e with
  | FwMsg m pl => is_payload pl && match m with MsgData => data_okb (with_payload pl (fch f)) | MsgRequest => request_okb (with_payload pl (fch f)) | _ => true end
  | FwGlobal pl => is_payload pl
  | FwIO _ _ _ => true
  | FwSetConnect => true
  | FwHandleConnect _ => pending_openb (fch f)
  end.

Fixpoint fwd_events_okb (es : list fwd_event) (f : toyfws) : bool :=
  match es with
  | [] => true
  | e :: es => fwd_event_okb e f && match fwd_step toy_rw toy_opts toy_sessions e f with Ok f' => fwd_events_okb es f' | _ => true end
  end.

Lemma fwd_event_okb_ok e f : fwd_event_okb e f = true -> fwd_event_ok e f.
Proof.
  destruct e as [m pl|pl| | |wr]; cbn; [|intros H; split; [by apply is_payload_wf|done]|done|done|intros H; split; [by apply pending_openb_ok|done]].
  intros [H1 H2]%andb_prop. split; [|destruct m; try done; by apply data_okb_ok]. split; [by apply is_payload_wf|]. intros ->. by apply request_okb_ok.
Qed.

Lemma fwd_events_okb_ok es : forall f, fwd_events_okb es f = true -> fwd_events_ok toy_rw toy_opts toy_sessions es f.
Proof.
  induction es as [|e es IH]; intros f H; [done|]. cbn [fwd_events_okb fwd_events_ok] in *. apply andb_prop in H as [H1 H2].
  split; [by apply fwd_event_okb_ok|]. intros f' Hf'. rewrite Hf' in H2. by apply IH.
Qed.

Lemma forwarding_safe_witness : safe (steady toy_rw toy_opts toy_sessions toy_key false) toy_fwd_run.
Proof.
  apply (forwarding_safe toy_rw toy_rw_ok toy_opts toy_sessions toy_sessions_laws toy_sessions_quiet toy_key false toy_fwd_events toy_ses toy_net DROPBEAR_PRIO_NORMAL 3).
  - exact toy_ses_idle.
  - exact I.
  - exact toy_fwd_start.
  - apply fwd_events_okb_ok. vm_compute. reflexivity.
Defined.

(** ** Requests *)

Definition asking (bs : bytes) : toyfws := with_fch (with_payload (payload_of bs) (fch toy_fwd)) toy_fwd.

Lemma toy_asked bs : is_payload (payload_of bs) = true -> asked bs (asking bs).
Proof.
  intros H. split; [apply idle_payload; [exact toy_ses_idle|by apply is_payload_wf]|]. exists (payload_of bs). split; [done|].
  split; [by apply is_payload_wf|]. unfold unread. cbn. rewrite Z.sub_0_r. apply sub_all.
Qed.

Lemma toy_finv bs : finv toy_rw toy_opts toy_sessions toy_key false (asking bs).
Proof. apply (finv_start toy_rw toy_opts toy_sessions toy_key false). by split. Qed.

Definition toy_path : bytes := str "/tmp/s".

(** The listener there is after a Unix socket has been asked for. *)
Definition toy_stream : toyfws :=
  match fwd_run toy_rw toy_opts toy_sessions [global_req (str "streamlocal-forward@openssh.com") (ssh_string toy_path)] toy_fwd with Ok f => f | _ => toy_fwd end.

Definition cancel_stream : bytes := ssh_string (str "cancel-streamlocal-forward@openssh.com") ++ [1] ++ ssh_string toy_path ++ [].

Lemma toy_fwd_steady : steady toy_rw toy_opts toy_sessions toy_key false toy_fwd.
Proof.
  split; [by apply chaninitialise_ok; [exact toy_ses_idle|]|]. split; [intros [|[|i]] l; done|].
  apply (finv_start toy_rw toy_opts toy_sessions toy_key false _ toy_fwd_start).
Qed.

Lemma toy_stream_steady : steady toy_rw toy_opts toy_sessions toy_key false toy_stream.
Proof.
  pose proof (run_safe toy_rw toy_rw_ok toy_opts toy_sessions toy_sessions_laws toy_sessions_quiet toy_key false
    [global_req (str "streamlocal-forward@openssh.com") (ssh_string toy_path)] toy_fwd toy_fwd_steady) as H.
  unfold toy_stream. destruct (fwd_run _ _ _ _ _); [|exact toy_fwd_steady..]. apply H, fwd_events_okb_ok. vm_compute. reflexivity.
Qed.

Lemma streamlocal_never_cancelled_witness :
  let f := with_fch (with_payload (payload_of cancel_stream) (fch toy_stream)) toy_stream in
  safe (replied f [SSH_MSG_REQUEST_FAILURE]) (svr_recv_msg_global_request toy_rw toy_opts f).
Proof.
  apply (streamlocal_never_cancelled toy_rw toy_opts toy_sessions toy_path []).
  - apply toy_stream_steady.
  - vm_compute. discriminate.
  - split; [|exists (payload_of cancel_stream); split; [reflexivity|split; [apply is_payload_wf; vm_compute; reflexivity|vm_compute; reflexivity]]].
    apply idle_payload; [apply (so_idle _ _ (proj1 toy_stream_steady))|apply is_payload_wf; vm_compute; reflexivity].
Defined.

Definition listen_req : bytes := ssh_string (str "tcpip-forward") ++ [1] ++ ssh_string (str "localhost") ++ store32h 0.

Lemma forward_then_cancel_witness :
  safe (listen_outcome toy_rw toy_opts toy_sessions (str "localhost") 0 (asking listen_req)) (svr_recv_msg_global_request toy_rw toy_opts (asking listen_req)).
Proof.
  apply (forward_then_cancel toy_rw toy_opts toy_sessions toy_key false toy_sessions_quiet (str "localhost") 0 (asking listen_req)).
  - apply toy_finv.
  - by split.
  - vm_compute. discriminate.
  - unfold is_u32. lia.
  - apply toy_asked. vm_compute. reflexivity.
Defined.
End ToyFwd.
