(* ===== verification/ChanSessToy.v ===== *)
(** * Sessions at work on a concrete connection

    A client that asks for a terminal and a shell on one channel and for a command on another;
    the shell ends by itself, the command by a signal of the client.  The theorems on sessions
    are applied to this run and to states of it. *)

From S2P Require Import Prelude Bytes CString Buffer CircBuffer Packet SessionData Channel ChannelLaws ChannelFlow ChannelData ChannelClose ChannelSafety.
From S2P Require Import ChannelMessages ChannelToy AuthKeys Listener Netio NetioSafety Forward ForwardSafety ForwardRequests ForwardChannels ChannelErrors.
From S2P Require Import Sshd4a ChanSess ChanSessFrame ChanSessSafety ChanSessRun ChanSessExits ChanSessErrors ChanOpen ForwardToy.

Module ToySessions.
Import ToyChan ToyFwd.

(** All that is known of the connection and of the kernel is from what sessions use. *)
#[local] Remove Hints fses_session fses_conns fses_fwd fses_laws fses_fwd_laws fwd_sys fwd_net fwd_net_laws : typeclass_instances.

(** ** The run *)

Definition open_session (chan : Z) : srv_event :=
  SvForward (FwMsg MsgOpen (payload_of (ssh_string (str "session") ++ store32h chan ++ store32h 100 ++ store32h 50))).

Definition request (chan : Z) (name : bytes) (rest : bytes) : srv_event :=
  SvForward (FwMsg MsgRequest (payload_of (store32h chan ++ ssh_string name ++ 1 :: rest))).

(** VERASE is 127 (the character 2), ECHO is first off and then on, ICRNL is on. *)
Definition toy_modes : list (Z * Z) := [(3, 127); (53, 0); (36, 1); (53, 1)].
Definition toy_modes_string : bytes := enc_modes toy_modes ++ 0 :: [].

Definition pty_rest : bytes := ssh_string (str "xterm") ++ store32h 80 ++ store32h 24 ++ store32h 0 ++ store32h 0 ++ ssh_string toy_modes_string.

Definition round (sig : bool) : srv_event := SvForward (FwIO (fun _ => true) (fun _ => true) sig).

Definition toy_srv_starts : list srv_event :=
  [open_session 7; request 0 (str "pty-req") pty_rest; request 0 (str "shell") [];
   open_session 8; request 1 (str "exec") (ssh_string (str "scp -t x")); round false].

Definition toy_srv_events : list srv_event :=
  toy_srv_starts ++ [SvSignal true; round true; request 1 (str "signal") (ssh_string (str "TERM")); SvSignal true; round true].

Abbreviation toy_srv_step := (srv_step toy_rw toy_cf toy_opts false).
Abbreviation toy_srv_run := (srv_run toy_rw toy_cf toy_opts false).

Definition toy_srv_end : toyfws := match toy_srv_run toy_srv_events toy_fwd with Ok f => f | _ => toy_fwd end.

Lemma toy_srv_ends : toy_srv_run toy_srv_events toy_fwd = Ok toy_srv_end.
Proof. vm_compute. reflexivity. Qed.

(** What was sent from the end of the shell on: the exit and the CLOSE of each channel. *)
Example toy_srv_said :
  drop 7 (sent (ses (fch toy_srv_end))) =
  [98 :: store32h 7 ++ ssh_string (str "exit-status") ++ 0 :: store32h 3; 97 :: store32h 7; 99 :: store32h 8;
   98 :: store32h 8 ++ ssh_string (str "exit-signal") ++ 0 :: ssh_string (str "TERM") ++ 0 :: ssh_string [] ++ ssh_string []; 97 :: store32h 8].
Proof. vm_compute. reflexivity. Qed.

(** What was run. *)
Example toy_srv_ran :
  map (fun c => match c with Ok (ChildExec a b c t im) => Some (a, b, c, t, im_path im, im_argv im) | _ => None end) (forked (world (fch toy_srv_end))) =
  [Some (5, 5, 5, Some 5, str "/system/bin/sh", [str "-sh"]);
   Some (6, 9, 11, None, str "/system/bin/sh", [str "sh"; str "-c"; str "/lib/libscp.so -t x"])].
Proof. vm_compute. reflexivity. Qed.

(** ** Checked runs *)

Abbreviation toy_steady := (steady toy_rw toy_opts toy_sessions toy_key false).

Definition srv_event_okb (e : srv_event) (f : toyfws) : bool :=
  match e with SvForward e => fwd_event_okb e f | SvSignal _ => true end.

Fixpoint srv_events_okb (es : list srv_event) (f : toyfws) : bool :=
  match es with
  | [] => true
  | e :: es => srv_event_okb e f && match toy_srv_step e f with Ok f' => srv_events_okb es f' | _ => true end
  end.

Lemma srv_events_okb_ok es : forall f, srv_events_okb es f = true -> srv_events_ok toy_rw toy_cf toy_opts false es f.
Proof.
  induction es as [|e es IH]; intros f H; [done|]. cbn [srv_events_okb srv_events_ok] in *. apply andb_prop in H as [H1 H2].
  split; [destruct e; [by apply fwd_event_okb_ok|done]|]. intros f' Hf'. rewrite Hf' in H2. by apply IH.
Qed.

Lemma toy_srv_events_ok : srv_events_ok toy_rw toy_cf toy_opts false toy_srv_events toy_fwd.
Proof. apply srv_events_okb_ok. vm_compute. reflexivity. Qed.



Lemma children_run_permitted_witness :
  Forall (may_fork toy_cf toy_opts toy_key (get_user_shell toy_ses) (ss_pw_dir toy_ses)) (forked (world (fch toy_srv_end))).
Proof.
  apply (children_run_permitted toy_rw toy_cf toy_opts false toy_key toy_ses toy_net DROPBEAR_PRIO_NORMAL 3 toy_srv_events toy_srv_end).
  - reflexivity.
  - reflexivity.
  - exact toy_srv_ends.
Defined.

(** ** A terminal *)

Definition toy_pty_ses : ChanSess := mkchansess None 0 None 4 5 (Some (str "/dev/pts/0")) (Some (str "xterm")) (mkexit (-1) 0 0 0) None None.

Definition toy_pty_state : chses (P := fses) (W := nworld) := with_payload (payload_of (ssh_string toy_modes_string)) (fch toy_fwd).

Lemma termmodes_set_witness : exists t' s', get_termmodes toy_pty_ses toy_pty_state = Ok s' /\
  modes_set toy_modes (mktermios 0 5 191 35387 (replicate NCCS 0)) t' /\ world s' = sys_tcsetattr (master toy_pty_ses) t' (world toy_pty_state).
Proof.
  apply (termmodes_set toy_pty_ses toy_modes 0 [] (mktermios 0 5 191 35387 (replicate NCCS 0)) toy_pty_state).
  - apply Forall_forall. intros x Hx. unfold toy_modes in Hx. apply list_elem_of_In in Hx. cbn in Hx. unfold mode_ok, is_u32.
    repeat destruct Hx as [<-|Hx]; cbn; try lia; done.
  - by left.
  - vm_compute. reflexivity.
  - exists (payload_of (ssh_string toy_modes_string)). split; [done|]. split; [apply is_payload_wf; vm_compute; reflexivity|vm_compute; reflexivity].
  - reflexivity.
Defined.

(** ** The ends of processes *)

(** The shell and the command are running. *)
Definition toy_running : toyfws := match toy_srv_run toy_srv_starts toy_fwd with Ok f => f | _ => toy_fwd end.
(** The shell has ended. *)
Definition toy_ended : toyfws := match toy_srv_run (toy_srv_starts ++ [SvSignal true]) toy_fwd with Ok f => f | _ => toy_fwd end.

Lemma toy_srv_steady es : srv_events_okb es toy_fwd = true ->
  toy_steady (match toy_srv_run es toy_fwd with Ok f => f | _ => toy_fwd end).
Proof.
  intros H. pose proof (srv_run_safe toy_rw toy_rw_ok toy_cf toy_opts false toy_key false es toy_fwd toy_fwd_steady (srv_events_okb_ok es _ H)) as Hs.
  by destruct (toy_srv_run es toy_fwd); [|exact toy_fwd_steady..].
Qed.

(** The sessions of a state and their processes. *)
Definition pids (s : chses (P := fses) (W := nworld)) : list Z :=
  map (fun o => match o with Some c => match ctypedata c with Some cs => pid cs | None => 0 end | None => 0 end) (channels s).

Lemma distinct_by_pids (s : chses (P := fses) (W := nworld)) : pids s = [1000; 1001; 0; 0] -> distinct_pids s.
Proof.
  intros Hp. assert (Hpid : forall i c cs, at_session i c cs s -> pids s !! i = Some (pid cs)).
  { intros i c cs (Hc & _ & Hd). unfold pids. rewrite list_lookup_fmap, Hc. cbn. by rewrite Hd. }
  intros i j c d cs ds Hi%Hpid Hj%Hpid Hne Heq. rewrite Hp in Hi, Hj. rewrite <- Heq in Hj.
  destruct i as [|[|[|[|i]]]], j as [|[|[|[|j]]]]; cbn in Hi, Hj; try (by destruct i); try (by destruct j); congruence.
Qed.

Lemma exits_recorded_witness : exists s', svr_chansess_checksignal true (fch toy_running) = Ok s' /\
  st_ok toy_rw s' /\
  forall i c cs, at_session i c cs (fch toy_running) -> pid cs <> 0 ->
    at_session i (with_ctypedata (Some (record_exit [(1000, 768)] cs)) c) (record_exit [(1000, 768)] cs) s'.
Proof.
  apply (exits_recorded toy_rw (fch toy_running) [(1000, 768)] (snd (sys_waitpids (world (fch toy_running))))).
  - apply (toy_srv_steady toy_srv_starts). vm_compute. reflexivity.
  - apply distinct_by_pids. vm_compute. reflexivity.
  - vm_compute. reflexivity.
Defined.

(** The channel of the shell after its end. *)
Definition toy_shell_chan : Channel := match channels (fch toy_ended) !! 0%nat with Some (Some c) => c | _ => toy_chan end.
Definition toy_shell : ChanSess := default toy_pty_ses (ctypedata toy_shell_chan).

#[local] Instance toy_srv_types : ChanTypes (P := fses) (W := nworld) := svr_chantypes toy_opts toy_sessions.

Lemma close_reports_exit_witness :
  safe (fun s' => st_ok toy_rw s' /\ exists eof close : bool,
      sent (ses s') = sent (ses (fch toy_ended)) ++ (if eof then [eof_msg toy_shell_chan] else []) ++
        (if close then exit_msgs toy_shell_chan (ses_exit toy_shell) ++ [close_msg toy_shell_chan] else []) /\
      (eof = true -> sent_eof toy_shell_chan = false) /\
      (close = true -> sent_close toy_shell_chan = false /\ (pid toy_shell = 0 \/ exitpid (ses_exit toy_shell) <> -1)))
    (check_close 0 (fch toy_ended)).
Proof.
  apply (close_reports_exit toy_rw toy_cf toy_opts false 0 toy_shell_chan toy_shell (fch toy_ended)).
  - apply (toy_srv_steady (toy_srv_starts ++ [SvSignal true])). vm_compute. reflexivity.
  - split; [|split]; vm_compute; reflexivity.
Defined.

(** ** Opening *)

(** A request for a connection to a host. *)
Definition toy_open : open_request := OpenTcp (str "web") 80 (str "10.0.0.9") 4242.
Definition toy_open_state : chses (P := fses) (W := nworld) :=
  with_payload (payload_of (ssh_string (open_name toy_open) ++ store32h 9 ++ store32h 1000 ++ store32h 40000 ++ open_data toy_open ++ [])) (fch toy_fwd).

Lemma channel_open_reply_witness :
  safe (fun s' => opened toy_rw toy_opts toy_open 9 1000 40000 toy_open_state s' /\ st_ok toy_rw s') (recv_msg_channel_open toy_rw toy_open_state).
Proof.
  apply (channel_open_reply toy_rw toy_rw_ok toy_cf toy_opts false toy_open 9 1000 40000 [] toy_open_state).
  - assert (Hpl : wf (payload_of (ssh_string (open_name toy_open) ++ store32h 9 ++ store32h 1000 ++ store32h 40000 ++ open_data toy_open ++ [])))
      by (apply is_payload_wf; vm_compute; reflexivity).
    exact (proj1 (proj1 (steady_payload toy_rw toy_opts toy_sessions toy_key false _ toy_fwd Hpl toy_fwd_steady))).
  - split; [vm_compute; discriminate|]. split; [unfold is_u32; lia|]. split; [vm_compute; discriminate|unfold is_u32; lia].
  - unfold is_u32. lia.
  - unfold is_u32. lia.
  - unfold is_u32. lia.
  - eexists. split; [reflexivity|]. split; [apply is_payload_wf; vm_compute; reflexivity|vm_compute; reflexivity].
Defined.

(** The key permits it, and no other destination; nothing is said yet, and the channel waits. *)
Example toy_open_waits :
  permitted toy_opts (fs_pubkey_options (ses toy_open_state)) toy_open = Ok true /\
  permitted toy_opts (fs_pubkey_options (ses toy_open_state)) (OpenTcp (str "db") 80 (str "10.0.0.9") 4242) = Ok false /\
  match recv_msg_channel_open toy_rw toy_open_state with
  | Ok s => sent (ses s) = sent (ses toy_open_state) /\ map (fun kc => (remotehost (snd kc), remoteport (snd kc))) (ses_conn_pending (ses s)) = [(str "web", Some (str "80"))]
  | _ => False
  end.
Proof. split; [reflexivity|]. split; [reflexivity|]. vm_compute. by split. Qed.

(** ** Closing *)

Definition toy_closing : list close_op := [GotEof; Turn; GotClose; GotEof].

Lemma close_messages_once_witness :
  safe (fun s' => st_ok toy_rw s' /\ exists eof close : bool,
      sent (ses s') = sent (ses (fch toy_ended)) ++ (if eof then [eof_msg toy_shell_chan] else []) ++
        (if close then last_words toy_shell_chan ++ [close_msg toy_shell_chan] else []) /\
      (eof = true -> sent_eof toy_shell_chan = false /\ sent_close toy_shell_chan = false) /\ (close = true -> sent_close toy_shell_chan = false) /\
      (forall j, j <> 0%nat -> channels s' !! j = channels (fch toy_ended) !! j) /\
      match channels s' !! 0%nat with
      | Some (Some c') => type c' = type toy_shell_chan /\ remotechan c' = remotechan toy_shell_chan /\
          sent_eof c' = (sent_eof toy_shell_chan || eof || close) /\ sent_close c' = (sent_close toy_shell_chan || close)
      | _ => (recv_close toy_shell_chan = true \/ In GotClose toy_closing) /\ sent_close toy_shell_chan || close = true
      end)
    (run_close_ops 0 toy_closing (fch toy_ended)).
Proof.
  apply (close_messages_once toy_rw toy_cf toy_opts false 0 toy_shell_chan (fch toy_ended) toy_closing).
  - apply (toy_srv_steady (toy_srv_starts ++ [SvSignal true])). vm_compute. reflexivity.
  - vm_compute. reflexivity.
Defined.

(** ** A command after EOF *)

(** A session has been opened; the payload is an EOF for it. *)
Definition toy_opened : toyfws := match toy_srv_run [open_session 7] toy_fwd with Ok f => f | _ => toy_fwd end.
Definition toy_eof_state : chses (P := fses) (W := nworld) := with_payload (payload_of (store32h 0)) (fch toy_opened).
Definition toy_open_chan : Channel := match channels toy_eof_state !! 0%nat with Some (Some c) => c | _ => toy_chan end.
Definition toy_open_ses : ChanSess := default toy_pty_ses (ctypedata toy_open_chan).

(** The EOF has been handled; the payload is a request for a command. *)
Definition toy_eof_done : chses (P := fses) (W := nworld) := match recv_msg_channel_eof toy_eof_state with Ok s => s | _ => toy_eof_state end.
Definition toy_late_body : bytes := ssh_string (str "scp -t x").
Definition toy_late_request : buffer := payload_of (store32h 0 ++ ssh_string (str "exec") ++ [1] ++ toy_late_body).
Definition toy_late_state : chses (P := fses) (W := nworld) := with_payload toy_late_request toy_eof_done.

Lemma toy_can_start : can_start toy_late_state.
Proof.
  split.
  - destruct (get_socket_address (ss_sock_in (ses toy_late_state)) (world toy_late_state)) as [a| |] eqn:E; [by exists a|vm_compute in E; discriminate..].
  - intros run. exists 5, 6, 8, 1000, (snd (spawn_command run (world toy_late_state))). split; [vm_compute; reflexivity|lia].
Qed.

Lemma command_after_eof_witness :
  sent (ses toy_eof_done) = sent (ses toy_eof_state) ++ [eof_msg toy_open_chan; close_msg toy_open_chan] /\
  exists s2 c2 cs2, recv_msg_channel_request toy_late_state = Ok s2 /\ sent (ses s2) = sent (ses toy_eof_done) /\
    at_session 0 c2 cs2 s2 /\ 0 < pid cs2 /\ (exists child, forked (world s2) = forked (world toy_eof_done) ++ [child]) /\
    0 <= readfd c2 /\ forall readfds writefds sig, readfds (readfd c2) = true -> channel_io_one toy_rw readfds writefds sig 0 s2 = Exit assert_msg.
Proof.
  apply (command_after_eof toy_rw toy_cf toy_opts false 0 toy_open_chan toy_open_ses [] (str "exec") 1 toy_late_body toy_late_request toy_eof_state toy_eof_done).
  - assert (Hst : toy_steady toy_opened) by (apply (toy_srv_steady [open_session 7]); vm_compute; reflexivity).
    assert (Hpl : wf (payload_of (store32h 0))) by (apply is_payload_wf; vm_compute; reflexivity).
    exact (proj1 (proj1 (steady_payload toy_rw toy_opts toy_sessions toy_key false (payload_of (store32h 0)) toy_opened Hpl Hst))).
  - split; [|split]; vm_compute; reflexivity.
  - split; [vm_compute; reflexivity..|]. intros d p Hd. assert (type toy_open_chan = svrchansess) as -> by (vm_compute; reflexivity).
    change (closechansess d p = Ok p). unfold closechansess. rewrite Hd.
    assert (ctypedata toy_open_chan = Some (mkchansess None 0 None (-1) (-1) None None (mkexit (-1) 0 0 0) None None)) as -> by (vm_compute; reflexivity).
    reflexivity.
  - split; vm_compute; reflexivity.
  - exists (payload_of (store32h 0)). split; [reflexivity|]. split; [apply is_payload_wf; vm_compute; reflexivity|vm_compute; reflexivity].
  - vm_compute. reflexivity.
  - exact toy_can_start.
  - right. split; [reflexivity|]. exists (str "scp -t x"), []. split; [vm_compute; reflexivity|vm_compute; discriminate].
  - by right.
  - exists toy_late_request. split; [reflexivity|]. split; [apply is_payload_wf; vm_compute; reflexivity|vm_compute; reflexivity].
Defined.
End ToySessions.
