(* ===== verification/Server.v ===== *)
(** * Accepting connections (svr-main.c)

    The process that listens: [listensockets], and the loop of [main_noinetd], which forks a
    process for every connection and limits those that have not authenticated.  A child holds
    the write end of a pipe until it has authenticated or ends; the parent keeps the read ends
    with the addresses of the peers.

    The kernel is [NetSys] with a pipe and a fork: in the parent, [sys_fork_session] gives the
    pid, and the child serves the socket with its end of the pipe (it may execute the program
    again to do so).  Random numbers, daemon(), the pid file and logging are left out. *)

From S2P Require Import Prelude CString Channel Netio.

Definition MAX_UNAUTH_PER_IP : nat := 5.
Definition MAX_UNAUTH_CLIENTS : nat := 30.
Definition DROPBEAR_MAX_PORTS : nat := 10.
Definition MAX_LISTEN_ADDR : nat := DROPBEAR_MAX_PORTS * 3.

Class MainSys (W : Type) := {
  #[global] ms_net :: NetSys W;
  (** The pipe to a child: the ends to read and to write. *)
  sys_childpipe : W -> option (Z * Z) * W;
  (** The child serves the socket and holds the end of the pipe. *)
  sys_fork_session : Z -> Z -> W -> Z * W;
}.

(** [childpipes[i]] and [preauth_addrs[i]]. *)
Record slot := mkslot { childpipe : Z; preauth_addr : option bytes }.

Definition free_unauth : slot := mkslot (-1) None.

(** What [select] gave. *)
Inductive selected := SelTimeout | SelEintr | SelError | SelReady (fds : Z -> bool).

Section server.
Context {W : Type} {MS : MainSys W}.
(** [svr_opts.addresses] with [svr_opts.ports], and [svr_opts.interface]. *)
Context (ports : list (bytes * bytes)) (interface : option bytes).

Record main_state := mkmain { main_world : W; slots : list slot }.

Definition with_slots (l : list slot) (s : main_state) : main_state := mkmain (main_world s) l.
Definition with_main_world (w : W) (s : main_state) : main_state := mkmain w (slots s).

(** ** Listening *)

Definition listen_ready (w : W) (sock : Z) : W :=
  let w := sys_setsockopt sock (SockPriority DROPBEAR_PRIO_LOWDELAY) w in
  sys_setsockopt sock (TCP_FASTOPEN (Z.of_nat (Nat.max MAX_UNAUTH_PER_IP 5))) w.

(** The addresses that are left; at most [sockcount] sockets in all. *)
Fixpoint listensockets (l : list (bytes * bytes)) (sockcount : nat) (socks : list Z) (w : W) : outcome (list Z * W) :=
  match l with
  | [] => Ok (socks, w)
  | (address, port) :: l =>
      let* (r, w) := dropbear_listen (Some address) port (sockcount - length socks) interface w in
      match r with
      | None => listensockets l sockcount socks w
      | Some new => listensockets l sockcount (socks ++ new) (fold_left listen_ready new w)
      end
  end.

(** ** Those who have not authenticated *)

(** Children that have authenticated or ended: their pipe is closed. *)
Fixpoint close_ready (fds : Z -> bool) (l : list slot) (w : W) : list slot * W :=
  match l with
  | [] => ([], w)
  | x :: l =>
      let '(x, w) := if (0 <=? childpipe x) && fds (childpipe x) then (free_unauth, m_close (childpipe x) w) else (x, w) in
      let '(l, w) := close_ready fds l w in
      (x :: l, w)
  end.

(** How many there are in all and for the address, and the last free slot from [j] on. *)
Fixpoint count_unauthed (remote_host : bytes) (l : list slot) (j total for_addr conn_idx : nat) : outcome (nat * nat * nat) :=
  match l with
  | [] => Ok (total, for_addr, conn_idx)
  | x :: l =>
      if 0 <=? childpipe x then
        match preauth_addr x with
        | None => Undef
        | Some a => count_unauthed remote_host l (S j) (S total) (if strcmp_eq remote_host a then S for_addr else for_addr) conn_idx
        end
      else count_unauthed remote_host l (S j) total for_addr j
  end.

(** ** A connection *)

(** In the parent; [childsock] is closed in any case. *)
Definition serve_connection (childsock : Z) (remote_host : bytes) (s : main_state) : outcome main_state :=
  let* (total, for_addr, conn_idx) := count_unauthed remote_host (slots s) 0 0 0 0 in
  let s :=
    if (MAX_UNAUTH_CLIENTS <=? total)%nat || (MAX_UNAUTH_PER_IP <=? for_addr)%nat then s
    else
      let '(pipe, w) := sys_childpipe (main_world s) in
      match pipe with
      | None => with_main_world w s
      | Some (rd, wr) =>
          let '(fork_ret, w) := sys_fork_session childsock wr w in
          if fork_ret <? 0 then with_main_world w s
          else mkmain (m_close wr w) (<[conn_idx := mkslot rd (Some remote_host)]> (slots s))
      end in
  Ok (with_main_world (m_close childsock (main_world s)) s).

Definition accept_connection (sock : Z) (s : main_state) : outcome main_state :=
  let '(r, w) := sys_accept sock (main_world s) in
  let s := with_main_world w s in
  match r with
  | None => Ok s
  | Some (childsock, remoteaddr) =>
      if childsock <? 0 then Ok s
      else
        let* (remote_host, _) := getaddrstring remoteaddr in
        serve_connection childsock remote_host s
  end.

Fixpoint accept_connections (listensocks : list Z) (fds : Z -> bool) (s : main_state) : outcome main_state :=
  match listensocks with
  | [] => Ok s
  | sock :: listensocks =>
      let* s := if fds sock then accept_connection sock s else Ok s in
      accept_connections listensocks fds s
  end.

(** ** The loop *)

(** A turn, after [select] has returned. *)
Definition main_turn (listensocks : list Z) (exitflag : bool) (val : selected) (s : main_state) : outcome main_state :=
  if exitflag then Exit "Terminated by signal"
  else match val with
       | SelTimeout => Ok s
       | SelEintr => Ok s
       | SelError => Exit "Listening socket error"
       | SelReady fds =>
           let '(l, w) := close_ready fds (slots s) (main_world s) in
           accept_connections listensocks fds (mkmain w l)
       end.

Fixpoint main_loop (listensocks : list Z) (turns : list (bool * selected)) (s : main_state) : outcome main_state :=
  match turns with
  | [] => Ok s
  | (exitflag, val) :: turns => let* s := main_turn listensocks exitflag val s in main_loop listensocks turns s
  end.

Definition main_noinetd (turns : list (bool * selected)) (w : W) : outcome main_state :=
  let* (listensocks, w) := listensockets ports MAX_LISTEN_ADDR [] w in
  match listensocks with
  | [] => Exit "No listening ports available."
  | _ => main_loop listensocks turns (mkmain w (replicate MAX_UNAUTH_CLIENTS free_unauth))
  end.
End server.
