(* ===== verification/ServerSafety.v ===== *)
(** * The accept loop (svr-main.c) is right

    The limits on connections that have not authenticated hold in every state of the loop; what
    becomes of an accepted connection; and what becomes of the descriptors.  [MainLaws] has
    records of the descriptors opened and closed and of the sessions started. *)

From S2P Require Import Prelude CString Channel Netio NetioSafety Server.

Class MainLaws (W : Type) {MS : MainSys W} := {
  #[global] ml_net :: NetLaws W;
  opened : W -> list Z;
  closed : W -> list Z;
  served : W -> list (Z * Z);
  mo_accept sock w : opened (snd (sys_accept sock w)) = opened w ++ match fst (sys_accept sock w) with Some (fd, _) => [fd] | None => [] end;
  mo_pipe w : opened (snd (sys_childpipe w)) = opened w ++ match fst (sys_childpipe w) with Some (rd, wr) => [rd; wr] | None => [] end;
  mo_fork sock wr w : opened (snd (sys_fork_session sock wr w)) = opened w;
  mo_close fd w : opened (sys_close fd w) = opened w;
  mc_accept sock w : closed (snd (sys_accept sock w)) = closed w;
  mc_pipe w : closed (snd (sys_childpipe w)) = closed w;
  mc_fork sock wr w : closed (snd (sys_fork_session sock wr w)) = closed w;
  mc_close fd w : closed (sys_close fd w) = closed w ++ [fd];
  ms_accept sock w : served (snd (sys_accept sock w)) = served w;
  ms_pipe w : served (snd (sys_childpipe w)) = served w;
  ms_close fd w : served (sys_close fd w) = served w;
  ms_fork sock wr w : served (snd (sys_fork_session sock wr w)) = served w ++ if fst (sys_fork_session sock wr w) <? 0 then [] else [(sock, wr)];
  ml_pipe_fds w rd wr w' : sys_childpipe w = (Some (rd, wr), w') -> 0 <= rd /\ 0 <= wr;
}.

(** ** The table *)

Fixpoint num (f : slot -> bool) (l : list slot) : nat := match l with [] => 0 | x :: l => Nat.b2n (f x) + num f l end.

Definition used (x : slot) : bool := 0 <=? childpipe x.
Definition from (host : bytes) (x : slot) : bool := used x && match preauth_addr x with Some a => strcmp_eq host a | None => false end.

(** The pipes of the children there are. *)
Definition pipes (l : list slot) : list Z := map childpipe (List.filter used l).

Definition slot_ok (x : slot) : Prop := x = free_unauth \/ (0 <= childpipe x /\ is_Some (preauth_addr x)).

Record table_ok (l : list slot) : Prop := {
  to_length : length l = MAX_UNAUTH_CLIENTS;
  to_slots : Forall slot_ok l;
  to_limit host : (num (from host) l <= MAX_UNAUTH_PER_IP)%nat;
}.

Lemma num_insert f (l : list slot) i x y : l !! i = Some x -> (num f (<[i := y]> l) + Nat.b2n (f x) = num f l + Nat.b2n (f y))%nat.
Proof.
  revert i. induction l as [|z l IH]; intros [|i] H; try done.
  - injection H as ->. cbn. lia.
  - change (<[S i := y]> (z :: l)) with (z :: <[i := y]> l). cbn [num]. specialize (IH i H). lia.
Qed.

Lemma num_free f : f free_unauth = false -> forall n, num f (replicate n free_unauth) = 0%nat.
Proof. intros Hf n. induction n as [|n IH]; cbn; [done|]. by rewrite Hf, IH. Qed.

Lemma strcmp_eq_same a b h : strcmp_eq a b = true -> strcmp_eq h a = strcmp_eq h b.
Proof. unfold strcmp_eq. intros H%bool_decide_eq_true. by rewrite H. Qed.

Lemma table_empty : table_ok (replicate MAX_UNAUTH_CLIENTS free_unauth).
Proof. split; [done|apply Forall_replicate; by left|]. intros h. rewrite num_free by done. lia. Qed.

Lemma num_le f (l : list slot) : (num f l <= length l)%nat.
Proof. induction l as [|x l IH]; cbn; [lia|]. destruct (f x); cbn; lia. Qed.

(** The count: [idx] is a free slot, if there is one. *)
Lemma count_ok host l : forall j total for_addr idx, Forall slot_ok l ->
  exists idx', count_unauthed host l j total for_addr idx = Ok (total + num used l, for_addr + num (from host) l, idx')%nat /\
    ((num used l < length l)%nat -> exists k, idx' = (j + k)%nat /\ l !! k = Some free_unauth) /\ ((num used l = length l)%nat -> idx' = idx).
Proof.
  induction l as [|x l IH]; intros j total for_addr idx Hl; cbn [count_unauthed num].
  { exists idx. rewrite !Nat.add_0_r. split; [done|]. split; [cbn; lia|done]. }
  apply Forall_cons in Hl as [Hx Hl]. pose proof (num_le used l) as Hle. destruct Hx as [->|[Hu [a Ha]]].
  - change (0 <=? childpipe free_unauth) with false. cbv iota. destruct (IH (S j) total for_addr j Hl) as (idx' & -> & H1 & H2). exists idx'. split; [done|].
    cbn [length]. change (Nat.b2n (used free_unauth)) with 0%nat. split; [|lia]. intros _. destruct (decide (num used l = length l)) as [E|E].
    + exists 0%nat. split; [rewrite (H2 E); lia|done].
    + destruct H1 as (k & -> & Hk); [lia|]. exists (S k). split; [lia|done].
  - assert (Hux : used x = true) by by apply Z.leb_le. change (0 <=? childpipe x) with (used x). rewrite Hux, Ha.
    assert (Hf : from host x = strcmp_eq host a) by (unfold from; by rewrite Hux, Ha). rewrite Hf. cbn [Nat.b2n length].
    destruct (IH (S j) (S total) (if strcmp_eq host a then S for_addr else for_addr) idx Hl) as (idx' & -> & H1 & H2). exists idx'. split.
    { assert (S total + num used l = total + (1 + num used l))%nat as -> by lia.
      assert ((if strcmp_eq host a then S for_addr else for_addr) + num (from host) l = for_addr + (Nat.b2n (strcmp_eq host a) + num (from host) l))%nat as ->
        by (destruct (strcmp_eq host a); cbn; lia). done. }
    split; [|intros; apply H2; lia]. intros Hlt. destruct H1 as (k & -> & Hk); [lia|]. exists (S k). split; [lia|done].
Qed.

Section server.
Context {W : Type} {MS : MainSys W} {ML : MainLaws W}.
Abbreviation main_state := (main_state (W := W)).

(** ** What the kernel was asked *)

(** Between two states of the kernel: descriptors opened, descriptors closed, sessions started. *)
Definition moved (w w' : W) (lo lc : list Z) (ls : list (Z * Z)) : Prop :=
  opened w' = opened w ++ lo /\ closed w' = closed w ++ lc /\ served w' = served w ++ ls.

Lemma moved_refl w : moved w w [] [] [].
Proof. unfold moved. by rewrite !app_nil_r. Qed.

Lemma moved_trans w1 w2 w3 lo lc ls lo' lc' ls' : moved w1 w2 lo lc ls -> moved w2 w3 lo' lc' ls' -> moved w1 w3 (lo ++ lo') (lc ++ lc') (ls ++ ls').
Proof. intros (H1 & H2 & H3) (H4 & H5 & H6). unfold moved. rewrite !app_assoc. split_and!; congruence. Qed.

Lemma moved_close fd w : 0 <= fd -> moved w (m_close fd w) [] [fd] [].
Proof.
  intros Hfd. unfold m_close. rewrite (proj2 (Z.ltb_ge _ _)) by done. unfold moved. rewrite !app_nil_r.
  split; [apply mo_close|]. split; [apply mc_close|apply ms_close].
Qed.

Lemma close_ready_ok fds l : forall (w : W) l' w', Forall slot_ok l -> close_ready fds l w = (l', w') ->
  length l' = length l /\ Forall slot_ok l' /\ (forall h, (num (from h) l' <= num (from h) l)%nat) /\
  exists lc, moved w w' [] lc [] /\ pipes l ≡ₚ lc ++ pipes l'.
Proof.
  induction l as [|x l IH]; intros w l' w' Hl; cbn [close_ready].
  { intros [= <- <-]. split; [done|]. split; [done|]. split; [done|]. exists []. split; [apply moved_refl|done]. }
  apply Forall_cons in Hl as [Hx Hl]. destruct (_ && _) eqn:E.
  - apply andb_prop in E as [Hu _]. destruct (close_ready fds l (m_close (childpipe x) w)) as [l1 w1] eqn:E1. intros [= <- <-].
    destruct (IH _ _ _ Hl E1) as (Hlen & Hok & Hn & lc & Hm & Hp). split; [cbn; congruence|]. split; [constructor; [by left|done]|]. split.
    { intros h. specialize (Hn h). cbn [num]. change (from h free_unauth) with false. cbn. lia. }
    exists (childpipe x :: lc). split; [eapply (moved_trans _ _ _ [] [childpipe x] []); [apply moved_close; lia|exact Hm]|].
    unfold pipes in *. cbn [List.filter]. change (used x) with (0 <=? childpipe x). rewrite Hu. cbn. by rewrite Hp.
  - destruct (close_ready fds l w) as [l1 w1] eqn:E1. intros [= <- <-]. destruct (IH _ _ _ Hl E1) as (Hlen & Hok & Hn & lc & Hm & Hp).
    split; [cbn; congruence|]. split; [by constructor|]. split; [intros h; specialize (Hn h); cbn [num]; lia|].
    exists lc. split; [done|]. unfold pipes in *. cbn [List.filter]. destruct (used x); [|done]. cbn. rewrite Hp. apply Permutation_middle.
Qed.

(** ** A connection *)

(** What has become of the connection [fd] from [host], by the state it was accepted in. *)
Inductive handled (fd : Z) (host : bytes) (s s' : main_state) : Prop :=
| refused : num used (slots s) = MAX_UNAUTH_CLIENTS \/ (MAX_UNAUTH_PER_IP <= num (from host) (slots s))%nat ->
    slots s' = slots s -> moved (main_world s) (main_world s') [] [fd] [] -> handled fd host s s'
| no_pipe : fst (sys_childpipe (main_world s)) = None ->
    slots s' = slots s -> moved (main_world s) (main_world s') [] [fd] [] -> handled fd host s s'
| no_fork rd wr w1 : sys_childpipe (main_world s) = (Some (rd, wr), w1) -> fst (sys_fork_session fd wr w1) < 0 ->
    slots s' = slots s -> moved (main_world s) (main_world s') [rd; wr] [fd] [] -> handled fd host s s'
| started rd wr i : num used (slots s) <> MAX_UNAUTH_CLIENTS -> (num (from host) (slots s) < MAX_UNAUTH_PER_IP)%nat ->
    slots s !! i = Some free_unauth -> slots s' = <[i := mkslot rd (Some host)]> (slots s) -> 0 <= rd ->
    moved (main_world s) (main_world s') [rd; wr] [wr; fd] [(fd, wr)] -> handled fd host s s'.

Lemma serve_ok fd host (s : main_state) : table_ok (slots s) -> 0 <= fd -> exists s', serve_connection fd host s = Ok s' /\ handled fd host s s'.
Proof.
  intros [Hlen Hok Hlim] Hfd. unfold serve_connection. destruct (count_ok host (slots s) 0 0 0 0 Hok) as (idx & -> & Hidx & _). cbn [obind Nat.add].
  pose proof (num_le used (slots s)) as Hle. destruct (_ || _) eqn:E.
  { eexists. split; [done|]. apply refused; [|done|by apply moved_close]. apply orb_prop in E as [E|E]; [left|right]; apply Nat.leb_le in E; lia. }
  apply orb_false_elim in E as [E1%Nat.leb_gt E2%Nat.leb_gt]. destruct Hidx as (k & -> & Hk); [lia|].
  pose proof (mo_pipe (main_world s)) as P1. pose proof (mc_pipe (main_world s)) as P2. pose proof (ms_pipe (main_world s)) as P3.
  destruct (sys_childpipe (main_world s)) as [[[rd wr]|] w1] eqn:Ep; cbn [fst snd] in *.
  2: { eexists. split; [done|]. apply no_pipe; [by rewrite Ep|done|]. cbn. destruct (moved_close fd w1 Hfd) as (M1 & M2 & M3).
       unfold moved. rewrite M1, M2, M3, P1, P2, P3, !app_nil_r. done. }
  assert (Hm1 : moved (main_world s) w1 [rd; wr] [] []) by (unfold moved; by rewrite !app_nil_r).
  destruct (ml_pipe_fds _ _ _ _ Ep) as [Hrd Hwr]. pose proof (mo_fork fd wr w1) as F1. pose proof (mc_fork fd wr w1) as F2. pose proof (ms_fork fd wr w1) as F3.
  destruct (sys_fork_session fd wr w1) as [n w2] eqn:Ef. cbn [fst snd] in *. destruct (Z.ltb_spec n 0) as [Hn|Hn].
  - assert (Hm2 : moved w1 w2 [] [] []) by by unfold moved; rewrite !app_nil_r in *.
    pose proof (moved_trans _ _ _ _ _ _ _ _ _ (moved_trans _ _ _ _ _ _ _ _ _ Hm1 Hm2) (moved_close fd w2 Hfd)) as M.
    eexists. split; [done|]. eapply (no_fork _ _ _ _ rd wr w1); [done|by rewrite Ef|done|exact M].
  - assert (Hm2 : moved w1 w2 [] [] [(fd, wr)]) by (unfold moved; by rewrite !app_nil_r).
    pose proof (moved_trans _ _ _ _ _ _ _ _ _ (moved_trans _ _ _ _ _ _ _ _ _ Hm1 Hm2)
      (moved_trans _ _ _ _ _ _ _ _ _ (moved_close wr w2 Hwr) (moved_close fd _ Hfd))) as M.
    eexists. split; [done|]. eapply (started _ _ _ _ rd wr k); [lia|done|done|done|done|exact M].
Qed.

Lemma pipes_insert l i rd a : l !! i = Some free_unauth -> 0 <= rd -> pipes (<[i := mkslot rd a]> l) ≡ₚ rd :: pipes l.
Proof.
  intros Hi Hrd. unfold pipes. revert i Hi. induction l as [|x l IH]; intros [|i] Hi; try done.
  - injection Hi as ->. cbn. unfold used at 1. cbn. by rewrite (proj2 (Z.leb_le _ _) Hrd).
  - change (<[S i := mkslot rd a]> (x :: l)) with (x :: <[i := mkslot rd a]> l). cbn [List.filter]. specialize (IH i Hi).
    destruct (used x); [|done]. cbn [map]. rewrite IH. constructor.
Qed.

Lemma handled_table fd host (s s' : main_state) : table_ok (slots s) -> handled fd host s s' -> table_ok (slots s').
Proof.
  intros Ht [? -> _|? -> _|rd wr w1 ? ? -> _|rd wr i Hn Hh Hi Hs Hrd _]; [done..|]. rewrite Hs. destruct Ht as [Hlen Hok Hlim]. split.
  - by rewrite length_insert.
  - apply Forall_insert; [done|]. right. by split; [|exists host].
  - intros h. pose proof (num_insert (from h) _ i _ (mkslot rd (Some host)) Hi) as E. change (from h free_unauth) with false in E.
    assert (Hf : from h (mkslot rd (Some host)) = strcmp_eq h host) by (unfold from, used; cbn; by rewrite (proj2 (Z.leb_le _ _) Hrd)). rewrite Hf in E.
    specialize (Hlim h). destruct (strcmp_eq h host) eqn:Eh; cbn [Nat.b2n] in E; [|lia].
    assert (num (from h) (slots s) = num (from host) (slots s)) as Hsame; [|lia]. clear -Eh. induction (slots s) as [|x l IH]; cbn; [done|]. rewrite IH.
    unfold from. destruct (preauth_addr x) as [a|]; [|done]. do 3 f_equal. unfold strcmp_eq in *. apply bool_decide_eq_true in Eh. by rewrite Eh.
Qed.

(** ** The loop *)

Definition forks : Prop := forall sock wr (w : W), 0 <= fst (sys_fork_session sock wr w).

(** Since the state [w], every descriptor opened has been closed or is the pipe of a child. *)
Definition accounted (w : W) (s : main_state) : Prop :=
  exists lo lc ls, moved w (main_world s) lo lc ls /\ lo ≡ₚ lc ++ pipes (slots s).

Definition loop_ok (w : W) (s : main_state) : Prop := table_ok (slots s) /\ (forks -> accounted w s).

Lemma handled_accounted w fd host (s s' : main_state) : forks -> handled fd host s s' ->
  (exists lo lc ls, moved w (main_world s) lo lc ls /\ lo ≡ₚ fd :: lc ++ pipes (slots s)) -> accounted w s'.
Proof.
  intros Hf H (lo & lc & ls & Hm & Hp). destruct H as [? Hs M|? Hs M|rd wr w1 ? Hn _ _|rd wr i _ _ Hi Hs Hrd M].
  - eexists _, _, _. split; [eapply moved_trans; [exact Hm|exact M]|]. rewrite Hs, app_nil_r, Hp, <- app_assoc. apply Permutation_middle.
  - eexists _, _, _. split; [eapply moved_trans; [exact Hm|exact M]|]. rewrite Hs, app_nil_r, Hp, <- app_assoc. apply Permutation_middle.
  - specialize (Hf fd wr w1). lia.
  - eexists _, _, _. split; [eapply moved_trans; [exact Hm|exact M]|]. rewrite Hs, pipes_insert, Hp by done. rewrite <- app_assoc. cbn.
    rewrite (Permutation_app_comm _ [rd; wr]), <- !Permutation_middle. cbn. etrans; [apply perm_skip, perm_swap|apply perm_swap].
Qed.

Lemma accept_ok w sock (s : main_state) : loop_ok w s -> safe (loop_ok w) (accept_connection sock s).
Proof.
  intros [Ht Ha]. unfold accept_connection. pose proof (mo_accept sock (main_world s)) as A1. pose proof (mc_accept sock (main_world s)) as A2.
  pose proof (ms_accept sock (main_world s)) as A3. destruct (sys_accept sock (main_world s)) as [[[fd a]|] w1] eqn:E; cbn [fst snd] in *.
  2: { split; [done|]. intros Hf. destruct (Ha Hf) as (lo & lc & ls & (M1 & M2 & M3) & Hp). exists lo, lc, ls. split; [|done].
       unfold moved. cbn. rewrite app_nil_r in A1. split_and!; congruence. }
  pose proof (nl_accept_fd _ _ _ _ _ E) as Hfd. rewrite (proj2 (Z.ltb_ge _ _)) by done. unfold getaddrstring. destruct (sys_getnameinfo a) as [[host port]|]; [|done].
  cbn [obind]. destruct (serve_ok fd host (with_main_world w1 s) Ht Hfd) as (s' & -> & H). split; [by eapply handled_table; [|exact H]|].
  intros Hf. eapply handled_accounted; [done|exact H|]. destruct (Ha Hf) as (lo & lc & ls & (M1 & M2 & M3) & Hp).
  exists (lo ++ [fd]), lc, ls. split; [unfold moved; cbn; rewrite A1, M1, <- app_assoc; split_and!; congruence|]. cbn. rewrite Hp. by rewrite <- Permutation_cons_append.
Qed.

Lemma accepts_ok w socks fds : forall (s : main_state), loop_ok w s -> safe (loop_ok w) (accept_connections socks fds s).
Proof.
  induction socks as [|sock socks IH]; intros s Hs; cbn [accept_connections]; [done|]. eapply (safe_bind (loop_ok w)); [|intros s1 _ H1; by apply IH].
  destruct (fds sock); [by apply accept_ok|done].
Qed.

Lemma turn_ok w socks exitflag val (s : main_state) : loop_ok w s -> safe (loop_ok w) (main_turn socks exitflag val s).
Proof.
  intros [Ht Ha]. unfold main_turn. destruct exitflag; [done|]. destruct val as [| | |fds]; [done..|]. destruct (close_ready fds (slots s) (main_world s)) as [l w1] eqn:E.
  destruct (close_ready_ok fds (slots s) (main_world s) l w1 (to_slots _ Ht) E) as (H1 & H2 & H3 & lc' & Hm & Hp). apply accepts_ok. split.
  - destruct Ht as [T1 T2 T3]. split; [cbn; congruence|done|]. intros h. specialize (H3 h). specialize (T3 h). cbn. lia.
  - intros Hf. destruct (Ha Hf) as (lo & lc & ls & M & Hq). eexists _, _, _. split; [eapply moved_trans; [exact M|exact Hm]|].
    rewrite app_nil_r, Hq, Hp. cbn. by rewrite app_assoc.
Qed.

Lemma loop_safe w socks turns : forall (s : main_state), loop_ok w s -> safe (loop_ok w) (main_loop socks turns s).
Proof.
  induction turns as [|[e v] turns IH]; intros s Hs; cbn [main_loop]; [done|]. eapply safe_bind; [by apply turn_ok|]. intros s1 _ H1. by apply IH.
Qed.

Lemma loop_start w : loop_ok w (mkmain w (replicate MAX_UNAUTH_CLIENTS free_unauth)).
Proof. split; [apply table_empty|]. intros _. exists [], [], []. split; [apply moved_refl|done]. Qed.

(** ** Listening *)

Lemma listen_loop_length n i res : forall socks port (w : W), (length socks <= n)%nat ->
  returns (fun x => (length (fst x) <= n)%nat) (listen_loop res n i socks port w).
Proof.
  induction res as [|a res IH]; intros socks port w Hn; cbn [listen_loop]; [done|]. destruct (Nat.leb_spec n (length socks)); [done|].
  destruct (sys_socket _ w) as [sock w1]. destruct (sock <? 0); [by apply IH|]. destruct (sys_bind _ _ _) as [b w2]. destruct (negb b); [by apply IH|].
  destruct (sys_listen _ _ _) as [ok w3]. destruct (negb ok); [by apply IH|]. eapply returns_bind; [apply returns_true|]. intros p _ _. apply IH.
  rewrite length_app. cbn. lia.
Qed.

Lemma listensockets_safe i l n : forall socks (w : W), Forall (fun x => 0 <= atol (snd x)) l -> (length socks <= n)%nat ->
  safe (fun x => (length (fst x) <= n)%nat) (listensockets i l n socks w).
Proof.
  induction l as [|[address port] l IH]; intros socks w Hl Hn; cbn [listensockets]; [done|]. apply Forall_cons in Hl as [Hp Hl].
  eapply safe_bind; [by apply dropbear_listen_ok|]. intros [r w1] Hr _. destruct r as [new|]; [|by apply IH]. apply IH; [done|].
  unfold dropbear_listen in Hr. destruct (sys_getaddrinfo _ _ _ _) as [[e|res] w0]; [done|]. apply obind_Ok in Hr as ([new' w2] & Hr & E).
  pose proof (listen_loop_length (n - length socks) i res [] 0 w0 ltac:(cbn; lia)) as H. rewrite Hr in H. cbn [fst] in H.
  assert (new = new') as -> by by destruct new'; injection E. rewrite length_app. cbn in H. lia.
Qed.


(** what becomes of a connection. One that is accepted is refused exactly when the table is full
    or its address has MAX_UNAUTH_PER_IP children that have not authenticated; otherwise it gets
    a session, with a new pipe whose read end takes a free place of the table, unless there is no
    pipe or the fork fails. The parent closes the connection in any case and the write end of the
    pipe once the child has it; when the fork fails both ends stay open. Nothing else in the
    table changes. *)
Theorem connection_handled sock fd a host port w1 (s : main_state) :
  table_ok (slots s) -> sys_accept sock (main_world s) = (Some (fd, a), w1) -> sys_getnameinfo a = Some (host, port) ->
  exists s', accept_connection sock s = Ok s' /\ handled fd host (with_main_world w1 s) s'.
Proof.
  intros Ht E Hn. unfold accept_connection, getaddrstring. rewrite E, Hn. pose proof (nl_accept_fd _ _ _ _ _ E) as Hfd.
  rewrite (proj2 (Z.ltb_ge _ _)) by done. cbn [obind]. by apply (serve_ok fd host (with_main_world w1 s)).
Qed.

(** the process that listens keeps no descriptors. As long as forks do not fail, every descriptor
    it got from a connection or a pipe since it started to accept has been closed exactly once or
    is the pipe of a child in the table, which is open. *)
Theorem descriptors_accounted socks turns (w : W) s' :
  forks -> main_loop socks turns (mkmain w (replicate MAX_UNAUTH_CLIENTS free_unauth)) = Ok s' ->
  exists lo lc ls, opened (main_world s') = opened w ++ lo /\ closed (main_world s') = closed w ++ lc /\
    served (main_world s') = served w ++ ls /\ lo ≡ₚ lc ++ pipes (slots s').
Proof.
  intros Hf H. pose proof (loop_safe w socks turns _ (loop_start w)) as Hs. rewrite H in Hs. destruct Hs as [_ Ha].
  destruct (Ha Hf) as (lo & lc & ls & (M1 & M2 & M3) & Hp). by exists lo, lc, ls.
Qed.
End server.
