(* ===== verification/ServerToy.v ===== *)
(** * The accept loop at work

    Connections that all come from one address: five are served, the sixth is refused until a
    child has authenticated. *)

From S2P Require Import Prelude CString Channel Netio NetioSafety ForwardToy Server ServerSafety.

Module ToyServer.
Import ToyFwd.

#[global] Instance toy_main_sys : MainSys nworld := {|
  sys_childpipe w := let '(a, w) := new_fd w in let '(b, w) := new_fd w in (Some (a, b), w);
  sys_fork_session sock wr w :=
    (2000, set_procs (mkprocs (p_forked (n_procs w)) (p_exits (n_procs w)) (p_ttys (n_procs w)) (p_served (n_procs w) ++ [(sock, wr)])) w);
|}.

Definition fds_upto (n : nat) : list Z := map Z.of_nat (seq 0 n).

Lemma fds_upto_S n : fds_upto (S n) = fds_upto n ++ [Z.of_nat n].
Proof. unfold fds_upto. by rewrite seq_S, map_app. Qed.

#[global] Instance toy_main_laws : MainLaws nworld.
Proof.
  refine {| ml_net := fwd_net_laws; opened w := fds_upto (n_next w); closed := n_closed; served w := p_served (n_procs w) |}; try done; intros.
  - apply fds_upto_S.
  - cbn [sys_childpipe toy_main_sys new_fd n_next fst snd]. by rewrite !fds_upto_S, <- app_assoc.
  - injection H as <- <- _. lia.
Defined.

Definition toy_ports : list (bytes * bytes) := [([], str "2222")].

(** Socket 4 listens; six connections come, then a child (pipe 9) has authenticated, and one more
    connection comes. *)
Definition toy_turns : list (bool * selected) :=
  replicate 6 (false, SelReady (fun fd => fd =? 4)) ++ [(false, SelEintr); (false, SelReady (fun fd => (fd =? 4) || (fd =? 9)))].

Definition toy_main : outcome (main_state (W := nworld)) := main_noinetd toy_ports None toy_turns toy_net.

(** The sixth connection (20) is closed without a session; the seventh takes the place of the
    child that has authenticated. *)
Example toy_main_result :
  match toy_main with
  | Ok s => Some (pipes (slots s), n_closed (main_world s), served (main_world s))
  | _ => None
  end = Some ([18; 15; 12; 22; 6], [7; 5; 10; 8; 13; 11; 16; 14; 19; 17; 20; 9; 23; 21], [(5, 7); (8, 10); (11, 13); (14, 16); (17, 19); (21, 23)]).
Proof. vm_compute. reflexivity. Qed.


Definition toy_listening : main_state (W := nworld) := mkmain toy_net (replicate MAX_UNAUTH_CLIENTS free_unauth).

Lemma connection_handled_witness :
  exists s', accept_connection 4 toy_listening = Ok s' /\ handled 4 (str "10.0.0.9") (with_main_world (snd (sys_accept 4 toy_net)) toy_listening) s'.
Proof.
  apply (connection_handled 4 4 (SaInet [10; 0; 0; 9] 5555) (str "10.0.0.9") (port_text 5555) (snd (sys_accept 4 toy_net)) toy_listening).
  - apply table_empty.
  - reflexivity.
  - reflexivity.
Defined.

Definition toy_loop_end : main_state (W := nworld) := match main_loop [4] toy_turns toy_listening with Ok s => s | _ => toy_listening end.

Lemma descriptors_accounted_witness :
  exists lo lc ls, opened (main_world toy_loop_end) = opened toy_net ++ lo /\ closed (main_world toy_loop_end) = closed toy_net ++ lc /\
    served (main_world toy_loop_end) = served toy_net ++ ls /\ lo ≡ₚ lc ++ pipes (slots toy_loop_end).
Proof.
  apply (descriptors_accounted [4] toy_turns toy_net toy_loop_end).
  - intros sock wr w. vm_compute. discriminate.
  - vm_compute. reflexivity.
Defined.
End ToyServer.
